(* ===== verification/_CoqProject ===== *)
-Q . S2P
Prelude.v
Results.v
Utils.v
MasqueFraming.v
VpnPolicy.v
SocketPinner.v
DnsMessage.v
DnsResolver.v
StreamParser.v
Buffer.v
BCBuffer.v
BCFObject.v
SMPParser.v
WSParser.v
HttpText.v
HttpResponse.v
TlsContext.v
SMPConfig.v
SMPStream.v
SMPConnection.v
SMPInvariant.v
SMPSteps.v
SMPHandlers.v
SMPTunnels.v
SMPTasks.v
SMPReachable.v
SMPProperties.v
UdpSender.v
UdpInvariant.v
UdpSteps.v
UdpGroup.v
UdpReachable.v
UdpProperties.v
TcpChannel.v
ChannelInvariant.v
ChannelProperties.v
WSConnector.v
WSRobust.v
WSInvariant.v
WSSteps.v
WSProperties.v
