(* ===== verification/Prelude.v ===== *)
(** * TTSignal: a verification library of its C++ core

    TTSignal ([src/src/cpp]) is a signalling client and server: it resolves names past or
    through a VPN, pins sockets to physical interfaces, opens TCP/TLS channels and QUIC
    connections, and frames its messages (SMP packets, WebSocket frames, MASQUE datagrams).
    This library models the parts of that code whose logic is the project's own, as Rocq
    functions that follow the C++ function by function, and proves what makes them correct.

    ** The files

    - [Prelude]: machine words, byte strings addressed by [Z], big-endian numbers, memory,
      record update, and the tactics and lemmas the other files share.
    - [Results]: the result codes and [ResultName] ([Utils.cpp], [TTErrors.h], [BCResult]).
    - [Utils]: splitting, trimming, URI encoding and connection identifiers ([Utils.cpp]).
    - [MasqueFraming]: QUIC variable-length integers, datagram framing and the CONNECT-UDP
      path ([MasqueFraming.cpp]).
    - [VpnPolicy]: the policies, the classes of peer addresses and the decision to keep or
      drop a pinned interface ([VpnPolicy.cpp]).
    - [SocketPinner]: how a socket is bound to an interface on each platform
      ([SocketPinner.cpp]); the system calls are a parameter.
    - [DnsMessage], [DnsResolver]: building queries, parsing hostile responses, and the
      resolver over UDP, the system resolver and the cache ([DnsResolver.cpp]).
    - [StreamParser]: what it means for a parser fed in pieces to be a function of the whole
      stream; the interface the two packet parsers implement.
    - [Buffer], [BCBuffer]: the flat buffer its users rely on, and [BCBuffer] as it is, a list
      of shared blocks in a heap ([src/deps/env/src/BC/BCBuffer.cpp], [BCStream.cpp]).
    - [SMPParser]: SMP packets ([SMPParser.cpp], [SMPacket.h]).
    - [WSParser]: the WebSocket handshake and frames ([WSParser.cpp]).
    - [HttpText]: URLs, header maps and the texts of requests and handshakes
      ([Utils.cpp], [HttpConnector.cpp], [WSConnector.cpp], [LLHTTPParser.cpp]).
    - [HttpResponse]: what an HTTP connection makes of its response: the parser's callbacks,
      the limits, and what is delivered ([HttpConnector.cpp], class [HttpConnection]). What
      llhttp finds in the bytes is a parameter; what it does with the callbacks' results is
      modelled.
    - [BCFObject]: configuration objects and what reads their members ([BC/BCFCodec.h]).
    - [TlsContext]: trusted certificates, pins and the verification of a chain
      ([TlsContext.cpp]); OpenSSL is a parameter.
    - [SMPConfig]: the configuration of the signalling connector and of its connections,
      the proxy's URL, the MASQUE tunnel's object, connection ids and the check of the
      server's certificate ([SMPConnector.cpp]).
    - [SMPStream]: the streams of a signalling connection, what they read and what they send
      ([SMPConnector.cpp], classes [SMPStream] and [H3Stream]).
    - [SMPConnection]: signalling connections, their MASQUE tunnels and their connector
      ([SMPConnector.cpp], classes [SMPConnection] and [SMPConnector]); [SMPInvariant],
      [SMPSteps], [SMPHandlers], [SMPTunnels], [SMPTasks], [SMPReachable]: the invariant, what
      every callback, tunnel, task and step keeps of it; [SMPProperties]: what follows.
    - [UdpSender]: UDP sockets that are pinned and restarted, and the group that races them
      ([UDPSender.cpp], [UDPSenderGroup.cpp]); [UdpInvariant], [UdpSteps], [UdpGroup],
      [UdpReachable]: the invariant, what the operations of a sender, the group's calls and
      callbacks, creation and every step keep of it; [UdpProperties]: what follows.
    - [TcpChannel], [ChannelInvariant], [ChannelProperties]: the TCP/TLS channel
      ([TcpChannel.cpp]), its invariant, and what follows from it.
    - [WSConnector], [WSRobust], [WSInvariant], [WSSteps], [WSProperties]: the WebSocket
      connector ([WSConnector.cpp]), the parser after it threw, the connector's invariant,
      the lemma of each step, and what follows.

    ** How the parts meet

    [DnsResolver] calls [DnsMessage] and [SocketPinner], and both follow [VpnPolicy].
    [SMPParser] and [WSParser] are verified against the flat [Buffer]; [BCBuffer] is proved
    to implement it ([BCBuffer.blocks_implement_buffer]) as long as its clones are not
    written ([BCBuffer.RefClone_snapshot]). [TcpChannel] uses [BCBuffer] to send,
    [SocketPinner] and [VpnPolicy] before it connects, and the results of [DnsResolver].
    [SMPConfig] accepts a server by [TlsContext.VerifyChain] and settles a connection's
    [VpnPolicy]. [SMPConnection] makes its connections of what [SMPConfig] settles, feeds what
    the QUIC engine reads to [SMPParser] by way of [SMPStream], and carries the packets of a
    proxied connection in the datagrams of [MasqueFraming]. Its UDP socket is a group of
    [UdpSender]; the callbacks [SMPConnection.step] takes of one (data once [StartRecv] was
    called and before the end, the end once, no restart after it) are those that
    [UdpProperties.group_contract] and [UdpProperties.callbacks_in_order] prove a group to
    make. [UdpSender] pins with [SocketPinner] and rechecks its pins by [VpnPolicy].
    [WSConnector] runs [WSParser] over the bytes of a channel, sends what [HttpText] and
    [WSParser] pack, and sees the channel only through the handler's contract that
    [ChannelProperties.channel_lifecycle] proves of [TcpChannel].

    ** How the code is modelled

    A function of the code is a Rocq function of the same name (a leading underscore is
    dropped). Integers keep their width: a conversion or an operation that can wrap is
    written with [u8], [u16], [u32], [u64] or [i32]. Failure is [option] or a result code,
    as in the code. Loops whose recursion is not structural take fuel; each use gives enough
    (the length of the input, the number of blocks), and the theorems say that a result is
    returned. Memory that is shared ([BCBuffer]) is an explicit heap. What is outside the
    repository's own code is a parameter: the kernel's calls, the system resolver, base64,
    SHA-1, OpenSSL.

    The TCP channel runs on a queue of its own, next to a resolver thread and the user's
    threads. Its model is a step relation: a step is one event ([TcpChannel.input]) run to
    its end, in a world that holds the channel's fields, the queue, the kernel's outstanding
    operations, the resolver's request and a trace of what the channel did. Everything from
    outside is an environment asked anew at each call, so that a theorem about every
    reachable world is a theorem about every behaviour of the kernel, OpenSSL and the user,
    and every order of events. A step may crash, where the code would use a null pointer or
    a count of 2^32 operations would wrap. Two races of the code are not in it: [Send],
    [Adopt], [Park] and [Close] are atomic (the code reads [state_] and [handler_] without
    the lock), and a timer that was unscheduled does not fire.

    The WebSocket connector is a step relation of the same kind over a world that holds
    several connectors. A step is one callback of the channel, one timer or one call of the
    user, run to its end with every call the user makes from inside a callback; the user's
    answers, the channel's and the loops' are an environment. User calls are atomic, except
    that a [Close] from another thread may come between the steps of [Connect]. A step that
    throws outside every handler or uses a null pointer ends in a crash, and
    [WSProperties.crashes_known] says which ones can happen.

    The signalling connector is a step relation over a world that holds the connections and
    tunnels by their number, the queue of each, the packets, the runtime's queue and the
    connector's fields. A step is one task of a queue, one timer, one callback of the UDP
    group, of the runtime or of the path monitor, or one call of the user. The QUIC engine is
    an environment: a call of it runs one of its connections, and calls back whatever the
    engine may, which [SMPConnection.cb_allowed] says for a connection of that kind and stage
    (nothing that needs the keys before the handshake and, when it was asked to verify the
    peer, before the chain was accepted; nothing of a connection that it destroyed). From inside
    a send on a stream it makes only callbacks that touch no stream; those that read or write
    one come as steps of their own, also where the engine would make them inside the send. The two
    ways in which the MASQUE pair point to each other are numbers, and the use of one whose
    object was deleted is a crash; [SMPProperties.connection_faults] says that this does not
    happen and which faults do. Times are not in it: an armed timer may fire at any moment.

    A group of UDP senders is a step relation over a world that holds the senders and what
    the race has come to. A step is a call of the user, an event of a sender's queue, a
    completion of the kernel, a timer or the end of a queue, run to its end with every call
    the user makes from inside a callback; kernel, routes and user are the environment. The
    fault of a step is the use of a socket that is not there, a failed assertion or a count
    that wraps. Senders take turns step by step: the code reads and writes [converged_] and
    [winner_] without a lock, and two threads at once in [OnSenderRecvData] are not in it.

    ** What is proved

    - Channel: every run follows the state table and the contract of the handler; TLS peers
      are authenticated before data; the forced interface is the bound one; closing ends and
      leaves nothing behind; where a null pointer is used ([ChannelProperties]).
    - Resolver: a forced physical policy never asks the system resolver; only answers to the
      question asked, from the server asked, are accepted; malformed responses are safe;
      loops end; round trips.
    - WebSocket connector: which callbacks the user sees and in what order; messages are
      those of the stream the parser specifies, verified before anything is delivered; every
      byte sent is a legal request or frame; closing ends; the connector's accounting; which
      crashes exist.
    - HTTP texts: the request and the handshake read back as the fields they were built
      from; the reserved headers are the connector's; maps keep their order.
    - HTTP responses: one within the limits is delivered as it was meant however it was cut;
      whatever a server sends, what is held of it is bounded; one that was cut is an error;
      a second response in the same read is merged into the first ([HttpResponse]).
    - Framing: the SMP and WebSocket parsers deliver what a reference that reads the whole
      stream finds ([SMPParser.Parse_refines]; [WSParser.ParseWSFrame_refines], against
      [WSParser.read_messages], a reader of RFC 6455's frames that shares none of the parser's
      checks), whatever the chunks; what is packed is parsed back; bounds.
    - Buffers: the block structure implements the flat buffer.
    - Peers of the signalling connector: what a connection is configured with, when it asks to
      verify its server, and that it then accepts no other than the pin or certificates tell; a pin is matched however it is
      spelled; a proxy's URL names its host and port.
    - Signalling connector: the handler is told the end once and last, every connect is
      answered, nothing is told before the server was verified, the packets told are those of
      the stream; what a closing connection waits for; the connector's books; a proxied
      connection never uses its own socket; which faults exist and when closing hangs.
    - UDP senders: what a group's handler hears and the network sees follow an executable
      contract; datagrams go out on every path until the race is settled and then only on
      the winner's; a restart pins the new socket for the new network; what a forced policy
      leaves of a pin; which faults exist; what a closing sender waits for, and that a
      restart that waits loses a close ([UdpProperties]).
    - Policy and pinning: exact characterisations of the decisions, equivalence of the
      address classes with the CIDR tables, success only if the socket was bound.
    - Text: URI encoding round-trips within its buffers; splitting; hashing respects equality.

    ** Not modelled

    SMPServer drives the vendored QUIC library; of HttpConnector, the pool of channels, the
    request threads, the timers, creation and destruction; of UDPSender, logging, [Start],
    which nothing calls, and [Destroy], which blocks a thread until the sender's queue has
    ended and frees the objects; of SMPConnector, logging, the statistics of the engine and the connection ids it stores on
    disk, and the commands' JSON, which is a parameter; of WSConnector, logging, the dump file and plain getters are left
    out; Runtime holds process-wide managers. Platform code (path monitors, route lookup, JNI,
    N-API, Swift, Java, JavaScript) calls the operating system. Of BCBuffer, the fixed
    buffers, hexadecimal text and float streams are left out; of TcpChannel, the diagnostics
    it logs and the thread pool that runs the resolver. *)

From stdpp Require Import base list numbers option.
From Stdlib Require Import ZArith Lia Ascii.
From Stdlib Require String.
Export String.StringSyntax.

#[global] Open Scope Z_scope.

(** ** Machine words

    A w-bit unsigned integer is a [Z]; the wrap-around of C++ conversions and
    arithmetic is written out with these functions. *)

Definition wrap (w : Z) (z : Z) : Z := z mod 2 ^ w.

Definition u8 (z : Z) : Z := wrap 8 z.
Definition u16 (z : Z) : Z := wrap 16 z.
Definition u32 (z : Z) : Z := wrap 32 z.
Definition u64 (z : Z) : Z := wrap 64 z.

(** Conversion to a signed 32-bit integer. *)
Definition i32 (z : Z) : Z := if u32 z <? 2147483648 then u32 z else u32 z - 4294967296.

(** The value of a (signed) [char] that holds the byte [b]. *)
Definition schar (b : Z) : Z := if b <? 128 then b else b - 256.

Definition in_word (w : Z) (z : Z) : Prop := 0 <= z < 2 ^ w.

#[global] Instance in_word_dec w z : Decision (in_word w z).
Proof. unfold in_word. apply _. Defined.

Abbreviation is_byte := (in_word 8).

(** A byte string is a list of [Z] in which every element is a byte. *)
Abbreviation bytes := (list Z).

Definition bytes_ok (bs : bytes) : Prop := Forall is_byte bs.

#[global] Instance bytes_ok_dec bs : Decision (bytes_ok bs).
Proof. unfold bytes_ok. apply _. Defined.

(** ** Byte strings addressed by [Z] *)

Definition zlen {A} (l : list A) : Z := Z.of_nat (length l).
Definition ztake {A} (n : Z) (l : list A) : list A := take (Z.to_nat n) l.
Definition zdrop {A} (n : Z) (l : list A) : list A := drop (Z.to_nat n) l.
Definition zget {A} (l : list A) (i : Z) : option A :=
  if i <? 0 then None else l !! Z.to_nat i.

(** [l[i]] where the code has already checked the bound. *)
Definition zat (l : bytes) (i : Z) : Z :=
  match zget l i with Some b => b | None => 0 end.

(** [sub_bytes l off n]: the [n] bytes at [off], when they are inside [l]. *)
Definition sub_bytes {A} (l : list A) (off n : Z) : option (list A) :=
  if (0 <=? off) && (0 <=? n) && (off + n <=? zlen l)
  then Some (ztake n (zdrop off l)) else None.

(** ** Big-endian numbers (reference definitions) *)

Fixpoint be_val_from (acc : Z) (bs : bytes) : Z :=
  match bs with
  | [] => acc
  | b :: bs' => be_val_from (acc * 256 + b) bs'
  end.

Definition be_val (bs : bytes) : Z := be_val_from 0 bs.

Fixpoint be_bytes (n : nat) (z : Z) : bytes :=
  match n with
  | O => []
  | S n' => be_bytes n' (z / 256) ++ [z mod 256]
  end.

(** ** Text

    A [std::string] is the list of its bytes; [str] reads a literal. *)

Definition str (s : String.string) : bytes :=
  List.map (fun a => Z.of_N (N_of_ascii a)) (String.list_ascii_of_string s).

Definition bytes_eqb (a b : bytes) : bool := bool_decide (a = b).

Arguments str s%_string_scope.

(** What a [char const*] reader sees of a buffer: the bytes before the first NUL. *)
Fixpoint c_str (s : bytes) : bytes :=
  match s with
  | [] => []
  | c :: s' => if c =? 0 then [] else c :: c_str s'
  end.

(** Decimal text of a non-negative integer ([printf("%u")], [std::to_string]);
    a 64-bit number has at most 20 digits. *)
Fixpoint dec_digits (fuel : nat) (z : Z) (acc : bytes) : bytes :=
  match fuel with
  | O => acc
  | S f =>
      let acc' := (48 + z mod 10) :: acc in
      if z / 10 =? 0 then acc' else dec_digits f (z / 10) acc'
  end.

Definition dec_text (z : Z) : bytes := dec_digits 20 z [].

(** The number a decimal text denotes. *)
Definition dec_val (s : bytes) : Z := fold_left (fun acc c => acc * 10 + (c - 48)) s 0.

(** ** Memory

    [realloc] and [std::vector::resize]: truncate, or extend with the byte [fill]
    (what an extended allocation holds is not specified). *)
Definition mem_resize (fill n : Z) (out : bytes) : bytes :=
  ztake n out ++ replicate (Z.to_nat (n - zlen out)) fill.

Definition vec_resize : Z -> bytes -> bytes := mem_resize 0.

(** [memcpy(out + off, bs, size)] into a region that has the room. *)
Definition write_at (out : bytes) (off : Z) (bs : bytes) : bytes :=
  ztake off out ++ bs ++ zdrop (off + zlen bs) out.

(** ** Record update

    [r <| f := v |>] and [r <| f ::= g |>], for the records that declare an [Eta]
    instance, which rebuilds a record from its projections. *)

Class Eta (R : Type) := eta : R -> R.

Class Update {R T : Type} (f : R -> T) := update : (T -> T) -> R -> R.

#[global] Hint Mode Update ! - ! : typeclass_instances.

(** Abstracting the projection [f] in the rebuilt record leaves the place to update. *)
Ltac build_update f :=
  lazymatch type of f with
  | ?R -> _ =>
      let e := constr:(@eta R _) in
      let e := eval hnf in e in
      let e := eval pattern f in e in
      lazymatch e with
      | ?body _ => let u := eval cbv beta in (fun g r => body (fun x => g (f x)) r) in exact u
      end
  end.

#[global] Hint Extern 1 (Update ?f) => build_update f : typeclass_instances.

Declare Scope update_scope.
#[global] Open Scope update_scope.
Notation "r <| f ::= g |>" := (update (f := f) g r)
  (at level 1, f at level 0, left associativity) : update_scope.
Notation "r <| f := v |>" := (update (f := f) (fun _ => v) r)
  (at level 1, f at level 0, left associativity) : update_scope.

(** ** Automation *)

Create HintDb words.
Create Rewrite HintDb lens.

Ltac Zify.zify_post_hook ::= Z.div_mod_to_equations.

(** Unfold the word vocabulary and finish with [lia]. *)
Ltac word_lia :=
  unfold in_word, u8, u16, u32, u64, wrap in *;
  change (2 ^ 8) with 256 in *; change (2 ^ 16) with 65536 in *;
  change (2 ^ 32) with 4294967296 in *;
  change (2 ^ 64) with 18446744073709551616 in *;
  lia.

(** Turn boolean comparisons of the code into propositions. *)
Ltac zbool :=
  repeat match goal with
  | H : (_ && _) = true |- _ => apply andb_true_iff in H as [??]
  | H : (_ || _) = false |- _ => apply orb_false_iff in H as [??]
  | H : negb _ = true |- _ => apply negb_true_iff in H
  | H : negb _ = false |- _ => apply negb_false_iff in H
  | H : (_ =? _) = true |- _ => apply Z.eqb_eq in H
  | H : (_ =? _) = false |- _ => apply Z.eqb_neq in H
  | H : (_ <? _) = true |- _ => apply Z.ltb_lt in H
  | H : (_ <? _) = false |- _ => apply Z.ltb_ge in H
  | H : (_ <=? _) = true |- _ => apply Z.leb_le in H
  | H : (_ <=? _) = false |- _ => apply Z.leb_gt in H
  end.

(** Decide the outermost comparison an [if] of the goal branches on (or, when
    there is none, the first comparison of the goal), keeping the case as a
    proposition; [zcases] does it for every comparison. *)
Ltac zcase_on c :=
  lazymatch c with
  | ?a <? ?b => destruct (Z.ltb_spec a b)
  | ?a <=? ?b => destruct (Z.leb_spec a b)
  | ?a =? ?b => destruct (Z.eqb_spec a b)
  end.

Ltac zcase :=
  match goal with
  | |- context [if ?c then _ else _] => zcase_on c
  | |- context [?a <? ?b] => zcase_on (a <? b)
  | |- context [?a <=? ?b] => zcase_on (a <=? b)
  | |- context [?a =? ?b] => zcase_on (a =? b)
  end.

Ltac zcases := repeat (zcase; cbn [andb orb negb]; try lia).

(** ** Word lemmas *)

Lemma wrap_small w z : 0 <= z < 2 ^ w -> wrap w z = z.
Proof. apply Z.mod_small. Qed.

Lemma wrap_in_word w z : 0 <= w -> in_word w (wrap w z).
Proof. intros. apply Z.mod_pos_bound. lia. Qed.

Lemma u8_small z : 0 <= z < 256 -> u8 z = z.
Proof. apply (wrap_small 8). Qed.
Lemma u16_small z : 0 <= z < 65536 -> u16 z = z.
Proof. apply (wrap_small 16). Qed.
Lemma u32_small z : 0 <= z < 4294967296 -> u32 z = z.
Proof. apply (wrap_small 32). Qed.
Lemma u64_small z : 0 <= z < 18446744073709551616 -> u64 z = z.
Proof. apply (wrap_small 64). Qed.

(** Masking with [2^n - 1]. *)
Lemma land_mask n z m : 0 <= n -> m = 2 ^ n - 1 -> Z.land z m = z mod 2 ^ n.
Proof.
  intros Hn ->. rewrite <- Z.land_ones by done.
  by rewrite Z.ones_equiv, Z.sub_1_r.
Qed.

Lemma land_255 z : Z.land z 255 = z mod 256.
Proof. by apply (land_mask 8). Qed.

(** [(u & (0xFF << k)) >> k]: the byte of [u] at bit [k]. *)
Lemma shiftr_masked_byte u k m :
  0 <= k -> m = Z.shiftl 255 k -> Z.shiftr (Z.land u m) k = (u / 2 ^ k) mod 256.
Proof.
  intros Hk ->. rewrite Z.shiftr_land, Z.shiftr_shiftl_l by lia.
  replace (k - k) with 0 by lia. rewrite Z.shiftl_0_r, land_255.
  by rewrite Z.shiftr_div_pow2.
Qed.

(** The low byte of a signed char is the byte it holds. *)
Lemma schar_byte b : is_byte b -> Z.land (u32 (schar b)) 255 = b.
Proof.
  intros Hb. rewrite land_255. unfold schar, u32, wrap, in_word in *.
  change (2 ^ 8) with 256 in *. change (2 ^ 32) with (256 * 16777216).
  destruct (Z.ltb_spec b 128); lia.
Qed.

Lemma schar_byte64 b : is_byte b -> Z.land (u64 (schar b)) 255 = b.
Proof.
  intros Hb. rewrite land_255. unfold schar, u64, wrap, in_word in *.
  change (2 ^ 8) with 256 in *. change (2 ^ 64) with (256 * 72057594037927936).
  destruct (Z.ltb_spec b 128); lia.
Qed.

(** Addition of disjoint bit fields is their union. *)
Lemma lor_add_disjoint a b n :
  0 <= n -> 0 <= b < 2 ^ n -> Z.lor (Z.shiftl a n) b = a * 2 ^ n + b.
Proof.
  intros Hn Hb.
  rewrite <- Z.shiftl_mul_pow2 by done.
  rewrite <- Z.add_lor_land.
  enough (Z.land (Z.shiftl a n) b = 0) by lia.
  apply Z.bits_inj'. intros k Hk. rewrite Z.land_spec, Z.bits_0.
  destruct (Z.ltb_spec k n).
  - by rewrite Z.shiftl_spec_low.
  - rewrite andb_false_iff. right.
    rewrite <- (Z.mod_small b (2 ^ n)) by done.
    by apply Z.mod_pow2_bits_high.
Qed.

(** The union with a field below the lowest bit set is a sum. *)
Lemma lor_low x y n :
  0 <= n -> x mod 2 ^ n = 0 -> 0 <= y < 2 ^ n -> Z.lor x y = x + y.
Proof.
  intros Hn Hx Hy. assert (0 < 2 ^ n) by (apply Z.pow_pos_nonneg; lia).
  assert (E : x = Z.shiftl (x / 2 ^ n) n) by (rewrite Z.shiftl_mul_pow2 by done; lia).
  rewrite E at 1. rewrite lor_add_disjoint by done. lia.
Qed.

(** The byte-assembly idiom [(a << 24) | (b << 16) | (c << 8) | d]. *)
Lemma lor4_be a b c d :
  0 <= a -> is_byte b -> is_byte c -> is_byte d ->
  Z.lor (Z.lor (Z.lor (Z.shiftl a 24) (Z.shiftl b 16)) (Z.shiftl c 8)) d
  = be_val [a; b; c; d].
Proof.
  intros. rewrite !Z.shiftl_mul_pow2 by lia. unfold in_word in *. cbn in *.
  rewrite (lor_low (a * _) _ 24) by (cbn; lia).
  rewrite (lor_low _ (c * _) 16), (lor_low _ d 8) by (cbn; lia).
  unfold be_val. cbn [be_val_from]. lia.
Qed.

Lemma lor2_be a b : 0 <= a -> is_byte b -> Z.lor (Z.shiftl a 8) b = be_val [a; b].
Proof.
  intros. rewrite (lor_add_disjoint a b 8) by (unfold in_word in *; lia).
  unfold be_val. cbn [be_val_from]. lia.
Qed.

(** ** Lists by [Z] index *)

Lemma zlen_nonneg {A} (l : list A) : 0 <= zlen l.
Proof. unfold zlen. lia. Qed.
Lemma zlen_nil {A} : zlen (@nil A) = 0.
Proof. done. Qed.
Lemma zlen_cons {A} (x : A) l : zlen (x :: l) = 1 + zlen l.
Proof. unfold zlen. cbn [length]. lia. Qed.
Lemma zlen_app {A} (l k : list A) : zlen (l ++ k) = zlen l + zlen k.
Proof. unfold zlen. rewrite length_app. lia. Qed.
Lemma zlen_zdrop {A} n (l : list A) :
  0 <= n <= zlen l -> zlen (zdrop n l) = zlen l - n.
Proof. unfold zlen, zdrop. rewrite length_drop. lia. Qed.
Lemma zlen_ztake {A} n (l : list A) :
  0 <= n <= zlen l -> zlen (ztake n l) = n.
Proof. unfold zlen, ztake. rewrite length_take. lia. Qed.
Lemma zlen_0_nil {A} (l : list A) : zlen l = 0 -> l = [].
Proof. destruct l; [done|]. rewrite zlen_cons. pose proof (zlen_nonneg l). lia. Qed.

#[export] Hint Rewrite @zlen_nil @zlen_cons @zlen_app : lens.

Lemma zdrop_0 {A} (l : list A) : zdrop 0 l = l.
Proof. done. Qed.
Lemma zdrop_all {A} n (l : list A) : zlen l <= n -> zdrop n l = [].
Proof. unfold zlen, zdrop. intros. apply drop_ge. lia. Qed.
Lemma ztake_all {A} n (l : list A) : zlen l <= n -> ztake n l = l.
Proof. unfold zlen, ztake. intros. apply take_ge. lia. Qed.
Lemma zdrop_app_le {A} n (l k : list A) :
  0 <= n <= zlen l -> zdrop n (l ++ k) = zdrop n l ++ k.
Proof. unfold zlen, zdrop. intros. by rewrite drop_app_le by lia. Qed.
Lemma ztake_app_le {A} n (l k : list A) :
  0 <= n <= zlen l -> ztake n (l ++ k) = ztake n l.
Proof. unfold zlen, ztake. intros. by rewrite take_app_le by lia. Qed.
Lemma zdrop_zdrop {A} n m (l : list A) :
  0 <= n -> 0 <= m -> zdrop n (zdrop m l) = zdrop (m + n) l.
Proof. unfold zdrop. intros. rewrite drop_drop. f_equal. lia. Qed.
Lemma ztake_zdrop {A} n (l : list A) : ztake n l ++ zdrop n l = l.
Proof. apply take_drop. Qed.
Lemma zdrop_app_exact {A} n (l k : list A) : n = zlen l -> zdrop n (l ++ k) = k.
Proof. unfold zlen, zdrop. intros ->. rewrite Nat2Z.id. apply drop_app_length. Qed.
Lemma ztake_app_exact {A} n (l k : list A) : n = zlen l -> ztake n (l ++ k) = l.
Proof. unfold zlen, ztake. intros ->. rewrite Nat2Z.id. apply take_app_length. Qed.

Lemma sub_bytes_Some {A} (l : list A) off n :
  0 <= off -> 0 <= n -> off + n <= zlen l ->
  sub_bytes l off n = Some (ztake n (zdrop off l)).
Proof.
  intros. unfold sub_bytes.
  by rewrite !(proj2 (Z.leb_le _ _)) by done.
Qed.

Lemma sub_bytes_app {A} (l k : list A) off n r :
  sub_bytes l off n = Some r -> sub_bytes (l ++ k) off n = Some r.
Proof.
  unfold sub_bytes. pose proof (zlen_nonneg k). rewrite zlen_app.
  destruct (_ && _ && (off + n <=? zlen l)) eqn:E; [|done].
  zbool. intros [= <-].
  rewrite !(proj2 (Z.leb_le _ _)) by lia. cbn.
  rewrite zdrop_app_le by lia. rewrite ztake_app_le; [done|].
  rewrite zlen_zdrop; lia.
Qed.

Lemma zget_lookup {A} (l : list A) i : 0 <= i -> zget l i = l !! Z.to_nat i.
Proof. unfold zget. destruct (Z.ltb_spec i 0); [lia|done]. Qed.

Lemma zget_Some {A} (l : list A) i : 0 <= i < zlen l -> is_Some (zget l i).
Proof.
  intros. rewrite zget_lookup by lia. apply lookup_lt_is_Some_2.
  unfold zlen in *. lia.
Qed.

Lemma zget_None {A} (l : list A) i : zlen l <= i -> zget l i = None.
Proof.
  intros. pose proof (zlen_nonneg l). rewrite zget_lookup by lia.
  apply lookup_ge_None_2. unfold zlen in *. lia.
Qed.

Lemma zget_is_Some_range {A} (l : list A) i x : zget l i = Some x -> 0 <= i < zlen l.
Proof.
  unfold zget. destruct (Z.ltb_spec i 0); [done|].
  intros ?%lookup_lt_Some. unfold zlen. lia.
Qed.

Lemma zat_cons_0 x l : zat (x :: l) 0 = x.
Proof. done. Qed.

Lemma zget_app_l {A} (l k : list A) i x : zget l i = Some x -> zget (l ++ k) i = Some x.
Proof.
  intros Hi. pose proof (zget_is_Some_range _ _ _ Hi).
  rewrite zget_lookup in * by lia. by apply lookup_app_l_Some.
Qed.

(** Reading right after a prefix. *)
Lemma zget_at {A} (pre : list A) b rest i :
  i = zlen pre -> zget (pre ++ b :: rest) i = Some b.
Proof.
  intros ->. rewrite zget_lookup by apply zlen_nonneg. unfold zlen.
  rewrite Nat2Z.id. by apply list_lookup_middle.
Qed.

Lemma sub_bytes_at {A} (pre bs rest : list A) off n :
  off = zlen pre -> n = zlen bs -> sub_bytes (pre ++ bs ++ rest) off n = Some bs.
Proof.
  intros -> ->. pose proof (zlen_nonneg pre). pose proof (zlen_nonneg bs).
  pose proof (zlen_nonneg rest).
  rewrite sub_bytes_Some by (rewrite ?zlen_app; lia).
  by rewrite zdrop_app_exact, ztake_app_exact.
Qed.

Lemma bytes_ok_app a b : bytes_ok (a ++ b) <-> bytes_ok a /\ bytes_ok b.
Proof. apply Forall_app. Qed.

Lemma bytes_ok_ztake n a : bytes_ok a -> bytes_ok (ztake n a).
Proof. apply Forall_take. Qed.

Lemma bytes_ok_zdrop n a : bytes_ok a -> bytes_ok (zdrop n a).
Proof. apply Forall_drop. Qed.

Lemma bytes_ok_rev a : bytes_ok a -> bytes_ok (rev a).
Proof. apply Forall_rev. Qed.

(** ** Memory lemmas *)

Lemma mem_resize_length fill n out : 0 <= n -> zlen (mem_resize fill n out) = n.
Proof.
  intros. unfold mem_resize. rewrite zlen_app. unfold ztake, zlen.
  rewrite length_take, length_replicate. lia.
Qed.

Lemma mem_resize_extend fill n out :
  zlen out <= n -> ztake (zlen out) (mem_resize fill n out) = out.
Proof.
  intros. unfold mem_resize. rewrite (ztake_all n out) by done. by apply ztake_app_exact.
Qed.

Lemma vec_resize_length n out : 0 <= n -> zlen (vec_resize n out) = n.
Proof. apply mem_resize_length. Qed.

Lemma write_at_length out off bs :
  0 <= off -> off + zlen bs <= zlen out -> zlen (write_at out off bs) = zlen out.
Proof.
  intros. unfold write_at. pose proof (zlen_nonneg bs).
  rewrite !zlen_app, zlen_ztake, zlen_zdrop by lia. lia.
Qed.

(** Writing right after a prefix that is already in place extends the prefix. *)
Lemma write_at_extend pre tail bs :
  zlen bs <= zlen tail ->
  write_at (pre ++ tail) (zlen pre) bs = (pre ++ bs) ++ zdrop (zlen bs) tail.
Proof.
  intros. unfold write_at. rewrite ztake_app_exact by done.
  rewrite <- zdrop_zdrop by apply zlen_nonneg. rewrite zdrop_app_exact by done.
  by rewrite <- app_assoc.
Qed.

Lemma ztake_ztake_le {A} k n (l : list A) : k <= n -> ztake k (ztake n l) = ztake k l.
Proof. intros. unfold ztake. rewrite take_take. f_equal. lia. Qed.

Lemma mem_resize_take fill n out k :
  k <= n -> 0 <= k <= zlen out -> ztake k (mem_resize fill n out) = ztake k out.
Proof.
  intros. unfold mem_resize. destruct (Z.le_gt_cases n (zlen out)).
  - rewrite ztake_app_le by (rewrite zlen_ztake; lia). by apply ztake_ztake_le.
  - rewrite (ztake_all n out) by lia. by apply ztake_app_le.
Qed.

(** What a write leaves up to its end. *)
Lemma write_at_take m off bs :
  0 <= off -> off + zlen bs <= zlen m ->
  ztake (off + zlen bs) (write_at m off bs) = ztake off m ++ bs.
Proof.
  intros. pose proof (zlen_nonneg bs). unfold write_at. rewrite app_assoc.
  apply ztake_app_exact. rewrite zlen_app, zlen_ztake; lia.
Qed.

(** Two adjacent writes are one. *)
Lemma write_at_app m off a b off' :
  0 <= off -> off + zlen a + zlen b <= zlen m -> off' = off + zlen a ->
  write_at (write_at m off a) off' b = write_at m off (a ++ b).
Proof.
  intros H0 H1 ->. pose proof (zlen_nonneg a). pose proof (zlen_nonneg b).
  unfold write_at at 1. rewrite write_at_take by lia. unfold write_at.
  rewrite zlen_app, <- !app_assoc. do 3 f_equal. rewrite (app_assoc (ztake off m)).
  replace (off + zlen a + zlen b) with ((off + zlen a) + zlen b) by lia.
  rewrite <- zdrop_zdrop by lia. rewrite zdrop_app_exact by (rewrite zlen_app, zlen_ztake; lia).
  rewrite zdrop_zdrop by lia. f_equal. lia.
Qed.

Lemma bytes_ok_write_at m off bs : bytes_ok m -> bytes_ok bs -> bytes_ok (write_at m off bs).
Proof.
  intros. apply bytes_ok_app. split; [by apply bytes_ok_ztake|].
  apply bytes_ok_app. split; [done|by apply bytes_ok_zdrop].
Qed.

Lemma bytes_ok_mem_resize fill n m :
  is_byte fill -> bytes_ok m -> bytes_ok (mem_resize fill n m).
Proof.
  intros. apply bytes_ok_app. split; [by apply bytes_ok_ztake|].
  by apply Forall_replicate.
Qed.

Lemma zget_byte (l : bytes) i : bytes_ok l -> 0 <= i < zlen l ->
  exists b, zget l i = Some b /\ is_byte b.
Proof.
  intros Hl Hi. destruct (zget_Some l i Hi) as [b Hb]. exists b. split; [done|].
  rewrite zget_lookup in Hb by lia. eapply Forall_lookup_1 in Hl; eauto.
Qed.

(** A finite check over all bytes. *)
Lemma byte_forall (f g : Z -> bool) :
  forallb (fun b => Bool.eqb (f b) (g b)) (seqZ 0 256) = true ->
  forall b, is_byte b -> f b = g b.
Proof.
  intros H b Hb. rewrite forallb_forall in H. apply Bool.eqb_prop, H.
  apply list_elem_of_In, elem_of_seqZ. unfold in_word in Hb. cbn in Hb. lia.
Qed.

Lemma byte2_forall (f g : Z -> Z -> bool) :
  forallb (fun a => forallb (fun b => Bool.eqb (f a b) (g a b)) (seqZ 0 256)) (seqZ 0 256) = true ->
  forall a b, is_byte a -> is_byte b -> f a b = g a b.
Proof.
  intros H a b Ha Hb. apply (byte_forall (f a) (g a)); [|done].
  rewrite forallb_forall in H. apply H.
  apply list_elem_of_In, elem_of_seqZ. unfold in_word in Ha. cbn in Ha. lia.
Qed.

(** ** Big-endian lemmas *)

Lemma be_val_from_app acc xs ys :
  be_val_from acc (xs ++ ys) = be_val_from (be_val_from acc xs) ys.
Proof. revert acc. induction xs; intros; cbn; [done|]. apply IHxs. Qed.

Lemma length_be_bytes n z : length (be_bytes n z) = n.
Proof. revert z. induction n; intros; cbn; [done|]. rewrite length_app, IHn. cbn. lia. Qed.

Lemma zlen_be_bytes n z : zlen (be_bytes n z) = Z.of_nat n.
Proof. unfold zlen. by rewrite length_be_bytes. Qed.

#[export] Hint Rewrite @zlen_be_bytes : lens.

Lemma be_bytes_ok n z : bytes_ok (be_bytes n z).
Proof.
  revert z. unfold bytes_ok. induction n; intros; cbn; [constructor|].
  apply Forall_app_2; [done|]. constructor; [|constructor]. word_lia.
Qed.

Lemma be_val_be_bytes n z : be_val (be_bytes n z) = z mod 2 ^ (8 * Z.of_nat n).
Proof.
  unfold be_val. revert z. induction n; intros z.
  - cbn. by rewrite Z.mod_1_r.
  - cbn [be_bytes]. rewrite be_val_from_app, IHn. cbn [be_val_from].
    replace (8 * Z.of_nat (S n)) with (8 + 8 * Z.of_nat n) by lia.
    rewrite Z.pow_add_r by lia. change (2 ^ 8) with 256.
    rewrite Z.rem_mul_r by lia. lia.
Qed.

Lemma be_bytes_be_val bs :
  bytes_ok bs -> be_bytes (length bs) (be_val bs) = bs.
Proof.
  unfold be_val. induction bs as [|b bs IH] using rev_ind; [done|].
  intros [Hbs Hb]%Forall_app.
  rewrite length_app, be_val_from_app. cbn [length be_val_from].
  rewrite Nat.add_1_r. cbn [be_bytes].
  apply Forall_inv in Hb.
  replace ((be_val_from 0 bs * 256 + b) / 256) with (be_val_from 0 bs) by word_lia.
  rewrite IH by done. do 2 f_equal. word_lia.
Qed.

Lemma be_val_bound bs : bytes_ok bs -> 0 <= be_val bs < 2 ^ (8 * zlen bs).
Proof.
  intros Hb. pose proof (be_val_be_bytes (length bs) (be_val bs)) as H.
  rewrite be_bytes_be_val in H by done. rewrite H.
  apply Z.mod_pos_bound. unfold zlen. lia.
Qed.

(** ** Text lemmas *)

Lemma c_str_id s : Forall (fun c => c <> 0) s -> c_str s = s.
Proof. induction 1 as [|c s Hc _ IH]; cbn; [done|]. zcases. by rewrite IH. Qed.

Lemma c_str_no_nul s : Forall (fun c => c <> 0) (c_str s).
Proof. induction s as [|c s IH]; cbn; [constructor|]. zcases; by constructor. Qed.

Lemma dec_digits_val fuel z acc :
  0 <= z < 10 ^ Z.of_nat fuel -> (0 < fuel)%nat ->
  fold_left (fun a c => a * 10 + (c - 48)) (dec_digits fuel z acc) 0
  = fold_left (fun a c => a * 10 + (c - 48)) acc z.
Proof.
  revert z acc. induction fuel as [|f IH]; intros z acc Hz Hf; [lia|].
  cbn [dec_digits]. rewrite Nat2Z.inj_succ, Z.pow_succ_r in Hz by lia.
  zcase.
  - cbn [fold_left]. f_equal. lia.
  - destruct f as [|f]; [cbn in Hz; lia|].
    rewrite IH by lia. cbn [fold_left]. f_equal. lia.
Qed.

(** The decimal text of a number below [10^20] denotes that number. *)
Lemma dec_val_dec_text z : 0 <= z < 10 ^ 20 -> dec_val (dec_text z) = z.
Proof. intros. unfold dec_val, dec_text. rewrite dec_digits_val; [done|lia|lia]. Qed.

Lemma dec_digits_range fuel z acc :
  0 <= z -> Forall (fun c => 48 <= c < 58) acc ->
  Forall (fun c => 48 <= c < 58) (dec_digits fuel z acc).
Proof.
  revert z acc. induction fuel as [|f IH]; intros z acc Hz Hacc; cbn; [done|].
  assert (Forall (fun c => 48 <= c < 58) ((48 + z mod 10) :: acc))
    by (constructor; [lia|done]).
  zcase; [done|]. apply IH; [lia|done].
Qed.

Lemma dec_text_range z : 0 <= z -> Forall (fun c => 48 <= c < 58) (dec_text z).
Proof. intros. apply dec_digits_range; [done|constructor]. Qed.

Lemma dec_digits_length fuel z acc :
  (length (dec_digits fuel z acc) <= fuel + length acc)%nat.
Proof.
  revert z acc. induction fuel as [|f IH]; intros z acc; cbn; [lia|].
  zcase; cbn; [lia|]. etrans; [apply IH|]. cbn. lia.
Qed.

(** A number below [10 ^ f] has at most [f] digits. *)
Lemma dec_digits_tight f g z acc :
  0 <= z < 10 ^ Z.of_nat f -> (0 < f <= g)%nat -> (length (dec_digits g z acc) <= f + length acc)%nat.
Proof.
  revert z acc g. induction f as [|f IH]; intros z acc g Hz Hf; [lia|].
  destruct g as [|g]; [lia|]. cbn [dec_digits].
  rewrite Nat2Z.inj_succ, Z.pow_succ_r in Hz by lia.
  zcase; [cbn [length]; lia|]. destruct f as [|f]; [cbn in Hz; lia|].
  etrans; [apply IH; lia|cbn [length]; lia].
Qed.

Lemma dec_text_length f z : 0 <= z < 10 ^ Z.of_nat f -> (0 < f <= 20)%nat -> zlen (dec_text z) <= Z.of_nat f.
Proof.
  intros Hz Hf. unfold zlen, dec_text. pose proof (dec_digits_tight f 20 z [] Hz Hf) as H.
  cbn [length] in H. lia.
Qed.
