(* ===== verification/Results.v ===== *)
(** * Results: the [BCRESULT] codes and their names

    [BCRESULT] is an unsigned 32-bit integer. The base codes are those of
    [deps/env/src/BC/Config.h]; the SDK's own codes, above [BC_R_NRESULTS], are
    those of [src/cpp/TTErrors.h]; [ResultName] is the switch of
    [src/cpp/Utils.cpp] that turns a code into text. *)

From stdpp Require Import base list numbers option.
From Stdlib Require Import ZArith Lia.
From S2P Require Import Prelude.

Abbreviation BCRESULT := Z.

Definition BC_R_SUCCESS : BCRESULT := 0.
Definition BC_R_NOMEMORY : BCRESULT := 1.
Definition BC_R_TIMEDOUT : BCRESULT := 2.
Definition BC_R_ADDRNOTAVAIL : BCRESULT := 4.
Definition BC_R_ADDRINUSE : BCRESULT := 5.
Definition BC_R_NOPERM : BCRESULT := 6.
Definition BC_R_NOCONN : BCRESULT := 7.
Definition BC_R_NETUNREACH : BCRESULT := 8.
Definition BC_R_HOSTUNREACH : BCRESULT := 9.
Definition BC_R_NETDOWN : BCRESULT := 10.
Definition BC_R_HOSTDOWN : BCRESULT := 11.
Definition BC_R_CONNREFUSED : BCRESULT := 12.
Definition BC_R_NORESOURCES : BCRESULT := 13.
Definition BC_R_EOF : BCRESULT := 14.
Definition BC_R_EXISTS : BCRESULT := 18.
Definition BC_R_CANCELED : BCRESULT := 20.
Definition BC_R_SHUTTINGDOWN : BCRESULT := 22.
Definition BC_R_NOTFOUND : BCRESULT := 23.
Definition BC_R_UNEXPECTEDEND : BCRESULT := 24.
Definition BC_R_FAILURE : BCRESULT := 25.
Definition BC_R_IOERROR : BCRESULT := 26.
Definition BC_R_NOTIMPLEMENTED : BCRESULT := 27.
Definition BC_R_UNEXPECTEDTOKEN : BCRESULT := 32.
Definition BC_R_UNEXPECTED : BCRESULT := 34.
Definition BC_R_ALREADYRUNNING : BCRESULT := 35.
Definition BC_R_NOTCONNECTED : BCRESULT := 40.
Definition BC_R_QUEUEFULL : BCRESULT := 46.
Definition BC_R_FAMILYNOSUPPORT : BCRESULT := 48.
Definition BC_R_TOOMANYOPENFILES : BCRESULT := 50.
Definition BC_R_INPROGRESS : BCRESULT := 53.
Definition BC_R_CONNECTIONRESET : BCRESULT := 54.
Definition BC_R_INVALIDARG : BCRESULT := 63.
Definition BC_R_NO_PHYSICAL_INTERFACE : BCRESULT := 64.
Definition BC_R_NRESULTS : BCRESULT := 65.

(** The SDK codes of [TTErrors.h]. *)
Definition BC_R_IDLE_TIMEOUT : BCRESULT := BC_R_NRESULTS + 1.
Definition BC_R_CONNECT_TIMEOUT : BCRESULT := BC_R_NRESULTS + 2.
Definition BC_R_PIN_FAILED : BCRESULT := BC_R_NRESULTS + 4.
Definition BC_R_ROUTE_MISMATCH : BCRESULT := BC_R_NRESULTS + 5.
Definition BC_R_DNS_FAILED : BCRESULT := BC_R_NRESULTS + 6.
Definition BC_R_TLS_VERIFY_FAILED : BCRESULT := BC_R_NRESULTS + 7.
Definition BC_R_RESPONSE_TOO_LARGE : BCRESULT := BC_R_NRESULTS + 8.
Definition BC_R_WS_HANDSHAKE_FAILED : BCRESULT := BC_R_NRESULTS + 9.

(** ** Names *)

(** The cases of the [switch] in [ResultName], in source order. *)
Definition ResultName_cases : list (BCRESULT * bytes) :=
  [(BC_R_NO_PHYSICAL_INTERFACE, str "BC_R_NO_PHYSICAL_INTERFACE");
   (BC_R_PIN_FAILED, str "BC_R_PIN_FAILED");
   (BC_R_ROUTE_MISMATCH, str "BC_R_ROUTE_MISMATCH");
   (BC_R_DNS_FAILED, str "BC_R_DNS_FAILED");
   (BC_R_TLS_VERIFY_FAILED, str "BC_R_TLS_VERIFY_FAILED");
   (BC_R_RESPONSE_TOO_LARGE, str "BC_R_RESPONSE_TOO_LARGE");
   (BC_R_WS_HANDSHAKE_FAILED, str "BC_R_WS_HANDSHAKE_FAILED");
   (BC_R_IDLE_TIMEOUT, str "BC_R_IDLE_TIMEOUT");
   (BC_R_CONNECT_TIMEOUT, str "BC_R_CONNECT_TIMEOUT");
   (BC_R_SUCCESS, str "BC_R_SUCCESS");
   (BC_R_FAILURE, str "BC_R_FAILURE");
   (BC_R_INVALIDARG, str "BC_R_INVALIDARG");
   (BC_R_NOMEMORY, str "BC_R_NOMEMORY");
   (BC_R_NOTCONNECTED, str "BC_R_NOTCONNECTED");
   (BC_R_NOTIMPLEMENTED, str "BC_R_NOTIMPLEMENTED");
   (BC_R_SHUTTINGDOWN, str "BC_R_SHUTTINGDOWN");
   (BC_R_ALREADYRUNNING, str "BC_R_ALREADYRUNNING");
   (BC_R_CANCELED, str "BC_R_CANCELED");
   (BC_R_INPROGRESS, str "BC_R_INPROGRESS");
   (BC_R_TIMEDOUT, str "BC_R_TIMEDOUT");
   (BC_R_EOF, str "BC_R_EOF");
   (BC_R_EXISTS, str "BC_R_EXISTS");
   (BC_R_UNEXPECTED, str "BC_R_UNEXPECTED");
   (BC_R_UNEXPECTEDEND, str "BC_R_UNEXPECTEDEND");
   (BC_R_UNEXPECTEDTOKEN, str "BC_R_UNEXPECTEDTOKEN");
   (BC_R_CONNREFUSED, str "BC_R_CONNREFUSED");
   (BC_R_CONNECTIONRESET, str "BC_R_CONNECTIONRESET");
   (BC_R_NETUNREACH, str "BC_R_NETUNREACH");
   (BC_R_NETDOWN, str "BC_R_NETDOWN");
   (BC_R_HOSTUNREACH, str "BC_R_HOSTUNREACH");
   (BC_R_HOSTDOWN, str "BC_R_HOSTDOWN");
   (BC_R_ADDRNOTAVAIL, str "BC_R_ADDRNOTAVAIL");
   (BC_R_NOPERM, str "BC_R_NOPERM");
   (BC_R_NORESOURCES, str "BC_R_NORESOURCES");
   (BC_R_TOOMANYOPENFILES, str "BC_R_TOOMANYOPENFILES");
   (BC_R_IOERROR, str "BC_R_IOERROR");
   (BC_R_FAMILYNOSUPPORT, str "BC_R_FAMILYNOSUPPORT")].

Definition switch_case (cases : list (Z * bytes)) (v : Z) : option bytes :=
  snd <$> List.find (fun c => fst c =? v) cases.

Definition ResultName (result : BCRESULT) : bytes :=
  match switch_case ResultName_cases result with
  | Some name => name
  | None => str "BC_R_(" ++ dec_text (u32 result) ++ str ")"
  end.

(** ** Lemmas *)

Lemma switch_case_Some cases v name :
  switch_case cases v = Some name -> (v, name) ∈ cases.
Proof.
  unfold switch_case. destruct (List.find _ cases) as [[k n]|] eqn:E; [|done].
  intros [= <-]. apply List.find_some in E as [Hin Heq]. cbn in Heq. zbool. subst.
  by apply list_elem_of_In.
Qed.

(** The prefix test that tells a table name from the numeric fallback. *)
Definition is_fallback_name (name : bytes) : bool :=
  bytes_eqb (take 6 name) (str "BC_R_(").

Lemma table_names_not_fallback v name :
  (v, name) ∈ ResultName_cases -> is_fallback_name name = false.
Proof.
  intros Hin.
  assert (H : forallb (fun c => negb (is_fallback_name (snd c))) ResultName_cases = true)
    by (vm_compute; reflexivity).
  apply list_elem_of_In in Hin. rewrite forallb_forall in H.
  specialize (H _ Hin). cbn in H. by zbool.
Qed.

Lemma table_names_distinct v w name :
  (v, name) ∈ ResultName_cases -> (w, name) ∈ ResultName_cases -> v = w.
Proof.
  intros Hv Hw.
  assert (H : forallb (fun c => forallb (fun d =>
              negb (bytes_eqb (snd c) (snd d)) || (fst c =? fst d)) ResultName_cases)
              ResultName_cases = true) by (vm_compute; reflexivity).
  apply list_elem_of_In in Hv, Hw. rewrite forallb_forall in H.
  specialize (H _ Hv). rewrite forallb_forall in H. specialize (H _ Hw).
  cbn in H. unfold bytes_eqb in H. rewrite bool_decide_true in H by done.
  cbn in H. by zbool.
Qed.

Lemma fallback_name_inj a b :
  in_word 32 a -> in_word 32 b ->
  str "BC_R_(" ++ dec_text a ++ str ")" = str "BC_R_(" ++ dec_text b ++ str ")" -> a = b.
Proof.
  intros Ha Hb Heq. apply app_inv_head, app_inv_tail in Heq.
  rewrite <- (dec_val_dec_text a), <- (dec_val_dec_text b) by word_lia.
  by rewrite Heq.
Qed.

(** ** Properties *)

(** [ResultName] gives different [BCRESULT] codes different names: a name
    that reaches the application (a table name or the numeric fallback)
    identifies the code that failed. *)
Theorem ResultName_injective (a b : BCRESULT) :
  in_word 32 a -> in_word 32 b -> ResultName a = ResultName b -> a = b.
Proof.
  intros Ha Hb. unfold ResultName.
  replace (u32 a) with a by word_lia. replace (u32 b) with b by word_lia.
  destruct (switch_case ResultName_cases a) as [na|] eqn:Ea;
    destruct (switch_case ResultName_cases b) as [nb|] eqn:Eb.
  - intros ->. eauto using table_names_distinct, switch_case_Some.
  - intros ->. apply switch_case_Some, table_names_not_fallback in Ea. discriminate.
  - intros <-. apply switch_case_Some, table_names_not_fallback in Eb. discriminate.
  - by apply fallback_name_inj.
Qed.

Lemma ResultName_injective_witness :
  ResultName BC_R_DNS_FAILED = str "BC_R_DNS_FAILED" /\ BC_R_DNS_FAILED = 71.
Proof.
  split; [vm_compute; reflexivity|].
  apply (ResultName_injective BC_R_DNS_FAILED 71); vm_compute; [split; congruence..|reflexivity].
Defined.
