(* ===== verification/Utils.v ===== *)
(** * Utils: string, URI and result-name helpers ([src/cpp/Utils.cpp])

    [SplitString], [EncodeURI]/[DecodeURI] and their character classes, the
    log-level maps, the connection-id hash of [Utils.h] and [ResultName].
    A [std::string] is the list of its bytes; [EncodeURI] and [DecodeURI] read
    their input through [c_str()], so they stop at the first NUL. *)

From stdpp Require Import base list numbers option.
From Stdlib Require Import ZArith Lia.
From S2P Require Import Prelude.

(** ** Splitting *)

(** [std::string::find(c, pos)], relative to the suffix at [pos]. *)
Fixpoint find_char (c : Z) (s : bytes) : option Z :=
  match s with
  | [] => None
  | x :: s' => if x =? c then Some 0 else Z.succ <$> find_char c s'
  end.

(** The loop of [SplitString(str, delimiter, dest)]; [s] is the suffix of the
    string at [pos]. Each turn but the last drops at least the delimiter, so
    one turn per character and one more are enough. *)
Fixpoint SplitString_loop (fuel : nat) (delimiter : Z) (s : bytes) : list bytes :=
  match fuel with
  | O => []
  | S f =>
      match find_char delimiter s with
      | None => [s]
      | Some colon => ztake colon s :: SplitString_loop f delimiter (zdrop (colon + 1) s)
      end
  end.

Definition SplitString (s : bytes) (delimiter : Z) : list bytes :=
  SplitString_loop (S (length s)) delimiter s.

(** Reference definition: one pass with the piece being read as accumulator. *)
Fixpoint split_ref (delimiter : Z) (piece s : bytes) : list bytes :=
  match s with
  | [] => [piece]
  | c :: s' =>
      if c =? delimiter then piece :: split_ref delimiter [] s'
      else split_ref delimiter (piece ++ [c]) s'
  end.

(** The inverse of splitting: the pieces with the delimiter between them. *)
Fixpoint join_with (delimiter : Z) (pieces : list bytes) : bytes :=
  match pieces with
  | [] => []
  | [p] => p
  | p :: ps => p ++ delimiter :: join_with delimiter ps
  end.

(** ** URI encoding *)

Definition isalnum (c : Z) : bool :=
  ((48 <=? c) && (c <=? 57)) || ((65 <=? c) && (c <=? 90)) || ((97 <=? c) && (c <=? 122)).

Definition is_uri_safe (c : Z) : bool :=
  isalnum c
  || existsb (Z.eqb c) (str "-_.!~*'()")
  || existsb (Z.eqb c) (str ";,/?:@&=+$#").

(** The digit [%02X] prints for a nibble. *)
Definition hex_upper (n : Z) : Z := if n <? 10 then 48 + n else 55 + n.

(** [sprintf(p, "%%%02X", byte)] for one byte. *)
Definition percent_hex (byte : Z) : bytes :=
  [37; hex_upper (byte / 16); hex_upper (byte mod 16)].

Fixpoint EncodeURI_loop (s : bytes) : bytes :=
  match s with
  | [] => []
  | byte :: s' =>
      if byte =? 0 then []
      else if byte <=? 0x7F then
        (if is_uri_safe byte then [byte] else percent_hex byte) ++ EncodeURI_loop s'
      else percent_hex byte ++ EncodeURI_loop s'
  end.

Definition EncodeURI (uri_string : bytes) : bytes :=
  if zlen uri_string =? 0 then uri_string else c_str (EncodeURI_loop uri_string).

(** The size of the buffer [EncodeURI] allocates for its output. *)
Definition EncodeURI_max_len (uri_string : bytes) : Z := zlen uri_string * 3 + 1.

Definition hex_to_int (hex_char : Z) : Z :=
  if (48 <=? hex_char) && (hex_char <=? 57) then hex_char - 48
  else if (97 <=? hex_char) && (hex_char <=? 102) then hex_char - 97 + 10
  else if (65 <=? hex_char) && (hex_char <=? 70) then hex_char - 65 + 10
  else -1.

(** The loop of [DecodeURI]; reading past the end of the list reads the
    terminating NUL of [c_str()]. *)
Fixpoint DecodeURI_loop (s : bytes) : bytes :=
  match s with
  | [] => []
  | c :: r =>
      if c =? 0 then []
      else if c =? 37 then
        match r with
        | h :: l :: r' =>
            if negb (h =? 0) && negb (l =? 0)
               && negb (hex_to_int h =? -1) && negb (hex_to_int l =? -1)
            then u8 (hex_to_int h * 16 + hex_to_int l) :: DecodeURI_loop r'
            else c :: DecodeURI_loop r
        | _ => c :: DecodeURI_loop r
        end
      else c :: DecodeURI_loop r
  end.

Definition DecodeURI (encoded_string : bytes) : bytes :=
  if zlen encoded_string =? 0 then encoded_string
  else c_str (DecodeURI_loop encoded_string).

Definition DecodeURI_max_len (encoded_string : bytes) : Z := zlen encoded_string + 1.

(** ** Splitting lemmas *)

Lemma split_ref_nonempty d piece s : split_ref d piece s <> [].
Proof. revert piece. induction s as [|c s IH]; intros; cbn; [done|]. zcase; [done|apply IH]. Qed.

Lemma join_split_ref d piece s :
  join_with d (split_ref d piece s) = piece ++ s.
Proof.
  revert piece. induction s as [|c s IH]; intros piece; cbn.
  - by rewrite app_nil_r.
  - zcase.
    + subst c. pose proof (split_ref_nonempty d [] s) as Hne.
      cbn [join_with]. rewrite IH. by destruct (split_ref d [] s).
    + rewrite IH. by rewrite <- app_assoc.
Qed.

Lemma split_ref_no_delim d piece s :
  Forall (fun c => c <> d) piece ->
  Forall (Forall (fun c => c <> d)) (split_ref d piece s).
Proof.
  revert piece. induction s as [|c s IH]; intros piece Hp; cbn.
  - by constructor.
  - zcase.
    + constructor; [done|]. apply IH. constructor.
    + apply IH. apply Forall_app_2; [done|]. by constructor.
Qed.

(** A piece free of the delimiter is carried through unchanged. *)
Lemma split_ref_app_piece d acc piece s :
  Forall (fun c => c <> d) piece ->
  split_ref d acc (piece ++ s) = split_ref d (acc ++ piece) s.
Proof.
  intros Hp. revert acc. induction Hp as [|c p Hc _ IH]; intros acc; cbn.
  - by rewrite app_nil_r.
  - rewrite (proj2 (Z.eqb_neq _ _) Hc), IH. by rewrite <- app_assoc.
Qed.

Lemma split_ref_find d acc s :
  split_ref d acc s =
  match find_char d s with
  | None => [acc ++ s]
  | Some k => (acc ++ ztake k s) :: split_ref d [] (zdrop (k + 1) s)
  end.
Proof.
  revert acc. induction s as [|c s IH]; intros acc; cbn [split_ref find_char].
  - by rewrite app_nil_r.
  - zcase; [cbn; by rewrite app_nil_r|].
    rewrite IH. destruct (find_char d s) as [k|] eqn:E; cbn [fmap option_fmap option_map].
    + assert (Hk : 0 <= k).
      { clear - E. revert k E. induction s as [|x s IH]; intros k; cbn; [done|].
        case_match; [by intros [= <-]|].
        destruct (find_char d s); [|done]. intros [= <-]. specialize (IH _ eq_refl). lia. }
      unfold ztake, zdrop. replace (Z.to_nat (Z.succ k)) with (S (Z.to_nat k)) by lia.
      replace (Z.to_nat (Z.succ k + 1)) with (S (Z.to_nat (k + 1))) by lia.
      cbn [take drop]. by rewrite <- app_assoc.
    + by rewrite <- app_assoc.
Qed.

Lemma find_char_lt d s k : find_char d s = Some k -> 0 <= k < zlen s.
Proof.
  revert k. induction s as [|c s IH]; intros k; cbn; [done|].
  rewrite zlen_cons. pose proof (zlen_nonneg s). zcase; [intros [= <-]; lia|].
  destruct (find_char d s); [|done]. intros [= <-]. specialize (IH _ eq_refl). lia.
Qed.

(** The [find]/[substr] loop computes the reference split. *)
Lemma SplitString_loop_ref fuel d s :
  (length s < fuel)%nat -> SplitString_loop fuel d s = split_ref d [] s.
Proof.
  revert s. induction fuel as [|f IH]; intros s Hf; [lia|].
  cbn [SplitString_loop]. rewrite split_ref_find.
  destruct (find_char d s) as [k|] eqn:E; [|done].
  apply find_char_lt in E. cbn [app]. f_equal. apply IH.
  unfold zdrop, zlen in *. rewrite length_drop. lia.
Qed.

Lemma SplitString_ref s d : SplitString s d = split_ref d [] s.
Proof. apply SplitString_loop_ref. lia. Qed.

(** Splitting inverts joining on pieces without the delimiter. *)
Lemma split_ref_join d pieces :
  pieces <> [] -> Forall (Forall (fun c => c <> d)) pieces ->
  split_ref d [] (join_with d pieces) = pieces.
Proof.
  intros Hne Hps. induction Hps as [|p ps Hp Hps IH]; [done|].
  destruct ps as [|q ps].
  - cbn [join_with]. rewrite <- (app_nil_r p) at 1.
    rewrite split_ref_app_piece by done. done.
  - change (join_with d (p :: q :: ps)) with (p ++ d :: join_with d (q :: ps)).
    rewrite split_ref_app_piece by done.
    cbn [split_ref app]. rewrite Z.eqb_refl. f_equal. by apply IH.
Qed.

(** ** URI lemmas *)

#[local] Arguments percent_hex : simpl never.

Lemma hex_upper_range n : 0 <= n < 16 -> hex_upper n <> 0 /\ hex_to_int (hex_upper n) = n.
Proof. intros. unfold hex_upper, hex_to_int. zcases. Qed.

Lemma hex_upper_unsafe n : 0 <= n < 16 -> hex_upper n <> 37 /\ hex_upper n <> 47.
Proof. intros. unfold hex_upper. zcases. Qed.

Lemma percent_hex_decode b s :
  is_byte b -> DecodeURI_loop (percent_hex b ++ s) = b :: DecodeURI_loop s.
Proof.
  intros Hb. unfold percent_hex.
  destruct (hex_upper_range (b / 16)) as [H1 E1]; [word_lia|].
  destruct (hex_upper_range (b mod 16)) as [H2 E2]; [word_lia|].
  cbn [app DecodeURI_loop]. rewrite E1, E2.
  rewrite (proj2 (Z.eqb_neq _ _) H1), (proj2 (Z.eqb_neq _ _) H2).
  change (37 =? 0) with false. change (37 =? 37) with true. cbn [andb negb].
  rewrite (proj2 (Z.eqb_neq (b / 16) (-1))) by word_lia.
  rewrite (proj2 (Z.eqb_neq (b mod 16) (-1))) by word_lia.
  cbn [andb negb]. f_equal. word_lia.
Qed.

Lemma uri_safe_not_percent c : is_uri_safe c = true -> c <> 37 /\ c <> 0.
Proof. intros H. split; intros ->; discriminate. Qed.

Lemma plain_decode c s :
  c <> 37 -> c <> 0 -> DecodeURI_loop (c :: s) = c :: DecodeURI_loop s.
Proof.
  intros H1 H2. cbn [DecodeURI_loop].
  by rewrite (proj2 (Z.eqb_neq _ _) H1), (proj2 (Z.eqb_neq _ _) H2).
Qed.

Lemma EncodeURI_loop_decode s :
  bytes_ok s -> DecodeURI_loop (EncodeURI_loop s) = c_str s.
Proof.
  induction 1 as [|b s Hb _ IH]; [done|]. cbn [EncodeURI_loop c_str].
  zcase; [done|]. zcase.
  - destruct (is_uri_safe b) eqn:E.
    + apply uri_safe_not_percent in E as [??]. cbn [app].
      by rewrite plain_decode, IH.
    + by rewrite percent_hex_decode, IH.
  - by rewrite percent_hex_decode, IH.
Qed.

Lemma percent_hex_no_nul b : is_byte b -> Forall (fun c => c <> 0) (percent_hex b).
Proof.
  intros. unfold percent_hex.
  repeat constructor; [done|apply hex_upper_range; word_lia..].
Qed.

Lemma EncodeURI_loop_no_nul s :
  bytes_ok s -> Forall (fun c => c <> 0) (EncodeURI_loop s).
Proof.
  induction 1 as [|b s Hb _ IH]; cbn; [constructor|].
  zcase; [constructor|].
  repeat case_match; apply Forall_app_2; eauto using percent_hex_no_nul.
Qed.

Lemma EncodeURI_loop_length s : (length (EncodeURI_loop s) <= 3 * length s)%nat.
Proof.
  induction s as [|b s IH]; cbn [EncodeURI_loop length]; [lia|].
  repeat case_match; rewrite ?length_app; unfold percent_hex; cbn [length]; lia.
Qed.

Lemma DecodeURI_loop_length s : (length (DecodeURI_loop s) <= length s)%nat.
Proof.
  induction s as [s IH] using (induction_ltof1 _ (@length _)); unfold ltof in IH.
  destruct s as [|c r]; cbn [DecodeURI_loop length]; [lia|].
  assert (Hr : (length (DecodeURI_loop r) <= length r)%nat) by (apply IH; cbn; lia).
  zcase; [cbn; lia|]. zcase; [|cbn [length]; lia].
  destruct r as [|h [|l r']]; try (cbn [length] in *; lia).
  case_match; cbn [length] in *; [|lia].
  assert (length (DecodeURI_loop r') <= length r')%nat by (apply IH; cbn; lia). lia.
Qed.

Lemma zlen_eqb_nil {A} (s : list A) : (zlen s =? 0) = true <-> s = [].
Proof.
  rewrite Z.eqb_eq. split; [apply zlen_0_nil|by intros ->].
Qed.

Lemma DecodeURI_unfold s : DecodeURI s = c_str (DecodeURI_loop s).
Proof.
  unfold DecodeURI. destruct (zlen s =? 0) eqn:E; [|done].
  apply zlen_eqb_nil in E. by subst.
Qed.

Lemma EncodeURI_unfold s : bytes_ok s -> EncodeURI s = EncodeURI_loop s.
Proof.
  intros. unfold EncodeURI. destruct (zlen s =? 0) eqn:E.
  - apply zlen_eqb_nil in E. by subst.
  - apply c_str_id. by apply EncodeURI_loop_no_nul.
Qed.

(** ** Log levels

    The BC levels ([_FATAL_] .. [_FINEST_]) of [BCLog.h], the SDK levels of
    [Utils.h] and QUIC's [xqc_log_level_t] ([xquic_typedef.h]). *)

Definition FATAL_ : Z := 0.
Definition ERROR_ : Z := 1.
Definition WARN_ : Z := 2.
Definition INFO_ : Z := 3.
Definition DEBUG_ : Z := 4.
Definition FINEST_ : Z := 6.

Definition LOG_LEVEL_DEBUG : Z := 1.
Definition LOG_LEVEL_INFO : Z := 2.
Definition LOG_LEVEL_WARN : Z := 3.
Definition LOG_LEVEL_ERROR : Z := 4.
Definition LOG_LEVEL_FATAL : Z := 5.

Inductive xqc_log_level :=
| XQC_LOG_REPORT | XQC_LOG_FATAL | XQC_LOG_ERROR | XQC_LOG_WARN
| XQC_LOG_STATS | XQC_LOG_INFO | XQC_LOG_DEBUG.

(** [LogLevelToBCLogLevel(uint32_t)]: the level is a letter. *)
Definition LogLevelToBCLogLevel_u32 (level : Z) : Z :=
  if level =? 102 then FATAL_
  else if level =? 101 then ERROR_
  else if level =? 119 then WARN_
  else if level =? 105 then INFO_
  else if level =? 100 then DEBUG_
  else if level =? 116 then FINEST_
  else INFO_.

(** [XQCLogLevelToBCLogLevel]; [None] is a value outside the enumeration. *)
Definition XQCLogLevelToBCLogLevel (lvl : option xqc_log_level) : Z :=
  match lvl with
  | Some XQC_LOG_FATAL => FATAL_
  | Some XQC_LOG_ERROR => ERROR_
  | Some XQC_LOG_WARN => WARN_
  | Some XQC_LOG_REPORT | Some XQC_LOG_STATS | Some XQC_LOG_INFO => INFO_
  | Some XQC_LOG_DEBUG => DEBUG_
  | None => INFO_
  end.

Definition BCLogLevelToLogLevel (lvl : Z) : Z :=
  if lvl =? FATAL_ then LOG_LEVEL_FATAL
  else if lvl =? ERROR_ then LOG_LEVEL_ERROR
  else if lvl =? WARN_ then LOG_LEVEL_WARN
  else if lvl =? INFO_ then LOG_LEVEL_INFO
  else if lvl =? DEBUG_ then LOG_LEVEL_DEBUG
  else LOG_LEVEL_INFO.

(** [LogLevelToBCLogLevel(int32_t)]. *)
Definition LogLevelToBCLogLevel_i32 (level : Z) : Z :=
  if level =? LOG_LEVEL_FATAL then FATAL_
  else if level =? LOG_LEVEL_ERROR then ERROR_
  else if level =? LOG_LEVEL_WARN then WARN_
  else if level =? LOG_LEVEL_INFO then INFO_
  else if level =? LOG_LEVEL_DEBUG then DEBUG_
  else INFO_.

(** ** Connection ids ([Utils.h]) *)

(** [xqc_cid_t]: a length and a fixed 20-byte buffer ([XQC_MAX_CID_LEN]) of
    which the first [cid_len] bytes are the id. *)
Record xqc_cid := { cid_len : Z; cid_buf : bytes }.

Definition cid_ok (c : xqc_cid) : Prop :=
  0 <= cid_len c <= 20 /\ zlen (cid_buf c) = 20 /\ bytes_ok (cid_buf c).

(** [operator==]: the lengths agree and so do the first [cid_len] bytes. *)
Definition cid_eqb (c1 c2 : xqc_cid) : bool :=
  (cid_len c1 =? cid_len c2)
  && bytes_eqb (ztake (cid_len c1) (cid_buf c1)) (ztake (cid_len c1) (cid_buf c2)).

(** A little-endian load of [n] bytes. *)
Definition le_load (n : Z) (buf : bytes) : Z := be_val (rev (ztake n buf)).

(** [std::hash<xqc_cid_t>]: xor of the words of the id, 8 bytes at a time while
    there are 8, then 4, 2 and 1. The loop runs at most [cid_len] times. *)
Fixpoint cid_hash_loop (fuel : nat) (len : Z) (buf : bytes) (hash : Z) : Z :=
  match fuel with
  | O => hash
  | S f =>
      if len =? 0 then hash
      else if 8 <=? len then
        cid_hash_loop f (len - 8) (zdrop 8 buf) (Z.lxor hash (le_load 8 buf))
      else if 4 <=? len then
        cid_hash_loop f (len - 4) (zdrop 4 buf) (Z.lxor hash (le_load 4 buf))
      else if 2 <=? len then
        cid_hash_loop f (len - 2) (zdrop 2 buf) (Z.lxor hash (le_load 2 buf))
      else cid_hash_loop f (len - 1) (zdrop 1 buf) (Z.lxor hash (le_load 1 buf))
  end.

Definition cid_hash (c : xqc_cid) : Z :=
  cid_hash_loop (Z.to_nat (cid_len c)) (cid_len c) (cid_buf c) 0.

Lemma ztake_ztake {A} n m (l : list A) : 0 <= n <= m -> ztake n (ztake m l) = ztake n l.
Proof. intros. unfold ztake. rewrite take_take. f_equal. lia. Qed.

Lemma zdrop_ztake {A} n m (l : list A) :
  0 <= n <= m -> zdrop n (ztake m l) = ztake (m - n) (zdrop n l).
Proof. intros. unfold ztake, zdrop. rewrite skipn_firstn_comm. f_equal. lia. Qed.

(** The hash loop reads only the first [len] bytes of the buffer. *)
Lemma cid_hash_loop_prefix fuel len buf1 buf2 hash :
  0 <= len -> ztake len buf1 = ztake len buf2 ->
  cid_hash_loop fuel len buf1 hash = cid_hash_loop fuel len buf2 hash.
Proof.
  revert len buf1 buf2 hash. induction fuel as [|f IH]; intros len b1 b2 h Hl Heq; [done|].
  assert (Hload : forall n, 0 <= n <= len -> le_load n b1 = le_load n b2).
  { intros n Hn. unfold le_load.
    by rewrite <- (ztake_ztake n len b1), <- (ztake_ztake n len b2), Heq by lia. }
  assert (Hdrop : forall n, 0 <= n <= len ->
            ztake (len - n) (zdrop n b1) = ztake (len - n) (zdrop n b2)).
  { intros n Hn. by rewrite <- !zdrop_ztake, Heq by lia. }
  cbn [cid_hash_loop].
  repeat (zcase; [|try zcase]); try done;
    rewrite ?Hload by lia; apply IH; try apply Hdrop; lia.
Qed.

(** ** Properties *)

(** [DecodeURI] inverts [EncodeURI] on every byte string without an embedded
    NUL, whatever characters it holds. *)
Theorem DecodeURI_EncodeURI (s : bytes) :
  bytes_ok s -> Forall (fun c => c <> 0) s -> DecodeURI (EncodeURI s) = s.
Proof.
  intros Hs Hn. rewrite EncodeURI_unfold, DecodeURI_unfold, EncodeURI_loop_decode by done.
  by rewrite !c_str_id; rewrite ?c_str_id.
Qed.

Lemma DecodeURI_EncodeURI_witness :
  DecodeURI (EncodeURI (str "a b%/" ++ [200])) = str "a b%/" ++ [200].
Proof.
  apply DecodeURI_EncodeURI.
  - apply (bool_decide_unpack _). vm_compute. exact I.
  - apply (bool_decide_unpack _). vm_compute. exact I.
Defined.

(** Neither conversion overruns the buffer it allocates: the text written,
    with its terminating NUL, fits the [length * 3 + 1] bytes [EncodeURI] asks
    for and the [length + 1] bytes [DecodeURI] asks for. *)
Theorem URI_buffers_suffice (s : bytes) :
  zlen (EncodeURI_loop s) + 1 <= EncodeURI_max_len s /\
  zlen (DecodeURI_loop s) + 1 <= DecodeURI_max_len s.
Proof.
  unfold EncodeURI_max_len, DecodeURI_max_len, zlen.
  pose proof (EncodeURI_loop_length s). pose proof (DecodeURI_loop_length s). lia.
Qed.

(** [SplitString] loses nothing and splits everywhere: joining the pieces with
    the delimiter gives the input back, no piece contains the delimiter, and it
    is the only such list of pieces. *)
Theorem SplitString_spec (s : bytes) (delimiter : Z) :
  join_with delimiter (SplitString s delimiter) = s /\
  Forall (Forall (fun c => c <> delimiter)) (SplitString s delimiter) /\
  (forall pieces, pieces <> [] -> Forall (Forall (fun c => c <> delimiter)) pieces ->
     join_with delimiter pieces = s -> pieces = SplitString s delimiter).
Proof.
  rewrite SplitString_ref. split; [apply join_split_ref|].
  split; [apply split_ref_no_delim; constructor|].
  intros pieces Hne Hp <-. by rewrite split_ref_join.
Qed.

(** The hash of a connection id is compatible with its equality, as the
    unordered maps keyed by ids require: ids that compare equal hash equal, even
    when the unused tails of their buffers differ. *)
Theorem cid_hash_respects_eq (c1 c2 : xqc_cid) :
  cid_ok c1 -> cid_eqb c1 c2 = true -> cid_hash c1 = cid_hash c2.
Proof.
  intros [Hl _] H. unfold cid_eqb, bytes_eqb in H. zbool.
  apply bool_decide_eq_true in H0. unfold cid_hash. rewrite <- H.
  apply cid_hash_loop_prefix; [lia|done].
Qed.

Lemma cid_hash_respects_eq_witness :
  let c1 := {| cid_len := 3; cid_buf := [1; 2; 3] ++ replicate 17 0 |} in
  let c2 := {| cid_len := 3; cid_buf := [1; 2; 3] ++ replicate 17 9 |} in
  cid_hash c1 = cid_hash c2.
Proof.
  apply cid_hash_respects_eq; [|reflexivity].
  split; [cbn; lia|]. split; [reflexivity|].
  apply (bool_decide_unpack _). vm_compute. exact I.
Defined.
