(* ===== verification/MasqueFraming.v ===== *)
(** * MasqueFraming: QUIC varints, CONNECT-UDP paths and HTTP datagrams
      ([src/cpp/MasqueFraming.cpp])

    A byte-pointer argument is the list of the bytes it points at; the size_t
    returned by the codecs, with 0 for failure, is an [option]. *)

From stdpp Require Import base list numbers option.
From Stdlib Require Import ZArith Lia.
From S2P Require Import Prelude Utils.

(** ** Variable-length integers *)

Definition VarintLen (value : Z) : Z :=
  if value <=? 0x3F then 1
  else if value <=? 0x3FFF then 2
  else if value <=? 0x3FFFFFFF then 4
  else 8.

(** [VarintEncode(out, cap, value)]: the bytes stored at [out], [None] when the
    return value is 0. *)
Definition VarintEncode (cap value : Z) : option bytes :=
  let len := VarintLen value in
  if cap <? len then None
  else Some
    (if len =? 1 then [u8 value]
     else if len =? 2 then
       [u8 (Z.lor 0x40 (Z.shiftr value 8)); u8 value]
     else if len =? 4 then
       [u8 (Z.lor 0x80 (Z.shiftr value 24)); u8 (Z.shiftr value 16);
        u8 (Z.shiftr value 8); u8 value]
     else
       [u8 (Z.lor 0xC0 (Z.shiftr value 56)); u8 (Z.shiftr value 48);
        u8 (Z.shiftr value 40); u8 (Z.shiftr value 32);
        u8 (Z.shiftr value 24); u8 (Z.shiftr value 16);
        u8 (Z.shiftr value 8); u8 value]).

(** The accumulation loop of [VarintDecode]. *)
Fixpoint VarintDecode_loop (value : Z) (rest : bytes) : Z :=
  match rest with
  | [] => value
  | b :: rest' => VarintDecode_loop (Z.lor (u64 (Z.shiftl value 8)) b) rest'
  end.

(** [VarintDecode(in, len, &value)]: the value and the bytes consumed. *)
Definition VarintDecode (inp : bytes) : option (Z * Z) :=
  if zlen inp <? 1 then None
  else
    let b0 := zat inp 0 in
    let enc_len := Z.shiftl 1 (Z.shiftr b0 6) in
    if zlen inp <? enc_len then None
    else Some (VarintDecode_loop (Z.land b0 0x3F) (ztake (enc_len - 1) (zdrop 1 inp)), enc_len).

(** The largest value RFC 9000 allows. *)
Definition varint_max : Z := 2 ^ 62 - 1.

(** ** Stream ids *)

Definition QuarterStreamId (stream_id : Z) : Z := stream_id / 4.
Definition StreamIdFromQuarter (quarter : Z) : Z := u64 (quarter * 4).

(** ** Paths *)

Definition IsUnreserved (c : Z) : bool :=
  ((65 <=? c) && (c <=? 90)) || ((97 <=? c) && (c <=? 122)) || ((48 <=? c) && (c <=? 57))
  || (c =? 45) || (c =? 46) || (c =? 95) || (c =? 126).

Definition kHex : bytes := str "0123456789ABCDEF".

Definition PercentEncodeSegment (s : bytes) : bytes :=
  concat (map (fun c =>
    if IsUnreserved c then [c]
    else [37; zat kHex (Z.land (Z.shiftr c 4) 0xF);
              zat kHex (Z.land c 0xF)]) s).

Definition strip_brackets (h : bytes) : bytes :=
  if (2 <=? zlen h) && (zat h 0 =? 91) && (zat h (zlen h - 1) =? 93)
  then ztake (zlen h - 2) (zdrop 1 h) else h.

(** [BuildConnectUdpPath(host, port)]; [snprintf] keeps at most 7 characters. *)
Definition BuildConnectUdpPath (host : bytes) (port : Z) : bytes :=
  let h := strip_brackets host in
  let port_buf := ztake 7 (dec_text port) in
  str "/.well-known/masque/udp/" ++ PercentEncodeSegment h ++ str "/"
  ++ PercentEncodeSegment port_buf ++ str "/".

(** ** Datagrams *)

Definition kUdpContextId : Z := 0.

Definition DatagramOverhead (quarter_stream_id : Z) : Z :=
  VarintLen quarter_stream_id + VarintLen kUdpContextId.

(** [EncodeDatagram(qsid, payload, payload_len, out)]: the returned flag and the
    vector, whose earlier contents are [out]; a null payload is [None]. *)
Definition EncodeDatagram (quarter_stream_id : Z) (payload : option bytes)
    (payload_len : Z) (out : bytes) : bool * bytes :=
  let overhead := DatagramOverhead quarter_stream_id in
  let out := vec_resize (overhead + payload_len) out in
  match VarintEncode overhead quarter_stream_id with
  | None => (false, out)
  | Some q =>
      let n := zlen q in
      let out := write_at out 0 q in
      match VarintEncode (overhead - n) kUdpContextId with
      | None => (false, out)
      | Some c =>
          let out := write_at out n c in
          let p := n + zlen c in
          match payload with
          | Some pl =>
              if 0 <? payload_len
              then (true, write_at out p (ztake payload_len pl)) else (true, out)
          | None => (true, out)
          end
      end
  end.

(** [DecodeDatagram]: the quarter stream id, the context id and the payload. *)
Definition DecodeDatagram (inp : bytes) : option (Z * Z * bytes) :=
  '(qsid, n) ← VarintDecode inp;
  '(ctx, m) ← VarintDecode (zdrop n inp);
  Some (qsid, ctx, zdrop (n + m) inp).

(** ** Varint lemmas *)

Lemma VarintLen_cases v :
  (v <= 63 /\ VarintLen v = 1) \/ (63 < v <= 16383 /\ VarintLen v = 2) \/
  (16383 < v <= 1073741823 /\ VarintLen v = 4) \/ (1073741823 < v /\ VarintLen v = 8).
Proof. unfold VarintLen. zcases. Qed.

Lemma VarintLen_range v : 1 <= VarintLen v <= 8.
Proof. pose proof (VarintLen_cases v). lia. Qed.

(** The decode loop is big-endian accumulation as long as it stays in 64 bits. *)
Lemma VarintDecode_loop_be v rest :
  bytes_ok rest -> 0 <= v -> (v + 1) * 2 ^ (8 * zlen rest) <= 2 ^ 64 ->
  VarintDecode_loop v rest = be_val_from v rest.
Proof.
  intros Hr. revert v. induction Hr as [|b rest Hb Hr IH]; intros v Hv Hbound; [done|].
  cbn [VarintDecode_loop be_val_from]. unfold in_word in Hb. change (2 ^ 8) with 256 in Hb.
  rewrite zlen_cons, Z.mul_add_distr_l, Z.pow_add_r in Hbound by (pose proof (zlen_nonneg rest); lia).
  change (2 ^ (8 * 1)) with 256 in Hbound.
  assert (Hp : 1 <= 2 ^ (8 * zlen rest)).
  { pose proof (zlen_nonneg rest). assert (0 < 2 ^ (8 * zlen rest)) by (apply Z.pow_pos_nonneg; lia). lia. }
  assert (Hsh : u64 (Z.shiftl v 8) = Z.shiftl v 8).
  { rewrite Z.shiftl_mul_pow2 by lia. change (2 ^ 8) with 256.
    apply u64_small. change (2 ^ 64) with 18446744073709551616 in Hbound. nia. }
  rewrite Hsh, lor_add_disjoint by (cbn; lia). change (2 ^ 8) with 256.
  apply IH; [lia|]. nia.
Qed.

(** The bytes of an encoding are the big-endian bytes of the value with the
    length code [t] in the two top bits. *)
Lemma VarintEncode_first t v k :
  0 <= v < 2 ^ (k + 6) -> 0 <= k -> 0 <= t < 4 ->
  u8 (Z.lor (Z.shiftl t 6) (Z.shiftr v k)) = t * 64 + v / 2 ^ k.
Proof.
  intros Hv Hk Ht. rewrite Z.shiftr_div_pow2 by done.
  assert (0 <= v / 2 ^ k < 64).
  { rewrite Z.pow_add_r in Hv by lia. change (2 ^ 6) with 64 in Hv.
    split; [apply Z.div_pos; lia|apply Z.div_lt_upper_bound; lia]. }
  rewrite lor_add_disjoint by (cbn; lia). change (2 ^ 6) with 64. apply u8_small. lia.
Qed.

Lemma first_byte_fields t r :
  0 <= t < 4 -> 0 <= r < 64 ->
  Z.shiftr (t * 64 + r) 6 = t /\ Z.land (t * 64 + r) 63 = r.
Proof.
  intros. rewrite Z.shiftr_div_pow2, (land_mask 6) by done. change (2 ^ 6) with 64. lia.
Qed.

Lemma ztake_app_0 {A} n (l k : list A) : n = zlen l -> ztake n (l ++ k) = l.
Proof. apply ztake_app_exact. Qed.

(** What the decoder does with a first byte that carries length code [t] and the
    value bits [r], followed by [bs] and any trailing bytes. *)
Lemma VarintDecode_head t r bs rest :
  0 <= t < 4 -> 0 <= r < 64 -> bytes_ok bs -> zlen bs = 2 ^ t - 1 ->
  VarintDecode ((t * 64 + r) :: bs ++ rest) = Some (be_val_from r bs, 2 ^ t).
Proof.
  intros Ht Hr Hb Hlen. unfold VarintDecode. rewrite zlen_cons, zlen_app.
  pose proof (zlen_nonneg rest). rewrite zat_cons_0. cbv zeta.
  destruct (first_byte_fields t r Ht Hr) as [-> ->].
  rewrite Z.shiftl_1_l. assert (1 <= 2 ^ t <= 8).
  { assert (t = 0 \/ t = 1 \/ t = 2 \/ t = 3) as [-> | [-> | [-> | ->]]] by lia; cbn; lia. }
  zcase; [lia|]. zcase; [lia|]. do 2 f_equal.
  change (zdrop 1 (t * 64 + r :: bs ++ rest)) with (bs ++ rest).
  rewrite ztake_app_exact by lia.
  apply VarintDecode_loop_be; [done|lia|]. rewrite Hlen.
  assert (t = 0 \/ t = 1 \/ t = 2 \/ t = 3) as [-> | [-> | [-> | ->]]] by lia; cbn; lia.
Qed.

Lemma be_val_from_bytes r n v :
  be_val_from r (be_bytes n v) = r * 2 ^ (8 * Z.of_nat n) + v mod 2 ^ (8 * Z.of_nat n).
Proof.
  revert r v. induction n as [|n IH]; intros r v.
  - cbn. rewrite Z.mod_1_r. lia.
  - cbn [be_bytes]. rewrite be_val_from_app, IH. cbn [be_val_from].
    replace (8 * Z.of_nat (S n)) with (8 + 8 * Z.of_nat n) by lia.
    rewrite Z.pow_add_r by lia. change (2 ^ 8) with 256.
    assert (0 < 2 ^ (8 * Z.of_nat n)) by (apply Z.pow_pos_nonneg; lia).
    rewrite Z.rem_mul_r by lia. lia.
Qed.

Lemma be_tail_1 v : be_bytes 1 v = [u8 v].
Proof. reflexivity. Qed.
Lemma be_tail_3 v :
  be_bytes 3 v = [u8 (Z.shiftr v 16); u8 (Z.shiftr v 8); u8 v].
Proof.
  cbn [be_bytes app]. rewrite !Z.shiftr_div_pow2, !Z.div_div by lia. reflexivity.
Qed.
Lemma be_tail_7 v :
  be_bytes 7 v = [u8 (Z.shiftr v 48); u8 (Z.shiftr v 40); u8 (Z.shiftr v 32);
                  u8 (Z.shiftr v 24); u8 (Z.shiftr v 16); u8 (Z.shiftr v 8); u8 v].
Proof.
  cbn [be_bytes app]. rewrite !Z.shiftr_div_pow2, !Z.div_div by lia. reflexivity.
Qed.

Lemma lor_top_bits x : 0 <= x < 256 -> Z.lor 192 x = 3 * 64 + x mod 64.
Proof.
  intros Hx.
  assert (H : forallb (fun n => Z.lor 192 n =? 3 * 64 + n mod 64) (seqZ 0 256) = true)
    by (vm_compute; reflexivity).
  rewrite forallb_forall in H. specialize (H x). zbool. apply Z.eqb_eq, H.
  apply list_elem_of_In, elem_of_seqZ. lia.
Qed.

(** The shape of every encoding: the length code, the top value bits that fit
    the first byte, and the rest of the value. *)
Lemma VarintEncode_shape cap v :
  in_word 64 v -> VarintLen v <= cap ->
  exists t k, VarintEncode cap v
    = Some ((t * 64 + (v / 2 ^ (8 * Z.of_nat k)) mod 64) :: be_bytes k v) /\
    0 <= t < 4 /\ 2 ^ t = VarintLen v /\ Z.of_nat k = 2 ^ t - 1 /\
    (v < 2 ^ (8 * Z.of_nat k + 6) \/ t = 3).
Proof.
  intros Hv Hcap. unfold VarintEncode. unfold in_word in Hv.
  rewrite (proj2 (Z.ltb_ge _ _)) by done.
  destruct (VarintLen_cases v) as [[Hr ->]|[[Hr ->]|[[Hr ->]|[Hr ->]]]]; cbn [Z.eqb Pos.eqb].
  - exists 0, 0%nat. rewrite u8_small by lia. rewrite Z.div_1_r, Z.mod_small by lia.
    repeat split; cbn; lia.
  - exists 1, 1%nat. change 64 with (Z.shiftl 1 6) at 1.
    rewrite (VarintEncode_first 1 v 8) by (cbn; lia). rewrite be_tail_1.
    rewrite (Z.mod_small (v / _)) by (cbn; lia). repeat split; cbn; lia.
  - exists 2, 3%nat. change 128 with (Z.shiftl 2 6) at 1.
    rewrite (VarintEncode_first 2 v 24) by (cbn; lia). rewrite be_tail_3.
    rewrite (Z.mod_small (v / _)) by (cbn; lia). repeat split; cbn; lia.
  - exists 3, 7%nat. rewrite be_tail_7.
    assert (0 <= v / 2 ^ 56 < 256) by (cbn in *; lia).
    rewrite lor_top_bits by (by rewrite Z.shiftr_div_pow2).
    rewrite (u8_small (3 * 64 + _)) by lia. rewrite (Z.shiftr_div_pow2 v 56) by done.
    repeat split; cbn; lia.
Qed.

Lemma VarintEncode_length cap v bs : VarintEncode cap v = Some bs -> zlen bs = VarintLen v.
Proof.
  unfold VarintEncode. destruct (cap <? VarintLen v); [done|]. intros [= <-].
  destruct (VarintLen_cases v) as [[_ ->]|[[_ ->]|[[_ ->]|[_ ->]]]]; reflexivity.
Qed.

Lemma VarintEncode_cap cap v bs : VarintEncode cap v = Some bs -> VarintLen v <= cap.
Proof. unfold VarintEncode. destruct (Z.ltb_spec cap (VarintLen v)); [done|lia]. Qed.

Lemma VarintEncode_total cap v : VarintLen v <= cap -> is_Some (VarintEncode cap v).
Proof. intros. unfold VarintEncode. rewrite (proj2 (Z.ltb_ge _ _)) by done. eauto. Qed.

(** Decoding an encoding that is followed by any bytes: the value comes back
    modulo [2 ^ 62]. *)
Lemma VarintDecode_encode cap v bs rest :
  in_word 64 v -> VarintEncode cap v = Some bs ->
  VarintDecode (bs ++ rest) = Some (v mod 2 ^ 62, zlen bs).
Proof.
  intros Hv He. pose proof (VarintEncode_length _ _ _ He) as Hl.
  pose proof (VarintEncode_cap _ _ _ He) as Hcap.
  destruct (VarintEncode_shape cap v Hv Hcap) as (t & k & He' & Ht & Hlen & Hk & Hor).
  rewrite He in He'. injection He' as ->. rewrite Hl, <- Hlen. unfold in_word in Hv.
  cbn [app]. rewrite VarintDecode_head; [|lia|lia|apply be_bytes_ok|by rewrite zlen_be_bytes].
  rewrite be_val_from_bytes. do 2 f_equal.
  assert (t = 0 \/ t = 1 \/ t = 2 \/ t = 3) as [-> | [-> | [-> | ->]]] by lia; rewrite Hk in *;
    cbn in *; lia.
Qed.

(** ** Path lemmas *)

Lemma unreserved_plain c : IsUnreserved c = true -> c <> 37 /\ c <> 0 /\ c <> 47.
Proof. intros H. repeat split; intros ->; discriminate. Qed.

Lemma kHex_at n : 0 <= n < 16 -> zat kHex n = hex_upper n.
Proof.
  intros Hn.
  assert (H : forallb (fun n => zat kHex n =? hex_upper n) (seqZ 0 16) = true)
    by (vm_compute; reflexivity).
  rewrite forallb_forall in H. specialize (H n). apply Z.eqb_eq, H.
  apply list_elem_of_In, elem_of_seqZ. lia.
Qed.

Lemma PercentEncode_cons c s :
  is_byte c ->
  PercentEncodeSegment (c :: s)
  = (if IsUnreserved c then [c] else percent_hex c) ++ PercentEncodeSegment s.
Proof.
  intros Hc. unfold PercentEncodeSegment. cbn [map concat]. f_equal.
  destruct (IsUnreserved c); [done|]. unfold percent_hex.
  rewrite (land_mask 4), Z.shiftr_div_pow2, (land_mask 4) by done.
  change (2 ^ 4) with 16. rewrite !kHex_at by lia.
  replace (c / 16 mod 16) with (c / 16) by word_lia. done.
Qed.

(** Percent-encoding is undone by the SDK's own [DecodeURI]. *)
Lemma PercentEncode_decode s :
  bytes_ok s -> DecodeURI_loop (PercentEncodeSegment s) = s.
Proof.
  induction 1 as [|c s Hc _ IH]; [done|]. rewrite PercentEncode_cons by done.
  destruct (IsUnreserved c) eqn:E.
  - apply unreserved_plain in E as (? & ? & ?). cbn [app]. by rewrite plain_decode, IH.
  - by rewrite percent_hex_decode, IH.
Qed.

Lemma PercentEncode_no_slash s :
  bytes_ok s -> Forall (fun c => c <> 47) (PercentEncodeSegment s).
Proof.
  induction 1 as [|c s Hc _ IH]; [constructor|]. rewrite PercentEncode_cons by done.
  apply Forall_app_2; [|done]. destruct (IsUnreserved c) eqn:E.
  - apply unreserved_plain in E as (? & ? & ?). by repeat constructor.
  - unfold percent_hex. repeat constructor; [done|apply hex_upper_unsafe; word_lia..].
Qed.

Lemma PercentEncode_inj s1 s2 :
  bytes_ok s1 -> bytes_ok s2 ->
  PercentEncodeSegment s1 = PercentEncodeSegment s2 -> s1 = s2.
Proof.
  intros H1 H2 Heq. rewrite <- (PercentEncode_decode s1), <- (PercentEncode_decode s2) by done.
  by rewrite Heq.
Qed.

(** Two slash-free texts followed by a slash can be told apart. *)
Lemma slash_split (a b x y : bytes) :
  Forall (fun c => c <> 47) a -> Forall (fun c => c <> 47) b ->
  a ++ 47 :: x = b ++ 47 :: y -> a = b /\ x = y.
Proof.
  intros Ha. revert b. induction Ha as [|c a Hc Ha IH]; intros b Hb.
  - destruct Hb; cbn; [by intros [= ->]|]. intros [= <- _]. done.
  - destruct Hb as [|d b Hd Hb]; cbn; [by intros [= -> _]|].
    intros [= <- Heq]. destruct (IH b Hb Heq) as [-> ->]. done.
Qed.

Lemma dec_text_u16_short port : in_word 16 port -> ztake 7 (dec_text port) = dec_text port.
Proof.
  intros Hp. apply ztake_all. pose proof (dec_text_length 5 port) as H.
  change (10 ^ Z.of_nat 5) with 100000 in H. change (Z.of_nat 5) with 5 in H.
  specialize (H ltac:(word_lia) ltac:(lia)). lia.
Qed.

(** ** Datagram lemmas *)

(** On success the vector holds exactly the two varints and the payload. *)
Lemma EncodeDatagram_bytes qsid payload out q c :
  VarintEncode (DatagramOverhead qsid) qsid = Some q ->
  VarintEncode (DatagramOverhead qsid - zlen q) kUdpContextId = Some c ->
  EncodeDatagram qsid (Some payload) (zlen payload) out = (true, q ++ c ++ payload).
Proof.
  intros Hq Hc. unfold EncodeDatagram. rewrite Hq, Hc.
  set (o := vec_resize _ _).
  assert (Ho : zlen o = zlen q + zlen c + zlen payload).
  { unfold o. pose proof (zlen_nonneg payload). pose proof (VarintLen_range qsid).
    pose proof (VarintLen_range kUdpContextId).
    rewrite vec_resize_length; unfold DatagramOverhead in *; [|lia].
    rewrite (VarintEncode_length _ _ _ Hq), (VarintEncode_length _ _ _ Hc). lia. }
  pose proof (zlen_nonneg payload). pose proof (zlen_nonneg q). pose proof (zlen_nonneg c).
  pose proof (write_at_extend [] o q ltac:(lia)) as E. cbn [app] in E.
  change (zlen (@nil Z)) with 0 in E. rewrite E.
  rewrite write_at_extend by (rewrite zlen_zdrop; lia).
  rewrite zdrop_zdrop by lia.
  zcase.
  - rewrite ztake_all by lia. rewrite <- zlen_app.
    rewrite write_at_extend by (rewrite zlen_app, zlen_zdrop; lia).
    rewrite zlen_app, zdrop_zdrop, zdrop_all by lia.
    by rewrite app_nil_r, <- app_assoc.
  - rewrite (zlen_0_nil payload) by lia. rewrite zdrop_all by lia.
    by rewrite !app_nil_r.
Qed.

(** ** Properties *)

(** The varint codec round-trips. For every 64-bit value and every buffer with
    room for [VarintLen] bytes, encoding succeeds and writes exactly that many
    bytes, and decoding them, whatever follows in the buffer, consumes exactly
    them and returns the value modulo [2 ^ 62]: the value itself over the whole
    range RFC 9000 allows, and above it a silent truncation. *)
Theorem varint_roundtrip (cap value : Z) (rest : bytes) :
  in_word 64 value -> VarintLen value <= cap ->
  exists bs, VarintEncode cap value = Some bs /\ zlen bs = VarintLen value /\
    bytes_ok bs /\
    VarintDecode (bs ++ rest) = Some (value mod 2 ^ 62, zlen bs) /\
    (value <= varint_max -> VarintDecode (bs ++ rest) = Some (value, zlen bs)).
Proof.
  intros Hv Hcap. destruct (VarintEncode_total cap value Hcap) as [bs He].
  exists bs. pose proof (VarintDecode_encode _ _ _ rest Hv He) as Hd.
  split; [done|]. split; [by eapply VarintEncode_length|]. split.
  - destruct (VarintEncode_shape cap value Hv Hcap) as (t & k & He' & Ht & _).
    rewrite He in He'. injection He' as ->. constructor; [|apply be_bytes_ok].
    assert (Hm := Z.mod_pos_bound (value / 2 ^ (8 * Z.of_nat k)) 64 ltac:(lia)).
    unfold in_word. change (2 ^ 8) with 256. lia.
  - split; [done|]. intros Hmax. rewrite Hd. unfold varint_max, in_word in *.
    by rewrite Z.mod_small by lia.
Qed.

Lemma varint_roundtrip_witness :
  exists bs, VarintEncode 8 15293 = Some bs /\ zlen bs = VarintLen 15293 /\
    bytes_ok bs /\
    VarintDecode (bs ++ [7]) = Some (15293 mod 2 ^ 62, zlen bs) /\
    (15293 <= varint_max -> VarintDecode (bs ++ [7]) = Some (15293, zlen bs)).
Proof. apply varint_roundtrip; [split; cbn; lia|cbn; lia]. Defined.

(** An HTTP datagram decodes to what was encoded: for a quarter stream id in
    the RFC 9000 range and any payload, [EncodeDatagram] succeeds whatever the
    output vector held before, overwrites all of it, and [DecodeDatagram] gives
    back the stream id, the UDP context id 0 and the payload. *)
Theorem datagram_roundtrip (qsid : Z) (payload out : bytes) :
  0 <= qsid <= varint_max ->
  exists bs, EncodeDatagram qsid (Some payload) (zlen payload) out = (true, bs) /\
    zlen bs = DatagramOverhead qsid + zlen payload /\
    DecodeDatagram bs = Some (qsid, kUdpContextId, payload).
Proof.
  intros Hq. unfold varint_max in Hq.
  pose proof (VarintLen_range qsid). pose proof (VarintLen_range kUdpContextId).
  destruct (VarintEncode_total (DatagramOverhead qsid) qsid) as [q Eq];
    [unfold DatagramOverhead; lia|].
  pose proof (VarintEncode_length _ _ _ Eq) as Lq.
  destruct (VarintEncode_total (DatagramOverhead qsid - zlen q) kUdpContextId) as [c Ec];
    [unfold DatagramOverhead; lia|].
  pose proof (VarintEncode_length _ _ _ Ec) as Lc.
  exists (q ++ c ++ payload). split; [by apply EncodeDatagram_bytes|]. split.
  - rewrite !zlen_app. unfold DatagramOverhead. lia.
  - unfold DecodeDatagram.
    assert (in_word 64 qsid /\ in_word 64 kUdpContextId) as [Wq Wc]
      by (unfold kUdpContextId; clear - Hq; word_lia).
    rewrite (VarintDecode_encode _ _ _ (c ++ payload) Wq Eq). cbn [mbind option_bind].
    rewrite zdrop_app_exact by done.
    rewrite (VarintDecode_encode _ _ _ payload Wc Ec).
    cbn [mbind option_bind]. rewrite <- zlen_app, app_assoc, zdrop_app_exact by done.
    by rewrite Z.mod_small by lia.
Qed.

Lemma datagram_roundtrip_witness :
  exists bs, EncodeDatagram 70000 (Some (str "hi")) (zlen (str "hi")) [1; 2; 3; 4; 5; 6; 7; 8; 9]
      = (true, bs) /\
    zlen bs = DatagramOverhead 70000 + zlen (str "hi") /\
    DecodeDatagram bs = Some (70000, kUdpContextId, str "hi").
Proof. apply datagram_roundtrip. vm_compute. split; congruence. Defined.

(** Percent-encoding a path segment is reversible by the SDK's own decoder and
    never produces a ['/'], so the target of a CONNECT-UDP request cannot be
    changed by the characters of the host: two requests have the same path only
    when they name the same port and the same host up to IPv6 brackets. *)
Theorem BuildConnectUdpPath_injective (h1 h2 : bytes) (p1 p2 : Z) :
  bytes_ok h1 -> bytes_ok h2 -> in_word 16 p1 -> in_word 16 p2 ->
  BuildConnectUdpPath h1 p1 = BuildConnectUdpPath h2 p2 ->
  strip_brackets h1 = strip_brackets h2 /\ p1 = p2.
Proof.
  intros H1 H2 Hp1 Hp2. unfold BuildConnectUdpPath. intros Heq%app_inv_head.
  rewrite !dec_text_u16_short in Heq by done.
  assert (Hstrip : forall h, bytes_ok h -> bytes_ok (strip_brackets h)).
  { intros h Hh. unfold strip_brackets. case_match; [|done].
    unfold ztake, zdrop, bytes_ok. by apply Forall_take, Forall_drop. }
  assert (Hdec : forall p, in_word 16 p -> bytes_ok (dec_text p)).
  { intros p Hp. assert (Hp0 : 0 <= p) by word_lia.
    eapply List.Forall_impl; [|exact (dec_text_range p Hp0)].
    intros c ?. clear - H. word_lia. }
  change (str "/") with [47] in Heq. cbn [app] in Heq.
  apply slash_split in Heq as [Hh Hrest]; [|by apply PercentEncode_no_slash, Hstrip..].
  apply slash_split in Hrest as [Hp _]; [|by apply PercentEncode_no_slash, Hdec..].
  split; [by apply PercentEncode_inj; auto|].
  apply PercentEncode_inj in Hp; [|auto..].
  rewrite <- (dec_val_dec_text p1), <- (dec_val_dec_text p2) by word_lia. by rewrite Hp.
Qed.

Lemma BuildConnectUdpPath_injective_witness :
  strip_brackets (str "[::1]") = strip_brackets (str "::1") /\ 443 = 443.
Proof.
  apply BuildConnectUdpPath_injective;
    first [ apply (bool_decide_unpack _); vm_compute; exact I | reflexivity ].
Defined.
