(* ===== verification/VpnPolicy.v ===== *)
(** * VpnPolicy: how a socket relates to a VPN ([src/cpp/VpnPolicy.cpp])

    The policy enumeration with its text form and precedence rules, the
    classification of peer addresses, and the decision to drop a socket's
    interface pin after the routes changed. An enumeration argument whose value
    is outside the enumeration is [None]. *)

From stdpp Require Import base list numbers option.
From Stdlib Require Import ZArith Lia.
From S2P Require Import Prelude.

(** ** Policies *)

Inductive TTVpnPolicy :=
| TT_VPN_POLICY_UNSET
| TT_VPN_POLICY_OS
| TT_VPN_POLICY_PREFER_PHYSICAL
| TT_VPN_POLICY_FORCE_PHYSICAL.

#[global] Instance TTVpnPolicy_eq_dec : EqDecision TTVpnPolicy.
Proof. solve_decision. Defined.

(** [-1], [0], [1], [2] in [VpnPolicy.h]. *)
Definition policy_code (p : TTVpnPolicy) : Z :=
  match p with
  | TT_VPN_POLICY_UNSET => -1
  | TT_VPN_POLICY_OS => 0
  | TT_VPN_POLICY_PREFER_PHYSICAL => 1
  | TT_VPN_POLICY_FORCE_PHYSICAL => 2
  end.

(** The default of the build target; [ios_target] is the [#if] of the source. *)
Definition tt_vpn_policy_platform_default (ios_target : bool) : TTVpnPolicy :=
  if ios_target then TT_VPN_POLICY_OS else TT_VPN_POLICY_PREFER_PHYSICAL.

(** [s] is a possibly null C string. *)
Definition tt_vpn_policy_from_string (s : option bytes) : TTVpnPolicy :=
  match s with
  | None => TT_VPN_POLICY_UNSET
  | Some s =>
      let s := c_str s in
      if bytes_eqb s [] then TT_VPN_POLICY_UNSET
      else if bytes_eqb s (str "os") then TT_VPN_POLICY_OS
      else if bytes_eqb s (str "prefer-physical") then TT_VPN_POLICY_PREFER_PHYSICAL
      else if bytes_eqb s (str "force-physical") then TT_VPN_POLICY_FORCE_PHYSICAL
      else TT_VPN_POLICY_UNSET
  end.

Definition tt_vpn_policy_to_string (p : option TTVpnPolicy) : bytes :=
  match p with
  | Some TT_VPN_POLICY_OS => str "os"
  | Some TT_VPN_POLICY_PREFER_PHYSICAL => str "prefer-physical"
  | Some TT_VPN_POLICY_FORCE_PHYSICAL => str "force-physical"
  | Some TT_VPN_POLICY_UNSET => str "unset"
  | None => str "invalid"
  end.

Definition explicit_given (p : option TTVpnPolicy) : bool :=
  match p with
  | Some TT_VPN_POLICY_OS | Some TT_VPN_POLICY_PREFER_PHYSICAL
  | Some TT_VPN_POLICY_FORCE_PHYSICAL => true
  | _ => false
  end.

(** [tt_vpn_policy_resolve]: the resolved policy and [*outBothGiven]; the two
    [int] flags are booleans. *)
Definition tt_vpn_policy_resolve (explicitPolicy : option TTVpnPolicy)
    (hasBypassVpn bypassVpn : bool) (platformDefault : TTVpnPolicy)
    : option TTVpnPolicy * bool :=
  let explicitGiven := explicit_given explicitPolicy in
  let bothGiven := explicitGiven && hasBypassVpn in
  (if explicitGiven then explicitPolicy
   else if hasBypassVpn then
     Some (if bypassVpn then TT_VPN_POLICY_PREFER_PHYSICAL else TT_VPN_POLICY_OS)
   else Some platformDefault, bothGiven).

(** ** Peer address classes *)

Definition TT_PEER_CLASS_GLOBAL : Z := 0.
Definition TT_PEER_CLASS_FAKE_IP : Z := 1.
Definition TT_PEER_CLASS_PRIVATE : Z := 2.

Definition classify_v4 (ip : Z) : Z :=
  let cls := TT_PEER_CLASS_GLOBAL in
  if Z.land ip 0xFFFE0000 =? 0xC6120000 then
    Z.lor cls (Z.lor TT_PEER_CLASS_FAKE_IP TT_PEER_CLASS_PRIVATE)
  else if Z.land ip 0xFF000000 =? 0x1C000000 then Z.lor cls TT_PEER_CLASS_FAKE_IP
  else if (Z.land ip 0xFF000000 =? 0x00000000)
       || (Z.land ip 0xFF000000 =? 0x0A000000)
       || (Z.land ip 0xFFC00000 =? 0x64400000)
       || (Z.land ip 0xFF000000 =? 0x7F000000)
       || (Z.land ip 0xFFFF0000 =? 0xA9FE0000)
       || (Z.land ip 0xFFF00000 =? 0xAC100000)
       || (Z.land ip 0xFFFFFF00 =? 0xC0000000)
       || (Z.land ip 0xFFFFFF00 =? 0xC0000200)
       || (Z.land ip 0xFFFF0000 =? 0xC0A80000)
       || (Z.land ip 0xFFFFFF00 =? 0xC6336400)
       || (Z.land ip 0xFFFFFF00 =? 0xCB007100)
       || (Z.land ip 0xF0000000 =? 0xE0000000)
       || (Z.land ip 0xF0000000 =? 0xF0000000)
  then Z.lor cls TT_PEER_CLASS_PRIVATE
  else cls.

(** A socket address: the address bytes are in network order. *)
Inductive sockaddr :=
| SockIn (sin_addr : bytes)
| SockIn6 (sin6_addr : bytes)
| SockOther (sa_family : Z).

Definition sizeof_sockaddr_in : Z := 16.
Definition sizeof_sockaddr_in6 : Z := 28.

Definition kV4MappedPrefix : bytes := [0; 0; 0; 0; 0; 0; 0; 0; 0; 0; 0xFF; 0xFF].

Definition classify_v6 (a : bytes) : Z :=
  if bytes_eqb (ztake 12 a) kV4MappedPrefix then
    classify_v4 (Z.lor (Z.lor (Z.lor (Z.shiftl (zat a 12) 24) (Z.shiftl (zat a 13) 16))
                              (Z.shiftl (zat a 14) 8)) (zat a 15))
  else
    let cls := TT_PEER_CLASS_GLOBAL in
    if Z.land (zat a 0) 0xFE =? 0xFC then Z.lor cls TT_PEER_CLASS_PRIVATE
    else if (zat a 0 =? 0xFE) && (Z.land (zat a 1) 0xC0 =? 0x80)
    then Z.lor cls TT_PEER_CLASS_PRIVATE
    else if zat a 0 =? 0xFF then Z.lor cls TT_PEER_CLASS_PRIVATE
    else if (zat a 0 =? 0x20) && (zat a 1 =? 0x01) && (zat a 2 =? 0x0D) && (zat a 3 =? 0xB8)
    then Z.lor cls TT_PEER_CLASS_PRIVATE
    else
      let allZeroHigh := forallb (fun b => b =? 0) (ztake 15 a) in
      if allZeroHigh && ((zat a 15 =? 0) || (zat a 15 =? 1))
      then Z.lor cls TT_PEER_CLASS_PRIVATE
      else cls.

(** [tt_peer_address_class(dst, dst_len)]; a null [dst] is [None]. [ntohl] of the
    four address bytes is their big-endian value. *)
Definition tt_peer_address_class (dst : option sockaddr) (dst_len : Z) : Z :=
  match dst with
  | None => TT_PEER_CLASS_GLOBAL
  | Some (SockIn a) =>
      if dst_len <? sizeof_sockaddr_in then TT_PEER_CLASS_GLOBAL
      else classify_v4 (be_val a)
  | Some (SockIn6 a) =>
      if dst_len <? sizeof_sockaddr_in6 then TT_PEER_CLASS_GLOBAL
      else classify_v6 a
  | Some (SockOther _) => TT_PEER_CLASS_GLOBAL
  end.

(** ** Dropping a pin *)

Definition TT_ROUTE_IFINDEX_UNKNOWN : Z := 0.
Definition TT_ROUTE_IFINDEX_NO_ROUTE : Z := 0xFFFFFFFF.

Inductive TTPinVerdict := TT_PIN_VERDICT_KEEP | TT_PIN_VERDICT_UNPIN.

Inductive TTPinRecheckReason :=
| TT_PIN_REASON_OK
| TT_PIN_REASON_SCOPED_MISMATCH
| TT_PIN_REASON_SCOPED_NO_ROUTE
| TT_PIN_REASON_BLACKHOLE_RISK
| TT_PIN_REASON_GLOBAL_MISMATCH.

#[global] Instance TTPinVerdict_eq_dec : EqDecision TTPinVerdict.
Proof. solve_decision. Defined.
#[global] Instance TTPinRecheckReason_eq_dec : EqDecision TTPinRecheckReason.
Proof. solve_decision. Defined.

Definition tt_vpn_pin_reason_to_string (r : option TTPinRecheckReason) : bytes :=
  match r with
  | Some TT_PIN_REASON_OK => str "ok"
  | Some TT_PIN_REASON_SCOPED_MISMATCH => str "scoped-mismatch"
  | Some TT_PIN_REASON_SCOPED_NO_ROUTE => str "scoped-no-route"
  | Some TT_PIN_REASON_BLACKHOLE_RISK => str "blackhole-risk"
  | Some TT_PIN_REASON_GLOBAL_MISMATCH => str "global-mismatch"
  | None => str "invalid"
  end.

(** [tt_vpn_pin_recheck]: the verdict and [*outReason]. *)
Definition tt_vpn_pin_recheck (policy : TTVpnPolicy)
    (boundIfIndex scopedIfIndex globalIfIndex peerClass : Z)
    : TTPinVerdict * TTPinRecheckReason :=
  if boundIfIndex =? 0 then (TT_PIN_VERDICT_KEEP, TT_PIN_REASON_OK)
  else match policy with
  | TT_VPN_POLICY_FORCE_PHYSICAL => (TT_PIN_VERDICT_KEEP, TT_PIN_REASON_OK)
  | TT_VPN_POLICY_PREFER_PHYSICAL =>
      if scopedIfIndex =? TT_ROUTE_IFINDEX_NO_ROUTE then
        (TT_PIN_VERDICT_UNPIN, TT_PIN_REASON_SCOPED_NO_ROUTE)
      else if negb (scopedIfIndex =? TT_ROUTE_IFINDEX_UNKNOWN)
              && negb (scopedIfIndex =? boundIfIndex) then
        (TT_PIN_VERDICT_UNPIN, TT_PIN_REASON_SCOPED_MISMATCH)
      else if negb (peerClass =? TT_PEER_CLASS_GLOBAL)
              && ((globalIfIndex =? TT_ROUTE_IFINDEX_UNKNOWN)
                  || negb (globalIfIndex =? boundIfIndex)) then
        (TT_PIN_VERDICT_UNPIN, TT_PIN_REASON_BLACKHOLE_RISK)
      else (TT_PIN_VERDICT_KEEP, TT_PIN_REASON_OK)
  | _ =>
      if negb (globalIfIndex =? TT_ROUTE_IFINDEX_UNKNOWN)
         && negb (globalIfIndex =? boundIfIndex) then
        (TT_PIN_VERDICT_UNPIN, TT_PIN_REASON_GLOBAL_MISMATCH)
      else if (globalIfIndex =? TT_ROUTE_IFINDEX_UNKNOWN)
              && negb (peerClass =? TT_PEER_CLASS_GLOBAL) then
        (TT_PIN_VERDICT_UNPIN, TT_PIN_REASON_BLACKHOLE_RISK)
      else (TT_PIN_VERDICT_KEEP, TT_PIN_REASON_OK)
  end.

(** ** Reference definitions for the address classes

    An address block in CIDR form: its base address and prefix length. *)

Definition in_block (width : Z) (blk : Z * Z) (ip : Z) : bool :=
  (fst blk <=? ip) && (ip <? fst blk + 2 ^ (width - snd blk)).

(** Dotted-quad and colon notation for the tables below. *)
Definition v4 (a b c d : Z) : Z := be_val [a; b; c; d].

(** IPv4 blocks that are not reachable over the public Internet. *)
Definition v4_private_blocks : list (Z * Z) :=
  [(v4 0 0 0 0, 8); (v4 10 0 0 0, 8); (v4 100 64 0 0, 10); (v4 127 0 0 0, 8);
   (v4 169 254 0 0, 16); (v4 172 16 0 0, 12); (v4 192 0 0 0, 24); (v4 192 0 2 0, 24);
   (v4 192 168 0 0, 16); (v4 198 51 100 0, 24); (v4 203 0 113 0, 24);
   (v4 224 0 0 0, 4); (v4 240 0 0 0, 4)].

(** Blocks from which proxies hand out fake addresses. *)
Definition v4_fake_private_block : Z * Z := (v4 198 18 0 0, 15).
Definition v4_fake_block : Z * Z := (v4 28 0 0 0, 8).

Definition classify_v4_ref (ip : Z) : Z :=
  if in_block 32 v4_fake_private_block ip then 3
  else if in_block 32 v4_fake_block ip then 1
  else if existsb (fun b => in_block 32 b ip) v4_private_blocks then 2
  else 0.

(** IPv6 blocks: unique local, link local, multicast, documentation, and the
    unspecified and loopback addresses. *)
Definition v6_private_blocks : list (Z * Z) :=
  [(0xFC * 2 ^ 120, 7); (0xFE80 * 2 ^ 112, 10); (0xFF * 2 ^ 120, 8);
   (0x20010DB8 * 2 ^ 96, 32); (0, 127)].

Definition v6_mapped_block : Z * Z := (0xFFFF * 2 ^ 32, 96).

Definition classify_v6_ref (ip : Z) : Z :=
  if in_block 128 v6_mapped_block ip then classify_v4_ref (ip mod 2 ^ 32)
  else if existsb (fun b => in_block 128 b ip) v6_private_blocks then 2
  else 0.

(** ** Address lemmas *)

(** Testing the masked address against a block's base is membership in the block. *)
Lemma mask_in_block ip k mask base :
  in_word 32 ip -> 0 <= k <= 32 -> mask = 2 ^ 32 - 2 ^ k ->
  (Z.land ip mask =? base * 2 ^ k) = in_block 32 (base * 2 ^ k, 32 - k) ip.
Proof.
  intros Hip Hk ->.
  assert (0 < 2 ^ k) by (apply Z.pow_pos_nonneg; lia).
  assert (Hm : Z.land ip (2 ^ 32 - 2 ^ k) = ip / 2 ^ k * 2 ^ k).
  { rewrite <- Z.shiftr_div_pow2, <- Z.shiftl_mul_pow2 by lia.
    replace (2 ^ 32 - 2 ^ k) with (Z.shiftl (Z.ones (32 - k)) k).
    2: { rewrite Z.shiftl_mul_pow2, Z.ones_equiv by lia.
         replace 32 with (32 - k + k) at 2 by lia. rewrite Z.pow_add_r by lia. lia. }
    apply Z.bits_inj'. intros n Hn. rewrite Z.land_spec.
    destruct (Z.ltb_spec n k).
    - rewrite !Z.shiftl_spec_low by lia. by rewrite andb_false_r.
    - rewrite !Z.shiftl_spec, Z.shiftr_spec by lia. replace (n - k + k) with n by lia.
      destruct (Z.ltb_spec n 32).
      + rewrite Z.ones_spec_low by lia. by rewrite andb_true_r.
      + rewrite <- (Z.mod_small ip (2 ^ 32)) by done.
        rewrite Z.mod_pow2_bits_high by lia. done. }
  rewrite Hm. unfold in_block. cbn [fst snd]. replace (32 - (32 - k)) with k by lia.
  apply Bool.eq_iff_eq_true. rewrite andb_true_iff, Z.eqb_eq, Z.leb_le, Z.ltb_lt.
  split; [intros Heq; nia|]. intros [? ?].
  assert (ip / 2 ^ k = base) as -> by (symmetry; apply (Z.div_unique_pos _ _ _ (ip - base * 2 ^ k)); lia).
  done.
Qed.

(** Each masked comparison of the source as membership in a block. *)
Ltac block_test Hip ip m b k :=
  replace (Z.land ip m =? b) with (in_block 32 (b, 32 - k) ip)
    by (symmetry; exact (mask_in_block ip k m (b / 2 ^ k) Hip
          ltac:(split; discriminate) eq_refl)).

Lemma classify_v4_ref_eq ip : in_word 32 ip -> classify_v4 ip = classify_v4_ref ip.
Proof.
  intros Hip. unfold classify_v4, classify_v4_ref.
  block_test Hip ip 0xFFFE0000 0xC6120000 17. block_test Hip ip 0xFF000000 0x1C000000 24.
  block_test Hip ip 0xFF000000 0x00000000 24. block_test Hip ip 0xFF000000 0x0A000000 24.
  block_test Hip ip 0xFFC00000 0x64400000 22. block_test Hip ip 0xFF000000 0x7F000000 24.
  block_test Hip ip 0xFFFF0000 0xA9FE0000 16. block_test Hip ip 0xFFF00000 0xAC100000 20.
  block_test Hip ip 0xFFFFFF00 0xC0000000 8. block_test Hip ip 0xFFFFFF00 0xC0000200 8.
  block_test Hip ip 0xFFFF0000 0xC0A80000 16. block_test Hip ip 0xFFFFFF00 0xC6336400 8.
  block_test Hip ip 0xFFFFFF00 0xCB007100 8. block_test Hip ip 0xF0000000 0xE0000000 28.
  block_test Hip ip 0xF0000000 0xF0000000 28.
  unfold v4_private_blocks. cbn [existsb]. rewrite orb_false_r, <- !orb_assoc.
  reflexivity.
Qed.

Lemma unique_local_byte b :
  is_byte b -> (Z.land b 0xFE =? 0xFC) = (0xFC <=? b) && (b <? 0xFE).
Proof.
  apply (byte_forall (fun b => Z.land b 0xFE =? 0xFC) (fun b => (0xFC <=? b) && (b <? 0xFE))).
  vm_compute. reflexivity.
Qed.

Lemma link_local_byte b :
  is_byte b -> (Z.land b 0xC0 =? 0x80) = (0x80 <=? b) && (b <? 0xC0).
Proof.
  apply (byte_forall (fun b => Z.land b 0xC0 =? 0x80) (fun b => (0x80 <=? b) && (b <? 0xC0))).
  vm_compute. reflexivity.
Qed.

(** An IPv6 address as sixteen bytes. *)
Lemma sixteen_bytes (a : bytes) :
  zlen a = 16 -> exists x0 x1 x2 x3 x4 x5 x6 x7 x8 x9 xa xb xc xd xe xf,
    a = [x0; x1; x2; x3; x4; x5; x6; x7; x8; x9; xa; xb; xc; xd; xe; xf].
Proof.
  unfold zlen. intros Hl.
  do 16 (destruct a as [|? a]; [cbn in Hl; lia|]).
  destruct a; [by repeat eexists|cbn in Hl; lia].
Qed.

(** The bounds of the bytes of an address, as [lia] wants them. *)
Ltac byte_bounds H :=
  unfold bytes_ok in H;
  repeat match type of H with
  | Forall _ (_ :: _) => let Hx := fresh "Hb" in apply Forall_cons_1 in H as [Hx H];
      unfold in_word in Hx; change (2 ^ 8) with 256 in Hx
  end; clear H.

(** A boolean test on bytes as a comparison of numbers. *)
Ltac block_bool :=
  unfold in_block; cbn [fst snd]; apply Bool.eq_iff_eq_true;
  rewrite ?andb_true_iff, ?orb_true_iff, ?Z.eqb_eq, ?Z.leb_le, ?Z.ltb_lt; cbn in *; lia.

Section V6.
Context (x0 x1 x2 x3 x4 x5 x6 x7 x8 x9 xa xb xc xd xe xf : Z).
Let a := [x0; x1; x2; x3; x4; x5; x6; x7; x8; x9; xa; xb; xc; xd; xe; xf].
Hypothesis Ha : bytes_ok a.

Lemma v6_value : be_val a =
  x0 * 2 ^ 120 + x1 * 2 ^ 112 + x2 * 2 ^ 104 + x3 * 2 ^ 96 + x4 * 2 ^ 88 + x5 * 2 ^ 80
  + x6 * 2 ^ 72 + x7 * 2 ^ 64 + x8 * 2 ^ 56 + x9 * 2 ^ 48 + xa * 2 ^ 40 + xb * 2 ^ 32
  + be_val [xc; xd; xe; xf].
Proof. unfold be_val, a. cbn [be_val_from]. cbn. lia. Qed.

Lemma v6_low_bound : 0 <= be_val [xc; xd; xe; xf] < 2 ^ 32.
Proof.
  unfold a in Ha. byte_bounds Ha. unfold be_val. cbn [be_val_from]. cbn. lia.
Qed.

Lemma v6_mapped_test :
  bytes_eqb (ztake 12 a) kV4MappedPrefix = in_block 128 v6_mapped_block (be_val a).
Proof.
  pose proof v6_low_bound as Hl. rewrite v6_value. unfold a in *. byte_bounds Ha.
  unfold bytes_eqb, in_block, v6_mapped_block. apply Bool.eq_iff_eq_true.
  rewrite bool_decide_eq_true, andb_true_iff, Z.leb_le, Z.ltb_lt. cbn in *. split.
  - intros [= -> -> -> -> -> -> -> -> -> -> -> ->]. lia.
  - intros ?. change ([x0; x1; x2; x3; x4; x5; x6; x7; x8; x9; xa; xb] = kV4MappedPrefix).
    unfold kV4MappedPrefix. repeat f_equal; lia.
Qed.

Lemma v6_low_mod : be_val a mod 2 ^ 32 = be_val [xc; xd; xe; xf].
Proof.
  pose proof v6_low_bound as Hl. rewrite v6_value.
  generalize dependent (be_val [xc; xd; xe; xf]). intros n Hn. cbn in *. lia.
Qed.

Lemma v6_private_test :
  existsb (fun b => in_block 128 b (be_val a)) v6_private_blocks =
  (Z.land x0 0xFE =? 0xFC) || ((x0 =? 0xFE) && (Z.land x1 0xC0 =? 0x80)) || (x0 =? 0xFF)
  || ((x0 =? 0x20) && (x1 =? 0x01) && (x2 =? 0x0D) && (x3 =? 0xB8))
  || (forallb (fun b => b =? 0) (ztake 15 a) && ((xf =? 0) || (xf =? 1))).
Proof.
  assert (Hx0 : is_byte x0 /\ is_byte x1)
    by (unfold a in Ha; apply Forall_cons_1 in Ha as [? [? _]%Forall_cons_1]; done).
  rewrite unique_local_byte, link_local_byte by apply Hx0.
  rewrite v6_value. unfold be_val. cbn [be_val_from]. unfold a in *. byte_bounds Ha.
  unfold v6_private_blocks. cbn [existsb]. rewrite orb_false_r, <- !orb_assoc.
  f_equal; [block_bool|]. f_equal; [block_bool|]. f_equal; [block_bool|].
  f_equal; [block_bool|]. change (ztake 15 _) with [x0; x1; x2; x3; x4; x5; x6; x7; x8; x9; xa; xb; xc; xd; xe].
  cbn [forallb]. block_bool.
Qed.

Lemma classify_v6_ref_eq16 : classify_v6 a = classify_v6_ref (be_val a).
Proof.
  unfold classify_v6, classify_v6_ref. rewrite v6_mapped_test, v6_private_test, v6_low_mod.
  destruct (in_block 128 v6_mapped_block (be_val a)).
  - pose proof v6_low_bound as Hl. rewrite <- classify_v4_ref_eq by exact Hl.
    f_equal. change (zat a 12) with xc. change (zat a 13) with xd.
    change (zat a 14) with xe. change (zat a 15) with xf.
    unfold a in *. byte_bounds Ha. rewrite lor4_be by (unfold in_word; lia). done.
  - change (zat a 0) with x0. change (zat a 1) with x1. change (zat a 2) with x2.
    change (zat a 3) with x3. change (zat a 15) with xf.
    repeat (match goal with |- context [if ?b then _ else _] => destruct b end; cbn [orb]);
      reflexivity.
Qed.
End V6.

(** ** Properties *)

(** The classification of IPv4 peers is the CIDR table it encodes: the chain of
    masks and constants decides exactly membership in the listed blocks, fake-IP
    blocks first, for every 32-bit address. *)
Theorem peer_class_v4_is_cidr_table (a : bytes) (len : Z) :
  bytes_ok a -> zlen a = 4 -> sizeof_sockaddr_in <= len ->
  tt_peer_address_class (Some (SockIn a)) len = classify_v4_ref (be_val a).
Proof.
  intros Ha Hl Hlen. unfold tt_peer_address_class. rewrite (proj2 (Z.ltb_ge _ _)) by done.
  apply classify_v4_ref_eq. pose proof (be_val_bound a Ha) as Hb. by rewrite Hl in Hb.
Qed.

Lemma peer_class_v4_is_cidr_table_witness :
  tt_peer_address_class (Some (SockIn [198; 19; 0; 1])) 16 = classify_v4_ref (be_val [198; 19; 0; 1]).
Proof.
  apply peer_class_v4_is_cidr_table; [|reflexivity|vm_compute; discriminate].
  apply (bool_decide_unpack _). vm_compute. exact I.
Defined.

(** The classification of IPv6 peers is the CIDR table it encodes, and a
    v4-mapped address gets the class of the IPv4 address inside it. *)
Theorem peer_class_v6_is_cidr_table (a : bytes) (len : Z) :
  bytes_ok a -> zlen a = 16 -> sizeof_sockaddr_in6 <= len ->
  tt_peer_address_class (Some (SockIn6 a)) len = classify_v6_ref (be_val a) /\
  (ztake 12 a = kV4MappedPrefix ->
   tt_peer_address_class (Some (SockIn6 a)) len
   = tt_peer_address_class (Some (SockIn (zdrop 12 a))) len).
Proof.
  intros Ha Hl Hlen. unfold tt_peer_address_class.
  rewrite !(proj2 (Z.ltb_ge _ _)) by (unfold sizeof_sockaddr_in, sizeof_sockaddr_in6 in *; lia).
  destruct (sixteen_bytes a Hl) as (?&?&?&?&?&?&?&?&?&?&?&?&?&?&?&?&->).
  rewrite classify_v6_ref_eq16 by done. split; [done|]. intros Hm.
  pose proof (v6_mapped_test _ _ _ _ _ _ _ _ _ _ _ _ _ _ _ _ Ha) as Ht.
  unfold bytes_eqb in Ht. rewrite bool_decide_true in Ht by done.
  unfold classify_v6_ref. rewrite <- Ht, v6_low_mod by done.
  symmetry. apply classify_v4_ref_eq. by eapply v6_low_bound.
Qed.

Lemma peer_class_v6_is_cidr_table_witness :
  let a := kV4MappedPrefix ++ [10; 0; 0; 1] in
  tt_peer_address_class (Some (SockIn6 a)) 28 = classify_v6_ref (be_val a) /\
  (ztake 12 a = kV4MappedPrefix ->
   tt_peer_address_class (Some (SockIn6 a)) 28
   = tt_peer_address_class (Some (SockIn (zdrop 12 a))) 28).
Proof.
  apply peer_class_v6_is_cidr_table; [|reflexivity|vm_compute; discriminate].
  apply (bool_decide_unpack _). vm_compute. exact I.
Defined.

(** What makes a bound socket lose its pin. *)
Definition must_unpin (policy : TTVpnPolicy) (bound scoped global peer : Z) : Prop :=
  match policy with
  | TT_VPN_POLICY_FORCE_PHYSICAL => False
  | TT_VPN_POLICY_PREFER_PHYSICAL =>
      (scoped <> TT_ROUTE_IFINDEX_UNKNOWN /\ scoped <> bound)
      \/ scoped = TT_ROUTE_IFINDEX_NO_ROUTE
      \/ (peer <> TT_PEER_CLASS_GLOBAL /\ global <> bound)
  | _ =>
      global <> bound
      /\ (global = TT_ROUTE_IFINDEX_UNKNOWN -> peer <> TT_PEER_CLASS_GLOBAL)
  end.

(** The pin re-check unpins exactly when it must: an unbound socket and a
    force-physical socket keep their state whatever the routes say; a
    prefer-physical one is unpinned exactly when its scoped route is elsewhere or
    gone, or a special peer is not globally routed through the bound interface;
    under the other policies exactly when the global route is known to be
    elsewhere, or unknown for a special peer. The reason reported is [OK] exactly
    when the pin is kept. *)
Theorem pin_recheck_exact (policy : TTVpnPolicy) (bound scoped global peer : Z) :
  let '(verdict, reason) := tt_vpn_pin_recheck policy bound scoped global peer in
  (verdict = TT_PIN_VERDICT_UNPIN <-> bound <> 0 /\ must_unpin policy bound scoped global peer) /\
  (verdict = TT_PIN_VERDICT_KEEP <-> reason = TT_PIN_REASON_OK).
Proof.
  unfold tt_vpn_pin_recheck, must_unpin, TT_ROUTE_IFINDEX_UNKNOWN,
    TT_ROUTE_IFINDEX_NO_ROUTE, TT_PEER_CLASS_GLOBAL.
  destruct policy; repeat (zcase; cbn [negb andb orb]);
    (split; split; try done; try (intros [? ?]); try lia; intros; try (split; [lia|]); intuition lia).
Qed.

(** The precedence of the two ways to configure the policy: a policy given
    explicitly wins, then the legacy bypass flag, then the platform default; the
    conflict flag is raised exactly when both are given; and the policy's text
    form round-trips, while any other text is "unset". *)
Theorem vpn_policy_resolution (p : TTVpnPolicy) (has bypass : bool) (dflt : TTVpnPolicy) :
  tt_vpn_policy_resolve (Some p) has bypass dflt
    = (Some (if decide (p = TT_VPN_POLICY_UNSET)
             then if has then (if bypass then TT_VPN_POLICY_PREFER_PHYSICAL else TT_VPN_POLICY_OS)
                  else dflt
             else p),
       negb (bool_decide (p = TT_VPN_POLICY_UNSET)) && has) /\
  tt_vpn_policy_from_string (Some (tt_vpn_policy_to_string (Some p))) = p /\
  (forall s, tt_vpn_policy_from_string (Some s) = p -> p <> TT_VPN_POLICY_UNSET ->
     c_str s = tt_vpn_policy_to_string (Some p)).
Proof.
  split; [by destruct p, has, bypass|]. split; [by destruct p|].
  intros s. unfold tt_vpn_policy_from_string, bytes_eqb.
  repeat case_bool_decide; intros <-; done.
Qed.
