(* ===== verification/SocketPinner.v ===== *)
(** * SocketPinner: binding a socket to an interface ([src/cpp/SocketPinner.cpp])

    [tt_socket_pin] and [tt_socket_unpin] for the five build targets. The
    operating system is a parameter: each call is an [errno], with 0 for
    success. A run returns its result, the two output arguments and the list of
    calls it made, each with its outcome. *)

From stdpp Require Import base list numbers option.
From Stdlib Require Import ZArith Lia.
From S2P Require Import Prelude VpnPolicy.

Inductive platform := OS_ANDROID | OS_APPLE | OS_LINUX | OS_WINDOWS | OS_OTHER.

#[global] Instance platform_eq_dec : EqDecision platform.
Proof. solve_decision. Defined.

Inductive TTPinResult :=
| TT_PIN_OK | TT_PIN_NOT_NEEDED | TT_PIN_UNSUPPORTED | TT_PIN_FAILED.

#[global] Instance TTPinResult_eq_dec : EqDecision TTPinResult.
Proof. solve_decision. Defined.

Record TTPinRequest := {
  req_fd : Z;
  req_ifIndex : Z;
  req_androidNetHandle : Z;
  req_ipv6 : bool;
  req_isTcp : bool;
  req_policy : TTVpnPolicy
}.

(** The socket options the code sets and the values it passes. *)
Inductive sock_opt :=
| SO_BINDTODEVICE | IP_BOUND_IF | IPV6_BOUND_IF | IP_UNICAST_IF | IPV6_UNICAST_IF.

#[global] Instance sock_opt_eq_dec : EqDecision sock_opt.
Proof. solve_decision. Defined.

Inductive opt_value := OptIndex (i : Z) | OptName (name : bytes).

Inductive os_call :=
| SetSockOpt (fd : Z) (opt : sock_opt) (v : opt_value)
| SetSockNetwork (handle fd : Z).

Record pin_out := {
  po_result : TTPinResult;
  po_method : bytes;
  po_errno : Z;
  po_calls : list (os_call * Z)
}.

Definition EBADF : Z := 9.

(** [_set_method]: [snprintf(outMethod, len, "%s", name)]. *)
Definition set_method (len : Z) (name : bytes) : bytes :=
  if len =? 0 then [] else ztake (len - 1) name.

(** [htonl] on the little-endian targets: the bytes reversed. *)
Definition htonl (x : Z) : Z := be_val (rev (be_bytes 4 x)).

Section Pinner.
(** The kernel's answers. *)
Context (os : os_call -> Z).
Context (if_indextoname : Z -> option bytes).
(** Android: the API level and whether [dlsym] finds [android_setsocknetwork]. *)
Context (api_level : Z) (have_setsocknetwork : bool).

Definition no_effect (r : TTPinResult) (err : Z) : pin_out :=
  {| po_result := r; po_method := []; po_errno := err; po_calls := [] |}.

(** The v4 option, then the v6 one for an IPv6 socket; the calls with their
    outcomes, and the two errnos (0 when not attempted). *)
Definition set_pair (fd : Z) (ipv6 : bool) (o4 o6 : sock_opt) (v4 v6 : opt_value)
    : list (os_call * Z) * Z * Z :=
  let c4 := SetSockOpt fd o4 v4 in
  let c6 := SetSockOpt fd o6 v6 in
  if ipv6 then ([(c4, os c4); (c6, os c6)], os c4, os c6) else ([(c4, os c4)], os c4, 0).

(** The decision shared by the pin branches: success of either family. *)
Definition pair_out (len : Z) (ipv6 : bool) (name : bytes)
    (r : list (os_call * Z) * Z * Z) (pre : list (os_call * Z)) : pin_out :=
  let '(calls, err4, err6) := r in
  if (err4 =? 0) || (ipv6 && (err6 =? 0)) then
    {| po_result := TT_PIN_OK; po_method := set_method len name; po_errno := 0;
       po_calls := pre ++ calls |}
  else
    {| po_result := TT_PIN_FAILED; po_method := [];
       po_errno := if negb (err4 =? 0) then err4 else err6;
       po_calls := pre ++ calls |}.

Definition pin_android (req : TTPinRequest) (len : Z) : pin_out :=
  if 23 <=? api_level then
    if have_setsocknetwork then
      let c := SetSockNetwork (req_androidNetHandle req) (req_fd req) in
      if os c =? 0 then
        {| po_result := TT_PIN_OK; po_method := set_method len (str "android_setsocknetwork");
           po_errno := 0; po_calls := [(c, os c)] |}
      else
        {| po_result := TT_PIN_FAILED; po_method := []; po_errno := os c;
           po_calls := [(c, os c)] |}
    else no_effect TT_PIN_UNSUPPORTED 0
  else no_effect TT_PIN_UNSUPPORTED 0.

Definition pin_apple (req : TTPinRequest) (len : Z) : pin_out :=
  let i := OptIndex (req_ifIndex req) in
  pair_out len (req_ipv6 req) (str "IP_BOUND_IF")
    (set_pair (req_fd req) (req_ipv6 req) IP_BOUND_IF IPV6_BOUND_IF i i) [].

Definition pin_linux (req : TTPinRequest) (len : Z) : pin_out :=
  let fd := req_fd req in
  (* the hard bind force-physical tries first *)
  let '(bound_to_device, pre) :=
    if decide (req_policy req = TT_VPN_POLICY_FORCE_PHYSICAL) then
      match if_indextoname (req_ifIndex req) with
      | Some ifname =>
          let c := SetSockOpt fd SO_BINDTODEVICE (OptName ifname) in
          (os c =? 0, [(c, os c)])
      | None => (false, [])
      end
    else (false, []) in
  if bound_to_device then
    {| po_result := TT_PIN_OK; po_method := set_method len (str "SO_BINDTODEVICE");
       po_errno := 0; po_calls := pre |}
  else
    let i := OptIndex (req_ifIndex req) in
    pair_out len (req_ipv6 req) (str "IP_UNICAST_IF")
      (set_pair fd (req_ipv6 req) IP_UNICAST_IF IPV6_UNICAST_IF i i) pre.

Definition pin_windows (req : TTPinRequest) (len : Z) : pin_out :=
  pair_out len (req_ipv6 req) (str "IP_UNICAST_IF")
    (set_pair (req_fd req) (req_ipv6 req) IP_UNICAST_IF IPV6_UNICAST_IF
       (OptIndex (htonl (req_ifIndex req))) (OptIndex (req_ifIndex req))) [].

(** What identifies the interface: a network handle on Android, an index elsewhere. *)
Definition bind_target (pf : platform) (req : TTPinRequest) : Z :=
  match pf with OS_ANDROID => req_androidNetHandle req | _ => req_ifIndex req end.

(** [tt_socket_pin]; a null request is [None]. *)
Definition tt_socket_pin (pf : platform) (req : option TTPinRequest) (len : Z) : pin_out :=
  match req with
  | None => no_effect TT_PIN_FAILED 0
  | Some req =>
      if bind_target pf req =? 0 then no_effect TT_PIN_NOT_NEEDED 0
      else if req_fd req <? 0 then no_effect TT_PIN_FAILED EBADF
      else match pf with
           | OS_ANDROID => pin_android req len
           | OS_APPLE => pin_apple req len
           | OS_LINUX => pin_linux req len
           | OS_WINDOWS => pin_windows req len
           | OS_OTHER => no_effect TT_PIN_UNSUPPORTED 0
           end
  end.

(** The option a target clears, v4 and v6. *)
Definition unpin_opts (pf : platform) : option (sock_opt * sock_opt * bytes) :=
  match pf with
  | OS_APPLE => Some (IP_BOUND_IF, IPV6_BOUND_IF, str "IP_BOUND_IF")
  | OS_WINDOWS | OS_LINUX => Some (IP_UNICAST_IF, IPV6_UNICAST_IF, str "IP_UNICAST_IF")
  | OS_ANDROID | OS_OTHER => None
  end.

(** [tt_socket_unpin]. *)
Definition tt_socket_unpin (pf : platform) (fd : Z) (ipv6 : bool) (len : Z) : pin_out :=
  if fd <? 0 then no_effect TT_PIN_FAILED 0
  else match unpin_opts pf with
  | None => no_effect TT_PIN_UNSUPPORTED 0
  | Some (o4, o6, name) =>
      let '(calls, err4, err6) := set_pair fd ipv6 o4 o6 (OptIndex 0) (OptIndex 0) in
      {| po_result := if (err4 =? 0) || (ipv6 && (err6 =? 0)) then TT_PIN_OK else TT_PIN_FAILED;
         po_method := set_method len name;
         po_errno := if negb (err4 =? 0) then err4 else err6;
         po_calls := calls |}
  end.
End Pinner.

(** ** The kernel's view of a socket

    What the successful calls of a run leave bound: the abstract state the pin
    and unpin operations are about. *)

Record bindings := { b_device : option bytes; b_v4 : Z; b_v6 : Z }.

Definition unbound : bindings := {| b_device := None; b_v4 := 0; b_v6 := 0 |}.

Definition apply_call (b : bindings) (c : os_call * Z) : bindings :=
  if snd c =? 0 then
    match fst c with
    | SetSockOpt _ SO_BINDTODEVICE (OptName n) =>
        {| b_device := Some n; b_v4 := b_v4 b; b_v6 := b_v6 b |}
    | SetSockOpt _ (IP_BOUND_IF | IP_UNICAST_IF) (OptIndex i) =>
        {| b_device := b_device b; b_v4 := i; b_v6 := b_v6 b |}
    | SetSockOpt _ (IPV6_BOUND_IF | IPV6_UNICAST_IF) (OptIndex i) =>
        {| b_device := b_device b; b_v4 := b_v4 b; b_v6 := i |}
    | _ => b
    end
  else b.

Definition bound_after (b : bindings) (calls : list (os_call * Z)) : bindings :=
  fold_left apply_call calls b.

Definition some_call_succeeded (calls : list (os_call * Z)) : bool :=
  existsb (fun c => snd c =? 0) calls.

(** ** Lemmas *)

(** Case analysis on every kernel answer the goal branches on. *)
Ltac os_cases :=
  repeat (match goal with
          | |- context [?os ?c =? 0] => destruct (Z.eqb_spec (os c) 0)
          end; cbn).

Ltac pin_crush :=
  cbn; repeat case_decide; try case_match; cbn; os_cases;
  repeat split; intros; try done; try congruence; auto.

(** The families a pin or unpin tries, as one case analysis: used by every
    index-based target. *)
Lemma pair_out_cases os len ipv6 name fd o4 o6 v4 v6 pre :
  let out := pair_out len ipv6 name (set_pair os fd ipv6 o4 o6 v4 v6) pre in
  let ok4 := os (SetSockOpt fd o4 v4) =? 0 in
  let ok6 := ipv6 && (os (SetSockOpt fd o6 v6) =? 0) in
  po_result out = (if ok4 || ok6 then TT_PIN_OK else TT_PIN_FAILED) /\
  po_calls out = pre ++ (SetSockOpt fd o4 v4, os (SetSockOpt fd o4 v4))
                   :: (if ipv6 then [(SetSockOpt fd o6 v6, os (SetSockOpt fd o6 v6))] else []) /\
  (ok4 || ok6 = false -> po_errno out = os (SetSockOpt fd o4 v4) /\ po_errno out <> 0).
Proof.
  unfold pair_out, set_pair. destruct ipv6; cbn; os_cases; repeat split; try done.
Qed.

(** ** Properties *)

(** A pin that is reported is a pin that holds. On the index-based targets
    [tt_socket_pin] answers [OK] exactly when one of its kernel calls succeeded;
    the socket is then bound to the requested interface, by device name or by
    index in at least one family. Any other answer leaves it unbound, and
    [FAILED] for a request comes with a non-zero errno. *)
Theorem pin_ok_iff_bound (os : os_call -> Z) (names : Z -> option bytes) (api : Z)
    (have : bool) (pf : platform) (req : TTPinRequest) (len : Z) :
  pf <> OS_ANDROID ->
  let out := tt_socket_pin os names api have pf (Some req) len in
  let b := bound_after unbound (po_calls out) in
  (po_result out = TT_PIN_OK <-> some_call_succeeded (po_calls out) = true) /\
  (po_result out = TT_PIN_OK ->
     (b_device b = names (req_ifIndex req) /\ b_device b <> None)
     \/ b_v4 b = (if decide (pf = OS_WINDOWS) then htonl (req_ifIndex req) else req_ifIndex req)
     \/ (req_ipv6 req = true /\ b_v6 b = req_ifIndex req)) /\
  (po_result out <> TT_PIN_OK -> b = unbound) /\
  (po_result out = TT_PIN_FAILED -> po_errno out <> 0).
Proof.
  intros Hpf. unfold tt_socket_pin, bound_after, apply_call. destruct req as [fd i h ipv6 tcp pol].
  destruct pf; [done| | | | ]; cbn -[Z.eqb Z.ltb pin_apple pin_linux pin_windows];
    (destruct (Z.eqb_spec i 0); [pin_crush|]); (destruct (Z.ltb_spec fd 0); [pin_crush|]).
  - unfold pin_apple, pair_out, set_pair, some_call_succeeded; cbn. destruct ipv6; pin_crush.
  - unfold pin_linux, pair_out, set_pair, some_call_succeeded; cbn.
    destruct (decide (pol = _)); [destruct (names i) as [ifname|] eqn:En|]; destruct ipv6; pin_crush.
  - unfold pin_windows, pair_out, set_pair, some_call_succeeded; cbn. destruct ipv6; pin_crush.
  - pin_crush.
Qed.

Lemma pin_ok_iff_bound_witness :
  let os := fun c => match c with SetSockOpt _ SO_BINDTODEVICE _ => 1 | _ => 0 end in
  let req := {| req_fd := 3; req_ifIndex := 7; req_androidNetHandle := 0; req_ipv6 := true;
                req_isTcp := true; req_policy := TT_VPN_POLICY_FORCE_PHYSICAL |} in
  let out := tt_socket_pin os (fun _ => Some (str "en0")) 0 false OS_LINUX (Some req) 32 in
  b_v4 (bound_after unbound (po_calls out)) = 7 /\ po_method out = str "IP_UNICAST_IF" /\
  (po_result out = TT_PIN_OK <-> some_call_succeeded (po_calls out) = true).
Proof.
  intros os req out. split; [reflexivity|]. split; [reflexivity|].
  apply (pin_ok_iff_bound os (fun _ => Some (str "en0")) 0 false OS_LINUX req 32).
  discriminate.
Defined.

(** Unpinning undoes what the re-check may undo. When the re-check of
    [tt_vpn_pin_recheck] decides to unpin a socket that [tt_socket_pin] pinned,
    whatever the kernel answered to the pin, [tt_socket_unpin] leaves the socket
    bound to nothing as soon as the kernel accepts clearing the options: the
    device binding that unpin does not clear is only ever made for the one
    policy the re-check never unpins. *)
Theorem unpin_after_recheck_unbinds (os : os_call -> Z) (names : Z -> option bytes)
    (api : Z) (have : bool) (pf : platform) (req : TTPinRequest) (len : Z)
    (bound scoped global peer : Z) :
  pf = OS_APPLE \/ pf = OS_LINUX \/ pf = OS_WINDOWS ->
  0 <= req_fd req ->
  fst (tt_vpn_pin_recheck (req_policy req) bound scoped global peer) = TT_PIN_VERDICT_UNPIN ->
  (forall fd o, os (SetSockOpt fd o (OptIndex 0)) = 0) ->
  let pin := tt_socket_pin os names api have pf (Some req) len in
  let unpin := tt_socket_unpin os pf (req_fd req) (req_ipv6 req) len in
  po_result unpin = TT_PIN_OK /\
  bound_after unbound (po_calls pin ++ po_calls unpin) = unbound.
Proof.
  intros Hpf Hfd Hv Hos. destruct req as [fd i h ipv6 tcp pol]. cbn in Hfd, Hv |- *.
  assert (Hpol : pol <> TT_VPN_POLICY_FORCE_PHYSICAL).
  { intros ->. unfold tt_vpn_pin_recheck in Hv. by destruct (bound =? 0). }
  unfold tt_socket_pin, tt_socket_unpin, set_pair. cbn [req_fd req_ipv6].
  rewrite (proj2 (Z.ltb_ge fd 0)) by done.
  destruct Hpf as [-> | [-> | ->]]; cbn -[Z.eqb Z.ltb pin_apple pin_linux pin_windows];
    destruct (Z.eqb_spec i 0);
    unfold pin_apple, pin_linux, pin_windows, pair_out, set_pair; cbn;
    rewrite ?decide_False by done; destruct ipv6; cbn; unfold bound_after, apply_call; cbn;
    rewrite ?Hos; cbn; os_cases; done.
Qed.

Lemma unpin_after_recheck_unbinds_witness :
  let os := fun _ : os_call => 0 in
  let req := {| req_fd := 3; req_ifIndex := 7; req_androidNetHandle := 0; req_ipv6 := true;
                req_isTcp := false; req_policy := TT_VPN_POLICY_PREFER_PHYSICAL |} in
  let pin := tt_socket_pin os (fun _ => None) 0 false OS_LINUX (Some req) 32 in
  let unpin := tt_socket_unpin os OS_LINUX 3 true 32 in
  po_result unpin = TT_PIN_OK /\
  bound_after unbound (po_calls pin ++ po_calls unpin) = unbound.
Proof.
  apply (unpin_after_recheck_unbinds (fun _ => 0) (fun _ => None) 0 false OS_LINUX
           {| req_fd := 3; req_ifIndex := 7; req_androidNetHandle := 0; req_ipv6 := true;
              req_isTcp := false; req_policy := TT_VPN_POLICY_PREFER_PHYSICAL |} 32 7 9 0 0).
  - right. left. reflexivity.
  - vm_compute. discriminate.
  - reflexivity.
  - reflexivity.
Defined.
