(* ===== verification/DnsMessage.v ===== *)
(** * DnsMessage: building DNS queries and parsing responses
      ([class DnsMessage] of [src/cpp/DnsResolver.cpp])

    Reads of the packet are written in the option monad: [None] is a read
    outside the packet or a loop that did not stop within its fuel, that is,
    behaviour the C++ program does not define. The parser's own failures are
    values ([SkipFail], [None] inside a result, [ParseFail]). *)

From stdpp Require Import base list numbers option.
From Stdlib Require Import ZArith Lia.
From S2P Require Import Prelude Utils VpnPolicy.

(** ** Queries *)

(** The label loop of [BuildQuery]; [host] is the suffix at [start]. Every turn but
    the last drops at least the dot. [None] is the early [return kEmpty]. *)
Fixpoint BuildQuery_labels (fuel : nat) (host qname : bytes) : option bytes :=
  match fuel with
  | O => None
  | S f =>
      let dot := find_char 46 host in
      let labelLen := match dot with Some k => k | None => zlen host end in
      if (labelLen =? 0) || (63 <? labelLen) then None
      else
        let qname := qname ++ u8 labelLen :: ztake labelLen host in
        match dot with
        | None => Some qname
        | Some k => BuildQuery_labels f (zdrop (k + 1) host) qname
        end
  end.

(** The fixed part of the header after the transaction id: RD set, one question. *)
Definition query_header_tail : bytes :=
  [0x01; 0x00; 0x00; 0x01; 0x00; 0x00; 0x00; 0x00; 0x00; 0x00].

(** [BuildQuery(host, qtype, txid)]; the empty vector is the failure value. *)
Definition BuildQuery (host : bytes) (qtype txid : Z) : bytes :=
  if zlen host =? 0 then []
  else match BuildQuery_labels (S (length host)) host [] with
  | None => []
  | Some labels =>
      let qname := labels ++ [0x00] in
      if 255 <? zlen qname then []
      else [u8 (Z.shiftr txid 8); u8 (Z.land txid 0xFF)] ++ query_header_tail ++ qname
           ++ [u8 (Z.shiftr qtype 8); u8 (Z.land qtype 0xFF); 0x00; 0x01]
  end.

(** ** Names *)

(** [_SkipName]: the bytes the name at [pos] occupies, 0 for a malformed name. *)
Fixpoint SkipName_loop (fuel : nat) (data : bytes) (pos consumed : Z) : option Z :=
  match fuel with
  | O => None
  | S f =>
      if zlen data <=? pos then Some 0
      else
        b ← zget data pos;
        if Z.land b 0xC0 =? 0xC0 then
          if zlen data <=? pos + 1 then Some 0
          else
            b1 ← zget data (pos + 1);
            let target := Z.lor (Z.shiftl (Z.land b 0x3F) 8) b1 in
            if zlen data <=? target then Some 0
            else if target =? pos then Some 0
            else Some (consumed + 2)
        else if negb (Z.land b 0xC0 =? 0x00) then Some 0
        else if b =? 0 then Some (consumed + 1)
        else if zlen data <? pos + 1 + b then Some 0
        else SkipName_loop f data (pos + (1 + b)) (consumed + (1 + b))
  end.

Definition SkipName (data : bytes) (offset : Z) : option Z :=
  SkipName_loop (S (length data)) data offset 0.

Definition ReadU16 (data : bytes) (pos : Z) : option Z :=
  b0 ← zget data pos;
  b1 ← zget data (pos + 1);
  Some (u16 (Z.lor (Z.shiftl b0 8) b1)).

Definition ReadU32 (data : bytes) (pos : Z) : option Z :=
  b0 ← zget data pos;
  b1 ← zget data (pos + 1);
  b2 ← zget data (pos + 2);
  b3 ← zget data (pos + 3);
  Some (Z.lor (Z.lor (Z.lor (Z.shiftl b0 24) (Z.shiftl b1 16)) (Z.shiftl b2 8)) b3).

(** [tolower] in the C locale. *)
Definition tolower (c : Z) : Z := if (65 <=? c) && (c <=? 90) then c + 32 else c.

Definition kMaxJumps : Z := 32.

(** The loop of [_DecodeQuestionName]: [Some (Some name)] on success, [Some None]
    when it returns false. *)
Fixpoint DecodeQuestionName_loop (fuel : nat) (data : bytes) (pos jumps : Z)
    (first : bool) (outName : bytes) : option (option bytes) :=
  match fuel with
  | O => None
  | S f =>
      if zlen data <=? pos then Some None
      else
        b ← zget data pos;
        if Z.land b 0xC0 =? 0xC0 then
          if zlen data <=? pos + 1 then Some None
          else
            b1 ← zget data (pos + 1);
            let target := Z.lor (Z.shiftl (Z.land b 0x3F) 8) b1 in
            if zlen data <=? target then Some None
            else
              let jumps := jumps + 1 in
              if kMaxJumps <? jumps then Some None
              else DecodeQuestionName_loop f data target jumps first outName
        else if negb (Z.land b 0xC0 =? 0x00) then Some None
        else if b =? 0 then Some (Some outName)
        else if zlen data <? pos + 1 + b then Some None
        else
          label ← sub_bytes data (pos + 1) b;
          DecodeQuestionName_loop f data (pos + (1 + b)) jumps false
            (outName ++ (if first then [] else [46]) ++ map tolower label)
  end.

(** Between two jumps the position only grows, so a run has at most
    [kMaxJumps + 1] stretches of at most one turn per byte. *)
Definition name_fuel (data : bytes) : nat := Z.to_nat ((kMaxJumps + 2) * (zlen data + 2)).

Definition DecodeQuestionName (data : bytes) (offset : Z) : option (option bytes) :=
  DecodeQuestionName_loop (name_fuel data) data offset 0 true [].

(** [_LowerNoTrailingDot]. *)
Fixpoint strip_dots_rev (r : bytes) : bytes :=
  match r with
  | c :: r' => if c =? 46 then strip_dots_rev r' else r
  | [] => []
  end.

Definition LowerNoTrailingDot (host : bytes) : bytes :=
  map tolower (rev (strip_dots_rev (rev host))).

(** ** Responses *)

(** The messages of the [fail] calls of [ParseResponse]. *)
Inductive dns_error :=
| ErrShort | ErrNotResponse | ErrTxid | ErrRcode (rcode : Z) | ErrNoQuestion
| ErrQuestionDecode | ErrQuestionMismatch (got : bytes) | ErrQuestionName
| ErrQuestionBounds | ErrAnswerName | ErrAnswerHeader | ErrRdata | ErrTruncatedEmpty.

(** What [ParseResponse] leaves in its outputs: the addresses and the TTL, or an
    error with the addresses cleared. *)
Inductive parse_result :=
| Parsed (outAddrs : list sockaddr) (outMinTtl : Z)
| ParseFail (e : dns_error).

(** The question loop; [first] is [i == 0]. The position after the questions, or
    the error. *)
Fixpoint questions (n : nat) (data expectHost : bytes) (first : bool) (pos : Z)
    : option (Z + dns_error) :=
  match n with
  | O => Some (inl pos)
  | S n' =>
      checked ←
        (if first && negb (zlen expectHost =? 0) then
           qname ← DecodeQuestionName data pos;
           match qname with
           | None => Some (Some ErrQuestionDecode)
           | Some qname =>
               if bytes_eqb qname (LowerNoTrailingDot expectHost) then Some None
               else Some (Some (ErrQuestionMismatch qname))
           end
         else Some None);
      match checked with
      | Some e => Some (inr e)
      | None =>
          nameLen ← SkipName data pos;
          if nameLen =? 0 then Some (inr ErrQuestionName)
          else
            let pos := pos + nameLen in
            if zlen data <? pos + 4 then Some (inr ErrQuestionBounds)
            else questions n' data expectHost false (pos + 4)
      end
  end.

Record answer_state := {
  as_pos : Z; as_addrs : list sockaddr; as_minTtl : Z; as_haveTtl : bool
}.

(** Recording one address and its TTL. *)
Definition add_addr (st : answer_state) (a : sockaddr) (ttl : Z) : answer_state :=
  {| as_pos := as_pos st; as_addrs := as_addrs st ++ [a];
     as_minTtl := if negb (as_haveTtl st) || (ttl <? as_minTtl st) then ttl else as_minTtl st;
     as_haveTtl := true |}.

Definition set_pos (st : answer_state) (pos : Z) : answer_state :=
  {| as_pos := pos; as_addrs := as_addrs st; as_minTtl := as_minTtl st;
     as_haveTtl := as_haveTtl st |}.

(** The answer loop; [inl] is its normal end or a [break] on a truncated packet. *)
Fixpoint answers (n : nat) (data : bytes) (truncated : bool) (st : answer_state)
    : option (answer_state + dns_error) :=
  match n with
  | O => Some (inl st)
  | S n' =>
      let stop e := if truncated then Some (inl st) else Some (inr e) in
      nameLen ← SkipName data (as_pos st);
      if nameLen =? 0 then stop ErrAnswerName
      else
        let pos := as_pos st + nameLen in
        if zlen data <? pos + 10 then stop ErrAnswerHeader
        else
          type ← ReadU16 data pos;
          ttl ← ReadU32 data (pos + 4);
          rdlen ← ReadU16 data (pos + 8);
          let pos := pos + 10 in
          if zlen data <? pos + rdlen then stop ErrRdata
          else
            st' ←
              (if (type =? 1) && (rdlen =? 4) then
                 a ← sub_bytes data pos 4; Some (add_addr st (SockIn a) ttl)
               else if (type =? 28) && (rdlen =? 16) then
                 a ← sub_bytes data pos 16; Some (add_addr st (SockIn6 a) ttl)
               else Some st);
            answers n' data truncated (set_pos st' (pos + rdlen))
  end.

(** [ParseResponse(data, len, expectTxid, outAddrs, outMinTtl, outErr, expectHost)];
    a null [data] is [None]. *)
Definition ParseResponse (data : option bytes) (expectTxid : Z) (outAddrs : list sockaddr)
    (outMinTtl : Z) (expectHost : bytes) : option parse_result :=
  match data with
  | None => Some (ParseFail ErrShort)
  | Some data =>
      if zlen data <? 12 then Some (ParseFail ErrShort)
      else
        flags ← zget data 2;
        if Z.land flags 0x80 =? 0 then Some (ParseFail ErrNotResponse)
        else
          gotTxid ← ReadU16 data 0;
          if negb (gotTxid =? expectTxid) then Some (ParseFail ErrTxid)
          else
            flags2 ← zget data 3;
            let rcode := Z.land flags2 0x0F in
            if negb (rcode =? 0) then Some (ParseFail (ErrRcode rcode))
            else
              let truncated := negb (Z.land flags 0x02 =? 0) in
              qdcount ← ReadU16 data 4;
              ancount ← ReadU16 data 6;
              if negb (zlen expectHost =? 0) && (qdcount =? 0)
              then Some (ParseFail ErrNoQuestion)
              else
                q ← questions (Z.to_nat qdcount) data expectHost true 12;
                match q with
                | inr e => Some (ParseFail e)
                | inl pos =>
                    r ← answers (Z.to_nat ancount) data truncated
                          {| as_pos := pos; as_addrs := outAddrs;
                             as_minTtl := outMinTtl; as_haveTtl := false |};
                    match r with
                    | inr e => Some (ParseFail e)
                    | inl st =>
                        if truncated && bool_decide (as_addrs st = [])
                        then Some (ParseFail ErrTruncatedEmpty)
                        else Some (Parsed (as_addrs st) (as_minTtl st))
                    end
                end
  end.

(** ** Memory safety and termination lemmas *)

(** Read a byte that the context shows to be inside the packet. *)
Ltac read_byte d i b Hb :=
  let E := fresh "E" in
  destruct (zget_byte d i) as (b & E & Hb); [done|lia|]; rewrite E; cbn [mbind option_bind];
  unfold in_word in Hb; change (2 ^ 8) with 256 in Hb.

Lemma SkipName_loop_total fuel data pos consumed :
  bytes_ok data -> 0 <= pos -> 0 <= consumed ->
  Z.max 0 (zlen data - pos) < Z.of_nat fuel ->
  exists r, SkipName_loop fuel data pos consumed = Some r /\
    (r = 0 \/ (consumed < r /\ pos + (r - consumed) <= zlen data)).
Proof.
  intros Hd. revert pos consumed. induction fuel as [|f IH]; intros pos consumed Hp Hc Hf; [lia|].
  cbn [SkipName_loop]. zcase; [eauto|]. read_byte data pos b Hb.
  zcase.
  { zcase; [eauto|]. read_byte data (pos + 1) b1 Hb1. zcase; [eauto|]. zcase; [eauto|].
    eexists. split; [done|]. lia. }
  case_match; [eauto|]. zcase; [eexists; split; [done|]; lia|]. zcase; [eauto|].
  destruct (IH (pos + (1 + b)) (consumed + (1 + b))) as (r & Hr & Hor); try lia.
  exists r. split; [done|]. lia.
Qed.

Lemma SkipName_total data pos :
  bytes_ok data -> 0 <= pos ->
  exists r, SkipName data pos = Some r /\ (r = 0 \/ (0 < r /\ pos + r <= zlen data)).
Proof.
  intros Hd Hp. unfold SkipName.
  destruct (SkipName_loop_total (S (length data)) data pos 0) as (r & Hr & Hor); try done.
  - unfold zlen. lia.
  - exists r. split; [done|]. lia.
Qed.

Lemma ReadU16_total data pos :
  bytes_ok data -> 0 <= pos -> pos + 2 <= zlen data ->
  exists v, ReadU16 data pos = Some v /\ in_word 16 v.
Proof.
  intros Hd Hp Hl. unfold ReadU16. read_byte data pos b Hb. read_byte data (pos + 1) b1 Hb1.
  eexists. split; [done|]. by apply wrap_in_word.
Qed.

Lemma ReadU32_total data pos :
  bytes_ok data -> 0 <= pos -> pos + 4 <= zlen data -> is_Some (ReadU32 data pos).
Proof.
  intros Hd Hp Hl. unfold ReadU32. read_byte data pos b0 Hb0. read_byte data (pos + 1) b1 Hb1.
  read_byte data (pos + 2) b2 Hb2. read_byte data (pos + 3) b3 Hb3. eauto.
Qed.

Lemma DecodeQuestionName_loop_total fuel data pos jumps first name :
  bytes_ok data -> 0 <= pos -> 0 <= jumps <= kMaxJumps ->
  (kMaxJumps + 1 - jumps) * (zlen data + 1) + Z.max 0 (zlen data - pos) < Z.of_nat fuel ->
  is_Some (DecodeQuestionName_loop fuel data pos jumps first name).
Proof.
  intros Hd. pose proof (zlen_nonneg data) as Hz. unfold kMaxJumps in *.
  revert pos jumps first name.
  induction fuel as [|f IH]; intros pos jumps first name Hp Hj Hf; [nia|].
  cbn [DecodeQuestionName_loop]. unfold kMaxJumps. zcase; [eauto|]. read_byte data pos b Hb.
  zcase.
  { zcase; [eauto|]. read_byte data (pos + 1) b1 Hb1.
    set (target := Z.lor _ _). zcase; [eauto|]. zcase; [eauto|].
    assert (0 <= target) by (apply Z.lor_nonneg; split;
      [apply Z.shiftl_nonneg, Z.land_nonneg; lia|lia]).
    apply IH; [lia..|nia]. }
  case_match; [eauto|]. zcase; [eauto|]. zcase; [eauto|].
  rewrite sub_bytes_Some by lia. cbn [mbind option_bind]. apply IH; lia.
Qed.

Lemma DecodeQuestionName_total data pos :
  bytes_ok data -> 0 <= pos -> is_Some (DecodeQuestionName data pos).
Proof.
  intros Hd Hp. pose proof (zlen_nonneg data).
  apply DecodeQuestionName_loop_total; unfold name_fuel, kMaxJumps; try lia; done.
Qed.

Lemma questions_total n data host first pos :
  bytes_ok data -> 0 <= pos ->
  exists r, questions n data host first pos = Some r /\
    forall pos', r = inl pos' -> pos <= pos'.
Proof.
  intros Hd. revert first pos. induction n as [|n IH]; intros first pos Hp; cbn [questions].
  - eexists. split; [done|]. by intros ? [= <-].
  - destruct (DecodeQuestionName_total data pos Hd Hp) as [qn Hqn].
    destruct (SkipName_total data pos Hd Hp) as (l & Hl & Hor).
    rewrite Hqn, Hl. cbn [mbind option_bind].
    assert (Hcont : exists r,
      (if l =? 0 then Some (inr ErrQuestionName)
       else if zlen data <? pos + l + 4 then Some (inr ErrQuestionBounds)
       else questions n data host false (pos + l + 4)) = Some r /\
      forall pos', r = inl pos' -> pos <= pos').
    { zcase; [by eexists|]. zcase; [by eexists|].
      destruct (IH false (pos + l + 4)) as (r & Hr & Hle); [lia|].
      exists r. split; [done|]. intros pos' Hr'. specialize (Hle _ Hr'). lia. }
    destruct (first && _); [|exact Hcont]. cbn [mbind option_bind].
    destruct qn as [qn|]; [|by eexists].
    destruct (bytes_eqb _ _); [exact Hcont|by eexists].
Qed.

Lemma answers_total n data tr st :
  bytes_ok data -> 0 <= as_pos st -> is_Some (answers n data tr st).
Proof.
  intros Hd. revert st. induction n as [|n IH]; intros st Hp; cbn [answers]; [eauto|].
  destruct (SkipName_total data (as_pos st) Hd Hp) as (l & -> & Hor). cbn [mbind option_bind].
  zcase; [by destruct tr|]. zcase; [by destruct tr|].
  destruct (ReadU16_total data (as_pos st + l)) as (ty & -> & _); [done|lia..|].
  destruct (ReadU32_total data (as_pos st + l + 4)) as [ttl ->]; [done|lia..|].
  destruct (ReadU16_total data (as_pos st + l + 8)) as (rdlen & -> & Hr); [done|lia..|].
  cbn [mbind option_bind]. unfold in_word in Hr. zcase; [by destruct tr|].
  destruct ((ty =? 1) && (rdlen =? 4)) eqn:E4; zbool.
  { rewrite sub_bytes_Some by lia. cbn. apply IH. cbn. lia. }
  destruct ((ty =? 28) && (rdlen =? 16)) eqn:E6; zbool.
  { rewrite sub_bytes_Some by lia. cbn. apply IH. cbn. lia. }
  cbn. apply IH. cbn. lia.
Qed.

(** ** Authenticity lemmas *)

(** Past the question loop the first question named the expected host. *)
Lemma questions_first_match n data host pos pos' :
  (0 < n)%nat -> host <> [] -> questions n data host true pos = Some (inl pos') ->
  DecodeQuestionName data pos = Some (Some (LowerNoTrailingDot host)).
Proof.
  intros Hn Hh. destruct n as [|n]; [lia|]. cbn [questions].
  assert (Hz : (zlen host =? 0) = false).
  { apply Z.eqb_neq. intros Hz%zlen_0_nil. done. }
  rewrite Hz. cbn [negb andb].
  destruct (DecodeQuestionName data pos) as [[qn|]|]; cbn [mbind option_bind]; [|done..].
  unfold bytes_eqb. case_bool_decide as Heq; [|done]. intros _. by rewrite Heq.
Qed.

(** ** Reference encoding of names

    The labels of a host name, and their wire form. *)

Definition labels_of (host : bytes) : list bytes := SplitString host 46.

Definition label_ok (l : bytes) : bool := (1 <=? zlen l) && (zlen l <=? 63).

Definition wire_labels (ls : list bytes) : bytes := concat (map (fun l => zlen l :: l) ls).

Definition wire_name (host : bytes) : bytes := wire_labels (labels_of host) ++ [0].

(** A host name DNS can carry: every label has 1 to 63 bytes and the encoded name
    at most 255. *)
Definition host_ok (host : bytes) : bool :=
  forallb label_ok (labels_of host) && (zlen (wire_name host) <=? 255).

(** ** Query lemmas *)

Lemma label_len_test k :
  0 <= k -> ((k =? 0) || (63 <? k)) = negb ((1 <=? k) && (k <=? 63)).
Proof.
  intros. apply Bool.eq_iff_eq_true.
  rewrite orb_true_iff, negb_true_iff, andb_false_iff, Z.eqb_eq, Z.ltb_lt, !Z.leb_gt. lia.
Qed.

Lemma BuildQuery_labels_ref fuel host q :
  (length host < fuel)%nat ->
  BuildQuery_labels fuel host q =
  if forallb label_ok (SplitString_loop fuel 46 host)
  then Some (q ++ wire_labels (SplitString_loop fuel 46 host)) else None.
Proof.
  revert host q. induction fuel as [|f IH]; intros host q Hf; [lia|].
  cbn [BuildQuery_labels SplitString_loop]. unfold wire_labels.
  destruct (find_char 46 host) as [k|] eqn:E; cbn [forallb map concat].
  - apply find_char_lt in E. unfold label_ok at 1. rewrite zlen_ztake by lia.
    rewrite label_len_test by lia.
    destruct ((1 <=? k) && (k <=? 63)) eqn:El; cbn [negb andb]; [|done]. zbool.
    rewrite IH by (unfold zdrop, zlen in *; rewrite length_drop; lia).
    destruct (forallb _ _); [|done]. rewrite u8_small by lia.
    unfold wire_labels. by rewrite <- app_assoc.
  - unfold label_ok. rewrite ztake_all, andb_true_r, app_nil_r by lia.
    rewrite label_len_test by apply zlen_nonneg.
    destruct ((1 <=? zlen host) && (zlen host <=? 63)) eqn:El; cbn [negb]; [|done]. zbool.
    by rewrite u8_small by lia.
Qed.

Lemma wire_name_length host : zlen (wire_name host) = zlen (wire_labels (labels_of host)) + 1.
Proof. unfold wire_name. by rewrite zlen_app. Qed.

(** What [BuildQuery] produces, in terms of the reference encoding. *)
Lemma BuildQuery_ref host qtype txid :
  in_word 16 qtype -> in_word 16 txid ->
  BuildQuery host qtype txid =
  if host_ok host
  then be_bytes 2 txid ++ query_header_tail ++ wire_name host ++ be_bytes 2 qtype ++ [0; 1]
  else [].
Proof.
  intros Hq Ht. unfold BuildQuery, host_ok, labels_of, SplitString.
  assert (H16 : forall v, in_word 16 v -> [u8 (Z.shiftr v 8); u8 (Z.land v 255)] = be_bytes 2 v).
  { intros v Hv. rewrite land_255, Z.shiftr_div_pow2 by lia. cbn [be_bytes app].
    unfold u8, wrap. change (2 ^ 8) with 256. rewrite Z.mod_mod by lia. done. }
  destruct (zlen host =? 0) eqn:E0.
  { apply zlen_eqb_nil in E0. by subst. }
  rewrite BuildQuery_labels_ref by lia. fold (SplitString host 46). fold (labels_of host).
  destruct (forallb label_ok _); cbn [andb]; [|done]. rewrite app_nil_l.
  fold (wire_name host). rewrite Z.ltb_antisym.
  destruct (zlen (wire_name host) <=? 255); [|done]. cbn [negb].
  rewrite (H16 txid), <- (H16 qtype) by done. done.
Qed.

(** Decoding the labels of a reference name, wherever it stands in a packet. *)
Lemma DecodeQuestionName_labels ls fuel pre rest jumps first name pos :
  Forall (fun l => label_ok l = true) ls -> (length ls < fuel)%nat ->
  pos = zlen pre ->
  DecodeQuestionName_loop fuel (pre ++ wire_labels ls ++ 0 :: rest) pos jumps first name
  = Some (Some (name ++
      match ls with
      | [] => []
      | _ => (if first then [] else [46]) ++ join_with 46 (map (map tolower) ls)
      end)).
Proof.
  intros Hls. revert fuel pre first name pos.
  induction Hls as [|l ls Hl Hls IH]; intros fuel pre first name pos Hf ->;
    (destruct fuel as [|f]; [cbn in Hf; lia|]); cbn [DecodeQuestionName_loop].
  - pose proof (zlen_nonneg rest). cbn [wire_labels map concat app].
    rewrite (proj2 (Z.leb_gt _ _)) by (rewrite zlen_app, zlen_cons; lia).
    rewrite (zget_at pre 0 rest (zlen pre)) by done. cbn. by rewrite app_nil_r.
  - unfold label_ok in Hl. zbool. pose proof (zlen_nonneg rest). pose proof (zlen_nonneg (wire_labels ls)).
    unfold wire_labels in *. cbn [map concat]. fold (wire_labels ls) in *.
    change ((zlen l :: l) ++ wire_labels ls) with (zlen l :: (l ++ wire_labels ls)).
    cbn [app]. rewrite <- app_assoc.
    rewrite (proj2 (Z.leb_gt _ _)) by (autorewrite with lens; lia).
    rewrite (zget_at pre (zlen l) _ (zlen pre)) by done. cbn [mbind option_bind].
    assert (Hc0 : Z.land (zlen l) 192 = 0).
    { assert (Hb : forallb (fun n => Z.land n 192 =? 0) (seqZ 1 63) = true) by (vm_compute; reflexivity).
      rewrite forallb_forall in Hb. specialize (Hb (zlen l)). apply Z.eqb_eq, Hb.
      apply list_elem_of_In, elem_of_seqZ. lia. }
    rewrite Hc0. cbn [Z.eqb negb]. rewrite (proj2 (Z.eqb_neq (zlen l) 0)) by lia.
    rewrite (proj2 (Z.ltb_ge _ _)) by (autorewrite with lens; lia).
    assert (Hsub : sub_bytes (pre ++ zlen l :: l ++ wire_labels ls ++ 0 :: rest) (zlen pre + 1) (zlen l) = Some l).
    { change (zlen l :: l ++ wire_labels ls ++ 0 :: rest) with ([zlen l] ++ l ++ (wire_labels ls ++ 0 :: rest)).
      rewrite app_assoc. apply sub_bytes_at; [rewrite zlen_app; done|done]. }
    rewrite Hsub. cbn [mbind option_bind].
    replace (pre ++ zlen l :: l ++ wire_labels ls ++ 0 :: rest)
      with ((pre ++ zlen l :: l) ++ wire_labels ls ++ 0 :: rest) by by rewrite <- app_assoc.
    rewrite IH by (cbn in Hf; autorewrite with lens; lia).
    do 2 f_equal. rewrite <- !app_assoc. do 2 f_equal.
    destruct ls; cbn [map join_with app]; by rewrite ?app_nil_r.
Qed.

Lemma join_with_map d f ls :
  f d = d -> join_with d (map (map f) ls) = map f (join_with d ls).
Proof.
  intros Hd. induction ls as [|l ls IH]; [done|]. destruct ls as [|l' ls]; [done|].
  change (join_with d (l :: l' :: ls)) with (l ++ d :: join_with d (l' :: ls)).
  rewrite map_app. cbn [map]. rewrite Hd, <- IH. done.
Qed.

Lemma split_ref_count d acc s : (length (split_ref d acc s) <= S (length s))%nat.
Proof.
  revert acc. induction s as [|c s IH]; intros acc; cbn; [lia|].
  zcase; cbn; [specialize (IH [])|specialize (IH (acc ++ [c]))]; lia.
Qed.

Lemma labels_count host : (length (labels_of host) <= S (length host))%nat.
Proof. unfold labels_of. rewrite SplitString_ref. apply split_ref_count. Qed.

Lemma wire_labels_length ls : Z.of_nat (length ls) <= zlen (wire_labels ls).
Proof.
  induction ls as [|l ls IH]; [done|]. unfold wire_labels in *. cbn [map concat length].
  rewrite zlen_app, zlen_cons. pose proof (zlen_nonneg l). lia.
Qed.

(** The name of a valid host decodes to the host in lower case. *)
Lemma DecodeQuestionName_wire pre host rest :
  host_ok host = true ->
  DecodeQuestionName (pre ++ wire_name host ++ rest) (zlen pre) = Some (Some (map tolower host)).
Proof.
  intros Hok. unfold host_ok in Hok. zbool.
  assert (Hl : Forall (fun l => label_ok l = true) (labels_of host)).
  { apply List.Forall_forall. by apply forallb_forall. }
  unfold DecodeQuestionName, wire_name. rewrite <- app_assoc. cbn [app].
  rewrite DecodeQuestionName_labels; [|done| |done].
  - do 2 f_equal. cbn [app]. rewrite (join_with_map 46 tolower) by done.
    unfold labels_of. rewrite SplitString_ref, join_split_ref. cbn [app].
    destruct (split_ref 46 [] host) eqn:E; [|done]. by apply split_ref_nonempty in E.
  - unfold name_fuel, kMaxJumps. pose proof (wire_labels_length (labels_of host)).
    pose proof (zlen_nonneg pre). pose proof (zlen_nonneg rest).
    autorewrite with lens. lia.
Qed.

Lemma byte_land_C0 l : label_ok l = true -> Z.land (zlen l) 192 = 0.
Proof.
  intros Hl. unfold label_ok in Hl. zbool.
  assert (Hb : forallb (fun n => Z.land n 192 =? 0) (seqZ 1 63) = true) by (vm_compute; reflexivity).
  rewrite forallb_forall in Hb. specialize (Hb (zlen l)). apply Z.eqb_eq, Hb.
  apply list_elem_of_In, elem_of_seqZ. lia.
Qed.

Lemma SkipName_labels ls fuel pre rest consumed pos :
  Forall (fun l => label_ok l = true) ls -> (length ls < fuel)%nat -> pos = zlen pre ->
  SkipName_loop fuel (pre ++ wire_labels ls ++ 0 :: rest) pos consumed
  = Some (consumed + zlen (wire_labels ls) + 1).
Proof.
  intros Hls. revert fuel pre consumed pos.
  induction Hls as [|l ls Hl Hls IH]; intros fuel pre consumed pos Hf ->;
    (destruct fuel as [|f]; [cbn in Hf; lia|]); cbn [SkipName_loop];
    pose proof (zlen_nonneg rest).
  - cbn [wire_labels map concat app].
    rewrite (proj2 (Z.leb_gt _ _)) by (rewrite zlen_app, zlen_cons; lia).
    rewrite (zget_at pre 0 rest (zlen pre)) by done. cbn -[Z.add]. f_equal.
    change (zlen (@nil Z)) with 0. lia.
  - pose proof (byte_land_C0 l Hl) as Hc0. unfold label_ok in Hl. zbool.
    pose proof (zlen_nonneg (wire_labels ls)).
    unfold wire_labels in *. cbn [map concat]. fold (wire_labels ls) in *.
    change ((zlen l :: l) ++ wire_labels ls) with (zlen l :: (l ++ wire_labels ls)).
    cbn [app]. rewrite <- app_assoc.
    rewrite (proj2 (Z.leb_gt _ _)) by (autorewrite with lens; lia).
    rewrite (zget_at pre (zlen l) _ (zlen pre)) by done. cbn [mbind option_bind].
    rewrite Hc0. cbn [Z.eqb negb]. rewrite (proj2 (Z.eqb_neq (zlen l) 0)) by lia.
    rewrite (proj2 (Z.ltb_ge _ _)) by (autorewrite with lens; lia).
    replace (pre ++ zlen l :: l ++ wire_labels ls ++ 0 :: rest)
      with ((pre ++ zlen l :: l) ++ wire_labels ls ++ 0 :: rest) by by rewrite <- app_assoc.
    rewrite IH by (cbn in Hf; autorewrite with lens; lia).
    autorewrite with lens. f_equal. lia.
Qed.

Lemma SkipName_wire pre host rest :
  host_ok host = true ->
  SkipName (pre ++ wire_name host ++ rest) (zlen pre) = Some (zlen (wire_name host)).
Proof.
  intros Hok. unfold host_ok in Hok. zbool.
  assert (Hl : Forall (fun l => label_ok l = true) (labels_of host)).
  { apply List.Forall_forall. by apply forallb_forall. }
  unfold SkipName, wire_name. rewrite <- app_assoc. cbn [app].
  rewrite SkipName_labels; [by rewrite zlen_app|done| |done].
  pose proof (wire_labels_length (labels_of host)). unfold zlen in *.
  rewrite !length_app. lia.
Qed.

(** A compression pointer to the question is skipped as two bytes. *)
Lemma SkipName_pointer pre rest :
  12 < zlen pre -> SkipName (pre ++ 0xC0 :: 0x0C :: rest) (zlen pre) = Some 2.
Proof.
  intros Hp. unfold SkipName. cbn [SkipName_loop]. pose proof (zlen_nonneg rest).
  rewrite (proj2 (Z.leb_gt _ _)) by (autorewrite with lens; lia).
  rewrite (zget_at pre 0xC0 _ (zlen pre)) by done. cbn [mbind option_bind].
  change (Z.land 192 192 =? 192) with true. cbn match.
  rewrite (proj2 (Z.leb_gt _ _)) by (autorewrite with lens; lia).
  assert (E : zget (pre ++ 192 :: 12 :: rest) (zlen pre + 1) = Some 12).
  { change (192 :: 12 :: rest) with ([192] ++ 12 :: rest). rewrite app_assoc.
    apply zget_at. by rewrite zlen_app. }
  rewrite E. cbn [mbind option_bind].
  change (Z.lor (Z.shiftl (Z.land 192 63) 8) 12) with 12.
  rewrite (proj2 (Z.leb_gt _ _)) by (autorewrite with lens; lia).
  by rewrite (proj2 (Z.eqb_neq 12 (zlen pre))) by lia.
Qed.

Lemma ReadU16_at pre v rest pos :
  pos = zlen pre -> in_word 16 v ->
  ReadU16 (pre ++ be_bytes 2 v ++ rest) pos = Some v.
Proof.
  intros -> Hv. unfold ReadU16. cbn [be_bytes app].
  rewrite (zget_at pre _ _ (zlen pre)) by done. cbn [mbind option_bind].
  assert (E : forall x y, zget (pre ++ x :: y :: rest) (zlen pre + 1) = Some y).
  { intros x y. change (x :: y :: rest) with ([x] ++ y :: rest). rewrite app_assoc.
    apply zget_at. by rewrite zlen_app. }
  rewrite E. cbn [mbind option_bind]. rewrite lor2_be by word_lia.
  f_equal. unfold be_val. cbn [be_val_from]. word_lia.
Qed.

Lemma ReadU32_at pre v rest pos :
  pos = zlen pre -> in_word 32 v ->
  ReadU32 (pre ++ be_bytes 4 v ++ rest) pos = Some v.
Proof.
  intros -> Hv. unfold ReadU32. cbn [be_bytes app].
  set (b0 := v / 256 / 256 / 256 mod 256). set (b1 := v / 256 / 256 mod 256).
  set (b2 := v / 256 mod 256). set (b3 := v mod 256).
  assert (E : forall k w, nth_error [b0; b1; b2; b3] k = Some w ->
     zget (pre ++ b0 :: b1 :: b2 :: b3 :: rest) (zlen pre + Z.of_nat k) = Some w).
  { intros k w Hk. change (b0 :: b1 :: b2 :: b3 :: rest) with ([b0; b1; b2; b3] ++ rest).
    apply nth_error_split in Hk as (l1 & l2 & Hsplit & Hlen). rewrite Hsplit.
    rewrite <- app_assoc, app_assoc. cbn [app]. apply zget_at. rewrite zlen_app.
    unfold zlen. lia. }
  pose proof (E 0%nat b0 eq_refl) as E0. pose proof (E 1%nat b1 eq_refl) as E1.
  pose proof (E 2%nat b2 eq_refl) as E2. pose proof (E 3%nat b3 eq_refl) as E3.
  change (Z.of_nat 1) with 1 in E1. change (Z.of_nat 2) with 2 in E2.
  change (Z.of_nat 3) with 3 in E3. change (Z.of_nat 0) with 0 in E0.
  rewrite Z.add_0_r in E0. rewrite E0, E1, E2, E3. cbn [mbind option_bind]. unfold b0, b1, b2, b3. rewrite lor4_be by word_lia. f_equal.
  unfold be_val. cbn [be_val_from]. word_lia.
Qed.

(** ** Reference encoding of responses *)

Record dns_answer := { an_type : Z; an_ttl : Z; an_rdata : bytes }.

Definition answer_ok (a : dns_answer) : Prop :=
  in_word 16 (an_type a) /\ in_word 32 (an_ttl a) /\ zlen (an_rdata a) < 65536.

(** A resource record whose name points at the question. *)
Definition enc_answer (a : dns_answer) : bytes :=
  [0xC0; 0x0C] ++ be_bytes 2 (an_type a) ++ [0x00; 0x01] ++ be_bytes 4 (an_ttl a)
  ++ be_bytes 2 (zlen (an_rdata a)) ++ an_rdata a.

(** A response to the query for [host] with the given transaction id. *)
Definition dns_response (txid : Z) (host : bytes) (qtype : Z) (ans : list dns_answer) : bytes :=
  be_bytes 2 txid ++ [0x81; 0x80] ++ be_bytes 2 1 ++ be_bytes 2 (Z.of_nat (length ans))
  ++ [0; 0; 0; 0] ++ wire_name host ++ be_bytes 2 qtype ++ [0; 1] ++ concat (map enc_answer ans).

(** The address a record carries: an A record of 4 bytes or an AAAA record of 16. *)
Definition answer_addr (a : dns_answer) : option sockaddr :=
  if (an_type a =? 1) && (zlen (an_rdata a) =? 4) then Some (SockIn (an_rdata a))
  else if (an_type a =? 28) && (zlen (an_rdata a) =? 16) then Some (SockIn6 (an_rdata a))
  else None.

(** The least TTL of the records that carry an address, [ttl0] when none does. *)
Definition min_ttl (ttl0 : Z) (ans : list dns_answer) : Z :=
  match omap (fun a => (fun _ => an_ttl a) <$> answer_addr a) ans with
  | [] => ttl0
  | t :: ts => fold_left Z.min ts t
  end.

(** ** Response lemmas *)

Definition rec_step (st : answer_state) (a : dns_answer) : answer_state :=
  match answer_addr a with
  | Some ad => add_addr st ad (an_ttl a)
  | None => st
  end.

Lemma enc_answer_length a : zlen (enc_answer a) = 12 + zlen (an_rdata a).
Proof. unfold enc_answer. autorewrite with lens. lia. Qed.

Lemma answers_step n pre a rest tr st :
  answer_ok a -> as_pos st = zlen pre -> 12 < zlen pre ->
  answers (S n) (pre ++ enc_answer a ++ rest) tr st
  = answers n (pre ++ enc_answer a ++ rest) tr
      (set_pos (rec_step st a) (zlen (pre ++ enc_answer a))).
Proof.
  intros (Hty & Httl & Hrd) Hpos Hp. cbn [answers]. rewrite Hpos.
  pose proof (zlen_nonneg rest). pose proof (zlen_nonneg (an_rdata a)).
  set (data := pre ++ enc_answer a ++ rest).
  assert (Hlen : zlen data = zlen pre + 12 + zlen (an_rdata a) + zlen rest)
    by (unfold data; rewrite !zlen_app, enc_answer_length; lia).
  assert (D2 : data = (pre ++ [0xC0; 0x0C]) ++ be_bytes 2 (an_type a)
      ++ [0; 1] ++ be_bytes 4 (an_ttl a) ++ be_bytes 2 (zlen (an_rdata a)) ++ an_rdata a ++ rest)
    by (unfold data, enc_answer; rewrite <- !app_assoc; reflexivity).
  assert (D6 : data = (pre ++ [0xC0; 0x0C] ++ be_bytes 2 (an_type a) ++ [0; 1])
      ++ be_bytes 4 (an_ttl a) ++ be_bytes 2 (zlen (an_rdata a)) ++ an_rdata a ++ rest)
    by (unfold data, enc_answer; rewrite <- !app_assoc; reflexivity).
  assert (D10 : data = (pre ++ [0xC0; 0x0C] ++ be_bytes 2 (an_type a) ++ [0; 1]
      ++ be_bytes 4 (an_ttl a)) ++ be_bytes 2 (zlen (an_rdata a)) ++ an_rdata a ++ rest)
    by (unfold data, enc_answer; rewrite <- !app_assoc; reflexivity).
  assert (D12 : data = (pre ++ [0xC0; 0x0C] ++ be_bytes 2 (an_type a) ++ [0; 1]
      ++ be_bytes 4 (an_ttl a) ++ be_bytes 2 (zlen (an_rdata a))) ++ an_rdata a ++ rest)
    by (unfold data, enc_answer; rewrite <- !app_assoc; reflexivity).
  assert (Hskip : SkipName data (zlen pre) = Some 2)
    by (apply SkipName_pointer; done).
  rewrite Hskip. cbn [mbind option_bind Z.eqb]. rewrite (proj2 (Z.ltb_ge _ _)) by lia.
  assert (Hr1 : ReadU16 data (zlen pre + 2) = Some (an_type a))
    by (rewrite D2; apply ReadU16_at; [autorewrite with lens; lia|done]).
  assert (Hr2 : ReadU32 data (zlen pre + 2 + 4) = Some (an_ttl a))
    by (rewrite D6; apply ReadU32_at; [autorewrite with lens; lia|done]).
  assert (Hr3 : ReadU16 data (zlen pre + 2 + 8) = Some (zlen (an_rdata a)))
    by (rewrite D10; apply ReadU16_at; [autorewrite with lens; lia|word_lia]).
  rewrite Hr1, Hr2, Hr3. cbn [mbind option_bind]. rewrite (proj2 (Z.ltb_ge _ _)) by lia.
  assert (Hsub : sub_bytes data (zlen pre + 2 + 10) (zlen (an_rdata a)) = Some (an_rdata a))
    by (rewrite D12; apply sub_bytes_at; [autorewrite with lens; lia|done]).
  assert (Hend : zlen pre + 2 + 10 + zlen (an_rdata a) = zlen (pre ++ enc_answer a))
    by (rewrite zlen_app, enc_answer_length; lia).
  rewrite Hend. unfold rec_step, answer_addr.
  destruct ((an_type a =? 1) && (zlen (an_rdata a) =? 4)) eqn:E1.
  { zbool. rewrite <- H2, Hsub. reflexivity. }
  destruct ((an_type a =? 28) && (zlen (an_rdata a) =? 16)) eqn:E2; [|reflexivity].
  zbool. rewrite <- H2, Hsub. reflexivity.
Qed.

(** The answer loop over a run of reference records. *)
Lemma answers_records recs pre rest tr st :
  Forall answer_ok recs -> as_pos st = zlen pre -> 12 < zlen pre ->
  answers (length recs) (pre ++ concat (map enc_answer recs) ++ rest) tr st
  = Some (inl (set_pos (fold_left rec_step recs st) (zlen (pre ++ concat (map enc_answer recs))))).
Proof.
  intros Hok. revert pre st. induction Hok as [|a recs Ha Hok IH]; intros pre st Hpos Hp.
  - cbn. rewrite app_nil_r, <- Hpos. by destruct st.
  - cbn [length map concat]. rewrite <- app_assoc. rewrite answers_step by done.
    rewrite app_assoc. rewrite IH; [|done|].
    + do 2 f_equal. rewrite <- app_assoc. cbn [fold_left].
      assert (E : forall rs s p q, set_pos (fold_left rec_step rs (set_pos s p)) q
                    = set_pos (fold_left rec_step rs s) q).
      { clear. induction rs as [|r rs IH]; intros s p q; [done|]. cbn [fold_left].
        unfold rec_step at 2 4. destruct (answer_addr r); [|apply IH].
        rewrite <- (IH (add_addr s _ _) p q). done. }
      by rewrite E.
    + autorewrite with lens. pose proof (zlen_nonneg (enc_answer a)). lia.
Qed.

(** The addresses and the TTL the loop accumulates. *)
Lemma rec_fold_addrs recs st :
  as_addrs (fold_left rec_step recs st) = as_addrs st ++ omap answer_addr recs.
Proof.
  revert st. induction recs as [|a recs IH]; intros st; [by rewrite app_nil_r|].
  cbn [fold_left]. rewrite IH. unfold rec_step. cbn [omap list_omap].
  destruct (answer_addr a); [|done]. cbn. by rewrite <- app_assoc.
Qed.

Lemma rec_fold_ttl_have recs st :
  as_haveTtl st = true ->
  as_minTtl (fold_left rec_step recs st)
  = fold_left Z.min (omap (fun a => (fun _ => an_ttl a) <$> answer_addr a) recs) (as_minTtl st).
Proof.
  revert st. induction recs as [|a recs IH]; intros st Hh; [done|].
  cbn [fold_left omap list_omap]. unfold rec_step at 2.
  destruct (answer_addr a) as [ad|]; cbn [fmap option_fmap option_map]; [|by apply IH].
  rewrite IH by done. cbn [fold_left add_addr as_minTtl]. rewrite Hh. cbn [negb orb].
  f_equal. zcase; lia.
Qed.

Lemma rec_fold_ttl recs st :
  as_haveTtl st = false ->
  as_minTtl (fold_left rec_step recs st) = min_ttl (as_minTtl st) recs.
Proof.
  revert st. unfold min_ttl. induction recs as [|a recs IH]; intros st Hh; [done|].
  cbn [fold_left omap list_omap]. unfold rec_step at 2.
  destruct (answer_addr a) as [ad|]; cbn [fmap option_fmap option_map]; [|by apply IH].
  rewrite rec_fold_ttl_have by done. cbn [add_addr as_minTtl]. by rewrite Hh.
Qed.

Lemma split_ref_ends_empty d acc s : [] ∈ split_ref d acc (s ++ [d]).
Proof.
  revert acc. induction s as [|c s IH]; intros acc; cbn.
  - rewrite Z.eqb_refl. right. left.
  - zcase; [right|]; apply IH.
Qed.

Lemma LowerNoTrailingDot_ok host : host_ok host = true -> LowerNoTrailingDot host = map tolower host.
Proof.
  intros Hok. unfold LowerNoTrailingDot. f_equal.
  destruct host as [|c host _] using rev_ind; [done|].
  rewrite rev_app_distr. cbn [rev app strip_dots_rev].
  zcase; [|cbn [rev]; by rewrite rev_involutive].
  subst c. exfalso. unfold host_ok in Hok. zbool.
  rewrite forallb_forall in H. unfold labels_of in H. rewrite SplitString_ref in H.
  specialize (H [] (proj1 (list_elem_of_In _ _) (split_ref_ends_empty 46 [] host))). done.
Qed.

Lemma wire_name_pos host : 0 < zlen (wire_name host).
Proof. rewrite wire_name_length. pose proof (zlen_nonneg (wire_labels (labels_of host))). lia. Qed.

(** The question section of a response to a query for [host]. *)
Lemma questions_wire pre host qt rest :
  host_ok host = true -> zlen qt = 4 ->
  questions 1 (pre ++ wire_name host ++ qt ++ rest) host true (zlen pre)
  = Some (inl (zlen (pre ++ wire_name host ++ qt))).
Proof.
  intros Hok Hqt. cbn [questions]. pose proof (wire_name_pos host). pose proof (zlen_nonneg rest).
  rewrite DecodeQuestionName_wire, SkipName_wire, LowerNoTrailingDot_ok by done.
  assert (Hcheck : (if true && negb (zlen host =? 0)
             then Some (Some (map tolower host)) ≫= (fun qname => match qname with
               | None => Some (Some ErrQuestionDecode)
               | Some qname => if bytes_eqb qname (map tolower host) then Some None
                   else Some (Some (ErrQuestionMismatch qname)) end)
             else Some None) = Some None).
  { cbn [andb]. destruct (negb _); [|done]. cbn [mbind option_bind].
    unfold bytes_eqb. by rewrite bool_decide_true. }
  rewrite Hcheck. cbn [mbind option_bind].
  rewrite (proj2 (Z.eqb_neq _ 0)) by lia.
  rewrite (proj2 (Z.ltb_ge _ _)) by (autorewrite with lens; lia).
  do 2 f_equal. autorewrite with lens. lia.
Qed.

Lemma ParseResponse_total (data : bytes) expectTxid outAddrs outMinTtl expectHost :
  bytes_ok data ->
  is_Some (ParseResponse (Some data) expectTxid outAddrs outMinTtl expectHost).
Proof.
  intros Hd. unfold ParseResponse. zcase; [eauto|].
  read_byte data 2 fl Hfl. case_match; [eauto|].
  destruct (ReadU16_total data 0) as (tx & -> & _); [done|lia..|]. cbn [mbind option_bind].
  case_match; [eauto|]. read_byte data 3 fl2 Hfl2. case_match; [eauto|].
  destruct (ReadU16_total data 4) as (qd & -> & _); [done|lia..|]. cbn [mbind option_bind].
  destruct (ReadU16_total data 6) as (an & -> & _); [done|lia..|]. cbn [mbind option_bind].
  case_match; [eauto|].
  destruct (questions_total (Z.to_nat qd) data expectHost true 12 Hd) as (q & -> & Hq); [lia|].
  cbn [mbind option_bind]. destruct q as [pos|e]; [|eauto].
  specialize (Hq pos eq_refl).
  edestruct (answers_total (Z.to_nat an) data) as [r ->]; [done|cbn; lia|].
  cbn [mbind option_bind]. destruct r; [|eauto]. case_match; eauto.
Qed.

(** ** Properties *)

(** C35: parsing a response is memory-safe and terminates on every packet: for any
    bytes from the network, including truncated records and compression pointers
    that form cycles, [ParseResponse] returns a result and never reads outside
    the packet. *)
Theorem ParseResponse_safe (data : bytes) (expectTxid : Z) (outAddrs : list sockaddr)
    (outMinTtl : Z) (expectHost : bytes) :
  bytes_ok data ->
  is_Some (ParseResponse (Some data) expectTxid outAddrs outMinTtl expectHost).
Proof. apply ParseResponse_total. Qed.

Lemma ParseResponse_safe_witness :
  is_Some (ParseResponse (Some ([0; 7; 0x81; 0x80; 0; 1; 0; 0; 0; 0; 0; 0; 0xC0; 0x0C])) 7 [] 0 (str "a")).
Proof.
  apply ParseResponse_safe. apply (bool_decide_unpack _). vm_compute. exact I.
Defined.

(** C34: only an answer to the query is accepted. When [ParseResponse] succeeds for a
    named host, the packet is a response, carries the expected transaction id and
    a zero response code, and its first question names that host up to case and
    trailing dots; a forged or stale packet that differs in any of these is
    rejected, with the address list cleared. *)
Theorem ParseResponse_authentic (data expectHost : bytes) (expectTxid ttl0 ttl : Z)
    (outAddrs addrs : list sockaddr) :
  bytes_ok data -> expectHost <> [] ->
  ParseResponse (Some data) expectTxid outAddrs ttl0 expectHost = Some (Parsed addrs ttl) ->
  Z.land (zat data 2) 0x80 <> 0 /\ be_val (ztake 2 data) = expectTxid /\
  Z.land (zat data 3) 0x0F = 0 /\ 0 < be_val (ztake 2 (zdrop 4 data)) /\
  DecodeQuestionName data 12 = Some (Some (LowerNoTrailingDot expectHost)).
Proof.
  intros Hd Hh. unfold ParseResponse.
  assert (HU : forall p, 0 <= p -> p + 2 <= zlen data ->
     ReadU16 data p = Some (be_val (ztake 2 (zdrop p data)))).
  { intros p Hp Hl. rewrite <- (ztake_zdrop p data) at 1.
    set (tl := zdrop p data). assert (Htl : bytes_ok tl) by by apply bytes_ok_zdrop.
    assert (Hlt : 2 <= zlen tl) by (unfold tl; rewrite zlen_zdrop; lia).
    rewrite <- (ztake_zdrop 2 tl) at 1.
    pose proof (be_bytes_be_val (ztake 2 tl) ltac:(by apply bytes_ok_ztake)) as E.
    assert (L2 : length (ztake 2 tl) = 2%nat)
      by (pose proof (zlen_ztake 2 tl ltac:(lia)); unfold zlen in *; lia).
    rewrite L2 in E. rewrite <- E at 1. apply ReadU16_at; [rewrite zlen_ztake; lia|].
    pose proof (be_val_bound (ztake 2 tl) ltac:(by apply bytes_ok_ztake)) as Hb.
    unfold zlen in Hb. rewrite L2 in Hb. exact Hb. }
  zcase; [done|]. read_byte data 2 fl Hfl. assert (zat data 2 = fl) as -> by (unfold zat; by rewrite E).
  zcase; [done|]. rewrite (HU 0) by lia. cbn [mbind option_bind]. rewrite zdrop_0.
  destruct (negb (_ =? expectTxid)) eqn:Et; [done|]. zbool.
  read_byte data 3 fl2 Hfl2. assert (zat data 3 = fl2) as -> by (unfold zat; by rewrite E0).
  destruct (negb (Z.land fl2 15 =? 0)) eqn:Er; [done|]. zbool.
  rewrite (HU 4), (HU 6) by lia. cbn [mbind option_bind].
  rewrite (proj2 (Z.eqb_neq (zlen expectHost) 0)) by (intros Hz%zlen_0_nil; done).
  cbn [negb andb]. set (qd := be_val (ztake 2 (zdrop 4 data))).
  destruct (qd =? 0) eqn:Eq; [done|]. zbool.
  assert (0 <= qd) by (apply be_val_bound; by apply bytes_ok_ztake, bytes_ok_zdrop).
  destruct (questions _ _ _ _ _) as [[pos|e]|] eqn:Eqs; [|done..].
  intros _. repeat split; try done; try lia.
  eapply questions_first_match; [|done|exact Eqs]. lia.
Qed.

Lemma ParseResponse_authentic_witness :
  let data := dns_response 7 (str "a.b") 1 [{| an_type := 1; an_ttl := 60; an_rdata := [1; 2; 3; 4] |}] in
  DecodeQuestionName data 12 = Some (Some (LowerNoTrailingDot (str "A.b."))).
Proof.
  apply (ParseResponse_authentic _ (str "A.b.") 7 0 60 [] [SockIn [1; 2; 3; 4]]).
  - apply (bool_decide_unpack _). vm_compute. exact I.
  - discriminate.
  - vm_compute. reflexivity.
Defined.

(** [BuildQuery] produces a query exactly for the names DNS can carry (every
    label 1 to 63 bytes, 255 in all) and the empty vector for every other; the
    query is the standard header with the given id, one question for the name,
    and the parser's own name decoder reads the name back in lower case. *)
Theorem BuildQuery_spec (host : bytes) (qtype txid : Z) :
  in_word 16 qtype -> in_word 16 txid ->
  (host_ok host = false -> BuildQuery host qtype txid = []) /\
  (host_ok host = true ->
     BuildQuery host qtype txid
       = be_bytes 2 txid ++ query_header_tail ++ wire_name host ++ be_bytes 2 qtype ++ [0; 1] /\
     DecodeQuestionName (BuildQuery host qtype txid) 12 = Some (Some (map tolower host)) /\
     SkipName (BuildQuery host qtype txid) 12 = Some (zlen (wire_name host))).
Proof.
  intros Hq Ht. rewrite BuildQuery_ref by done. destruct (host_ok host) eqn:Hok; [|done].
  split; [done|]. intros _. split; [done|].
  rewrite (app_assoc (be_bytes 2 txid)). change 12 with (zlen (be_bytes 2 txid ++ query_header_tail)).
  split; [by apply DecodeQuestionName_wire|by apply SkipName_wire].
Qed.

Lemma BuildQuery_spec_witness :
  (host_ok (str "a..b") = false -> BuildQuery (str "a..b") 1 7 = []) /\
  DecodeQuestionName (BuildQuery (str "wWw.x") 28 7) 12 = Some (Some (map tolower (str "wWw.x"))).
Proof.
  split.
  - apply (BuildQuery_spec (str "a..b") 1 7); split; vm_compute; congruence.
  - apply (BuildQuery_spec (str "wWw.x") 28 7); try (split; vm_compute; congruence).
Defined.

(** A well-formed response parses to exactly its addresses. For any valid host,
    transaction id and list of resource records, the response that answers the
    query parses to the addresses of its A and AAAA records in order, skipping
    every other record, and to the least TTL among those. *)
Theorem ParseResponse_roundtrip (host : bytes) (txid qtype ttl0 : Z) (recs : list dns_answer) :
  host_ok host = true -> in_word 16 txid -> Z.of_nat (length recs) < 65536 -> Forall answer_ok recs ->
  ParseResponse (Some (dns_response txid host qtype recs)) txid [] ttl0 host
  = Some (Parsed (omap answer_addr recs) (min_ttl ttl0 recs)).
Proof.
  intros Hok Htx Hn Hrecs. unfold ParseResponse.
  set (rest := wire_name host ++ be_bytes 2 qtype ++ [0; 1] ++ concat (map enc_answer recs)).
  assert (Hd : dns_response txid host qtype recs
      = be_bytes 2 txid ++ [0x81; 0x80] ++ be_bytes 2 1 ++ be_bytes 2 (Z.of_nat (length recs))
        ++ [0; 0; 0; 0] ++ rest) by done.
  rewrite Hd. pose proof (zlen_nonneg rest).
  rewrite (proj2 (Z.ltb_ge _ _)) by (autorewrite with lens; lia).
  set (data := be_bytes 2 txid ++ _).
  assert (E2 : zget data 2 = Some 0x81) by (apply (zget_at (be_bytes 2 txid)); done).
  assert (E3 : zget data 3 = Some 0x80)
    by (apply (zget_at (be_bytes 2 txid ++ [0x81]) 0x80 (be_bytes 2 1 ++ _)); done).
  assert (E0 : ReadU16 data 0 = Some txid) by (apply (ReadU16_at []); done).
  assert (E4 : ReadU16 data 4 = Some 1)
    by (apply (ReadU16_at (be_bytes 2 txid ++ [0x81; 0x80]) 1); [done|word_lia]).
  assert (E6 : ReadU16 data 6 = Some (Z.of_nat (length recs)))
    by (apply (ReadU16_at (be_bytes 2 txid ++ [0x81; 0x80] ++ be_bytes 2 1));
        [done|unfold in_word; lia]).
  rewrite E2. cbn [mbind option_bind]. change (Z.land 129 128 =? 0) with false. cbn match.
  rewrite E0. cbn [mbind option_bind]. rewrite Z.eqb_refl. cbn [negb].
  rewrite E3. cbn [mbind option_bind]. change (Z.land 128 15 =? 0) with true. cbn [negb].
  rewrite E4, E6. cbn [mbind option_bind]. rewrite andb_false_r.
  set (hdr := be_bytes 2 txid ++ [0x81; 0x80] ++ be_bytes 2 1
              ++ be_bytes 2 (Z.of_nat (length recs)) ++ [0; 0; 0; 0]).
  assert (Ed : data = hdr ++ wire_name host ++ (be_bytes 2 qtype ++ [0; 1])
                      ++ concat (map enc_answer recs) ++ [])
    by (unfold data, hdr, rest; rewrite app_nil_r, <- !app_assoc; reflexivity).
  rewrite Ed at 1. change 12 with (zlen hdr). change (Z.to_nat 1) with 1%nat.
  rewrite questions_wire by done. cbn [mbind option_bind]. rewrite Nat2Z.id.
  assert (Ed' : data = (hdr ++ wire_name host ++ be_bytes 2 qtype ++ [0; 1])
                      ++ concat (map enc_answer recs) ++ [])
    by (rewrite Ed, <- !app_assoc; reflexivity).
  rewrite Ed'. pose proof (wire_name_pos host).
  rewrite answers_records; [|done|done|rewrite zlen_app; change (zlen hdr) with 12; autorewrite with lens; lia].
  cbn [mbind option_bind]. change (Z.land 129 2 =? 0) with true. cbn [negb andb set_pos as_addrs as_minTtl].
  rewrite rec_fold_addrs, rec_fold_ttl by done. done.
Qed.

Lemma ParseResponse_roundtrip_witness :
  let recs := [{| an_type := 5; an_ttl := 9; an_rdata := [0] |};
               {| an_type := 1; an_ttl := 60; an_rdata := [1; 2; 3; 4] |}] in
  ParseResponse (Some (dns_response 7 (str "x.org") 1 recs)) 7 [] 0 (str "x.org")
  = Some (Parsed (omap answer_addr recs) (min_ttl 0 recs)).
Proof.
  apply ParseResponse_roundtrip; [reflexivity|split; vm_compute; congruence|cbn; lia|].
  repeat constructor; vm_compute; congruence.
Defined.
