(* ===== verification/DnsResolver.v ===== *)
(** * DnsResolver: cached, policy-aware name resolution
      ([class DnsResolver] of [src/cpp/DnsResolver.cpp])

    The process-wide cache is a finite map passed through [Resolve]; the clock
    is in nanoseconds. The network and the C library are parameters: the text
    to address conversions ([inet_pton]), the system resolver ([getaddrinfo]),
    and, for each DNS server, what socket, pin, connect and send answered and
    the sequence of [poll]/[recv] outcomes. Error texts are lists of message
    constructors, empty exactly when the C++ string is. *)

From stdpp Require Import base list numbers option gmap.
From Stdlib Require Import ZArith Lia.
From S2P Require Import Prelude Utils Results VpnPolicy SocketPinner DnsMessage.

(** ** Configuration and results *)

Record DnsConfig := {
  cfg_policy : TTVpnPolicy;
  cfg_ifIndex : Z;
  cfg_androidNetHandle : Z;
  cfg_servers : list bytes;
  cfg_serverPort : Z;
  cfg_timeoutMs : Z;
  cfg_secondAnswerGraceMs : Z;
  cfg_preferIpv6 : bool
}.

(** Why one server gave no addresses. *)
Inductive server_err := SrvTimeout | SrvSocket | SrvParse (e : dns_error).

Inductive dns_msg :=
| MsgBadHost | MsgNotServerIp (server : bytes) | MsgSocketFailed (server : bytes)
| MsgPinFailed (server : bytes) (r : TTPinResult) (err : Z) | MsgConnectFailed (server : bytes)
| MsgServer (server : bytes) (e : server_err) | MsgNoAnswer (server : bytes)
| MsgNoServer | MsgGai (e : Z) | MsgGaiEmpty | MsgNoPhysical.

Record DnsResult := {
  r_result : BCRESULT;
  r_addrs : list sockaddr;
  r_err : list dns_msg
}.

Definition dns_failure (code : BCRESULT) (err : list dns_msg) : DnsResult :=
  {| r_result := code; r_addrs := []; r_err := err |}.

Definition dns_success (addrs : list sockaddr) : DnsResult :=
  {| r_result := BC_R_SUCCESS; r_addrs := addrs; r_err := [] |}.

(** ** Address order *)

Definition is_v6 (a : sockaddr) : bool := match a with SockIn6 _ => true | _ => false end.

(** The comparator of [_SortAddrs]. *)
Definition addr_before (preferIpv6 : bool) (a b : sockaddr) : bool :=
  let aV6 := is_v6 a in
  let bV6 := is_v6 b in
  if Bool.eqb aV6 bV6 then false
  else if preferIpv6 then aV6 && negb bV6 else negb aV6 && bV6.

(** [std::stable_sort], as insertion that passes only elements ordered before. *)
Fixpoint stable_insert {A} (lt : A -> A -> bool) (x : A) (l : list A) : list A :=
  match l with
  | [] => [x]
  | y :: l' => if lt y x then y :: stable_insert lt x l' else x :: y :: l'
  end.

Definition stable_sort {A} (lt : A -> A -> bool) (l : list A) : list A :=
  fold_right (stable_insert lt) [] l.

Definition SortAddrs (addrs : list sockaddr) (preferIpv6 : bool) : list sockaddr :=
  stable_sort (addr_before preferIpv6) addrs.

(** ** Cache *)

Record CacheEntry := { ce_addrs : list sockaddr; ce_expireAt : Z }.

Abbreviation dns_cache := (gmap bytes CacheEntry).

(** [std::to_string] of a signed integer. *)
Definition to_string (z : Z) : bytes :=
  if z <? 0 then 45 :: dec_text (- z) else dec_text z.

Definition CacheKey (host : bytes) (policy : TTVpnPolicy) (ifIndex : Z) : bytes :=
  host ++ str "|" ++ to_string (policy_code policy) ++ str "|" ++ to_string ifIndex.

Definition ClampTtl (ttl : Z) : Z :=
  if ttl <? 10 then 10 else if 600 <? ttl then 600 else ttl.

Definition ns_per_ms : Z := 1000000.
Definition ns_per_s : Z := 1000000000.

(** [_CacheLookup] at time [now]: an expired entry is erased. *)
Definition CacheLookup (cache : dns_cache) (now : Z) (key : bytes) : option DnsResult * dns_cache :=
  match cache !! key with
  | None => (None, cache)
  | Some e =>
      if ce_expireAt e <=? now then (None, delete key cache)
      else (Some (dns_success (ce_addrs e)), cache)
  end.

Definition CacheStore (cache : dns_cache) (now : Z) (key : bytes) (addrs : list sockaddr)
    (ttlSeconds : Z) : dns_cache :=
  <[key := {| ce_addrs := addrs; ce_expireAt := now + ClampTtl ttlSeconds * ns_per_s |}]> cache.

Definition ClearCache (cache : dns_cache) : dns_cache := ∅.

(** ** Asking one server

    One turn of the receive loop is an event: the clock at its start and what
    [poll] and [recv] answered. *)

Inductive poll_outcome :=
| PollNothing                          (* poll <= 0 *)
| PollError                            (* POLLERR, POLLHUP or POLLNVAL *)
| PollOther                            (* no POLLIN *)
| PollData (recv : option bytes).      (* POLLIN; [None] when recv <= 0 *)

Record udp_event := { ev_now : Z; ev_poll : poll_outcome }.

Record udp_state := {
  gotA : bool; gotAAAA : bool;
  gathered : list sockaddr;
  us_minTtl : Z; us_haveTtl : bool;
  serverErr : option server_err;
  graceDeadline : option Z              (* [None]: not armed *)
}.

Definition with_err (st : udp_state) (e : server_err) : udp_state :=
  {| gotA := gotA st; gotAAAA := gotAAAA st; gathered := gathered st;
     us_minTtl := us_minTtl st; us_haveTtl := us_haveTtl st;
     serverErr := Some e; graceDeadline := graceDeadline st |}.

Definition arm_grace (st : udp_state) (d : Z) : udp_state :=
  {| gotA := gotA st; gotAAAA := gotAAAA st; gathered := gathered st;
     us_minTtl := us_minTtl st; us_haveTtl := us_haveTtl st;
     serverErr := serverErr st; graceDeadline := Some d |}.

(** The grace timer starts at the first turn that finds an address gathered. *)
Definition maybe_arm (graceMs now : Z) (st : udp_state) : udp_state :=
  match graceDeadline st with
  | None => if bool_decide (gathered st = []) then st
            else arm_grace st (now + graceMs * ns_per_ms)
  | Some _ => st
  end.

(** The earlier of the two deadlines. *)
Definition effective_deadline (deadline : Z) (st : udp_state) : Z :=
  match graceDeadline st with
  | Some g => if g <? deadline then g else deadline
  | None => deadline
  end.

(** Recording the parsed answer to the A query ([isA]) or the AAAA query. *)
Definition take_answer (st : udp_state) (isA : bool) (r : parse_result) : udp_state :=
  let gA := if isA then true else gotA st in
  let gAAAA := if isA then gotAAAA st else true in
  match r with
  | Parsed tmpAddrs tmpTtl =>
      let any := negb (bool_decide (tmpAddrs = [])) in
      {| gotA := gA; gotAAAA := gAAAA; gathered := gathered st ++ tmpAddrs;
         us_minTtl := if any && (negb (us_haveTtl st) || (tmpTtl <? us_minTtl st))
                      then tmpTtl else us_minTtl st;
         us_haveTtl := us_haveTtl st || any;
         serverErr := serverErr st; graceDeadline := graceDeadline st |}
  | ParseFail e =>
      {| gotA := gA; gotAAAA := gAAAA; gathered := gathered st;
         us_minTtl := us_minTtl st; us_haveTtl := us_haveTtl st;
         serverErr := Some (SrvParse e); graceDeadline := graceDeadline st |}
  end.

Inductive loop_step := Continue (st : udp_state) | Break (st : udp_state).

(** One turn of the [while (!gotA || !gotAAAA)] loop of [_ResolveViaUdp]. *)
Definition udp_iter (host : bytes) (txidA txidAAAA deadline graceMs : Z)
    (st : udp_state) (ev : udp_event) : option loop_step :=
  let now := ev_now ev in
  let st := maybe_arm graceMs now st in
  let timeout := match graceDeadline st with None => with_err st SrvTimeout | Some _ => st end in
  if effective_deadline deadline st <=? now then Some (Break timeout)
  else match ev_poll ev with
  | PollNothing => Some (Break timeout)
  | PollError => Some (Break (with_err st SrvSocket))
  | PollOther => Some (Continue st)
  | PollData None => Some (Continue st)
  | PollData (Some buf) =>
      gotTxidHdr ← (if 2 <=? zlen buf then ReadU16 buf 0 else Some 0);
      if negb (gotA st) && (gotTxidHdr =? txidA) then
        r ← ParseResponse (Some buf) txidA [] 0 host;
        Some (Continue (take_answer st true r))
      else if negb (gotAAAA st) && (gotTxidHdr =? txidAAAA) then
        r ← ParseResponse (Some buf) txidAAAA [] 0 host;
        Some (Continue (take_answer st false r))
      else Some (Continue st)
  end.

(** The receive loop over the events; [None] when it is still waiting after the
    last one. *)
Fixpoint udp_loop (host : bytes) (txidA txidAAAA deadline graceMs : Z)
    (st : udp_state) (evs : list udp_event) : option udp_state :=
  if gotA st && gotAAAA st then Some st
  else match evs with
  | [] => None
  | ev :: evs' =>
      step ← udp_iter host txidA txidAAAA deadline graceMs st ev;
      match step with
      | Break st' => Some st'
      | Continue st' => udp_loop host txidA txidAAAA deadline graceMs st' evs'
      end
  end.

(** ** Resolution *)

(** What the network answers for one server. *)
Record server_net := {
  sn_socket : Z;             (* the descriptor, negative on failure *)
  sn_connect : Z -> bool;    (* whether connect to this port succeeds *)
  sn_txidA : Z; sn_txidAAAA : Z;   (* the two random ids *)
  sn_sentA : bool; sn_sentAAAA : bool;
  sn_start : Z;              (* the clock when the deadline is set *)
  sn_events : list udp_event
}.

Record gai_entry := { ai_addr : sockaddr; ai_addrlen : Z }.

Definition kDefaultServers : list bytes := [str "223.5.5.5"; str "8.8.8.8"].

Section Resolver.
Context (inet_pton4 inet_pton6 : bytes -> option bytes).
(** The kernel and platform facts [tt_socket_pin] depends on. *)
Context (os : os_call -> Z) (if_indextoname : Z -> option bytes).
Context (api_level : Z) (have_setsocknetwork : bool) (pf : platform).
(** [sizeof] of the address union of [BCSockAddrS]. *)
Context (sizeof_sockaddr_type : Z).
Context (getaddrinfo : bytes -> list gai_entry + Z).
Context (net : nat -> server_net).
(** The target's default policy, and the path monitor when it is compiled in. *)
Context (ios_target : bool) (path_monitor : option (TTVpnPolicy -> Z)).

(** [_TryParseLiteral]. *)
Definition TryParseLiteral (host : bytes) : option DnsResult :=
  match inet_pton4 (c_str host) with
  | Some v4 => Some (dns_success [SockIn v4])
  | None =>
      match inet_pton6 (c_str host) with
      | Some v6 => Some (dns_success [SockIn6 v6])
      | None => None
      end
  end.

(** [_ResolveViaSystem]; the TTL it reports is always 60. *)
Definition ResolveViaSystem (host : bytes) (cfg : DnsConfig) : DnsResult * Z :=
  match getaddrinfo (c_str host) with
  | inr e => (dns_failure BC_R_DNS_FAILED [MsgGai e], 60)
  | inl entries =>
      let usable e := match ai_addr e with
                      | SockOther _ => false
                      | _ => ai_addrlen e <=? sizeof_sockaddr_type
                      end in
      match map ai_addr (List.filter usable entries) with
      | [] => (dns_failure BC_R_DNS_FAILED [MsgGaiEmpty], 60)
      | addrs => (dns_success (SortAddrs addrs (cfg_preferIpv6 cfg)), 60)
      end
  end.

Definition pin_request (cfg : DnsConfig) (fd : Z) (isV6 : bool) : TTPinRequest :=
  {| req_fd := fd; req_ifIndex := cfg_ifIndex cfg;
     req_androidNetHandle := cfg_androidNetHandle cfg; req_ipv6 := isV6;
     req_isTcp := false; req_policy := cfg_policy cfg |}.

(** Whether a pin outcome lets the query go out. *)
Definition pin_acceptable (policy : TTVpnPolicy) (r : TTPinResult) : bool :=
  if decide (policy = TT_VPN_POLICY_FORCE_PHYSICAL) then bool_decide (r = TT_PIN_OK)
  else bool_decide (r = TT_PIN_OK) || bool_decide (r = TT_PIN_NOT_NEEDED).

(** The state the receive loop starts in: an unsent query is not waited for. *)
Definition udp_start (n : server_net) : udp_state :=
  {| gotA := negb (sn_sentA n); gotAAAA := negb (sn_sentAAAA n); gathered := [];
     us_minTtl := 0; us_haveTtl := false; serverErr := None; graceDeadline := None |}.

(** The two transaction ids: equal draws are told apart. *)
Definition txids (n : server_net) : Z * Z :=
  (sn_txidA n,
   if sn_txidAAAA n =? sn_txidA n then Z.lxor (sn_txidAAAA n) 1 else sn_txidAAAA n).

(** The server loop of [_ResolveViaUdp]; [s] numbers the servers, [aggregateErr]
    is the error so far. The result and [outTtl]; [None] when a receive loop is
    still waiting. *)
Fixpoint udp_servers (host : bytes) (cfg : DnsConfig) (servers : list bytes) (s : nat)
    (aggregateErr : list dns_msg) : option (DnsResult * Z) :=
  match servers with
  | [] =>
      Some (dns_failure BC_R_FAILURE
              (if bool_decide (aggregateErr = []) then [MsgNoServer] else aggregateErr), 60)
  | server :: rest =>
      let n := net s in
      let next e := udp_servers host cfg rest (S s) (aggregateErr ++ [e]) in
      match (match inet_pton4 (c_str server) with
             | Some _ => Some false
             | None => match inet_pton6 (c_str server) with
                       | Some _ => Some true | None => None end
             end) with
      | None => next (MsgNotServerIp server)
      | Some isV6 =>
          if sn_socket n <? 0 then next (MsgSocketFailed server)
          else
            let pin := tt_socket_pin os if_indextoname api_level have_setsocknetwork pf
                         (Some (pin_request cfg (sn_socket n) isV6)) 32 in
            if negb (pin_acceptable (cfg_policy cfg) (po_result pin)) then
              Some (dns_failure BC_R_FAILURE
                      (aggregateErr ++ [MsgPinFailed server (po_result pin) (po_errno pin)]), 60)
            else if negb (sn_connect n (cfg_serverPort cfg)) then next (MsgConnectFailed server)
            else
              let '(txidA, txidAAAA) := txids n in
              let deadline := sn_start n + cfg_timeoutMs cfg * ns_per_ms in
              st ← udp_loop host txidA txidAAAA deadline (cfg_secondAnswerGraceMs cfg)
                     (udp_start n) (sn_events n);
              if bool_decide (gathered st = []) then
                next (match serverErr st with
                      | None => MsgNoAnswer server
                      | Some e => MsgServer server e
                      end)
              else
                Some (dns_success (SortAddrs (gathered st) (cfg_preferIpv6 cfg)),
                      if us_haveTtl st then us_minTtl st else 60)
      end
  end.

(** [_ResolveViaUdp]. *)
Definition ResolveViaUdp (host : bytes) (cfg : DnsConfig) : option (DnsResult * Z) :=
  if bool_decide (BuildQuery host 1 0 = []) then Some (dns_failure BC_R_FAILURE [MsgBadHost], 60)
  else
    let servers := if bool_decide (cfg_servers cfg = []) then kDefaultServers
                   else cfg_servers cfg in
    udp_servers host cfg servers 0 [].

Definition with_ifindex (cfg : DnsConfig) (i : Z) : DnsConfig :=
  {| cfg_policy := cfg_policy cfg; cfg_ifIndex := i;
     cfg_androidNetHandle := cfg_androidNetHandle cfg; cfg_servers := cfg_servers cfg; cfg_serverPort := cfg_serverPort cfg;
     cfg_timeoutMs := cfg_timeoutMs cfg;
     cfg_secondAnswerGraceMs := cfg_secondAnswerGraceMs cfg;
     cfg_preferIpv6 := cfg_preferIpv6 cfg |}.

Definition with_policy (cfg : DnsConfig) (p : TTVpnPolicy) : DnsConfig :=
  {| cfg_policy := p; cfg_ifIndex := cfg_ifIndex cfg;
     cfg_androidNetHandle := cfg_androidNetHandle cfg; cfg_servers := cfg_servers cfg; cfg_serverPort := cfg_serverPort cfg;
     cfg_timeoutMs := cfg_timeoutMs cfg;
     cfg_secondAnswerGraceMs := cfg_secondAnswerGraceMs cfg;
     cfg_preferIpv6 := cfg_preferIpv6 cfg |}.

(** The configuration [Resolve] works with: the policy defaulted and, when a
    path monitor is compiled in, a missing interface filled in. *)
Definition effective_cfg (cfgIn : DnsConfig) : DnsConfig :=
  let cfg := if decide (cfg_policy cfgIn = TT_VPN_POLICY_UNSET)
             then with_policy cfgIn (tt_vpn_policy_platform_default ios_target) else cfgIn in
  match path_monitor with
  | Some query =>
      if negb (bool_decide (cfg_policy cfg = TT_VPN_POLICY_OS)) && (cfg_ifIndex cfg =? 0) then
        let detected := query (cfg_policy cfg) in
        if 0 <? detected then with_ifindex cfg (u32 detected) else cfg
      else cfg
  | None => cfg
  end.

Definition have_interface (cfg : DnsConfig) : bool :=
  negb (cfg_ifIndex cfg =? 0)
  || (bool_decide (pf = OS_ANDROID) && negb (cfg_androidNetHandle cfg =? 0)).

(** The query of [Resolve] after a cache miss: the result, the TTL and whether
    it came from the fallback. *)
Definition query_once (host : bytes) (cfg : DnsConfig) : option (DnsResult * Z * bool) :=
  match cfg_policy cfg with
  | TT_VPN_POLICY_OS =>
      let '(r, ttl) := ResolveViaSystem host cfg in Some (r, ttl, false)
  | p =>
      '(r, ttl) ← ResolveViaUdp host cfg;
      if r_result r =? BC_R_SUCCESS then Some (r, ttl, false)
      else if decide (p = TT_VPN_POLICY_FORCE_PHYSICAL) then
        Some ({| r_result := BC_R_DNS_FAILED; r_addrs := r_addrs r; r_err := r_err r |}, ttl, true)
      else
        let '(r', ttl') := ResolveViaSystem host cfg in Some (r', ttl', true)
  end.

(** [DnsResolver::Resolve]: [t1] and [t2] are the clock at the cache lookup and
    at the store. *)
Definition Resolve (cache : dns_cache) (t1 t2 : Z) (host : bytes) (cfgIn : DnsConfig)
    : option (DnsResult * dns_cache) :=
  match TryParseLiteral host with
  | Some literal => Some (literal, cache)
  | None =>
      let cfg := effective_cfg cfgIn in
      if bool_decide (cfg_policy cfg = TT_VPN_POLICY_FORCE_PHYSICAL)
         && negb (have_interface cfg) then
        Some (dns_failure BC_R_NO_PHYSICAL_INTERFACE [MsgNoPhysical], cache)
      else
        let key := CacheKey host (cfg_policy cfg) (cfg_ifIndex cfg) in
        match CacheLookup cache t1 key with
        | (Some cached, cache) => Some (cached, cache)
        | (None, cache) =>
            '(r, ttl, usedFallback) ← query_once host cfg;
            Some (r, if negb usedFallback && (r_result r =? BC_R_SUCCESS)
                        && negb (bool_decide (r_addrs r = []))
                     then CacheStore cache t2 key (r_addrs r) ttl else cache)
        end
  end.
End Resolver.

(** ** Address order lemmas *)

(** The addresses of the preferred family come first, both in their given order. *)
Definition family_partition (preferIpv6 : bool) (l : list sockaddr) : list sockaddr :=
  List.filter (fun a => Bool.eqb (is_v6 a) preferIpv6) l
  ++ List.filter (fun a => negb (Bool.eqb (is_v6 a) preferIpv6)) l.

Lemma stable_insert_partition p x l :
  stable_insert (addr_before p) x (family_partition p l) = family_partition p (x :: l).
Proof.
  unfold family_partition. cbn [List.filter].
  set (A := List.filter (fun a => Bool.eqb (is_v6 a) p) l).
  set (B := List.filter (fun a => negb (Bool.eqb (is_v6 a) p)) l).
  assert (HA : Forall (fun a => is_v6 a = p) A).
  { apply Forall_forall. intros a [_ Ha]%list_elem_of_In%filter_In. by apply eqb_prop. }
  assert (HB : Forall (fun a => is_v6 a = negb p) B).
  { apply Forall_forall. intros a [_ Ha]%list_elem_of_In%filter_In.
    destruct (is_v6 a), p; done. }
  clearbody A B. destruct (Bool.eqb (is_v6 x) p) eqn:Ex; cbn [negb app].
  - apply eqb_prop in Ex. destruct (A ++ B) as [|y l'] eqn:E; cbn; [done|].
    assert (addr_before p y x = false) as ->; [|done].
    unfold addr_before. rewrite Ex. by destruct (is_v6 y), p.
  - induction HA as [|a A Ha _ IH]; cbn.
    + destruct HB as [|b B Hb _]; cbn; [done|]. unfold addr_before.
      rewrite Hb. destruct (is_v6 x), p; done.
    + assert (addr_before p a x = true) as ->;
        [|by rewrite IH].
      unfold addr_before. rewrite Ha. by destruct (is_v6 x), p.
Qed.

Lemma SortAddrs_partition l p : SortAddrs l p = family_partition p l.
Proof.
  induction l as [|x l IH]; [done|].
  change (SortAddrs (x :: l) p) with (stable_insert (addr_before p) x (SortAddrs l p)).
  by rewrite IH, stable_insert_partition.
Qed.

Lemma stable_insert_perm {A} (lt : A -> A -> bool) x k : stable_insert lt x k ≡ₚ x :: k.
Proof.
  induction k as [|y k IH]; cbn; [done|]. case_match; [|done].
  rewrite IH. apply perm_swap.
Qed.

Lemma SortAddrs_perm l p : SortAddrs l p ≡ₚ l.
Proof.
  unfold SortAddrs. induction l as [|x l IH]; [done|].
  etrans; [apply stable_insert_perm|]. by apply perm_skip.
Qed.

(** ** Cache keys *)

Lemma to_string_no_bar z : 124 ∉ to_string z.
Proof.
  assert (Hd : forall n, 0 <= n -> 124 ∉ dec_text n).
  { intros n Hn Hin. pose proof (dec_text_range n Hn) as Hr.
    eapply Forall_forall in Hr; [|exact Hin]. cbn in Hr. lia. }
  unfold to_string. zcase; [|apply Hd; lia].
  apply not_elem_of_cons. split; [done|]. apply Hd. lia.
Qed.

Lemma to_string_inj a b : in_word 32 a -> in_word 32 b -> to_string a = to_string b -> a = b.
Proof.
  intros Ha Hb. unfold to_string. rewrite !(proj2 (Z.ltb_ge _ _)) by word_lia.
  intros H. apply (f_equal dec_val) in H.
  rewrite !dec_val_dec_text in H by word_lia. done.
Qed.

(** The text after the last separator is determined. *)
Lemma split_last_sep (c : Z) a b x y :
  c ∉ x -> c ∉ y -> a ++ c :: x = b ++ c :: y -> a = b /\ x = y.
Proof.
  intros Hx Hy. revert b. induction a as [|h a IH]; intros [|h' b] E; cbn in E.
  - by injection E as ->.
  - injection E as <- ->. exfalso. apply Hx. set_solver.
  - injection E as -> <-. exfalso. clear IH. apply Hy. set_solver.
  - injection E as -> E. destruct (IH _ E) as [-> ->]. done.
Qed.

Lemma CacheKey_eq h p i h' p' i' :
  CacheKey h p i = CacheKey h' p' i' -> h = h' /\ p = p' /\ to_string i = to_string i'.
Proof.
  unfold CacheKey. change (str "|") with [124]. rewrite !app_assoc.
  intros E. rewrite <- !(app_assoc _ [124]) in E. cbn [app] in E.
  apply split_last_sep in E as [E Ei]; [|apply to_string_no_bar..].
  apply split_last_sep in E as [E Ep]; [|apply to_string_no_bar..].
  repeat split; [done| |done]. by destruct p, p'.
Qed.

(** ** The receive loop *)

(** Some packet among [evs] is an accepted answer, with id [txidA] or [txidAAAA],
    that lists [a]. *)
Definition answered_by (host : bytes) (txidA txidAAAA : Z) (evs : list udp_event)
    (a : sockaddr) : Prop :=
  exists ev buf addrs ttl txid, ev ∈ evs /\ ev_poll ev = PollData (Some buf) /\
    (txid = txidA \/ txid = txidAAAA) /\
    ParseResponse (Some buf) txid [] 0 host = Some (Parsed addrs ttl) /\ a ∈ addrs.

Definition packet_ok (ev : udp_event) : Prop :=
  match ev_poll ev with PollData (Some buf) => bytes_ok buf | _ => True end.

#[global] Instance packet_ok_dec ev : Decision (packet_ok ev).
Proof. unfold packet_ok. destruct (ev_poll ev) as [| | |[|]]; apply _. Defined.

Section Loop.
Context (host : bytes) (txidA txidAAAA deadline graceMs : Z).

Lemma take_answer_gathered st isA r a :
  a ∈ gathered (take_answer st isA r) ->
  a ∈ gathered st \/ exists addrs ttl, r = Parsed addrs ttl /\ a ∈ addrs.
Proof.
  destruct r; cbn; [|by left]. rewrite elem_of_app. intros [H | H]; eauto.
Qed.

Lemma maybe_arm_gathered now st : gathered (maybe_arm graceMs now st) = gathered st.
Proof. unfold maybe_arm. by repeat case_match. Qed.

Lemma timeout_gathered st :
  gathered (match graceDeadline st with None => with_err st SrvTimeout | Some _ => st end)
  = gathered st.
Proof. by destruct (graceDeadline st). Qed.

Lemma udp_iter_answers st ev s :
  udp_iter host txidA txidAAAA deadline graceMs st ev = Some s ->
  forall a, a ∈ gathered (match s with Continue st' | Break st' => st' end) ->
  a ∈ gathered st \/ answered_by host txidA txidAAAA [ev] a.
Proof.
  unfold udp_iter. rewrite <- (maybe_arm_gathered (ev_now ev) st).
  generalize (maybe_arm graceMs (ev_now ev) st) as st1. intros st1 E a Ha.
  assert (Hans : forall txid isA buf r, ev_poll ev = PollData (Some buf) ->
     (txid = txidA \/ txid = txidAAAA) -> ParseResponse (Some buf) txid [] 0 host = Some r ->
     s = Continue (take_answer st1 isA r) ->
     a ∈ gathered st1 \/ answered_by host txidA txidAAAA [ev] a).
  { intros txid isA buf r Hp Ht Hr ->.
    apply take_answer_gathered in Ha as [H | (addrs & ttl & -> & H)]; [by left|].
    right. exists ev, buf, addrs, ttl, txid. repeat split; try done. by left. }
  destruct (_ <=? ev_now ev); [simplify_eq; left; by rewrite timeout_gathered in Ha|].
  destruct (ev_poll ev) as [| | |[buf|]] eqn:Hp; simplify_eq; try (by left).
  { left; by rewrite timeout_gathered in Ha. }
  destruct (if 2 <=? zlen buf then _ else _) as [h|]; [cbn [mbind option_bind] in E|done].
  destruct (negb (gotA st1) && _); [|destruct (negb (gotAAAA st1) && _)];
    [destruct (ParseResponse _ _ _ _ _) eqn:Hr; simplify_eq/=; eauto..|].
  simplify_eq. by left.
Qed.

Lemma udp_loop_answers evs st st' :
  udp_loop host txidA txidAAAA deadline graceMs st evs = Some st' ->
  forall a, a ∈ gathered st' -> a ∈ gathered st \/ answered_by host txidA txidAAAA evs a.
Proof.
  assert (Hmono : forall evs evs' a, evs ⊆ evs' ->
    answered_by host txidA txidAAAA evs a -> answered_by host txidA txidAAAA evs' a).
  { intros l l' a Hl (ev & buf & addrs & ttl & txid & Hin & Hrest).
    exists ev, buf, addrs, ttl, txid. split; [by apply Hl|done]. }
  revert st. induction evs as [|ev evs IH]; intros st; cbn;
    (destruct (gotA st && gotAAAA st); [intros [= <-]; by left|]); [done|].
  destruct (udp_iter _ _ _ _ _ _ _) as [s|] eqn:Ei; [|done]. cbn.
  pose proof (udp_iter_answers _ _ _ Ei) as Hi. destruct s as [st1|st1]; cbn in Hi.
  - intros Hl a Ha. destruct (IH _ Hl a Ha) as [H1 | H1].
    + destruct (Hi a H1) as [? | H2]; [by left|right]. eapply Hmono; [|exact H2]. by intros x ->%list_elem_of_singleton; left.
    + right. eapply Hmono; [|exact H1]. by intros x Hx; right.
  - intros [= <-] a Ha. destruct (Hi a Ha) as [? | H2]; [by left|right].
    eapply Hmono; [|exact H2]. by intros x ->%list_elem_of_singleton; left.
Qed.

Lemma udp_iter_total st ev :
  packet_ok ev ->
  let st1 := maybe_arm graceMs (ev_now ev) st in
  exists s, udp_iter host txidA txidAAAA deadline graceMs st ev = Some s /\
    match s with
    | Continue st' => ev_now ev < effective_deadline deadline st1 /\
        graceDeadline st' = graceDeadline st1 /\ (gathered st <> [] -> gathered st' <> [])
    | Break st' => gathered st' = gathered st
    end.
Proof.
  intros Hev st1. unfold udp_iter. fold st1.
  assert (Hg : gathered st1 = gathered st) by apply maybe_arm_gathered.
  clearbody st1. rewrite <- Hg. clear Hg.
  destruct (Z.leb_spec (effective_deadline deadline st1) (ev_now ev));
    [eexists; split; [done|]; apply timeout_gathered|].
  unfold packet_ok in Hev.
  destruct (ev_poll ev) as [| | |[buf|]]; try by (eexists; split; [done|]; try split).
  { eexists; split; [done|]. apply timeout_gathered. }
  assert (exists h, (if 2 <=? zlen buf then ReadU16 buf 0 else Some 0) = Some h) as [h ->].
  { zcase; [|eauto]. destruct (ReadU16_total buf 0) as (v & -> & _); eauto; lia. }
  cbn [mbind option_bind].
  assert (Htake : forall isA txid, exists s,
    (r ← ParseResponse (Some buf) txid [] 0 host; Some (Continue (take_answer st1 isA r))) = Some s
    /\ match s with
       | Continue st' => ev_now ev < effective_deadline deadline st1 /\
          graceDeadline st' = graceDeadline st1 /\ (gathered st1 <> [] -> gathered st' <> [])
       | Break st' => gathered st' = gathered st1
       end).
  { intros isA txid. destruct (ParseResponse_total buf txid [] 0 host Hev) as [r ->].
    eexists; split; [done|]. split; [done|].
    destruct r; cbn; (split; [done|]); [|done]. by intros ? [? ?]%app_nil. }
  destruct (negb (gotA st1) && _); [apply Htake|].
  destruct (negb (gotAAAA st1) && _); [apply Htake|]. by eexists; split; [done|].
Qed.

Lemma effective_deadline_arm now st :
  effective_deadline deadline (maybe_arm graceMs now st)
  <= match graceDeadline st with
     | Some g => Z.min g deadline
     | None => if bool_decide (gathered st = []) then deadline
               else Z.min (now + graceMs * ns_per_ms) deadline
     end.
Proof.
  unfold effective_deadline, maybe_arm. destruct (graceDeadline st) eqn:E.
  - cbn. rewrite E. zcase; lia.
  - cbn. destruct (bool_decide _); cbn; [rewrite E; lia|]. zcase; lia.
Qed.

(** A turn that starts at or after both limits is the last one. *)
Lemma udp_loop_stops evs ev evs' st lim :
  Forall packet_ok (evs ++ [ev]) -> lim <= ev_now ev ->
  lim = deadline \/ (exists g, graceDeadline st = Some g /\ g <= lim) ->
  exists st', udp_loop host txidA txidAAAA deadline graceMs st (evs ++ ev :: evs') = Some st' /\
    (gathered st <> [] -> gathered st' <> []).
Proof.
  intros Hok Hlim. revert st. induction evs as [|e evs IH]; intros st Hst; cbn;
    (destruct (gotA st && gotAAAA st); [by eauto|]).
  - apply Forall_inv in Hok.
    destruct (udp_iter_total st ev Hok) as (s & -> & Hs). cbn.
    destruct s as [st'|st']; [|eexists; split; [done|]; by rewrite Hs].
    destruct Hs as [Hs _]. pose proof (effective_deadline_arm (ev_now ev) st) as Ha.
    destruct Hst as [-> | (g & Eg & Hg)]; [|rewrite Eg in Ha; lia].
    destruct (graceDeadline st); [lia|]. case_match; lia.
  - apply Forall_cons_1 in Hok as [He Hok].
    destruct (udp_iter_total st e He) as (s & -> & Hs). cbn.
    destruct s as [st'|st']; [|eexists; split; [done|]; by rewrite Hs].
    destruct Hs as (_ & Hg & Hne). destruct (IH Hok st') as (st2 & -> & H2);
      [|by eauto]. destruct Hst as [-> | (g & Eg & Hle)]; [by left|right].
    exists g. split; [|done]. rewrite Hg. unfold maybe_arm. by rewrite Eg.
Qed.
End Loop.

(** ** The cache across a run *)

(** A call of [Resolve] and what the environment answers during it; the path monitor may see
    another interface at each call. *)
Record dns_call := {
  dc_t1 : Z; dc_t2 : Z; dc_host : bytes; dc_cfg : DnsConfig;
  dc_net : nat -> server_net; dc_gai : bytes -> list gai_entry + Z;
  dc_monitor : option (TTVpnPolicy -> Z)
}.

(** Caches that agree on every key of a policy other than [OS]. *)
Definition agree_off_os (c1 c2 : dns_cache) : Prop :=
  forall h p i, p <> TT_VPN_POLICY_OS -> c1 !! CacheKey h p i = c2 !! CacheKey h p i.

#[global] Instance agree_off_os_equiv : Equivalence agree_off_os.
Proof.
  split.
  - by intros c h p i Hp.
  - intros c1 c2 H h p i Hp. symmetry. by apply H.
  - intros c1 c2 c3 H1 H2 h p i Hp. by rewrite (H1 h p i Hp), (H2 h p i Hp).
Qed.

#[global] Instance CacheStore_proper now key addrs ttl :
  Proper (agree_off_os ==> agree_off_os) (fun c => CacheStore c now key addrs ttl).
Proof.
  intros c1 c2 Hc h p i Hp. unfold CacheStore.
  destruct (decide (key = CacheKey h p i)) as [-> | Hk].
  - by rewrite !lookup_insert_eq.
  - rewrite !lookup_insert_ne by done. by apply Hc.
Qed.

#[global] Instance delete_agree_proper key :
  Proper (agree_off_os ==> agree_off_os) (fun c : dns_cache => delete key c).
Proof.
  intros c1 c2 Hc h p i Hp. destruct (decide (key = CacheKey h p i)) as [-> | Hk].
  - by rewrite !lookup_delete_eq.
  - rewrite !lookup_delete_ne by done. by apply Hc.
Qed.

(** An [OS] key is off the other policies' entries. *)
Lemma agree_store_os c h i now addrs ttl :
  agree_off_os (CacheStore c now (CacheKey h TT_VPN_POLICY_OS i) addrs ttl) c.
Proof.
  intros h' p' i' Hp. unfold CacheStore.
  rewrite lookup_insert_ne; [done|]. by intros (_ & <- & _)%CacheKey_eq.
Qed.

Lemma agree_lookup_os c h i now :
  agree_off_os (CacheLookup c now (CacheKey h TT_VPN_POLICY_OS i)).2 c.
Proof.
  unfold CacheLookup. repeat case_match; try done. intros h' p' i' Hp.
  cbn. rewrite lookup_delete_ne; [done|]. by intros (_ & <- & _)%CacheKey_eq.
Qed.

Lemma agree_lookup c1 c2 h p i now :
  agree_off_os c1 c2 -> p <> TT_VPN_POLICY_OS ->
  (CacheLookup c1 now (CacheKey h p i)).1 = (CacheLookup c2 now (CacheKey h p i)).1 /\
  agree_off_os (CacheLookup c1 now (CacheKey h p i)).2 (CacheLookup c2 now (CacheKey h p i)).2.
Proof.
  intros Hc Hp. unfold CacheLookup. rewrite (Hc h p i Hp).
  repeat case_match; cbn; try done. split; [done|]. by apply delete_agree_proper.
Qed.

Section ResolverFacts.
Context (inet_pton4 inet_pton6 : bytes -> option bytes).
Context (os : os_call -> Z) (if_indextoname : Z -> option bytes).
Context (api_level : Z) (have_setsocknetwork : bool) (pf : platform).
Context (sizeof_sockaddr_type : Z).
Context (ios_target : bool) (path_monitor : option (TTVpnPolicy -> Z)).

Abbreviation eff := (effective_cfg ios_target path_monitor).
Abbreviation resolve_on monitor gai net :=
  (Resolve inet_pton4 inet_pton6 os if_indextoname api_level have_setsocknetwork pf
     sizeof_sockaddr_type gai net ios_target monitor).
Abbreviation resolve gai net := (resolve_on path_monitor gai net).
Abbreviation query gai net :=
  (query_once inet_pton4 inet_pton6 os if_indextoname api_level have_setsocknetwork pf
     sizeof_sockaddr_type gai net).
Abbreviation servers net :=
  (udp_servers inet_pton4 inet_pton6 os if_indextoname api_level have_setsocknetwork pf net).

Definition run_call (c : dns_call) (cache : dns_cache) : option (DnsResult * dns_cache) :=
  resolve_on (dc_monitor c) (dc_gai c) (dc_net c) cache (dc_t1 c) (dc_t2 c) (dc_host c) (dc_cfg c).

Fixpoint run_calls (cache : dns_cache) (cs : list dns_call) : option (list DnsResult) :=
  match cs with
  | [] => Some []
  | c :: cs' =>
      '(r, cache') ← run_call c cache;
      rs ← run_calls cache' cs';
      Some (r :: rs)
  end.

Definition is_force (c : dns_call) : bool :=
  bool_decide (cfg_policy (effective_cfg ios_target (dc_monitor c) (dc_cfg c)) = TT_VPN_POLICY_FORCE_PHYSICAL).

(** The same call, up to what the system resolver answers. *)
Definition same_but_gai (c c' : dns_call) : Prop :=
  dc_t1 c = dc_t1 c' /\ dc_t2 c = dc_t2 c' /\ dc_host c = dc_host c' /\
  dc_cfg c = dc_cfg c' /\ dc_net c = dc_net c' /\ dc_monitor c = dc_monitor c'.

(** Off the [OS] policy, what is stored does not depend on the system resolver. *)
Lemma query_once_gai gai1 gai2 net host cfg r1 ttl1 fb1 r2 ttl2 fb2 :
  cfg_policy cfg <> TT_VPN_POLICY_OS ->
  query gai1 net host cfg = Some (r1, ttl1, fb1) ->
  query gai2 net host cfg = Some (r2, ttl2, fb2) ->
  fb1 = fb2 /\ (fb1 = false \/ cfg_policy cfg = TT_VPN_POLICY_FORCE_PHYSICAL ->
                r1 = r2 /\ ttl1 = ttl2).
Proof.
  intros Hp. unfold query_once. destruct (cfg_policy cfg) eqn:Ep; [|done|..];
    (destruct (ResolveViaUdp _ _ _ _ _ _ _ _ _ _) as [[r ttl]|]; [|done]); cbn;
    (destruct (r_result r =? BC_R_SUCCESS); [intros [= <- <- <-] [= <- <- <-]; done|]);
    (case_decide; [by intros [= <- <- <-] [= <- <- <-]|]);
    destruct (ResolveViaSystem _ gai1 _ _), (ResolveViaSystem _ gai2 _ _);
    intros [= <- <- <-] [= <- <- <-]; (split; [done|by intros [?|?]]).
Qed.

Lemma run_call_agree c c' cache cache' r r' k k' :
  same_but_gai c c' -> agree_off_os cache cache' ->
  run_call c cache = Some (r, k) -> run_call c' cache' = Some (r', k') ->
  agree_off_os k k' /\ (is_force c = true -> r = r').
Proof.
  intros (E1 & E2 & E3 & E4 & E5 & E6) Hag. unfold run_call, Resolve, is_force.
  rewrite <- E1, <- E2, <- E3, <- E4, <- E5, <- E6.
  destruct (TryParseLiteral _ _ _) as [l|]; [by intros [= <- <-] [= <- <-]|].
  set (cfg := effective_cfg ios_target (dc_monitor c) (dc_cfg c)). destruct (_ && negb (have_interface _ _));
    [by intros [= <- <-] [= <- <-]|].
  destruct (decide (cfg_policy cfg = TT_VPN_POLICY_OS)) as [Ep|Ep].
  - rewrite Ep. set (key := CacheKey _ _ _). intros H1 H2. split; [|done].
    assert (Hos : forall gai ca ra ka,
      match CacheLookup ca (dc_t1 c) key with
      | (Some cached, ca') => Some (cached, ca')
      | (None, ca') =>
          '(r, ttl, fb) ← query gai (dc_net c) (dc_host c) cfg;
          Some (r, if negb fb && (r_result r =? BC_R_SUCCESS)
                      && negb (bool_decide (r_addrs r = []))
                   then CacheStore ca' (dc_t2 c) key (r_addrs r) ttl else ca')
      end = Some (ra, ka) -> agree_off_os ka ca).
    { intros gai ca ra ka. pose proof (agree_lookup_os ca (dc_host c) (cfg_ifIndex cfg) (dc_t1 c)) as Hl.
      fold key in Hl. destruct (CacheLookup ca (dc_t1 c) key) as [[cached|] ca']; cbn in Hl;
        [by intros [= <- <-]|].
      destruct (query gai (dc_net c) (dc_host c) cfg) as [[[r0 ttl0] fb0]|]; [|done]. cbn. intros [= <- <-].
      destruct (negb fb0 && _ && _); [|done]. etrans; [apply agree_store_os|done]. }
    rewrite (Hos _ _ _ _ H1), (Hos _ _ _ _ H2). done.
  - set (key := CacheKey _ _ _).
    destruct (agree_lookup _ _ (dc_host c) _ (cfg_ifIndex cfg) (dc_t1 c) Hag Ep) as [Hf Hs].
    fold key in Hf, Hs. destruct (CacheLookup cache _ _) as [o1 ca1], (CacheLookup cache' _ _) as [o2 ca2].
    cbn in Hf, Hs. subst o2. destruct o1 as [cached|]; [by intros [= <- <-] [= <- <-]|].
    destruct (query (dc_gai c) (dc_net c) (dc_host c) cfg) as [[[r1 ttl1] fb1]|] eqn:Q1; [|done].
    destruct (query (dc_gai c') (dc_net c) (dc_host c) cfg) as [[[r2 ttl2] fb2]|] eqn:Q2; [|done].
    destruct (query_once_gai _ _ _ _ _ _ _ _ _ _ _ Ep Q1 Q2) as [<- Hr]. cbn.
    intros [= <- <-] [= <- <-]. split.
    + destruct fb1; cbn; [done|]. destruct Hr as [<- <-]; [by left|].
      destruct (_ && _); [|done]. by apply CacheStore_proper.
    + intros Hf%bool_decide_eq_true. apply Hr. by right.
Qed.

(** C33: a force-physical resolution never leaks to the system resolver, not even
    through the shared cache. Take any sequence of [Resolve] calls of mixed
    policies on the process-wide cache, with any answers of the network and the path
    monitor, and the same sequence with every answer of [getaddrinfo] replaced: every call whose effective policy is
    force-physical returns the same result in both. *)
Theorem force_physical_ignores_system_resolver (cs cs' : list dns_call)
    (cache : dns_cache) (rs rs' : list DnsResult) :
  Forall2 same_but_gai cs cs' ->
  run_calls cache cs = Some rs -> run_calls cache cs' = Some rs' ->
  forall i c, cs !! i = Some c -> is_force c = true -> rs !! i = rs' !! i.
Proof.
  intros Hcs. assert (Hag : agree_off_os cache cache) by done.
  revert Hag. generalize cache at 2 4. revert cache rs rs'.
  induction Hcs as [|c c' cs cs' Hc Hcs IH]; intros k rs rs' k' Hag; [by intros [= <-] [= <-]|].
  cbn. destruct (run_call c k) as [[r k1]|] eqn:R1; [|done].
  destruct (run_call c' k') as [[r' k1']|] eqn:R2; [|done]. cbn.
  destruct (run_calls k1 cs) as [rs1|] eqn:T1; [|done].
  destruct (run_calls k1' cs') as [rs1'|] eqn:T2; [|done].
  intros [= <-] [= <-]. destruct (run_call_agree _ _ _ _ _ _ _ _ Hc Hag R1 R2) as [Hag' Hr].
  intros [|i] c0; cbn; [|by eapply IH]. intros [= <-] Hf. by rewrite Hr.
Qed.

(** What [udp_servers] needs of a server for its answer to count. *)
Definition server_answered (net : nat -> server_net) (host : bytes) (cfg : DnsConfig)
    (addrs : list sockaddr) (s : nat) : Prop :=
  exists isV6, pin_acceptable (cfg_policy cfg) (po_result
      (tt_socket_pin os if_indextoname api_level have_setsocknetwork pf
         (Some (pin_request cfg (sn_socket (net s)) isV6)) 32)) = true /\
    forall a, a ∈ addrs ->
      answered_by host (txids (net s)).1 (txids (net s)).2 (sn_events (net s)) a.

Lemma udp_servers_success net host cfg srvs s e r ttl :
  servers net host cfg srvs s e = Some (r, ttl) -> r_result r = BC_R_SUCCESS ->
  r_addrs r <> [] /\ (exists l, r_addrs r = SortAddrs l (cfg_preferIpv6 cfg)) /\
  exists s', server_answered net host cfg (r_addrs r) s'.
Proof.
  revert s e. induction srvs as [|server rest IH]; intros s e; cbn [udp_servers];
    [by intros [= <- <-]|].
  destruct (match inet_pton4 _ with Some _ => _ | None => _ end) as [isV6|]; [|apply IH].
  zcase; [apply IH|]. destruct (pin_acceptable _ _) eqn:Hp; cbn [negb]; [|by intros [= <- <-]].
  destruct (sn_connect _ _); cbn [negb]; [|apply IH].
  destruct (txids (net s)) as [txidA txidAAAA] eqn:Ht.
  destruct (udp_loop _ _ _ _ _ _ _) as [st|] eqn:Hl; [|done]. cbn [mbind option_bind].
  case_bool_decide as Hg; [apply IH|]. intros [= <- <-] _. cbn.
  pose proof (SortAddrs_perm (gathered st) (cfg_preferIpv6 cfg)) as HP. split; [|split].
  - intros E. rewrite E in HP. by apply Permutation_nil_l in HP.
  - by eexists.
  - exists s, isV6. split; [done|]. intros a Ha. rewrite HP in Ha. rewrite Ht.
    by destruct (udp_loop_answers _ _ _ _ _ _ _ _ Hl a Ha) as [?%not_elem_of_nil|].
Qed.

(** What the built-in resolver returns comes from accepted answers on a pinned
    socket. On success, some server's socket was pinned as the policy demands
    (force-physical accepts nothing but a pin that took), every address is listed
    in a packet from that socket that carries one of that query's two transaction
    ids and parses as a response for this host, the list is not empty, and the
    preferred family comes first with the order within a family kept. *)
Theorem ResolveViaUdp_authentic (net : nat -> server_net) (host : bytes) (cfg : DnsConfig)
    (r : DnsResult) (ttl : Z) :
  ResolveViaUdp inet_pton4 inet_pton6 os if_indextoname api_level have_setsocknetwork pf
    net host cfg = Some (r, ttl) -> r_result r = BC_R_SUCCESS ->
  r_addrs r <> [] /\
  (exists l, r_addrs r = family_partition (cfg_preferIpv6 cfg) l) /\
  exists s, server_answered net host cfg (r_addrs r) s.
Proof.
  unfold ResolveViaUdp. case_bool_decide; [by intros [= <- <-]|]. intros Hs Hr.
  destruct (udp_servers_success _ _ _ _ _ _ _ _ Hs Hr) as (? & [l El] & ?).
  split; [done|split; [|done]]. exists l. rewrite El. apply SortAddrs_partition.
Qed.

(** A fresh answer is cached for its TTL, clamped to 10 to 600 seconds, under
    its host, policy and interface. After a call that queried and succeeded without
    the fallback, a call with the same host, effective policy and interface
    returns exactly the stored addresses without asking the network, whatever its
    servers, family preference or Android network, until the expiry and not at or
    after it; lookups under any other host, policy or interface are unaffected. *)
Theorem Resolve_caches (net net' : nat -> server_net)
    (gai gai' : bytes -> list gai_entry + Z) (cache c0 : dns_cache)
    (t1 t2 t3 t4 ttl : Z) (host : bytes) (cfg cfg' : DnsConfig) (r : DnsResult) :
  TryParseLiteral inet_pton4 inet_pton6 host = None ->
  (cfg_policy (eff cfg) = TT_VPN_POLICY_FORCE_PHYSICAL ->
     have_interface pf (eff cfg) = true /\ have_interface pf (eff cfg') = true) ->
  cfg_policy (eff cfg') = cfg_policy (eff cfg) ->
  cfg_ifIndex (eff cfg') = cfg_ifIndex (eff cfg) ->
  let key := CacheKey host (cfg_policy (eff cfg)) (cfg_ifIndex (eff cfg)) in
  CacheLookup cache t1 key = (None, c0) ->
  query gai net host (eff cfg) = Some (r, ttl, false) ->
  r_result r = BC_R_SUCCESS -> r_addrs r <> [] ->
  let expiry := t2 + ClampTtl ttl * ns_per_s in
  exists c1, resolve gai net cache t1 t2 host cfg = Some (r, c1) /\
    10 <= ClampTtl ttl <= 600 /\
    (t3 < expiry -> resolve gai' net' c1 t3 t4 host cfg' = Some (dns_success (r_addrs r), c1)) /\
    (expiry <= t3 -> CacheLookup c1 t3 key = (None, delete key c1)) /\
    (forall h p i, in_word 32 i -> in_word 32 (cfg_ifIndex (eff cfg)) ->
       (h, p, i) <> (host, cfg_policy (eff cfg), cfg_ifIndex (eff cfg)) ->
       (CacheLookup c1 t3 (CacheKey h p i)).1 = (CacheLookup c0 t3 (CacheKey h p i)).1).
Proof.
  intros Hlit Hif Ep Ei key Hmiss Hq Hr Hne expiry.
  assert (Hguard : forall c, c = cfg \/ c = cfg' ->
    bool_decide (cfg_policy (eff c) = TT_VPN_POLICY_FORCE_PHYSICAL)
    && negb (have_interface pf (eff c)) = false).
  { intros c Hc. case_bool_decide as Hf; [|done].
    destruct Hif as [H1 H2]; [by destruct Hc as [-> | ->]; congruence|].
    by destruct Hc as [-> | ->]; rewrite ?H1, ?H2. }
  exists (CacheStore c0 t2 key (r_addrs r) ttl).
  split; [|split; [unfold ClampTtl; zcases|split; [|split]]].
  - unfold Resolve. rewrite Hlit, Hguard by by left. fold key. rewrite Hmiss, Hq. cbn.
    by rewrite Hr, bool_decide_false.
  - intros Ht. unfold Resolve. rewrite Hlit, Hguard by by right.
    rewrite Ep, Ei. fold key. unfold CacheLookup, CacheStore.
    rewrite lookup_insert_eq. cbn. by rewrite (proj2 (Z.leb_gt _ _)).
  - intros Ht. unfold CacheLookup, CacheStore. rewrite lookup_insert_eq. cbn.
    by rewrite (proj2 (Z.leb_le _ _)).
  - intros h p i Hi Hi' Hk. unfold CacheLookup, CacheStore.
    rewrite lookup_insert_ne; [by repeat case_match|].
    intros (<- & <- & E)%CacheKey_eq. apply Hk. f_equal. symmetry. by apply to_string_inj.
Qed.

(** The receive loop is bounded in time. On any packets it stops at the first
    turn that starts at or past the deadline, and, once it has an address and its
    grace timer runs, at the first turn that starts at or past the grace deadline,
    still holding an address: a missing second answer delays a result by at most
    the grace period. *)
Theorem udp_loop_bounded (host : bytes) (txidA txidAAAA deadline graceMs : Z)
    (st : udp_state) (evs evs' : list udp_event) (ev : udp_event) :
  Forall packet_ok (evs ++ [ev]) ->
  deadline <= ev_now ev \/ (exists g, graceDeadline st = Some g /\ g <= ev_now ev) ->
  exists st', udp_loop host txidA txidAAAA deadline graceMs st (evs ++ ev :: evs') = Some st' /\
    (gathered st <> [] -> gathered st' <> []).
Proof.
  intros Hok [Hd | (g & Eg & Hg)].
  - eapply (udp_loop_stops _ _ _ _ _ _ _ _ _ deadline); [done|done|by left].
  - eapply (udp_loop_stops _ _ _ _ _ _ _ _ _ g); [done|done|right; by exists g].
Qed.
End ResolverFacts.

(** ** Concrete runs *)

Module Example.
Definition inet4 (s : bytes) : option bytes :=
  if bytes_eqb s (str "8.8.8.8") then Some [8; 8; 8; 8] else None.
Definition inet6 (s : bytes) : option bytes := None.
Definition os (c : os_call) : Z := 0.
Definition ifname (i : Z) : option bytes := if i =? 2 then Some (str "en0") else None.
Definition gai (s : bytes) : list gai_entry + Z :=
  inl [{| ai_addr := SockIn [198; 18; 0; 1]; ai_addrlen := 16 |}].
Definition gai_down (s : bytes) : list gai_entry + Z := inr (-2).

(** An answer to the A query after 1 ms, then silence past the grace period. *)
Definition reply : bytes :=
  dns_response 7 (str "a.b") 1 [{| an_type := 1; an_ttl := 60; an_rdata := [1; 2; 3; 4] |}].
Definition events : list udp_event :=
  [{| ev_now := 1000000; ev_poll := PollData (Some reply) |};
   {| ev_now := 2000000; ev_poll := PollOther |};
   {| ev_now := 60000000; ev_poll := PollNothing |}].
Definition net (s : nat) : server_net :=
  {| sn_socket := 3; sn_connect := fun p => p =? 53; sn_txidA := 7; sn_txidAAAA := 9;
     sn_sentA := true; sn_sentAAAA := true; sn_start := 0; sn_events := events |}.

Definition config (p : TTVpnPolicy) (v6 : bool) : DnsConfig :=
  {| cfg_policy := p; cfg_ifIndex := 2; cfg_androidNetHandle := 0;
     cfg_servers := [str "bad"; str "8.8.8.8"]; cfg_serverPort := 53; cfg_timeoutMs := 1000;
     cfg_secondAnswerGraceMs := 50; cfg_preferIpv6 := v6 |}.

Definition call p g : dns_call :=
  {| dc_t1 := 0; dc_t2 := 5; dc_host := str "a.b"; dc_cfg := config p false;
     dc_net := net; dc_gai := g; dc_monitor := None |}.
Definition calls g : list dns_call :=
  [call TT_VPN_POLICY_OS g; call TT_VPN_POLICY_FORCE_PHYSICAL g].

Definition answer : DnsResult := dns_success [SockIn [1; 2; 3; 4]].
End Example.

Lemma force_physical_witness :
  let run := run_calls Example.inet4 Example.inet6 Example.os Example.ifname 30 true
               OS_LINUX 128 false in
  run ∅ (Example.calls Example.gai)
    = Some [dns_success [SockIn [198; 18; 0; 1]]; Example.answer] /\
  run ∅ (Example.calls Example.gai_down)
    = Some [dns_failure BC_R_DNS_FAILED [MsgGai (-2)]; Example.answer] /\
  [dns_success [SockIn [198; 18; 0; 1]]; Example.answer] !! 1%nat
  = [dns_failure BC_R_DNS_FAILED [MsgGai (-2)]; Example.answer] !! 1%nat.
Proof.
  split; [vm_compute; reflexivity|split; [vm_compute; reflexivity|]].
  apply (force_physical_ignores_system_resolver Example.inet4 Example.inet6 Example.os
           Example.ifname 30 true OS_LINUX 128 false
           (Example.calls Example.gai) (Example.calls Example.gai_down) ∅)
    with (c := Example.call TT_VPN_POLICY_FORCE_PHYSICAL Example.gai).
  - repeat constructor.
  - vm_compute; reflexivity.
  - vm_compute; reflexivity.
  - reflexivity.
  - reflexivity.
Defined.

Lemma ResolveViaUdp_authentic_witness :
  exists s, server_answered Example.os Example.ifname 30 true OS_LINUX Example.net (str "a.b")
    (Example.config TT_VPN_POLICY_FORCE_PHYSICAL false) [SockIn [1; 2; 3; 4]] s.
Proof.
  apply (ResolveViaUdp_authentic Example.inet4 Example.inet6 Example.os Example.ifname 30 true
           OS_LINUX Example.net (str "a.b") (Example.config TT_VPN_POLICY_FORCE_PHYSICAL false)
           Example.answer 60); vm_compute; reflexivity.
Defined.

Lemma Resolve_caches_witness :
  exists c1,
    Resolve Example.inet4 Example.inet6 Example.os Example.ifname 30 true OS_LINUX 128
      Example.gai Example.net false None ∅ 0 5 (str "a.b")
      (Example.config TT_VPN_POLICY_PREFER_PHYSICAL false) = Some (Example.answer, c1) /\
    Resolve Example.inet4 Example.inet6 Example.os Example.ifname 30 true OS_LINUX 128
      Example.gai_down Example.net false None c1 59000000000 59000000001 (str "a.b")
      (Example.config TT_VPN_POLICY_PREFER_PHYSICAL true) = Some (Example.answer, c1).
Proof.
  pose proof (Resolve_caches Example.inet4 Example.inet6 Example.os Example.ifname 30 true
    OS_LINUX 128 false None Example.net Example.net Example.gai Example.gai_down ∅ ∅ 0 5
    59000000000 59000000001 60 (str "a.b")
    (Example.config TT_VPN_POLICY_PREFER_PHYSICAL false)
    (Example.config TT_VPN_POLICY_PREFER_PHYSICAL true) Example.answer
    ltac:(reflexivity) ltac:(discriminate) ltac:(reflexivity) ltac:(reflexivity)
    ltac:(reflexivity) ltac:(vm_compute; reflexivity) ltac:(reflexivity) ltac:(discriminate))
    as (c1 & H1 & _ & H2 & _).
  exists c1. split; [exact H1|]. apply H2. reflexivity.
Defined.

Lemma udp_loop_bounded_witness :
  exists st', udp_loop (str "a.b") 7 9 1000000000 50
    {| gotA := true; gotAAAA := false; gathered := [SockIn [1; 2; 3; 4]]; us_minTtl := 60;
       us_haveTtl := true; serverErr := None; graceDeadline := Some 51000000 |}
    ([{| ev_now := 2000000; ev_poll := PollOther |}]
     ++ {| ev_now := 52000000; ev_poll := PollOther |} :: []) = Some st' /\ gathered st' <> [].
Proof.
  edestruct (udp_loop_bounded (str "a.b") 7 9 1000000000 50
    {| gotA := true; gotAAAA := false; gathered := [SockIn [1; 2; 3; 4]]; us_minTtl := 60;
       us_haveTtl := true; serverErr := None; graceDeadline := Some 51000000 |}
    [{| ev_now := 2000000; ev_poll := PollOther |}] []
    {| ev_now := 52000000; ev_poll := PollOther |}) as (st' & H & Hg).
  - apply (bool_decide_unpack _). vm_compute. exact I.
  - right. exists 51000000. split; [reflexivity|]. cbn. lia.
  - exists st'. split; [exact H|]. apply Hg. discriminate.
Defined.
