(* ===== verification/StreamParser.v ===== *)
(** * StreamParser: incremental parsers and the independence of their result
      from how the network cuts the stream

    The SMP and the WebSocket parser share a shape: keep the unread bytes, and
    while at least as many bytes are there as the current state requires, consume
    exactly that many and move on. This file states the shape as an interface and
    proves what follows from it alone; [SMPParser] and [WSParser] show that their
    loops implement an instance of it. *)

From stdpp Require Import base list numbers option.
From Stdlib Require Import ZArith Lia.
From S2P Require Import Prelude.

(** What a parser promises: the bytes the next step needs, the step itself on
    exactly that many bytes, and a rank that bounds the steps which consume nothing. *)
Class IncParser (St Ev Err : Type) := {
  need : St -> Z;
  step : St -> bytes -> (St * list Ev) + Err;
  idle_rank : St -> nat
}.

Class IncParserOk (St Ev Err : Type) `{IncParser St Ev Err} := {
  need_nonneg : forall s : St, 0 <= need s;
  idle_decreases : forall (s s' : St) (bs : bytes) (evs : list Ev),
    need s = 0 -> step s bs = inl (s', evs) -> (idle_rank s' < idle_rank s)%nat
}.

Section StreamParser.
Context {St Ev Err : Type} `{P : IncParser St Ev Err}.

(** Where a run ends: waiting with unread bytes, or rejected. *)
Abbreviation run_end := ((St * bytes) + Err)%type.

(** Two results of the same step are equal. *)
Ltac step_eq :=
  repeat match goal with
  | A : step ?s ?b = _, B : step ?s ?b = _ |- _ => rewrite A in B; simplify_eq
  end.

(** [runs s buf evs r]: from state [s] with the unread bytes [buf], the parser emits
    [evs] and ends in [r]. *)
Inductive runs : St -> bytes -> list Ev -> run_end -> Prop :=
| runs_wait s buf : zlen buf < need s -> runs s buf [] (inl (s, buf))
| runs_step s buf s' evs evs' r :
    need s <= zlen buf -> step s (ztake (need s) buf) = inl (s', evs) ->
    runs s' (zdrop (need s) buf) evs' r -> runs s buf (evs ++ evs') r
| runs_reject s buf e :
    need s <= zlen buf -> step s (ztake (need s) buf) = inr e -> runs s buf [] (inr e).

(** The same as a function; [None] when the fuel ends. *)
Fixpoint run (fuel : nat) (s : St) (buf : bytes) : option (list Ev * run_end) :=
  if zlen buf <? need s then Some ([], inl (s, buf))
  else match fuel with
  | O => None
  | S f =>
      match step s (ztake (need s) buf) with
      | inr e => Some ([], inr e)
      | inl (s', evs) =>
          '(evs', r) ← run f s' (zdrop (need s) buf);
          Some (evs ++ evs', r)
      end
  end.

(** Feeding the chunks of a stream one by one. A rejected stream takes no more. *)
Inductive feeds : St * bytes -> list bytes -> list Ev -> run_end -> Prop :=
| feeds_nil c : feeds c [] [] (inl c)
| feeds_more s buf chunk chunks evs evs' c r :
    runs s (buf ++ chunk) evs (inl c) -> feeds c chunks evs' r ->
    feeds (s, buf) (chunk :: chunks) (evs ++ evs') r
| feeds_reject s buf chunk chunks evs e :
    runs s (buf ++ chunk) evs (inr e) -> feeds (s, buf) (chunk :: chunks) evs (inr e).

Lemma run_runs fuel s buf evs r : run fuel s buf = Some (evs, r) -> runs s buf evs r.
Proof.
  revert s buf evs r. induction fuel as [|f IH]; intros s buf evs r; cbn;
    (destruct (Z.ltb_spec (zlen buf) (need s)) as [Hw|Hn]; [intros [= <- <-]; by constructor|]);
    [done|].
  destruct (step s _) as [[s' evs1]|e] eqn:Es; [|intros [= <- <-]; by constructor].
  destruct (run f s' _) as [[evs2 r2]|] eqn:Er; [|done]. intros [= <- <-].
  eapply runs_step; [done|exact Es|]. by apply IH.
Qed.

Lemma runs_det s buf evs r evs' r' :
  runs s buf evs r -> runs s buf evs' r' -> evs = evs' /\ r = r'.
Proof.
  intros H1. revert evs' r'.
  induction H1 as [| s buf s1 evs1 evs2 r0 Hn Hs _ IH |]; intros e2 r2 H2;
    inversion H2; simplify_eq; try lia; step_eq; try done.
  match goal with Hr : runs _ _ _ _ |- _ => by destruct (IH _ _ Hr) as [<- <-] end.
Qed.

(** Stepping over exactly the bytes a state needs. *)
Lemma runs_consume s bs s1 evs rest evs' r :
  zlen bs = need s -> step s bs = inl (s1, evs) -> runs s1 rest evs' r ->
  runs s (bs ++ rest) (evs ++ evs') r.
Proof.
  intros Hl Hs Hr. pose proof (zlen_nonneg rest).
  eapply runs_step; [rewrite zlen_app; lia|by rewrite ztake_app_exact|by rewrite zdrop_app_exact].
Qed.

(** What a run leaves unread is no longer than what it was given. *)
Lemma runs_shrinks s buf evs s' rest :
  runs s buf evs (inl (s', rest)) -> zlen rest <= zlen buf.
Proof.
  intros H1. remember (inl (s', rest)) as r1 eqn:E. revert E.
  induction H1 as [| s buf s1 evs1 evs2 r0 Hn Hs _ IH |]; intros E; simplify_eq; [done|].
  etrans; [by apply IH|]. unfold zlen, zdrop. rewrite length_drop. lia.
Qed.

(** A run that waits, continued with more bytes, is the run on all the bytes. *)
Lemma runs_app s a evs s' rest b evs' r :
  runs s a evs (inl (s', rest)) -> runs s' (rest ++ b) evs' r -> runs s (a ++ b) (evs ++ evs') r.
Proof.
  intros H1. remember (inl (s', rest)) as r1 eqn:E. revert E.
  induction H1 as [| s buf s1 evs1 evs2 r0 Hn Hs _ IH |]; intros E Hr; [by simplify_eq| |done].
  specialize (IH E Hr). pose proof (zlen_nonneg b). rewrite <- app_assoc.
  pose proof (zlen_nonneg buf).
  assert (Ht : ztake (need s) (buf ++ b) = ztake (need s) buf).
  { destruct (Z.le_gt_cases 0 (need s)); [by rewrite ztake_app_le|].
    unfold ztake. by replace (Z.to_nat (need s)) with O by lia. }
  assert (Hd : zdrop (need s) (buf ++ b) = zdrop (need s) buf ++ b).
  { destruct (Z.le_gt_cases 0 (need s)); [by rewrite zdrop_app_le|].
    unfold zdrop. by replace (Z.to_nat (need s)) with O by lia. }
  eapply runs_step; [rewrite zlen_app; lia|by rewrite Ht|by rewrite Hd].
Qed.

Context `{POk : !IncParserOk St Ev Err}.

Lemma runs_reject_app s a evs e b : runs s a evs (inr e) -> runs s (a ++ b) evs (inr e).
Proof.
  intros H1. remember (inr e) as r1 eqn:E. revert E. pose proof (zlen_nonneg b).
  induction H1 as [| s buf s1 evs1 evs2 r0 Hn Hs _ IH | s buf e0 Hn Hs]; intros E; [done| |];
    pose proof (need_nonneg s).
  - eapply runs_step; [rewrite zlen_app; lia|by rewrite ztake_app_le|].
    rewrite zdrop_app_le by done. by apply IH.
  - simplify_eq. apply runs_reject; [rewrite zlen_app; lia|by rewrite ztake_app_le].
Qed.

(** Enough fuel: a step either shortens the buffer or lowers the rank. *)
Lemma run_enough (bound : nat) :
  (forall s, idle_rank s <= bound)%nat ->
  forall fuel s buf, (length buf * S bound + idle_rank s < fuel)%nat -> is_Some (run fuel s buf).
Proof.
  intros Hb. induction fuel as [|f IH]; intros s buf Hf; [lia|]. cbn.
  destruct (Z.ltb_spec (zlen buf) (need s)) as [|Hn]; [eauto|].
  destruct (step s _) as [[s' evs1]|e] eqn:Es; [|eauto].
  enough (is_Some (run f s' (zdrop (need s) buf))) as [[? ?] ->] by (cbn; eauto).
  apply IH. pose proof (need_nonneg s). specialize (Hb s').
  destruct (Z.eq_dec (need s) 0) as [E0|E0].
  - pose proof (idle_decreases s s' _ _ E0 Es). rewrite E0, zdrop_0. lia.
  - assert (Hd : zlen (zdrop (need s) buf) = zlen buf - need s) by (apply zlen_zdrop; lia).
    unfold zlen in *.
    assert (length (zdrop (need s) buf) < length buf)%nat by lia. nia.
Qed.

Lemma runs_total (bound : nat) :
  (forall s, idle_rank s <= bound)%nat -> forall s buf, exists evs r, runs s buf evs r.
Proof.
  intros Hb s buf. destruct (run_enough bound Hb _ s buf (Nat.lt_succ_diag_r _)) as [[evs r] Hr].
  exists evs, r. by eapply run_runs.
Qed.

(** However a stream is cut, feeding its chunks is running on the whole stream. *)
Lemma feeds_runs c chunks evs r :
  chunks <> [] -> feeds c chunks evs r -> runs c.1 (c.2 ++ concat chunks) evs r.
Proof.
  intros Hne H1. induction H1 as [| s buf chunk chunks evs evs' [s' rest] r Hr Hf IH |]; [done| |].
  - cbn. rewrite app_assoc. destruct chunks as [|k ks].
    + inversion Hf; subst. cbn. by rewrite !app_nil_r.
    + eapply runs_app; [exact Hr|]. by apply IH.
  - cbn. rewrite app_assoc. by apply runs_reject_app.
Qed.

Lemma feeds_det c chunks evs r evs' r' :
  feeds c chunks evs r -> feeds c chunks evs' r' -> evs = evs' /\ r = r'.
Proof.
  intros H1. revert evs' r'.
  induction H1 as [| ??????? ? H1 _ IH | ?????? H1]; intros e2 r2 H2; inversion H2; subst;
    [done|..];
    match goal with Ha : runs _ _ _ _, Hb : runs _ _ _ _ |- _ =>
      destruct (runs_det _ _ _ _ _ _ Ha Hb) end; simplify_eq; [|done].
  edestruct IH as [-> ->]; eauto.
Qed.

(** Two cuts of the same stream give the same events and the same end. *)
Lemma feeds_chunking c chunks chunks' evs evs' r r' :
  chunks <> [] -> chunks' <> [] -> concat chunks = concat chunks' ->
  feeds c chunks evs r -> feeds c chunks' evs' r' -> evs = evs' /\ r = r'.
Proof.
  intros Hn Hn' E H1%feeds_runs H2%feeds_runs; [|done..].
  rewrite E in H1. eapply runs_det; eauto.
Qed.
End StreamParser.
