(* ===== verification/Buffer.v ===== *)
(** * Buffer: what a [BCBuffer] promises the code that uses it

    A [BCBuffer] ([deps/env/src/BC/BCBuffer.cpp]) is, to its users, the bytes
    written so far and a read cursor. This file states its operations at that
    level, with the block size visible only where the code can see it, in the
    length of what [ReadBlock] returns. [BCBuffer] models the blocks themselves,
    shared between clones, and shows that they implement these operations. *)

From stdpp Require Import base list numbers option.
From Stdlib Require Import ZArith Lia.
From S2P Require Import Prelude.

Definition G_nBlockSize : Z := 8192.

Record buffer := { b_data : bytes; b_cur : Z }.

Definition buf_ok (b : buffer) : Prop := 0 <= b_cur b <= zlen (b_data b).

#[global] Instance buf_ok_dec b : Decision (buf_ok b).
Proof. unfold buf_ok. apply _. Defined.

Definition empty_buffer : buffer := {| b_data := []; b_cur := 0 |}.

Definition RemainingLength (b : buffer) : Z := zlen (b_data b) - b_cur b.

(** The bytes not read yet. *)
Definition unread (b : buffer) : bytes := zdrop (b_cur b) (b_data b).

Definition set_cur (b : buffer) (c : Z) : buffer := {| b_data := b_data b; b_cur := c |}.

Definition Write (b : buffer) (data : bytes) : buffer :=
  {| b_data := b_data b ++ data; b_cur := b_cur b |}.

Definition Forward (b : buffer) (n : Z) : buffer :=
  set_cur b (b_cur b + Z.min n (RemainingLength b)).

Definition Read (b : buffer) (n : Z) : bytes * buffer :=
  (ztake (Z.min n (RemainingLength b)) (unread b), Forward b n).

(** [ReadBlock]: at most [n] bytes, and none past the end of the block the cursor
    is in. *)
Definition ReadBlock (b : buffer) (n : Z) : bytes * buffer :=
  let k := Z.min n (Z.min (G_nBlockSize - b_cur b mod G_nBlockSize) (RemainingLength b)) in
  (ztake k (unread b), set_cur b (b_cur b + k)).

(** [PeekBlock]: the same bytes, the cursor left where it is. *)
Definition PeekBlock (b : buffer) (n : Z) : bytes := (ReadBlock b n).1.

Definition Rewind (b : buffer) (offset : Z) : buffer := set_cur b (Z.min offset (zlen (b_data b))).

Definition Reset (b : buffer) : buffer := empty_buffer.

Definition RemoveConsumed (b : buffer) : buffer :=
  if 0 <? b_cur b then {| b_data := unread b; b_cur := 0 |} else b.

(** [WriteTo(BCBuffer&)]: all the bytes, read or not, to the end of [dst]. *)
Definition WriteTo (b dst : buffer) : buffer := Write dst (b_data b).

(** [Clone]: a new buffer with the bytes and the cursor at the start. *)
Definition Clone (b : buffer) : buffer := WriteTo b empty_buffer.

(** The loop of [BCOStream::WriteFrom(BCBuffer&, len)]: blocks of [src] into the
    writer until [len] bytes or the end. The bytes written and what is left of
    [src]. Every turn that goes on reads at least one byte. *)
Fixpoint WriteFrom_loop (fuel : nat) (src : buffer) (len : Z) (out : bytes) : option (bytes * buffer) :=
  match fuel with
  | O => None
  | S f =>
      let '(blk, src') := ReadBlock src len in
      if zlen blk =? 0 then Some (out, src)
      else WriteFrom_loop f src' (len - zlen blk) (out ++ blk)
  end.

Definition WriteFrom (src : buffer) (len : Z) : option (bytes * buffer) :=
  WriteFrom_loop (S (length (b_data src))) src len [].

(** ** Lemmas *)

Lemma zlen_unread b : buf_ok b -> zlen (unread b) = RemainingLength b.
Proof. unfold buf_ok, unread, RemainingLength. intros. rewrite zlen_zdrop; lia. Qed.

Lemma RemainingLength_nonneg b : buf_ok b -> 0 <= RemainingLength b.
Proof. unfold buf_ok, RemainingLength. lia. Qed.

Lemma unread_write b data : buf_ok b -> unread (Write b data) = unread b ++ data.
Proof. unfold buf_ok, unread. intros. cbn. by rewrite zdrop_app_le. Qed.

Lemma write_ok b data : buf_ok b -> buf_ok (Write b data).
Proof. unfold buf_ok. cbn. rewrite zlen_app. pose proof (zlen_nonneg data). lia. Qed.

Lemma advance_ok b k : buf_ok b -> 0 <= k <= RemainingLength b -> buf_ok (set_cur b (b_cur b + k)).
Proof. unfold buf_ok, RemainingLength. cbn. lia. Qed.

Lemma advance_unread b k :
  buf_ok b -> 0 <= k <= RemainingLength b ->
  unread (set_cur b (b_cur b + k)) = zdrop k (unread b).
Proof. unfold buf_ok, RemainingLength, unread. cbn. intros. by rewrite zdrop_zdrop by lia. Qed.

Lemma remove_consumed_unread b : buf_ok b -> unread (RemoveConsumed b) = unread b.
Proof.
  unfold buf_ok, RemoveConsumed. intros. zcase; [done|]. done.
Qed.

Lemma remove_consumed_ok b : buf_ok b -> buf_ok (RemoveConsumed b) /\ b_cur (RemoveConsumed b) = 0.
Proof.
  unfold buf_ok, RemoveConsumed. intros. zcase; cbn; [|lia].
  pose proof (zlen_nonneg (unread b)). lia.
Qed.

(** Reading [n] available bytes. *)
Lemma Read_available b n :
  buf_ok b -> 0 <= n <= RemainingLength b ->
  Read b n = (ztake n (unread b), set_cur b (b_cur b + n)).
Proof. intros. unfold Read, Forward. by rewrite Z.min_l by lia. Qed.

(** The loop moves the first [len] unread bytes, or all of them. *)
Lemma WriteFrom_loop_spec fuel src len out :
  buf_ok src -> 0 <= len -> RemainingLength src < Z.of_nat fuel ->
  let k := Z.min len (RemainingLength src) in
  WriteFrom_loop fuel src len out
  = Some (out ++ ztake k (unread src), set_cur src (b_cur src + k)).
Proof.
  revert src len out. induction fuel as [|f IH]; intros src len out Hok Hlen Hf; cbn zeta;
    [pose proof (RemainingLength_nonneg src Hok); lia|].
  cbn [WriteFrom_loop]. unfold ReadBlock.
  set (k1 := Z.min len (Z.min _ _)).
  pose proof (RemainingLength_nonneg src Hok) as Hr.
  assert (Hk1 : 0 <= k1 <= RemainingLength src) by (unfold k1, G_nBlockSize; lia).
  pose proof (zlen_unread src Hok) as Hu.
  assert (Hl : zlen (ztake k1 (unread src)) = k1) by (apply zlen_ztake; lia).
  rewrite Hl. zcase.
  - assert (Z.min len (RemainingLength src) = 0) as -> by (unfold k1, G_nBlockSize in *; lia).
    unfold set_cur. rewrite Z.add_0_r, app_nil_r. by destruct src.
  - rewrite IH; [|by apply advance_ok|unfold k1; lia|].
    2:{ unfold RemainingLength in *. cbn. lia. }
    rewrite advance_unread by done. cbn [b_cur set_cur b_data].
    assert (HR : RemainingLength (set_cur src (b_cur src + k1)) = RemainingLength src - k1)
      by (unfold RemainingLength; cbn; lia).
    rewrite HR. do 2 f_equal; [|unfold set_cur; cbn; f_equal; lia].
    rewrite <- app_assoc. f_equal.
    set (k := Z.min len (RemainingLength src)).
    replace (Z.min (len - k1) (RemainingLength src - k1)) with (k - k1) by lia.
    rewrite <- (ztake_zdrop k1 (ztake k (unread src))). f_equal.
    + unfold ztake. rewrite take_take. f_equal. lia.
    + unfold ztake, zdrop. rewrite skipn_firstn_comm. f_equal. lia.
Qed.

Lemma WriteFrom_spec src len :
  buf_ok src -> 0 <= len ->
  let k := Z.min len (RemainingLength src) in
  WriteFrom src len = Some (ztake k (unread src), set_cur src (b_cur src + k)).
Proof.
  intros Hok Hl. unfold WriteFrom. cbv zeta. rewrite WriteFrom_loop_spec; [done|done|done|].
  unfold RemainingLength, buf_ok, zlen in *. lia.
Qed.

(** ** Streams over a buffer ([deps/env/src/BC/BCStream.cpp])

    A multi-byte integer in memory is its bytes from the least significant one (the
    targets are little-endian). *)

Definition mem_bytes (n : nat) (v : Z) : bytes := rev (be_bytes n v).

(** [ByteOrder::swapBytesShort], [swapBytesLong], [swapBytesLongLong]: the value whose
    memory bytes are those of [v], reversed. *)
Definition swapBytes (n : nat) (v : Z) : Z := be_val (rev (be_bytes n v)).

Definition WriteUInt8 (b : buffer) (v : Z) : buffer := Write b [u8 v].
Definition WriteUInt16BE (b : buffer) (v : Z) : buffer := Write b (mem_bytes 2 (swapBytes 2 v)).
Definition WriteUInt32BE (b : buffer) (v : Z) : buffer :=
  Write b [u8 (Z.shiftr (Z.land v 0xFF000000) 24); u8 (Z.shiftr (Z.land v 0xFF0000) 16);
           u8 (Z.shiftr (Z.land v 0xFF00) 8); u8 (Z.land v 0xFF)].
Definition WriteUInt64BE (b : buffer) (v : Z) : buffer := Write b (mem_bytes 8 (swapBytes 8 v)).

(** [ReadUInt16BE], [ReadUInt64BE]: the bytes read and the swapped value. The bytes
    of [*val] that a short read leaves are not modelled: [None]. *)
Definition ReadUIntBE (n : nat) (b : buffer) : option (Z * Z * buffer) :=
  let '(bs, b') := Read b (Z.of_nat n) in
  if zlen bs =? Z.of_nat n then Some (swapBytes n (be_val (rev bs)), zlen bs, b') else None.

(** [BCOStream::WriteFrom(BCIStream&, len)]: through a buffer of 1024 bytes. *)
Fixpoint WriteFromReader_loop (fuel : nat) (src : buffer) (len : Z) (out : bytes)
    : option (bytes * buffer) :=
  match fuel with
  | O => None
  | S f =>
      let nDataRead := if 1024 <? len then 1024 else len in
      if 0 <? nDataRead then
        let '(bs, src') := Read src nDataRead in
        if 0 <? zlen bs then WriteFromReader_loop f src' (len - zlen bs) (out ++ bs)
        else Some (out, src')
      else Some (out, src)
  end.

Definition WriteFromReader (src : buffer) (len : Z) : option (bytes * buffer) :=
  WriteFromReader_loop (S (length (b_data src))) src len [].

Lemma mem_swapBytes n v : mem_bytes n (swapBytes n v) = be_bytes n v.
Proof.
  unfold mem_bytes, swapBytes. rewrite <- (rev_involutive (be_bytes n v)) at 2. f_equal.
  rewrite <- (be_bytes_be_val (rev (be_bytes n v))) at 2.
  - by rewrite length_rev, length_be_bytes.
  - apply bytes_ok_rev, be_bytes_ok.
Qed.

Lemma octets4 v : in_word 32 v ->
  [u8 (Z.shiftr (Z.land v 0xFF000000) 24); u8 (Z.shiftr (Z.land v 0xFF0000) 16);
   u8 (Z.shiftr (Z.land v 0xFF00) 8); u8 (Z.land v 0xFF)] = be_bytes 4 v.
Proof.
  intros Hv. rewrite (shiftr_masked_byte v 24), (shiftr_masked_byte v 16),
    (shiftr_masked_byte v 8), land_255 by (done || lia).
  cbn [be_bytes app]. rewrite !u8_small by lia.
  change (2 ^ 24) with (256 * 256 * 256). change (2 ^ 16) with (256 * 256). change (2 ^ 8) with 256.
  by rewrite !Z.div_div by lia.
Qed.

Lemma ReadUIntBE_spec n b :
  buf_ok b -> bytes_ok (b_data b) -> Z.of_nat n <= RemainingLength b ->
  ReadUIntBE n b = Some (be_val (ztake (Z.of_nat n) (unread b)), Z.of_nat n,
                         set_cur b (b_cur b + Z.of_nat n)).
Proof.
  intros Hok Hb Hn. unfold ReadUIntBE. rewrite Read_available by (done || lia).
  pose proof (zlen_unread b Hok) as Hu.
  assert (Hl : zlen (ztake (Z.of_nat n) (unread b)) = Z.of_nat n) by (apply zlen_ztake; lia).
  rewrite Hl, Z.eqb_refl. do 3 f_equal. unfold swapBytes.
  set (bs := ztake _ _) in *.
  assert (Hbs : bytes_ok bs) by by apply bytes_ok_ztake, bytes_ok_zdrop.
  assert (Hlen : n = length (rev bs)) by (rewrite length_rev; unfold zlen in Hl; lia).
  rewrite Hlen, be_bytes_be_val, rev_involutive; [done|].
  by apply bytes_ok_rev.
Qed.

Lemma WriteFromReader_loop_spec fuel src len out :
  buf_ok src -> 0 <= len -> RemainingLength src < Z.of_nat fuel ->
  let k := Z.min len (RemainingLength src) in
  WriteFromReader_loop fuel src len out
  = Some (out ++ ztake k (unread src), set_cur src (b_cur src + k)).
Proof.
  revert src len out. induction fuel as [|f IH]; intros src len out Hok Hlen Hf; cbn zeta;
    [pose proof (RemainingLength_nonneg src Hok); lia|].
  cbn [WriteFromReader_loop].
  assert (Hn : (if 1024 <? len then 1024 else len) = Z.min len 1024) by (zcase; lia).
  rewrite Hn. pose proof (RemainingLength_nonneg src Hok) as Hr.
  pose proof (zlen_unread src Hok) as Hu. unfold Read, Forward.
  set (k1 := Z.min (Z.min len 1024) (RemainingLength src)).
  assert (Hl : zlen (ztake k1 (unread src)) = k1) by (apply zlen_ztake; lia).
  assert (Hstop : k1 = 0 -> Z.min len (RemainingLength src) = 0) by lia.
  assert (Hdone : forall c, k1 = 0 -> c = b_cur src -> Some (out, set_cur src c)
    = Some (out ++ ztake (Z.min len (RemainingLength src)) (unread src),
            set_cur src (b_cur src + Z.min len (RemainingLength src)))).
  { intros c H0 ->. rewrite Hstop by done. by rewrite app_nil_r, Z.add_0_r. }
  zcase; [|destruct src; apply (Hdone b_cur0); [lia|done]].
  rewrite Hl. zcase; [|apply Hdone; lia].
  rewrite IH; [|apply advance_ok; [done|lia]|lia|unfold RemainingLength in *; cbn; lia].
  rewrite advance_unread by (done || lia).
  assert (HR : RemainingLength (set_cur src (b_cur src + k1)) = RemainingLength src - k1)
    by (unfold RemainingLength; cbn; lia).
  rewrite HR. set (k := Z.min len (RemainingLength src)).
  replace (Z.min (len - k1) (RemainingLength src - k1)) with (k - k1) by lia.
  rewrite <- app_assoc. do 2 f_equal.
  - f_equal. rewrite <- (ztake_zdrop k1 (ztake k (unread src))). f_equal.
    + unfold ztake. rewrite take_take. f_equal. lia.
    + unfold ztake, zdrop. rewrite skipn_firstn_comm. f_equal. lia.
  - unfold set_cur. cbn. f_equal. lia.
Qed.

Lemma WriteFromReader_spec src len :
  buf_ok src -> 0 <= len ->
  let k := Z.min len (RemainingLength src) in
  WriteFromReader src len = Some (ztake k (unread src), set_cur src (b_cur src + k)).
Proof.
  intros Hok Hl. unfold WriteFromReader. cbv zeta. rewrite WriteFromReader_loop_spec; [done|done|done|].
  unfold RemainingLength, buf_ok, zlen in *. lia.
Qed.
