(* ===== verification/BCBuffer.v ===== *)
(** * BCBuffer: byte buffers in shared blocks ([deps/env/src/BC/BCBuffer.cpp])

    A [BCBuffer] keeps its bytes in blocks of 8192, held by reference: [RefClone]
    copies the references, so two buffers can share blocks and one may see what
    the other writes. The heap is the list of the blocks allocated so far, a block
    is its position in it, and operations thread the heap. They are in the option
    monad: [None] is an index outside the deque. The theorems show that the blocks
    implement the buffer of [Buffer.v], and when a clone is a snapshot. *)

From Stdlib Require Import ZArith Lia.
From stdpp Require Import base numbers option list.
From S2P Require Import Prelude Buffer.

Abbreviation heap := (list bytes).

Record BCBuffer := {
  m_lstData : list nat;
  m_nSize : Z;
  m_nUsed : Z;
  m_nCurrent : Z
}.

Definition new_BCBuffer : BCBuffer :=
  {| m_lstData := []; m_nSize := 0; m_nUsed := 0; m_nCurrent := 0 |}.

Definition set_used (b : BCBuffer) (n : Z) : BCBuffer :=
  {| m_lstData := m_lstData b; m_nSize := m_nSize b; m_nUsed := n; m_nCurrent := m_nCurrent b |}.
Definition set_current (b : BCBuffer) (n : Z) : BCBuffer :=
  {| m_lstData := m_lstData b; m_nSize := m_nSize b; m_nUsed := m_nUsed b; m_nCurrent := n |}.

(** ** Blocks *)

(** [BCBufferData::Write]: how much fits, and the block after it. *)
Definition BufferData_Write (blk data : bytes) (nOffset : Z) : Z * bytes :=
  let nBufLen := G_nBlockSize - nOffset in
  let nWriteLen := if zlen data <? nBufLen then zlen data else nBufLen in
  if nWriteLen =? 0 then (0, blk) else (nWriteLen, write_at blk nOffset (ztake nWriteLen data)).

(** [BCBufferData::Read]. *)
Definition BufferData_Read (blk : bytes) (nSize nOffset : Z) : bytes :=
  let nRemainLen := G_nBlockSize - nOffset in
  let nReadLen := if nSize <? nRemainLen then nSize else nRemainLen in
  ztake nReadLen (zdrop nOffset blk).

Section Blocks.
(** What a new block holds. *)
Context (uninit : Z).

Definition new_block (h : heap) : nat * heap :=
  (length h, h ++ [replicate (Z.to_nat G_nBlockSize) uninit]).

(** [m_lstData.push_back(new BCBufferData)]. *)
Definition push_block (h : heap) (b : BCBuffer) : heap * BCBuffer :=
  let '(id, h) := new_block h in
  (h, {| m_lstData := m_lstData b ++ [id]; m_nSize := u32 (m_nSize b + G_nBlockSize);
         m_nUsed := m_nUsed b; m_nCurrent := m_nCurrent b |}).

(** ** Operations *)

Fixpoint Write_loop (fuel : nat) (h : heap) (b : BCBuffer) (data : bytes)
    : option (heap * BCBuffer) :=
  if zlen data =? 0 then Some (h, b)
  else match fuel with
  | O => None
  | S f =>
      let '(h, b, nOffset) :=
        if m_nUsed b =? m_nSize b then let '(h, b) := push_block h b in (h, b, 0)
        else (h, b, m_nUsed b mod G_nBlockSize) in
      id ← m_lstData b !! Z.to_nat (m_nUsed b / G_nBlockSize);
      blk ← h !! id;
      let '(nWriteLen, blk) := BufferData_Write blk data nOffset in
      Write_loop f (<[id := blk]> h) (set_used b (u32 (m_nUsed b + nWriteLen))) (zdrop nWriteLen data)
  end.

Definition Write (h : heap) (b : BCBuffer) (data : bytes) : option (Z * heap * BCBuffer) :=
  if zlen data =? 0 then Some (0, h, b)
  else '(h, b) ← Write_loop (S (length data)) h b data; Some (zlen data, h, b).

Fixpoint Read_loop (fuel : nat) (h : heap) (b : BCBuffer) (nDataLen : Z) (out : bytes)
    : option (bytes * BCBuffer) :=
  if negb ((m_nCurrent b <? m_nUsed b) && (0 <? nDataLen)) then Some (out, b)
  else match fuel with
  | O => None
  | S f =>
      id ← m_lstData b !! Z.to_nat (m_nCurrent b / G_nBlockSize);
      blk ← h !! id;
      let bs := BufferData_Read blk nDataLen (m_nCurrent b mod G_nBlockSize) in
      Read_loop f h (set_current b (u32 (m_nCurrent b + zlen bs))) (nDataLen - zlen bs) (out ++ bs)
  end.

Definition Read (h : heap) (b : BCBuffer) (nSize : Z) : option (bytes * BCBuffer) :=
  if nSize =? 0 then Some ([], b)
  else
    let nBufSize := Z.min nSize (u32 (m_nUsed b - m_nCurrent b)) in
    Read_loop (S (Z.to_nat nBufSize)) h b nBufSize [].

(** [Peek] runs the loop of [Read] on a cursor of its own. *)
Definition Peek (h : heap) (b : BCBuffer) (nSize : Z) : option bytes :=
  '(bs, _) ← Read h b nSize; Some bs.

Definition RemainingLength (b : BCBuffer) : Z := u32 (m_nUsed b - m_nCurrent b).

(** [ReadBlock]: the block and offset pointed to ([None] for a null pointer), the
    size available there, and the cursor moved past it. *)
Definition ReadBlock (b : BCBuffer) (nSizeToRead : Z) : option (option (nat * Z) * Z * BCBuffer) :=
  let nOffset := m_nCurrent b mod G_nBlockSize in
  let nDataLen := Z.min (G_nBlockSize - nOffset) (u32 (m_nUsed b - m_nCurrent b)) in
  if 0 <? nDataLen then
    id ← m_lstData b !! Z.to_nat (m_nCurrent b / G_nBlockSize);
    let refReadSize := Z.min nSizeToRead nDataLen in
    Some (Some (id, nOffset), refReadSize, set_current b (u32 (m_nCurrent b + refReadSize)))
  else Some (None, 0, b).

(** [PeekBlock]: the same without moving the cursor. *)
Definition PeekBlock (b : BCBuffer) (nSizeToRead : Z) : option (option (nat * Z) * Z) :=
  let nOffset := m_nCurrent b mod G_nBlockSize in
  let nDataLen := Z.min (G_nBlockSize - nOffset) (u32 (m_nUsed b - m_nCurrent b)) in
  if 0 <? nDataLen then
    id ← m_lstData b !! Z.to_nat (m_nCurrent b / G_nBlockSize);
    Some (Some (id, nOffset), Z.min nSizeToRead nDataLen)
  else Some (None, 0).

(** The bytes a block pointer gives access to. *)
Definition view (h : heap) (p : option (nat * Z)) (n : Z) : bytes :=
  match p with
  | None => []
  | Some (id, off) => match h !! id with Some blk => ztake n (zdrop off blk) | None => [] end
  end.

Definition Forward (b : BCBuffer) (nLen : Z) : BCBuffer :=
  set_current b (m_nCurrent b + Z.min nLen (u32 (m_nUsed b - m_nCurrent b))).

Definition Backward (b : BCBuffer) (nLen : Z) : BCBuffer :=
  set_current b (m_nCurrent b - Z.min nLen (m_nCurrent b)).

Definition Rewind (b : BCBuffer) (offset : Z) : BCBuffer :=
  set_current b (Z.min offset (m_nUsed b)).

(** [Add(nAddSize)]: blocks until there is one to spare. *)
Fixpoint Add_loop (fuel : nat) (h : heap) (b : BCBuffer) (nResult : Z) : option (heap * BCBuffer) :=
  if nResult <? m_nSize b then Some (h, b)
  else match fuel with
  | O => None
  | S f => let '(h, b) := push_block h b in Add_loop f h b nResult
  end.

Definition Add (h : heap) (b : BCBuffer) (nAddSize : Z) : option (heap * BCBuffer) :=
  let nResult := u32 (m_nUsed b + nAddSize) in
  '(h, b) ← Add_loop (S (Z.to_nat (nResult / G_nBlockSize))) h b nResult;
  Some (h, set_used b (u32 (m_nUsed b + nAddSize))).

Definition Subtract (b : BCBuffer) (nSubSize : Z) : BCBuffer :=
  set_used b (m_nUsed b - (if nSubSize <? m_nUsed b then nSubSize else m_nUsed b)).

Definition Flush (b : BCBuffer) : BCBuffer := new_BCBuffer.

(** [Reset()] keeps the blocks; [Reset(0)] lets go of them. *)
Definition Reset (b : BCBuffer) : BCBuffer := set_current (set_used b 0) 0.
Definition Reset0 (b : BCBuffer) : BCBuffer := new_BCBuffer.

Definition GetBlockCount (b : BCBuffer) : Z := u32 (zlen (m_lstData b)).

Definition RefClone (b : BCBuffer) : BCBuffer := b.

(** [RemoveConsumed]: what is left, written to a temporary buffer, is cloned back. *)
Fixpoint RemoveConsumed_loop (fuel : nat) (h : heap) (b buf : BCBuffer)
    : option (heap * BCBuffer) :=
  match fuel with
  | O => None
  | S f =>
      '(pData, nReadLen, b) ← ReadBlock b G_nBlockSize;
      match pData with
      | Some _ =>
          if 0 <? nReadLen then
            '(_, h, buf) ← Write h buf (view h pData nReadLen);
            RemoveConsumed_loop f h b buf
          else Some (h, buf)
      | None => Some (h, buf)
      end
  end.

Definition RemoveConsumed (h : heap) (b : BCBuffer) : option (heap * BCBuffer) :=
  if 0 <? m_nCurrent b then
    '(h, buf) ← RemoveConsumed_loop (S (Z.to_nat (m_nUsed b))) h b new_BCBuffer;
    Some (h, RefClone buf)
  else Some (h, b).

(** [WriteTo(BCBuffer&)]: block by block, from the first. *)
Fixpoint WriteTo_loop (lst : list nat) (nDataLen : Z) (h : heap) (dst : BCBuffer)
    : option (heap * BCBuffer) :=
  match lst with
  | [] => Some (h, dst)
  | id :: lst =>
      if nDataLen <=? 0 then Some (h, dst)
      else
        let nWriteLen := Z.min nDataLen G_nBlockSize in
        '(_, h, dst) ← Write h dst (view h (Some (id, 0)) nWriteLen);
        WriteTo_loop lst (nDataLen - nWriteLen) h dst
  end.

Definition WriteTo (h : heap) (b dst : BCBuffer) : option (heap * BCBuffer) :=
  WriteTo_loop (m_lstData b) (m_nUsed b) h dst.

Definition Clone (h : heap) (b : BCBuffer) : option (heap * BCBuffer) :=
  WriteTo h b new_BCBuffer.

(** [Extract]: each turn takes the front block and pops the back one. *)
Fixpoint Extract_loop (n : nat) (b buf : BCBuffer) : option (BCBuffer * BCBuffer) :=
  match n with
  | O => Some (b, buf)
  | S n =>
      pData ← head (m_lstData b);
      Extract_loop n
        {| m_lstData := removelast (m_lstData b); m_nSize := m_nSize b; m_nUsed := m_nUsed b;
           m_nCurrent := m_nCurrent b |}
        {| m_lstData := m_lstData buf ++ [pData]; m_nSize := u32 (m_nSize buf + G_nBlockSize);
           m_nUsed := m_nUsed buf; m_nCurrent := m_nCurrent buf |}
  end.

(** The blocks extracted, the buffer and what was put in [pBuffer]. *)
Definition Extract (b pBuffer : BCBuffer) (nBlocks : Z) : option (Z * BCBuffer * BCBuffer) :=
  let pBuffer := Reset0 pBuffer in
  let b := Rewind b 0 in
  if m_nUsed b =? 0 then Some (0, b, pBuffer)
  else
    let nUsed := u32 (m_nUsed b + G_nBlockSize - 1) / G_nBlockSize in
    let nExtract := Z.min nBlocks nUsed in
    '(b, buf) ← Extract_loop (Z.to_nat nExtract) b pBuffer;
    let size := u32 (m_nSize b - m_nSize buf) in
    if nExtract <? nUsed then
      Some (nExtract,
            {| m_lstData := m_lstData b; m_nSize := size; m_nUsed := u32 (m_nUsed b - m_nSize buf);
               m_nCurrent := m_nCurrent b |},
            set_used buf (m_nSize buf))
    else
      Some (nExtract,
            {| m_lstData := m_lstData b; m_nSize := size; m_nUsed := 0; m_nCurrent := m_nCurrent b |},
            set_used buf (m_nUsed b)).
End Blocks.

(** ** The bytes in the blocks *)

Definition block_at (h : heap) (id : nat) : bytes :=
  match h !! id with Some blk => blk | None => [] end.

Definition flat (h : heap) (lst : list nat) : bytes := concat (map (block_at h) lst).

Definition block_ok (h : heap) (id : nat) : Prop := exists blk, h !! id = Some blk /\ zlen blk = G_nBlockSize.

Definition wf (h : heap) (b : BCBuffer) : Prop :=
  Forall (block_ok h) (m_lstData b) /\ NoDup (m_lstData b) /\
  m_nSize b = G_nBlockSize * zlen (m_lstData b) /\
  0 <= m_nCurrent b <= m_nUsed b /\ m_nUsed b <= m_nSize b < 2 ^ 32 /\ m_nUsed b < 2 ^ 31.

(** What the buffer is to its users. *)
Definition abs (h : heap) (b : BCBuffer) : buffer :=
  {| b_data := ztake (m_nUsed b) (flat h (m_lstData b)); b_cur := m_nCurrent b |}.

Lemma flat_app h l k : flat h (l ++ k) = flat h l ++ flat h k.
Proof. unfold flat. by rewrite map_app, concat_app. Qed.

Lemma flat_cons h id l : flat h (id :: l) = block_at h id ++ flat h l.
Proof. done. Qed.

Lemma block_at_Some h id blk : h !! id = Some blk -> block_at h id = blk.
Proof. unfold block_at. by intros ->. Qed.

Lemma flat_length h lst : Forall (block_ok h) lst -> zlen (flat h lst) = G_nBlockSize * zlen lst.
Proof.
  induction 1 as [|id lst (blk & Hb & Hl) _ IH]; [done|].
  rewrite flat_cons, (block_at_Some h id blk Hb), zlen_app, zlen_cons, IH. unfold G_nBlockSize in *. lia.
Qed.

(** The part of a list inside one of two halves. *)
Lemma ztake_zdrop_app_l {A} (l k : list A) o n :
  0 <= o -> 0 <= n -> o + n <= zlen l -> ztake n (zdrop o (l ++ k)) = ztake n (zdrop o l).
Proof. intros. rewrite zdrop_app_le by lia. apply ztake_app_le. rewrite zlen_zdrop; lia. Qed.

Lemma zdrop_app_r {A} (l k : list A) o : 0 <= o -> zdrop (zlen l + o) (l ++ k) = zdrop o k.
Proof.
  intros. pose proof (zlen_nonneg l). rewrite <- zdrop_zdrop by lia. by rewrite zdrop_app_exact.
Qed.

Lemma write_at_app_l (l k c : bytes) o :
  0 <= o -> o + zlen c <= zlen l -> write_at (l ++ k) o c = write_at l o c ++ k.
Proof.
  intros. pose proof (zlen_nonneg c). unfold write_at.
  rewrite ztake_app_le, zdrop_app_le by lia. by rewrite <- !app_assoc.
Qed.

Lemma write_at_app_r (l k c : bytes) o :
  0 <= o -> write_at (l ++ k) (zlen l + o) c = l ++ write_at k o c.
Proof.
  intros. pose proof (zlen_nonneg c). pose proof (zlen_nonneg l). unfold write_at.
  replace (zlen l + o + zlen c) with (zlen l + (o + zlen c)) by lia.
  assert (E : ztake (zlen l + o) (l ++ k) = l ++ ztake o k).
  { unfold ztake, zlen. rewrite take_app_ge by lia. do 2 f_equal. lia. }
  by rewrite zdrop_app_r, E, <- app_assoc by lia.
Qed.

(** Reading inside block [i] is reading the bytes at [8192 * i]. *)
Lemma flat_read h lst i id blk o n :
  Forall (block_ok h) lst -> lst !! i = Some id -> h !! id = Some blk ->
  0 <= o -> 0 <= n -> o + n <= G_nBlockSize ->
  ztake n (zdrop (G_nBlockSize * Z.of_nat i + o) (flat h lst)) = ztake n (zdrop o blk).
Proof.
  intros Hf Hi Hb Ho Hn Hl. revert i Hi.
  induction Hf as [|id' lst (blk' & Hb' & Hl') Hf IH]; intros i Hi; [done|].
  rewrite flat_cons, (block_at_Some h id' blk' Hb'). destruct i as [|i].
  - injection Hi as ->. rewrite Hb in Hb'. injection Hb' as <-.
    rewrite Z.mul_0_r, Z.add_0_l. apply ztake_zdrop_app_l; lia.
  - cbn in Hi. rewrite <- (IH i Hi). f_equal.
    replace (G_nBlockSize * Z.of_nat (S i) + o)
      with (zlen blk' + (G_nBlockSize * Z.of_nat i + o)) by (unfold G_nBlockSize in *; lia).
    apply zdrop_app_r. unfold G_nBlockSize. lia.
Qed.

Lemma flat_other h lst id blk : id ∉ lst -> flat (<[id := blk]> h) lst = flat h lst.
Proof.
  intros Hid. induction lst as [|id' lst IH]; [done|]. apply not_elem_of_cons in Hid as [Hne Hid].
  rewrite !flat_cons, IH by done. unfold block_at. by rewrite list_lookup_insert_ne.
Qed.

Lemma flat_write h lst i id blk o c :
  Forall (block_ok h) lst -> NoDup lst -> lst !! i = Some id -> h !! id = Some blk ->
  0 <= o -> o + zlen c <= G_nBlockSize ->
  flat (<[id := write_at blk o c]> h) lst
  = write_at (flat h lst) (G_nBlockSize * Z.of_nat i + o) c.
Proof.
  intros Hf Hnd Hi Hb Ho Hl. revert i Hi.
  induction Hf as [|id' lst (blk' & Hb' & Hl') Hf IH]; intros i Hi; [done|].
  apply NoDup_cons in Hnd as [Hid Hnd]. rewrite !flat_cons. destruct i as [|i].
  - injection Hi as ->. rewrite Hb in Hb'. injection Hb' as <-.
    rewrite flat_other by done. unfold block_at.
    rewrite list_lookup_insert_eq by (by eapply lookup_lt_Some). rewrite Hb. rewrite Z.mul_0_r, Z.add_0_l. symmetry. apply write_at_app_l; lia.
  - cbn in Hi. rewrite (IH Hnd i Hi).
    unfold block_at.
    rewrite list_lookup_insert_ne by (intros ->; apply Hid; by eapply list_elem_of_lookup_2).
    rewrite Hb'.
    replace (G_nBlockSize * Z.of_nat (S i) + o)
      with (zlen blk' + (G_nBlockSize * Z.of_nat i + o)) by (unfold G_nBlockSize in *; lia).
    symmetry. apply write_at_app_r. unfold G_nBlockSize. lia.
Qed.

Lemma block_ok_insert h id blk id' :
  zlen blk = G_nBlockSize -> block_ok h id' -> block_ok (<[id := blk]> h) id'.
Proof.
  intros Hl (b & Hb & Hbl). destruct (decide (id = id')) as [->|Hne].
  - exists blk. split; [|done]. apply list_lookup_insert_eq. by eapply lookup_lt_Some.
  - exists b. by rewrite list_lookup_insert_ne.
Qed.

Lemma block_ok_app h k id : block_ok h id -> block_ok (h ++ k) id.
Proof. intros (b & Hb & Hl). exists b. split; [by apply lookup_app_l_Some|done]. Qed.

Lemma flat_heap_app h k lst : Forall (block_ok h) lst -> flat (h ++ k) lst = flat h lst.
Proof.
  induction 1 as [|id lst (b & Hb & _) _ IH]; [done|].
  rewrite !flat_cons, IH. unfold block_at. by rewrite (lookup_app_l_Some h k id b Hb), Hb.
Qed.

(** ** Writing *)

Lemma write_chunk h b id blk c :
  wf h b -> m_lstData b !! Z.to_nat (m_nUsed b / G_nBlockSize) = Some id -> h !! id = Some blk ->
  zlen c <= G_nBlockSize - m_nUsed b mod G_nBlockSize -> m_nUsed b + zlen c < 2 ^ 31 ->
  let h' := <[id := write_at blk (m_nUsed b mod G_nBlockSize) c]> h in
  let b' := set_used b (m_nUsed b + zlen c) in
  wf h' b' /\ b_data (abs h' b') = b_data (abs h b) ++ c.
Proof.
  intros (Hf & Hnd & Hs & Hc & Hu & Hlt) Hid Hb Hc1 Hc2. cbn zeta.
  pose proof (zlen_nonneg c). set (i := Z.to_nat (m_nUsed b / G_nBlockSize)) in *.
  assert (Hi : G_nBlockSize * Z.of_nat i + m_nUsed b mod G_nBlockSize = m_nUsed b)
    by (unfold i, G_nBlockSize in *; lia).
  assert (Hlen : zlen blk = G_nBlockSize).
  { eapply Forall_lookup_1 in Hf as (blk' & Hb' & Hl'); [|exact Hid]. congruence. }
  assert (Hil : Z.of_nat i < zlen (m_lstData b))
    by (apply lookup_lt_Some in Hid; unfold zlen; lia).
  assert (Hroom : m_nUsed b + zlen c <= m_nSize b)
    by (rewrite Hs; unfold G_nBlockSize in *; lia).
  assert (Ho : 0 <= m_nUsed b mod G_nBlockSize) by (unfold G_nBlockSize in *; lia).
  split.
  - split; [|split; [done|split; [done|cbn; lia]]].
    eapply Forall_impl; [exact Hf|]. intros id'. apply block_ok_insert.
    rewrite write_at_length; [done|lia|lia].
  - cbn [abs b_data set_used m_lstData m_nUsed].
    rewrite (flat_write h _ i id blk) by (done || lia). rewrite Hi.
    apply write_at_take; [lia|]. rewrite flat_length by done. lia.
Qed.

(** What writing to [b] leaves alone: the blocks of other buffers. *)
Definition frame_ok (h : heap) (b : BCBuffer) (h' : heap) (b' : BCBuffer) : Prop :=
  (length h <= length h')%nat /\
  (forall id, (id < length h)%nat -> (id ∉ m_lstData b) -> (id ∉ m_lstData b') /\ h' !! id = h !! id).

Lemma frame_refl h b : frame_ok h b h b.
Proof. by split. Qed.

Lemma write_nil b : Buffer.Write b [] = b.
Proof. unfold Buffer.Write. rewrite app_nil_r. by destruct b. Qed.

Lemma frame_trans h b h1 b1 h2 b2 :
  frame_ok h b h1 b1 -> frame_ok h1 b1 h2 b2 -> frame_ok h b h2 b2.
Proof.
  intros [Hl1 H1] [Hl2 H2]. split; [lia|]. intros id Hid Hn.
  destruct (H1 id Hid Hn) as [Hn1 E1]. destruct (H2 id ltac:(lia) Hn1) as [Hn2 E2].
  split; [done|congruence].
Qed.

Lemma push_block_spec uninit h b :
  wf h b -> m_nUsed b = m_nSize b -> m_nUsed b < 2 ^ 31 ->
  let '(h', b') := push_block uninit h b in
  wf h' b' /\ b_data (abs h' b') = b_data (abs h b) /\ m_nUsed b' = m_nUsed b /\
  m_nCurrent b' = m_nCurrent b /\ m_nUsed b' < m_nSize b' /\
  m_lstData b `prefix_of` m_lstData b' /\ frame_ok h b h' b'.
Proof.
  intros (Hf & Hnd & Hs & Hc & Hu & Hlt) Hus Hlt'. unfold push_block, new_block.
  assert (Hfresh : length h ∉ m_lstData b).
  { intros Hin. rewrite Forall_forall in Hf. destruct (Hf _ Hin) as (blk & Hb & _).
    apply lookup_lt_Some in Hb. lia. }
  assert (Hsz : u32 (m_nSize b + G_nBlockSize) = m_nSize b + G_nBlockSize)
    by (unfold G_nBlockSize; apply u32_small; lia).
  rewrite Hsz.
  assert (Hnew : block_ok (h ++ [replicate (Z.to_nat G_nBlockSize) uninit]) (length h)).
  { eexists. split; [by apply list_lookup_middle|]. unfold zlen. by rewrite length_replicate. }
  split; [|split_and!].
  - split; [|split; [|split]].
    + cbn. apply Forall_app. split; [|by apply Forall_singleton].
      eapply Forall_impl; [exact Hf|]. intros id'. apply block_ok_app.
    + apply NoDup_app. split_and!; [done| |apply NoDup_singleton].
      intros x Hx ->%list_elem_of_singleton. done.
    + cbn. rewrite zlen_app, Hs. unfold G_nBlockSize. change (zlen [length h]) with 1. lia.
    + cbn. unfold G_nBlockSize. lia.
  - cbn [abs b_data m_lstData m_nUsed]. rewrite flat_app, flat_heap_app by done. apply ztake_app_le.
    rewrite flat_length by done. lia.
  - done.
  - done.
  - cbn. unfold G_nBlockSize. lia.
  - by apply prefix_app_r.
  - split; [rewrite length_app; lia|]. intros id Hid Hn. split.
    + intros [Hin|Hin]%elem_of_app; [done|]. apply list_elem_of_singleton in Hin. lia.
    + by rewrite lookup_app_l by done.
Qed.

(** The loop appends the data, and stays clear of other buffers' blocks. *)
Lemma Write_loop_spec uninit fuel h b data :
  wf h b -> m_nUsed b + zlen data < 2 ^ 31 -> (length data <= fuel)%nat ->
  exists h' b', Write_loop uninit fuel h b data = Some (h', b') /\ wf h' b' /\
    abs h' b' = Buffer.Write (abs h b) data /\
    m_lstData b `prefix_of` m_lstData b' /\ frame_ok h b h' b'.
Proof.
  revert h b data. induction fuel as [|f IH]; intros h b data Hwf Hlt Hfuel; cbn [Write_loop];
    (destruct (Z.eqb_spec (zlen data) 0) as [E|E];
      [apply zlen_0_nil in E as ->; exists h, b; rewrite write_nil;
         split_and!; [done|done|done|done|apply frame_refl]|]).
  { exfalso. unfold zlen in E. lia. }
  pose proof (zlen_nonneg data).
  assert (Hgo : forall h1 b1 o, wf h1 b1 -> b_data (abs h1 b1) = b_data (abs h b) ->
    m_nUsed b1 = m_nUsed b -> m_nCurrent b1 = m_nCurrent b -> m_nUsed b1 < m_nSize b1 ->
    o = m_nUsed b1 mod G_nBlockSize -> m_lstData b `prefix_of` m_lstData b1 -> frame_ok h b h1 b1 ->
    exists h' b',
      (id ← m_lstData b1 !! Z.to_nat (m_nUsed b1 / G_nBlockSize); blk ← h1 !! id;
       let '(nWriteLen, blk) := BufferData_Write blk data o in
       Write_loop uninit f (<[id := blk]> h1) (set_used b1 (u32 (m_nUsed b1 + nWriteLen)))
         (zdrop nWriteLen data)) = Some (h', b') /\ wf h' b' /\
      abs h' b' = Buffer.Write (abs h b) data /\
      m_lstData b `prefix_of` m_lstData b' /\ frame_ok h b h' b').
  { intros h1 b1 o Hwf1 Hd Hu Hc Hroom -> Hpre Hfr.
    pose proof Hwf1 as (Hf & Hnd & Hs & Hcr & Hus & Hlt1).
    destruct (lookup_lt_is_Some_2 (m_lstData b1) (Z.to_nat (m_nUsed b1 / G_nBlockSize))) as [id Hid].
    { assert (m_nUsed b1 / G_nBlockSize < zlen (m_lstData b1)) by (unfold G_nBlockSize in *; lia).
      unfold zlen, G_nBlockSize in *. lia. }
    destruct (Forall_lookup_1 _ _ _ _ Hf Hid) as (blk & Hb & Hl).
    rewrite Hid. cbn [mbind option_bind]. rewrite Hb. cbn [mbind option_bind].
    unfold BufferData_Write. set (o := m_nUsed b1 mod G_nBlockSize).
    assert (Ho : 0 <= o < G_nBlockSize) by (unfold o, G_nBlockSize; lia).
    set (n := if zlen data <? G_nBlockSize - o then _ else _).
    assert (Hn : 0 < n <= zlen data /\ n <= G_nBlockSize - o) by (unfold n; zcase; lia).
    rewrite (proj2 (Z.eqb_neq n 0)) by lia.
    assert (Hc1 : zlen (ztake n data) = n) by (apply zlen_ztake; lia).
    destruct (write_chunk h1 b1 id blk (ztake n data) Hwf1 Hid Hb) as [Hwf2 Hd2];
      [fold o; lia|lia|].
    fold o in Hwf2, Hd2. rewrite Hc1 in Hwf2, Hd2. rewrite u32_small by lia.
    set (h2 := <[id := _]> h1) in *. set (b2 := set_used b1 (m_nUsed b1 + n)) in *.
    assert (Hfr2 : frame_ok h b h2 b2).
    { eapply frame_trans; [exact Hfr|]. split; [unfold h2; by rewrite length_insert|].
      intros id' Hid' Hn'. split; [done|]. unfold h2. rewrite list_lookup_insert_ne; [done|].
      intros ->. apply Hn'. by eapply list_elem_of_lookup_2. }
    destruct (IH h2 b2 (zdrop n data)) as (h' & b' & -> & Hwf' & Habs & Hpre' & Hfr').
    - done.
    - rewrite zlen_zdrop by lia. unfold b2. cbn. lia.
    - unfold zdrop. rewrite length_drop. unfold zlen in Hn. lia.
    - exists h', b'. split_and!; [done|done| |by etrans|by eapply frame_trans].
      rewrite Habs. unfold Buffer.Write. rewrite Hd2, Hd, <- app_assoc, ztake_zdrop.
      unfold b2. cbn [abs b_cur m_nCurrent set_used]. by rewrite Hc. }
  destruct (Z.eqb_spec (m_nUsed b) (m_nSize b)) as [Hfull|Hfull].
  - pose proof Hwf as (_ & _ & Hs & _ & _ & Hlt1).
    pose proof (push_block_spec uninit h b Hwf Hfull ltac:(lia)) as Hp.
    destruct (push_block uninit h b) as [h1 b1]. destruct Hp as (Hwf1 & Hd & Hu & Hc & Hr & Hpre & Hfr).
    apply (Hgo h1 b1 0); try done. rewrite Hu, Hfull, Hs. unfold G_nBlockSize. lia.
  - pose proof Hwf as (_ & _ & _ & _ & Hus & _). apply (Hgo h b); try done; lia.
Qed.

Lemma Write_spec uninit h b data :
  wf h b -> m_nUsed b + zlen data < 2 ^ 31 ->
  exists h' b', Write uninit h b data = Some (zlen data, h', b') /\ wf h' b' /\
    abs h' b' = Buffer.Write (abs h b) data /\
    m_lstData b `prefix_of` m_lstData b' /\ frame_ok h b h' b'.
Proof.
  intros Hwf Hlt. destruct (Write_loop_spec uninit (S (length data)) h b data Hwf Hlt)
    as (h' & b' & HW & Hrest); [lia|].
  unfold Write. destruct (Z.eqb_spec (zlen data) 0) as [E|E].
  - rewrite E. exists h, b. apply zlen_0_nil in E as ->. rewrite write_nil.
    split_and!; [done|done|done|done|apply frame_refl].
  - rewrite HW. cbn. by exists h', b'.
Qed.

(** ** Reading *)

Lemma wf_current h b c : wf h b -> 0 <= c <= m_nUsed b -> wf h (set_current b c).
Proof. intros (Hf & Hnd & Hs & Hc & Hu & Hlt) H. split_and!; done || cbn; lia. Qed.

Lemma abs_current h b c : abs h (set_current b c) = set_cur (abs h b) c.
Proof. done. Qed.

Lemma abs_length h b : wf h b -> zlen (b_data (abs h b)) = m_nUsed b.
Proof.
  intros (Hf & Hnd & Hs & Hc & Hu & Hlt). cbn [abs b_data]. apply zlen_ztake.
  rewrite flat_length by done. lia.
Qed.

Lemma abs_ok h b : wf h b -> buf_ok (abs h b).
Proof. intros Hwf. unfold buf_ok. rewrite abs_length by done. apply Hwf. Qed.

Lemma abs_remaining h b : wf h b -> Buffer.RemainingLength (abs h b) = m_nUsed b - m_nCurrent b.
Proof. intros Hwf. unfold Buffer.RemainingLength. by rewrite abs_length. Qed.

Lemma remaining_u32 h b : wf h b -> u32 (m_nUsed b - m_nCurrent b) = m_nUsed b - m_nCurrent b.
Proof. intros (_ & _ & _ & Hc & _ & Hlt). apply u32_small. lia. Qed.

(** The block under the cursor holds the next unread bytes. *)
Lemma read_chunk h b :
  wf h b -> m_nCurrent b < m_nUsed b ->
  exists id blk, m_lstData b !! Z.to_nat (m_nCurrent b / G_nBlockSize) = Some id /\
    h !! id = Some blk /\
    forall k, 0 <= k <= Z.min (G_nBlockSize - m_nCurrent b mod G_nBlockSize) (m_nUsed b - m_nCurrent b) ->
      ztake k (zdrop (m_nCurrent b mod G_nBlockSize) blk) = ztake k (unread (abs h b)).
Proof.
  intros (Hf & Hnd & Hs & Hc & Hu & Hlt) Hcu. set (i := Z.to_nat (m_nCurrent b / G_nBlockSize)).
  destruct (lookup_lt_is_Some_2 (m_lstData b) i) as [id Hid].
  { assert (m_nCurrent b / G_nBlockSize < zlen (m_lstData b)) by (unfold G_nBlockSize in *; lia).
    unfold i, zlen, G_nBlockSize in *. lia. }
  destruct (Forall_lookup_1 _ _ _ _ Hf Hid) as (blk & Hb & Hl).
  exists id, blk. split; [done|]. split; [done|]. intros k Hk.
  rewrite <- (flat_read h (m_lstData b) i id blk) by (done || unfold G_nBlockSize in *; lia).
  replace (G_nBlockSize * Z.of_nat i + m_nCurrent b mod G_nBlockSize) with (m_nCurrent b)
    by (unfold i, G_nBlockSize in *; lia).
  unfold unread. cbn [abs b_data b_cur].
  rewrite <- (ztake_zdrop (m_nUsed b) (flat h (m_lstData b))) at 1.
  apply ztake_zdrop_app_l; [lia|lia|]. rewrite zlen_ztake; [lia|]. rewrite flat_length by done. lia.
Qed.

Lemma BufferData_Read_eq blk n o :
  0 <= n -> 0 <= o < G_nBlockSize ->
  BufferData_Read blk n o = ztake (Z.min n (G_nBlockSize - o)) (zdrop o blk).
Proof. intros. unfold BufferData_Read. f_equal. zcase; lia. Qed.

Lemma Read_loop_spec fuel h b n out :
  wf h b -> 0 <= n <= m_nUsed b - m_nCurrent b -> n < Z.of_nat fuel ->
  Read_loop fuel h b n out
  = Some (out ++ ztake n (unread (abs h b)), set_current b (m_nCurrent b + n)).
Proof.
  revert b n out. induction fuel as [|f IH]; intros b n out Hwf Hn Hf; [lia|].
  cbn [Read_loop]. destruct (Z.ltb_spec 0 n) as [Hpos|Hpos].
  2:{ rewrite andb_false_r. cbn [negb]. assert (n = 0) as -> by lia.
      rewrite app_nil_r, Z.add_0_r. by destruct b. }
  rewrite (proj2 (Z.ltb_lt _ _)) by lia. cbn [andb negb].
  destruct (read_chunk h b Hwf) as (id & blk & Hid & Hb & Hk); [lia|].
  rewrite Hid. cbn [mbind option_bind]. rewrite Hb. cbn [mbind option_bind].
  assert (Ho : 0 <= m_nCurrent b mod G_nBlockSize < G_nBlockSize) by (unfold G_nBlockSize; lia).
  rewrite BufferData_Read_eq by lia. set (k := Z.min n _). rewrite Hk by lia.
  pose proof (abs_ok h b Hwf) as Hok. pose proof (zlen_unread _ Hok) as Hu.
  rewrite (abs_remaining h b Hwf) in Hu.
  assert (Hl : zlen (ztake k (unread (abs h b))) = k) by (apply zlen_ztake; lia).
  pose proof Hwf as (_ & _ & _ & Hc & _ & Hlt). rewrite Hl, u32_small by lia.
  rewrite IH; [|apply wf_current; [done|lia]|cbn; lia|lia].
  rewrite abs_current, advance_unread by (done || rewrite ?abs_remaining by done; lia).
  cbn [m_nCurrent set_current]. rewrite <- app_assoc. do 2 f_equal; [|unfold set_current; cbn; f_equal; lia].
  f_equal. rewrite <- (ztake_zdrop k (ztake n (unread (abs h b)))). f_equal.
  - symmetry. apply ztake_ztake_le. lia.
  - unfold ztake, zdrop. rewrite skipn_firstn_comm. f_equal. lia.
Qed.

Lemma Read_spec h b n :
  wf h b -> 0 <= n -> exists b', Read h b n = Some ((Buffer.Read (abs h b) n).1, b') /\ wf h b' /\
    abs h b' = (Buffer.Read (abs h b) n).2 /\ m_lstData b' = m_lstData b /\ m_nUsed b' = m_nUsed b.
Proof.
  intros Hwf Hn. unfold Read, Buffer.Read, Buffer.Forward. cbn [fst snd].
  rewrite (abs_remaining h b Hwf), (remaining_u32 h b Hwf).
  pose proof Hwf as (_ & _ & _ & Hc & _).
  set (k := Z.min n (m_nUsed b - m_nCurrent b)).
  exists (set_current b (m_nCurrent b + k)). split; [|split; [apply wf_current; [done|lia]|done]].
  destruct (Z.eqb_spec n 0) as [E|E].
  - assert (k = 0) as -> by lia. rewrite Z.add_0_r. by destruct b.
  - by rewrite Read_loop_spec by (done || lia).
Qed.

Lemma ReadBlock_spec h b n :
  wf h b -> 0 <= n -> exists p k b', ReadBlock b n = Some (p, k, b') /\ wf h b' /\
    (view h p k, abs h b') = Buffer.ReadBlock (abs h b) n /\ k = zlen (view h p k) /\
    (p = None -> k = 0) /\ m_nCurrent b' = m_nCurrent b + k /\
    m_lstData b' = m_lstData b /\ m_nUsed b' = m_nUsed b.
Proof.
  intros Hwf Hn. unfold ReadBlock, Buffer.ReadBlock.
  rewrite (abs_remaining h b Hwf), (remaining_u32 h b Hwf). cbn [abs b_cur].
  pose proof Hwf as (_ & _ & _ & Hc & _ & Hlt).
  assert (Ho : 0 <= m_nCurrent b mod G_nBlockSize < G_nBlockSize) by (unfold G_nBlockSize; lia).
  set (m := Z.min (G_nBlockSize - _) _).
  destruct (Z.ltb_spec 0 m) as [Hm|Hm].
  - destruct (read_chunk h b Hwf) as (id & blk & Hid & Hb & Hk); [lia|].
    rewrite Hid. cbn [mbind option_bind]. set (k := Z.min n m).
    eexists _, k, _. rewrite u32_small by lia. split; [done|].
    assert (Hv : view h (Some (id, m_nCurrent b mod G_nBlockSize)) k = ztake k (unread (abs h b)))
      by (cbn [view]; rewrite Hb; apply Hk; lia).
    pose proof (zlen_unread _ (abs_ok h b Hwf)) as Hu. rewrite (abs_remaining h b Hwf) in Hu.
    rewrite Hv. split_and!; try done; [apply wf_current; [done|lia]|].
    symmetry. apply zlen_ztake. lia.
  - exists None, 0, b. assert (Z.min n m = 0) as -> by lia. split_and!; try done; [|lia].
    rewrite Z.add_0_r. by destruct b.
Qed.

Lemma PeekBlock_spec h b n :
  wf h b -> 0 <= n -> exists p k, PeekBlock b n = Some (p, k) /\
    view h p k = Buffer.PeekBlock (abs h b) n.
Proof.
  intros Hwf Hn. destruct (ReadBlock_spec h b n Hwf Hn) as (p & k & b' & HR & _ & Hv & _).
  exists p, k. unfold ReadBlock in HR. unfold PeekBlock, Buffer.PeekBlock. rewrite <- Hv. split; [|done].
  destruct (0 <? _); [|by simplify_eq]. destruct (_ !! _); [by simplify_eq/=|done].
Qed.

(** ** Moving bytes between buffers *)

Definition apart (b c : BCBuffer) : Prop := forall id, id ∈ m_lstData c -> id ∉ m_lstData b.

Lemma wf_ids h b id : wf h b -> id ∈ m_lstData b -> (id < length h)%nat.
Proof.
  intros [Hf _] Hin. rewrite Forall_forall in Hf. destruct (Hf id Hin) as (blk & Hb & _).
  by eapply lookup_lt_Some.
Qed.

Lemma flat_ext h h' lst :
  (forall id, id ∈ lst -> h' !! id = h !! id) -> flat h' lst = flat h lst.
Proof.
  induction lst as [|id lst IH]; intros H; [done|].
  rewrite !flat_cons, IH by (intros; apply H; by right).
  unfold block_at. by rewrite H by left.
Qed.

(** Writing to one buffer leaves a buffer with no block in common as it was. *)
Lemma frame_abs h b h' b' c :
  frame_ok h b h' b' -> wf h c -> apart b c -> wf h' c /\ abs h' c = abs h c /\ apart b' c.
Proof.
  intros [Hl Hfr] Hc Ha.
  assert (Heq : forall id, id ∈ m_lstData c -> (id ∉ m_lstData b') /\ h' !! id = h !! id).
  { intros id Hin. apply Hfr; [by eapply wf_ids|by apply Ha]. }
  split; [|split].
  - destruct Hc as [Hf Hrest]. split; [|exact Hrest]. rewrite Forall_forall in *.
    intros id Hin. destruct (Hf id Hin) as (blk & Hb & Hlb). exists blk. split; [|done].
    rewrite <- Hb. by apply Heq.
  - unfold abs. f_equal. f_equal. apply flat_ext. intros id Hin. by apply Heq.
  - intros id Hin. by apply Heq.
Qed.

Lemma wf_new h : wf h new_BCBuffer.
Proof. split_and!; try done; constructor. Qed.

Lemma RemoveConsumed_loop_spec uninit fuel h b buf :
  wf h b -> wf h buf -> apart buf b -> m_nUsed buf + (m_nUsed b - m_nCurrent b) < 2 ^ 31 ->
  m_nUsed b - m_nCurrent b < Z.of_nat fuel ->
  exists h' buf', RemoveConsumed_loop uninit fuel h b buf = Some (h', buf') /\ wf h' buf' /\
    abs h' buf' = Buffer.Write (abs h buf) (unread (abs h b)) /\ frame_ok h buf h' buf'.
Proof.
  revert h b buf. induction fuel as [|f IH]; intros h b buf Hwf Hbuf Ha Hlt Hf.
  { pose proof Hwf as (_ & _ & _ & Hc & _). lia. }
  cbn [RemoveConsumed_loop].
  destruct (ReadBlock_spec h b G_nBlockSize Hwf ltac:(done)) as (p & k & b1 & -> & Hwf1 & Hrb & Hk & Hp & Hc1 & Hl1 & Hu1).
  cbn [mbind option_bind]. pose proof (abs_ok h b Hwf) as Hok.
  pose proof (zlen_unread _ Hok) as Hu. rewrite (abs_remaining h b Hwf) in Hu.
  pose proof Hwf as (_ & _ & _ & Hc & _ & Hlt').
  unfold Buffer.ReadBlock in Hrb. rewrite (abs_remaining h b Hwf) in Hrb. cbn [abs b_cur] in Hrb.
  set (m := Z.min G_nBlockSize _) in Hrb.
  assert (Hm : 0 <= m <= m_nUsed b - m_nCurrent b /\ (m = 0 -> m_nUsed b - m_nCurrent b = 0))
    by (unfold m, G_nBlockSize; lia).
  injection Hrb as Hv Hcur1.
  assert (Hkm : k = m) by (rewrite Hk, Hv; apply zlen_ztake; fold (abs h b); lia).
  assert (Hstop : k = 0 -> exists h' buf', Some (h, buf) = Some (h', buf') /\ wf h' buf' /\
    abs h' buf' = Buffer.Write (abs h buf) (unread (abs h b)) /\ frame_ok h buf h' buf').
  { intros E. exists h, buf. rewrite (zlen_0_nil (unread (abs h b))) by lia.
    rewrite write_nil. split_and!; [done|done|done|apply frame_refl]. }
  destruct p as [p|]; [|apply Hstop; by apply Hp].
  destruct (Z.ltb_spec 0 k) as [Hpos|Hpos]; [|apply Hstop; lia].
  destruct (Write_spec uninit h buf (view h (Some p) k) Hbuf) as (h1 & buf1 & -> & Hbuf1 & Habs1 & _ & Hfr1);
    [rewrite <- Hk; lia|].
  cbn [mbind option_bind].
  assert (Ha1 : apart buf b1) by (unfold apart; by rewrite Hl1).
  destruct (frame_abs h buf h1 buf1 b1 Hfr1 Hwf1 Ha1) as (Hwf2 & Heq2 & Ha2).
  assert (Hub : m_nUsed buf1 = m_nUsed buf + k).
  { rewrite <- (abs_length h1 buf1 Hbuf1), Habs1. cbn [Buffer.Write b_data].
    by rewrite zlen_app, abs_length, <- Hk. }
  destruct (IH h1 b1 buf1 Hwf2 Hbuf1 Ha2) as (h' & buf' & HR & Hwf' & Habs' & Hfr'); [lia|lia|].
  exists h', buf'. split; [exact HR|]. split; [done|]. split; [|by eapply frame_trans].
  rewrite Habs', Habs1, Heq2, Hv. unfold Buffer.Write. cbn [b_data b_cur]. rewrite <- app_assoc.
  f_equal. f_equal. rewrite <- (ztake_zdrop m (unread (abs h b))) at 2. f_equal.
  unfold unread. rewrite zdrop_zdrop by (cbn; lia). cbn [abs b_data b_cur]. by rewrite Hl1, Hu1, Hc1, Hkm.
Qed.

Lemma RemoveConsumed_spec uninit h b :
  wf h b -> exists h' b', RemoveConsumed uninit h b = Some (h', b') /\ wf h' b' /\
    abs h' b' = Buffer.RemoveConsumed (abs h b) /\
    (h' = h /\ b' = b \/ frame_ok h new_BCBuffer h' b').
Proof.
  intros Hwf. unfold RemoveConsumed, Buffer.RemoveConsumed. cbn [abs b_cur].
  pose proof Hwf as (_ & _ & _ & Hc & _ & Hlt).
  destruct (Z.ltb_spec 0 (m_nCurrent b)) as [Hpos|Hpos].
  2:{ exists h, b. split_and!; [done|done|done|by left]. }
  destruct (RemoveConsumed_loop_spec uninit (S (Z.to_nat (m_nUsed b))) h b new_BCBuffer Hwf (wf_new h))
    as (h' & b' & -> & Hwf' & Habs & Hfr).
  - by intros id Hin ?%elem_of_nil.
  - cbn. lia.
  - lia.
  - cbn [mbind option_bind]. exists h', b'. split_and!; [done|done|done|by right].
Qed.

(** [WriteTo] appends all the bytes of [b], when [dst] has blocks of its own. *)
Lemma WriteTo_loop_spec uninit h b dst i n :
  wf h b -> wf h dst -> apart dst b -> 0 <= n -> m_nUsed dst + n < 2 ^ 31 ->
  n = Z.max 0 (m_nUsed b - G_nBlockSize * Z.of_nat i) ->
  exists h' dst', WriteTo_loop uninit (drop i (m_lstData b)) n h dst = Some (h', dst') /\ wf h' dst' /\
    abs h' dst' = Buffer.Write (abs h dst) (ztake n (zdrop (G_nBlockSize * Z.of_nat i) (flat h (m_lstData b)))) /\
    frame_ok h dst h' dst'.
Proof.
  intros Hb. remember (drop i (m_lstData b)) as lst eqn:E. revert i n h dst E Hb.
  induction lst as [|id lst IH]; intros i n h dst E Hb Hd Ha Hn Hlt Hrem; cbn [WriteTo_loop].
  - pose proof Hb as (Hf & _ & Hs & _ & Hu & _). exists h, dst.
    apply (f_equal length) in E. rewrite length_drop in E. cbn in E.
    assert (n = 0) as -> by (unfold zlen, G_nBlockSize in *; lia).
    change (ztake 0 _) with (@nil Z). rewrite write_nil. split_and!; [done|done|done|apply frame_refl].
  - destruct (Z.leb_spec n 0) as [H0|H0].
    { assert (n = 0) as -> by lia. exists h, dst. change (ztake 0 _) with (@nil Z). rewrite write_nil.
      split_and!; [done|done|done|apply frame_refl]. }
    pose proof Hb as (Hf & Hnd & Hs & Hc & Hu & Hlt').
    assert (Hid : m_lstData b !! i = Some id).
    { rewrite <- (Nat.add_0_r i), <- lookup_drop, <- E. done. }
    destruct (Forall_lookup_1 _ _ _ _ Hf Hid) as (blk & Hblk & Hlen).
    set (w := Z.min n G_nBlockSize). assert (Hw : 0 <= w <= G_nBlockSize) by (unfold w, G_nBlockSize; lia).
    assert (Hv : view h (Some (id, 0)) w = ztake w (zdrop (G_nBlockSize * Z.of_nat i) (flat h (m_lstData b)))).
    { cbn [view]. rewrite Hblk. rewrite <- (flat_read h (m_lstData b) i id blk 0 w) by (done || lia).
      by rewrite Z.add_0_r. }
    assert (Hvl : zlen (view h (Some (id, 0)) w) = w).
    { cbn [view]. rewrite Hblk, zdrop_0. apply zlen_ztake. lia. }
    destruct (Write_spec uninit h dst (view h (Some (id, 0)) w) Hd) as (h1 & d1 & HW & Hd1 & Habs1 & _ & Hfr1);
      [lia|].
    rewrite HW. cbn [mbind option_bind].
    destruct (frame_abs h dst h1 d1 b Hfr1 Hb Ha) as (Hb1 & Heq & Ha1).
    assert (Hused : m_nUsed d1 = m_nUsed dst + w).
    { rewrite <- (abs_length h1 d1 Hd1), Habs1. cbn [Buffer.Write b_data].
      by rewrite zlen_app, abs_length, Hvl. }
    destruct (IH (S i) (n - w) h1 d1) as (h' & d' & HR & Hd' & Habs' & Hfr'); try done.
    + rewrite <- Nat.add_1_r, <- drop_drop, <- E. done.
    + lia.
    + lia.
    + unfold w, G_nBlockSize in *. lia.
    + exists h', d'. split; [exact HR|]. split; [done|]. split; [|by eapply frame_trans].
      rewrite Habs', Habs1, Hv. unfold Buffer.Write. cbn [b_data b_cur]. rewrite <- app_assoc. f_equal. f_equal.
      assert (Hfe : flat h1 (m_lstData b) = flat h (m_lstData b)).
      { apply flat_ext. intros id' Hin. apply Hfr1; [by apply (wf_ids h b)|by apply Ha]. }
      rewrite Hfe. set (F := flat h (m_lstData b)).
      replace (G_nBlockSize * Z.of_nat (S i)) with (G_nBlockSize * Z.of_nat i + G_nBlockSize)
        by (unfold G_nBlockSize; lia).
      destruct (Z.le_gt_cases n G_nBlockSize) as [Hle|Hgt].
      * assert (w = n) as -> by lia. rewrite Z.sub_diag. change (ztake 0 _) with (@nil Z). by rewrite app_nil_r.
      * assert (w = G_nBlockSize) as -> by lia.
        rewrite <- zdrop_zdrop by (unfold G_nBlockSize; lia). set (T := zdrop _ F).
        rewrite <- (ztake_zdrop G_nBlockSize (ztake n T)). f_equal; [symmetry; apply ztake_ztake_le; lia|].
        unfold ztake, zdrop. rewrite skipn_firstn_comm. f_equal. unfold G_nBlockSize in *. lia.
Qed.

Lemma WriteTo_spec uninit h b dst :
  wf h b -> wf h dst -> apart dst b -> m_nUsed dst + m_nUsed b < 2 ^ 31 ->
  exists h' dst', WriteTo uninit h b dst = Some (h', dst') /\ wf h' dst' /\
    abs h' dst' = Buffer.WriteTo (abs h b) (abs h dst) /\ frame_ok h dst h' dst'.
Proof.
  intros Hb Hd Ha Hlt. pose proof Hb as (_ & _ & _ & Hc & _).
  destruct (WriteTo_loop_spec uninit h b dst 0 (m_nUsed b)) as (h' & d' & HR & Hwf & Habs & Hfr);
    try done; [lia|lia|].
  exists h', d'. split_and!; done.
Qed.

(** ** A client's view: any sequence of operations *)

Inductive op :=
| OWrite (data : bytes) | ORead (n : Z) | OPeek (n : Z) | OReadBlock (n : Z)
| OForward (n : Z) | OBackward (n : Z) | ORewind (offset : Z) | ORemoveConsumed | OReset
| OPeekBlock (n : Z).

Definition exec_op (uninit : Z) (h : heap) (b : BCBuffer) (o : op) : option (bytes * heap * BCBuffer) :=
  match o with
  | OWrite data => '(_, h, b) ← Write uninit h b data; Some ([], h, b)
  | ORead n => '(bs, b) ← Read h b n; Some (bs, h, b)
  | OPeek n => bs ← Peek h b n; Some (bs, h, b)
  | OReadBlock n => '(p, k, b) ← ReadBlock b n; Some (view h p k, h, b)
  | OForward n => Some ([], h, Forward b n)
  | OBackward n => Some ([], h, Backward b n)
  | ORewind n => Some ([], h, Rewind b n)
  | ORemoveConsumed => '(h, b) ← RemoveConsumed uninit h b; Some ([], h, b)
  | OReset => Some ([], h, Reset b)
  | OPeekBlock n => '(p, k) ← PeekBlock b n; Some (view h p k, h, b)
  end.

Definition flat_op (b : buffer) (o : op) : bytes * buffer :=
  match o with
  | OWrite data => ([], Buffer.Write b data)
  | ORead n => Buffer.Read b n
  | OPeek n => ((Buffer.Read b n).1, b)
  | OReadBlock n => Buffer.ReadBlock b n
  | OForward n => ([], Buffer.Forward b n)
  | OBackward n => ([], set_cur b (b_cur b - Z.min n (b_cur b)))
  | ORewind n => ([], Buffer.Rewind b n)
  | ORemoveConsumed => ([], Buffer.RemoveConsumed b)
  | OReset => ([], Buffer.Reset b)
  | OPeekBlock n => (Buffer.PeekBlock b n, b)
  end.

Fixpoint exec (uninit : Z) (h : heap) (b : BCBuffer) (ops : list op)
    : option (list bytes * heap * BCBuffer) :=
  match ops with
  | [] => Some ([], h, b)
  | o :: ops =>
      '(out, h, b) ← exec_op uninit h b o;
      '(outs, h, b) ← exec uninit h b ops;
      Some (out :: outs, h, b)
  end.

Fixpoint flat_exec (b : buffer) (ops : list op) : list bytes * buffer :=
  match ops with
  | [] => ([], b)
  | o :: ops =>
      let '(out, b) := flat_op b o in
      let '(outs, b) := flat_exec b ops in (out :: outs, b)
  end.

Definition op_ok (o : op) : bool :=
  match o with
  | ORead n | OPeek n | OReadBlock n | OForward n | OBackward n | ORewind n | OPeekBlock n => 0 <=? n
  | OWrite _ | ORemoveConsumed | OReset => true
  end.

Definition written (o : op) : Z := match o with OWrite data => zlen data | _ => 0 end.

Definition total_written (ops : list op) : Z := foldr (fun o n => written o + n) 0 ops.

Definition keeps_blocks (o : op) : bool := match o with OReset => false | _ => true end.

(** How an operation may change the blocks of a buffer. *)
Definition evolves (h : heap) (b : BCBuffer) (h' : heap) (b' : BCBuffer) : Prop :=
  m_lstData b `prefix_of` m_lstData b' /\ m_nUsed b <= m_nUsed b' /\ frame_ok h b h' b' /\
    ztake (m_nUsed b) (b_data (abs h' b')) = b_data (abs h b)
  \/ frame_ok h new_BCBuffer h' b'.

Lemma evolves_cursor h b b' :
  wf h b -> m_lstData b' = m_lstData b -> m_nUsed b' = m_nUsed b -> evolves h b h b'.
Proof.
  intros Hwf Hl Hu. left. rewrite Hl, Hu. split_and!; [done|lia| |].
  - split; [done|]. intros id _ Hn. by rewrite Hl.
  - cbn [abs b_data]. rewrite Hl, Hu. apply ztake_ztake_le. lia.
Qed.

Lemma exec_op_spec uninit h b o :
  wf h b -> op_ok o = true -> m_nUsed b + written o < 2 ^ 31 ->
  exists out h' b', exec_op uninit h b o = Some (out, h', b') /\ wf h' b' /\
    flat_op (abs h b) o = (out, abs h' b') /\ m_nUsed b' <= m_nUsed b + written o /\
    (keeps_blocks o = true -> evolves h b h' b').
Proof.
  intros Hwf Hok Hlt. pose proof Hwf as (Hf & Hnd & Hs & Hc & Hu & Hlt').
  assert (Hcur : forall c out, 0 <= c <= m_nUsed b -> flat_op (abs h b) o = (out, set_cur (abs h b) c) ->
    exec_op uninit h b o = Some (out, h, set_current b c) -> written o = 0 ->
    exists out h' b', exec_op uninit h b o = Some (out, h', b') /\ wf h' b' /\
      flat_op (abs h b) o = (out, abs h' b') /\ m_nUsed b' <= m_nUsed b + written o /\
      (keeps_blocks o = true -> evolves h b h' b')).
  { intros c out Hr Hfo He Hw. exists out, h, (set_current b c).
    split_and!; [done|by apply wf_current|done|cbn; lia|]. intros _. by apply evolves_cursor. }
  destruct o; cbn [op_ok written] in *; try apply Z.leb_le in Hok.
  - destruct (Write_spec uninit h b data Hwf Hlt) as (h' & b' & HW & Hwf' & Habs & Hpre & Hfr).
    exists [], h', b'. cbn [exec_op]. rewrite HW. cbn [mbind option_bind flat_op]. rewrite <- Habs.
    assert (Hub : m_nUsed b' = m_nUsed b + zlen data).
    { rewrite <- (abs_length h' b' Hwf'), Habs. cbn [Buffer.Write b_data]. by rewrite zlen_app, abs_length. }
    pose proof (zlen_nonneg data). split_and!; [done|done|done|lia|]. intros _. left.
    split_and!; [done|lia|done|]. rewrite Habs. cbn [Buffer.Write b_data].
    apply ztake_app_exact. by rewrite abs_length.
  - destruct (Read_spec h b n Hwf Hok) as (b' & HR & Hwf' & Habs & Hl & Hub).
    exists (Buffer.Read (abs h b) n).1, h, b'. cbn [exec_op]. rewrite HR. cbn [mbind option_bind flat_op].
    split_and!; [done|done|rewrite Habs; by destruct (Buffer.Read _ _)|lia|].
    intros _. by apply evolves_cursor.
  - destruct (Read_spec h b n Hwf Hok) as (b' & HR & _).
    apply (Hcur (m_nCurrent b) (Buffer.Read (abs h b) n).1); [done|done| |done].
    cbn [exec_op]. unfold Peek. rewrite HR. by destruct b.
  - destruct (ReadBlock_spec h b n Hwf Hok) as (p & k & b' & HR & Hwf' & Habs & Hk & _ & _ & Hl & Hub).
    exists (view h p k), h, b'. cbn [exec_op]. rewrite HR. cbn [mbind option_bind flat_op].
    split_and!; [done|done|done|lia|]. intros _. by apply evolves_cursor.
  - eapply (Hcur (m_nCurrent b + Z.min n (m_nUsed b - m_nCurrent b)) []); [lia| | |done].
    + cbn [flat_op]. unfold Buffer.Forward. by rewrite (abs_remaining h b Hwf).
    + cbn [exec_op]. unfold Forward. by rewrite (remaining_u32 h b Hwf).
  - by apply (Hcur (m_nCurrent b - Z.min n (m_nCurrent b)) []); [lia| | |].
  - apply (Hcur (Z.min offset (m_nUsed b)) []); [lia| |done|done].
    cbn [flat_op]. unfold Buffer.Rewind. by rewrite abs_length.
  - destruct (RemoveConsumed_spec uninit h b Hwf) as (h' & b' & HR & Hwf' & Habs & Hfr).
    exists [], h', b'. cbn [exec_op]. rewrite HR. cbn [mbind option_bind flat_op]. rewrite Habs.
    split_and!; [done|done|done| |].
    + rewrite <- (abs_length h' b' Hwf'), Habs. unfold Buffer.RemoveConsumed.
      pose proof (abs_ok h b Hwf) as Hbo. zcase; cbn [b_data]; [rewrite zlen_unread by done|].
      * rewrite (abs_remaining h b Hwf). lia.
      * rewrite abs_length by done. lia.
    + intros _. destruct Hfr as [[-> ->]|Hfr]; [by apply evolves_cursor|by right].
  - exists [], h, (Reset b). split_and!; [done| |done|cbn; lia|done].
    split; [done|]. split; [done|]. split; [done|]. cbn. lia.
  - destruct (PeekBlock_spec h b n Hwf Hok) as (p & k & HR & Hv).
    apply (Hcur (m_nCurrent b) (Buffer.PeekBlock (abs h b) n)); [done|done| |done].
    cbn [exec_op]. rewrite HR. cbn [mbind option_bind]. rewrite Hv. by destruct b.
Qed.

Lemma total_written_nonneg ops : 0 <= total_written ops.
Proof.
  induction ops as [|o ops IH]; [done|]. cbn [total_written foldr].
  fold (total_written ops). destruct o as [data| | | | | | | | |]; cbn [written]; try lia.
  pose proof (zlen_nonneg data). lia.
Qed.

Lemma exec_spec uninit h b ops :
  wf h b -> forallb op_ok ops = true -> m_nUsed b + total_written ops < 2 ^ 31 ->
  exists outs h' b', exec uninit h b ops = Some (outs, h', b') /\ wf h' b' /\
    flat_exec (abs h b) ops = (outs, abs h' b').
Proof.
  revert h b. induction ops as [|o ops IH]; intros h b Hwf Hok Hlt; [by exists [], h, b|].
  cbn [forallb total_written foldr] in Hok, Hlt. fold (total_written ops) in Hlt.
  apply andb_true_iff in Hok as [Ho Hok]. pose proof (total_written_nonneg ops).
  destruct (exec_op_spec uninit h b o Hwf Ho) as (out & h1 & b1 & He & Hwf1 & Hfl & Hu & _); [lia|].
  destruct (IH h1 b1 Hwf1 Hok) as (outs & h' & b' & Hes & Hwf' & Hfls); [lia|].
  exists (out :: outs), h', b'. cbn [exec flat_exec]. rewrite He. cbn [mbind option_bind].
  rewrite Hes, Hfl, Hfls. done.
Qed.

(** ** Snapshots *)

(** [c] sees a prefix of what [b] holds, or shares nothing with it. *)
Definition snapshot (h : heap) (b c : BCBuffer) : Prop :=
  wf h c /\ (m_lstData c `prefix_of` m_lstData b /\ m_nUsed c <= m_nUsed b \/ apart b c).

Lemma prefix_data h b c :
  wf h c -> m_lstData c `prefix_of` m_lstData b -> m_nUsed c <= m_nUsed b ->
  b_data (abs h c) = ztake (m_nUsed c) (b_data (abs h b)).
Proof.
  intros (Hf & _ & Hs & Hc & Hu & _) [r Hr] Hle. cbn [abs b_data]. rewrite Hr, flat_app.
  rewrite ztake_ztake_le by done. symmetry. apply ztake_app_le.
  rewrite flat_length by done. lia.
Qed.

Lemma snapshot_evolves h b h' b' c :
  wf h b -> wf h' b' -> evolves h b h' b' -> snapshot h b c -> snapshot h' b' c /\ abs h' c = abs h c.
Proof.
  intros Hb Hb' [(Hpre & Hu & Hfr & Hd) | Hfr] [Hc [[Hp Hle]|Ha]].
  - assert (Hc' : wf h' c).
    { destruct Hc as [Hf Hrest]. split; [|exact Hrest]. rewrite Forall_forall. intros id Hin.
      destruct Hb' as [Hf' _]. rewrite Forall_forall in Hf'. apply Hf'.
      eapply elem_of_prefix; [|exact Hpre]. by eapply elem_of_prefix. }
    assert (Hp' : m_lstData c `prefix_of` m_lstData b') by by etrans.
    split; [split; [done|left; split; [done|lia]]|].
    assert (He : b_data (abs h' c) = b_data (abs h c)).
    { rewrite (prefix_data h' b' c) by (done || lia). rewrite (prefix_data h b c) by done.
      rewrite <- Hd. symmetry. by apply ztake_ztake_le. }
    unfold abs in *. cbn [b_data] in He. by rewrite He.
  - destruct (frame_abs h b h' b' c Hfr Hc Ha) as (Hc' & He & Ha'). split; [|done]. split; [done|by right].
  - destruct (frame_abs h new_BCBuffer h' b' c Hfr Hc) as (Hc' & He & Ha');
      [intros id _; apply not_elem_of_nil|]. split; [|done]. split; [done|by right].
  - destruct (frame_abs h new_BCBuffer h' b' c Hfr Hc) as (Hc' & He & Ha');
      [intros id _; apply not_elem_of_nil|]. split; [|done]. split; [done|by right].
Qed.

Lemma exec_snapshot uninit h b c ops :
  wf h b -> snapshot h b c -> forallb op_ok ops = true -> forallb keeps_blocks ops = true ->
  m_nUsed b + total_written ops < 2 ^ 31 ->
  exists outs h' b', exec uninit h b ops = Some (outs, h', b') /\ abs h' c = abs h c.
Proof.
  revert h b. induction ops as [|o ops IH]; intros h b Hwf Hsn Hok Hk Hlt; [by exists [], h, b|].
  cbn [forallb total_written foldr] in Hok, Hk, Hlt. fold (total_written ops) in Hlt.
  apply andb_true_iff in Hok as [Ho Hok]. apply andb_true_iff in Hk as [Hk1 Hk].
  pose proof (total_written_nonneg ops).
  destruct (exec_op_spec uninit h b o Hwf Ho) as (out & h1 & b1 & He & Hwf1 & _ & Hu & Hev); [lia|].
  destruct (snapshot_evolves h b h1 b1 c Hwf Hwf1 (Hev Hk1) Hsn) as [Hsn1 Ha1].
  destruct (IH h1 b1 Hwf1 Hsn1 Hok Hk) as (outs & h' & b' & Hes & Ha'); [lia|].
  exists (out :: outs), h', b'. cbn [exec]. rewrite He. cbn [mbind option_bind]. rewrite Hes.
  split; [done|congruence].
Qed.

(** ** Extract *)

(** Each turn takes the front block but pops the back one, so what is extracted from
    a buffer with blocks to spare is its first block over and over. *)
Lemma Extract_loop_repeats n b buf id rest :
  m_lstData b = id :: rest -> (n <= length rest)%nat ->
  exists b' buf', Extract_loop n b buf = Some (b', buf') /\
    m_lstData buf' = m_lstData buf ++ replicate n id /\
    m_lstData b' = id :: take (length rest - n) rest.
Proof.
  revert b buf rest. induction n as [|n IH]; intros b buf rest Hb Hn; cbn [Extract_loop].
  - exists b, buf. rewrite app_nil_r, Hb, Nat.sub_0_r, firstn_all. done.
  - rewrite Hb. cbn [head mbind option_bind].
    destruct rest as [|x rest] using rev_ind; [cbn in Hn; lia|].
    rewrite app_comm_cons, removelast_last. rewrite length_app in Hn. cbn in Hn.
    edestruct (IH {| m_lstData := id :: rest; m_nSize := m_nSize b; m_nUsed := m_nUsed b;
                     m_nCurrent := m_nCurrent b |}) as (b' & buf' & HE & Hbuf & Hb'); [done|lia|].
    exists b', buf'. split; [exact HE|]. rewrite Hbuf, Hb'. cbn [m_lstData].
    rewrite <- app_assoc. split; [done|]. f_equal. rewrite length_app. cbn [length].
    replace (length rest + 1 - S n)%nat with (length rest - n)%nat by lia.
    by rewrite take_app_le by lia.
Qed.

Lemma flat_replicate h n id : flat h (replicate n id) = concat (replicate n (block_at h id)).
Proof. unfold flat. induction n as [|n IH]; [done|]. cbn [replicate map concat]. by rewrite IH. Qed.

Lemma Extract_loop_size n b buf b' buf' :
  Extract_loop n b buf = Some (b', buf') -> m_nSize buf + G_nBlockSize * Z.of_nat n < 2 ^ 32 ->
  0 <= m_nSize buf -> m_nSize buf' = m_nSize buf + G_nBlockSize * Z.of_nat n.
Proof.
  revert b buf. induction n as [|n IH]; intros b buf; cbn [Extract_loop].
  - intros [= _ <-] _ _. lia.
  - destruct (head (m_lstData b)) as [id|]; [|done]. cbn [mbind option_bind]. intros HE Hlt H0.
    apply IH in HE; cbn [m_nSize] in *; unfold G_nBlockSize in *; rewrite u32_small in * by lia; lia.
Qed.

(** What a caller of [Extract] gets when it asks for fewer blocks than there are. *)
Lemma Extract_repeats_first_block h b buf n :
  wf h b -> 0 < n -> G_nBlockSize * n < m_nUsed b ->
  exists b' buf', Extract b buf n = Some (n, b', buf') /\
    b_data (abs h buf') = concat (replicate (Z.to_nat n) (ztake G_nBlockSize (b_data (abs h b)))).
Proof.
  intros (Hf & Hnd & Hs & Hc & Hu & Hlt) Hn Hused. unfold Extract, Reset0.
  cbn [m_nUsed Rewind set_current]. rewrite (proj2 (Z.eqb_neq _ _)) by (unfold G_nBlockSize in *; lia).
  rewrite u32_small by (unfold G_nBlockSize in *; lia).
  set (nUsed := (m_nUsed b + G_nBlockSize - 1) / G_nBlockSize).
  assert (Hnu : n < nUsed <= zlen (m_lstData b)) by (unfold nUsed, G_nBlockSize in *; lia).
  rewrite (Z.min_l n) by lia.
  destruct (m_lstData b) as [|id rest] eqn:Hl; [change (zlen (@nil nat)) with 0 in Hnu; lia|].
  rewrite zlen_cons in Hnu. unfold zlen in Hnu.
  destruct (Extract_loop_repeats (Z.to_nat n) (Rewind b 0) new_BCBuffer id rest)
    as (b' & buf' & HE & Hbuf & _); [done|lia|].
  rewrite HE. cbn [mbind option_bind].
  rewrite (proj2 (Z.ltb_lt n nUsed)) by lia. eexists _, _. split; [done|].
  assert (Hsz : m_nSize buf' = G_nBlockSize * n).
  { apply Extract_loop_size in HE; cbn [m_nSize new_BCBuffer] in *; unfold G_nBlockSize in *; lia. }
  inversion Hf as [|? ? (blk & Hb & Hlen) Hrest]; subst.
  cbn [abs b_data set_used m_nUsed m_lstData] in *. rewrite Hl, Hbuf, app_nil_l, flat_replicate, Hsz.
  rewrite flat_cons, (block_at_Some h id blk Hb).
  rewrite ztake_ztake_le by (unfold G_nBlockSize in *; lia). rewrite (ztake_app_exact _ blk) by done.
  apply ztake_all. clear -Hlen Hn.
  assert (E : zlen (concat (replicate (Z.to_nat n) blk)) = G_nBlockSize * Z.of_nat (Z.to_nat n)).
  { induction (Z.to_nat n) as [|k IH]; [done|]. cbn [replicate concat].
    rewrite zlen_app, IH, Hlen. unfold G_nBlockSize. lia. }
  rewrite E. unfold G_nBlockSize. lia.
Qed.

(** ** Properties *)

(** C40: the shared blocks implement the buffer the rest of the program is verified
    against. From any well-formed buffer, any sequence of writes, reads, peeks,
    block reads and peeks, cursor moves, [RemoveConsumed] and [Reset] that keeps within 2^31
    bytes terminates, indexes no block out of range, and returns what the flat
    buffer of [Buffer.v] returns, ending with the same bytes and cursor. *)
Theorem blocks_implement_buffer (uninit : Z) (h : heap) (b : BCBuffer) (ops : list op) :
  wf h b -> forallb op_ok ops = true -> m_nUsed b + total_written ops < 2 ^ 31 ->
  exists outs h' b', exec uninit h b ops = Some (outs, h', b') /\ wf h' b' /\
    flat_exec (abs h b) ops = (outs, abs h' b').
Proof. apply exec_spec. Qed.

Lemma blocks_implement_buffer_witness :
  exists outs h' b',
    exec 190 [] new_BCBuffer [OWrite [1; 2; 3; 4]; ORead 1; ORemoveConsumed; OWrite [5]; OPeekBlock 2; OReadBlock 9]
      = Some (outs, h', b') /\ wf h' b' /\
    ([[]; [1]; []; []; [2; 3]; [2; 3; 4; 5]], {| b_data := [2; 3; 4; 5]; b_cur := 4 |}) = (outs, abs h' b').
Proof.
  apply (blocks_implement_buffer 190 [] new_BCBuffer
           [OWrite [1; 2; 3; 4]; ORead 1; ORemoveConsumed; OWrite [5]; OPeekBlock 2; OReadBlock 9]).
  - apply wf_new.
  - reflexivity.
  - reflexivity.
Defined.

(** A reference clone is a snapshot. Whatever is then done to the original, short
    of a [Reset] that keeps its blocks, the clone goes on reading the bytes it had
    when it was taken, although the two share blocks and the original goes on
    writing into the last of them. *)
Theorem RefClone_snapshot (uninit : Z) (h : heap) (b : BCBuffer) (ops : list op) :
  wf h b -> forallb op_ok ops = true -> forallb keeps_blocks ops = true ->
  m_nUsed b + total_written ops < 2 ^ 31 ->
  exists outs h' b', exec uninit h b ops = Some (outs, h', b') /\
    abs h' (RefClone b) = abs h (RefClone b).
Proof.
  intros Hwf Hok Hk Hlt. apply exec_snapshot; try done.
  split; [done|]. left. split; [done|]. unfold RefClone. lia.
Qed.

Lemma RefClone_snapshot_witness :
  let h := [replicate (Z.to_nat 8192) 7] in
  let b := {| m_lstData := [0%nat]; m_nSize := 8192; m_nUsed := 3; m_nCurrent := 1 |} in
  exists outs h' b', exec 0 h b [OWrite [1; 2]; ORead 4; ORemoveConsumed; OWrite [9]] = Some (outs, h', b') /\
    abs h' (RefClone b) = abs h (RefClone b).
Proof.
  intros h b. apply (RefClone_snapshot 0 h b).
  - split; [|split; [|split; [reflexivity|vm_compute; repeat split; discriminate]]].
    + constructor; [|constructor]. exists (replicate (Z.to_nat 8192) 7). split; reflexivity.
    + apply NoDup_singleton.
  - reflexivity.
  - reflexivity.
  - reflexivity.
Defined.

(** A [Reset] that keeps the blocks is why: what is written next lands in the clone. *)
Lemma Reset_overwrites_clone :
  let h := [replicate (Z.to_nat 8192) 7] in
  let b := {| m_lstData := [0%nat]; m_nSize := 8192; m_nUsed := 3; m_nCurrent := 0 |} in
  match exec 0 h b [OReset; OWrite [1; 2]] with
  | Some (_, h', _) => b_data (abs h (RefClone b)) = [7; 7; 7] /\ b_data (abs h' (RefClone b)) = [1; 2; 7]
  | None => False
  end.
Proof. vm_compute. split; reflexivity. Qed.
