(* ===== verification/BCFObject.v ===== *)
(** * BCFObject: the objects that configure a connector ([src/deps/env/src/BC/BCFCodec.h])

    A configuration is a [BCFObject], from which each component reads the members it knows
    when they have the type it expects. The readers of the components are written with the
    combinators of this file. *)

From Stdlib Require Import ZArith Lia.
From stdpp Require Import base numbers option list.
From S2P Require Import Prelude.

(** The values of a [BCFObject]; a number is what [GetBCFInt] gives, a string may be null, an
    item of an array that is not a text is [None]. *)
Inductive BCFVar :=
| BCFNumber (v : Z) | BCFString (s : option bytes) | BCFBool (b : bool) | BCFArray (l : list (option bytes)) | BCFOther.

Abbreviation BCFObject := (bytes -> option BCFVar).

Definition bcf_text (s : option bytes) : bytes := match s with Some s => c_str s | None => [] end.

Definition on_number {A} (v : option BCFVar) (f : Z -> A -> A) (a : A) : A :=
  match v with Some (BCFNumber n) => f (u64 n) a | _ => a end.
Definition on_string {A} (v : option BCFVar) (f : bytes -> A -> A) (a : A) : A :=
  match v with Some (BCFString s) => f (bcf_text s) a | _ => a end.
Definition on_bool {A} (v : option BCFVar) (f : bool -> A -> A) (a : A) : A :=
  match v with Some (BCFBool b) => f b a | _ => a end.

(** A string kept as the pointer it is, which may be null. *)
Definition on_pointer {A} (v : option BCFVar) (f : option bytes -> A -> A) (a : A) : A :=
  match v with Some (BCFString s) => f (c_str <$> s) a | _ => a end.

(** ** What a reader keeps *)

Lemma on_number_ok {A} (P : A -> Prop) v f a : P a -> (forall n a, 0 <= n -> P a -> P (f n a)) -> P (on_number v f a).
Proof.
  intros Ha Hf. unfold on_number. destruct v as [[]|]; try done. apply Hf; [|done].
  apply (wrap_in_word 64). done.
Qed.

Lemma on_string_ok {A} (P : A -> Prop) v f a : P a -> (forall s a, P a -> P (f s a)) -> P (on_string v f a).
Proof. intros Ha Hf. unfold on_string. destruct v as [[]|]; try done. by apply Hf. Qed.

Lemma on_bool_ok {A} (P : A -> Prop) v f a : P a -> (forall s a, P a -> P (f s a)) -> P (on_bool v f a).
Proof. intros Ha Hf. unfold on_bool. destruct v as [[]|]; try done. by apply Hf. Qed.

Lemma on_pointer_ok {A} (P : A -> Prop) v f a : P a -> (forall s a, P a -> P (f s a)) -> P (on_pointer v f a).
Proof. intros Ha Hf. unfold on_pointer. destruct v as [[]|]; try done. by apply Hf. Qed.
