(* ===== verification/SMPParser.v ===== *)
(** * SMPParser: the packet framing of the signalling stream
      ([src/cpp/SMPParser.cpp], [SMPParser.h], [SMPacket.h])

    The parser keeps the bytes received and not yet parsed at the start of one
    allocation, [data_buf_], and a running count of the bytes the current state
    requires. Operations are in the option monad: [None] is a failed [assert], an
    access outside the received bytes, or a loop that did not stop within its
    fuel. What the handler is told is a list of events. *)

From stdpp Require Import base list numbers option.
From Stdlib Require Import ZArith Lia.
From S2P Require Import Prelude StreamParser Buffer.

(** ** Big-endian macros, on signed characters *)

Definition char_at (m : bytes) (p : Z) : option Z := b ← zget m p; Some (schar b).

(** [((uint32_t)(c) & 0xFF) << k] and its 64-bit form. *)
Definition byte_in32 (c k : Z) : Z := Z.shiftl (Z.land (u32 c) 0xFF) k.
Definition byte_in64 (c k : Z) : Z := Z.shiftl (Z.land (u64 c) 0xFF) k.

Definition MY_UI8BEI (m : bytes) (p : Z) : option Z :=
  c ← char_at m p; Some (u32 c).

Definition MY_UI32BEI (m : bytes) (p : Z) : option Z :=
  c0 ← char_at m p; c1 ← char_at m (p + 1); c2 ← char_at m (p + 2); c3 ← char_at m (p + 3);
  Some (u32 (byte_in32 c0 24 + byte_in32 c1 16 + byte_in32 c2 8 + byte_in32 c3 0)).

Definition MY_UI64BEI (m : bytes) (p : Z) : option Z :=
  c0 ← char_at m p; c1 ← char_at m (p + 1); c2 ← char_at m (p + 2); c3 ← char_at m (p + 3);
  c4 ← char_at m (p + 4); c5 ← char_at m (p + 5); c6 ← char_at m (p + 6); c7 ← char_at m (p + 7);
  Some (u64 (byte_in64 c0 56 + byte_in64 c1 48 + byte_in64 c2 40 + byte_in64 c3 32
             + byte_in64 c4 24 + byte_in64 c5 16 + byte_in64 c6 8 + byte_in64 c7 0)).

(** [((char* )p)[i] = (char)v], inside the allocation. *)
Definition store_char (m : bytes) (p v : Z) : option bytes :=
  if (0 <=? p) && (p <? zlen m) then Some (write_at m p [u8 v]) else None.

(** [(u & (0xFF << k)) >> k]. *)
Definition byte_out (u k : Z) : Z := Z.shiftr (Z.land u (Z.shiftl 0xFF k)) k.

Definition MY_UI8BEO (m : bytes) (p u : Z) : option bytes := store_char m p (byte_out u 0).

Definition MY_UI32BEO (m : bytes) (p u : Z) : option bytes :=
  m ← store_char m p (byte_out u 24);
  m ← store_char m (p + 1) (byte_out u 16);
  m ← store_char m (p + 2) (byte_out u 8);
  store_char m (p + 3) (byte_out u 0).

Definition MY_UI64BEO (m : bytes) (p u : Z) : option bytes :=
  m ← store_char m p (byte_out u 56);
  m ← store_char m (p + 1) (byte_out u 48);
  m ← store_char m (p + 2) (byte_out u 40);
  m ← store_char m (p + 3) (byte_out u 32);
  m ← store_char m (p + 4) (byte_out u 24);
  m ← store_char m (p + 5) (byte_out u 16);
  m ← store_char m (p + 6) (byte_out u 8);
  store_char m (p + 7) (byte_out u 0).

(** ** State *)

Definition DEFAULT_HEADER_SIZE : Z := 17.

Record SMPHeader := {
  m_eDataType : Z;
  m_nDataSize : Z;
  m_nTimestamp : Z;
  m_nTransId : Z;
  m_nStreamId : Z
}.

Definition empty_header : SMPHeader :=
  {| m_eDataType := 0; m_nDataSize := 0; m_nTimestamp := 0; m_nTransId := 0; m_nStreamId := 0 |}.

(** [SMPHeader::Reset]. *)
Definition SMPHeader_Reset (h : SMPHeader) : SMPHeader := empty_header.

Inductive ParseStateE :=
| PARSE_TYPE | PARSE_PAYLOAD_SIZE | PARSE_TIMESTAMP | PARSE_STREAM_ID | PARSE_PAYLOAD.

#[global] Instance ParseStateE_eq_dec : EqDecision ParseStateE.
Proof. solve_decision. Defined.

Record SMPParser := {
  m_pHandler : bool;                 (* whether a handler is set *)
  data_buf_ : bytes;                 (* the whole allocation *)
  buf_size_ : Z;
  data_size_ : Z;
  parsed_size_ : Z;
  parsed_header_ : SMPHeader;
  parse_state_ : ParseStateE;
  require_data_size_ : Z;
  pack_data_buf_ : bytes;
  pack_buf_size_ : Z
}.

(** The constructor. *)
Definition new_SMPParser : SMPParser :=
  {| m_pHandler := false; data_buf_ := []; buf_size_ := 0; data_size_ := 0; parsed_size_ := 0;
     parsed_header_ := empty_header; parse_state_ := PARSE_TYPE;
     require_data_size_ := DEFAULT_HEADER_SIZE; pack_data_buf_ := []; pack_buf_size_ := 0 |}.

(** What the handler is told: [OnPacketParsed] and [OnDataPacked]. *)
Inductive smp_event :=
| OnPacketParsed (h : SMPHeader) (payload : bytes)
| OnDataPacked (data : bytes).

(** Field updates. *)
Definition set_header (p : SMPParser) (h : SMPHeader) : SMPParser :=
  {| m_pHandler := m_pHandler p; data_buf_ := data_buf_ p; buf_size_ := buf_size_ p;
     data_size_ := data_size_ p; parsed_size_ := parsed_size_ p; parsed_header_ := h;
     parse_state_ := parse_state_ p; require_data_size_ := require_data_size_ p;
     pack_data_buf_ := pack_data_buf_ p; pack_buf_size_ := pack_buf_size_ p |}.
Definition set_data (p : SMPParser) (m : bytes) (cap size parsed : Z) : SMPParser :=
  {| m_pHandler := m_pHandler p; data_buf_ := m; buf_size_ := cap;
     data_size_ := size; parsed_size_ := parsed; parsed_header_ := parsed_header_ p;
     parse_state_ := parse_state_ p; require_data_size_ := require_data_size_ p;
     pack_data_buf_ := pack_data_buf_ p; pack_buf_size_ := pack_buf_size_ p |}.
Definition set_state (p : SMPParser) (s : ParseStateE) (req : Z) : SMPParser :=
  {| m_pHandler := m_pHandler p; data_buf_ := data_buf_ p; buf_size_ := buf_size_ p;
     data_size_ := data_size_ p; parsed_size_ := parsed_size_ p;
     parsed_header_ := parsed_header_ p; parse_state_ := s; require_data_size_ := req;
     pack_data_buf_ := pack_data_buf_ p; pack_buf_size_ := pack_buf_size_ p |}.
Definition set_pack (p : SMPParser) (m : bytes) (cap : Z) : SMPParser :=
  {| m_pHandler := m_pHandler p; data_buf_ := data_buf_ p; buf_size_ := buf_size_ p;
     data_size_ := data_size_ p; parsed_size_ := parsed_size_ p;
     parsed_header_ := parsed_header_ p; parse_state_ := parse_state_ p;
     require_data_size_ := require_data_size_ p; pack_data_buf_ := m; pack_buf_size_ := cap |}.

(** Consume [n] required bytes. *)
Definition consume (p : SMPParser) (n : Z) : SMPParser :=
  set_state (set_data p (data_buf_ p) (buf_size_ p) (data_size_ p) (parsed_size_ p + n))
    (parse_state_ p) (u32 (require_data_size_ p - n)).

(** ** Life cycle *)

(** [Create]: the assertion wants a handler. *)
Definition Create (p : SMPParser) (pHandler : bool) (stream_id : Z) : option SMPParser :=
  if pHandler then
    let h := parsed_header_ p in
    Some {| m_pHandler := true; data_buf_ := data_buf_ p; buf_size_ := buf_size_ p;
            data_size_ := data_size_ p; parsed_size_ := parsed_size_ p;
            parsed_header_ := {| m_eDataType := m_eDataType h; m_nDataSize := m_nDataSize h;
                                 m_nTimestamp := m_nTimestamp h; m_nTransId := m_nTransId h;
                                 m_nStreamId := stream_id |};
            parse_state_ := parse_state_ p; require_data_size_ := require_data_size_ p;
            pack_data_buf_ := pack_data_buf_ p; pack_buf_size_ := pack_buf_size_ p |}
  else None.

Definition Initialize (p : SMPParser) : SMPParser :=
  set_state (set_data p (data_buf_ p) (buf_size_ p) 0 (parsed_size_ p))
    (parse_state_ p) DEFAULT_HEADER_SIZE.

Definition Cleanup (p : SMPParser) : SMPParser :=
  set_pack (set_state (set_data p [] 0 0 0) PARSE_TYPE (require_data_size_ p)) [] 0.

(** ** Parsing *)

(** The received bytes of the allocation. *)
Definition received (p : SMPParser) : bytes := ztake (data_size_ p) (data_buf_ p).

Definition available (p : SMPParser) : Z := u64 (data_size_ p - parsed_size_ p).

Definition RequireData (p : SMPParser) (nSize : Z) (eParseState : ParseStateE) : bool * SMPParser :=
  let s := if require_data_size_ p =? 0 then eParseState else parse_state_ p in
  let p := set_state p s (u32 (require_data_size_ p + nSize)) in
  (require_data_size_ p <=? available p, p).

Definition ParseHeader (p : SMPParser) : option (bool * SMPParser) :=
  if DEFAULT_HEADER_SIZE <=? require_data_size_ p then
    let m := received p in
    t ← MY_UI8BEI m (parsed_size_ p);
    let p := consume p 1 in
    n ← MY_UI32BEI m (parsed_size_ p);
    let p := consume p 4 in
    ts ← MY_UI64BEI m (parsed_size_ p);
    let p := consume p 8 in
    tr ← MY_UI32BEI m (parsed_size_ p);
    let p := consume p 4 in
    let p := set_header p {| m_eDataType := u8 t; m_nDataSize := n; m_nTimestamp := ts;
                             m_nTransId := tr; m_nStreamId := m_nStreamId (parsed_header_ p) |} in
    Some (RequireData p n PARSE_PAYLOAD)
  else None.

Definition ParsePayload (p : SMPParser) : option (bool * SMPParser * list smp_event) :=
  let h := parsed_header_ p in
  if m_nDataSize h <=? require_data_size_ p then
    payload ← sub_bytes (received p) (parsed_size_ p) (m_nDataSize h);
    if m_pHandler p then
      let '(go, p') := RequireData (consume p (m_nDataSize h)) DEFAULT_HEADER_SIZE PARSE_TYPE in
      Some (go, p', [OnPacketParsed h payload])
    else None
  else None.

(** The [switch] of the loop; the states that are not used make no progress. *)
Definition parse_turn (p : SMPParser) : option (bool * SMPParser * list smp_event) :=
  match parse_state_ p with
  | PARSE_TYPE => '(go, p') ← ParseHeader p; Some (go, p', [])
  | PARSE_PAYLOAD => ParsePayload p
  | _ => Some (true, p, [])
  end.

(** The loop of [Parse]. *)
Fixpoint Parse_loop (fuel : nat) (bContinue : bool) (p : SMPParser)
    : option (SMPParser * list smp_event) :=
  match fuel with
  | O => None
  | S f =>
      if negb bContinue then Some (p, [])
      else if available p <? require_data_size_ p then Some (p, [])
      else
        '(go, p', evs) ← parse_turn p;
        '(p'', evs') ← Parse_loop f go p';
        Some (p'', evs ++ evs')
  end.

Section Parse.
(** What an extended allocation holds before it is written. *)
Context (uninit : Z).

(** Appending the bytes, after growing the allocation to exactly fit when needed. *)
Definition receive (p : SMPParser) (data : bytes) : SMPParser :=
  let n := zlen data in
  let '(m, cap) := if u64 (buf_size_ p - data_size_ p) <? n
                   then (mem_resize uninit (data_size_ p + n) (data_buf_ p), data_size_ p + n)
                   else (data_buf_ p, buf_size_ p) in
  set_data p (write_at m (data_size_ p) data) cap (data_size_ p + n) (parsed_size_ p).

(** Moving the unparsed bytes to the start. *)
Definition compact (p : SMPParser) : SMPParser :=
  if data_size_ p <=? parsed_size_ p then set_data p (data_buf_ p) (buf_size_ p) 0 0
  else if 0 <? parsed_size_ p then
    set_data p (write_at (data_buf_ p) 0 (zdrop (parsed_size_ p) (received p))) (buf_size_ p)
      (data_size_ p - parsed_size_ p) 0
  else p.

(** [Parse]: a header and an empty payload are two turns for 17 bytes, so twice the
    bytes held, and two more, is enough. *)
Definition Parse (p : SMPParser) (data : bytes) : option (SMPParser * list smp_event) :=
  let p := receive p data in
  '(p, evs) ← Parse_loop (2 * length (received p) + 3) true p;
  Some (compact p, evs).

(** ** Packing *)

Record SMPacket := {
  type : Z;
  timestamp : Z;
  trans_id : Z;
  stream_id : Z;
  origion_data : buffer;
  packed_jmp_data : option buffer
}.

(** [PackData]: the frame is built in the parser's own allocation and handed over. *)
Definition PackData (p : SMPParser) (ty ts transId : Z) (payload : buffer)
    : option (SMPParser * list smp_event) :=
  let payload_size := u32 (RemainingLength payload) in
  let '(m, cap) := if pack_buf_size_ p <? u32 (DEFAULT_HEADER_SIZE + payload_size)
                   then (mem_resize uninit (u32 (DEFAULT_HEADER_SIZE + payload_size)) (pack_data_buf_ p),
                         u32 (DEFAULT_HEADER_SIZE + payload_size))
                   else (pack_data_buf_ p, pack_buf_size_ p) in
  m ← MY_UI8BEO m 0 ty;
  m ← MY_UI32BEO m 1 payload_size;
  m ← MY_UI64BEO m 5 ts;
  m ← MY_UI32BEO m 13 transId;
  '(bs, _) ← WriteFromReader payload payload_size;
  if 17 + zlen bs <=? zlen m then
    let m := write_at m 17 bs in
    let offset := i32 (17 + payload_size) in
    if m_pHandler p then
      data ← sub_bytes m 0 (u64 offset);
      Some (set_pack p m cap, [OnDataPacked data])
    else Some (set_pack p m cap, [])
  else None.

(** [PackPacket]: into the packet's own buffer. *)
Definition PackPacket (pkt : SMPacket) : SMPacket :=
  let payload_size := u32 (RemainingLength (origion_data pkt)) in
  let w := match packed_jmp_data pkt with Some b => Reset b | None => empty_buffer end in
  let w := WriteUInt8 w (type pkt) in
  let w := WriteUInt32BE w payload_size in
  let w := WriteUInt64BE w (timestamp pkt) in
  let w := WriteUInt32BE w (trans_id pkt) in
  {| type := type pkt; timestamp := timestamp pkt; trans_id := trans_id pkt;
     stream_id := stream_id pkt; origion_data := origion_data pkt;
     packed_jmp_data := Some (WriteTo (origion_data pkt) w) |}.
End Parse.

(** ** Specification

    The stream is a sequence of packets, each a 17-byte header in network order
    (type, payload size, timestamp, transaction) and the payload. *)

Definition be_field (bs : bytes) (off n : Z) : Z := be_val (ztake n (zdrop off bs)).

Definition decode_header (sid : Z) (bs : bytes) : SMPHeader :=
  {| m_eDataType := be_field bs 0 1; m_nDataSize := be_field bs 1 4;
     m_nTimestamp := be_field bs 5 8; m_nTransId := be_field bs 13 4; m_nStreamId := sid |}.

Definition encode_packet (ty ts transId : Z) (payload : bytes) : bytes :=
  be_bytes 1 ty ++ be_bytes 4 (zlen payload) ++ be_bytes 8 ts ++ be_bytes 4 transId ++ payload.

(** Waiting for a header of the stream, or for the payload of a header. *)
Inductive smp_wait := WaitHeader (sid : Z) | WaitPayload (h : SMPHeader).

Inductive no_error := .

#[export] Instance smp_stream : IncParser smp_wait smp_event no_error := {
  need s := match s with
            | WaitHeader _ => DEFAULT_HEADER_SIZE
            | WaitPayload h => Z.max 0 (m_nDataSize h)
            end;
  step s bs := match s with
               | WaitHeader sid => inl (WaitPayload (decode_header sid bs), [])
               | WaitPayload h => inl (WaitHeader (m_nStreamId h), [OnPacketParsed h bs])
               end;
  idle_rank s := match s with WaitHeader _ => 0%nat | WaitPayload _ => 1%nat end
}.

#[export] Instance smp_stream_ok : IncParserOk smp_wait smp_event no_error.
Proof.
  split.
  - intros [sid|h]; cbn; unfold DEFAULT_HEADER_SIZE; lia.
  - intros [sid|h] s' bs evs; cbn; [done|]. intros _ [= <- <-]. cbn. lia.
Qed.

(** ** Macro lemmas *)

Lemma byte_in32_val b k : is_byte b -> 0 <= k -> byte_in32 (schar b) k = b * 2 ^ k.
Proof. intros. unfold byte_in32. by rewrite schar_byte, Z.shiftl_mul_pow2. Qed.

Lemma byte_in64_val b k : is_byte b -> 0 <= k -> byte_in64 (schar b) k = b * 2 ^ k.
Proof. intros. unfold byte_in64. by rewrite schar_byte64, Z.shiftl_mul_pow2. Qed.

(** Splitting the first byte off a field. *)
Lemma char_field (m : bytes) p n : bytes_ok m -> 0 <= p -> 0 < n -> p + n <= zlen m ->
  exists b, is_byte b /\ char_at m p = Some (schar b) /\
    ztake n (zdrop p m) = b :: ztake (n - 1) (zdrop (p + 1) m).
Proof.
  intros Hm Hp Hn Hl. destruct (zget_byte m p Hm) as (b & Hb & Hok); [lia|].
  exists b. split; [done|]. unfold char_at. rewrite Hb. split; [done|].
  rewrite zget_lookup in Hb by done. unfold ztake, zdrop.
  rewrite (drop_S m b (Z.to_nat p)) by done.
  replace (Z.to_nat n) with (S (Z.to_nat (n - 1))) by lia. cbn [firstn].
  by replace (Z.to_nat (p + 1)) with (S (Z.to_nat p)) by lia.
Qed.

(** Take the next byte of the field in the goal. *)
Ltac next_char :=
  match goal with
  | |- context [ztake ?n (zdrop ?p ?m)] =>
      let b := fresh "b" in let Hb := fresh "Hb" in let Hc := fresh "Hc" in let E := fresh "E" in
      destruct (char_field m p n) as (b & Hb & Hc & E); [done|lia|lia|lia|];
      rewrite ?Hc, E; clear Hc E; cbn [mbind option_bind];
      replace (n - 1) with ltac:(let v := eval vm_compute in (n - 1) in exact v) by done;
      try match goal with
      | |- context [?a + ?k + 1] =>
          let v := eval vm_compute in (k + 1) in replace (a + k + 1) with (a + v) by lia
      end
  end.

Lemma MY_UI8BEI_spec m p : bytes_ok m -> 0 <= p -> p + 1 <= zlen m ->
  exists t, MY_UI8BEI m p = Some t /\ u8 t = be_val (ztake 1 (zdrop p m)).
Proof.
  intros. unfold MY_UI8BEI. next_char. eexists. split; [done|].
  change (ztake 0 (zdrop (p + 1) m)) with (@nil Z). unfold be_val. cbn [be_val_from].
  unfold schar. zcase; word_lia.
Qed.

Lemma MY_UI32BEI_spec m p : bytes_ok m -> 0 <= p -> p + 4 <= zlen m ->
  MY_UI32BEI m p = Some (be_val (ztake 4 (zdrop p m))).
Proof.
  intros. unfold MY_UI32BEI. do 4 next_char.
  rewrite !byte_in32_val by (done || lia). f_equal.
  change (ztake 0 _) with (@nil Z). unfold be_val. cbn [be_val_from]. word_lia.
Qed.

Lemma MY_UI64BEI_spec m p : bytes_ok m -> 0 <= p -> p + 8 <= zlen m ->
  MY_UI64BEI m p = Some (be_val (ztake 8 (zdrop p m))).
Proof.
  intros. unfold MY_UI64BEI. do 8 next_char.
  rewrite !byte_in64_val by (done || lia). f_equal.
  change (ztake 0 _) with (@nil Z). unfold be_val. cbn [be_val_from]. word_lia.
Qed.

(** ** The parser refines the specification *)

(** The bytes received and not parsed. *)
Definition remaining (p : SMPParser) : bytes := zdrop (parsed_size_ p) (received p).

Definition smp_ok (p : SMPParser) : Prop :=
  m_pHandler p = true /\ bytes_ok (data_buf_ p) /\ buf_size_ p = zlen (data_buf_ p) /\
  0 <= parsed_size_ p <= data_size_ p /\ data_size_ p <= buf_size_ p /\ buf_size_ p < 2 ^ 64.

(** The specification's state that the fields of [p] stand for. *)
Definition stands_for (p : SMPParser) (s : smp_wait) : Prop :=
  match s with
  | WaitHeader sid =>
      parse_state_ p = PARSE_TYPE /\ require_data_size_ p = DEFAULT_HEADER_SIZE /\
      m_nStreamId (parsed_header_ p) = sid
  | WaitPayload h =>
      parse_state_ p = PARSE_PAYLOAD /\ require_data_size_ p = m_nDataSize h /\
      parsed_header_ p = h /\ in_word 32 (m_nDataSize h)
  end.

Lemma received_length p : smp_ok p -> zlen (received p) = data_size_ p.
Proof. intros (_ & _ & E & ? & ? & _). unfold received. rewrite zlen_ztake; lia. Qed.

Lemma remaining_length p : smp_ok p -> zlen (remaining p) = data_size_ p - parsed_size_ p.
Proof.
  intros Hok. pose proof (received_length p Hok) as Hr. destruct Hok as (_ & _ & _ & ? & _).
  unfold remaining. rewrite zlen_zdrop; lia.
Qed.

Lemma available_eq p : smp_ok p -> available p = zlen (remaining p).
Proof.
  intros Hok. rewrite remaining_length by done. destruct Hok as (_ & _ & _ & ? & ? & ?).
  unfold available. apply u64_small. lia.
Qed.

Lemma received_bytes p : smp_ok p -> bytes_ok (received p).
Proof. intros (_ & ? & _). by apply bytes_ok_ztake. Qed.

Lemma need_require p s : stands_for p s -> need s = require_data_size_ p /\ 0 <= require_data_size_ p.
Proof.
  destruct s as [sid|h]; intros H; cbn [need smp_stream] in *; destruct H as (_ & -> & H).
  - unfold DEFAULT_HEADER_SIZE. lia.
  - destruct H as [_ ?]. word_lia.
Qed.

(** A field of a window is a field of the whole. *)
Lemma field_window (m : bytes) p w off n :
  0 <= p -> 0 <= off -> 0 <= n -> off + n <= w ->
  be_field (ztake w (zdrop p m)) off n = be_val (ztake n (zdrop (p + off) m)).
Proof.
  intros. unfold be_field. f_equal. unfold ztake, zdrop.
  rewrite skipn_firstn_comm, take_take, drop_drop. f_equal; [lia|]. f_equal. lia.
Qed.

Lemma field_word (m : bytes) p n w :
  bytes_ok m -> 0 <= n -> w = 8 * n -> in_word w (be_val (ztake n (zdrop p m))).
Proof.
  intros Hm Hn ->. set (f := ztake n (zdrop p m)).
  assert (Hf : bytes_ok f) by by apply bytes_ok_ztake, bytes_ok_zdrop.
  pose proof (be_val_bound f Hf) as Hb. unfold in_word. split; [lia|].
  eapply Z.lt_le_trans; [apply Hb|]. apply Z.pow_le_mono_r; [lia|].
  unfold f, zlen, ztake. rewrite length_take. lia.
Qed.

Lemma ParseHeader_spec p sid :
  smp_ok p -> stands_for p (WaitHeader sid) -> DEFAULT_HEADER_SIZE <= zlen (remaining p) ->
  exists go p', ParseHeader p = Some (go, p') /\ smp_ok p' /\
    stands_for p' (WaitPayload (decode_header sid (ztake 17 (remaining p)))) /\
    remaining p' = zdrop 17 (remaining p) /\ go = (require_data_size_ p' <=? available p').
Proof.
  intros Hok (Hs & Hr & Hsid) Hl. pose proof (received_bytes p Hok) as Hb.
  pose proof (received_length p Hok) as HL. rewrite remaining_length in Hl by done.
  destruct Hok as (Hh & Hm & Hc & Hp & Hd & H64). unfold ParseHeader, DEFAULT_HEADER_SIZE in *.
  rewrite Hr, Z.leb_refl. set (m := received p) in *. set (q := parsed_size_ p) in *.
  destruct (MY_UI8BEI_spec m q) as (t & -> & Ht); [done|lia|lia|].
  cbn [mbind option_bind consume set_state set_data parsed_size_]. fold q.
  rewrite (MY_UI32BEI_spec m (q + 1)) by (done || lia). cbn [mbind option_bind].
  cbn [mbind option_bind consume set_state set_data parsed_size_ parsed_header_]. fold q.
  rewrite (MY_UI64BEI_spec m (q + 1 + 4)) by (done || lia). cbn [mbind option_bind].
  rewrite (MY_UI32BEI_spec m (q + 1 + 4 + 8)) by (done || lia). cbn [mbind option_bind].
  set (n := be_val (ztake 4 (zdrop (q + 1) m))).
  assert (Hn : in_word 32 n) by by apply field_word.
  eexists _, _. split; [unfold RequireData; reflexivity|].
  cbn [set_header set_state consume set_data require_data_size_]. rewrite Hr.
  change (u32 (u32 (u32 (u32 (17 - 1) - 4) - 8) - 4)) with 0.
  rewrite Z.eqb_refl, Z.add_0_l, (u32_small n) by word_lia.
  assert (Hrem : remaining p = zdrop q m) by done.
  split; [|split; [|split]].
  - unfold smp_ok. cbn. fold q. repeat split; try done; lia.
  - cbn. rewrite Hrem. unfold decode_header.
    rewrite !field_window, Z.add_0_r by lia. rewrite Hsid, Ht.
    replace (q + 13) with (q + 1 + 4 + 8) by lia. replace (q + 5) with (q + 1 + 4) by lia. done.
  - unfold remaining, received. cbn. fold q. rewrite zdrop_zdrop by lia. f_equal. lia.
  - done.
Qed.

Lemma ParsePayload_spec p h :
  smp_ok p -> stands_for p (WaitPayload h) -> m_nDataSize h <= zlen (remaining p) ->
  exists go p', ParsePayload p
      = Some (go, p', [OnPacketParsed h (ztake (m_nDataSize h) (remaining p))]) /\
    smp_ok p' /\ stands_for p' (WaitHeader (m_nStreamId h)) /\
    remaining p' = zdrop (m_nDataSize h) (remaining p) /\
    go = (require_data_size_ p' <=? available p').
Proof.
  intros Hok (Hs & Hr & Hh & Hw) Hl. pose proof (received_length p Hok) as HL.
  rewrite remaining_length in Hl by done.
  destruct Hok as (Hhd & Hm & Hc & Hp & Hd & H64). unfold ParsePayload.
  rewrite Hh, Hr, Z.leb_refl, Hhd. unfold in_word in Hw.
  rewrite sub_bytes_Some by lia. cbn [mbind option_bind].
  eexists _, _. split; [unfold RequireData; reflexivity|].
  cbn [set_state consume set_data require_data_size_]. rewrite Hr, Z.sub_diag.
  change (u32 0) with 0. rewrite Z.eqb_refl.
  split; [|split; [|split]].
  - unfold smp_ok. cbn. repeat split; try done; lia.
  - cbn. by rewrite Hh.
  - unfold remaining, received. cbn. rewrite zdrop_zdrop by lia. done.
  - done.
Qed.

(** One turn of the loop is one step of the specification. *)
Lemma parse_turn_spec p s :
  smp_ok p -> stands_for p s -> need s <= zlen (remaining p) ->
  exists go p' evs s', parse_turn p = Some (go, p', evs) /\ smp_ok p' /\ stands_for p' s' /\
    step s (ztake (need s) (remaining p)) = inl (s', evs) /\
    remaining p' = zdrop (need s) (remaining p) /\
    go = (require_data_size_ p' <=? available p').
Proof.
  intros Hok Hs Hn. unfold parse_turn. destruct s as [sid|h]; pose proof Hs as (-> & Hs2).
  - destruct (ParseHeader_spec p sid Hok Hs Hn) as (go & p' & -> & ? & ? & ? & ?).
    eexists _, _, _, _. split_and!; done.
  - destruct Hs2 as (_ & _ & Hw). cbn [need smp_stream] in *.
    rewrite Z.max_r in * by (unfold in_word in Hw; lia).
    destruct (ParsePayload_spec p h Hok Hs Hn) as (go & p' & -> & ? & ? & ? & ?).
    eexists _, _, _, _. split_and!; done.
Qed.

Lemma Parse_loop_spec fuel go p s :
  smp_ok p -> stands_for p s ->
  (2 * length (remaining p) + idle_rank s < fuel)%nat ->
  go = true \/ zlen (remaining p) < need s ->
  exists p' evs s', Parse_loop fuel go p = Some (p', evs) /\ smp_ok p' /\ stands_for p' s' /\
    runs s (remaining p) evs (inl (s', remaining p')) /\ zlen (remaining p') < need s'.
Proof.
  revert go p s. induction fuel as [|f IH]; intros go p s Hok Hs Hf Hgo; [lia|].
  cbn [Parse_loop]. destruct (need_require p s Hs) as [Hn Hn0].
  rewrite available_eq by done. rewrite <- Hn in *.
  destruct (Z.ltb_spec (zlen (remaining p)) (need s)) as [Hlt|Hge].
  - assert (Hend : exists p' evs s', Some (p, []) = Some (p', evs) /\ smp_ok p' /\
      stands_for p' s' /\ runs s (remaining p) evs (inl (s', remaining p')) /\
      zlen (remaining p') < need s').
    { exists p, [], s. split_and!; try done. by constructor. }
    destruct go; cbn [negb]; exact Hend.
  - destruct Hgo as [-> | ?]; [|lia]. cbn [negb].
    destruct (parse_turn_spec p s Hok Hs Hge) as (go & p' & evs & s' & -> & Hok' & Hs' & Hst & Hr & Hgo).
    cbn [mbind option_bind].
    assert (Hd : zlen (remaining p') = zlen (remaining p) - need s)
      by (rewrite Hr; apply zlen_zdrop; lia).
    destruct (IH go p' s') as (p2 & evs2 & s2 & -> & ? & ? & Hrun & ?); [done|done| | |].
    + unfold zlen in Hd. destruct s as [sid|h]; cbn [step smp_stream] in Hst;
        injection Hst as <- <-; cbn [idle_rank smp_stream need] in *; unfold DEFAULT_HEADER_SIZE in *; lia.
    + destruct (need_require p' s' Hs') as [-> _]. rewrite available_eq in Hgo by done.
      destruct go; [by left|right]. symmetry in Hgo. by apply Z.leb_gt in Hgo.
    + exists p2, (evs ++ evs2), s2. split_and!; try done.
      eapply runs_step; [done|exact Hst|by rewrite <- Hr].
Qed.

Lemma receive_spec uninit p s data :
  is_byte uninit -> smp_ok p -> stands_for p s -> bytes_ok data ->
  data_size_ p + zlen data < 2 ^ 64 ->
  smp_ok (receive uninit p data) /\ stands_for (receive uninit p data) s /\
  remaining (receive uninit p data) = remaining p ++ data /\
  data_size_ (receive uninit p data) = data_size_ p + zlen data.
Proof.
  intros Hu Hok Hs Hd H64. pose proof (received_length p Hok) as HL.
  destruct Hok as (Hh & Hm & Hc & Hp & Hsz & Hcap). pose proof (zlen_nonneg data) as Hn.
  unfold receive. rewrite u64_small by lia.
  set (grow := buf_size_ p - data_size_ p <? zlen data).
  set (m := if grow then mem_resize uninit (data_size_ p + zlen data) (data_buf_ p) else data_buf_ p).
  set (cap := if grow then data_size_ p + zlen data else buf_size_ p).
  replace (if grow then _ else _) with (m, cap) by (unfold m, cap; by destruct grow).
  assert (Hcm : cap = zlen m /\ data_size_ p + zlen data <= cap /\ cap < 2 ^ 64 /\ bytes_ok m /\
                ztake (data_size_ p) m = received p).
  { unfold cap, m, grow. destruct (Z.ltb_spec (buf_size_ p - data_size_ p) (zlen data)).
    - rewrite mem_resize_length, mem_resize_take by lia. split_and!; try done; try lia.
      by apply bytes_ok_mem_resize.
    - split_and!; try done; lia. }
  clearbody m cap. destruct Hcm as (-> & Hle & Hlt & Hbm & Hrec). split_and!.
  - unfold smp_ok. cbn. split_and!; try done; try lia; [by apply bytes_ok_write_at|].
    by rewrite write_at_length by lia.
  - by destruct s.
  - unfold remaining at 1, received. cbn. rewrite write_at_take by lia.
    rewrite Hrec. rewrite zdrop_app_le by lia. done.
  - done.
Qed.

Lemma compact_spec p s :
  smp_ok p -> stands_for p s ->
  smp_ok (compact p) /\ stands_for (compact p) s /\ remaining (compact p) = remaining p /\
  parsed_size_ (compact p) = 0 /\ data_size_ (compact p) = zlen (remaining p).
Proof.
  intros Hok Hs. pose proof (received_length p Hok) as HL. pose proof (remaining_length p Hok) as HR.
  pose proof (received_bytes p Hok) as Hrb. pose proof Hok as (Hh & Hm & Hc & Hp & Hsz & Hcap).
  unfold compact. zcase; [|zcase].
  - split_and!; try done; try (cbn; lia).
    + unfold smp_ok. cbn. split_and!; done || lia.
    + unfold remaining, received. cbn. fold (received p).
      by rewrite (zdrop_all _ (received p)) by lia.
  - fold (remaining p). split_and!; try done; try (cbn; lia).
    + unfold smp_ok. cbn. rewrite write_at_length by lia. split_and!; try done; try lia.
      apply bytes_ok_write_at; [done|]. by apply bytes_ok_zdrop.
    + unfold remaining at 1, received. cbn. rewrite zdrop_0, <- HR.
      change (zlen (remaining p)) with (0 + zlen (remaining p)). by rewrite write_at_take by lia.
  - split_and!; try done; lia.
Qed.

Lemma Parse_spec uninit p s data :
  is_byte uninit -> smp_ok p -> stands_for p s -> bytes_ok data ->
  data_size_ p + zlen data < 2 ^ 64 ->
  exists p' evs s', Parse uninit p data = Some (p', evs) /\ smp_ok p' /\ stands_for p' s' /\
    runs s (remaining p ++ data) evs (inl (s', remaining p')) /\
    zlen (remaining p') < need s' /\ data_size_ p' = zlen (remaining p').
Proof.
  intros Hu Hok Hs Hd H64.
  destruct (receive_spec uninit p s data Hu Hok Hs Hd H64) as (Hok1 & Hs1 & Hr1 & _).
  unfold Parse. set (p1 := receive uninit p data) in *.
  destruct (Parse_loop_spec (2 * length (received p1) + 3) true p1 s)
    as (p2 & evs & s' & -> & Hok2 & Hs2 & Hrun & Hlt); [done|done| |by left|].
  { unfold remaining, zdrop. rewrite length_drop. destruct s; cbn; lia. }
  cbn [mbind option_bind].
  destruct (compact_spec p2 s' Hok2 Hs2) as (Hok3 & Hs3 & Hr3 & _ & Hsz).
  exists (compact p2), evs, s'. rewrite Hr3. rewrite Hr1 in Hrun. split_and!; done.
Qed.

(** Feeding chunks one after the other. *)
Fixpoint Parse_all (uninit : Z) (p : SMPParser) (chunks : list bytes)
    : option (SMPParser * list smp_event) :=
  match chunks with
  | [] => Some (p, [])
  | data :: rest =>
      '(p, evs) ← Parse uninit p data;
      '(p, evs') ← Parse_all uninit p rest;
      Some (p, evs ++ evs')
  end.

(** Between calls: everything that could be parsed was, and sits at the start. *)
Definition between_calls (p : SMPParser) (s : smp_wait) : Prop :=
  smp_ok p /\ stands_for p s /\ zlen (remaining p) < need s /\
  data_size_ p = zlen (remaining p).

Lemma Parse_all_spec uninit p s chunks :
  is_byte uninit -> between_calls p s -> Forall bytes_ok chunks ->
  data_size_ p + zlen (concat chunks) < 2 ^ 64 ->
  exists p' evs s', Parse_all uninit p chunks = Some (p', evs) /\ between_calls p' s' /\
    runs s (remaining p ++ concat chunks) evs (inl (s', remaining p')).
Proof.
  intros Hu Hb Hc. revert p s Hb. induction Hc as [|data rest Hd Hrest IH]; intros p s Hb H64.
  - destruct Hb as (? & ? & ? & ?). exists p, [], s. cbn. rewrite app_nil_r.
    split_and!; try done. by constructor.
  - destruct Hb as (Hok & Hs & Hidle & Hsz). cbn [concat] in *. rewrite zlen_app in H64.
    pose proof (zlen_nonneg (concat rest)).
    destruct (Parse_spec uninit p s data) as (p1 & evs1 & s1 & HP & Hok1 & Hs1 & Hr1 & Hi1 & Hsz1);
      try done; [lia|].
    cbn [Parse_all]. rewrite HP. cbn [mbind option_bind].
    destruct (IH p1 s1) as (p2 & evs2 & s2 & -> & Hb2 & Hr2); [done| |].
    { rewrite Hsz1. pose proof (runs_shrinks _ _ _ _ _ Hr1) as Hle. rewrite zlen_app in Hle. lia. }
    exists p2, (evs1 ++ evs2), s2. split_and!; [done|done|].
    rewrite app_assoc. by eapply runs_app.
Qed.

(** ** Packing lemmas *)

Lemma store_char_spec m p u k :
  0 <= p < zlen m -> 0 <= k ->
  store_char m p (byte_out u k) = Some (write_at m p [(u / 2 ^ k) mod 256]).
Proof.
  intros Hp Hk. unfold store_char, byte_out.
  rewrite (proj2 (Z.leb_le _ _)), (proj2 (Z.ltb_lt _ _)) by lia. cbn [andb].
  rewrite (shiftr_masked_byte u k _ Hk eq_refl). by rewrite u8_small by lia.
Qed.

Lemma be_bytes_div n u : be_bytes (S n) u = (u / 2 ^ (8 * Z.of_nat n)) mod 256 :: be_bytes n u.
Proof.
  revert u. induction n as [|n IH]; intros u.
  - cbn. by rewrite Z.div_1_r.
  - change (be_bytes (S (S n)) u) with (be_bytes (S n) (u / 256) ++ [u mod 256]).
    rewrite IH. change (be_bytes (S n) u) with (be_bytes n (u / 256) ++ [u mod 256]).
    cbn [app]. f_equal. rewrite Z.div_div by lia. do 2 f_equal.
    replace (8 * Z.of_nat (S n)) with (8 + 8 * Z.of_nat n) by lia.
    by rewrite Z.pow_add_r by lia.
Qed.

(** A run of stores from the most significant byte down is one write. *)
Ltac len_lia := rewrite ?write_at_length by (autorewrite with lens; lia); autorewrite with lens; lia.
Ltac store_bytes :=
  repeat (rewrite store_char_spec by len_lia; cbn [mbind option_bind];
          try (rewrite write_at_app by len_lia; cbn [app])).

Lemma MY_UI8BEO_spec m p u : 0 <= p -> p + 1 <= zlen m ->
  MY_UI8BEO m p u = Some (write_at m p (be_bytes 1 u)).
Proof. intros. unfold MY_UI8BEO. store_bytes. by rewrite be_bytes_div. Qed.

Lemma MY_UI32BEO_spec m p u : 0 <= p -> p + 4 <= zlen m ->
  MY_UI32BEO m p u = Some (write_at m p (be_bytes 4 u)).
Proof. intros. unfold MY_UI32BEO. store_bytes. by rewrite !be_bytes_div. Qed.

Lemma MY_UI64BEO_spec m p u : 0 <= p -> p + 8 <= zlen m ->
  MY_UI64BEO m p u = Some (write_at m p (be_bytes 8 u)).
Proof. intros. unfold MY_UI64BEO. store_bytes. by rewrite !be_bytes_div. Qed.

(** ** Round-trip lemmas *)

Lemma be_field_at pre n v rest off :
  off = zlen pre -> in_word (8 * Z.of_nat n) v ->
  be_field (pre ++ be_bytes n v ++ rest) off (Z.of_nat n) = v.
Proof.
  intros -> Hv. unfold be_field. rewrite zdrop_app_exact by done.
  rewrite ztake_app_exact by by rewrite zlen_be_bytes.
  rewrite be_val_be_bytes. by apply Z.mod_small.
Qed.

(** The header a packet is announced with. *)
Definition packet_header (sid ty ts transId : Z) (payload : bytes) : SMPHeader :=
  {| m_eDataType := ty; m_nDataSize := zlen payload; m_nTimestamp := ts;
     m_nTransId := transId; m_nStreamId := sid |}.

Lemma decode_encode sid ty ts tr payload :
  in_word 8 ty -> in_word 64 ts -> in_word 32 tr -> in_word 32 (zlen payload) ->
  decode_header sid (ztake 17 (encode_packet ty ts tr payload)) = packet_header sid ty ts tr payload.
Proof.
  intros H1 H8 H4 Hn. unfold encode_packet.
  set (h := be_bytes 1 ty ++ be_bytes 4 (zlen payload) ++ be_bytes 8 ts ++ be_bytes 4 tr).
  assert (Hh : zlen h = 17) by (unfold h; autorewrite with lens; lia).
  replace (be_bytes 1 ty ++ _ ++ _ ++ _ ++ payload) with (h ++ payload)
    by (unfold h; by rewrite <- !app_assoc).
  rewrite ztake_app_exact by done. unfold decode_header, packet_header. f_equal.
  - by apply (be_field_at [] 1).
  - unfold h. by apply (be_field_at (be_bytes 1 ty) 4).
  - unfold h. rewrite (app_assoc (be_bytes 1 ty)).
    apply (be_field_at _ 8); [by autorewrite with lens|done].
  - unfold h. rewrite (app_assoc (be_bytes 1 ty)), (app_assoc (be_bytes 1 ty ++ _)).
    rewrite <- (app_nil_r (be_bytes 4 tr)).
    apply (be_field_at _ 4); [by autorewrite with lens|done].
Qed.

Lemma runs_packet sid ty ts tr payload rest evs r :
  in_word 8 ty -> in_word 64 ts -> in_word 32 tr -> in_word 32 (zlen payload) ->
  runs (WaitHeader sid) rest evs r ->
  runs (WaitHeader sid) (encode_packet ty ts tr payload ++ rest)
    (OnPacketParsed (packet_header sid ty ts tr payload) payload :: evs) r.
Proof.
  intros H1 H8 H4 Hn Hrun. pose proof (zlen_nonneg rest).
  pose proof (decode_encode sid ty ts tr payload H1 H8 H4 Hn) as Hdec.
  assert (HL : zlen (encode_packet ty ts tr payload) = 17 + zlen payload)
    by (unfold encode_packet; autorewrite with lens; lia).
  pose proof (zlen_nonneg payload).
  assert (Hd : zdrop 17 (encode_packet ty ts tr payload) = payload).
  { unfold encode_packet. rewrite !app_assoc. apply zdrop_app_exact. by autorewrite with lens. }
  apply (runs_step _ _ (WaitPayload (packet_header sid ty ts tr payload)) []).
  - cbn [need smp_stream]. unfold DEFAULT_HEADER_SIZE. rewrite zlen_app. lia.
  - cbn [need step smp_stream]. unfold DEFAULT_HEADER_SIZE. rewrite ztake_app_le by lia. by rewrite Hdec.
  - cbn [need smp_stream]. unfold DEFAULT_HEADER_SIZE. rewrite zdrop_app_le, Hd by lia.
    eapply (runs_step _ _ (WaitHeader sid) [_]); cbn [need smp_stream m_nDataSize packet_header];
      rewrite Z.max_r by lia.
    + rewrite zlen_app. lia.
    + cbn [step smp_stream]. by rewrite ztake_app_exact.
    + by rewrite zdrop_app_exact.
Qed.

Lemma runs_waiting_header sid : runs (WaitHeader sid) [] [] (inl (WaitHeader sid, [])).
Proof. by constructor. Qed.

(** A created parser is between calls, waiting for a header. *)
Lemma created_between_calls sid :
  exists p, Create new_SMPParser true sid = Some p /\ between_calls p (WaitHeader sid) /\
    remaining p = [] /\ data_size_ p = 0.
Proof.
  eexists. split; [reflexivity|]. unfold between_calls, smp_ok, stands_for. cbn.
  split_and!; try done; constructor.
Qed.

(** ** Properties *)

(** A packet whose fields fit the wire format. *)
Definition packet_ok (k : SMPacket) : Prop :=
  in_word 8 (type k) /\ in_word 64 (timestamp k) /\ in_word 32 (trans_id k) /\
  buf_ok (origion_data k) /\ bytes_ok (b_data (origion_data k)) /\
  in_word 32 (zlen (b_data (origion_data k))).

#[global] Instance packet_ok_dec k : Decision (packet_ok k).
Proof. unfold packet_ok. apply _. Defined.

(** The bytes [PackPacket] leaves in the packet. *)
Definition packed (k : SMPacket) : bytes :=
  match packed_jmp_data (PackPacket k) with Some b => b_data b | None => [] end.

Lemma packed_bytes k : packet_ok k ->
  packed k = be_bytes 1 (type k) ++ be_bytes 4 (RemainingLength (origion_data k)) ++
    be_bytes 8 (timestamp k) ++ be_bytes 4 (trans_id k) ++ b_data (origion_data k).
Proof.
  intros (H1 & H8 & H4 & Hb & Hd & Hn). unfold packed, PackPacket. cbn [packed_jmp_data].
  assert (Hr : in_word 32 (RemainingLength (origion_data k)))
    by (unfold buf_ok, RemainingLength, in_word in *; lia).
  rewrite (u32_small (RemainingLength _)) by word_lia.
  unfold WriteTo, WriteUInt8, WriteUInt32BE, WriteUInt64BE.
  assert (Hw : b_data (match packed_jmp_data k with Some b => Reset b | None => empty_buffer end) = [])
    by by destruct (packed_jmp_data k).
  cbn [Write b_data]. rewrite Hw, !octets4, mem_swapBytes by done.
  by rewrite <- !app_assoc.
Qed.

(** What the receiver is told of a packet. *)
Definition parsed_event (sid : Z) (k : SMPacket) : smp_event :=
  OnPacketParsed
    (packet_header sid (type k) (timestamp k) (trans_id k) (b_data (origion_data k)))
    (b_data (origion_data k)).

Lemma runs_packed sid pkts :
  Forall packet_ok pkts -> Forall (fun k => b_cur (origion_data k) = 0) pkts ->
  runs (WaitHeader sid) (concat (map packed pkts)) (map (parsed_event sid) pkts)
    (inl (WaitHeader sid, [])).
Proof.
  intros Hk. induction Hk as [|k pkts Hk _ IH]; intros H0; [apply runs_waiting_header|].
  cbn [map concat]. apply Forall_cons_1 in H0 as [Hk0 H0]. rewrite packed_bytes by done.
  destruct Hk as (H1 & H8 & H4 & _ & _ & Hn).
  unfold RemainingLength. rewrite Hk0, Z.sub_0_r.
  apply (runs_packet sid (type k) (timestamp k) (trans_id k) (b_data (origion_data k)));
    [done..|]. by apply IH.
Qed.

(** C36: one call of [Parse] on any bytes is exactly a run of the packet grammar. From
    any state between calls it terminates, fails no assertion and reads no byte it
    was not given, reports the packets completed by the new bytes in order, and
    keeps the rest, whatever the size announced in a header. *)
Theorem Parse_refines (uninit : Z) (p : SMPParser) (s : smp_wait) (data : bytes) :
  is_byte uninit -> between_calls p s -> bytes_ok data -> data_size_ p + zlen data < 2 ^ 64 ->
  exists p' evs s', Parse uninit p data = Some (p', evs) /\ between_calls p' s' /\
    runs s (remaining p ++ data) evs (inl (s', remaining p')).
Proof.
  intros Hu (Hok & Hs & Hi & Hsz) Hd H64.
  destruct (Parse_spec uninit p s data) as (p' & evs & s' & HP & H); [done..|].
  exists p', evs, s'. by destruct H as (? & ? & ? & ? & ?).
Qed.

Lemma Parse_refines_witness :
  match Create new_SMPParser true 5 with
  | Some p => exists p' evs s', Parse 0 p [2; 0; 0; 0; 1; 9] = Some (p', evs) /\
      between_calls p' s' /\ runs (WaitHeader 5) ([] ++ [2; 0; 0; 0; 1; 9]) evs (inl (s', remaining p'))
  | None => False
  end.
Proof.
  destruct (created_between_calls 5) as (p & HC & Hb & Hr & Hsz). rewrite HC.
  pose proof (Parse_refines 0 p (WaitHeader 5) [2; 0; 0; 0; 1; 9]) as H. rewrite Hr in H.
  apply H; [|exact Hb| |].
  - apply (bool_decide_unpack _). vm_compute. exact I.
  - apply (bool_decide_unpack _). vm_compute. exact I.
  - rewrite Hsz. vm_compute. reflexivity.
Defined.

(** How the network cuts the stream does not matter. Two sequences of [Parse] calls
    on the same bytes report the same packets in the same order and leave parsers
    that wait for the same thing with the same unparsed bytes. *)
Theorem Parse_chunking (uninit : Z) (p : SMPParser) (s : smp_wait) (cs cs' : list bytes) :
  is_byte uninit -> between_calls p s -> Forall bytes_ok cs -> Forall bytes_ok cs' ->
  concat cs = concat cs' -> data_size_ p + zlen (concat cs) < 2 ^ 64 ->
  exists q q' evs s', Parse_all uninit p cs = Some (q, evs) /\
    Parse_all uninit p cs' = Some (q', evs) /\
    stands_for q s' /\ stands_for q' s' /\ remaining q = remaining q'.
Proof.
  intros Hu Hb Hc Hc' E H64.
  destruct (Parse_all_spec uninit p s cs) as (q & evs & s1 & HP & (_ & Hs & _) & Hr); try done.
  destruct (Parse_all_spec uninit p s cs') as (q' & evs' & s2 & HP' & (_ & Hs' & _) & Hr');
    [try done..|by rewrite <- E|].
  rewrite E in Hr. destruct (runs_det _ _ _ _ _ _ Hr Hr') as [<- E2]. simplify_eq.
  by exists q, q', evs, s2.
Qed.

Lemma Parse_chunking_witness :
  match Create new_SMPParser true 5 with
  | Some p => exists q q' evs s',
      Parse_all 0 p [[2; 0; 0; 0; 1]; repeat 0 12; [9; 2]] = Some (q, evs) /\
      Parse_all 0 p [[2; 0; 0; 0; 1] ++ repeat 0 12 ++ [9]; [2]] = Some (q', evs) /\
      stands_for q s' /\ stands_for q' s' /\ remaining q = remaining q'
  | None => False
  end.
Proof.
  destruct (created_between_calls 5) as (p & HC & Hb & Hr & Hsz). rewrite HC.
  apply Parse_chunking with (s := WaitHeader 5); [|exact Hb| | | |].
  - apply (bool_decide_unpack _). vm_compute. exact I.
  - apply (bool_decide_unpack _). vm_compute. exact I.
  - apply (bool_decide_unpack _). vm_compute. exact I.
  - vm_compute. reflexivity.
  - rewrite Hsz. vm_compute. reflexivity.
Defined.

(** C37: packets survive the wire. The frames [PackPacket] makes of any packets with
    unread payloads, sent back to back and received in any pieces by a new parser,
    come out as exactly those packets, in order, with nothing left over. *)
Theorem pack_parse_roundtrip (uninit sid : Z) (pkts : list SMPacket) (cs : list bytes) :
  is_byte uninit -> Forall packet_ok pkts ->
  Forall (fun k => b_cur (origion_data k) = 0) pkts ->
  Forall bytes_ok cs -> concat cs = concat (map packed pkts) -> zlen (concat cs) < 2 ^ 64 ->
  exists p p', Create new_SMPParser true sid = Some p /\
    Parse_all uninit p cs
    = Some (p', map (parsed_event sid) pkts) /\
    between_calls p' (WaitHeader sid) /\ remaining p' = [].
Proof.
  intros Hu Hk H0 Hc E H64.
  destruct (created_between_calls sid) as (p & HC & Hb & Hr & Hsz).
  destruct (Parse_all_spec uninit p (WaitHeader sid) cs) as (p' & evs & s' & HP & Hb' & Hrun);
    [done..|by rewrite Hsz|].
  exists p, p'. split; [done|]. rewrite Hr, E in Hrun. cbn [app] in Hrun.
  pose proof (runs_packed sid pkts Hk H0) as Hspec.
  destruct (runs_det _ _ _ _ _ _ Hrun Hspec) as [-> E2]. simplify_eq. done.
Qed.

Lemma pack_parse_roundtrip_witness :
  let k := {| type := 2; timestamp := 77; trans_id := 3; stream_id := 0;
              origion_data := {| b_data := [10; 200]; b_cur := 0 |}; packed_jmp_data := None |} in
  exists p p', Create new_SMPParser true 5 = Some p /\
    Parse_all 0 p [[2; 0; 0; 0; 2; 0; 0; 0; 0; 0]; [0; 0; 77; 0; 0; 0; 3; 10]; [200]]
    = Some (p', [OnPacketParsed (packet_header 5 2 77 3 [10; 200]) [10; 200]]) /\
    between_calls p' (WaitHeader 5) /\ remaining p' = [].
Proof.
  intros k. apply (pack_parse_roundtrip 0 5 [k]).
  - apply (bool_decide_unpack _). vm_compute. exact I.
  - apply (bool_decide_unpack _). vm_compute. exact I.
  - repeat constructor.
  - apply (bool_decide_unpack _). vm_compute. exact I.
  - vm_compute. reflexivity.
  - vm_compute. reflexivity.
Defined.

(** The frame [PackData] builds, by growing the allocation and writing field by field. *)
Lemma PackData_frame (uninit : Z) (p : SMPParser) (k : SMPacket) :
  packet_ok k -> m_pHandler p = true -> zlen (pack_data_buf_ p) = pack_buf_size_ p ->
  zlen (b_data (origion_data k)) < 2 ^ 31 - 17 ->
  let frame := encode_packet (type k) (timestamp k) (trans_id k) (unread (origion_data k)) in
  exists p', PackData uninit p (type k) (timestamp k) (trans_id k) (origion_data k)
    = Some (p', [OnDataPacked frame]) /\ zlen (pack_data_buf_ p') = pack_buf_size_ p'.
Proof.
  intros (H1 & H8 & H4 & Hb & Hd & _) Hh Hcap Hn frame. pose proof (zlen_unread _ Hb) as Hu.
  pose proof (RemainingLength_nonneg _ Hb) as Hr0. set (n := RemainingLength (origion_data k)) in *.
  assert (Hnb : n < 2 ^ 31 - 17) by (unfold n, RemainingLength, buf_ok in *; lia).
  unfold PackData. fold n. unfold DEFAULT_HEADER_SIZE.
  rewrite (u32_small n), (u32_small (17 + n)) by lia.
  set (grow := pack_buf_size_ p <? 17 + n).
  set (m := if grow then mem_resize uninit (17 + n) (pack_data_buf_ p) else pack_data_buf_ p).
  set (cap := if grow then 17 + n else pack_buf_size_ p).
  replace (if grow then _ else _) with (m, cap) by (unfold m, cap; by destruct grow).
  assert (Hm : zlen m = cap /\ 17 + n <= cap).
  { unfold m, cap, grow. destruct (Z.ltb_spec (pack_buf_size_ p) (17 + n)); [|lia].
    rewrite mem_resize_length by lia. lia. }
  clearbody m cap. destruct Hm as [Hm Hle].
  rewrite MY_UI8BEO_spec by lia. cbn [mbind option_bind].
  rewrite MY_UI32BEO_spec by len_lia.
  cbn [mbind option_bind]. rewrite write_at_app by len_lia.
  rewrite MY_UI64BEO_spec by len_lia.
  cbn [mbind option_bind]. rewrite write_at_app by len_lia.
  rewrite MY_UI32BEO_spec by len_lia.
  cbn [mbind option_bind]. rewrite write_at_app by len_lia.
  rewrite WriteFromReader_spec by (done || lia). fold n. rewrite Z.min_id.
  cbn [mbind option_bind]. rewrite (ztake_all n (unread _)) by lia.
  rewrite write_at_length by (autorewrite with lens; lia). rewrite Hu, (proj2 (Z.leb_le _ _)) by lia.
  rewrite write_at_app by len_lia. rewrite Hh.
  assert (Ei : u64 (i32 (17 + n)) = 17 + n).
  { unfold i32. rewrite u32_small by lia. rewrite (proj2 (Z.ltb_lt _ _)) by lia.
    apply u64_small. lia. }
  rewrite Ei. set (all := _ ++ unread (origion_data k)).
  assert (Hall : all = frame).
  { unfold all, frame, encode_packet. rewrite Hu. by rewrite <- !app_assoc. }
  assert (HL : zlen all = 17 + n) by (unfold all; autorewrite with lens; lia).
  pose proof (write_at_take m 0 all ltac:(lia) ltac:(lia)) as Ht. rewrite Z.add_0_l, HL in Ht.
  pose proof (write_at_length m 0 all ltac:(lia) ltac:(lia)) as Hwl.
  rewrite sub_bytes_Some by lia. rewrite zdrop_0, Ht.
  cbn [mbind option_bind app].
  eexists. split; [by rewrite Hall|].
  cbn [set_pack pack_data_buf_ pack_buf_size_]. lia.
Qed.

(** What the two packers write. [PackData] hands over the frame of the unread part
    of the payload. [PackPacket] announces the length of the unread part but copies
    the whole payload, so its frame is the frame of the unread part exactly when
    nothing of the payload has been read. *)
Theorem packing_frames (uninit : Z) (p : SMPParser) (k : SMPacket) :
  packet_ok k -> m_pHandler p = true -> zlen (pack_data_buf_ p) = pack_buf_size_ p ->
  zlen (b_data (origion_data k)) < 2 ^ 31 - 17 ->
  let frame := encode_packet (type k) (timestamp k) (trans_id k) (unread (origion_data k)) in
  (exists p', PackData uninit p (type k) (timestamp k) (trans_id k) (origion_data k)
     = Some (p', [OnDataPacked frame]) /\ zlen (pack_data_buf_ p') = pack_buf_size_ p') /\
  (packed k = frame <-> b_cur (origion_data k) = 0).
Proof.
  intros Hk Hh Hcap Hn frame. split; [by apply PackData_frame|].
  pose proof Hk as (_ & _ & _ & Hb & _). pose proof (zlen_unread _ Hb) as Hu.
  rewrite (packed_bytes k Hk). unfold frame, encode_packet. rewrite Hu, !app_assoc. split.
  - intros E%app_inv_head. apply (f_equal zlen) in E. rewrite Hu in E.
    unfold RemainingLength, buf_ok in *. lia.
  - intros E. f_equal. unfold unread. by rewrite E.
Qed.

Lemma packing_frames_witness :
  let k := {| type := 2; timestamp := 77; trans_id := 3; stream_id := 0;
              origion_data := {| b_data := [10; 200]; b_cur := 1 |}; packed_jmp_data := None |} in
  (packed k = encode_packet 2 77 3 [200] <-> 1 = 0).
Proof.
  intros k. destruct (Create new_SMPParser true 5) as [p|] eqn:E; [|discriminate].
  apply (packing_frames 0 p k).
  - apply (bool_decide_unpack _). vm_compute. exact I.
  - injection E as <-. reflexivity.
  - injection E as <-. reflexivity.
  - vm_compute. reflexivity.
Defined.

(** Reusing a parser takes both [Cleanup] and [Initialize]: together they give a fresh
    parser, and each alone keeps part of an interrupted packet. *)
Lemma reset_takes_both (p : SMPParser) h :
  stands_for p (WaitPayload h) -> m_nDataSize h <> DEFAULT_HEADER_SIZE -> m_pHandler p = true ->
  between_calls (Initialize (Cleanup p)) (WaitHeader (m_nStreamId (parsed_header_ p))) /\
  require_data_size_ (Cleanup p) <> DEFAULT_HEADER_SIZE /\
  parse_state_ (Initialize p) = PARSE_PAYLOAD.
Proof.
  intros (Hs & Hr & _) Hn Hh. split_and!; [|cbn; congruence|done].
  unfold between_calls, smp_ok, stands_for. cbn. split_and!; try done; constructor.
Qed.
