(* ===== verification/WSParser.v ===== *)
(** * WSParser: WebSocket framing ([src/cpp/WSParser.cpp], [WSParser.h])

    Received bytes are kept in a [BCBuffer] ([Buffer.v]); the parser throws a
    [BCException] on a violation of the protocol or of its size limit, after it has
    rewound the buffer. Operations are in the option monad ([None]: a failed
    [ASSERT], a short read, or a loop out of fuel), and what they do is a [turn]:
    going on, with what the client was told, or the exception. *)

From stdpp Require Import base list numbers option.
From Stdlib Require Import ZArith Lia.
From S2P Require Import Prelude Results StreamParser Buffer.

(** ** Frames *)

Definition WS_OP_CONTINUE : Z := 0x0.
Definition WS_OP_TEXT : Z := 0x1.
Definition WS_OP_BINARY : Z := 0x2.
Definition WS_OP_CLOSE : Z := 0x8.
Definition WS_OP_PING : Z := 0x9.
Definition WS_OP_PONG : Z := 0xA.
Definition WS_DEFAULT_MAX_FRAME_BYTES : Z := 8 * 1024 * 1024.
Definition WS_MAX_CONTROL_PAYLOAD : Z := 125.
Definition UINT32_MAX : Z := 0xFFFFFFFF.
Definition INFINITE : Z := 0xFFFFFFFF.

Record WSFrameHeader := {
  is_final : bool;
  opcode : Z;
  has_mask : bool;
  mask : bytes;
  payload_size : Z
}.

Definition new_WSFrameHeader : WSFrameHeader :=
  {| is_final := false; opcode := 0; has_mask := false; mask := [0; 0; 0; 0]; payload_size := 0 |}.

(** [data[i] ^= mask[(idx + i) % len]] over a block. *)
Definition xor_mask (m : bytes) (idx : Z) (bs : bytes) : bytes :=
  imap (fun i b => Z.lxor b (zat m ((idx + Z.of_nat i) mod zlen m))) bs.

(** ** Parser state *)

Inductive WSParseStateE :=
| PARSE_FIRST_2_BYTES | PARSE_PAYLOAD_SIZE | PARSE_MASK | PARSE_PAYLOAD.

Record WSParser := {
  buffer_ : buffer;
  parsed_header_ : WSFrameHeader;
  parse_state_ : WSParseStateE;
  require_data_size_ : Z;
  flat_buffer_ : bytes;
  max_frame_bytes_ : Z;
  frag_buffer_ : bytes;
  frag_opcode_ : Z;
  in_fragment_ : bool
}.

(** The reasons given to [BCException]. *)
Inductive ws_error :=
| RsvBitsSet | ReservedOpcode | ContinuationWithoutMessage | DataWhileFragmented
| FragmentedControl | ControlTooLong | CloseBodyOneByte
| LengthExceedsMax | MessageExceedsMax | InvalidFrame.

(** [OnRecvWSFrame]; [None] is a null payload. *)
Inductive ws_event := OnRecvWSFrame (h : WSFrameHeader) (payload : option bytes) (payload_len : Z).

Inductive turn :=
| Go (bContinue : bool) (p : WSParser) (evs : list ws_event)
| Throw (e : ws_error) (p : WSParser).

Definition set_buffer (p : WSParser) (b : buffer) (req : Z) : WSParser :=
  {| buffer_ := b; parsed_header_ := parsed_header_ p; parse_state_ := parse_state_ p;
     require_data_size_ := req; flat_buffer_ := flat_buffer_ p;
     max_frame_bytes_ := max_frame_bytes_ p; frag_buffer_ := frag_buffer_ p;
     frag_opcode_ := frag_opcode_ p; in_fragment_ := in_fragment_ p |}.
Definition set_ws_header (p : WSParser) (h : WSFrameHeader) : WSParser :=
  {| buffer_ := buffer_ p; parsed_header_ := h; parse_state_ := parse_state_ p;
     require_data_size_ := require_data_size_ p; flat_buffer_ := flat_buffer_ p;
     max_frame_bytes_ := max_frame_bytes_ p; frag_buffer_ := frag_buffer_ p;
     frag_opcode_ := frag_opcode_ p; in_fragment_ := in_fragment_ p |}.
Definition set_ws_state (p : WSParser) (s : WSParseStateE) (req : Z) : WSParser :=
  {| buffer_ := buffer_ p; parsed_header_ := parsed_header_ p; parse_state_ := s;
     require_data_size_ := req; flat_buffer_ := flat_buffer_ p;
     max_frame_bytes_ := max_frame_bytes_ p; frag_buffer_ := frag_buffer_ p;
     frag_opcode_ := frag_opcode_ p; in_fragment_ := in_fragment_ p |}.
Definition set_flat (p : WSParser) (m : bytes) : WSParser :=
  {| buffer_ := buffer_ p; parsed_header_ := parsed_header_ p; parse_state_ := parse_state_ p;
     require_data_size_ := require_data_size_ p; flat_buffer_ := m;
     max_frame_bytes_ := max_frame_bytes_ p; frag_buffer_ := frag_buffer_ p;
     frag_opcode_ := frag_opcode_ p; in_fragment_ := in_fragment_ p |}.
Definition set_max (p : WSParser) (n : Z) : WSParser :=
  {| buffer_ := buffer_ p; parsed_header_ := parsed_header_ p; parse_state_ := parse_state_ p;
     require_data_size_ := require_data_size_ p; flat_buffer_ := flat_buffer_ p;
     max_frame_bytes_ := n; frag_buffer_ := frag_buffer_ p;
     frag_opcode_ := frag_opcode_ p; in_fragment_ := in_fragment_ p |}.
Definition set_frag (p : WSParser) (m : bytes) (op : Z) (inf : bool) : WSParser :=
  {| buffer_ := buffer_ p; parsed_header_ := parsed_header_ p; parse_state_ := parse_state_ p;
     require_data_size_ := require_data_size_ p; flat_buffer_ := flat_buffer_ p;
     max_frame_bytes_ := max_frame_bytes_ p; frag_buffer_ := m;
     frag_opcode_ := op; in_fragment_ := inf |}.

(** [_RequireData]. *)
Definition WSRequireData (p : WSParser) (nSize : Z) (s : WSParseStateE) : bool * WSParser :=
  let st := if require_data_size_ p =? 0 then s else parse_state_ p in
  let p := set_ws_state p st (u32 (require_data_size_ p + nSize)) in
  (require_data_size_ p <=? RemainingLength (buffer_ p), p).

Definition require_turn (p : WSParser) (nSize : Z) (s : WSParseStateE) : turn :=
  let '(go, p) := WSRequireData p nSize s in Go go p [].

(** The constructor. *)
Definition new_WSParser : WSParser :=
  (WSRequireData
     {| buffer_ := empty_buffer; parsed_header_ := new_WSFrameHeader;
        parse_state_ := PARSE_FIRST_2_BYTES; require_data_size_ := 0; flat_buffer_ := [];
        max_frame_bytes_ := WS_DEFAULT_MAX_FRAME_BYTES; frag_buffer_ := []; frag_opcode_ := 0;
        in_fragment_ := false |} 2 PARSE_FIRST_2_BYTES).2.

Definition WSCleanup (p : WSParser) : WSParser :=
  let p := set_ws_state (set_buffer p (Reset (buffer_ p)) 0) PARSE_FIRST_2_BYTES 0 in
  let p := (WSRequireData p 2 PARSE_FIRST_2_BYTES).2 in
  set_frag (set_flat p []) [] 0 false.

Definition SetMaxFrameBytes (p : WSParser) (nBytes : Z) : WSParser :=
  if 0 <? nBytes then set_max p (if UINT32_MAX <? nBytes then UINT32_MAX else nBytes) else p.

(** [PARSE_ERROR]. *)
Definition parse_error (p : WSParser) (e : ws_error) : turn :=
  Throw e (set_buffer p (Rewind (buffer_ p) 0) (require_data_size_ p)).

(** ** The first two bytes *)

Definition with_final (h : WSFrameHeader) (f : bool) : WSFrameHeader :=
  {| is_final := f; opcode := opcode h; has_mask := has_mask h; mask := mask h;
     payload_size := payload_size h |}.
Definition with_opcode (h : WSFrameHeader) (o : Z) : WSFrameHeader :=
  {| is_final := is_final h; opcode := o; has_mask := has_mask h; mask := mask h;
     payload_size := payload_size h |}.
Definition with_length (h : WSFrameHeader) (m : bool) (n : Z) : WSFrameHeader :=
  {| is_final := is_final h; opcode := opcode h; has_mask := m; mask := mask h;
     payload_size := n |}.
Definition with_mask (h : WSFrameHeader) (k : bytes) : WSFrameHeader :=
  {| is_final := is_final h; opcode := opcode h; has_mask := has_mask h; mask := k;
     payload_size := payload_size h |}.

Definition control_opcode (op : Z) : bool := negb (Z.land op 0x08 =? 0).

(** The checks of [_ParseFirst2Bytes] on its two bytes: the header as far as it is
    filled in, and the exception if one is thrown. *)
Definition decode_first2 (in_fragment : bool) (frag_opcode : Z) (h : WSFrameHeader) (d0 d1 : Z)
    : WSFrameHeader * option ws_error :=
  let h := with_final h (negb (Z.land d0 0x80 =? 0)) in
  if negb (Z.land d0 0x70 =? 0) then (h, Some RsvBitsSet)
  else
    let tmp_opcode := Z.land d0 0x0F in
    if (WS_OP_PONG <? tmp_opcode)
       || ((WS_OP_BINARY <? tmp_opcode) && (tmp_opcode <? WS_OP_CLOSE))
    then (h, Some ReservedOpcode)
    else
      let isControl := control_opcode tmp_opcode in
      if (tmp_opcode =? WS_OP_CONTINUE) && negb in_fragment
      then (h, Some ContinuationWithoutMessage)
      else if negb (tmp_opcode =? WS_OP_CONTINUE) && negb isControl && in_fragment
      then (h, Some DataWhileFragmented)
      else
        let h := with_opcode h (if tmp_opcode =? WS_OP_CONTINUE then frag_opcode else tmp_opcode) in
        let h := with_length h (negb (Z.shiftr (Z.land d1 0xFF) 7 =? 0)) (Z.land d1 0x7F) in
        if isControl && negb (is_final h) then (h, Some FragmentedControl)
        else if isControl && (WS_MAX_CONTROL_PAYLOAD <? payload_size h) then (h, Some ControlTooLong)
        else if isControl && (tmp_opcode =? WS_OP_CLOSE) && (payload_size h =? 1)
        then (h, Some CloseBodyOneByte)
        else (h, None).

(** The checks of [_EnterPayloadStage]. *)
Definition payload_check (max frag_size : Z) (h : WSFrameHeader) : option ws_error :=
  if max <? payload_size h then Some LengthExceedsMax
  else if negb (control_opcode (opcode h)) && (max <? frag_size + payload_size h)
  then Some MessageExceedsMax else None.

Definition EnterPayloadStage (p : WSParser) : turn :=
  match payload_check (max_frame_bytes_ p) (zlen (frag_buffer_ p)) (parsed_header_ p) with
  | Some e => parse_error p e
  | None =>
      if has_mask (parsed_header_ p) then require_turn p 4 PARSE_MASK
      else require_turn p (u32 (payload_size (parsed_header_ p))) PARSE_PAYLOAD
  end.

Definition ParseFirst2Bytes (p : WSParser) : option turn :=
  if 2 <=? require_data_size_ p then
    match Read (buffer_ p) 2 with
    | ([d0; d1], b) =>
        let p := set_buffer p b (u32 (require_data_size_ p - 2)) in
        let '(h, err) := decode_first2 (in_fragment_ p) (frag_opcode_ p) (parsed_header_ p) d0 d1 in
        let p := set_ws_header p h in
        Some match err with
             | Some e => parse_error p e
             | None =>
                 if payload_size h =? 126 then require_turn p 2 PARSE_PAYLOAD_SIZE
                 else if payload_size h =? 127 then require_turn p 8 PARSE_PAYLOAD_SIZE
                 else EnterPayloadStage p
             end
    | _ => None
    end
  else None.

Definition ParsePayloadSize (p : WSParser) : option turn :=
  let h := parsed_header_ p in
  if payload_size h =? 126 then
    if 2 <=? RemainingLength (buffer_ p) then
      '(size, readSize, b) ← ReadUIntBE 2 (buffer_ p);
      let p := set_buffer p b (u32 (require_data_size_ p - readSize)) in
      Some (EnterPayloadStage (set_ws_header p (with_length h (has_mask h) size)))
    else None
  else if payload_size h =? 127 then
    if 8 <=? RemainingLength (buffer_ p) then
      '(size, readSize, b) ← ReadUIntBE 8 (buffer_ p);
      let p := set_buffer p b (u32 (require_data_size_ p - readSize)) in
      if negb (Z.shiftr size 63 =? 0) || (max_frame_bytes_ p <? size) then
        Some (parse_error (set_ws_header p (with_length h (has_mask h) 0)) LengthExceedsMax)
      else Some (EnterPayloadStage (set_ws_header p (with_length h (has_mask h) size)))
    else None
  else Some (EnterPayloadStage p).

Definition ParseMask (p : WSParser) : option turn :=
  if (4 <=? require_data_size_ p) && (4 <=? RemainingLength (buffer_ p)) then
    let '(k, b) := Read (buffer_ p) 4 in
    let p := set_buffer p b (u32 (require_data_size_ p - zlen k)) in
    let p := set_ws_header p (with_mask (parsed_header_ p) k) in
    Some (require_turn p (u32 (payload_size (parsed_header_ p))) PARSE_PAYLOAD)
  else None.

(** ** Delivery *)

(** Where the message that is being reassembled stands: the bytes so far, its opcode,
    and whether one is open. *)
Record fragments := { fr_buffer : bytes; fr_opcode : Z; fr_open : bool }.

Definition no_fragments : fragments := {| fr_buffer := []; fr_opcode := 0; fr_open := false |}.

(** [_DeliverPayload]; a null payload is [None]. *)
Definition deliver_frame (h : WSFrameHeader) (f : fragments) (payload : option bytes)
    (payload_len : Z) : fragments * list ws_event :=
  if control_opcode (opcode h) then (f, [OnRecvWSFrame h payload payload_len])
  else if is_final h && negb (fr_open f) then (f, [OnRecvWSFrame h payload payload_len])
  else
    let frag := match payload with
                | Some bs => if 0 <? payload_len then fr_buffer f ++ bs else fr_buffer f
                | None => fr_buffer f
                end in
    if negb (is_final h) then ({| fr_buffer := frag; fr_opcode := opcode h; fr_open := true |}, [])
    else
      let joined := with_length h (has_mask h) (zlen frag) in
      (no_fragments, [OnRecvWSFrame joined (if zlen frag =? 0 then None else Some frag) (zlen frag)]).

Definition frags (p : WSParser) : fragments :=
  {| fr_buffer := frag_buffer_ p; fr_opcode := frag_opcode_ p; fr_open := in_fragment_ p |}.

Definition DeliverPayload (p : WSParser) (payload : option bytes) (payload_len : Z)
    : WSParser * list ws_event :=
  let '(f, evs) := deliver_frame (parsed_header_ p) (frags p) payload payload_len in
  (set_frag p (fr_buffer f) (fr_opcode f) (fr_open f), evs).

Definition ParsePayload (p : WSParser) : option turn :=
  let h := parsed_header_ p in
  if require_data_size_ p <? payload_size h then Some (parse_error p InvalidFrame)
  else if payload_size h =? 0 then
    let '(p, evs) := DeliverPayload p None 0 in
    let '(go, p) := WSRequireData p 2 PARSE_FIRST_2_BYTES in
    Some (Go go p evs)
  else
    let flat := if zlen (flat_buffer_ p) <? payload_size h
                then vec_resize (payload_size h) (flat_buffer_ p) else flat_buffer_ p in
    '(bs, b) ← WriteFrom (buffer_ p) (payload_size h);
    let readSize := zlen bs in
    let p := set_buffer p b (u32 (require_data_size_ p - readSize)) in
    let bs := if has_mask h then xor_mask (mask h) 0 bs else bs in
    let p := set_flat p (write_at flat 0 bs) in
    data ← sub_bytes (flat_buffer_ p) 0 (payload_size h);
    let '(p, evs) := DeliverPayload p (Some data) (payload_size h) in
    let '(go, p) := WSRequireData p 2 PARSE_FIRST_2_BYTES in
    Some (Go go p evs).

Definition ws_turn (p : WSParser) : option turn :=
  match parse_state_ p with
  | PARSE_FIRST_2_BYTES => ParseFirst2Bytes p
  | PARSE_PAYLOAD_SIZE => ParsePayloadSize p
  | PARSE_MASK => ParseMask p
  | PARSE_PAYLOAD => ParsePayload p
  end.

(** The loop of [ParseWSFrame]: what the client was told, and the parser or the
    exception. *)
Fixpoint ParseWSFrame_loop (fuel : nat) (bContinue : bool) (p : WSParser)
    : option (list ws_event * (WSParser + ws_error * WSParser)) :=
  match fuel with
  | O => None
  | S f =>
      if negb bContinue then Some ([], inl p)
      else if RemainingLength (buffer_ p) <? require_data_size_ p then Some ([], inl p)
      else
        t ← ws_turn p;
        match t with
        | Throw e p' => Some ([], inr (e, p'))
        | Go go p' evs =>
            '(evs', r) ← ParseWSFrame_loop f go p';
            Some (evs ++ evs', r)
        end
  end.

(** [ParseWSFrame]: a frame without payload is two turns for two bytes, so twice the
    bytes held, and two more, is enough. *)
Definition ParseWSFrame (p : WSParser) (data : bytes)
    : option (list ws_event * (WSParser + ws_error * WSParser)) :=
  let p := set_buffer p (Write (buffer_ p) data) (require_data_size_ p) in
  '(evs, r) ← ParseWSFrame_loop (2 * length (b_data (buffer_ p)) + 3) true p;
  Some (evs, match r with
             | inr err => inr err
             | inl p =>
                 let b := if RemainingLength (buffer_ p) =? 0 then Reset (buffer_ p)
                          else RemoveConsumed (buffer_ p) in
                 inl (set_buffer p b (require_data_size_ p))
             end).

(** ** Building frames *)

Definition CalculateFrameHeaderSize (mask_data : bool) (data_len : Z) : Z :=
  let ret := if data_len <? 126 then 2 else if data_len <? 65536 then 4
             else if data_len <? 0xFFFFFFFFFFFFFFFF then 10 else 0 in
  if mask_data then ret + 4 else ret.

(** The in-place loop over the blocks of [rc] from its cursor on, [idx] bytes in. *)
Fixpoint mask_blocks (fuel : nat) (rc : buffer) (m : bytes) (idx : Z) : option buffer :=
  match fuel with
  | O => None
  | S f =>
      let '(blk, rc') := ReadBlock rc INFINITE in
      if zlen blk =? 0 then Some rc
      else mask_blocks f
             {| b_data := write_at (b_data rc) (b_cur rc) (xor_mask m idx blk); b_cur := b_cur rc' |}
             m (idx + zlen blk)
  end.

(** [BuildFrame]; [rand] is what [RAND_bytes] would give. The frame and the header with
    the mask used; an inner [None] is the [NULL] for data too large. *)
Definition BuildFrame (rand : bytes) (header : WSFrameHeader) (pData : buffer)
    : option (option buffer * WSFrameHeader) :=
  let data_len := RemainingLength pData in
  let header := if has_mask header && (zat (mask header) 0 =? 0)
                then with_mask header rand else header in
  let w := WriteUInt8 empty_buffer (Z.lor 0x80 (Z.land (opcode header) 0x0F)) in
  let nByte := if has_mask header then 0x80 else 0 in
  match (if data_len <? 126 then Some (WriteUInt8 w (Z.lor nByte (Z.land data_len 0x7F)))
         else if data_len <? 65536 then
           Some (WriteUInt16BE (WriteUInt8 w (Z.lor nByte (Z.land 126 0x7F))) (u16 data_len))
         else if data_len <? 0xFFFFFFFFFFFFFFFF then
           Some (WriteUInt64BE (WriteUInt8 w (Z.lor nByte (Z.land 127 0x7F))) data_len)
         else None) with
  | None => Some (None, header)
  | Some w =>
      if has_mask header then
        let w := Write w (mask header) in
        let nStartPos := zlen (b_data w) in
        '(bs, _) ← WriteFrom pData (RemainingLength pData);
        rc ← mask_blocks (S (length (b_data (Write w bs)))) (Rewind (Write w bs) nStartPos)
               (mask header) 0;
        Some (Some (Rewind rc 0), header)
      else
        '(bs, _) ← WriteFrom pData (RemainingLength pData);
        Some (Some (Write w bs), header)
  end.

(** [MaskBuffer]; a null key or an empty one is [None]. *)
Definition MaskBuffer (origion : buffer) (mask_key : option bytes) : option buffer :=
  match mask_key with
  | None | Some [] => Some (Clone origion)
  | Some m =>
      '(bs, _) ← WriteFrom origion (RemainingLength origion);
      let rc := Write empty_buffer bs in
      rc ← mask_blocks (S (length bs)) rc m 0;
      Some (Rewind rc 0)
  end.

(** [PackPacket]; a null packet or payload is [None]. *)
Definition WSPackPacket (rand : bytes) (pkt : option buffer) (op : Z) (has_m : bool)
    : option (option buffer) :=
  match pkt with
  | None => Some None
  | Some origion_data =>
      let header := {| is_final := true; opcode := op; has_mask := has_m;
                       mask := [0; 0; 0; 0]; payload_size := RemainingLength origion_data |} in
      '(rc, _) ← BuildFrame rand header origion_data;
      Some rc
  end.

(** [WriteToWS]: the result code and the frame handed to [OnWSWrite]. *)
Definition WriteToWS (rand1 rand2 : bytes) (type : Z) (mask : bool) (data : option buffer)
    : option (Z * option buffer) :=
  if negb (type =? WS_OP_TEXT) && negb (type =? WS_OP_BINARY) then Some (BC_R_INVALIDARG, None)
  else match data with
  | None => Some (BC_R_INVALIDARG, None)
  | Some d =>
      let header := {| is_final := true; opcode := type; has_mask := mask;
                       mask := if mask then rand1 else [0; 0; 0; 0];
                       payload_size := RemainingLength d |} in
      '(rc, _) ← BuildFrame rand2 header d;
      Some match rc with
           | None => (BC_R_FAILURE, None)
           | Some frame => (BC_R_SUCCESS, Some frame)
           end
  end.

(** ** Handshake keys *)

Definition WS_HANDSHAKE_GUID : bytes := str "258EAFA5-E914-47DA-95CA-C5AB0DC85B11".

Section Keys.
(** [base64_encode]: the text, or a length that is not positive; and [SHA1]. *)
Context (base64_encode : bytes -> option bytes) (SHA1 : bytes -> bytes).

(** [WSGenKey] on 16 random bytes. *)
Definition WSGenKey (rand16 : bytes) : bytes :=
  match base64_encode rand16 with Some t => t | None => [] end.

Definition WSAcceptKey (client_key : bytes) : bytes :=
  match base64_encode (SHA1 (client_key ++ WS_HANDSHAKE_GUID)) with Some t => t | None => [] end.
End Keys.

(** ** The parser without its buffers

    What it waits for, the header so far, and the message being reassembled: a step between
    the code and the reference ([read_messages], below) that the parser is verified against.
    It shares the parser's own checks, which the reference does not. *)

Record ws_spec := {
  sp_state : WSParseStateE;
  sp_header : WSFrameHeader;
  sp_frags : fragments;
  sp_max : Z
}.

Definition sp_goto (s : ws_spec) (st : WSParseStateE) (h : WSFrameHeader) : ws_spec :=
  {| sp_state := st; sp_header := h; sp_frags := sp_frags s; sp_max := sp_max s |}.

(** The header is complete but for the mask. *)
Definition sp_enter (s : ws_spec) (h : WSFrameHeader) : (ws_spec * list ws_event) + ws_error :=
  match payload_check (sp_max s) (zlen (fr_buffer (sp_frags s))) h with
  | Some e => inr e
  | None => inl (sp_goto s (if has_mask h then PARSE_MASK else PARSE_PAYLOAD) h, [])
  end.

Definition sp_first2 (s : ws_spec) (d0 d1 : Z) : (ws_spec * list ws_event) + ws_error :=
  let f := sp_frags s in
  match decode_first2 (fr_open f) (fr_opcode f) (sp_header s) d0 d1 with
  | (_, Some e) => inr e
  | (h, None) =>
      if (payload_size h =? 126) || (payload_size h =? 127)
      then inl (sp_goto s PARSE_PAYLOAD_SIZE h, []) else sp_enter s h
  end.

Definition sp_payload (s : ws_spec) (bs : bytes) : ws_spec * list ws_event :=
  let h := sp_header s in
  let '(f, evs) :=
    if payload_size h =? 0 then deliver_frame h (sp_frags s) None 0
    else deliver_frame h (sp_frags s) (Some (if has_mask h then xor_mask (mask h) 0 bs else bs))
           (payload_size h) in
  ({| sp_state := PARSE_FIRST_2_BYTES; sp_header := h; sp_frags := f; sp_max := sp_max s |}, evs).

Definition sp_need (s : ws_spec) : Z :=
  match sp_state s with
  | PARSE_FIRST_2_BYTES => 2
  | PARSE_PAYLOAD_SIZE => if payload_size (sp_header s) =? 126 then 2 else 8
  | PARSE_MASK => 4
  | PARSE_PAYLOAD => Z.max 0 (payload_size (sp_header s))
  end.

Definition sp_step (s : ws_spec) (bs : bytes) : (ws_spec * list ws_event) + ws_error :=
  let h := sp_header s in
  match sp_state s with
  | PARSE_FIRST_2_BYTES => sp_first2 s (zat bs 0) (zat bs 1)
  | PARSE_PAYLOAD_SIZE => sp_enter s (with_length h (has_mask h) (be_val bs))
  | PARSE_MASK => inl (sp_goto s PARSE_PAYLOAD (with_mask h bs), [])
  | PARSE_PAYLOAD => inl (sp_payload s bs)
  end.

#[export] Instance ws_stream : IncParser ws_spec ws_event ws_error := {
  need := sp_need;
  step := sp_step;
  idle_rank s := match sp_state s with PARSE_PAYLOAD => 1%nat | _ => 0%nat end
}.

#[export] Instance ws_stream_ok : IncParserOk ws_spec ws_event ws_error.
Proof.
  split; unfold need, step, idle_rank, ws_stream.
  - intros s. unfold sp_need. repeat case_match; lia.
  - intros s s' bs evs H0 Hs. unfold sp_need in H0. unfold sp_step in Hs.
    destruct (sp_state s); try lia; [case_match; lia|].
    injection Hs as Hs. unfold sp_payload in Hs. case_match; simplify_eq. cbn. lia.
Qed.

(** ** The parser refines the specification *)

Definition ws_abs (p : WSParser) : ws_spec :=
  {| sp_state := parse_state_ p; sp_header := parsed_header_ p; sp_frags := frags p;
     sp_max := max_frame_bytes_ p |}.

(** The message being reassembled is within the limit, and empty when none is open. *)
Definition frags_ok (max : Z) (f : fragments) : Prop :=
  zlen (fr_buffer f) <= max /\ (fr_open f = false -> fr_buffer f = []).

(** The payload announced is within the limit, alone and joined to what is open. *)
Definition payload_fits (max : Z) (f : fragments) (h : WSFrameHeader) : Prop :=
  0 <= payload_size h <= max /\
  (control_opcode (opcode h) = false -> zlen (fr_buffer f) + payload_size h <= max).

Definition ws_base (p : WSParser) : Prop :=
  buf_ok (buffer_ p) /\ bytes_ok (b_data (buffer_ p)) /\ 0 < max_frame_bytes_ p <= UINT32_MAX /\
  frags_ok (max_frame_bytes_ p) (frags p) /\ zlen (flat_buffer_ p) <= max_frame_bytes_ p.

Definition ws_inv (p : WSParser) : Prop :=
  ws_base p /\ require_data_size_ p = sp_need (ws_abs p) /\
  match parse_state_ p with
  | PARSE_FIRST_2_BYTES => True
  | PARSE_PAYLOAD_SIZE => payload_size (parsed_header_ p) = 126 \/ payload_size (parsed_header_ p) = 127
  | PARSE_MASK | PARSE_PAYLOAD => payload_fits (max_frame_bytes_ p) (frags p) (parsed_header_ p)
  end.

Definition turn_refines (rest : bytes) (t : turn) (r : (ws_spec * list ws_event) + ws_error) : Prop :=
  match t, r with
  | Go go p evs, inl (s, evs') =>
      evs = evs' /\ ws_abs p = s /\ ws_inv p /\ unread (buffer_ p) = rest /\
      go = (require_data_size_ p <=? RemainingLength (buffer_ p))
  | Throw e p, inr e' => e = e' /\ b_cur (buffer_ p) = 0
  | _, _ => False
  end.

Lemma parse_error_refines rest p e : buf_ok (buffer_ p) -> turn_refines rest (parse_error p e) (inr e).
Proof. intros Hb. split; [done|]. cbn. pose proof (zlen_nonneg (b_data (buffer_ p))). lia. Qed.

Lemma require_turn_eq p n st :
  require_data_size_ p = 0 -> 0 <= n <= UINT32_MAX ->
  require_turn p n st = Go (n <=? RemainingLength (buffer_ p)) (set_ws_state p st n) [].
Proof.
  intros H0 Hn. unfold require_turn, WSRequireData, UINT32_MAX in *.
  rewrite H0. cbn. by rewrite u32_small by lia.
Qed.

(** Asking for what the state needs. *)
Lemma require_refines p n st s :
  ws_base p -> require_data_size_ p = 0 ->
  ws_abs (set_ws_state p st n) = s -> n = sp_need s -> 0 <= n <= UINT32_MAX ->
  ws_inv (set_ws_state p st n) ->
  turn_refines (unread (buffer_ p)) (require_turn p n st) (inl (s, [])).
Proof.
  intros Hb H0 Hs Hn Hr Hi. rewrite require_turn_eq by done. by split_and!.
Qed.

Lemma enter_refines p :
  ws_base p -> require_data_size_ p = 0 -> 0 <= payload_size (parsed_header_ p) ->
  turn_refines (unread (buffer_ p)) (EnterPayloadStage p) (sp_enter (ws_abs p) (parsed_header_ p)).
Proof.
  intros Hb H0 Hp. pose proof Hb as (Hbuf & _ & Hmax & _).
  unfold EnterPayloadStage, sp_enter. cbn [sp_max sp_frags ws_abs frags fr_buffer].
  destruct (payload_check _ _ _) as [e|] eqn:Hc; [by apply parse_error_refines|].
  assert (Hfit : payload_fits (max_frame_bytes_ p) (frags p) (parsed_header_ p)).
  { unfold payload_check in Hc. destruct (Z.ltb_spec (max_frame_bytes_ p) (payload_size (parsed_header_ p))); [done|].
    split; [lia|]. intros Hctl. rewrite Hctl in Hc. cbn [negb andb frags fr_buffer] in *.
    destruct (Z.ltb_spec (max_frame_bytes_ p) (zlen (frag_buffer_ p) + payload_size (parsed_header_ p)));
      [done|lia]. }
  pose proof Hfit as [Hle _]. unfold UINT32_MAX in *.
  destruct (has_mask (parsed_header_ p)).
  - apply require_refines; done.
  - rewrite u32_small by lia.
    apply require_refines; try done; try (unfold sp_need; cbn; unfold UINT32_MAX; lia).
    split_and!; try done. unfold sp_need; cbn; lia.
Qed.

Lemma read_front b n :
  buf_ok b -> 0 <= n <= RemainingLength b ->
  Read b n = (ztake n (unread b), set_cur b (b_cur b + n)) /\
  buf_ok (set_cur b (b_cur b + n)) /\ unread (set_cur b (b_cur b + n)) = zdrop n (unread b).
Proof.
  intros. split_and!; [by apply Read_available|by apply advance_ok|by apply advance_unread].
Qed.

Lemma ws_base_buffer p b r :
  ws_base p -> buf_ok b -> bytes_ok (b_data b) -> ws_base (set_buffer p b r).
Proof. intros (_ & _ & H) ??. by split_and!; try apply H. Qed.

Lemma ws_base_header p h : ws_base p -> ws_base (set_ws_header p h).
Proof. done. Qed.

Lemma decode_first2_length inf op h d0 d1 h' :
  is_byte d1 -> decode_first2 inf op h d0 d1 = (h', None) -> 0 <= payload_size h' <= 127.
Proof.
  intros Hd. unfold decode_first2.
  repeat match goal with |- context [if ?c then (_, Some _) else _] => destruct c; [done|] end.
  intros [= <-]. cbn [payload_size with_length].
  rewrite (land_mask 7) by done. change (2 ^ 7) with 128. lia.
Qed.

Lemma first2_refines p :
  ws_inv p -> parse_state_ p = PARSE_FIRST_2_BYTES -> 2 <= zlen (unread (buffer_ p)) ->
  exists t, ParseFirst2Bytes p = Some t /\
    turn_refines (zdrop 2 (unread (buffer_ p))) t (step (ws_abs p) (ztake 2 (unread (buffer_ p)))).
Proof.
  intros (Hbase & Hreq & _) Hst Hl. pose proof Hbase as (Hb & Hby & _).
  unfold sp_need, ws_abs in Hreq. cbn in Hreq. rewrite Hst in Hreq.
  rewrite zlen_unread in Hl by done.
  destruct (read_front (buffer_ p) 2 Hb ltac:(lia)) as (Hrd & Hok & Hu).
  unfold ParseFirst2Bytes. rewrite Hreq, Hrd. cbn [Z.leb Z.compare Pos.compare Pos.compare_cont].
  assert (Hby2 : bytes_ok (ztake 2 (unread (buffer_ p)))) by by apply bytes_ok_ztake, bytes_ok_zdrop.
  assert (Hl2 : zlen (ztake 2 (unread (buffer_ p))) = 2)
    by (apply zlen_ztake; rewrite zlen_unread by done; lia).
  destruct (ztake 2 (unread (buffer_ p))) as [|d0 [|d1 [|]]] eqn:E;
    try (exfalso; clear - Hl2; unfold zlen in Hl2; cbn [length] in Hl2; lia).
  cbv zeta. set (p1 := set_buffer p _ _).
  assert (Hbase1 : ws_base p1) by by apply ws_base_buffer.
  change (step (ws_abs p) [d0; d1]) with (sp_step (ws_abs p) [d0; d1]).
  unfold sp_step. cbn [sp_state ws_abs]. rewrite Hst.
  change (zat [d0; d1] 0) with d0. change (zat [d0; d1] 1) with d1.
  unfold sp_first2. cbn [sp_frags sp_header ws_abs frags fr_open fr_opcode].
  change (in_fragment_ p1) with (in_fragment_ p). change (frag_opcode_ p1) with (frag_opcode_ p).
  change (parsed_header_ p1) with (parsed_header_ p).
  destruct (decode_first2 _ _ _ _ _) as [h [e|]] eqn:Hd; (eexists; split; [done|]).
  - by apply parse_error_refines.
  - assert (Hlen : 0 <= payload_size h <= 127).
    { eapply decode_first2_length; [|exact Hd]. by apply Forall_cons_1 in Hby2 as [_ ?%Forall_inv]. }
    change (require_data_size_ p1) with (u32 (2 - 2)) in *.
    rewrite <- Hu. change (set_cur (buffer_ p) (b_cur (buffer_ p) + 2)) with (buffer_ (set_ws_header p1 h)).
    destruct (Z.eqb_spec (payload_size h) 126) as [E126|]; [|destruct (Z.eqb_spec (payload_size h) 127) as [E127|]];
      cbn [orb].
    + apply require_refines; try done.
      * cbn. by rewrite E126.
      * unfold ws_inv, sp_need. cbn. rewrite E126. split_and!; try done; by left.
    + apply require_refines; try done.
      * cbn. by rewrite E127.
      * unfold ws_inv, sp_need. cbn. rewrite E127. split_and!; try done; by right.
    + apply (enter_refines (set_ws_header p1 h)); [done|done|cbn; lia].
Qed.

(** A state whose required bytes have been taken. *)
Lemma taken_base p n :
  ws_base p -> 0 <= n <= RemainingLength (buffer_ p) -> forall r,
  ws_base (set_buffer p (set_cur (buffer_ p) (b_cur (buffer_ p) + n)) r) /\
  unread (set_cur (buffer_ p) (b_cur (buffer_ p) + n)) = zdrop n (unread (buffer_ p)).
Proof.
  intros Hb Hn r. pose proof Hb as (Hok & Hby & _). split; [|by apply advance_unread].
  apply ws_base_buffer; [done|by apply advance_ok|done].
Qed.

Lemma size_refines p n :
  ws_inv p -> parse_state_ p = PARSE_PAYLOAD_SIZE ->
  n = sp_need (ws_abs p) -> n <= zlen (unread (buffer_ p)) ->
  exists t, ParsePayloadSize p = Some t /\
    turn_refines (zdrop n (unread (buffer_ p))) t (sp_step (ws_abs p) (ztake n (unread (buffer_ p)))).
Proof.
  intros (Hbase & Hreq & Hsz) Hst -> Hl. pose proof Hbase as (Hb & Hby & Hmax & _).
  rewrite Hst in Hsz. unfold ParsePayloadSize, sp_step. cbn [sp_state ws_abs]. rewrite Hst.
  rewrite zlen_unread in Hl by done. unfold sp_need in *. cbn [sp_state sp_header ws_abs] in *.
  rewrite Hst in *. set (h := parsed_header_ p) in *.
  assert (Hgo : forall k, Z.of_nat k = (if payload_size h =? 126 then 2 else 8) ->
    let size := be_val (ztake (Z.of_nat k) (unread (buffer_ p))) in
    let b := set_cur (buffer_ p) (b_cur (buffer_ p) + Z.of_nat k) in
    let p1 := set_buffer p b (u32 (require_data_size_ p - Z.of_nat k)) in
    ReadUIntBE k (buffer_ p) = Some (size, Z.of_nat k, b) /\ 0 <= size < 2 ^ (8 * Z.of_nat k) /\
    turn_refines (zdrop (Z.of_nat k) (unread (buffer_ p)))
      (EnterPayloadStage (set_ws_header p1 (with_length h (has_mask h) size)))
      (sp_enter (ws_abs p) (with_length h (has_mask h) size))).
  { intros k Hk size b p1. rewrite <- Hk in Hl.
    destruct (taken_base p (Z.of_nat k) Hbase ltac:(lia) (u32 (require_data_size_ p - Z.of_nat k)))
      as [Hb1 Hu1].
    assert (Hf : bytes_ok (ztake (Z.of_nat k) (unread (buffer_ p))))
      by by apply bytes_ok_ztake, bytes_ok_zdrop.
    pose proof (be_val_bound _ Hf) as Hbd. rewrite zlen_ztake in Hbd by (rewrite zlen_unread by done; lia).
    split_and!; [by apply ReadUIntBE_spec|apply Hbd|apply Hbd|].
    rewrite <- Hu1. apply (enter_refines (set_ws_header p1 (with_length h (has_mask h) size))).
    - by apply ws_base_header.
    - cbn. rewrite Hreq, <- Hk, Z.sub_diag. done.
    - cbn. lia. }
  destruct Hsz as [E | E]; rewrite E in *; cbn [Z.eqb Pos.eqb] in *.
  - destruct (Hgo 2%nat eq_refl) as (-> & _ & Ht). rewrite (proj2 (Z.leb_le _ _)) by lia.
    cbn [mbind option_bind]. eexists. split; [done|exact Ht].
  - destruct (Hgo 8%nat eq_refl) as (-> & Hs & Ht). rewrite (proj2 (Z.leb_le _ _)) by lia.
    cbn [mbind option_bind]. set (size := be_val _) in *.
    change (max_frame_bytes_ (set_buffer p _ _)) with (max_frame_bytes_ p).
    destruct (negb (Z.shiftr size 63 =? 0) || (max_frame_bytes_ p <? size)) eqn:Ebig;
      (eexists; split; [done|]).
    + enough (max_frame_bytes_ p < size) as Hbig.
      { change (Z.of_nat 8) with 8 in *. unfold size in Hbig. fold size in Hbig.
        unfold sp_enter, payload_check. cbn [sp_max ws_abs payload_size with_length].
        unfold size in Hbig. rewrite (proj2 (Z.ltb_lt _ _)) by exact Hbig.
        apply parse_error_refines. cbn. apply advance_ok; [done|lia]. }
      apply orb_true_iff in Ebig as [Eb | Eb]; [|by apply Z.ltb_lt in Eb].
      apply negb_true_iff, Z.eqb_neq in Eb. rewrite Z.shiftr_div_pow2 in Eb by lia.
      unfold UINT32_MAX in Hmax. change (2 ^ 63) with 9223372036854775808 in Eb. lia.
    + exact Ht.
Qed.

Lemma mask_refines p :
  ws_inv p -> parse_state_ p = PARSE_MASK -> 4 <= zlen (unread (buffer_ p)) ->
  exists t, ParseMask p = Some t /\
    turn_refines (zdrop 4 (unread (buffer_ p))) t (sp_step (ws_abs p) (ztake 4 (unread (buffer_ p)))).
Proof.
  intros (Hbase & Hreq & Hfit) Hst Hl. pose proof Hbase as (Hb & Hby & Hmax & _).
  rewrite Hst in Hfit. rewrite zlen_unread in Hl by done.
  unfold sp_need in Hreq. cbn in Hreq. rewrite Hst in Hreq.
  destruct (read_front (buffer_ p) 4 Hb ltac:(lia)) as (Hrd & Hok & Hu).
  unfold ParseMask. rewrite Hreq, Hrd, (proj2 (Z.leb_le 4 (RemainingLength _))) by lia.
  cbn [andb Z.leb Z.compare Pos.compare Pos.compare_cont].
  assert (Hk : zlen (ztake 4 (unread (buffer_ p))) = 4)
    by (apply zlen_ztake; rewrite zlen_unread by done; lia).
  eexists. split; [done|]. rewrite Hk. unfold sp_step. cbn [sp_state ws_abs]. rewrite Hst.
  rewrite <- Hu. set (p1 := set_ws_header _ _).
  change (set_cur (buffer_ p) (b_cur (buffer_ p) + 4)) with (buffer_ p1).
  destruct Hfit as [[Hp0 Hp1] Hp2]. unfold UINT32_MAX in Hmax.
  assert (Hn : payload_size (parsed_header_ p1) = payload_size (parsed_header_ p)) by done.
  assert (Hbase1 : ws_base p1) by (apply ws_base_header, ws_base_buffer; done).
  rewrite u32_small by lia. apply require_refines; try done; try (unfold UINT32_MAX; lia).
  - unfold sp_need. cbn. lia.
  - split_and!; try apply Hbase1; try done. unfold sp_need. cbn. lia.
Qed.

Lemma deliver_frags_ok max h f payload n :
  0 < max -> frags_ok max f -> payload_fits max f h -> n = payload_size h ->
  (match payload with Some bs => zlen bs = n | None => n = 0 end) ->
  frags_ok max (deliver_frame h f payload n).1.
Proof.
  intros H0 [Hl Ho] [[Hp0 Hp1] Hp2] -> Hpl. unfold deliver_frame.
  destruct (control_opcode (opcode h)) eqn:Ec; [done|]. specialize (Hp2 eq_refl).
  destruct (is_final h && negb (fr_open f)); [done|].
  destruct (negb (is_final h)); cbn; [|split; [unfold zlen; cbn; lia|done]].
  split; [|done]. cbn. destruct payload as [bs|]; [|done].
  zcase; [rewrite zlen_app|]; lia.
Qed.

Lemma xor_mask_length m i bs : zlen (xor_mask m i bs) = zlen bs.
Proof. unfold zlen, xor_mask. by rewrite length_imap. Qed.

(** After a delivery the parser waits for the next frame. *)
Lemma delivered_refines p payload n :
  ws_base p -> require_data_size_ p = 0 ->
  payload_fits (max_frame_bytes_ p) (frags p) (parsed_header_ p) ->
  n = payload_size (parsed_header_ p) ->
  (match payload with Some bs => zlen bs = n | None => n = 0 end) ->
  let '(p', evs) := DeliverPayload p payload n in
  let '(go, p'') := WSRequireData p' 2 PARSE_FIRST_2_BYTES in
  turn_refines (unread (buffer_ p)) (Go go p'' evs)
    (inl (let '(f, evs) := deliver_frame (parsed_header_ p) (frags p) payload n in
          ({| sp_state := PARSE_FIRST_2_BYTES; sp_header := parsed_header_ p; sp_frags := f;
              sp_max := max_frame_bytes_ p |}, evs))).
Proof.
  intros Hbase H0 Hfit Hn Hpl. pose proof Hbase as (Hb & Hby & Hmax & Hfr & Hfl).
  unfold DeliverPayload.
  pose proof (deliver_frags_ok (max_frame_bytes_ p) (parsed_header_ p) (frags p) payload n
                ltac:(lia) Hfr Hfit Hn Hpl) as Hfr'.
  destruct (deliver_frame _ _ _ _) as [f evs]. unfold WSRequireData. cbn. rewrite H0. cbn.
  destruct f as [fb fo fi]. split_and!; try done; apply Hfr'.
Qed.

Lemma payload_refines p n :
  ws_inv p -> parse_state_ p = PARSE_PAYLOAD -> n = payload_size (parsed_header_ p) ->
  n <= zlen (unread (buffer_ p)) ->
  exists t, ParsePayload p = Some t /\
    turn_refines (zdrop n (unread (buffer_ p))) t (sp_step (ws_abs p) (ztake n (unread (buffer_ p)))).
Proof.
  intros (Hbase & Hreq & Hfit) Hst Hn Hl. pose proof Hbase as (Hb & Hby & Hmax & Hfr & Hfl).
  rewrite Hst in Hfit. rewrite zlen_unread in Hl by done. pose proof Hfit as [[Hp0 Hp1] _].
  unfold sp_need in Hreq. cbn in Hreq. rewrite Hst, Z.max_r in Hreq by lia.
  unfold ParsePayload, sp_step. cbn [sp_state ws_abs]. rewrite Hst, Hreq, Z.ltb_irrefl, <- Hn.
  unfold sp_payload. cbn [sp_header sp_frags sp_max ws_abs].
  destruct (Z.eqb_spec n 0) as [E0|E0].
  - rewrite E0, zdrop_0. rewrite E0 in Hn. rewrite <- Hn. cbn [Z.eqb].
    pose proof (delivered_refines p None 0 Hbase ltac:(by rewrite Hreq) Hfit Hn eq_refl) as Hd.
    destruct (DeliverPayload p None 0) as [p1 evs]. destruct (WSRequireData p1 2 _) as [go p2].
    eexists. split; [done|exact Hd].
  - rewrite <- Hn, (proj2 (Z.eqb_neq n 0)) by done.
    rewrite WriteFrom_spec by (done || lia). rewrite Z.min_l by lia. cbn [mbind option_bind].
    assert (Hk : zlen (ztake n (unread (buffer_ p))) = n)
      by (apply zlen_ztake; rewrite zlen_unread by done; lia).
    rewrite Hk. set (h := parsed_header_ p) in *.
    set (bs := if has_mask h then xor_mask (mask h) 0 _ else _).
    assert (Hbs : zlen bs = n) by (unfold bs; destruct (has_mask h); rewrite ?xor_mask_length; done).
    set (flat := if zlen (flat_buffer_ p) <? n then _ else _).
    assert (Hflat : n <= zlen flat <= max_frame_bytes_ p).
    { unfold flat. destruct (Z.ltb_spec (zlen (flat_buffer_ p)) n); [|lia].
      rewrite vec_resize_length; lia. }
    cbn [set_flat flat_buffer_].
    pose proof (write_at_take flat 0 bs ltac:(lia) ltac:(lia)) as Hw.
    rewrite Z.add_0_l, Hbs in Hw. cbn [app] in Hw.
    rewrite sub_bytes_Some by (rewrite ?write_at_length by lia; lia).
    rewrite zdrop_0, Hw. cbn [mbind option_bind].
    destruct (taken_base p n Hbase ltac:(lia) (u32 (n - n))) as [Hb1 Hu1]. rewrite <- Hu1.
    set (p1 := set_flat _ _).
    assert (Hbase1 : ws_base p1).
    { destruct Hb1 as (H1 & H2 & H3 & H4 & _). refine (conj H1 (conj H2 (conj H3 (conj H4 _)))).
      change (zlen (write_at flat 0 bs) <= max_frame_bytes_ p).
      rewrite write_at_length by lia. lia. }
    change (ztake 0 flat ++ bs) with bs.
    pose proof (delivered_refines p1 (Some bs) n Hbase1) as Hd.
    specialize (Hd ltac:(cbn; by rewrite Z.sub_diag) Hfit Hn Hbs).
    destruct (DeliverPayload p1 (Some bs) n) as [p2 evs]. destruct (WSRequireData p2 2 _) as [go p3].
    eexists. split; [done|exact Hd].
Qed.

Lemma ws_turn_refines p :
  ws_inv p -> need (ws_abs p) <= zlen (unread (buffer_ p)) ->
  exists t, ws_turn p = Some t /\
    turn_refines (zdrop (need (ws_abs p)) (unread (buffer_ p))) t
      (step (ws_abs p) (ztake (need (ws_abs p)) (unread (buffer_ p)))).
Proof.
  intros Hi Hn. cbn [need step ws_stream] in *. unfold ws_turn.
  destruct (parse_state_ p) eqn:Hst.
  - assert (E : sp_need (ws_abs p) = 2) by (unfold sp_need; cbn; by rewrite Hst).
    rewrite E in *. by apply first2_refines.
  - by apply size_refines.
  - assert (E : sp_need (ws_abs p) = 4) by (unfold sp_need; cbn; by rewrite Hst).
    rewrite E in *. by apply mask_refines.
  - pose proof Hi as (_ & _ & Hfit). rewrite Hst in Hfit. destruct Hfit as [[? _] _].
    assert (E : sp_need (ws_abs p) = payload_size (parsed_header_ p))
      by (unfold sp_need; cbn; rewrite Hst; lia).
    rewrite E in *. by apply payload_refines.
Qed.

Definition end_of (r : WSParser + ws_error * WSParser) : (ws_spec * bytes) + ws_error :=
  match r with
  | inl p => inl (ws_abs p, unread (buffer_ p))
  | inr (e, _) => inr e
  end.

(** Between calls: everything that could be parsed was. *)
Definition ws_waiting (p : WSParser) : Prop :=
  ws_inv p /\ zlen (unread (buffer_ p)) < need (ws_abs p).

(** Where a call may end: waiting, or rejected with the buffer rewound. *)
Definition ws_end_ok (r : WSParser + ws_error * WSParser) : Prop :=
  match r with inl p => ws_waiting p | inr (_, p) => b_cur (buffer_ p) = 0 end.

Lemma ParseWSFrame_loop_spec fuel go p :
  ws_inv p -> (2 * length (unread (buffer_ p)) + idle_rank (ws_abs p) < fuel)%nat ->
  go = true \/ zlen (unread (buffer_ p)) < need (ws_abs p) ->
  exists evs r, ParseWSFrame_loop fuel go p = Some (evs, r) /\ ws_end_ok r /\
    runs (ws_abs p) (unread (buffer_ p)) evs (end_of r).
Proof.
  revert go p. induction fuel as [|f IH]; intros go p Hi Hf Hgo; [lia|].
  cbn [ParseWSFrame_loop]. pose proof Hi as ((Hb & _) & Hreq & _).
  change (sp_need (ws_abs p)) with (need (ws_abs p)) in Hreq.
  rewrite <- zlen_unread by done. rewrite Hreq.
  destruct (Z.ltb_spec (zlen (unread (buffer_ p))) (need (ws_abs p))) as [Hlt|Hge].
  - assert (Hend : exists evs r, Some ([], inl p) = Some (evs, r) /\ ws_end_ok r /\
      runs (ws_abs p) (unread (buffer_ p)) evs (end_of r)).
    { exists [], (inl p). split_and!; [done|done|]. by constructor. }
    destruct go; exact Hend.
  - destruct Hgo as [-> | ?]; [|lia]. cbn [negb].
    destruct (ws_turn_refines p Hi Hge) as (t & -> & Ht). cbn [mbind option_bind].
    unfold turn_refines in Ht. destruct t as [go p' evs|e p'];
      destruct (step (ws_abs p) _) as [[s' evs']|e'] eqn:Hst; try done.
    + destruct Ht as (<- & <- & Hi' & Hu' & ->). pose proof Hi' as ((Hb' & _) & Hreq' & _).
      assert (Hd : zlen (unread (buffer_ p')) = zlen (unread (buffer_ p)) - need (ws_abs p)).
      { rewrite Hu'. apply zlen_zdrop. pose proof (need_nonneg (ws_abs p)). lia. }
      destruct (IH (require_data_size_ p' <=? RemainingLength (buffer_ p')) p') as (evs2 & r & -> & Hr & Hrun);
        [done| | |].
      * pose proof (need_nonneg (ws_abs p)). unfold zlen in Hd.
        destruct (Z.eq_dec (need (ws_abs p)) 0) as [E|E].
        -- pose proof (idle_decreases _ _ _ _ E Hst). lia.
        -- assert (idle_rank (ws_abs p') <= 1)%nat by (cbn; case_match; lia). lia.
      * change (sp_need (ws_abs p')) with (need (ws_abs p')) in Hreq'.
        rewrite Hreq', <- zlen_unread by done. zcase; [by left|by right].
      * exists (evs ++ evs2), r. split_and!; [done|done|].
        rewrite Hu' in Hrun. by eapply runs_step.
    + destruct Ht as [<- Hc]. exists [], (inr (e, p')). split_and!; [done|done|].
      by apply runs_reject.
Qed.

Lemma ParseWSFrame_spec p data :
  ws_inv p -> bytes_ok data ->
  exists evs r, ParseWSFrame p data = Some (evs, r) /\ ws_end_ok r /\
    runs (ws_abs p) (unread (buffer_ p) ++ data) evs (end_of r).
Proof.
  intros Hi Hd. pose proof Hi as ((Hb & Hby & Hrest) & Hreq & Hst). unfold ParseWSFrame.
  set (p1 := set_buffer p (Write (buffer_ p) data) (require_data_size_ p)).
  assert (Hi1 : ws_inv p1).
  { split; [|done]. split; [by apply write_ok|]. split; [|done]. by apply bytes_ok_app. }
  assert (Hu1 : unread (buffer_ p1) = unread (buffer_ p) ++ data) by by apply unread_write.
  destruct (ParseWSFrame_loop_spec (2 * length (b_data (buffer_ p1)) + 3) true p1)
    as (evs & r & -> & Hr & Hrun); [done| |by left|].
  { assert (length (unread (buffer_ p1)) <= length (b_data (buffer_ p1)))%nat
      by (unfold unread, zdrop; rewrite length_drop; lia).
    assert (idle_rank (ws_abs p1) <= 1)%nat by (cbn; case_match; lia). lia. }
  cbn [mbind option_bind]. change (ws_abs p1) with (ws_abs p) in Hrun. rewrite Hu1 in Hrun.
  destruct r as [p2|[e p2]]; [|eexists _, _; split_and!; done].
  cbn [ws_end_ok end_of] in Hr, Hrun. destruct Hr as [((Hb2 & Hby2 & Hrest2) & Hreq2 & Hst2) Hw2].
  cbv beta iota zeta. set (b := if RemainingLength (buffer_ p2) =? 0 then _ else _).
  assert (Hbb : buf_ok b /\ bytes_ok (b_data b) /\ unread b = unread (buffer_ p2)).
  { unfold b. destruct (Z.eqb_spec (RemainingLength (buffer_ p2)) 0) as [E|E].
    - split_and!; [done|constructor|]. rewrite <- zlen_unread in E by done.
      by apply zlen_0_nil in E as ->.
    - split_and!; [by apply remove_consumed_ok| |by apply remove_consumed_unread].
      unfold RemoveConsumed. destruct (0 <? b_cur (buffer_ p2)); [by apply bytes_ok_zdrop|exact Hby2]. }
  clearbody b. destruct Hbb as (? & ? & Hub). eexists _, _. split_and!; [done| |].
  - cbn [ws_end_ok]. split; [|cbn [buffer_ set_buffer]; by rewrite Hub]. split; [|done].
    by apply ws_base_buffer.
  - cbn [end_of buffer_ set_buffer]. by rewrite Hub.
Qed.

(** Feeding chunks until one is rejected. *)
Fixpoint ParseWS_all (p : WSParser) (chunks : list bytes)
    : option (list ws_event * (WSParser + ws_error * WSParser)) :=
  match chunks with
  | [] => Some ([], inl p)
  | data :: rest =>
      '(evs, r) ← ParseWSFrame p data;
      match r with
      | inr err => Some (evs, inr err)
      | inl p =>
          '(evs', r) ← ParseWS_all p rest;
          Some (evs ++ evs', r)
      end
  end.

Lemma ParseWS_all_spec p chunks :
  ws_waiting p -> Forall bytes_ok chunks ->
  exists evs r, ParseWS_all p chunks = Some (evs, r) /\ ws_end_ok r /\
    runs (ws_abs p) (unread (buffer_ p) ++ concat chunks) evs (end_of r).
Proof.
  intros Hw Hc. revert p Hw. induction Hc as [|data rest Hd Hrest IH]; intros p [Hi Hw].
  - exists [], (inl p). split_and!; [done|done|]. cbn [concat]. rewrite app_nil_r. by constructor.
  - destruct (ParseWSFrame_spec p data Hi Hd) as (evs & r & HP & Hr & Hrun).
    cbn [ParseWS_all concat]. rewrite HP, app_assoc. cbn [mbind option_bind].
    destruct r as [p1|[e p1]].
    + destruct (IH p1 Hr) as (evs2 & r2 & -> & Hr2 & Hrun2). eexists _, _. split_and!; [done|done|].
      by eapply runs_app.
    + eexists _, _. split_and!; [done|done|]. by apply runs_reject_app.
Qed.

(** ** Frames on the wire (reference) *)

Record frame := {
  f_fin : bool;
  f_op : Z;
  f_key : option bytes;      (* the masking key *)
  f_payload : bytes
}.

Definition frame_ok (f : frame) : Prop :=
  f_op f ∈ [WS_OP_CONTINUE; WS_OP_TEXT; WS_OP_BINARY; WS_OP_CLOSE; WS_OP_PING; WS_OP_PONG] /\
  bytes_ok (f_payload f) /\
  match f_key f with Some k => bytes_ok k /\ zlen k = 4 | None => True end.

#[global] Instance frame_ok_dec f : Decision (frame_ok f).
Proof. unfold frame_ok. destruct (f_key f); apply _. Defined.

Definition length_field (n : Z) : Z := if n <? 126 then n else if n <? 65536 then 126 else 127.

Definition length_bytes (n : Z) : bytes :=
  if n <? 126 then [] else if n <? 65536 then be_bytes 2 n else be_bytes 8 n.

Definition head0 (f : frame) : Z := (if f_fin f then 128 else 0) + f_op f.
Definition head1 (f : frame) : Z :=
  (match f_key f with Some _ => 128 | None => 0 end) + length_field (zlen (f_payload f)).

(** The wire form, with the shortest length encoding. *)
Definition encode_frame (f : frame) : bytes :=
  [head0 f; head1 f] ++ length_bytes (zlen (f_payload f)) ++
  match f_key f with
  | Some k => k ++ xor_mask k 0 (f_payload f)
  | None => f_payload f
  end.

(** A message being put together: its opcode and the payload so far. *)
Abbreviation partial := (option (Z * bytes)).

Definition partial_bytes (st : partial) : bytes := match st with Some (_, acc) => acc | None => [] end.

(** Whether RFC 6455 and the limit allow the frame when [st] is open. *)
Definition frame_allowed (max : Z) (st : partial) (f : frame) : Prop :=
  let n := zlen (f_payload f) in
  n <= max /\
  if control_opcode (f_op f)
  then f_fin f = true /\ n <= WS_MAX_CONTROL_PAYLOAD /\ (f_op f = WS_OP_CLOSE -> n <> 1)
  else (f_op f = WS_OP_CONTINUE <-> is_Some st) /\ zlen (partial_bytes st) + n <= max.

(** The messages a frame completes, and what it leaves open. *)
Definition receive_frame (st : partial) (f : frame) : partial * list (Z * bytes) :=
  if 8 <=? f_op f then (st, [(f_op f, f_payload f)])
  else
    let op := match st with Some (op, _) => op | None => f_op f end in
    let acc := partial_bytes st ++ f_payload f in
    if f_fin f then (None, [(op, acc)]) else (Some (op, acc), []).

Fixpoint frames_allowed (max : Z) (st : partial) (fs : list frame) : Prop :=
  match fs with
  | [] => True
  | f :: fs => frame_ok f /\ frame_allowed max st f /\ frames_allowed max (receive_frame st f).1 fs
  end.

Fixpoint messages (st : partial) (fs : list frame) : partial * list (Z * bytes) :=
  match fs with
  | [] => (st, [])
  | f :: fs =>
      let '(st', ms) := receive_frame st f in
      let '(st'', ms') := messages st' fs in (st'', ms ++ ms')
  end.

(** The event that tells the client of a message, whole; a payload that is empty is null. *)
Definition tells (m : Z * bytes) (e : ws_event) : Prop :=
  match e with
  | OnRecvWSFrame h payload n =>
      opcode h = m.1 /\ payload = (if zlen m.2 =? 0 then None else Some m.2) /\ n = zlen m.2 /\
      payload_size h = zlen m.2 /\ is_final h = true
  end.

(** What an event tells the client. *)
Definition event_message (e : ws_event) : Z * bytes :=
  match e with OnRecvWSFrame h payload _ => (opcode h, default [] payload) end.

(** The specification state in which [st] is open. *)
Definition spec_partial (s : ws_spec) (st : partial) : Prop :=
  sp_state s = PARSE_FIRST_2_BYTES /\
  sp_frags s = match st with
               | Some (op, acc) => {| fr_buffer := acc; fr_opcode := op; fr_open := true |}
               | None => no_fragments
               end.

Lemma tells_message m e : tells m e -> event_message e = m.
Proof.
  destruct e as [h payload n], m as [op bs]. intros (Ho & -> & _). cbn in *. rewrite Ho. f_equal.
  destruct (Z.eqb_spec (zlen bs) 0) as [E|]; [|done]. by rewrite (zlen_0_nil _ E).
Qed.

Lemma tells_messages ms evs : Forall2 tells ms evs -> map event_message evs = ms.
Proof. induction 1 as [|m e ms evs H _ IH]; cbn; [done|]. by rewrite IH, (tells_message m e). Qed.

(** The opcode of an open message is that of a data frame. *)
Definition partial_ok (st : partial) : Prop :=
  match st with Some (op, _) => control_opcode op = false | None => True end.

Lemma xor_mask_self k i bs : xor_mask k i (xor_mask k i bs) = bs.
Proof.
  unfold xor_mask. apply list_eq. intros j. rewrite !list_lookup_imap.
  destruct (bs !! j) as [b|]; cbn; [|done]. f_equal.
  by rewrite Z.lxor_assoc, Z.lxor_nilpotent, Z.lxor_0_r.
Qed.

Lemma length_field_range n : 0 <= n -> 0 <= length_field n <= 127.
Proof. intros. unfold length_field. zcases. Qed.

Lemma head1_fields (f : frame) :
  negb (Z.shiftr (Z.land (head1 f) 0xFF) 7 =? 0) = bool_decide (is_Some (f_key f)) /\
  Z.land (head1 f) 0x7F = length_field (zlen (f_payload f)).
Proof.
  pose proof (length_field_range (zlen (f_payload f)) (zlen_nonneg _)) as Hl.
  unfold head1. set (n := length_field _) in *. rewrite land_255, (land_mask 7) by done.
  rewrite Z.shiftr_div_pow2 by done. change (2 ^ 7) with 128.
  destruct (f_key f) as [k|]; cbn [bool_decide].
  - rewrite bool_decide_true by by eexists. split; [|lia]. apply negb_true_iff, Z.eqb_neq. lia.
  - rewrite bool_decide_false by by intros [? ?]. split; [|lia]. apply negb_false_iff, Z.eqb_eq. lia.
Qed.

Lemma frame_control f : frame_ok f -> control_opcode (f_op f) = (8 <=? f_op f).
Proof.
  intros (Hop & _). repeat (apply elem_of_cons in Hop as [-> | Hop]; [done|]). by apply not_elem_of_nil in Hop.
Qed.

(** The header the parser holds after the first two bytes of an allowed frame. *)
Definition parsed_head (f : frame) (st : partial) (h : WSFrameHeader) (n : Z) : WSFrameHeader :=
  {| is_final := f_fin f;
     opcode := if f_op f =? WS_OP_CONTINUE
               then match st with Some (op, _) => op | None => 0 end else f_op f;
     has_mask := bool_decide (is_Some (f_key f)); mask := mask h; payload_size := n |}.

Lemma length_field_small n m : 0 <= n -> m < 126 -> n <= m -> length_field n = n.
Proof. intros. unfold length_field. zcases. Qed.

Lemma decode_head max st f s :
  frame_ok f -> frame_allowed max st f -> spec_partial s st ->
  decode_first2 (fr_open (sp_frags s)) (fr_opcode (sp_frags s)) (sp_header s) (head0 f) (head1 f)
  = (parsed_head f st (sp_header s) (length_field (zlen (f_payload f))), None).
Proof.
  intros (Hop & _ & _) [_ Hal] [_ Hfr]. destruct (head1_fields f) as [Hm Hl].
  pose proof (zlen_nonneg (f_payload f)) as Hn.
  unfold decode_first2. rewrite Hm, Hl. clear Hm Hl. rewrite Hfr. clear Hfr.
  unfold head0, parsed_head. set (n := zlen (f_payload f)) in *. clearbody n.
  repeat (apply elem_of_cons in Hop as [Hop | Hop]); [..|by apply not_elem_of_nil in Hop];
    rewrite Hop in *; cbn in Hal |- *.
  1-3: destruct Hal as [Ho _]; destruct st as [[op acc]|];
    [try (exfalso; by discriminate (proj2 Ho ltac:(by eexists)))
    |try (exfalso; by destruct (proj1 Ho eq_refl))]; by destruct (f_fin f).
  all: destruct Hal as (-> & Hle & Hcl); unfold WS_MAX_CONTROL_PAYLOAD in *;
    rewrite (length_field_small n 125) by lia; cbn;
    rewrite (proj2 (Z.ltb_ge 125 n)) by lia; try done.
  cbn. specialize (Hcl eq_refl). by rewrite (proj2 (Z.eqb_neq n 1)).
Qed.

(** The specification's reassembly state for [st]. *)
Definition partial_frags (st : partial) : fragments :=
  match st with
  | Some (op, acc) => {| fr_buffer := acc; fr_opcode := op; fr_open := true |}
  | None => no_fragments
  end.

Lemma partial_frags_buffer st : fr_buffer (partial_frags st) = partial_bytes st.
Proof. by destruct st as [[op acc]|]. Qed.

Lemma parsed_head_control f st h n :
  frame_ok f -> partial_ok st -> (control_opcode (f_op f) = false -> f_op f = WS_OP_CONTINUE <-> is_Some st) ->
  control_opcode (opcode (parsed_head f st h n)) = control_opcode (f_op f).
Proof.
  intros (Hop & _) Hpk Hst. cbn. destruct (Z.eqb_spec (f_op f) WS_OP_CONTINUE) as [E|E]; [|done].
  rewrite E in *. destruct st as [[op acc]|]; [exact Hpk|]. done.
Qed.

(** An allowed payload passes the checks of the payload stage. *)
Lemma enter_allowed max st f h s :
  frame_ok f -> partial_ok st -> frame_allowed max st f ->
  sp_frags s = partial_frags st -> sp_max s = max ->
  let h' := parsed_head f st h (zlen (f_payload f)) in
  sp_enter s h' = inl (sp_goto s (if has_mask h' then PARSE_MASK else PARSE_PAYLOAD) h', []).
Proof.
  intros Hok Hpk [Hle Hal] Hf Hm h'. unfold sp_enter, payload_check.
  rewrite Hm, Hf, partial_frags_buffer.
  assert (Hn : payload_size h' = zlen (f_payload f)) by done.
  rewrite Hn, (proj2 (Z.ltb_ge _ _)) by lia.
  unfold h' at 1. rewrite parsed_head_control; [|done|done|].
  - destruct (control_opcode (f_op f)); cbn [negb andb]; [done|].
    destruct Hal as [_ Hacc]. by rewrite (proj2 (Z.ltb_ge _ _)) by lia.
  - intros Hc. rewrite Hc in Hal. apply Hal.
Qed.

(** From the first byte of an allowed frame to the end of its header. *)
Lemma runs_head max st f s rest evs r :
  frame_ok f -> partial_ok st -> frame_allowed max st f -> spec_partial s st ->
  sp_max s = max -> max <= UINT32_MAX ->
  let h' := parsed_head f st (sp_header s) (zlen (f_payload f)) in
  runs (sp_goto s (if has_mask h' then PARSE_MASK else PARSE_PAYLOAD) h') rest evs r ->
  runs s ([head0 f; head1 f] ++ length_bytes (zlen (f_payload f)) ++ rest) evs r.
Proof.
  intros Hok Hpk Hal Hs Hm Hu32 h' Hr. pose proof (zlen_nonneg (f_payload f)) as Hn0.
  set (n := zlen (f_payload f)) in *. pose proof Hs as [Hst Hf].
  assert (Hneed : need s = 2) by (cbn; unfold sp_need; by rewrite Hst).
  pose proof (decode_head max st f s Hok Hal Hs) as Hd. fold n in Hd.
  assert (Hle : n <= max) by apply Hal. unfold UINT32_MAX in *.
  assert (Hfirst : step s [head0 f; head1 f]
    = if (length_field n =? 126) || (length_field n =? 127)
      then inl (sp_goto s PARSE_PAYLOAD_SIZE (parsed_head f st (sp_header s) (length_field n)), [])
      else sp_enter s (parsed_head f st (sp_header s) (length_field n))).
  { cbn [step ws_stream]. unfold sp_step. rewrite Hst.
    change (zat [head0 f; head1 f] 0) with (head0 f). change (zat [head0 f; head1 f] 1) with (head1 f).
    unfold sp_first2. by rewrite Hd. }
  unfold length_field, length_bytes in *. destruct (Z.ltb_spec n 126) as [H126|H126].
  - rewrite (proj2 (Z.eqb_neq n 126)), (proj2 (Z.eqb_neq n 127)) in Hfirst by lia. cbn [orb] in Hfirst.
    pose proof (enter_allowed max st f (sp_header s) s Hok Hpk Hal Hf Hm) as He.
    cbv zeta in He. fold n in He. rewrite He in Hfirst. cbn [app].
    change (head0 f :: head1 f :: rest) with ([head0 f; head1 f] ++ rest).
    eapply (runs_consume s _ _ [] rest); [by rewrite Hneed|exact Hfirst|exact Hr].
  - set (lf := if n <? 65536 then 126 else 127) in *.
    assert (E : (lf =? 126) || (lf =? 127) = true) by (unfold lf; by destruct (n <? 65536)).
    rewrite E in Hfirst.
    set (s1 := sp_goto s PARSE_PAYLOAD_SIZE (parsed_head f st (sp_header s) lf)) in *.
    eapply (runs_consume s _ s1 [] _); [by rewrite Hneed|exact Hfirst|].
    assert (Hbytes : exists k, (if n <? 65536 then be_bytes 2 n else be_bytes 8 n) = be_bytes k n /\
      Z.of_nat k = need s1 /\ n < 2 ^ (8 * Z.of_nat k)).
    { unfold s1, lf. destruct (Z.ltb_spec n 65536); [exists 2%nat|exists 8%nat];
        (split; [done|split; [done|cbn; lia]]). }
    destruct Hbytes as (k & -> & Hk & Hkn).
    eapply (runs_consume s1 _ _ [] rest); [by rewrite zlen_be_bytes| |exact Hr].
    cbn [step ws_stream]. unfold sp_step. cbn [sp_state s1 sp_goto].
    rewrite be_val_be_bytes, Z.mod_small by lia.
    exact (enter_allowed max st f (sp_header s) s1 Hok Hpk Hal Hf Hm).
Qed.

(** Delivering the payload of an allowed frame is receiving the frame. *)
Lemma deliver_receive f st h :
  frame_ok f -> partial_ok st -> (control_opcode (f_op f) = true -> f_fin f = true) ->
  (control_opcode (f_op f) = false -> f_op f = WS_OP_CONTINUE <-> is_Some st) ->
  let n := zlen (f_payload f) in
  let payload := if n =? 0 then None else Some (f_payload f) in
  let '(fr, evs) := deliver_frame (parsed_head f st h n) (partial_frags st) payload n in
  fr = partial_frags (receive_frame st f).1 /\
  Forall2 tells (receive_frame st f).2 evs /\ partial_ok (receive_frame st f).1.
Proof.
  intros Hok Hpk Hfin Hcont n payload.
  assert (Hpl : default [] payload = f_payload f).
  { unfold payload. destruct (Z.eqb_spec n 0) as [E|]; [|done]. by rewrite (zlen_0_nil _ E). }
  assert (Hacc : match payload with
                 | Some bs => if 0 <? n then fr_buffer (partial_frags st) ++ bs
                              else fr_buffer (partial_frags st)
                 | None => fr_buffer (partial_frags st)
                 end = partial_bytes st ++ f_payload f).
  { rewrite partial_frags_buffer. rewrite <- Hpl. unfold payload. pose proof (zlen_nonneg (f_payload f)).
    destruct (Z.eqb_spec n 0) as [E|]; cbn; [by rewrite app_nil_r|]. zcase; [done|]. unfold n in *. lia. }
  unfold deliver_frame. rewrite (parsed_head_control f st h n Hok Hpk Hcont), Hacc.
  unfold receive_frame. rewrite <- (frame_control f Hok). clear Hacc Hpl.
  destruct (control_opcode (f_op f)) eqn:Ec.
  - cbn [fst snd partial_frags]. split; [done|]. split; [|done]. constructor; [|constructor]. cbn. split_and!; [|done..|by apply Hfin].
    destruct (Z.eqb_spec (f_op f) WS_OP_CONTINUE) as [E|]; [|done]. by rewrite E in Ec.
  - specialize (Hcont eq_refl). cbn [is_final parsed_head].
    assert (Hop : opcode (parsed_head f st h n) = match st with Some (op, _) => op | None => f_op f end).
    { cbn. destruct (Z.eqb_spec (f_op f) WS_OP_CONTINUE) as [E|E]; destruct st as [[op acc]|]; try done.
      exfalso. apply E, Hcont. by eexists. }
    destruct (f_fin f) eqn:Ef; cbn [andb negb].
    + destruct st as [[op acc]|]; cbn [partial_frags fr_open no_fragments negb fst snd].
      * split; [done|]. split; [|done]. constructor; [|constructor]. by split_and!.
      * split; [done|]. split; [|done]. constructor; [|constructor]. by split_and!.
    + cbn [fst snd partial_frags partial_ok]. rewrite Hop. split_and!; [done|constructor|].
      destruct st as [[op acc]|]; done.
Qed.

(** The rest of an allowed frame: masking key and payload. *)
Lemma runs_body max st f h s rest :
  frame_ok f -> partial_ok st -> frame_allowed max st f ->
  sp_frags s = partial_frags st -> sp_max s = max ->
  let h' := parsed_head f st h (zlen (f_payload f)) in
  exists s' evs, spec_partial s' (receive_frame st f).1 /\ sp_max s' = max /\
    partial_ok (receive_frame st f).1 /\ Forall2 tells (receive_frame st f).2 evs /\
    forall evs' r, runs s' rest evs' r ->
      runs (sp_goto s (if has_mask h' then PARSE_MASK else PARSE_PAYLOAD) h')
        ((match f_key f with Some k => k ++ xor_mask k 0 (f_payload f) | None => f_payload f end)
         ++ rest) (evs ++ evs') r.
Proof.
  intros Hok Hpk [Hle Hal] Hf Hm h'.
  assert (Hfin : control_opcode (f_op f) = true -> f_fin f = true)
    by (intros Hc; rewrite Hc in Hal; apply Hal).
  assert (Hcont : control_opcode (f_op f) = false -> f_op f = WS_OP_CONTINUE <-> is_Some st)
    by (intros Hc; rewrite Hc in Hal; apply Hal).
  pose proof Hok as (_ & _ & Hkey). set (n := zlen (f_payload f)) in *.
  assert (Hn0 : 0 <= n) by apply zlen_nonneg.
  set (hk := match f_key f with Some k => with_mask h k | None => h end).
  pose proof (deliver_receive f st hk Hok Hpk Hfin Hcont) as Hdel. fold n in Hdel. cbv zeta in Hdel.
  destruct (deliver_frame _ _ _ _) as [fr evs] eqn:Ed. destruct Hdel as (-> & Hev & Hpk').
  set (s1 := sp_goto s PARSE_PAYLOAD (parsed_head f st hk n)).
  set (s2 := {| sp_state := PARSE_FIRST_2_BYTES; sp_header := parsed_head f st hk n;
                sp_frags := partial_frags (receive_frame st f).1; sp_max := sp_max s |}).
  exists s2, evs. split_and!; try done.
  intros evs' r Hr.
  assert (Hpay : forall body, zlen body = n ->
    (if bool_decide (is_Some (f_key f)) then xor_mask (mask hk) 0 body else body) = f_payload f ->
    runs s1 (body ++ rest) (evs ++ evs') r).
  { intros body Hb Hx. eapply (runs_consume s1 body s2); [cbn; lia| |exact Hr].
    cbn [step ws_stream]. unfold sp_step. cbn [sp_state s1 sp_goto]. f_equal.
    unfold sp_payload. cbn [sp_header s1 sp_goto sp_frags sp_max has_mask mask payload_size parsed_head].
    rewrite Hf. destruct (Z.eqb_spec n 0) as [E|E].
    - rewrite E in Ed. unfold s2. rewrite E. by rewrite Ed.
    - rewrite Hx. by rewrite Ed. }
  unfold h'. cbn [has_mask parsed_head]. destruct (f_key f) as [k|] eqn:Ek.
  - rewrite bool_decide_true in * by by eexists. destruct Hkey as [_ Hk4]. rewrite <- app_assoc.
    eapply (runs_consume _ k s1 []); [done| |].
    + cbn [step ws_stream]. unfold sp_step. cbn [sp_state sp_goto]. do 2 f_equal.
    + apply Hpay; [by rewrite xor_mask_length|]. apply xor_mask_self.
  - rewrite bool_decide_false in * by by intros [? ?]. by apply Hpay.
Qed.

(** Allowed frames are received in order. *)
Lemma runs_frames max st fs s :
  frames_allowed max st fs -> partial_ok st -> spec_partial s st -> sp_max s = max ->
  max <= UINT32_MAX ->
  exists s' evs, spec_partial s' (messages st fs).1 /\
    map event_message evs = (messages st fs).2 /\
    runs s (concat (map encode_frame fs)) evs (inl (s', [])).
Proof.
  intros Hal Hpk Hs Hm Hu. revert st s Hal Hpk Hs Hm. induction fs as [|f fs IH]; intros st s.
  - intros _ _ Hs _. exists s, []. split_and!; [done|done|]. apply runs_wait. cbn. unfold sp_need.
    destruct Hs as [-> _]. done.
  - intros (Hok & Hf & Hfs) Hpk Hs Hm.
    destruct (runs_body max st f (sp_header s) s (concat (map encode_frame fs)))
      as (s1 & evs1 & Hs1 & Hm1 & Hpk1 & Hev1 & Hrun1); [done..|apply Hs|done|].
    destruct (IH _ s1 Hfs Hpk1 Hs1 Hm1) as (s2 & evs2 & Hs2 & Hev2 & Hrun2).
    cbn [messages map concat]. destruct (receive_frame st f) as [st1 ms1]. cbn [fst snd] in *.
    destruct (messages st1 fs) as [st2 ms2]. cbn [fst snd] in *.
    exists s2, (evs1 ++ evs2). rewrite map_app, (tells_messages _ _ Hev1), Hev2. split_and!; [done|done|].
    unfold encode_frame. rewrite <- !app_assoc.
    eapply (runs_head max st); try done. by apply Hrun1.
Qed.

(** ** A stream of frames, read as RFC 6455 says (reference)

    A reader of the whole stream that shares nothing with the parser above: it splits numbers
    instead of testing bits, sees frames instead of states, and unmasks by turning the key. *)

(** What the first two bytes are refused for, when a message is open or not. *)
Definition head_refused (message_open : bool) (d0 d1 : Z) : option ws_error :=
  let op := d0 mod 16 in
  let n := d1 mod 128 in
  if negb ((d0 / 16) mod 8 =? 0) then Some RsvBitsSet
  else if negb (existsb (Z.eqb op) [0; 1; 2; 8; 9; 10]) then Some ReservedOpcode
  else if op <? 8 then
    if op =? 0 then (if message_open then None else Some ContinuationWithoutMessage)
    else if message_open then Some DataWhileFragmented else None
  else if d0 <? 128 then Some FragmentedControl
  else if 125 <? n then Some ControlTooLong
  else if (op =? 8) && (n =? 1) then Some CloseBodyOneByte
  else None.

(** What an announced length is refused for. *)
Definition length_refused (max : Z) (st : partial) (op n : Z) : option ws_error :=
  if max <? n then Some LengthExceedsMax
  else if (op <? 8) && (max <? zlen (partial_bytes st) + n) then Some MessageExceedsMax
  else None.

Fixpoint unmask (key bs : bytes) : bytes :=
  match key, bs with
  | k :: key, b :: bs => Z.lxor b k :: unmask (key ++ [k]) bs
  | _, _ => []
  end.

Inductive reading :=
| Short                                  (* the frame is not all there *)
| Refused (e : ws_error)
| Read_frame (f : frame) (rest : bytes).

(** A frame whose head is read, with [n] announced. *)
Definition read_body (max : Z) (st : partial) (d0 d1 n : Z) (bs : bytes) : reading :=
  match length_refused max st (d0 mod 16) n with
  | Some e => Refused e
  | None =>
      let key_size := if d1 <? 128 then 0 else 4 in
      if zlen bs <? key_size + n then Short
      else
        let key := ztake key_size bs in
        let body := ztake n (zdrop key_size bs) in
        Read_frame {| f_fin := 128 <=? d0; f_op := d0 mod 16;
                      f_key := if d1 <? 128 then None else Some key;
                      f_payload := if d1 <? 128 then body else unmask key body |}
                   (zdrop n (zdrop key_size bs))
  end.

(** The next frame when [st] is open. *)
Definition read_frame (max : Z) (st : partial) (bs : bytes) : reading :=
  match bs with
  | d0 :: d1 :: bs =>
      match head_refused (match st with Some _ => true | None => false end) d0 d1 with
      | Some e => Refused e
      | None =>
          let n := d1 mod 128 in
          let ext := if n =? 126 then 2 else if n =? 127 then 8 else 0 in
          if ext =? 0 then read_body max st d0 d1 n bs
          else if zlen bs <? ext then Short
          else read_body max st d0 d1 (be_val (ztake ext bs)) (zdrop ext bs)
      end
  | _ => Short
  end.

(** How a stream ends: in a frame that is not all there, with what is open and the bytes of
    that frame, or with an error. *)
Inductive stream_end := Waits (st : partial) (held : bytes) | Rejects (e : ws_error).

(** The messages of a stream; a frame takes at least two bytes. *)
Fixpoint read_stream (fuel : nat) (max : Z) (st : partial) (bs : bytes) : option (list (Z * bytes) * stream_end) :=
  match fuel with
  | O => None
  | S fuel =>
      match read_frame max st bs with
      | Short => Some ([], Waits st bs)
      | Refused e => Some ([], Rejects e)
      | Read_frame f rest =>
          let '(st', ms) := receive_frame st f in
          '(ms', e) ← read_stream fuel max st' rest;
          Some (ms ++ ms', e)
      end
  end.

Definition read_messages (max : Z) (bs : bytes) : option (list (Z * bytes) * stream_end) :=
  read_stream (S (length bs)) max None bs.

(** The message a parser is putting together. *)
Definition open_message (p : WSParser) : partial :=
  if in_fragment_ p then Some (frag_opcode_ p, frag_buffer_ p) else None.

(** *** The parser's own checks say the same *)

Lemma decode_first2_error inf op h d0 d1 :
  (decode_first2 inf op h d0 d1).2 = (decode_first2 inf 0 new_WSFrameHeader d0 d1).2.
Proof.
  unfold decode_first2. cbn [is_final payload_size with_final with_opcode with_length].
  repeat (match goal with |- context [if ?c then _ else _] => destruct c end; try done).
Qed.

Definition error_code (e : option ws_error) : Z :=
  match e with
  | None => 0 | Some RsvBitsSet => 1 | Some ReservedOpcode => 2 | Some ContinuationWithoutMessage => 3
  | Some DataWhileFragmented => 4 | Some FragmentedControl => 5 | Some ControlTooLong => 6
  | Some CloseBodyOneByte => 7 | Some LengthExceedsMax => 8 | Some MessageExceedsMax => 9 | Some InvalidFrame => 10
  end.

Lemma error_code_inj e e' : error_code e = error_code e' -> e = e'.
Proof. destruct e as [[]|], e' as [[]|]; done. Qed.

(** The header after an accepted head, with [n] announced. *)
Definition head_header (fop : Z) (key : bytes) (d0 d1 n : Z) : WSFrameHeader :=
  {| is_final := 128 <=? d0; opcode := if d0 mod 16 =? 0 then fop else d0 mod 16;
     has_mask := 128 <=? d1; mask := key; payload_size := n |}.

(** A check over all pairs of bytes is one over all of the second for each of the first. *)
Lemma decode_errors inf :
  forall d0 d1, is_byte d0 -> is_byte d1 ->
  (decode_first2 inf 0 new_WSFrameHeader d0 d1).2 = head_refused inf d0 d1.
Proof.
  intros d0 d1 H0 H1. apply error_code_inj, Z.eqb_eq.
  apply (byte2_forall (fun a b => error_code (decode_first2 inf 0 new_WSFrameHeader a b).2 =? error_code (head_refused inf a b))
           (fun _ _ => true)); [|done..].
  destruct inf; vm_compute; reflexivity.
Qed.

Lemma head_bits d0 d1 : is_byte d0 -> is_byte d1 ->
  negb (Z.land d0 0x80 =? 0) = (128 <=? d0) /\ Z.land d0 0x0F = d0 mod 16 /\
  negb (Z.shiftr (Z.land d1 0xFF) 7 =? 0) = (128 <=? d1) /\ Z.land d1 0x7F = d1 mod 128.
Proof.
  intros H0 H1. split_and!; [|by apply (land_mask 4)| |by apply (land_mask 7)].
  - apply (byte_forall (fun d => negb (Z.land d 0x80 =? 0)) (fun d => 128 <=? d)); [vm_compute; reflexivity|done].
  - apply (byte_forall (fun d => negb (Z.shiftr (Z.land d 0xFF) 7 =? 0)) (fun d => 128 <=? d)); [vm_compute; reflexivity|done].
Qed.

Lemma decode_read inf fop h d0 d1 :
  is_byte d0 -> is_byte d1 ->
  match head_refused inf d0 d1 with
  | Some e => (decode_first2 inf fop h d0 d1).2 = Some e
  | None => decode_first2 inf fop h d0 d1 = (head_header fop (mask h) d0 d1 (d1 mod 128), None)
  end.
Proof.
  intros H0 H1. pose proof (decode_errors inf d0 d1 H0 H1) as He. rewrite <- (decode_first2_error inf fop h) in He.
  rewrite <- He. destruct (decode_first2 inf fop h d0 d1) as [h' [e|]] eqn:Ed; [done|]. f_equal.
  destruct (head_bits d0 d1 H0 H1) as (B1 & B2 & B3 & B4). clear He. revert Ed. unfold decode_first2.
  repeat match goal with |- context [if ?c then (_, Some _) else _] => destruct c; [done|] end.
  intros [= <-]. unfold head_header, with_final, with_opcode, with_length. cbn [is_final opcode has_mask mask payload_size].
  by rewrite B1, B2, B3, B4.
Qed.

Lemma xor_mask_app m i a b : xor_mask m i (a ++ b) = xor_mask m i a ++ xor_mask m (i + zlen a) b.
Proof.
  unfold xor_mask. rewrite imap_app. f_equal. apply imap_ext. intros j x _. cbn.
  do 3 f_equal. unfold zlen. lia.
Qed.

Lemma xor_mask_cons m i b bs : xor_mask m i (b :: bs) = Z.lxor b (zat m (i mod zlen m)) :: xor_mask m (i + 1) bs.
Proof.
  change (b :: bs) with ([b] ++ bs). rewrite xor_mask_app. unfold xor_mask at 1. cbn. by rewrite Z.add_0_r.
Qed.

(** Turning the key is counting modulo its length. *)
Lemma unmask_xor a b c d bs : forall i, 0 <= i ->
  xor_mask [a; b; c; d] i bs =
  unmask (match i mod 4 with 0 => [a; b; c; d] | 1 => [b; c; d; a] | 2 => [c; d; a; b] | _ => [d; a; b; c] end) bs.
Proof.
  induction bs as [|x bs IH]; intros i Hi; [by repeat case_match|].
  rewrite xor_mask_cons, IH by lia. change (zlen [a; b; c; d]) with 4.
  assert (Hc : i mod 4 = 0 \/ i mod 4 = 1 \/ i mod 4 = 2 \/ i mod 4 = 3) by lia.
  assert (Hn : (i + 1) mod 4 = (i mod 4 + 1) mod 4) by lia. rewrite Hn.
  destruct Hc as [-> | [-> | [-> | ->]]]; reflexivity.
Qed.

Lemma unmask_spec key bs : zlen key = 4 -> unmask key bs = xor_mask key 0 bs.
Proof.
  intros H. destruct key as [|a [|b [|c [|d [|e key]]]]]; try (unfold zlen in H; cbn in H; lia). by rewrite unmask_xor.
Qed.

(** *** The parser reads what the reference reads *)

(** What is read next is what [run] does: the run of the parser's specification from a state
    at the start of a frame. *)
Definition follows (max : Z) (st : partial) (run : list ws_event -> (ws_spec * bytes) + ws_error -> Prop)
    (bs : bytes) (r : reading) : Prop :=
  match r with
  | Refused e => run [] (inr e)
  | Short => exists s held, run [] (inl (s, held)) /\ sp_frags s = partial_frags st /\ held `suffix_of` bs
  | Read_frame f rest =>
      rest `suffix_of` bs /\
      exists s evs, spec_partial s (receive_frame st f).1 /\ sp_max s = max /\ partial_ok (receive_frame st f).1 /\
        Forall2 tells (receive_frame st f).2 evs /\ forall evs' r', runs s rest evs' r' -> run (evs ++ evs') r'
  end.

Lemma follows_mono max st (R R' : list ws_event -> (ws_spec * bytes) + ws_error -> Prop) bs bs' r :
  (forall evs r', R evs r' -> R' evs r') -> bs `suffix_of` bs' -> follows max st R bs r -> follows max st R' bs' r.
Proof.
  intros HR Hs. destruct r as [|e|f rest]; cbn.
  - intros (s & held & H & Hf & Hh). exists s, held. split_and!; [by apply HR|done|by etrans].
  - apply HR.
  - intros (Hr & s & evs & H1 & H2 & H3 & H4 & H5). split; [by etrans|]. exists s, evs. split_and!; try done. eauto.
Qed.

Lemma zdrop_suffix {A} n (l : list A) : zdrop n l `suffix_of` l.
Proof. exists (ztake n l). by rewrite ztake_zdrop. Qed.

(** What the checks of a frame's head let through. *)
Lemma head_accepted_fields inf d0 d1 :
  head_refused inf d0 d1 = None ->
  d0 mod 16 ∈ [WS_OP_CONTINUE; WS_OP_TEXT; WS_OP_BINARY; WS_OP_CLOSE; WS_OP_PING; WS_OP_PONG] /\
  if 8 <=? d0 mod 16 then 128 <= d0 /\ d1 mod 128 <= 125 /\ (d0 mod 16 = 8 -> d1 mod 128 <> 1)
  else (d0 mod 16 = 0 <-> inf = true).
Proof.
  unfold head_refused. destruct (negb ((d0 / 16) mod 8 =? 0)); [done|].
  set (op := d0 mod 16). clearbody op. destruct (existsb (Z.eqb op) [0; 1; 2; 8; 9; 10]) eqn:Eo; cbn [negb]; [|done].
  apply existsb_exists in Eo as (x & Hx & ->%Z.eqb_eq). apply list_elem_of_In in Hx. intros H. split; [exact Hx|].
  rewrite Z.ltb_antisym in H. destruct (8 <=? x) eqn:E8; cbn [negb] in H.
  - zbool. destruct (Z.ltb_spec d0 128); [done|]. destruct (Z.ltb_spec 125 (d1 mod 128)); [done|].
    split_and!; [lia|lia|]. intros -> E1. by rewrite E1 in H.
  - destruct (Z.eqb_spec x 0); destruct inf; try done; split; intros; try done; by subst.
Qed.

Lemma lxor_byte a b : is_byte a -> is_byte b -> is_byte (Z.lxor a b).
Proof.
  intros Ha Hb. unfold in_word in *. assert (H0 : 0 <= Z.lxor a b) by (apply Z.lxor_nonneg; lia).
  split; [done|]. destruct (Z.eq_dec (Z.lxor a b) 0) as [->|Hn]; [done|].
  assert (Hl : forall x, 0 <= x < 2 ^ 8 -> Z.log2 x < 8).
  { intros x Hx. destruct (Z.eq_dec x 0) as [->|]; [done|]. apply Z.log2_lt_pow2; lia. }
  apply Z.log2_lt_pow2; [lia|]. pose proof (Z.log2_lxor a b ltac:(lia) ltac:(lia)).
  pose proof (Hl a Ha). pose proof (Hl b Hb). lia.
Qed.

Lemma unmask_bytes bs : forall key, bytes_ok key -> bytes_ok bs -> bytes_ok (unmask key bs).
Proof.
  induction bs as [|b bs IH]; intros [|k key] Hk Hb; cbn; [constructor..|].
  apply Forall_cons_1 in Hk as [H1 H2]. apply Forall_cons_1 in Hb as [H3 H4]. constructor; [by apply lxor_byte|].
  apply IH; [|done]. apply bytes_ok_app. split; [done|]. constructor; [done|constructor].
Qed.

(** The check of the announced length. *)
Lemma payload_length st s key d0 d1 n :
  head_refused (match st with Some _ => true | None => false end) d0 d1 = None ->
  partial_ok st -> sp_frags s = partial_frags st ->
  payload_check (sp_max s) (zlen (fr_buffer (sp_frags s))) (head_header (fr_opcode (partial_frags st)) key d0 d1 n)
  = length_refused (sp_max s) st (d0 mod 16) n.
Proof.
  intros Hh Hpk Hf. apply head_accepted_fields in Hh as [Hop Hrest]. unfold payload_check, length_refused.
  rewrite Hf, partial_frags_buffer. cbn [payload_size opcode head_header].
  assert (Hc : negb (control_opcode (if d0 mod 16 =? 0 then fr_opcode (partial_frags st) else d0 mod 16)) = (d0 mod 16 <? 8)).
  { set (op := d0 mod 16) in *. clearbody op.
    destruct (Z.eqb_spec op 0) as [E|E].
    - rewrite E in *. cbn in Hrest. destruct st as [[op' acc]|]; cbn in *; [by rewrite Hpk|]. discriminate (proj1 Hrest eq_refl).
    - clear Hrest. repeat (apply elem_of_cons in Hop as [-> | Hop]; [done|]). by apply not_elem_of_nil in Hop. }
  by rewrite Hc.
Qed.

(** A run from where the head and the length are read. *)
Definition entered (s : ws_spec) (h : WSFrameHeader) (bs : bytes) (evs : list ws_event) (r : (ws_spec * bytes) + ws_error) : Prop :=
  match sp_enter s h with inr e => evs = [] /\ r = inr e | inl (s', evs') => evs' = [] /\ runs s' bs evs r end.

(** The frame a body gives is one that is allowed. *)
Lemma read_frame_allowed max st d0 d1 n (key : option bytes) body :
  head_refused (match st with Some _ => true | None => false end) d0 d1 = None ->
  length_refused max st (d0 mod 16) n = None -> n = d1 mod 128 \/ 126 <= d1 mod 128 -> zlen body = n -> bytes_ok body ->
  match key with Some k => bytes_ok k /\ zlen k = 4 | None => True end ->
  let f := {| f_fin := 128 <=? d0; f_op := d0 mod 16; f_key := key; f_payload := body |} in
  frame_ok f /\ frame_allowed max st f.
Proof.
  intros Hh Hl Hn Hb Hbb Hk f. apply head_accepted_fields in Hh as [Hop Hrest]. assert (Hok : frame_ok f) by done.
  split; [done|]. unfold frame_allowed. rewrite (frame_control f Hok). cbn [f f_op f_fin f_payload]. rewrite Hb.
  unfold length_refused in Hl. destruct (Z.ltb_spec max n); [done|]. split; [done|]. rewrite Z.ltb_antisym in Hl.
  destruct (8 <=? d0 mod 16); cbn [negb andb] in Hl.
  - destruct Hrest as (H1 & H2 & H3). split_and!; [by apply Z.leb_le|unfold WS_MAX_CONTROL_PAYLOAD; lia|].
    intros E. specialize (H3 E). lia.
  - destruct (Z.ltb_spec max (zlen (partial_bytes st) + n)); [done|]. split; [|done]. unfold WS_OP_CONTINUE. rewrite Hrest.
    destruct st; [by split|]. split; [done|by intros [? ?]].
Qed.

Lemma read_body_follows max st s key d0 d1 n bs :
  head_refused (match st with Some _ => true | None => false end) d0 d1 = None ->
  is_byte d1 -> bytes_ok bs -> n = d1 mod 128 \/ 126 <= d1 mod 128 -> 0 <= n -> partial_ok st ->
  sp_frags s = partial_frags st -> sp_max s = max ->
  follows max st (entered s (head_header (fr_opcode (partial_frags st)) key d0 d1 n) bs) bs (read_body max st d0 d1 n bs).
Proof.
  intros Hh Hd1 Hb Hn H0 Hpk Hf Hm. pose proof (payload_length st s key d0 d1 n Hh Hpk Hf) as Hc. rewrite Hm in Hc.
  unfold read_body. set (h := head_header _ key d0 d1 n) in *.
  destruct (length_refused max st (d0 mod 16) n) as [e|] eqn:Hl; [cbn; unfold entered, sp_enter; by rewrite Hm, Hc|].
  set (m := 128 <=? d1). assert (Hlt : (d1 <? 128) = negb m) by (unfold m; by rewrite Z.ltb_antisym). rewrite Hlt.
  set (s1 := sp_goto s (if m then PARSE_MASK else PARSE_PAYLOAD) h).
  assert (Hent : forall evs r, runs s1 bs evs r -> entered s h bs evs r).
  { intros evs r Hr. unfold entered, sp_enter. rewrite Hm, Hc. by split. }
  set (ks := if negb m then 0 else 4). assert (Hks : 0 <= ks) by (unfold ks; destruct m; done). pose proof (zlen_nonneg bs).
  destruct (Z.ltb_spec (zlen bs) (ks + n)) as [Hs|Hs].
  - cbn [follows]. destruct m eqn:Em; cbn [negb] in ks.
    + destruct (Z.ltb_spec (zlen bs) 4) as [H4|H4].
      * exists s1, bs. split_and!; [apply Hent, runs_wait; done|done|done].
      * exists (sp_goto s1 PARSE_PAYLOAD (with_mask h (ztake 4 bs))), (zdrop 4 bs). split_and!; [|done|apply zdrop_suffix].
        apply Hent. eapply (runs_step s1 bs _ [] []); [done|reflexivity|]. apply runs_wait. cbn. rewrite zlen_zdrop by lia. unfold ks in Hs. lia.
    + exists s1, bs. split_and!; [|done|done]. apply Hent, runs_wait. cbn. unfold ks in Hs. lia.
  - set (body := ztake n (zdrop ks bs)).
    assert (Hlb : zlen body = n) by (apply zlen_ztake; rewrite zlen_zdrop by lia; lia).
    assert (Hbody : bytes_ok body) by by apply bytes_ok_ztake, bytes_ok_zdrop.
    set (k := ztake ks bs). set (f := {| f_fin := 128 <=? d0; f_op := d0 mod 16; f_key := if negb m then None else Some k;
                  f_payload := if negb m then body else unmask k body |}).
    assert (Hlk : m = true -> zlen k = 4) by (intros Em; unfold k, ks; rewrite Em; apply zlen_ztake; unfold ks in Hs; rewrite Em in Hs; cbn in *; lia).
    assert (Hpl : zlen (f_payload f) = n).
    { cbn. destruct m; cbn [negb]; [|done]. by rewrite unmask_spec, xor_mask_length by auto. }
    destruct (read_frame_allowed max st d0 d1 n (f_key f) (f_payload f) Hh Hl Hn Hpl) as [Hok Hal].
    { cbn. destruct m; cbn [negb]; [|done]. apply unmask_bytes; [by apply bytes_ok_ztake|done]. }
    { cbn. destruct m; cbn [negb]; [|done]. split; [by apply bytes_ok_ztake|auto]. }
    change (frame_ok f) in Hok. change (frame_allowed max st f) in Hal.
    destruct (runs_body max st f (with_mask h key) s (zdrop n (zdrop ks bs)) Hok Hpk Hal Hf Hm) as (s' & evs & A1 & A2 & A3 & A4 & A5).
    split; [etrans; apply zdrop_suffix|]. exists s', evs. split_and!; try done. intros evs' r' Hr. apply Hent.
    specialize (A5 evs' r' Hr). rewrite Hpl in A5.
    assert (Eh : parsed_head f st (with_mask h key) n = h).
    { unfold parsed_head, h, head_header. cbn [f f_fin f_op f_key with_mask mask]. f_equal.
      - unfold WS_OP_CONTINUE. by destruct (d0 mod 16 =? 0), st as [[]|].
      - fold m. by destruct m. }
    rewrite Eh in A5. change (has_mask h) with m in A5. fold s1 in A5.
    assert (Ebs : match f_key f with Some k => k ++ xor_mask k 0 (f_payload f) | None => f_payload f end ++ zdrop n (zdrop ks bs) = bs).
    { cbn [f f_key f_payload]. destruct m eqn:Em; cbn [negb].
      - rewrite unmask_spec, xor_mask_self by auto. rewrite <- app_assoc. unfold k, body. by rewrite !ztake_zdrop.
      - unfold body, ks. cbn [negb]. by rewrite ztake_zdrop, zdrop_0. }
    by rewrite Ebs in A5.
Qed.

Lemma read_frame_follows max st s bs :
  bytes_ok bs -> partial_ok st -> spec_partial s st -> sp_max s = max -> follows max st (runs s bs) bs (read_frame max st bs).
Proof.
  intros Hb Hpk [Hst Hf] Hm. change (sp_frags s = partial_frags st) in Hf.
  assert (Hneed : need s = 2) by (cbn; unfold sp_need; by rewrite Hst).
  assert (Hshort : zlen bs < 2 -> follows max st (runs s bs) bs Short).
  { intros H. exists s, bs. split_and!; [apply runs_wait; by rewrite Hneed|done|done]. }
  destruct bs as [|d0 [|d1 bs]]; [by apply Hshort..|]. cbn [read_frame]. clear Hshort.
  apply Forall_cons_1 in Hb as [H0 Hb]. apply Forall_cons_1 in Hb as [H1 Hb].
  set (o := match st with Some _ => true | None => false end). pose proof (decode_read o (fr_opcode (partial_frags st)) (sp_header s) d0 d1 H0 H1) as Hd.
  assert (Hop : fr_open (partial_frags st) = o) by by destruct st as [[]|].
  assert (Hstep : step s [d0; d1] = sp_first2 s d0 d1) by (cbn [step ws_stream]; unfold sp_step; by rewrite Hst).
  unfold sp_first2 in Hstep. rewrite Hf, Hop in Hstep.
  assert (Hge : 2 <= zlen (d0 :: d1 :: bs)) by (rewrite !zlen_cons; pose proof (zlen_nonneg bs); lia).
  destruct (head_refused o d0 d1) as [e|] eqn:Hh.
  { cbn [follows]. apply runs_reject; [by rewrite Hneed|]. rewrite Hneed. change (ztake 2 _) with [d0; d1]. rewrite Hstep.
    destruct (decode_first2 _ _ _ _ _) as [h er]. cbn in Hd. by subst er. }
  rewrite Hd in Hstep. cbn [payload_size head_header] in Hstep. set (n := d1 mod 128) in *.
  assert (Hn : 0 <= n < 128) by (unfold n; lia).
  assert (Hsuf : bs `suffix_of` d0 :: d1 :: bs) by by exists [d0; d1].
  assert (Hgo : forall s1 evs r, step s [d0; d1] = inl (s1, []) -> runs s1 bs evs r -> runs s (d0 :: d1 :: bs) evs r).
  { intros s1 evs r E Hr. eapply (runs_step s _ s1 [] evs); [by rewrite Hneed|rewrite Hneed; exact E|by rewrite Hneed]. }
  destruct ((n =? 126) || (n =? 127)) eqn:E.
  - set (s1 := sp_goto s PARSE_PAYLOAD_SIZE _) in Hstep. set (ext := if n =? 126 then 2 else if n =? 127 then 8 else 0).
    assert (He : need s1 = ext /\ 0 < ext) by (unfold ext; cbn; destruct (n =? 126), (n =? 127); done). destruct He as [He Hp].
    rewrite (proj2 (Z.eqb_neq ext 0)) by lia. destruct (Z.ltb_spec (zlen bs) ext) as [Hs|Hs].
    { exists s1, bs. split_and!; [|done|done]. apply (Hgo s1); [done|]. apply runs_wait. by rewrite He. }
    assert (Hbt : bytes_ok (ztake ext bs)) by by apply bytes_ok_ztake.
    eapply follows_mono; [| |apply (read_body_follows max st s1 (mask (sp_header s)) d0 d1 (be_val (ztake ext bs)) (zdrop ext bs))]; try done.
    + intros evs r Hr. apply (Hgo s1); [done|]. unfold entered in Hr.
      assert (Hs2 : step s1 (ztake (need s1) bs) = sp_enter s1 (head_header (fr_opcode (partial_frags st)) (mask (sp_header s)) d0 d1 (be_val (ztake ext bs)))) by by rewrite He.
      destruct (sp_enter s1 _) as [[s2 evs2]|e]; destruct Hr as [-> Hr].
      * eapply (runs_step s1 bs s2 [] evs); [by rewrite He|exact Hs2|by rewrite He].
      * subst r. by apply runs_reject; [rewrite He|].
    + etrans; [apply zdrop_suffix|done].
    + by apply bytes_ok_zdrop.
    + right. fold n. apply orb_true_iff in E as [->%Z.eqb_eq | ->%Z.eqb_eq]; done.
    + by apply be_val_bound.
  - apply orb_false_iff in E as [E1 E2]. rewrite E1, E2. cbn [Z.eqb].
    eapply follows_mono; [|exact Hsuf|apply (read_body_follows max st s (mask (sp_header s)) d0 d1 n bs)]; try done; [|by left|lia].
    intros evs r Hr. unfold entered in Hr. destruct (sp_enter s _) as [[s2 evs2]|e]; destruct Hr as [-> Hr].
    + by apply (Hgo s2).
    + subst r. apply runs_reject; [by rewrite Hneed|]. by rewrite Hneed.
Qed.

Lemma read_frame_shorter max st bs f rest : read_frame max st bs = Read_frame f rest -> (length rest < length bs)%nat.
Proof.
  assert (Hbody : forall d0 d1 n b, read_body max st d0 d1 n b = Read_frame f rest -> (length rest <= length b)%nat).
  { intros d0 d1 n b. unfold read_body. destruct (length_refused _ _ _ _); [done|]. destruct (_ <? _); [done|].
    intros [= _ <-]. unfold zdrop. rewrite !length_drop. lia. }
  destruct bs as [|d0 [|d1 bs]]; [done..|]. cbn [read_frame]. destruct (head_refused _ _ _); [done|].
  destruct (_ =? 0); [intros H%Hbody; cbn; lia|]. destruct (_ <? _); [done|]. intros H%Hbody. unfold zdrop in H. rewrite length_drop in H. cbn. lia.
Qed.

(** The whole stream. *)
Lemma read_stream_runs max fuel : forall st s bs,
  (length bs < fuel)%nat -> bytes_ok bs -> partial_ok st -> spec_partial s st -> sp_max s = max ->
  exists ms e evs r, read_stream fuel max st bs = Some (ms, e) /\ runs s bs evs r /\ Forall2 tells ms evs /\
    match e, r with
    | Waits st' held, inl (s', rest) => sp_frags s' = partial_frags st' /\ rest `suffix_of` held
    | Rejects err, inr err' => err = err'
    | _, _ => False
    end.
Proof.
  induction fuel as [|fuel IH]; intros st s bs Hl Hb Hpk Hs Hm; [lia|]. cbn [read_stream].
  pose proof (read_frame_follows max st s bs Hb Hpk Hs Hm) as Hf. pose proof (read_frame_shorter max st bs) as Hsh.
  destruct (read_frame max st bs) as [|e|f rest]; cbn [follows] in Hf.
  - destruct Hf as (s' & held & Hr & Hp & Hh). exists [], (Waits st bs), [], (inl (s', held)). split_and!; [done|done|constructor|done|done].
  - exists [], (Rejects e), [], (inr e). split_and!; [done|done|constructor|done].
  - destruct Hf as (Hsuf & s' & evs & A1 & A2 & A3 & A4 & A5). specialize (Hsh f rest eq_refl).
    assert (Hbr : bytes_ok rest) by (destruct Hsuf as [l ->]; by apply bytes_ok_app in Hb as [_ ?]).
    destruct (receive_frame st f) as [st' ms]. cbn [fst snd] in *.
    destruct (IH st' s' rest ltac:(lia) Hbr A3 A1 A2) as (ms' & e & evs' & r & -> & Hr & Ht & He).
    exists (ms ++ ms'), e, (evs ++ evs'), r. split_and!; [done|by apply A5|by apply Forall2_app|done].
Qed.

(** ** Masking in place *)

Lemma mask_blocks_spec fuel rc m idx :
  buf_ok rc -> RemainingLength rc < Z.of_nat fuel ->
  mask_blocks fuel rc m idx
  = Some {| b_data := ztake (b_cur rc) (b_data rc) ++ xor_mask m idx (unread rc);
            b_cur := zlen (b_data rc) |}.
Proof.
  revert rc idx. induction fuel as [|f IH]; intros rc idx Hok Hf;
    [pose proof (RemainingLength_nonneg rc Hok); lia|].
  cbn [mask_blocks]. unfold ReadBlock, INFINITE.
  set (k := Z.min 4294967295 _). pose proof (RemainingLength_nonneg rc Hok) as Hr.
  pose proof (zlen_unread rc Hok) as Hu.
  assert (Hk : 0 <= k <= RemainingLength rc) by (unfold k, G_nBlockSize; lia).
  assert (Hl : zlen (ztake k (unread rc)) = k) by (apply zlen_ztake; lia). rewrite Hl.
  destruct (Z.eqb_spec k 0) as [E|E].
  - assert (H0 : RemainingLength rc = 0) by (unfold k, G_nBlockSize in *; lia).
    rewrite <- Hu in H0. rewrite (zlen_0_nil _ H0). destruct rc as [d c].
    unfold buf_ok, RemainingLength, unread in *. cbn in *. rewrite app_nil_r.
    rewrite zlen_zdrop in H0 by lia. rewrite ztake_all by lia. do 2 f_equal. lia.
  - set (x := xor_mask m idx (ztake k (unread rc))).
    assert (Hx : zlen x = k) by (unfold x; by rewrite xor_mask_length).
    unfold buf_ok, RemainingLength in *.
    set (rc2 := {| b_data := write_at (b_data rc) (b_cur rc) x; b_cur := b_cur rc + k |}).
    assert (Hlen : zlen (b_data rc2) = zlen (b_data rc)) by (cbn [rc2 b_data]; apply write_at_length; lia).
    assert (Hun : unread rc2 = zdrop k (unread rc)).
    { unfold unread, rc2. cbn [b_cur b_data]. unfold write_at. rewrite app_assoc.
      rewrite zdrop_app_exact by (rewrite zlen_app, zlen_ztake; lia).
      rewrite Hx. by rewrite zdrop_zdrop by lia. }
    change (b_cur (set_cur rc (b_cur rc + k))) with (b_cur rc + k). fold rc2.
    rewrite IH; [|unfold buf_ok; rewrite Hlen; cbn; lia|unfold RemainingLength; rewrite Hlen; cbn; lia].
    rewrite Hlen, Hun. do 2 f_equal.
    pose proof (write_at_take (b_data rc) (b_cur rc) x ltac:(lia) ltac:(lia)) as Hw. rewrite Hx in Hw.
    cbn [rc2 b_cur b_data]. rewrite Hw, <- app_assoc. f_equal.
    rewrite <- (ztake_zdrop k (unread rc)) at 2. rewrite xor_mask_app, Hl. done.
Qed.

(** The masking loop over the bytes appended after [pre]. *)
Lemma mask_blocks_suffix pre bs m :
  mask_blocks (S (length (pre ++ bs)))
    (Rewind {| b_data := pre ++ bs; b_cur := 0 |} (zlen pre)) m 0
  = Some {| b_data := pre ++ xor_mask m 0 bs; b_cur := zlen (pre ++ bs) |}.
Proof.
  pose proof (zlen_nonneg pre). pose proof (zlen_nonneg bs).
  assert (E : Rewind {| b_data := pre ++ bs; b_cur := 0 |} (zlen pre)
              = {| b_data := pre ++ bs; b_cur := zlen pre |}).
  { unfold Rewind, set_cur. cbn [b_data b_cur]. f_equal. rewrite zlen_app. lia. }
  rewrite E, mask_blocks_spec.
  - cbn [b_data b_cur]. unfold unread. cbn [b_data b_cur].
    by rewrite ztake_app_exact, zdrop_app_exact.
  - unfold buf_ok. cbn. rewrite zlen_app. lia.
  - unfold RemainingLength. cbn [b_data b_cur]. unfold zlen. lia.
Qed.

(** The frame [BuildFrame] makes of the unread bytes; FIN is always set. *)
Definition built_frame (rand : bytes) (header : WSFrameHeader) (pData : buffer) : frame :=
  {| f_fin := true; f_op := opcode header;
     f_key := if has_mask header
              then Some (if zat (mask header) 0 =? 0 then rand else mask header) else None;
     f_payload := unread pData |}.

Lemma lor_flag a l : a = 0 \/ a = 128 -> 0 <= l < 128 -> Z.lor a l = a + l.
Proof.
  intros [-> | ->] Hl; [by rewrite Z.lor_0_l|].
  apply (lor_low 128 l 7); [done|done|]. change (2 ^ 7) with 128. lia.
Qed.

Lemma build_head op n (m : bool) (w : buffer) :
  0 <= op < 16 -> 0 <= n < 2 ^ 32 ->
  let nByte := if m then 0x80 else 0 in
  (if n <? 126 then Some (WriteUInt8 w (Z.lor nByte (Z.land n 0x7F)))
   else if n <? 65536 then
     Some (WriteUInt16BE (WriteUInt8 w (Z.lor nByte (Z.land 126 0x7F))) (u16 n))
   else if n <? 0xFFFFFFFFFFFFFFFF then
     Some (WriteUInt64BE (WriteUInt8 w (Z.lor nByte (Z.land 127 0x7F))) n)
   else None)
  = Some {| b_data := b_data w ++ (nByte + length_field n) :: length_bytes n; b_cur := b_cur w |}.
Proof.
  intros Hop Hn nByte. assert (Hb : nByte = 0 \/ nByte = 128) by (unfold nByte; destruct m; lia).
  clearbody nByte. unfold length_field, length_bytes, WriteUInt8, WriteUInt16BE, WriteUInt64BE.
  rewrite !mem_swapBytes. unfold Write. cbn [b_data b_cur].
  change (Z.land 126 127) with 126. change (Z.land 127 127) with 127.
  rewrite (land_mask 7 n) by done. change (2 ^ 7) with 128.
  destruct (Z.ltb_spec n 126); [|destruct (Z.ltb_spec n 65536)].
  - rewrite Z.mod_small, lor_flag, u8_small by lia. done.
  - rewrite lor_flag, u8_small, u16_small by lia. by rewrite <- app_assoc.
  - rewrite (proj2 (Z.ltb_lt n _)) by lia. rewrite lor_flag, u8_small by lia. by rewrite <- app_assoc.
Qed.

Lemma BuildFrame_bytes rand header pData :
  buf_ok pData -> 0 <= opcode header < 16 -> RemainingLength pData < 2 ^ 32 ->
  exists fr h', BuildFrame rand header pData = Some (Some fr, h') /\
    b_data fr = encode_frame (built_frame rand header pData) /\ b_cur fr = 0.
Proof.
  intros Hok Hop Hn. pose proof (RemainingLength_nonneg pData Hok) as Hn0.
  pose proof (zlen_unread pData Hok) as Hu.
  unfold BuildFrame. set (n := RemainingLength pData) in *.
  set (hd := if has_mask header && _ then with_mask header rand else header).
  assert (Hhd : has_mask hd = has_mask header /\ opcode hd = opcode header /\
    (has_mask header = true -> mask hd = if zat (mask header) 0 =? 0 then rand else mask header)).
  { unfold hd. destruct (has_mask header) eqn:E; cbn; [|by rewrite E].
    destruct (zat (mask header) 0 =? 0); cbn; by rewrite E. }
  clearbody hd. destruct Hhd as (Hm & Ho & Hk).
  rewrite Hm, Ho. rewrite (build_head (opcode header)) by lia.
  rewrite (land_mask 4) by done. change (2 ^ 4) with 16. rewrite Z.mod_small by done.
  unfold WriteUInt8. rewrite lor_flag, u8_small by lia. cbn [Write b_data b_cur empty_buffer app].
  rewrite WriteFrom_spec by (done || lia). fold n. rewrite Z.min_id, (ztake_all n) by lia.
  unfold encode_frame, built_frame, head0, head1. cbn [f_fin f_op f_key f_payload]. rewrite Hu.
  destruct (has_mask header).
  - specialize (Hk eq_refl). rewrite Hk. set (k := if zat (mask header) 0 =? 0 then _ else _).
    set (pre := [128 + opcode header; 128 + length_field n] ++ length_bytes n ++ k).
    cbn [mbind option_bind].
    change (mask_blocks _ _ k 0) with (mask_blocks (S (length (pre ++ unread pData)))
      (Rewind {| b_data := pre ++ unread pData; b_cur := 0 |} (zlen pre)) k 0).
    rewrite (mask_blocks_suffix pre (unread pData) k).
    cbn [mbind option_bind]. eexists _, _. split; [reflexivity|].
    unfold Rewind, set_cur. cbn [b_data b_cur]. split; [unfold pre; by rewrite <- !app_assoc|].
    apply Z.min_l, zlen_nonneg.
  - cbn [mbind option_bind Write b_data b_cur]. eexists _, _. split; [reflexivity|]. by split.
Qed.

(** ** The first two bytes, as RFC 6455 allows them *)

Definition head_legal (message_open : bool) (d0 d1 : Z) : bool :=
  let op := d0 mod 16 in
  let fin := 128 <=? d0 in
  let n := d1 mod 128 in
  ((d0 / 16) mod 8 =? 0) &&
  (if op <? 3 then (if op =? 0 then message_open else negb message_open)
   else (8 <=? op) && (op <=? 10) && fin && (n <=? 125) && negb ((op =? 8) && (n =? 1))).

Definition head_accepted (message_open : bool) (d0 d1 : Z) : bool :=
  match (decode_first2 message_open 0 new_WSFrameHeader d0 d1).2 with
  | None => true | Some _ => false
  end.

Lemma decode_first2_not_limit inf op h d0 d1 e :
  (decode_first2 inf op h d0 d1).2 = Some e -> e <> LengthExceedsMax /\ e <> MessageExceedsMax.
Proof.
  unfold decode_first2. cbn [is_final payload_size with_final with_opcode with_length].
  repeat (match goal with |- context [if ?c then _ else _] => destruct c end; [by intros [= <-]|]).
  done.
Qed.

Lemma head_accepted_legal message_open d0 d1 :
  is_byte d0 -> is_byte d1 -> head_accepted message_open d0 d1 = head_legal message_open d0 d1.
Proof.
  destruct message_open.
  - apply (byte2_forall (head_accepted true) (head_legal true)). vm_compute. reflexivity.
  - apply (byte2_forall (head_accepted false) (head_legal false)). vm_compute. reflexivity.
Qed.

(** ** Size limits *)

Definition event_bounded (max : Z) (e : ws_event) : Prop :=
  match e with
  | OnRecvWSFrame h payload n =>
      0 <= n <= max /\ payload_size h = n /\ zlen (default [] payload) = n
  end.

Definition spec_inv (s : ws_spec) : Prop :=
  0 < sp_max s /\ frags_ok (sp_max s) (sp_frags s) /\
  match sp_state s with
  | PARSE_MASK | PARSE_PAYLOAD => payload_fits (sp_max s) (sp_frags s) (sp_header s)
  | PARSE_PAYLOAD_SIZE => 0 <= payload_size (sp_header s)
  | PARSE_FIRST_2_BYTES => True
  end.

Lemma ws_inv_spec p : ws_inv p -> spec_inv (ws_abs p).
Proof.
  intros ((_ & _ & Hm & Hf & _) & _ & Hst). split; [cbn; lia|]. split; [done|].
  cbn. destruct (parse_state_ p); try done. lia.
Qed.

Lemma deliver_bounded max f h payload n :
  frags_ok max f -> payload_fits max f h -> n = payload_size h ->
  zlen (default [] payload) = n ->
  Forall (event_bounded max) (deliver_frame h f payload n).2.
Proof.
  intros [Hl _] [[H0 H1] H2] -> Hp. unfold deliver_frame.
  assert (Hone : Forall (event_bounded max) [OnRecvWSFrame h payload (payload_size h)])
    by (constructor; [split_and!; done || lia|constructor]).
  destruct (control_opcode (opcode h)); [exact Hone|]. specialize (H2 eq_refl).
  destruct (is_final h && negb (fr_open f)); [exact Hone|].
  destruct (negb (is_final h)); [constructor|]. cbn [snd].
  set (fr := match payload with Some _ => _ | None => _ end).
  assert (Hfr : 0 <= zlen fr <= max).
  { unfold fr. pose proof (zlen_nonneg (fr_buffer f)). destruct payload as [bs|]; [|lia].
    change (zlen bs = payload_size h) in Hp. case_match; rewrite ?zlen_app; lia. }
  constructor; [|constructor]. split_and!; [lia|lia|done|].
  destruct (Z.eqb_spec (zlen fr) 0) as [->|]; done.
Qed.

Lemma sp_enter_inv s h s' evs :
  spec_inv s -> 0 <= payload_size h -> sp_enter s h = inl (s', evs) ->
  spec_inv s' /\ evs = [] /\ sp_max s' = sp_max s.
Proof.
  intros (Hm & Hf & _) H0. unfold sp_enter, payload_check.
  destruct (Z.ltb_spec (sp_max s) (payload_size h)); [done|].
  destruct (negb (control_opcode (opcode h)) && _) eqn:E; [done|]. intros [= <- <-].
  split; [|done]. split; [done|]. split; [done|].
  assert (Hfit : payload_fits (sp_max s) (sp_frags s) h).
  { split; [lia|]. intros Hc. rewrite Hc in E. cbn in E. zbool. done. }
  cbn. destruct (has_mask h); exact Hfit.
Qed.

Lemma sp_step_inv s bs s' evs :
  bytes_ok bs -> spec_inv s -> zlen bs = need s -> step s bs = inl (s', evs) ->
  spec_inv s' /\ Forall (event_bounded (sp_max s)) evs /\ sp_max s' = sp_max s.
Proof.
  intros Hb Hi Hl. pose proof Hi as (Hm & Hf & Hst). cbn [step need ws_stream] in *.
  unfold sp_step, sp_need in *.
  assert (Henter : forall h, 0 <= payload_size h -> sp_enter s h = inl (s', evs) ->
    spec_inv s' /\ Forall (event_bounded (sp_max s)) evs /\ sp_max s' = sp_max s).
  { intros h H0 E. destruct (sp_enter_inv s h s' evs Hi H0 E) as (? & -> & ?).
    split_and!; done || constructor. }
  destruct (sp_state s).
  - unfold sp_first2. destruct (decode_first2 _ _ _ _ _) as [h [e|]] eqn:Ed; [done|].
    assert (H0 : 0 <= payload_size h <= 127).
    { eapply decode_first2_length; [|exact Ed]. destruct (zget_byte bs 1 Hb) as (b & E & Hok); [lia|].
      unfold zat. by rewrite E. }
    destruct (_ || _); [|apply Henter; lia]. intros [= <- <-].
    split; [|split; [constructor|done]]. split; [done|]. split; [done|]. cbn. lia.
  - apply Henter. cbn. apply be_val_bound. done.
  - intros [= <- <-]. split; [|split; [constructor|done]]. split; [done|]. split; done.
  - intros [= E]. unfold sp_payload in E.
    pose proof (zlen_nonneg bs). destruct Hst as [[H0 H1] H2].
    set (body := if has_mask (sp_header s) then xor_mask (mask (sp_header s)) 0 bs else bs) in *.
    assert (Hbody : zlen body = payload_size (sp_header s))
      by (unfold body; destruct (has_mask _); rewrite ?xor_mask_length; lia).
    set (pl := if payload_size (sp_header s) =? 0 then None else Some body).
    assert (Hpl : zlen (default [] pl) = payload_size (sp_header s)).
    { unfold pl. destruct (Z.eqb_spec (payload_size (sp_header s)) 0) as [E0|]; [|done].
      rewrite E0. done. }
    assert (Epl : (if payload_size (sp_header s) =? 0 then deliver_frame (sp_header s) (sp_frags s) None 0
      else deliver_frame (sp_header s) (sp_frags s) (Some body) (payload_size (sp_header s)))
      = deliver_frame (sp_header s) (sp_frags s) pl (payload_size (sp_header s))).
    { unfold pl. destruct (Z.eqb_spec (payload_size (sp_header s)) 0) as [E0|]; [by rewrite E0|done]. }
    rewrite Epl in E.
    pose proof (deliver_bounded (sp_max s) (sp_frags s) (sp_header s) pl _ Hf (conj (conj H0 H1) H2) eq_refl Hpl) as HB.
    pose proof (deliver_frags_ok (sp_max s) (sp_header s) (sp_frags s) pl _ Hm Hf (conj (conj H0 H1) H2) eq_refl) as HF.
    destruct (deliver_frame _ _ pl _) as [f es]. injection E as <- <-. cbn [fst snd] in *.
    split; [|split; [exact HB|done]]. split; [done|]. split; [|done].
    apply HF. unfold pl in *. destruct (_ =? 0) eqn:E0; [by apply Z.eqb_eq|done].
Qed.

Lemma spec_inv_need s : spec_inv s -> need s <= Z.max 8 (sp_max s).
Proof.
  intros (Hm & _ & Hst). cbn [need ws_stream]. unfold sp_need.
  destruct (sp_state s); [lia|destruct (_ =? 126); lia|lia|destruct Hst as [[? ?] _]; lia].
Qed.

Lemma runs_bounded (s : ws_spec) buf evs (r : (ws_spec * bytes) + ws_error) :
  runs s buf evs r -> spec_inv s -> bytes_ok buf ->
  Forall (event_bounded (sp_max s)) evs /\
  match r with
  | inl (s', rest) => sp_max s' = sp_max s /\ zlen rest < Z.max 8 (sp_max s)
  | inr _ => True
  end.
Proof.
  induction 1 as [s buf Hn | s buf s1 evs1 evs2 r0 Hn Hs _ IH |]; intros Hi Hb.
  - split; [constructor|]. pose proof (spec_inv_need s Hi). split; [done|lia].
  - assert (Hneed : 0 <= need s) by apply need_nonneg.
    destruct (sp_step_inv s (ztake (need s) buf) s1 evs1) as (Hi1 & He & Hm);
      [by apply bytes_ok_ztake|done|by apply zlen_ztake|done|].
    destruct (IH Hi1) as [He2 Hend]; [by apply bytes_ok_zdrop|]. rewrite Hm in He2, Hend.
    split; [by apply Forall_app_2|]. destruct r0 as [[s' rest]|]; [|done].
    destruct Hend as [-> ?]. done.
  - split; [constructor|done].
Qed.

Lemma new_waiting max : 0 < max -> ws_waiting (SetMaxFrameBytes new_WSParser max).
Proof.
  intros Hm. unfold SetMaxFrameBytes. rewrite (proj2 (Z.ltb_lt _ _)) by done.
  split; [|done]. split; [|done]. split_and!; try done.
  - constructor.
  - cbn. unfold UINT32_MAX. zcase; lia.
  - cbn. unfold UINT32_MAX. zcase; lia.
  - split; [|done]. unfold zlen. cbn. zcase; unfold UINT32_MAX; lia.
  - unfold zlen. cbn. zcase; unfold UINT32_MAX; lia.
Qed.

(** A new parser is at the start of a frame, with nothing open. *)
Lemma new_parser_abs max : 0 < max -> max <= UINT32_MAX ->
  let p := SetMaxFrameBytes new_WSParser max in
  spec_partial (ws_abs p) None /\ sp_max (ws_abs p) = max /\ unread (buffer_ p) = [].
Proof.
  intros H0 Hu. unfold SetMaxFrameBytes. rewrite (proj2 (Z.ltb_lt 0 max)) by lia.
  split_and!; try done. cbn. by rewrite (proj2 (Z.ltb_ge _ _)) by lia.
Qed.

Lemma bytes_ok_concat cs : Forall bytes_ok cs -> bytes_ok (concat cs).
Proof. induction 1; cbn; [constructor|]. by apply bytes_ok_app. Qed.

Lemma frames_parsed (max : Z) (fs : list frame) (cs : list bytes) :
  0 < max <= UINT32_MAX -> frames_allowed max None fs ->
  Forall bytes_ok cs -> concat cs = concat (map encode_frame fs) ->
  exists evs p', ParseWS_all (SetMaxFrameBytes new_WSParser max) cs = Some (evs, inl p') /\
    map event_message evs = (messages None fs).2 /\
    ws_waiting p' /\ unread (buffer_ p') = [] /\ spec_partial (ws_abs p') (messages None fs).1.
Proof.
  intros [H0 Hu] Hal Hc E.
  destruct (ParseWS_all_spec _ cs (new_waiting max H0) Hc) as (evs & r & HP & Hr & Hrun).
  set (p := SetMaxFrameBytes new_WSParser max) in *.
  destruct (new_parser_abs max H0 Hu) as (Hs & Hm & Hun). fold p in Hs, Hm, Hun.
  destruct (runs_frames max None fs (ws_abs p)) as (s' & evs' & Hs' & Hev & Hrun'); [done..|].
  rewrite Hun, E in Hrun. cbn [app] in Hrun.
  destruct (runs_det _ _ _ _ _ _ Hrun Hrun') as [<- He].
  destruct r as [p'|[e p']]; [|done]. cbn [end_of] in He. injection He as <- Hu'.
  by exists evs, p'.
Qed.

Lemma encode_frame_length f :
  match f_key f with Some k => zlen k = 4 | None => True end -> zlen (f_payload f) <= UINT32_MAX ->
  zlen (encode_frame f)
  = CalculateFrameHeaderSize (match f_key f with Some _ => true | None => false end) (zlen (f_payload f))
    + zlen (f_payload f).
Proof.
  intros Hk Hn. pose proof (zlen_nonneg (f_payload f)). unfold UINT32_MAX in *.
  unfold encode_frame, CalculateFrameHeaderSize, length_bytes. rewrite !zlen_app, !zlen_cons, zlen_nil.
  assert (Hb : zlen (match f_key f with Some k => k ++ xor_mask k 0 (f_payload f) | None => f_payload f end)
    = (match f_key f with Some _ => 4 | None => 0 end) + zlen (f_payload f)).
  { destruct (f_key f); [rewrite zlen_app, xor_mask_length|]; lia. }
  rewrite Hb. destruct (f_key f); cbv iota; (zcase; [|zcase; [|zcase; [|lia]]]);
    rewrite ?zlen_be_bytes; change (zlen (@nil Z)) with 0; lia.
Qed.

(** ** Properties *)

(** C38: whatever bytes a peer sends, and in whatever pieces they arrive, a new parser tells
    its client exactly the messages that a reader of the whole stream finds in it by RFC 6455
    and the size limit: control frames where they stand, fragmented messages joined and with
    the opcode of their first frame, masked payloads unmasked, each with its true size. Every
    call ends and no assertion fails. Where the reader refuses a head or a length the parser
    throws the same exception, with the buffer rewound; where the reader waits the parser
    holds the same open message and only bytes of the frame that is not all there. *)
Theorem ParseWSFrame_refines (max : Z) (cs : list bytes) :
  0 < max <= UINT32_MAX -> Forall bytes_ok cs ->
  exists ms e evs r,
    read_messages max (concat cs) = Some (ms, e) /\
    ParseWS_all (SetMaxFrameBytes new_WSParser max) cs = Some (evs, r) /\ Forall2 tells ms evs /\
    match e, r with
    | Waits st held, inl p => open_message p = st /\ unread (buffer_ p) `suffix_of` held /\ ws_waiting p
    | Rejects err, inr (err', p) => err = err' /\ b_cur (buffer_ p) = 0
    | _, _ => False
    end.
Proof.
  intros [H0 Hu] Hc. destruct (ParseWS_all_spec _ cs (new_waiting max H0) Hc) as (evs & r & HP & Hr & Hrun).
  set (p := SetMaxFrameBytes new_WSParser max) in *. destruct (new_parser_abs max H0 Hu) as (Hs & Hm & Hun). fold p in Hs, Hm, Hun.
  rewrite Hun in Hrun. cbn [app] in Hrun.
  destruct (read_stream_runs max (S (length (concat cs))) None (ws_abs p) (concat cs)) as (ms & e & evs' & r' & HR & Hrun' & Ht & He); [lia|by apply bytes_ok_concat|done..|].
  destruct (runs_det _ _ _ _ _ _ Hrun Hrun') as [<- <-]. exists ms, e, evs, r. split_and!; [done..|].
  destruct e as [st held|err], r as [p'|[err' p']]; cbn [end_of] in He; try done.
  destruct He as [Hf Hsuf]. split_and!; [|done|done]. unfold open_message. cbn in Hf. unfold frags in Hf.
  by destruct st as [[op acc]|]; injection Hf as -> -> ->.
Qed.

(** A masked text in three pieces, a ping between the two fragments of a message, and then a
    frame with a reserved bit. *)
Lemma ParseWSFrame_refines_witness :
  exists evs r, ParseWS_all (SetMaxFrameBytes new_WSParser 100)
      [[0x81; 0x82; 1; 2]; [3; 4; 105; 107; 1; 1; 104; 0x89]; [0; 0x80; 1; 105; 0xC1; 0]] = Some (evs, r) /\
    Forall2 tells [(1, str "hi"); (9, []); (1, str "hi")] evs /\
    match r with inr (e, p) => e = RsvBitsSet /\ b_cur (buffer_ p) = 0 | inl _ => False end.
Proof.
  destruct (ParseWSFrame_refines 100 [[0x81; 0x82; 1; 2]; [3; 4; 105; 107; 1; 1; 104; 0x89]; [0; 0x80; 1; 105; 0xC1; 0]])
    as (ms & e & evs & r & HR & HP & Ht & He).
  - split; [reflexivity|discriminate].
  - apply (bool_decide_unpack _). vm_compute. exact I.
  - assert (HR' : read_messages 100 (concat [[0x81; 0x82; 1; 2]; [3; 4; 105; 107; 1; 1; 104; 0x89]; [0; 0x80; 1; 105; 0xC1; 0]])
                  = Some ([(1, str "hi"); (9, []); (1, str "hi")], Rejects RsvBitsSet)) by (vm_compute; reflexivity).
    rewrite HR' in HR. injection HR as <- <-. exists evs, r. split; [exact HP|]. split; [exact Ht|].
    destruct r as [|[err p]]; [exact He|]. destruct He as [<- Hb]. by split.
Defined.

(** How the network cuts the stream does not matter: two sequences of calls on the
    same bytes deliver the same frames in the same order, and end either with the
    same exception or waiting for the same thing with the same unparsed bytes. *)
Theorem ParseWSFrame_chunking (p : WSParser) (cs cs' : list bytes) :
  ws_waiting p -> Forall bytes_ok cs -> Forall bytes_ok cs' -> concat cs = concat cs' ->
  exists evs r r', ParseWS_all p cs = Some (evs, r) /\ ParseWS_all p cs' = Some (evs, r') /\
    end_of r = end_of r'.
Proof.
  intros Hw Hc Hc' E.
  destruct (ParseWS_all_spec p cs Hw Hc) as (evs & r & HP & _ & Hr).
  destruct (ParseWS_all_spec p cs' Hw Hc') as (evs' & r' & HP' & _ & Hr').
  rewrite E in Hr. destruct (runs_det _ _ _ _ _ _ Hr Hr') as [<- He]. by exists evs, r, r'.
Qed.

Lemma ParseWSFrame_chunking_witness :
  let p := SetMaxFrameBytes new_WSParser 100 in
  exists evs r r', ParseWS_all p [[0x81]; [0x02; 104]; [105; 0x71; 0]] = Some (evs, r) /\
    ParseWS_all p [[0x81; 0x02; 104; 105]; [0x71]; [0]] = Some (evs, r') /\ end_of r = end_of r'.
Proof.
  apply ParseWSFrame_chunking.
  - apply new_waiting. reflexivity.
  - apply (bool_decide_unpack _). vm_compute. exact I.
  - apply (bool_decide_unpack _). vm_compute. exact I.
  - reflexivity.
Defined.

(** Every sequence of frames RFC 6455 and the size limit allow is received as its
    messages. Whatever the pieces the encoded frames arrive in, the client is told
    exactly the messages of the sequence, in order: control frames where they stand,
    fragmented messages joined and reported with the opcode of their first frame,
    masked payloads unmasked, and nothing is left unparsed. *)
Theorem frames_received (max : Z) (fs : list frame) (cs : list bytes) :
  0 < max <= UINT32_MAX -> frames_allowed max None fs ->
  Forall bytes_ok cs -> concat cs = concat (map encode_frame fs) ->
  exists evs p', ParseWS_all (SetMaxFrameBytes new_WSParser max) cs = Some (evs, inl p') /\
    map event_message evs = (messages None fs).2 /\
    ws_waiting p' /\ unread (buffer_ p') = [] /\ spec_partial (ws_abs p') (messages None fs).1.
Proof. apply frames_parsed. Qed.

Lemma frames_received_witness :
  let fs := [{| f_fin := false; f_op := 1; f_key := None; f_payload := [104] |};
             {| f_fin := true; f_op := 9; f_key := None; f_payload := [] |};
             {| f_fin := true; f_op := 0; f_key := Some [1; 2; 3; 4]; f_payload := [105] |}] in
  exists evs p', ParseWS_all (SetMaxFrameBytes new_WSParser 100)
      [[1; 1; 104; 0x89; 0]; [0x80; 0x81; 1; 2; 3]; [4; 104]] = Some (evs, inl p') /\
    map event_message evs = [(9, []); (1, [104; 105])] /\
    ws_waiting p' /\ unread (buffer_ p') = [] /\ spec_partial (ws_abs p') None.
Proof.
  intros fs. apply (frames_received 100 fs).
  - split; [reflexivity|discriminate].
  - cbn. repeat split; try (apply (bool_decide_unpack _); vm_compute; exact I);
      try discriminate; try reflexivity; intros; try discriminate; eauto.
  - apply (bool_decide_unpack _). vm_compute. exact I.
  - vm_compute. reflexivity.
Defined.

(** The first two bytes of a frame are rejected exactly when RFC 6455 forbids them in
    the current state: a reserved bit or opcode, a continuation with no message open
    or a new data frame with one open, and a control frame that is fragmented, longer
    than 125 bytes, or a close with a one-byte body. Only the size limit rejects more. *)
Theorem first_bytes_checked (p : WSParser) (d0 d1 : Z) (rest : bytes) :
  ws_inv p -> parse_state_ p = PARSE_FIRST_2_BYTES -> unread (buffer_ p) = d0 :: d1 :: rest ->
  head_legal (in_fragment_ p) d0 d1 = false <->
  exists e p', ParseFirst2Bytes p = Some (Throw e p') /\ e <> LengthExceedsMax /\
    e <> MessageExceedsMax.
Proof.
  intros Hi Hst Hu. pose proof Hi as ((Hb & Hby & _) & _). pose proof (zlen_nonneg rest).
  assert (Hbb : bytes_ok (d0 :: d1 :: rest)) by (rewrite <- Hu; by apply bytes_ok_zdrop).
  apply Forall_cons_1 in Hbb as [H0 [H1 _]%Forall_cons_1].
  destruct (first2_refines p Hi Hst) as (t & -> & Ht); [rewrite Hu, !zlen_cons; lia|].
  rewrite Hu in Ht. change (ztake 2 (d0 :: d1 :: rest)) with [d0; d1] in Ht.
  rewrite <- head_accepted_legal by done. unfold head_accepted.
  rewrite <- (decode_first2_error _ (frag_opcode_ p) (parsed_header_ p)).
  cbn [step ws_stream] in Ht. unfold sp_step in Ht. cbn [sp_state ws_abs] in Ht. rewrite Hst in Ht.
  change (zat [d0; d1] 0) with d0 in Ht. change (zat [d0; d1] 1) with d1 in Ht.
  unfold sp_first2 in Ht. cbn [sp_frags sp_header ws_abs frags fr_open fr_opcode] in Ht.
  destruct (decode_first2 (in_fragment_ p) (frag_opcode_ p) (parsed_header_ p) d0 d1)
    as [h [e|]] eqn:Ed; cbn [snd]; split; try done.
  - intros _. destruct t as [|e' p']; [done|]. destruct Ht as [-> _]. exists e, p'.
    split; [done|]. eapply decode_first2_not_limit. by rewrite Ed.
  - intros (e & p' & [= ->] & Hne1 & Hne2). destruct (_ || _); [done|].
    unfold sp_enter, payload_check in Ht.
    destruct (_ <? payload_size h); [by destruct Ht as [-> _]|].
    destruct (_ && _) in Ht; [by destruct Ht as [-> _]|done].
Qed.

Lemma first_bytes_checked_witness :
  let p := SetMaxFrameBytes new_WSParser 100 in
  let q := set_buffer p (Write (buffer_ p) [0x80; 0x00]) 2 in
  head_legal false 0x80 0x00 = false /\
  exists e p', ParseFirst2Bytes q = Some (Throw e p') /\ e <> LengthExceedsMax /\ e <> MessageExceedsMax.
Proof.
  split; [reflexivity|].
  apply (first_bytes_checked _ 0x80 0x00 []); [|reflexivity..].
  destruct (new_waiting 100 eq_refl) as [((H1 & H2 & H3) & H4 & H5) _].
  split; [|split; [reflexivity|exact I]].
  split; [vm_compute; split; discriminate|]. split; [|exact H3].
  apply (bool_decide_unpack _). vm_compute. exact I.
Defined.

(** The size limit bounds what a peer can make the parser hold or deliver. Whatever
    bytes arrive, every frame or message delivered in a call has at most
    [max_frame_bytes_] bytes and is reported with its true size; and after a call that
    throws nothing, the unread bytes, the last payload and the message being
    reassembled each stay within the limit, which is unchanged. *)
Theorem ParseWSFrame_bounded (p : WSParser) (data : bytes) :
  ws_waiting p -> bytes_ok data ->
  exists evs r, ParseWSFrame p data = Some (evs, r) /\
    Forall (event_bounded (max_frame_bytes_ p)) evs /\
    match r with
    | inl p' => max_frame_bytes_ p' = max_frame_bytes_ p /\
        zlen (unread (buffer_ p')) < Z.max 8 (max_frame_bytes_ p) /\
        zlen (flat_buffer_ p') <= max_frame_bytes_ p /\
        zlen (frag_buffer_ p') <= max_frame_bytes_ p
    | inr (_, p') => b_cur (buffer_ p') = 0
    end.
Proof.
  intros [Hi _] Hd. destruct (ParseWSFrame_spec p data Hi Hd) as (evs & r & HP & Hr & Hrun).
  exists evs, r. split; [done|]. pose proof Hi as ((_ & Hby & _) & _).
  destruct (runs_bounded _ _ _ _ Hrun (ws_inv_spec p Hi)) as [He Hend];
    [apply Forall_app_2; [by apply bytes_ok_zdrop|done]|].
  split; [exact He|]. destruct r as [p'|[e p']]; [|exact Hr]. cbn [end_of] in Hend.
  destruct Hend as [Hm Hl]. destruct Hr as [((_ & _ & _ & Hf & Hfl) & _) _].
  cbn [sp_max ws_abs] in Hm, Hl. rewrite Hm in Hf, Hfl. split_and!; [done|done|done|apply Hf].
Qed.

Lemma ParseWSFrame_bounded_witness :
  let p := SetMaxFrameBytes new_WSParser 4 in
  exists evs r, ParseWSFrame p [0x01; 0x02; 104; 105; 0x80; 0x03; 1; 2; 3] = Some (evs, r) /\
    Forall (event_bounded 4) evs /\
    match r with
    | inl p' => max_frame_bytes_ p' = 4 /\ zlen (unread (buffer_ p')) < 8 /\
        zlen (flat_buffer_ p') <= 4 /\ zlen (frag_buffer_ p') <= 4
    | inr (_, p') => b_cur (buffer_ p') = 0
    end.
Proof.
  apply (ParseWSFrame_bounded (SetMaxFrameBytes new_WSParser 4)).
  - apply new_waiting. reflexivity.
  - apply (bool_decide_unpack _). vm_compute. exact I.
Defined.

(** A frame built by [BuildFrame] is received as the message it carries. For a text,
    binary or control opcode and a payload within the limits, masked or not, and
    whatever random key is drawn, the frame has the header size
    [CalculateFrameHeaderSize] predicts, and a fresh parser fed the frame in any
    pieces delivers exactly its opcode and the unread payload. *)
Theorem BuildFrame_received (max : Z) (rand : bytes) (header : WSFrameHeader) (pData : buffer) :
  0 < max <= UINT32_MAX -> buf_ok pData -> bytes_ok (b_data pData) ->
  frame_ok (built_frame rand header pData) ->
  frame_allowed max None (built_frame rand header pData) ->
  exists fr h', BuildFrame rand header pData = Some (Some fr, h') /\
    RemainingLength fr = CalculateFrameHeaderSize (has_mask header) (RemainingLength pData)
                         + RemainingLength pData /\
    forall cs, Forall bytes_ok cs -> concat cs = unread fr ->
      exists evs p', ParseWS_all (SetMaxFrameBytes new_WSParser max) cs = Some (evs, inl p') /\
        map event_message evs = [(opcode header, unread pData)] /\ unread (buffer_ p') = [].
Proof.
  intros [H0 Hu] Hb Hby Hok Hal.
  set (f := built_frame rand header pData) in *. pose proof (zlen_unread pData Hb) as Hun.
  assert (Hn : RemainingLength pData <= max) by (rewrite <- Hun; apply Hal).
  pose proof (RemainingLength_nonneg pData Hb).
  assert (Hop : 0 <= opcode header < 16).
  { destruct Hok as (Hop & _). change (f_op f) with (opcode header) in Hop.
    repeat (apply elem_of_cons in Hop as [-> | Hop]; [done|]). by apply not_elem_of_nil in Hop. }
  destruct (BuildFrame_bytes rand header pData Hb Hop) as (fr & h' & HB & Hfr & Hcur);
    [unfold UINT32_MAX in *; lia|].
  assert (Hr : b_data fr = unread fr) by (unfold unread; by rewrite Hcur, zdrop_0).
  exists fr, h'. split; [exact HB|]. fold f in Hfr. split.
  - unfold RemainingLength at 1. rewrite Hcur, Z.sub_0_r, Hfr, encode_frame_length;
      change (f_payload f) with (unread pData); rewrite ?Hun; [..|unfold UINT32_MAX in *; lia].
    + cbn [f f_key built_frame]. by destruct (has_mask header).
    + destruct Hok as (_ & _ & Hk). destruct (f_key f); [apply Hk|done].
  - intros cs Hc E. rewrite <- Hr, Hfr in E.
    destruct (frames_parsed max [f] cs) as (evs & p' & HP & Hev & _ & Hu' & _);
      [done|split; [done|split; done]|done|cbn [map concat]; by rewrite app_nil_r, E|].
    exists evs, p'. split_and!; [done| |done]. rewrite Hev. cbn [messages]. unfold receive_frame.
    by destruct (8 <=? f_op f).
Qed.

Lemma BuildFrame_received_witness :
  let header := {| is_final := true; opcode := 1; has_mask := true; mask := [1; 2; 3; 4];
                   payload_size := 0 |} in
  let pData := {| b_data := [104; 105]; b_cur := 0 |} in
  exists fr h', BuildFrame [] header pData = Some (Some fr, h') /\
    RemainingLength fr = CalculateFrameHeaderSize true 2 + 2 /\
    forall cs, Forall bytes_ok cs -> concat cs = unread fr ->
      exists evs p', ParseWS_all (SetMaxFrameBytes new_WSParser 100) cs = Some (evs, inl p') /\
        map event_message evs = [(1, [104; 105])] /\ unread (buffer_ p') = [].
Proof.
  intros header pData. apply (BuildFrame_received 100 [] header pData).
  - split; [reflexivity|discriminate].
  - split; discriminate.
  - apply (bool_decide_unpack _). vm_compute. exact I.
  - apply (bool_decide_unpack _). vm_compute. exact I.
  - repeat split; try discriminate; try (intros; discriminate). intros [? E]. discriminate E.
Defined.
