(* ===== verification/HttpText.v ===== *)
(** * HttpText: URLs, HTTP requests and the WebSocket handshake as text
      ([src/cpp/HttpConnector.cpp], [WSConnector.cpp], [LLHTTPParser.cpp])

    The URL parser, the two request builders and the check of the handshake's answer.
    A [std::map] of headers is the list of its entries in order. What a receiver of a
    request reads is the reference parser [parse_message]: a start line, fields up to an
    empty line, and the rest. *)

From Stdlib Require Import ZArith Lia Sorted.
From stdpp Require Import base numbers option list.
From S2P Require Import Prelude Utils WSParser.

(** ** Characters and strings *)

Definition ToLowerAscii (s : bytes) : bytes :=
  map (fun c => if (65 <=? c) && (c <=? 90) then c - 65 + 97 else c) s.

Definition ToUpperAscii (s : bytes) : bytes :=
  map (fun c => if (97 <=? c) && (c <=? 122) then c - 97 + 65 else c) s.

Definition IsTokenChar (c : Z) : bool :=
  if ((97 <=? c) && (c <=? 122)) || ((65 <=? c) && (c <=? 90)) || ((48 <=? c) && (c <=? 57)) then true
  else existsb (Z.eqb c) (str "!#$%&'*+-.^_`|~").

Definition IsToken (s : bytes) : bool := negb (bytes_eqb s []) && forallb IsTokenChar s.

Definition IsSafeHeaderValue (s : bytes) : bool :=
  forallb (fun c => negb ((c =? 13) || (c =? 10) || (c =? 0))) s.

Definition IsSafeRequestPart (s : bytes) : bool :=
  forallb (fun c => negb ((c <=? 0x20) || (c =? 0x7f))) s.

Definition starts_with (pat s : bytes) : bool := bytes_eqb (take (length pat) s) pat.

(** [std::string::find] of a string. *)
Fixpoint find_str (pat s : bytes) : option Z :=
  if starts_with pat s then Some 0
  else match s with [] => None | _ :: s' => Z.succ <$> find_str pat s' end.

(** ** Header maps *)

Abbreviation HttpHeaderMap := (list (bytes * bytes)).

Fixpoint map_find (m : HttpHeaderMap) (k : bytes) : option bytes :=
  match m with
  | [] => None
  | (k', v) :: m => if bytes_eqb k' k then Some v else map_find m k
  end.

(** The order of [std::string]: by bytes, a prefix first. *)
Fixpoint bytes_ltb (a b : bytes) : bool :=
  match a, b with
  | _, [] => false
  | [], _ :: _ => true
  | x :: a, y :: b => if x =? y then bytes_ltb a b else x <? y
  end.

(** [m[k] = v]. *)
Fixpoint map_set (m : HttpHeaderMap) (k v : bytes) : HttpHeaderMap :=
  match m with
  | [] => [(k, v)]
  | (k', v') :: m' =>
      if bytes_eqb k' k then (k, v) :: m'
      else if bytes_ltb k k' then (k, v) :: m
      else (k', v') :: map_set m' k v
  end.

Definition FindHeaderCI (headers : HttpHeaderMap) (nameLower : bytes) : option bytes :=
  snd <$> List.find (fun '(k, _) => bytes_eqb (ToLowerAscii k) nameLower) headers.

(** ** URLs *)

Inductive url_error :=
| NoScheme | BadScheme (scheme : bytes) | NoHost | HasUserInfo | BadIpv6Literal | BadAfterBracket
| BadHost | UnsafeHost | BadPort (port : bytes) | PortOutOfRange (port : bytes) | UnsafeTarget.

Record HttpUrlParts := {
  u_scheme : bytes; u_host : bytes; u_hostHeader : bytes; u_port : Z; u_target : bytes; u_tls : bool
}.

(** The authority ends at the first slash, question mark or hash. *)
Definition ends_authority (c : Z) : bool := (c =? 47) || (c =? 63) || (c =? 35).

Fixpoint split_authority (s : bytes) : bytes * bytes :=
  match s with
  | [] => ([], [])
  | c :: s' => if ends_authority c then ([], s) else let '(a, r) := split_authority s' in (c :: a, r)
  end.

(** Whether the host was in brackets, the host and the text of the port. *)
Definition split_host_port (authority : bytes) : url_error + (bool * bytes * bytes) :=
  match authority with
  | 91 :: rest =>
      match find_char 93 rest with
      | None => inl BadIpv6Literal
      | Some n =>
          if n =? 0 then inl BadIpv6Literal
          else match zdrop (n + 1) rest with
          | [] => inr (true, ztake n rest, [])
          | c :: port => if c =? 58 then inr (true, ztake n rest, port) else inl BadAfterBracket
          end
      end
  | _ =>
      let '(hostPart, portPart) :=
        match find_char 58 authority with
        | None => (authority, [])
        | Some n => (ztake n authority, zdrop (n + 1) authority)
        end in
      if bytes_eqb hostPart [] || bool_decide (is_Some (find_char 58 portPart)) then inl BadHost
      else inr (false, hostPart, portPart)
  end.

Fixpoint port_value (v : Z) (s : bytes) : option Z :=
  match s with
  | [] => Some v
  | c :: s => if (c <? 48) || (57 <? c) then None else port_value (v * 10 + (c - 48)) s
  end.

Definition parse_port (portPart : bytes) (defaultPort : Z) : url_error + Z :=
  if bytes_eqb portPart [] then inr defaultPort
  else if 5 <? zlen portPart then inl (BadPort portPart)
  else match port_value 0 portPart with
  | None => inl (BadPort portPart)
  | Some v => if (v =? 0) || (65535 <? v) then inl (PortOutOfRange portPart) else inr (u16 v)
  end.

(** [rest] is the URL from the end of the authority. *)
Definition request_target (rest : bytes) : bytes :=
  let target :=
    match rest with
    | [] => []
    | c :: _ => if c =? 35 then []
                else match find_char 35 rest with Some n => ztake n rest | None => rest end
    end in
  match target with
  | [] => str "/"
  | 63 :: _ => str "/" ++ target
  | _ => target
  end.

(** The part of [HttpConnector::ParseUrl] after the scheme; [url] starts at the authority. *)
Definition parse_after_scheme (scheme url : bytes) : url_error + HttpUrlParts :=
  let tls := bytes_eqb scheme (str "https") in
  let defaultPort := if tls then 443 else 80 in
  let '(authority, rest) := split_authority url in
  if bytes_eqb authority [] then inl NoHost
  else if bool_decide (is_Some (find_char 64 authority)) then inl HasUserInfo
  else match split_host_port authority with
  | inl e => inl e
  | inr (bracketed, hostPart, portPart) =>
      if bytes_eqb hostPart [] || negb (IsSafeRequestPart hostPart) then inl UnsafeHost
      else match parse_port portPart defaultPort with
      | inl e => inl e
      | inr port =>
          let h := if bracketed : bool then str "[" ++ hostPart ++ str "]" else hostPart in
          let h := if negb (port =? defaultPort) then h ++ str ":" ++ dec_text port else h in
          let target := request_target rest in
          if negb (IsSafeRequestPart target) then inl UnsafeTarget
          else inr {| u_scheme := scheme; u_host := hostPart; u_hostHeader := h;
                      u_port := port; u_target := target; u_tls := tls |}
      end
  end.

(** [HttpConnector::ParseUrl]. *)
Definition HttpParseUrl (url : bytes) : url_error + HttpUrlParts :=
  match find_str (str "://") url with
  | None => inl NoScheme
  | Some schemeEnd =>
      if schemeEnd =? 0 then inl NoScheme
      else
        let scheme := ToLowerAscii (ztake schemeEnd url) in
        if negb (bytes_eqb scheme (str "http")) && negb (bytes_eqb scheme (str "https"))
        then inl (BadScheme scheme)
        else parse_after_scheme scheme (zdrop (schemeEnd + 3) url)
  end.

(** [WSConnection::ParseUrl]: the scheme is rewritten and the rest is as for HTTP. *)
Definition WSParseUrl (url : bytes) : url_error + HttpUrlParts :=
  match find_str (str "://") url with
  | None => inl NoScheme
  | Some schemeEnd =>
      if schemeEnd =? 0 then inl NoScheme
      else
        let scheme := ToLowerAscii (ztake schemeEnd url) in
        let rewrite httpScheme :=
          match HttpParseUrl (httpScheme ++ zdrop schemeEnd url) with
          | inl e => inl e
          | inr hp => inr {| u_scheme := scheme; u_host := u_host hp; u_hostHeader := u_hostHeader hp;
                             u_port := u_port hp; u_target := u_target hp; u_tls := u_tls hp |}
          end in
        if bytes_eqb scheme (str "ws") then rewrite (str "http")
        else if bytes_eqb scheme (str "wss") then rewrite (str "https")
        else inl (BadScheme scheme)
  end.

(** ** Requests *)

Inductive request_error :=
| BadMethod (method : bytes) | BadTarget | BadHeaderName (name : bytes) | UnsafeHeader (name : bytes)
| BadHostHeader | IncompleteUrl | NoKey.

Definition CRLF : bytes := [13; 10].

(** The loop that checks the headers given by the caller. *)
Fixpoint check_headers (headers : HttpHeaderMap) : option request_error :=
  match headers with
  | [] => None
  | (k, v) :: headers =>
      if negb (IsToken k) then Some (BadHeaderName k)
      else if negb (IsSafeHeaderValue v) then Some (UnsafeHeader k)
      else check_headers headers
  end.

(** What the text is made of; the URL and the timeout are the connection's. *)
Record HttpRequest := { rq_method : bytes; rq_headers : HttpHeaderMap; rq_body : bytes }.

Definition MethodExpectsBody (methodUpper : bytes) : bool :=
  bytes_eqb methodUpper (str "POST") || bytes_eqb methodUpper (str "PUT")
  || bytes_eqb methodUpper (str "PATCH").

(** The headers of the caller that [BuildRequestText] writes itself or leaves out. *)
Definition request_reserved (lower : bytes) : bool :=
  bytes_eqb lower (str "host") || bytes_eqb lower (str "content-length")
  || bytes_eqb lower (str "connection") || bytes_eqb lower (str "transfer-encoding").

(** The loop that writes the caller's headers. *)
Fixpoint write_headers (reserved : bytes -> bool) (headers : HttpHeaderMap) (out : bytes) : bytes :=
  match headers with
  | [] => out
  | (k, v) :: headers =>
      write_headers reserved headers
        (if reserved (ToLowerAscii k) then out else out ++ k ++ str ": " ++ v ++ CRLF)
  end.

Definition request_method (req : HttpRequest) : bytes :=
  if bytes_eqb (rq_method req) [] then str "GET" else rq_method req.

Definition request_host (req : HttpRequest) (parts : HttpUrlParts) : bytes :=
  match FindHeaderCI (rq_headers req) (str "host") with Some h => h | None => u_hostHeader parts end.

Definition BuildRequestText (req : HttpRequest) (parts : HttpUrlParts) (keepAlive : bool)
    : request_error + bytes :=
  let method := request_method req in
  if negb (IsToken method) then inl (BadMethod method)
  else if bytes_eqb (u_target parts) [] || negb (IsSafeRequestPart (u_target parts)) then inl BadTarget
  else match check_headers (rq_headers req) with
  | Some e => inl e
  | None =>
      let hostValue := request_host req parts in
      if bytes_eqb hostValue [] || negb (IsSafeHeaderValue hostValue) then inl BadHostHeader
      else
        let needContentLength :=
          negb (bytes_eqb (rq_body req) []) || MethodExpectsBody (ToUpperAscii method) in
        let out := method ++ str " " ++ u_target parts ++ str " HTTP/1.1" ++ CRLF in
        let out := out ++ str "Host: " ++ hostValue ++ CRLF in
        let out := if bool_decide (FindHeaderCI (rq_headers req) (str "user-agent") = None)
                   then out ++ str "User-Agent: ttsignal/1.0" ++ CRLF else out in
        let out := if needContentLength
                   then out ++ str "Content-Length: " ++ dec_text (zlen (rq_body req)) ++ CRLF else out in
        let out := if negb keepAlive then out ++ str "Connection: close" ++ CRLF else out in
        let out := write_headers request_reserved (rq_headers req) out in
        inr (out ++ CRLF ++ rq_body req)
  end.

Definition handshake_reserved (lower : bytes) : bool :=
  bytes_eqb lower (str "host") || bytes_eqb lower (str "upgrade") || bytes_eqb lower (str "connection")
  || bytes_eqb lower (str "content-length") || bytes_eqb lower (str "transfer-encoding")
  || starts_with (str "sec-websocket-") lower.

Definition BuildHandshakeRequest (parts : HttpUrlParts) (secKey : bytes) (extraHeaders : HttpHeaderMap)
    : request_error + bytes :=
  if bytes_eqb (u_target parts) [] || bytes_eqb (u_hostHeader parts) [] then inl IncompleteUrl
  else if bytes_eqb secKey [] then inl NoKey
  else match check_headers extraHeaders with
  | Some e => inl e
  | None =>
      let out := str "GET " ++ u_target parts ++ str " HTTP/1.1" ++ CRLF in
      let out := out ++ str "Host: " ++ u_hostHeader parts ++ CRLF in
      let out := out ++ str "Upgrade: websocket" ++ CRLF in
      let out := out ++ str "Connection: Upgrade" ++ CRLF in
      let out := out ++ str "Sec-WebSocket-Key: " ++ secKey ++ CRLF in
      let out := out ++ str "Sec-WebSocket-Version: 13" ++ CRLF in
      let hasUserAgent := existsb (fun '(k, _) => bytes_eqb (ToLowerAscii k) (str "user-agent")) extraHeaders in
      let out := if negb hasUserAgent then out ++ str "User-Agent: ttsignal/1.0" ++ CRLF else out in
      let out := write_headers handshake_reserved extraHeaders out in
      inr (out ++ CRLF)
  end.

(** ** The answer to the handshake *)

Definition clower (c : Z) : Z := if (65 <=? c) && (c <=? 90) then c + 32 else c.

(** [GetLowerCaseHeaders]: [BCPString] works up to the first NUL; the keys' values keep
    their case. *)
Definition GetLowerCaseHeaders (headers : HttpHeaderMap) : HttpHeaderMap :=
  fold_left (fun out '(k, v) =>
    let k := map clower (c_str k) in
    if bytes_eqb k (str "sec-websocket-key") || bytes_eqb k (str "sec-websocket-accept")
    then map_set out k v else map_set out k (map clower (c_str v))) headers [].

(** Without the spaces and tabs around it. *)
Definition is_blank (c : Z) : bool := (c =? 32) || (c =? 9).

Fixpoint skip_blanks (s : bytes) : bytes :=
  match s with c :: s' => if is_blank c then skip_blanks s' else s | [] => [] end.

Definition trim_blanks (s : bytes) : bytes := rev (skip_blanks (rev (skip_blanks s))).

(** [_HasToken]: the elements between commas. *)
Fixpoint HasToken_loop (fuel : nat) (list token : bytes) : bool :=
  match fuel with
  | O => false
  | S f =>
      let one := match find_char 44 list with None => list | Some n => ztake n list end in
      if negb (bytes_eqb (skip_blanks one) []) && bytes_eqb (trim_blanks one) token then true
      else match find_char 44 list with
      | None => false
      | Some n => HasToken_loop f (zdrop (n + 1) list) token
      end
  end.

Definition HasToken (list token : bytes) : bool := HasToken_loop (S (length list)) list token.

Inductive handshake_error :=
| BadStatus (status : Z) | BadUpgrade | BadConnection | NoAccept | NoExpectedKey | AcceptMismatch.

Section Handshake.
Context (base64_encode : bytes -> option bytes) (SHA1 : bytes -> bytes).

Definition CheckHandshakeResponse (status : Z) (headers : HttpHeaderMap) (secKey : bytes)
    : option handshake_error :=
  if negb (status =? 101) then Some (BadStatus status)
  else
    let lower := GetLowerCaseHeaders headers in
    if negb (bool_decide (map_find lower (str "upgrade") = Some (str "websocket"))) then Some BadUpgrade
    else if negb (match map_find lower (str "connection") with
                  | Some v => HasToken v (str "upgrade") | None => false end) then Some BadConnection
    else match map_find lower (str "sec-websocket-accept") with
    | None => Some NoAccept
    | Some accept =>
        let expect := WSAcceptKey base64_encode SHA1 secKey in
        if bytes_eqb expect [] then Some NoExpectedKey
        else if negb (bytes_eqb accept expect) then Some AcceptMismatch
        else None
    end.
End Handshake.

(** ** What a receiver reads

    A lenient receiver: a line ends at a line feed, with or without a carriage return before
    it; a field's name ends at its first colon; the fields end at the first empty line and
    the rest is the body. *)

Fixpoint split_line (s : bytes) : option (bytes * bytes) :=
  match s with
  | [] => None
  | c :: s => if c =? 10 then Some ([], s) else '(l, r) ← split_line s; Some (c :: l, r)
  end.

Fixpoint chomp (l : bytes) : bytes :=
  match l with
  | [] => []
  | [c] => if c =? 13 then [] else [c]
  | c :: l => c :: chomp l
  end.

Definition parse_field (l : bytes) : option (bytes * bytes) :=
  n ← find_char 58 l; Some (ztake n l, trim_blanks (zdrop (n + 1) l)).

Fixpoint parse_fields (fuel : nat) (s : bytes) : option (HttpHeaderMap * bytes) :=
  match fuel with
  | O => None
  | S fuel =>
      '(l, r) ← split_line s;
      match chomp l with
      | [] => Some ([], r)
      | l' => f ← parse_field l'; '(fs, body) ← parse_fields fuel r; Some (f :: fs, body)
      end
  end.

Definition parse_message (s : bytes) : option (list bytes * HttpHeaderMap * bytes) :=
  '(l, r) ← split_line s;
  '(fs, body) ← parse_fields (S (length r)) r;
  Some (SplitString (chomp l) 32, fs, body).

(** The values of the fields with a name, whatever its case. *)
Definition field_values (fields : HttpHeaderMap) (lower : bytes) : list bytes :=
  map snd (List.filter (fun f => bytes_eqb (ToLowerAscii (fst f)) lower) fields).

Definition received (fields : HttpHeaderMap) : HttpHeaderMap :=
  map (fun f => (fst f, trim_blanks (snd f))) fields.

Definition render_fields (fields : HttpHeaderMap) : bytes :=
  concat (map (fun f => fst f ++ str ": " ++ snd f ++ CRLF) fields).

Definition field_safe (f : bytes * bytes) : Prop :=
  IsToken (fst f) = true /\ IsSafeHeaderValue (snd f) = true.

(** *** Lemmas *)

Lemma bytes_eqb_true a b : bytes_eqb a b = true <-> a = b.
Proof. unfold bytes_eqb. apply bool_decide_eq_true. Qed.

Lemma bytes_eqb_false a b : bytes_eqb a b = false <-> a <> b.
Proof. unfold bytes_eqb. apply bool_decide_eq_false. Qed.

Definition no_newline (s : bytes) : Prop := Forall (fun c => c <> 13 /\ c <> 10) s.

Lemma split_line_app s r : Forall (fun c => c <> 10) s -> split_line (s ++ 10 :: r) = Some (s, r).
Proof.
  induction 1 as [|c s Hc H IH]; cbn [split_line app]; [done|].
  rewrite (proj2 (Z.eqb_neq c 10) Hc), IH. done.
Qed.

Lemma chomp_app s : chomp (s ++ [13]) = s.
Proof.
  induction s as [|c s IH]; [done|]. cbn [app chomp].
  destruct (s ++ [13]) eqn:E; [destruct s; discriminate|]. rewrite IH. done.
Qed.

Lemma split_line_CRLF s r : no_newline s -> split_line (s ++ CRLF ++ r) = Some (s ++ [13], r).
Proof.
  intros H. unfold CRLF. cbn [app]. change (s ++ 13 :: 10 :: r) with (s ++ [13] ++ 10 :: r).
  rewrite app_assoc. apply split_line_app. apply Forall_app. split.
  - eapply Forall_impl; [exact H|]. intros c [? ?]. done.
  - repeat constructor. lia.
Qed.

Lemma find_char_app c s r : Forall (fun x => x <> c) s -> find_char c (s ++ c :: r) = Some (zlen s).
Proof.
  induction 1 as [|x s Hx H IH]; cbn [find_char app].
  - rewrite Z.eqb_refl. done.
  - rewrite (proj2 (Z.eqb_neq x c) Hx), IH. cbn. rewrite zlen_cons. f_equal. lia.
Qed.

Lemma find_char_None c s : find_char c s = None <-> Forall (fun x => x <> c) s.
Proof.
  induction s as [|x s IH]; cbn [find_char]; [split; auto|].
  zcase_on (x =? c).
  - split; [discriminate|]. inversion 1; lia.
  - destruct (find_char c s); cbn; split; intros H; try discriminate; [|constructor; [lia|by apply IH]|done].
    inversion H as [|?? ? H']; subst. apply IH in H'. discriminate.
Qed.

Lemma find_char_Some c s n : find_char c s = Some n ->
  s = ztake n s ++ c :: zdrop (n + 1) s /\ Forall (fun x => x <> c) (ztake n s) /\ 0 <= n < zlen s.
Proof.
  revert n. induction s as [|x s IH]; cbn [find_char]; intros n; [discriminate|].
  zcase_on (x =? c).
  - intros [= <-]. subst x. rewrite zlen_cons. pose proof (zlen_nonneg s).
    split_and!; try done; lia.
  - destruct (find_char c s) as [m|] eqn:E; cbn; [|discriminate]. intros [= <-].
    destruct (IH m eq_refl) as (H1 & H2 & H3). rewrite zlen_cons.
    unfold ztake, zdrop in *. rewrite Z2Nat.inj_succ by lia.
    replace (Z.to_nat (Z.succ m + 1)) with (S (Z.to_nat (m + 1))) by lia. cbn [take drop app].
    split_and!; [by rewrite <- H1|constructor; [lia|done]|lia|lia].
Qed.

Lemma IsSafeHeaderValue_spec v : IsSafeHeaderValue v = true <-> Forall (fun c => c <> 13 /\ c <> 10 /\ c <> 0) v.
Proof.
  unfold IsSafeHeaderValue. rewrite forallb_forall, Forall_forall. split; intros H c Hc.
  - apply list_elem_of_In in Hc. specialize (H c Hc). lia.
  - apply list_elem_of_In in Hc. specialize (H c Hc). lia.
Qed.

Lemma IsSafeRequestPart_spec v :
  IsSafeRequestPart v = true <-> Forall (fun c => 0x20 < c /\ c <> 0x7f) v.
Proof.
  unfold IsSafeRequestPart. rewrite forallb_forall, Forall_forall. split; intros H c Hc.
  - apply list_elem_of_In in Hc. specialize (H c Hc). lia.
  - apply list_elem_of_In in Hc. specialize (H c Hc). lia.
Qed.

Lemma IsTokenChar_range c : IsTokenChar c = true -> 0x20 < c /\ c <> 58 /\ c <> 0x7f.
Proof.
  unfold IsTokenChar. destruct (_ || _) eqn:E; [lia|].
  intros H. apply existsb_exists in H as (x & Hx & E'). apply Z.eqb_eq in E'. subst x. clear E.
  cbn in Hx. repeat (destruct Hx as [<-|Hx]; [lia|]). done.
Qed.

Lemma IsToken_spec s : IsToken s = true -> s <> [] /\ Forall (fun c => 0x20 < c /\ c <> 58 /\ c <> 0x7f) s.
Proof.
  unfold IsToken. rewrite andb_true_iff, negb_true_iff, bytes_eqb_false. intros [H1 H2]. split; [done|].
  apply Forall_forall. intros c Hc. apply IsTokenChar_range. rewrite forallb_forall in H2.
  apply H2. by apply list_elem_of_In.
Qed.

Lemma safe_value_no_newline v : IsSafeHeaderValue v = true -> no_newline v.
Proof. intros H. apply IsSafeHeaderValue_spec in H. eapply Forall_impl; [exact H|]. cbn. lia. Qed.

Lemma safe_part_no_newline v : IsSafeRequestPart v = true -> no_newline v.
Proof. intros H. apply IsSafeRequestPart_spec in H. eapply Forall_impl; [exact H|]. cbn. lia. Qed.

Lemma token_no_newline v : IsToken v = true -> no_newline v.
Proof. intros H. apply IsToken_spec in H as [_ H]. eapply Forall_impl; [exact H|]. cbn. lia. Qed.

#[local] Hint Resolve safe_value_no_newline safe_part_no_newline token_no_newline : core.

Lemma no_newline_app a b : no_newline (a ++ b) <-> no_newline a /\ no_newline b.
Proof. apply Forall_app. Qed.

Lemma no_newline_dec s : forallb (fun c => negb ((c =? 13) || (c =? 10))) s = true -> no_newline s.
Proof.
  intros H. apply Forall_forall. intros c Hc. apply list_elem_of_In in Hc.
  rewrite forallb_forall in H. specialize (H c Hc). lia.
Qed.

Lemma skip_blanks_space v : skip_blanks (32 :: v) = skip_blanks v.
Proof. done. Qed.

Lemma trim_blanks_space v : trim_blanks (32 :: v) = trim_blanks v.
Proof. done. Qed.

Lemma parse_field_render k v : IsToken k = true -> parse_field (k ++ str ": " ++ v) = Some (k, trim_blanks v).
Proof.
  intros H. apply IsToken_spec in H as [_ H]. unfold parse_field.
  change (k ++ str ": " ++ v) with (k ++ 58 :: 32 :: v).
  rewrite find_char_app by (eapply Forall_impl; [exact H|cbn; lia]). cbn [mbind option_bind].
  rewrite ztake_app_exact by done. change (58 :: 32 :: v) with ([58] ++ 32 :: v).
  rewrite app_assoc, zdrop_app_exact by (rewrite zlen_app; done).
  rewrite trim_blanks_space. done.
Qed.

(** Reading the rendered fields gives the fields back. *)
Lemma parse_fields_render fields body fuel :
  Forall field_safe fields -> (length fields < fuel)%nat ->
  parse_fields fuel (render_fields fields ++ CRLF ++ body) = Some (received fields, body).
Proof.
  intros H. revert fuel. induction H as [|[k v] fields [Hk Hv] H IH]; intros [|fuel] Hf; try (cbn in Hf; lia).
  - cbn [parse_fields]. change (render_fields [] ++ CRLF ++ body) with ([] ++ CRLF ++ body).
    rewrite (split_line_CRLF [] body) by constructor. done.
  - cbn [fst snd] in *. unfold render_fields. cbn [map concat fst snd].
    fold (render_fields fields).
    assert (Hn : no_newline (k ++ str ": " ++ v)).
    { rewrite !no_newline_app. split_and!; auto; by apply no_newline_dec. }
    replace (((k ++ str ": " ++ v ++ CRLF) ++ render_fields fields) ++ CRLF ++ body)
      with ((k ++ str ": " ++ v) ++ CRLF ++ (render_fields fields ++ CRLF ++ body)) by (by rewrite <- !app_assoc).
    cbn [parse_fields]. rewrite split_line_CRLF by done. cbn [mbind option_bind].
    rewrite chomp_app. pose proof (parse_field_render k v Hk) as Hp.
    destruct (k ++ str ": " ++ v) as [|c l] eqn:E; [destruct k; discriminate|].
    rewrite Hp. cbn [mbind option_bind]. rewrite IH by (cbn in Hf; lia). done.
Qed.

Lemma length_render_fields fields : (length fields <= length (render_fields fields))%nat.
Proof.
  induction fields as [|[k v] fields IH]; [cbn; lia|].
  change (render_fields ((k, v) :: fields)) with ((k ++ str ": " ++ v ++ CRLF) ++ render_fields fields).
  rewrite !length_app. cbn [length]. change (length CRLF) with 2%nat. lia.
Qed.

Lemma SplitString_words3 a b c :
  Forall (fun x => x <> 32) a -> Forall (fun x => x <> 32) b -> Forall (fun x => x <> 32) c ->
  SplitString (a ++ str " " ++ b ++ str " " ++ c) 32 = [a; b; c].
Proof.
  intros Ha Hb Hc. rewrite SplitString_ref.
  change (a ++ str " " ++ b ++ str " " ++ c) with (join_with 32 [a; b; c]).
  apply split_ref_join; [discriminate|]. repeat constructor; done.
Qed.

(** A start line, fields and a body as the builders write them. *)
Lemma parse_message_render method target fields body :
  IsToken method = true -> IsSafeRequestPart target = true -> Forall field_safe fields ->
  parse_message (method ++ str " " ++ target ++ str " HTTP/1.1" ++ CRLF ++ render_fields fields ++ CRLF ++ body)
  = Some ([method; target; str "HTTP/1.1"], received fields, body).
Proof.
  intros Hm Ht Hf. unfold parse_message.
  replace (method ++ str " " ++ target ++ str " HTTP/1.1" ++ CRLF ++ render_fields fields ++ CRLF ++ body)
    with ((method ++ str " " ++ target ++ str " " ++ str "HTTP/1.1") ++ CRLF ++ render_fields fields ++ CRLF ++ body)
    by (rewrite <- !app_assoc; done).
  rewrite split_line_CRLF.
  2: { rewrite !no_newline_app. split_and!; auto; by apply no_newline_dec. }
  cbn [mbind option_bind]. rewrite chomp_app, parse_fields_render; [|done|].
  2: { rewrite !length_app. pose proof (length_render_fields fields). lia. }
  cbn [mbind option_bind]. do 3 f_equal. apply SplitString_words3.
  - apply IsToken_spec in Hm as [_ Hm]. eapply Forall_impl; [exact Hm|cbn; lia].
  - apply IsSafeRequestPart_spec in Ht. eapply Forall_impl; [exact Ht|cbn; lia].
  - repeat (constructor; [discriminate|]). constructor.
Qed.

(** *** What the builders write *)

Definition kept (reserved : bytes -> bool) (headers : HttpHeaderMap) : HttpHeaderMap :=
  List.filter (fun f => negb (reserved (ToLowerAscii (fst f)))) headers.

Lemma render_fields_app a b : render_fields (a ++ b) = render_fields a ++ render_fields b.
Proof. unfold render_fields. rewrite map_app, concat_app. done. Qed.

Lemma write_headers_kept reserved headers out :
  write_headers reserved headers out = out ++ render_fields (kept reserved headers).
Proof.
  revert out. induction headers as [|[k v] headers IH]; intros out; cbn [write_headers kept List.filter fst].
  - unfold render_fields. cbn. by rewrite app_nil_r.
  - rewrite IH. fold (kept reserved headers). destruct (reserved (ToLowerAscii k)); cbn [negb]; [done|].
    change (render_fields ((k, v) :: kept reserved headers))
      with ((k ++ str ": " ++ v ++ CRLF) ++ render_fields (kept reserved headers)).
    rewrite <- !app_assoc. done.
Qed.

Lemma check_headers_None headers : check_headers headers = None <-> Forall field_safe headers.
Proof.
  induction headers as [|[k v] headers IH]; cbn [check_headers]; [by split|].
  unfold field_safe at 1. rewrite Forall_cons, <- IH. cbn [fst snd].
  destruct (IsToken k), (IsSafeHeaderValue v); cbn [negb]; intuition discriminate.
Qed.

Lemma field_values_app a b l : field_values (a ++ b) l = field_values a l ++ field_values b l.
Proof. unfold field_values. rewrite List.filter_app, map_app. done. Qed.

Lemma field_values_received fields l : field_values (received fields) l = map trim_blanks (field_values fields l).
Proof.
  unfold field_values, received. induction fields as [|[k v] fields IH]; [done|].
  cbn [map List.filter fst]. destruct (bytes_eqb (ToLowerAscii k) l); cbn [map snd]; by rewrite IH.
Qed.

Lemma field_values_kept reserved headers l :
  field_values (kept reserved headers) l = if reserved l then [] else field_values headers l.
Proof.
  unfold field_values, kept. induction headers as [|[k v] headers IH]; cbn [List.filter fst].
  - by destruct (reserved l).
  - destruct (bytes_eqb (ToLowerAscii k) l) eqn:E.
    + apply bytes_eqb_true in E. subst l.
      destruct (reserved (ToLowerAscii k)) eqn:R; cbn [negb List.filter fst]; rewrite ?R in *.
      * done.
      * rewrite (proj2 (bytes_eqb_true _ _) eq_refl). cbn [map snd]. by rewrite IH.
    + destruct (reserved (ToLowerAscii k)) eqn:R; cbn [negb List.filter fst]; rewrite ?E; done.
Qed.

Lemma FindHeaderCI_None headers l : FindHeaderCI headers l = None <-> field_values headers l = [].
Proof.
  unfold FindHeaderCI, field_values. induction headers as [|[k v] headers IH]; [by split|].
  cbn [List.find List.filter fst]. destruct (bytes_eqb (ToLowerAscii k) l); cbn; [split; discriminate|done].
Qed.

Lemma field_safe_kept reserved headers : Forall field_safe headers -> Forall field_safe (kept reserved headers).
Proof.
  unfold kept. induction 1 as [|f headers Hf H IH]; cbn [List.filter]; [constructor|].
  destruct (negb _); [by constructor|done].
Qed.

Lemma dec_text_safe z : 0 <= z -> IsSafeHeaderValue (dec_text z) = true.
Proof.
  intros H. apply IsSafeHeaderValue_spec. eapply Forall_impl; [apply dec_text_range; done|]. cbn. lia.
Qed.

(** *** A request *)

Definition request_ok (req : HttpRequest) (parts : HttpUrlParts) : Prop :=
  IsToken (request_method req) = true /\
  u_target parts <> [] /\ IsSafeRequestPart (u_target parts) = true /\
  Forall field_safe (rq_headers req) /\
  request_host req parts <> [] /\ IsSafeHeaderValue (request_host req parts) = true.

Definition sends_length (req : HttpRequest) : bool :=
  negb (bytes_eqb (rq_body req) []) || MethodExpectsBody (ToUpperAscii (request_method req)).

(** The fields of a request, in order. *)
Definition request_fields (req : HttpRequest) (parts : HttpUrlParts) (keepAlive : bool) : HttpHeaderMap :=
  [(str "Host", request_host req parts)]
  ++ (if bool_decide (FindHeaderCI (rq_headers req) (str "user-agent") = None)
      then [(str "User-Agent", str "ttsignal/1.0")] else [])
  ++ (if sends_length req then [(str "Content-Length", dec_text (zlen (rq_body req)))] else [])
  ++ (if negb keepAlive then [(str "Connection", str "close")] else [])
  ++ kept request_reserved (rq_headers req).

Lemma render_field k v : render_fields [(k, v)] = k ++ str ": " ++ v ++ CRLF.
Proof. unfold render_fields. cbn [map concat fst snd]. by rewrite app_nil_r. Qed.

Lemma BuildRequestText_text req parts keepAlive :
  match BuildRequestText req parts keepAlive with
  | inl _ => ~ request_ok req parts
  | inr text =>
      request_ok req parts /\
      text = request_method req ++ str " " ++ u_target parts ++ str " HTTP/1.1" ++ CRLF
             ++ render_fields (request_fields req parts keepAlive) ++ CRLF ++ rq_body req
  end.
Proof.
  unfold BuildRequestText, request_ok. cbv zeta.
  destruct (IsToken (request_method req)); cbn [negb]; [|intuition discriminate].
  destruct (bytes_eqb (u_target parts) []) eqn:E1; cbn [orb].
  { apply bytes_eqb_true in E1. intuition. }
  apply bytes_eqb_false in E1.
  destruct (IsSafeRequestPart (u_target parts)); cbn [negb]; [|intuition discriminate].
  destruct (check_headers (rq_headers req)) eqn:E2.
  { rewrite <- check_headers_None. intuition congruence. }
  apply check_headers_None in E2.
  destruct (bytes_eqb (request_host req parts) []) eqn:E3; cbn [orb].
  { apply bytes_eqb_true in E3. intuition. }
  apply bytes_eqb_false in E3.
  destruct (IsSafeHeaderValue (request_host req parts)); cbn [negb]; [|intuition discriminate].
  split; [done|]. rewrite write_headers_kept. unfold request_fields.
  fold (sends_length req). rewrite !render_fields_app, render_field.
  destruct (bool_decide _), (sends_length req), keepAlive; cbn [negb]; rewrite ?render_field;
    rewrite <- ?app_assoc; done.
Qed.

Lemma request_fields_safe req parts keepAlive :
  request_ok req parts -> Forall field_safe (request_fields req parts keepAlive).
Proof.
  intros (Hm & Ht & Hs & Hh & Hn & Hv). unfold request_fields.
  rewrite !Forall_app. split_and!.
  - repeat constructor. done.
  - destruct (bool_decide _); repeat constructor.
  - destruct (sends_length req); repeat constructor. apply dec_text_safe, zlen_nonneg.
  - destruct keepAlive; repeat constructor.
  - by apply field_safe_kept.
Qed.

(** *** URLs *)

Definition host_in_header (bracketed : bool) (host : bytes) : bytes :=
  if bracketed then str "[" ++ host ++ str "]" else host.

Definition default_port (scheme : bytes) : Z := if bytes_eqb scheme (str "https") then 443 else 80.

(** What the parts of a URL always are. *)
Record url_ok (bracketed : bool) (p : HttpUrlParts) : Prop := {
  ok_scheme : u_scheme p = str "http" \/ u_scheme p = str "https";
  ok_tls : u_tls p = bytes_eqb (u_scheme p) (str "https");
  ok_host : u_host p <> [] /\ IsSafeRequestPart (u_host p) = true;
  ok_authority : Forall (fun c => ends_authority c = false /\ c <> 64) (u_host p);
  ok_bracket : if bracketed then Forall (fun c => c <> 93) (u_host p)
               else Forall (fun c => c <> 58) (u_host p) /\ head (u_host p) <> Some 91;
  ok_port : 0 < u_port p < 65536;
  ok_header : u_hostHeader p = host_in_header bracketed (u_host p) ++
                (if negb (u_port p =? default_port (u_scheme p)) then str ":" ++ dec_text (u_port p) else []);
  ok_target : IsSafeRequestPart (u_target p) = true /\ head (u_target p) = Some 47 /\
              Forall (fun c => c <> 35) (u_target p)
}.

Lemma split_authority_spec s a r : split_authority s = (a, r) ->
  s = a ++ r /\ Forall (fun c => ends_authority c = false) a.
Proof.
  revert a r. induction s as [|c s IH]; cbn [split_authority]; intros a r.
  - intros [= <- <-]. done.
  - destruct (ends_authority c) eqn:E.
    + intros [= <- <-]. done.
    + destruct (split_authority s) as [a' r'] eqn:E'. intros [= <- <-].
      destruct (IH a' r' eq_refl) as [-> H]. split; [done|by constructor].
Qed.

Lemma split_authority_app a r :
  Forall (fun c => ends_authority c = false) a -> (head r = Some 47) ->
  split_authority (a ++ r) = (a, r).
Proof.
  intros H Hr. induction H as [|c a Hc H IH]; cbn [app split_authority].
  - destruct r as [|c r]; [discriminate|]. injection Hr as ->. done.
  - rewrite Hc, IH. done.
Qed.

(** The text of an authority with a host and the text of a port. *)
Lemma split_host_port_spec authority br h p : split_host_port authority = inr (br, h, p) ->
  exists tail, authority = host_in_header br h ++ tail /\ h <> [] /\
    (tail = [] /\ p = [] \/ tail = 58 :: p) /\
    (if br then Forall (fun c => c <> 93) h
     else Forall (fun c => c <> 58) h /\ head h <> Some 91).
Proof.
  unfold split_host_port.
  assert (Hplain : head authority <> Some 91 ->
    (let '(hostPart, portPart) :=
        match find_char 58 authority with
        | None => (authority, [])
        | Some n => (ztake n authority, zdrop (n + 1) authority)
        end in
      if bytes_eqb hostPart [] || bool_decide (is_Some (find_char 58 portPart)) then inl BadHost
      else inr (false, hostPart, portPart)) = inr (br, h, p) ->
    exists tail, authority = host_in_header br h ++ tail /\ h <> [] /\
      (tail = [] /\ p = [] \/ tail = 58 :: p) /\
      (if br then Forall (fun c => c <> 93) h else Forall (fun c => c <> 58) h /\ head h <> Some 91)).
  { intros Hh. destruct (find_char 58 authority) as [n|] eqn:E; cbv zeta beta iota.
    - destruct (bytes_eqb (ztake n authority) []) eqn:E1; cbn [orb]; [discriminate|].
      destruct (bool_decide _); [discriminate|]. intros [= <- <- <-].
      apply bytes_eqb_false in E1. apply find_char_Some in E as (H1 & H2 & _).
      eexists. split_and!; [exact H1|done|by right|done|].
      destruct (ztake n authority) eqn:E2; [done|]. rewrite H1 in Hh. done.
    - destruct (bytes_eqb authority []) eqn:E1; cbn [orb]; [discriminate|].
      destruct (bool_decide _); [discriminate|]. intros [= <- <- <-].
      apply bytes_eqb_false in E1. apply find_char_None in E.
      exists []. rewrite app_nil_r. split_and!; [done|done|by left|done|done]. }
  destruct authority as [|c rest]; [by apply Hplain|].
  destruct (Z.eq_dec c 91) as [->|Hc].
  2: { assert (Hh : head (c :: rest) <> Some 91) by (cbn; congruence). specialize (Hplain Hh). clear Hh.
       destruct c as [|c|c]; try exact Hplain. do 7 (try (destruct c as [c|c|]; try exact Hplain)). done. }
  clear Hplain. destruct (find_char 93 rest) as [n|] eqn:E; [|discriminate].
  zcase_on (n =? 0); [discriminate|]. apply find_char_Some in E as (H1 & H2 & H3).
  assert (Hne : ztake n rest <> []).
  { intros H0. apply (f_equal zlen) in H0. rewrite zlen_ztake in H0 by lia. rewrite zlen_nil in H0. lia. }
  destruct (zdrop (n + 1) rest) as [|c port] eqn:E2.
  - intros [= <- <- <-]. exists []. split_and!; try done; [|by left].
    unfold host_in_header. rewrite app_nil_r. rewrite H1 at 1. done.
  - zcase_on (c =? 58); [|discriminate]. subst c. intros [= <- <- <-].
    exists (58 :: port). split_and!; try done; [|by right].
    unfold host_in_header. rewrite H1 at 1. cbn. f_equal. rewrite <- app_assoc. done.
Qed.

Lemma split_host_port_render br h p :
  h <> [] -> Forall (fun c => c <> 58) p ->
  (if br : bool then Forall (fun c => c <> 93) h else Forall (fun c => c <> 58) h /\ head h <> Some 91) ->
  split_host_port (host_in_header br h ++ (if bytes_eqb p [] then [] else 58 :: p)) = inr (br, h, p).
Proof.
  intros Hh Hp Hb. destruct br; cbn [host_in_header].
  - set (tail := if bytes_eqb p [] then [] else 58 :: p).
    replace ((str "[" ++ h ++ str "]") ++ tail) with (91 :: h ++ 93 :: tail) by (cbn; by rewrite <- app_assoc).
    cbn [split_host_port]. rewrite find_char_app by done.
    destruct (Z.eqb_spec (zlen h) 0) as [H0|_]. { apply zlen_0_nil in H0. done. }
    rewrite ztake_app_exact by done. change (h ++ 93 :: tail) with (h ++ [93] ++ tail).
    rewrite app_assoc, zdrop_app_exact by (rewrite zlen_app; done).
    unfold tail. destruct (bytes_eqb p []) eqn:E; [apply bytes_eqb_true in E; by subst p|done].
  - destruct Hb as [Hb Hd]. unfold split_host_port.
    destruct h as [|c h]; [done|]. cbn [app].
    assert (Hc : c <> 91) by (cbn in Hd; congruence).
    set (tail := if bytes_eqb p [] then [] else 58 :: p).
    assert (Hgoal : (let '(hostPart, portPart) :=
        match find_char 58 (c :: h ++ tail) with
        | None => (c :: h ++ tail, [])
        | Some n => (ztake n (c :: h ++ tail), zdrop (n + 1) (c :: h ++ tail))
        end in
      if bytes_eqb hostPart [] || bool_decide (is_Some (find_char 58 portPart)) then inl BadHost
      else inr (false, hostPart, portPart)) = inr (false, c :: h, p)).
    { apply find_char_None in Hp. unfold tail. destruct (bytes_eqb p []) eqn:E.
      - apply bytes_eqb_true in E. subst p. rewrite app_nil_r.
        rewrite (proj2 (find_char_None _ _) Hb). done.
      - change (c :: h ++ 58 :: p) with ((c :: h) ++ 58 :: p). rewrite find_char_app by done.
        rewrite ztake_app_exact by done. change ((c :: h) ++ 58 :: p) with ((c :: h) ++ [58] ++ p).
        rewrite app_assoc, zdrop_app_exact by (rewrite zlen_app; done).
        rewrite Hp. done. }
    destruct c as [|c|c]; try exact Hgoal. do 7 (try (destruct c as [c|c|]; try exact Hgoal)). done.
Qed.

Lemma port_value_fold s v : Forall (fun c => 48 <= c < 58) s ->
  port_value v s = Some (fold_left (fun acc c => acc * 10 + (c - 48)) s v).
Proof.
  intros H. revert v. induction H as [|c s Hc H IH]; intros v; cbn [port_value fold_left]; [done|].
  destruct ((c <? 48) || (57 <? c)) eqn:E; [lia|]. apply IH.
Qed.

Lemma parse_port_range p d n : 0 < d < 65536 -> parse_port p d = inr n -> 0 < n < 65536.
Proof.
  intros Hd. unfold parse_port. destruct (bytes_eqb p []); [by intros [= <-]|].
  destruct (5 <? zlen p); [discriminate|]. destruct (port_value 0 p) as [v|] eqn:E; [|discriminate].
  destruct ((v =? 0) || (65535 <? v)) eqn:E2; [discriminate|]. intros [= <-].
  assert (0 <= v).
  { assert (H : forall s a b, 0 <= a -> port_value a s = Some b -> 0 <= b).
    { induction s as [|c s IH]; cbn; intros a b Ha; [intros [= <-]; done|].
      destruct ((c <? 48) || (57 <? c)) eqn:E'; [discriminate|]. apply IH. lia. }
    by apply (H p 0 v). }
  rewrite u16_small; lia.
Qed.

Lemma parse_port_dec n d : 0 < n < 65536 -> parse_port (dec_text n) d = inr n.
Proof.
  intros Hn. unfold parse_port.
  assert (Hv : dec_val (dec_text n) = n) by (apply dec_val_dec_text; lia).
  destruct (bytes_eqb (dec_text n) []) eqn:E.
  { apply bytes_eqb_true in E. rewrite E in Hv. cbn in Hv. lia. }
  assert (Hl : zlen (dec_text n) <= 5).
  { apply (dec_text_length 5); [|lia]. change (10 ^ Z.of_nat 5) with 100000. lia. }
  destruct (5 <? zlen (dec_text n)) eqn:E2; [lia|].
  rewrite port_value_fold by (apply dec_text_range; lia).
  fold (dec_val (dec_text n)). rewrite Hv.
  destruct ((n =? 0) || (65535 <? n)) eqn:E3; [lia|]. rewrite u16_small by lia. done.
Qed.

Lemma Forall_ztake {A} (P : A -> Prop) k l : Forall P l -> Forall P (ztake k l).
Proof. intros H. unfold ztake. by apply Forall_take. Qed.

Lemma request_target_ok rest :
  IsSafeRequestPart (request_target rest) = true ->
  (rest = [] \/ exists c r, rest = c :: r /\ ends_authority c = true) ->
  head (request_target rest) = Some 47 /\ Forall (fun c => c <> 35) (request_target rest).
Proof.
  intros Hs Hr. unfold request_target in *. destruct Hr as [->|(c & r & -> & Hc)]; [by repeat constructor|].
  destruct (Z.eqb_spec c 35) as [->|Hc35]; [by repeat constructor|].
  assert (Ht : exists t, match find_char 35 (c :: r) with Some n => ztake n (c :: r) | None => c :: r end = c :: t
                         /\ Forall (fun c => c <> 35) (c :: t)).
  { destruct (find_char 35 (c :: r)) as [n|] eqn:E.
    - apply find_char_Some in E as (H1 & H2 & H3). destruct (ztake n (c :: r)) as [|c' t] eqn:E2.
      + cbn in H1. injection H1 as ??. lia.
      + cbn [app] in H1. injection H1 as ??. subst c'. by exists t.
    - apply find_char_None in E. by exists r. }
  destruct Ht as (t & -> & Ht). unfold ends_authority in Hc.
  rewrite !orb_true_iff, !Z.eqb_eq in Hc.
  assert (Hc2 : c = 47 \/ c = 63) by lia. destruct Hc2 as [->| ->].
  - done.
  - split; [done|]. by apply (Forall_cons_2 (fun c => c <> 35) 47).
Qed.

Lemma request_target_id t : head t = Some 47 -> Forall (fun c => c <> 35) t -> request_target t = t.
Proof.
  intros Hh Ht. destruct t as [|c t]; [discriminate|]. injection Hh as ->.
  unfold request_target. cbn [Z.eqb Pos.eqb]. rewrite (proj2 (find_char_None _ _) Ht). done.
Qed.

Lemma split_authority_rest s a r : split_authority s = (a, r) ->
  r = [] \/ exists c r', r = c :: r' /\ ends_authority c = true.
Proof.
  revert a r. induction s as [|c s IH]; cbn [split_authority]; intros a r.
  - intros [= <- <-]. by left.
  - destruct (ends_authority c) eqn:E.
    + intros [= <- <-]. right. by eexists _, _.
    + destruct (split_authority s) as [a' r'] eqn:E'. intros [= <- <-]. by eapply IH.
Qed.

Lemma host_chars br h tail :
  Forall (fun c => ends_authority c = false) (host_in_header br h ++ tail) ->
  bool_decide (is_Some (find_char 64 (host_in_header br h ++ tail))) = false ->
  Forall (fun c => ends_authority c = false /\ c <> 64) h.
Proof.
  intros Ha H. apply bool_decide_eq_false in H. rewrite <- eq_None_not_Some, find_char_None in H.
  assert (Hb : Forall (fun c => ends_authority c = false /\ c <> 64) (host_in_header br h ++ tail))
    by (apply Forall_and; done).
  apply Forall_app in Hb as [Hb _]. destruct br; [|done]. unfold host_in_header in Hb.
  apply Forall_app in Hb as [_ Hb]. by apply Forall_app in Hb as [Hb _].
Qed.

Lemma parse_after_scheme_ok scheme url p : scheme = str "http" \/ scheme = str "https" ->
  parse_after_scheme scheme url = inr p -> u_scheme p = scheme /\ exists br, url_ok br p.
Proof.
  intros Hs. unfold parse_after_scheme. cbv zeta.
  destruct (split_authority url) as [authority rest] eqn:E3.
  destruct (bytes_eqb authority []); [discriminate|].
  destruct (bool_decide (is_Some (find_char 64 authority))) eqn:E4; [discriminate|].
  destruct (split_host_port authority) as [|[[br h] port_text]] eqn:E5; [discriminate|].
  destruct (bytes_eqb h [] || negb (IsSafeRequestPart h)) eqn:E6; [discriminate|].
  destruct (parse_port _ _) as [|port] eqn:E7; [discriminate|].
  destruct (IsSafeRequestPart (request_target rest)) eqn:E8; cbn [negb]; [|discriminate].
  intros [= <-]. split; [done|]. exists br.
  apply orb_false_iff in E6 as [E6 E6']; apply bytes_eqb_false in E6; apply negb_false_iff in E6'.
  pose proof (split_authority_rest _ _ _ E3) as Hr; apply split_authority_spec in E3 as [_ Ha].
  apply split_host_port_spec in E5 as (tail & -> & Hh & _ & Hb).
  destruct (request_target_ok rest E8 Hr) as [Ht1 Ht2].
  apply parse_port_range in E7; [|destruct (bytes_eqb _ _); lia].
  pose proof (host_chars br h tail Ha E4) as Hc.
  constructor; cbn [u_scheme u_host u_hostHeader u_port u_target u_tls]; try done.
  unfold default_port, host_in_header. destruct br, (negb (port =? _)); rewrite ?app_nil_r; done.
Qed.

Lemma HttpParseUrl_ok url p : HttpParseUrl url = inr p -> exists br, url_ok br p.
Proof.
  unfold HttpParseUrl. destruct (find_str _ url) as [n|]; [|discriminate].
  destruct (n =? 0); [discriminate|]. cbv zeta.
  set (scheme := ToLowerAscii _). clearbody scheme.
  destruct (bytes_eqb scheme (str "http")) eqn:E1, (bytes_eqb scheme (str "https")) eqn:E2; cbn [negb andb];
    try discriminate.
  all: intros H; apply parse_after_scheme_ok in H as [_ H]; [done|].
  all: rewrite ?bytes_eqb_true in *; auto.
Qed.

Lemma HttpParseUrl_scheme scheme rest : scheme = str "http" \/ scheme = str "https" ->
  HttpParseUrl (scheme ++ str "://" ++ rest) = parse_after_scheme scheme rest.
Proof. intros [-> | ->]; done. Qed.

(** The parts of a URL, written out again, parse to themselves. *)
Lemma HttpParseUrl_render br p : url_ok br p ->
  HttpParseUrl (u_scheme p ++ str "://" ++ u_hostHeader p ++ u_target p) = inr p.
Proof.
  destruct p as [scheme host header port target tls]. intros [Hs Htl [Hh Hh'] Hc Hb Hp Hhd (Ht & Ht1 & Ht2)].
  cbn [u_scheme u_host u_hostHeader u_port u_target u_tls] in *. subst tls header.
  set (port_text := if negb (port =? default_port scheme) then dec_text port else []).
  assert (Hd : Forall (fun c => 48 <= c < 58) port_text).
  { unfold port_text. destruct (negb _); [apply dec_text_range; lia|constructor]. }
  set (authority := host_in_header br host ++ (if bytes_eqb port_text [] then [] else 58 :: port_text)).
  assert (Ha : host_in_header br host ++
      (if negb (port =? default_port scheme) then str ":" ++ dec_text port else []) = authority).
  { unfold authority, port_text. destruct (negb (port =? default_port scheme)); [|done].
    destruct (bytes_eqb (dec_text port) []) eqn:E; [|done]. apply bytes_eqb_true in E.
    assert (Hv : dec_val (dec_text port) = port) by (apply dec_val_dec_text; lia).
    rewrite E in Hv. cbn in Hv. lia. }
  assert (Hac : Forall (fun c => ends_authority c = false /\ c <> 64) authority).
  { unfold authority. apply Forall_app. split.
    - destruct br; [|done]. unfold host_in_header. apply Forall_app. split; [by repeat constructor|].
      apply Forall_app. split; [done|by repeat constructor].
    - destruct (bytes_eqb port_text []); constructor; [done|]. eapply Forall_impl; [exact Hd|].
      intros c Hcc. cbv beta in Hcc. unfold ends_authority. lia. }
  assert (Hne : authority <> []).
  { unfold authority. destruct br; [discriminate|]. destruct host; [done|discriminate]. }
  rewrite Ha.
  assert (Hport : parse_port port_text (default_port scheme) = inr port).
  { unfold port_text. destruct (Z.eqb_spec port (default_port scheme)) as [<-|]; cbn [negb]; [done|].
    by apply parse_port_dec. }
  assert (Hshp : split_host_port authority = inr (br, host, port_text)).
  { apply split_host_port_render; [done| |done]. eapply Forall_impl; [exact Hd|cbn; lia]. }
  assert (Hsa : split_authority (authority ++ target) = (authority, target)).
  { apply split_authority_app; [|done]. eapply Forall_impl; [exact Hac|]. by intros ? [? ?]. }
  assert (Hat : bool_decide (is_Some (find_char 64 authority)) = false).
  { rewrite (proj2 (find_char_None 64 authority)); [done|]. eapply Forall_impl; [exact Hac|]. by intros ? [? ?]. }
  clearbody authority.
  rewrite HttpParseUrl_scheme by done. unfold parse_after_scheme. cbv zeta. fold (default_port scheme).
  rewrite Hsa, (proj2 (bytes_eqb_false _ _) Hne), Hat, Hshp, (proj2 (bytes_eqb_false _ _) Hh), Hh'.
  cbn [orb negb]. rewrite Hport, request_target_id, Ht by done. cbn [negb].
  rewrite <- Ha. do 2 f_equal. unfold host_in_header.
  destruct (negb _); rewrite ?app_nil_r; done.
Qed.

Lemma skip_blanks_id s : Forall (fun c => is_blank c = false) s -> skip_blanks s = s.
Proof. destruct 1 as [|c s Hc H]; cbn; [done|]. by rewrite Hc. Qed.

Lemma trim_blanks_id s : Forall (fun c => is_blank c = false) s -> trim_blanks s = s.
Proof.
  intros H. unfold trim_blanks. rewrite (skip_blanks_id s) by done.
  rewrite skip_blanks_id; [apply rev_involutive|].
  apply Forall_forall. intros c Hc. apply list_elem_of_In, in_rev, list_elem_of_In in Hc.
  by apply (proj1 (Forall_forall _ _) H).
Qed.

Lemma trim_blanks_safe s : IsSafeRequestPart s = true -> trim_blanks s = s.
Proof.
  intros H. apply trim_blanks_id. apply IsSafeRequestPart_spec in H. eapply Forall_impl; [exact H|].
  intros c Hc. cbv beta in Hc. unfold is_blank. lia.
Qed.

Lemma safe_part_app a b : IsSafeRequestPart (a ++ b) = IsSafeRequestPart a && IsSafeRequestPart b.
Proof. apply forallb_app. Qed.

Lemma url_ok_header br p : url_ok br p ->
  u_hostHeader p <> [] /\ IsSafeRequestPart (u_hostHeader p) = true /\ IsSafeHeaderValue (u_hostHeader p) = true.
Proof.
  intros [_ _ [Hh Hs] _ _ Hp -> _].
  assert (Hd : IsSafeRequestPart (dec_text (u_port p)) = true).
  { apply IsSafeRequestPart_spec. eapply Forall_impl; [apply dec_text_range; lia|]. cbn. lia. }
  assert (H : IsSafeRequestPart (host_in_header br (u_host p) ++
     (if negb (u_port p =? default_port (u_scheme p)) then str ":" ++ dec_text (u_port p) else [])) = true).
  { rewrite safe_part_app. apply andb_true_iff. split.
    - destruct br; [|done]. unfold host_in_header. rewrite !safe_part_app, Hs. done.
    - destruct (negb _); [|done]. by rewrite safe_part_app, Hd. }
  split_and!; [|done|].
  - destruct br; [discriminate|]. cbn [host_in_header]. destruct (u_host p); [done|discriminate].
  - apply IsSafeRequestPart_spec in H. apply IsSafeHeaderValue_spec. eapply Forall_impl; [exact H|]. cbn. lia.
Qed.

(** *** The handshake's request *)

Definition http_form (p : HttpUrlParts) : HttpUrlParts :=
  {| u_scheme := if u_tls p then str "https" else str "http"; u_host := u_host p;
     u_hostHeader := u_hostHeader p; u_port := u_port p; u_target := u_target p; u_tls := u_tls p |}.

Lemma starts_with_app pat s : starts_with pat s = true <-> exists r, s = pat ++ r.
Proof.
  unfold starts_with. rewrite bytes_eqb_true. split.
  - intros H. exists (drop (length pat) s). rewrite <- H at 1. by rewrite take_drop.
  - intros [r ->]. by rewrite take_app_length.
Qed.

Lemma find_str_Some pat s n : find_str pat s = Some n -> 0 <= n /\ exists r, zdrop n s = pat ++ r.
Proof.
  revert n. induction s as [|c s IH]; intros n; cbn [find_str].
  - destruct (starts_with pat []) eqn:E; [|discriminate]. intros [= <-]. split; [lia|].
    by apply starts_with_app.
  - destruct (starts_with pat (c :: s)) eqn:E.
    + intros [= <-]. split; [lia|]. by apply starts_with_app.
    + destruct (find_str pat s) as [m|] eqn:E2; cbn; [|discriminate]. intros [= <-].
      destruct (IH m eq_refl) as [Hm Hr]. split; [lia|].
      unfold zdrop in *. rewrite Z2Nat.inj_succ by lia. done.
Qed.

Lemma WSParseUrl_ok url p : WSParseUrl url = inr p ->
  u_scheme p = (if u_tls p then str "wss" else str "ws") /\ exists br, url_ok br (http_form p).
Proof.
  unfold WSParseUrl. destruct (find_str _ url) as [n|] eqn:E; [|discriminate].
  destruct (n =? 0); [discriminate|]. cbv zeta.
  set (scheme := ToLowerAscii _). clearbody scheme.
  apply find_str_Some in E as [_ [r ->]].
  destruct (bytes_eqb scheme (str "ws")) eqn:E1;
    [|destruct (bytes_eqb scheme (str "wss")) eqn:E2; [|discriminate]];
    rewrite HttpParseUrl_scheme by auto;
    destruct (parse_after_scheme _ r) as [|hp] eqn:E3; try discriminate; intros [= <-];
    cbn [u_scheme u_tls]; apply parse_after_scheme_ok in E3 as [Hsch [br Hok]]; auto;
    pose proof (ok_tls br hp Hok) as Ht; rewrite Hsch in Ht;
    [apply bytes_eqb_true in E1|apply bytes_eqb_true in E2]; rewrite Ht; split; auto;
    exists br; destruct hp; cbn in *; subst; exact Hok.
Qed.

Definition handshake_fields (parts : HttpUrlParts) (secKey : bytes) (extraHeaders : HttpHeaderMap) : HttpHeaderMap :=
  [(str "Host", u_hostHeader parts); (str "Upgrade", str "websocket"); (str "Connection", str "Upgrade");
   (str "Sec-WebSocket-Key", secKey); (str "Sec-WebSocket-Version", str "13")]
  ++ (if existsb (fun '(k, _) => bytes_eqb (ToLowerAscii k) (str "user-agent")) extraHeaders
      then [] else [(str "User-Agent", str "ttsignal/1.0")])
  ++ kept handshake_reserved extraHeaders.

Lemma BuildHandshakeRequest_text parts secKey extra :
  u_target parts <> [] -> u_hostHeader parts <> [] -> secKey <> [] ->
  match BuildHandshakeRequest parts secKey extra with
  | inl _ => ~ Forall field_safe extra
  | inr text =>
      Forall field_safe extra /\
      text = str "GET" ++ str " " ++ u_target parts ++ str " HTTP/1.1" ++ CRLF
             ++ render_fields (handshake_fields parts secKey extra) ++ CRLF ++ []
  end.
Proof.
  intros Ht Hh Hk. unfold BuildHandshakeRequest. cbv zeta.
  rewrite (proj2 (bytes_eqb_false _ _) Ht), (proj2 (bytes_eqb_false _ _) Hh),
    (proj2 (bytes_eqb_false _ _) Hk). cbn [orb].
  destruct (check_headers extra) eqn:E.
  { rewrite <- check_headers_None. congruence. }
  apply check_headers_None in E. split; [done|]. rewrite write_headers_kept. unfold handshake_fields.
  rewrite !render_fields_app. destruct (existsb _ extra); cbn [negb];
  (match goal with |- context [render_fields [?a; ?b; ?c; ?d; ?e]] =>
    change (render_fields [a; b; c; d; e])
      with (render_fields ([a] ++ [b] ++ [c] ++ [d] ++ [e])) end);
  rewrite !render_fields_app, !render_field, ?app_nil_r, <- !app_assoc; done.
Qed.

Lemma handshake_fields_safe parts secKey extra :
  IsSafeHeaderValue (u_hostHeader parts) = true -> IsSafeHeaderValue secKey = true ->
  Forall field_safe extra -> Forall field_safe (handshake_fields parts secKey extra).
Proof.
  intros Hh Hk He. unfold handshake_fields. rewrite !Forall_app. split_and!.
  - repeat constructor; done.
  - destruct (existsb _ _); repeat constructor.
  - by apply field_safe_kept.
Qed.

(** *** The answer to the handshake *)

Lemma map_find_set m k v k' : map_find (map_set m k v) k' = if bytes_eqb k k' then Some v else map_find m k'.
Proof.
  induction m as [|[k0 v0] m IH]; cbn [map_set map_find]; [done|].
  destruct (bytes_eqb k0 k) eqn:E1; [|destruct (bytes_ltb k k0)]; cbn [map_find].
  - apply bytes_eqb_true in E1. subst k0. by destruct (bytes_eqb k k').
  - done.
  - rewrite IH. destruct (bytes_eqb k0 k') eqn:E2; [|done]. apply bytes_eqb_true in E2. subst k0.
    destruct (bytes_eqb k k') eqn:E3; [|done]. apply bytes_eqb_true in E3. subst k'.
    by rewrite (proj2 (bytes_eqb_true k k) eq_refl) in E1.
Qed.

(** *** The order of a [std::map] *)

Lemma bytes_ltb_trans a b c : bytes_ltb a b = true -> bytes_ltb b c = true -> bytes_ltb a c = true.
Proof.
  revert b c. induction a as [|x a IH]; intros [|y b] [|z c]; cbn; try done.
  destruct (Z.eqb_spec x y) as [->|Hxy], (Z.eqb_spec y z) as [->|Hyz]; intros H1 H2; zbool.
  - by eapply IH.
  - by apply Z.ltb_lt.
  - rewrite (proj2 (Z.eqb_neq x z)) by done. by apply Z.ltb_lt.
  - destruct (Z.eqb_spec x z); [lia|]. apply Z.ltb_lt. lia.
Qed.

Lemma bytes_ltb_asym a b : bytes_ltb a b = true -> bytes_ltb b a = false.
Proof.
  revert b. induction a as [|x a IH]; intros [|y b]; cbn; try done. rewrite (Z.eqb_sym y x).
  destruct (Z.eqb_spec x y) as [->|Hxy]; [by apply IH|]. intros H. zbool. apply Z.ltb_ge. lia.
Qed.

Lemma bytes_ltb_total a b : bytes_eqb a b = false -> bytes_ltb b a = false -> bytes_ltb a b = true.
Proof.
  revert b. induction a as [|x a IH]; intros [|y b]; try done. cbn [bytes_ltb]. rewrite (Z.eqb_sym y x).
  destruct (Z.eqb_spec x y) as [->|Hxy].
  - intros He. apply IH. apply bytes_eqb_false in He. apply bytes_eqb_false. by intros ->.
  - intros _ H. apply Z.ltb_ge in H. apply Z.ltb_lt. lia.
Qed.

Definition map_sorted (m : HttpHeaderMap) : Prop := StronglySorted (fun f g => bytes_ltb (fst f) (fst g) = true) m.

Lemma map_set_head (P : bytes * bytes -> Prop) m k v : Forall P m -> P (k, v) -> Forall P (map_set m k v).
Proof.
  intros Hm Hk. induction Hm as [|[k' v'] m Hp Hm IH]; cbn; [by repeat constructor|].
  destruct (bytes_eqb k' k) eqn:E; [|destruct (bytes_ltb k k')]; by repeat constructor.
Qed.

Lemma map_set_sorted m k v : map_sorted m -> map_sorted (map_set m k v).
Proof.
  induction 1 as [|[k' v'] m Hm IH Hf]; cbn; [by repeat constructor|].
  destruct (bytes_eqb k' k) eqn:E; [|destruct (bytes_ltb k k') eqn:El].
  - apply bytes_eqb_true in E. subst k'. by constructor.
  - constructor; [by constructor|]. constructor; [done|]. eapply Forall_impl; [exact Hf|]. intros [k2 v2] H2.
    by eapply bytes_ltb_trans.
  - constructor; [done|]. apply map_set_head; [done|]. by apply bytes_ltb_total.
Qed.

(** The bytes of the names and values. *)
Definition headers_size (m : HttpHeaderMap) : Z := foldr (fun f n => zlen (fst f) + zlen (snd f) + n) 0 m.

Lemma headers_size_nonneg m : 0 <= headers_size m.
Proof. induction m as [|[k v] m IH]; cbn; [done|]. pose proof (zlen_nonneg k). pose proof (zlen_nonneg v). fold (headers_size m). lia. Qed.

Lemma map_set_new m k v : map_find m k = None ->
  zlen (map_set m k v) = zlen m + 1 /\ headers_size (map_set m k v) = headers_size m + zlen k + zlen v.
Proof.
  induction m as [|[k' v'] m IH]; cbn [map_find map_set headers_size foldr fst snd]; [by split; [|lia]|].
  destruct (bytes_eqb k' k) eqn:E; [done|]. intros Hn. destruct (IH Hn) as [H1 H2].
  fold (headers_size m). destruct (bytes_ltb k k'); rewrite !zlen_cons; cbn [headers_size foldr fst snd].
  - fold (headers_size m). split; lia.
  - fold (headers_size (map_set m k v)). split; lia.
Qed.

Lemma map_set_old m k v v0 : map_sorted m -> map_find m k = Some v0 ->
  zlen (map_set m k v) = zlen m /\ headers_size (map_set m k v) = headers_size m - zlen v0 + zlen v.
Proof.
  induction 1 as [|[k' v'] m Hm IH Hf]; cbn [map_find map_set headers_size foldr fst snd]; [done|].
  fold (headers_size m). destruct (bytes_eqb k' k) eqn:E.
  - intros [= <-]. apply bytes_eqb_true in E. subst k'. rewrite !zlen_cons. cbn [headers_size foldr fst snd].
    fold (headers_size m). split; lia.
  - intros Hs. assert (Hl : bytes_ltb k' k = true).
    { clear IH Hm. induction Hf as [|[k2 v2] m H2 _ IH2]; [done|]. cbn in Hs. destruct (bytes_eqb k2 k) eqn:E2; [|by apply IH2].
      apply bytes_eqb_true in E2. by subst k2. }
    rewrite (bytes_ltb_asym _ _ Hl), !zlen_cons. cbn [headers_size foldr fst snd]. fold (headers_size (map_set m k v)).
    destruct (IH Hs) as [H1 H2]. split; lia.
Qed.

Lemma clower_ToLowerAscii s : map clower s = ToLowerAscii s.
Proof. apply map_ext. intros c. unfold clower. destruct (_ && _); lia. Qed.

(** What is stored for a field: the value, in lower case but for the keys'. *)
Definition stored_value (name v : bytes) : bytes :=
  if bytes_eqb name (str "sec-websocket-key") || bytes_eqb name (str "sec-websocket-accept")
  then v else ToLowerAscii (c_str v).

Lemma GetLowerCaseHeaders_find headers name :
  Forall (fun f => Forall (fun c => c <> 0) (fst f)) headers ->
  map_find (GetLowerCaseHeaders headers) name = stored_value name <$> last (field_values headers name).
Proof.
  intros H. unfold GetLowerCaseHeaders.
  set (step := fun out '(k, v) => _).
  assert (Hgen : forall acc, map_find (fold_left step headers acc) name =
            match last (field_values headers name) with
            | Some v => Some (stored_value name v) | None => map_find acc name end).
  { induction H as [|[k v] headers Hk H IH]; intros acc; [done|]. cbn [fold_left]. rewrite IH.
    change (field_values ((k, v) :: headers) name) with (field_values ([(k, v)] ++ headers) name).
    rewrite field_values_app. unfold field_values at 2. cbn [List.filter fst map].
    assert (Hs : map_find (step acc (k, v)) name =
       if bytes_eqb (ToLowerAscii k) name then Some (stored_value name v) else map_find acc name).
    { unfold step. cbn [fst] in Hk. rewrite c_str_id, clower_ToLowerAscii by done.
      unfold stored_value. destruct (bytes_eqb (ToLowerAscii k) name) eqn:E.
      - apply bytes_eqb_true in E. subst name. destruct (_ || _); rewrite map_find_set,
          (proj2 (bytes_eqb_true _ _) eq_refl), ?clower_ToLowerAscii; done.
      - destruct (_ || _); rewrite map_find_set, E; done. }
    rewrite Hs. destruct (bytes_eqb (ToLowerAscii k) name); cbn [map snd app].
    - rewrite last_cons. by destruct (last (field_values headers name)).
    - done. }
  rewrite Hgen. by destruct (last _).
Qed.

Lemma skip_blanks_nil_trim s : skip_blanks s = [] -> trim_blanks s = [].
Proof. intros H. unfold trim_blanks. by rewrite H. Qed.

Lemma HasToken_spec list token : token <> [] ->
  HasToken list token = true <-> Exists (fun e => trim_blanks e = token) (SplitString list 44).
Proof.
  intros Ht. unfold HasToken, SplitString. generalize (S (length list)) as fuel. intros fuel.
  revert list. induction fuel as [|f IH]; intros list; cbn [HasToken_loop SplitString_loop].
  { split; [discriminate|]. intros H. inversion H. }
  assert (Hone : forall e, negb (bytes_eqb (skip_blanks e) []) && bytes_eqb (trim_blanks e) token = true
                           <-> trim_blanks e = token).
  { intros e. rewrite andb_true_iff, negb_true_iff, bytes_eqb_false, bytes_eqb_true. split; [tauto|].
    intros H. split; [|done]. intros H0. apply skip_blanks_nil_trim in H0. congruence. }
  destruct (find_char 44 list) as [n|].
  - rewrite Exists_cons. destruct (_ && _) eqn:E.
    + apply Hone in E. tauto.
    + assert (trim_blanks (ztake n list) <> token) by (rewrite <- Hone; congruence). rewrite IH. tauto.
  - rewrite Exists_cons, Exists_nil. destruct (_ && _) eqn:E.
    + apply Hone in E. tauto.
    + assert (trim_blanks list <> token) by (rewrite <- Hone; congruence). intuition congruence.
Qed.

Lemma field_values_one k v name :
  field_values [(k, v)] name = if bytes_eqb (ToLowerAscii k) name then [v] else [].
Proof. unfold field_values. cbn [List.filter fst]. by destruct (bytes_eqb _ _). Qed.

Lemma field_values_if (b : bool) k v name :
  field_values (if b then [(k, v)] else []) name = if b && bytes_eqb (ToLowerAscii k) name then [v] else [].
Proof. destruct b; [apply field_values_one|done]. Qed.

Lemma field_values_ifn (b : bool) k v name :
  field_values (if b then [] else [(k, v)]) name = if negb b && bytes_eqb (ToLowerAscii k) name then [v] else [].
Proof. destruct b; [done|apply field_values_one]. Qed.

(** The values a receiver finds under a name in a request. *)
Lemma request_field_values req parts keepAlive name :
  field_values (received (request_fields req parts keepAlive)) name =
    map trim_blanks (
      (if bytes_eqb (str "host") name then [request_host req parts] else [])
      ++ (if bool_decide (FindHeaderCI (rq_headers req) (str "user-agent") = None)
             && bytes_eqb (str "user-agent") name then [str "ttsignal/1.0"] else [])
      ++ (if sends_length req && bytes_eqb (str "content-length") name
          then [dec_text (zlen (rq_body req))] else [])
      ++ (if negb keepAlive && bytes_eqb (str "connection") name then [str "close"] else [])
      ++ (if request_reserved name then [] else field_values (rq_headers req) name)).
Proof.
  rewrite field_values_received. f_equal. unfold request_fields.
  rewrite !field_values_app, field_values_kept, !field_values_if, field_values_one. done.
Qed.

Lemma bytes_eqb_sym a b : bytes_eqb a b = bytes_eqb b a.
Proof. unfold bytes_eqb. apply bool_decide_ext. split; congruence. Qed.

Lemma handshake_field_values parts secKey extra name :
  field_values (received (handshake_fields parts secKey extra)) name =
    map trim_blanks (
      (if bytes_eqb (str "host") name then [u_hostHeader parts] else [])
      ++ (if bytes_eqb (str "upgrade") name then [str "websocket"] else [])
      ++ (if bytes_eqb (str "connection") name then [str "Upgrade"] else [])
      ++ (if bytes_eqb (str "sec-websocket-key") name then [secKey] else [])
      ++ (if bytes_eqb (str "sec-websocket-version") name then [str "13"] else [])
      ++ (if negb (existsb (fun '(k, _) => bytes_eqb (ToLowerAscii k) (str "user-agent")) extra)
             && bytes_eqb (str "user-agent") name then [str "ttsignal/1.0"] else [])
      ++ (if handshake_reserved name then [] else field_values extra name)).
Proof.
  rewrite field_values_received. f_equal. unfold handshake_fields.
  rewrite !field_values_app, field_values_kept, !field_values_ifn.
  match goal with |- context [field_values [?a; ?b; ?c; ?d; ?e]] =>
    change (field_values [a; b; c; d; e]) with (field_values ([a] ++ [b] ++ [c] ++ [d] ++ [e])) end.
  rewrite !field_values_app, !field_values_one, <- !app_assoc. done.
Qed.

Lemma dec_text_trim z : 0 <= z -> trim_blanks (dec_text z) = dec_text z.
Proof.
  intros Hz. apply trim_blanks_id. eapply Forall_impl; [by apply dec_text_range|].
  intros c Hc. cbv beta in Hc. unfold is_blank. lia.
Qed.

(** ** Properties *)

(** Whatever the URL, method, headers and body the caller gives, [BuildRequestText]
    either refuses a request that is not well formed or writes a text from which a receiver
    reads exactly the request: one start line, one Host, the body's length as the only
    Content-Length, no Transfer-Encoding, the caller's other headers in order and no more,
    and the body; nothing the caller gives can add a field or a second request. *)
Theorem BuildRequestText_delivers (req : HttpRequest) (parts : HttpUrlParts) (keepAlive : bool) :
  match BuildRequestText req parts keepAlive with
  | inl _ => ~ request_ok req parts
  | inr text =>
      request_ok req parts /\
      exists fields,
        parse_message text = Some ([request_method req; u_target parts; str "HTTP/1.1"], fields, rq_body req) /\
        field_values fields (str "host") = [trim_blanks (request_host req parts)] /\
        (field_values fields (str "content-length") = [dec_text (zlen (rq_body req))] \/
         field_values fields (str "content-length") = [] /\ rq_body req = []) /\
        field_values fields (str "transfer-encoding") = [] /\
        field_values fields (str "connection") = (if keepAlive then [] else [str "close"]) /\
        field_values fields (str "user-agent") =
          (if bool_decide (field_values (rq_headers req) (str "user-agent") = []) then [str "ttsignal/1.0"]
           else map trim_blanks (field_values (rq_headers req) (str "user-agent"))) /\
        (forall name, request_reserved name = false -> name <> str "user-agent" ->
           field_values fields name = map trim_blanks (field_values (rq_headers req) name))
  end.
Proof.
  pose proof (BuildRequestText_text req parts keepAlive) as H.
  destruct (BuildRequestText req parts keepAlive) as [|text]; [done|]. destruct H as [Hok ->].
  split; [done|]. exists (received (request_fields req parts keepAlive)).
  split. { apply parse_message_render; [apply Hok..|by apply request_fields_safe]. }
  split_and!.
  - by rewrite request_field_values, !andb_false_r, !app_nil_r.
  - rewrite request_field_values, !andb_false_r. destruct (sends_length req) eqn:E; cbn [map app].
    + left. transitivity (map trim_blanks [dec_text (zlen (rq_body req))]); [done|].
      cbn [map]. by rewrite dec_text_trim by apply zlen_nonneg.
    + right. unfold sends_length in E. apply orb_false_iff in E as [E _].
      apply negb_false_iff, bytes_eqb_true in E. done.
  - by rewrite request_field_values, !andb_false_r.
  - rewrite request_field_values, !andb_false_r. by destruct keepAlive.
  - rewrite request_field_values, !andb_false_r. cbn [app]. pose proof (FindHeaderCI_None (rq_headers req) (str "user-agent")) as Hu.
    case_bool_decide as H1; case_bool_decide as H2; [|tauto|tauto|done].
    change (request_reserved (str "user-agent")) with false. cbv iota. rewrite H2. done.
  - intros name Hn Hu. rewrite request_field_values, Hn.
    unfold request_reserved in Hn. rewrite !orb_false_iff in Hn. destruct Hn as [[[Hn1 Hn2] Hn3] Hn4].
    rewrite (bytes_eqb_sym _ name), Hn1, !(bytes_eqb_sym _ name), Hn2, Hn3, (proj2 (bytes_eqb_false _ _) Hu), !andb_false_r.
    done.
Qed.

(** A URL that parses has a scheme http or https, a non-empty host of printable bytes
    without any of the bytes that would end it, a port from 1 to 65535 and a target that
    starts with a slash, with no blank, control byte or fragment; and the parts, written
    out again, parse to the same parts (for WebSocket URLs too). *)
Theorem ParseUrl_canonical (url : bytes) (p : HttpUrlParts) :
  (HttpParseUrl url = inr p ->
     (exists bracketed, url_ok bracketed p) /\
     HttpParseUrl (u_scheme p ++ str "://" ++ u_hostHeader p ++ u_target p) = inr p) /\
  (WSParseUrl url = inr p ->
     u_scheme p = (if u_tls p then str "wss" else str "ws") /\
     (exists bracketed, url_ok bracketed (http_form p)) /\
     WSParseUrl (u_scheme p ++ str "://" ++ u_hostHeader p ++ u_target p) = inr p).
Proof.
  split; intros H.
  - destruct (HttpParseUrl_ok _ _ H) as [br Hok]. split; [by exists br|by apply (HttpParseUrl_render br)].
  - destruct (WSParseUrl_ok _ _ H) as [Hs [br Hok]]. split_and!; [done|by exists br|].
    pose proof (HttpParseUrl_render br _ Hok) as Hr. destruct p as [scheme host header port target tls].
    cbn [http_form u_scheme u_host u_hostHeader u_port u_target u_tls] in *. subst scheme.
    unfold WSParseUrl. destruct tls.
    + change (find_str (str "://") (str "wss" ++ str "://" ++ header ++ target)) with (Some 3).
      change (match HttpParseUrl (str "https" ++ str "://" ++ header ++ target) with
              | inl e => inl e
              | inr hp => inr {| u_scheme := str "wss"; u_host := u_host hp; u_hostHeader := u_hostHeader hp;
                             u_port := u_port hp; u_target := u_target hp; u_tls := u_tls hp |}
              end = inr {| u_scheme := str "wss"; u_host := host; u_hostHeader := header;
                           u_port := port; u_target := target; u_tls := true |}).
      rewrite Hr. done.
    + change (find_str (str "://") (str "ws" ++ str "://" ++ header ++ target)) with (Some 2).
      change (match HttpParseUrl (str "http" ++ str "://" ++ header ++ target) with
              | inl e => inl e
              | inr hp => inr {| u_scheme := str "ws"; u_host := u_host hp; u_hostHeader := u_hostHeader hp;
                             u_port := u_port hp; u_target := u_target hp; u_tls := u_tls hp |}
              end = inr {| u_scheme := str "ws"; u_host := host; u_hostHeader := header;
                           u_port := port; u_target := target; u_tls := false |}).
      rewrite Hr. done.
Qed.

Lemma ParseUrl_canonical_witness :
  let url := str "HTTPS://[fe80::1]:8443?q=1#frag" in
  let p := {| u_scheme := str "https"; u_host := str "fe80::1"; u_hostHeader := str "[fe80::1]:8443";
              u_port := 8443; u_target := str "/?q=1"; u_tls := true |} in
  HttpParseUrl url = inr p /\
  HttpParseUrl (str "https" ++ str "://" ++ str "[fe80::1]:8443" ++ str "/?q=1") = inr p.
Proof.
  intros url p. assert (H : HttpParseUrl url = inr p) by (vm_compute; reflexivity).
  split; [exact H|]. exact (proj2 (proj1 (ParseUrl_canonical url p) H)).
Defined.

(** C39: the request built for a WebSocket URL is read back as the handshake the protocol
    asks for: the target of the URL, the four required fields once each with the values the
    code chose (a caller cannot repeat or replace them), no body and no length, no other
    field of the handshake, and the caller's other headers in order; it is refused exactly
    when a caller's header is unsafe. *)
Theorem BuildHandshakeRequest_delivers (url secKey : bytes) (parts : HttpUrlParts) (extra : HttpHeaderMap) :
  WSParseUrl url = inr parts -> secKey <> [] -> IsSafeRequestPart secKey = true ->
  match BuildHandshakeRequest parts secKey extra with
  | inl _ => ~ Forall field_safe extra
  | inr text =>
      Forall field_safe extra /\
      exists fields,
        parse_message text = Some ([str "GET"; u_target parts; str "HTTP/1.1"], fields, []) /\
        field_values fields (str "host") = [u_hostHeader parts] /\
        field_values fields (str "upgrade") = [str "websocket"] /\
        field_values fields (str "connection") = [str "Upgrade"] /\
        field_values fields (str "sec-websocket-key") = [secKey] /\
        field_values fields (str "sec-websocket-version") = [str "13"] /\
        (forall name, starts_with (str "sec-websocket-") name = true ->
           name <> str "sec-websocket-key" -> name <> str "sec-websocket-version" ->
           field_values fields name = []) /\
        field_values fields (str "content-length") = [] /\
        field_values fields (str "transfer-encoding") = [] /\
        (forall name, handshake_reserved name = false -> name <> str "user-agent" ->
           field_values fields name = map trim_blanks (field_values extra name))
  end.
Proof.
  intros Hu Hk Hks. destruct (WSParseUrl_ok _ _ Hu) as [_ [br Hok]].
  destruct (url_ok_header _ _ Hok) as (Hh1 & Hh2 & Hh3). destruct Hok as [_ _ _ _ _ _ _ (Ht & Ht1 & _)].
  cbn [http_form u_hostHeader u_target] in *.
  assert (Htn : u_target parts <> []) by (intros E; rewrite E in Ht1; discriminate).
  pose proof (BuildHandshakeRequest_text parts secKey extra Htn Hh1 Hk) as H.
  destruct (BuildHandshakeRequest parts secKey extra) as [|text]; [done|]. destruct H as [He ->].
  split; [done|]. exists (received (handshake_fields parts secKey extra)).
  assert (Hkv : IsSafeHeaderValue secKey = true).
  { apply IsSafeRequestPart_spec in Hks. apply IsSafeHeaderValue_spec. eapply Forall_impl; [exact Hks|cbn; lia]. }
  split. { apply parse_message_render; [done..|by apply handshake_fields_safe]. }
  split_and!.
  - rewrite handshake_field_values, !andb_false_r, !app_nil_r.
    transitivity (map trim_blanks [u_hostHeader parts]); [done|]. cbn [map]. by rewrite trim_blanks_safe.
  - by rewrite handshake_field_values, !andb_false_r.
  - by rewrite handshake_field_values, !andb_false_r.
  - rewrite handshake_field_values, !andb_false_r, !app_nil_r.
    transitivity (map trim_blanks [secKey]); [done|]. cbn [map]. by rewrite trim_blanks_safe.
  - by rewrite handshake_field_values, !andb_false_r.
  - intros name Hn Hn1 Hn2. rewrite handshake_field_values. unfold handshake_reserved.
    rewrite Hn, orb_true_r. apply starts_with_app in Hn as [r ->].
    apply bytes_eqb_false in Hn1, Hn2. rewrite (bytes_eqb_sym _ (str "sec-websocket-key")) in Hn1.
    rewrite (bytes_eqb_sym _ (str "sec-websocket-version")) in Hn2. rewrite Hn1, Hn2.
    rewrite !(proj2 (bytes_eqb_false _ _)), !andb_false_r by discriminate. done.
  - by rewrite handshake_field_values, !andb_false_r.
  - by rewrite handshake_field_values, !andb_false_r.
  - intros name Hn Hua. rewrite handshake_field_values, Hn.
    unfold handshake_reserved in Hn. rewrite !orb_false_iff in Hn. destruct Hn as [[[[[Hn1 Hn2] Hn3] Hn4] Hn5] Hn6].
    assert (Hk' : forall r, bytes_eqb (str "sec-websocket-" ++ r) name = false).
    { intros r. apply bytes_eqb_false. intros <-. rewrite (proj2 (starts_with_app _ _)) in Hn6; [done|by exists r]. }
    rewrite (bytes_eqb_sym (str "host") name), Hn1, (bytes_eqb_sym (str "upgrade") name), Hn2,
      (bytes_eqb_sym (str "connection") name), Hn3.
    change (str "sec-websocket-key") with (str "sec-websocket-" ++ str "key").
    change (str "sec-websocket-version") with (str "sec-websocket-" ++ str "version").
    rewrite !Hk', (bytes_eqb_sym _ name), (proj2 (bytes_eqb_false _ _) Hua), andb_false_r. done.
Qed.

Lemma BuildHandshakeRequest_delivers_witness :
  let url := str "ws://example.org/chat" in
  let key := str "dGhlIHNhbXBsZSBub25jZQ==" in
  let extra := [(str "Origin", str "http://a"); (str "sec-websocket-key", str "evil")] in
  exists parts, WSParseUrl url = inr parts /\
  match BuildHandshakeRequest parts key extra with
  | inl _ => False
  | inr text => exists fields body, parse_message text = Some ([str "GET"; str "/chat"; str "HTTP/1.1"], fields, body) /\
       field_values fields (str "sec-websocket-key") = [key]
  end.
Proof.
  intros url key extra. eexists. split; [vm_compute; reflexivity|].
  pose proof (BuildHandshakeRequest_delivers url key _ extra (eq_refl : WSParseUrl url = inr _)
    ltac:(discriminate) (eq_refl : IsSafeRequestPart key = true)) as H.
  destruct (BuildHandshakeRequest _ _ _) as [e|text] eqn:E.
  - vm_compute in E. discriminate E.
  - destruct H as [_ (fields & H1 & _ & _ & _ & H2 & _)]. exists fields, []. split; [exact H1|exact H2].
Defined.

(** [CheckHandshakeResponse] accepts exactly a 101 answer whose last Upgrade field is
    websocket in any case, whose last Connection field lists upgrade among its elements, and
    whose last Sec-WebSocket-Accept field is the (computable) accept key of the key sent. *)
Theorem CheckHandshakeResponse_spec (base64_encode : bytes -> option bytes) (SHA1 : bytes -> bytes)
    (status : Z) (headers : HttpHeaderMap) (secKey : bytes) :
  Forall (fun f => Forall (fun c => c <> 0) (fst f) /\ Forall (fun c => c <> 0) (snd f)) headers ->
  CheckHandshakeResponse base64_encode SHA1 status headers secKey = None <->
  status = 101 /\
  (exists v, last (field_values headers (str "upgrade")) = Some v /\ ToLowerAscii v = str "websocket") /\
  (exists v, last (field_values headers (str "connection")) = Some v /\
             Exists (fun e => trim_blanks e = str "upgrade") (SplitString (ToLowerAscii v) 44)) /\
  (exists accept, last (field_values headers (str "sec-websocket-accept")) = Some accept /\
             accept = WSAcceptKey base64_encode SHA1 secKey /\ accept <> []).
Proof.
  intros H.
  assert (Hn : Forall (fun f => Forall (fun c => c <> 0) (fst f)) headers)
    by (eapply Forall_impl; [exact H|by intros ? [? ?]]).
  assert (Hv : forall name v, last (field_values headers name) = Some v -> Forall (fun c => c <> 0) v).
  { intros name v Hl. apply last_Some_elem_of in Hl. apply list_elem_of_In in Hl.
    unfold field_values in Hl. apply in_map_iff in Hl as ([k v'] & <- & Hl).
    apply filter_In in Hl as [Hl _]. apply list_elem_of_In in Hl.
    apply (proj1 (Forall_forall _ _) H) in Hl. apply Hl. }
  unfold CheckHandshakeResponse. cbv zeta. rewrite !GetLowerCaseHeaders_find by done.
  destruct (Z.eqb_spec status 101) as [->|Hs]; cbn [negb]; [|split; [discriminate|tauto]].
  destruct (last (field_values headers (str "upgrade"))) as [u|] eqn:Eu; cbn [fmap option_fmap option_map].
  2: { rewrite bool_decide_eq_false_2 by discriminate. cbn [negb]. split; [discriminate|].
       intros (_ & (? & ? & _) & _). discriminate. }
  change (stored_value (str "upgrade") u) with (ToLowerAscii (c_str u)).
  rewrite c_str_id by (by apply (Hv (str "upgrade"))).
  case_bool_decide as Hw; cbn [negb].
  2: { split; [discriminate|]. intros (_ & (? & [= <-] & Hx) & _). congruence. }
  injection Hw as Hw.
  destruct (last (field_values headers (str "connection"))) as [c|] eqn:Ec; cbn [fmap option_fmap option_map negb].
  2: { split; [discriminate|]. intros (_ & _ & (? & ? & _) & _). discriminate. }
  change (stored_value (str "connection") c) with (ToLowerAscii (c_str c)).
  rewrite c_str_id by (by apply (Hv (str "connection"))).
  destruct (HasToken (ToLowerAscii c) (str "upgrade")) eqn:Et; cbn [negb].
  2: { split; [discriminate|]. intros (_ & _ & (? & [= <-] & Hx) & _).
       apply (HasToken_spec _ (str "upgrade")) in Hx; [congruence|discriminate]. }
  apply HasToken_spec in Et; [|discriminate].
  destruct (last (field_values headers (str "sec-websocket-accept"))) as [a|] eqn:Ea; cbn [fmap option_fmap option_map].
  2: { split; [discriminate|]. intros (_ & _ & _ & (? & ? & _)). discriminate. }
  change (stored_value (str "sec-websocket-accept") a) with a.
  destruct (bytes_eqb (WSAcceptKey base64_encode SHA1 secKey) []) eqn:E1.
  { apply bytes_eqb_true in E1. split; [discriminate|]. intros (_ & _ & _ & (? & [= <-] & Hx & Hx')). congruence. }
  apply bytes_eqb_false in E1.
  destruct (bytes_eqb a (WSAcceptKey base64_encode SHA1 secKey)) eqn:E2; cbn [negb].
  - apply bytes_eqb_true in E2. split; [intros _|done]. subst a. split_and!; eauto.
  - apply bytes_eqb_false in E2. split; [discriminate|]. intros (_ & _ & _ & (? & [= <-] & Hx & _)). congruence.
Qed.

Lemma CheckHandshakeResponse_spec_witness :
  let accept := str "answer" in
  let headers := [(str "Upgrade", str "WebSocket"); (str "connection", str "keep-alive, Upgrade");
                  (str "Sec-WebSocket-Accept", accept)] in
  CheckHandshakeResponse (fun _ => Some accept) (fun b => b) 101 headers (str "key") = None /\
  last (field_values headers (str "sec-websocket-accept")) = Some accept.
Proof.
  intros accept headers.
  assert (H : CheckHandshakeResponse (fun _ => Some accept) (fun b => b) 101 headers (str "key") = None)
    by (vm_compute; reflexivity).
  split; [exact H|].
  assert (Hn : Forall (fun f => Forall (fun c => c <> 0) (fst f) /\ Forall (fun c => c <> 0) (snd f)) headers).
  { repeat (apply Forall_cons; split; [split; repeat constructor; discriminate|]). constructor. }
  apply (CheckHandshakeResponse_spec _ _ _ _ _ Hn) in H as (_ & _ & _ & (a & H1 & H2 & _)).
  rewrite H1, H2. vm_compute. reflexivity.
Defined.
