(* ===== verification/HttpResponse.v ===== *)
(** * HttpResponse: what an HTTP connection makes of its response
      ([src/cpp/HttpConnector.cpp], class [HttpConnection]; [LLHTTPParser.cpp])

    The callbacks by which the vendored parser (llhttp) tells of a response, the limits on
    what a server may send, and what is delivered in the end. What llhttp finds in the bytes
    it is given is a parameter: a list of callbacks and the error it ends with. What it does
    with the callbacks' results is modelled as it is: a result other than 0 stops it, an error
    that is set (also by [llhttp_pause]) stops it only at its next call.

    Lengths are far below 2^64, so sums of sizes are sums of [Z]. *)

From Stdlib Require Import ZArith Lia Sorted.
From stdpp Require Import base numbers option list.
From S2P Require Import Prelude Results WSParser HttpText.

(** ** Limits *)

Definition kMaxHeaderTotalBytes : Z := 64 * 1024.
Definition kMaxSingleHeaderBytes : Z := 16 * 1024.
Definition kMaxHeaderCount : Z := 200.
Definition kMaxReasonBytes : Z := 512.
Definition kMaxInterimResponses : Z := 8.

(** ** Data *)

(** Why a request failed; the texts are the code's. *)
Inductive failure :=
| TooManyInterim | ReasonTooLong | TooManyHeaders | HeadersTooLong | HeaderTooLong | BodyTooLarge
| ParseFailed (err : Z) | SendFailed | ResponseTimedOut | NoTimer | NewChannelFailed
| ChannelClosed (status : Z)        (* the channel's reason; the status when the head was complete *)
| ResponseCut.

(** What it asks of its channel: to close, or to take it back to the pool once delivered. *)
Inductive action := CloseChannel | DeliverAndPool.

Record message := {
  max_response_bytes_ : Z;
  head_request_ : bool;
  pool_enabled_ : bool;
  cur_field_ : bytes;
  cur_value_ : bytes;
  last_was_value_ : bool;
  reason_phrase_ : bytes;
  headers_ : HttpHeaderMap;
  body_ : bytes;
  status_ : Z;
  message_done_ : bool;
  header_bytes_ : Z;
  interim_ : bool;
  interim_count_ : Z;
  fail_result_ : BCRESULT;
  fail_message_ : option failure;
  keep_alive_ : bool;
  delivered_ : bool;
  m_error : Z;                        (* llhttp's [error] *)
  asked : list action
}.

#[global] Instance eta_message : Eta message := fun m =>
  {| max_response_bytes_ := max_response_bytes_ m; head_request_ := head_request_ m; pool_enabled_ := pool_enabled_ m;
     cur_field_ := cur_field_ m; cur_value_ := cur_value_ m; last_was_value_ := last_was_value_ m;
     reason_phrase_ := reason_phrase_ m; headers_ := headers_ m; body_ := body_ m; status_ := status_ m;
     message_done_ := message_done_ m; header_bytes_ := header_bytes_ m; interim_ := interim_ m;
     interim_count_ := interim_count_ m; fail_result_ := fail_result_ m; fail_message_ := fail_message_ m;
     keep_alive_ := keep_alive_ m; delivered_ := delivered_ m; m_error := m_error m; asked := asked m |}.

Definition new_message (max : Z) (head pool : bool) : message :=
  {| max_response_bytes_ := max; head_request_ := head; pool_enabled_ := pool; cur_field_ := []; cur_value_ := [];
     last_was_value_ := false; reason_phrase_ := []; headers_ := []; body_ := []; status_ := 0; message_done_ := false;
     header_bytes_ := 0; interim_ := false; interim_count_ := 0; fail_result_ := BC_R_SUCCESS; fail_message_ := None;
     keep_alive_ := false; delivered_ := false; m_error := 0; asked := [] |}.

Definition HPE_OK : Z := 0.
Definition HPE_CB_HEADERS_COMPLETE : Z := 17.
Definition HPE_CB_MESSAGE_COMPLETE : Z := 18.
Definition HPE_PAUSED : Z := 21.

(** ** Failing *)

(** [_Fail]: the first failure is kept, and the channel is told to close. *)
Definition Fail (result : BCRESULT) (why : failure) (m : message) : message :=
  let m := if fail_result_ m =? BC_R_SUCCESS then m <| fail_result_ := result |> <| fail_message_ := Some why |> else m in
  m <| asked ::= fun l => l ++ [CloseChannel] |>.

Definition FailHeaderLimit (why : failure) (m : message) : message := Fail BC_R_RESPONSE_TOO_LARGE why m.

(** [_ChargeHeaderBytes] and [_CheckSingleHeaderSize]: what is left, and whether to go on. *)
Definition ChargeHeaderBytes (length : Z) (m : message) : message * bool :=
  if kMaxHeaderTotalBytes <? header_bytes_ m + length then (FailHeaderLimit HeadersTooLong m, false)
  else (m <| header_bytes_ ::= fun n => n + length |>, true).

Definition CheckSingleHeaderSize (incoming : Z) (m : message) : message * bool :=
  if kMaxSingleHeaderBytes <? zlen (cur_field_ m) + zlen (cur_value_ m) + incoming then (FailHeaderLimit HeaderTooLong m, false)
  else (m, true).

(** ** Headers *)

Definition no_header (m : message) : message :=
  m <| cur_field_ := [] |> <| cur_value_ := [] |> <| last_was_value_ := false |>.

(** [_CommitHeader]. *)
Definition CommitHeader (m : message) : message * bool :=
  if bytes_eqb (cur_field_ m) [] then (no_header m, true)
  else
    let key := ToLowerAscii (cur_field_ m) in
    match map_find (headers_ m) key with
    | None =>
        if kMaxHeaderCount <=? zlen (headers_ m) then (FailHeaderLimit TooManyHeaders m, false)
        else (no_header (m <| headers_ := map_set (headers_ m) key (cur_value_ m) |>), true)
    | Some old =>
        (no_header (m <| headers_ := map_set (headers_ m) key (old ++ str ", " ++ cur_value_ m) |>), true)
    end.

(** [_ResetMessageState]. *)
Definition ResetMessageState (m : message) : message :=
  no_header m <| reason_phrase_ := [] |> <| headers_ := [] |> <| body_ := [] |> <| status_ := 0 |> <| header_bytes_ := 0 |>.

(** ** The callbacks: what is left, and the result *)

Definition http_on_status (bs : bytes) (m : message) : message * Z :=
  let '(m, ok) := ChargeHeaderBytes (zlen bs) m in
  if negb ok then (m, -1)
  else if kMaxReasonBytes <? zlen (reason_phrase_ m) + zlen bs then (FailHeaderLimit ReasonTooLong m, -1)
  else (m <| reason_phrase_ ::= fun r => r ++ bs |>, 0).

Definition charge (bs : bytes) (m : message) : message * bool :=
  let '(m, ok) := ChargeHeaderBytes (zlen bs) m in
  if negb ok then (m, false) else CheckSingleHeaderSize (zlen bs) m.

Definition http_on_header_field (bs : bytes) (m : message) : message * Z :=
  let '(m, ok) := if last_was_value_ m then CommitHeader m else (m, true) in
  if negb ok then (m, -1)
  else
    let '(m, ok) := charge bs m in
    if negb ok then (m, -1) else (m <| cur_field_ ::= fun f => f ++ bs |>, 0).

Definition http_on_header_value (bs : bytes) (m : message) : message * Z :=
  let m := m <| last_was_value_ := true |> in
  let '(m, ok) := charge bs m in
  if negb ok then (m, -1) else (m <| cur_value_ ::= fun v => v ++ bs |>, 0).

Definition http_on_headers_complete (status_code : Z) (m : message) : message * Z :=
  let '(m, ok) := CommitHeader m in
  if negb ok then (m, -1)
  else
    let m := m <| status_ := status_code |> in
    if (100 <=? status_code) && (status_code <? 200) then
      let m := m <| interim_count_ ::= fun n => u32 (n + 1) |> in
      if kMaxInterimResponses <? interim_count_ m then (Fail BC_R_UNEXPECTEDTOKEN TooManyInterim m, -1)
      else (ResetMessageState (m <| interim_ := true |>), 0)
    else if head_request_ m || (status_code =? 204) || (status_code =? 304) then (m, 1)
    else (m, 0).

Definition http_on_body (bs : bytes) (m : message) : message * Z :=
  if max_response_bytes_ m <? zlen (body_ m) + zlen bs then (Fail BC_R_RESPONSE_TOO_LARGE BodyTooLarge m, -1)
  else (m <| body_ ::= fun b => b ++ bs |>, 0).

Definition llhttp_pause (m : message) : message := if m_error m =? HPE_OK then m <| m_error := HPE_PAUSED |> else m.

Definition http_on_message_complete (status_code : Z) (should_keep_alive : bool) (m : message) : message * Z :=
  if interim_ m then (m <| interim_ := false |>, 0)
  else
    let '(m, ok) := CommitHeader m in
    if negb ok then (m, -1)
    else
      let m := if status_ m =? 0 then m <| status_ := status_code |> else m in
      (llhttp_pause (m <| message_done_ := true |> <| keep_alive_ := should_keep_alive |>), 0).

(** ** llhttp *)

(** What llhttp tells of, with its [status_code] and [llhttp_should_keep_alive] at the time. *)
Inductive callback :=
| on_status (bs : bytes)
| on_header_field (bs : bytes)
| on_header_value (bs : bytes)
| on_headers_complete (status_code : Z)
| on_body (bs : bytes)
| on_message_complete (status_code : Z) (should_keep_alive : bool).

Definition run_callback (cb : callback) (m : message) : message * Z :=
  match cb with
  | on_status bs => http_on_status bs m
  | on_header_field bs => http_on_header_field bs m
  | on_header_value bs => http_on_header_value bs m
  | on_headers_complete s => http_on_headers_complete s m
  | on_body bs => http_on_body bs m
  | on_message_complete s k => http_on_message_complete s k m
  end.

(** The error llhttp makes of a callback's result; 1 from the end of the headers means that
    there is no body. *)
Definition callback_error (cb : callback) (result : Z) : Z :=
  match cb with
  | on_headers_complete _ => if (result =? 0) || (result =? 1) then HPE_OK else HPE_CB_HEADERS_COMPLETE
  | on_message_complete _ _ => if result =? 0 then HPE_OK else HPE_CB_MESSAGE_COMPLETE
  | _ => result
  end.

Fixpoint run_callbacks (cbs : list callback) (m : message) : message * Z :=
  match cbs with
  | [] => (m, HPE_OK)
  | cb :: cbs =>
      let '(m, r) := run_callback cb m in
      let e := callback_error cb r in
      if e =? HPE_OK then run_callbacks cbs m else (m <| m_error := e |>, e)
  end.

(** One call of [llhttp_execute], where llhttp finds [cbs] in the bytes and ends with [own]. *)
Definition llhttp_execute (cbs : list callback) (own : Z) (m : message) : message * Z :=
  if negb (m_error m =? HPE_OK) then (m, m_error m)
  else
    let '(m, e) := run_callbacks cbs m in
    if negb (e =? HPE_OK) then (m, e)
    else if negb (own =? HPE_OK) then (m <| m_error := own |>, own)
    else (m, HPE_OK).

(** [llhttp_finish]: whether the end of the connection ends the response. *)
Definition llhttp_finish (ends : option (Z * bool)) (m : message) : message :=
  if negb (m_error m =? HPE_OK) then m
  else match ends with Some (s, k) => fst (http_on_message_complete s k m) | None => m end.

(** ** What the connection does *)

(** [_ShouldKeepConnectionAlive]. *)
Definition ShouldKeepConnectionAlive (m : message) : bool :=
  pool_enabled_ m && keep_alive_ m && message_done_ m && (fail_result_ m =? BC_R_SUCCESS) && negb (delivered_ m).

Definition ask_channel (a : action) (m : message) : message := m <| asked ::= fun l => l ++ [a] |>.

(** [OnChannelData]. *)
Definition OnChannelData (cbs : list callback) (own : Z) (m : message) : message :=
  if delivered_ m then m
  else
    let '(m, err) := llhttp_execute cbs own m in
    if (err =? HPE_OK) || (err =? HPE_PAUSED) then
      if message_done_ m && negb (delivered_ m) then
        if ShouldKeepConnectionAlive m then ask_channel DeliverAndPool m else ask_channel CloseChannel m
      else m
    else if negb (fail_result_ m =? BC_R_SUCCESS) then ask_channel CloseChannel m
    else Fail BC_R_UNEXPECTEDTOKEN (ParseFailed err) m.

(** The address, interface and pin of the channel are left out. *)
Record HttpResponse := { rs_status : Z; rs_reason : bytes; rs_headers : HttpHeaderMap; rs_body : bytes }.

(** What the handler of a request hears. *)
Inductive outcome := OnHttpResponse (resp : HttpResponse) | OnHttpError (result : BCRESULT) (why : option failure).

Definition response_of (m : message) : HttpResponse :=
  {| rs_status := status_ m; rs_reason := reason_phrase_ m; rs_headers := headers_ m; rs_body := body_ m |}.

(** [_DeliverOnce]; [ends] is what llhttp makes of the end of the connection, and [handler_]
    whether the request still has its handler. *)
Definition DeliverOnce (handler_ : bool) (closeResult : BCRESULT) (ends : option (Z * bool)) (m : message) : message * option outcome :=
  if delivered_ m then (m, None)
  else
    let m := m <| delivered_ := true |> in
    let m := if negb (message_done_ m) && (fail_result_ m =? BC_R_SUCCESS) && (closeResult =? BC_R_SUCCESS)
             then llhttp_finish ends m else m in
    let tell o := if handler_ then Some o else None in
    if message_done_ m then (m, tell (OnHttpResponse (response_of m)))
    else if negb (fail_result_ m =? BC_R_SUCCESS) then (m, tell (OnHttpError (fail_result_ m) (fail_message_ m)))
    else if negb (closeResult =? BC_R_SUCCESS) then (m, tell (OnHttpError closeResult (Some (ChannelClosed (status_ m)))))
    else (m, tell (OnHttpError BC_R_UNEXPECTEDEND (Some ResponseCut))).

(** ** A response as a server means it *)

(** The pieces in which llhttp tells of each text are arbitrary. *)
Record reply := {
  p_status : Z;
  p_reason : list bytes;
  p_fields : list (list bytes * list bytes);
  p_body : list bytes;
  p_keep : bool
}.

Definition field_name (f : list bytes * list bytes) : bytes := concat (fst f).
Definition field_value (f : list bytes * list bytes) : bytes := concat (snd f).

Definition field_callbacks (f : list bytes * list bytes) : list callback := map on_header_field (fst f) ++ map on_header_value (snd f).

(** All that is told of a reply before its end. *)
Definition reply_callbacks (p : reply) : list callback :=
  map on_status (p_reason p) ++ concat (map field_callbacks (p_fields p)) ++ [on_headers_complete (p_status p)] ++ map on_body (p_body p).

Definition reply_end (p : reply) : callback := on_message_complete (p_status p) (p_keep p).

(** The headers of a reply: the values of fields of one name, joined in their order. *)
Definition add_field (m : HttpHeaderMap) (f : list bytes * list bytes) : HttpHeaderMap :=
  let key := ToLowerAscii (field_name f) in
  map_set m key (match map_find m key with Some old => old ++ str ", " ++ field_value f | None => field_value f end).

Definition gathered (fs : list (list bytes * list bytes)) : HttpHeaderMap := foldl add_field [] fs.

Definition field_size (f : list bytes * list bytes) : Z := zlen (field_name f) + zlen (field_value f).

Fixpoint fields_size (fs : list (list bytes * list bytes)) : Z :=
  match fs with [] => 0 | f :: fs => field_size f + fields_size fs end.

(** A head within the limits. llhttp tells of every value, also of one that is empty. *)
Definition head_fits (p : reply) : Prop :=
  zlen (concat (p_reason p)) <= kMaxReasonBytes /\
  zlen (concat (p_reason p)) + fields_size (p_fields p) <= kMaxHeaderTotalBytes /\
  zlen (gathered (p_fields p)) <= kMaxHeaderCount /\
  Forall (fun f => field_name f <> [] /\ snd f <> [] /\ field_size f <= kMaxSingleHeaderBytes) (p_fields p).

(** Calls of [OnChannelData]. *)
Definition feed (chunks : list (list callback)) (m : message) : message := foldl (fun m cbs => OnChannelData cbs HPE_OK m) m chunks.

(** ** Runs of callbacks *)

Lemma message_ext m m' :
  max_response_bytes_ m = max_response_bytes_ m' -> head_request_ m = head_request_ m' -> pool_enabled_ m =
  pool_enabled_ m' -> cur_field_ m = cur_field_ m' -> cur_value_ m = cur_value_ m' -> last_was_value_ m =
  last_was_value_ m' -> reason_phrase_ m = reason_phrase_ m' -> headers_ m = headers_ m' -> body_ m = body_ m' ->
  status_ m = status_ m' -> message_done_ m = message_done_ m' -> header_bytes_ m = header_bytes_ m' -> interim_ m =
  interim_ m' -> interim_count_ m = interim_count_ m' -> fail_result_ m = fail_result_ m' -> fail_message_ m =
  fail_message_ m' -> keep_alive_ m = keep_alive_ m' -> delivered_ m = delivered_ m' -> m_error m = m_error m' ->
  asked m = asked m' -> m = m'.
Proof. destruct m, m'. cbn. intros. by subst. Qed.

(** Two states that agree on every field. *)
Tactic Notation "ext" := cbn [run_callbacks]; apply (f_equal2 pair); [apply message_ext; cbn; try done|done].

Lemma run_callbacks_app a b m :
  run_callbacks (a ++ b) m = let '(m', e) := run_callbacks a m in if e =? HPE_OK then run_callbacks b m' else (m', e).
Proof.
  revert m. induction a as [|cb a IH]; intros m; cbn [app run_callbacks]; [done|].
  destruct (run_callback cb m) as [m1 r]. destruct (callback_error cb r =? HPE_OK) eqn:E; [apply IH|]. by rewrite E.
Qed.

Lemma run_callbacks_ok a b m m' : run_callbacks a m = (m', HPE_OK) -> run_callbacks (a ++ b) m = run_callbacks b m'.
Proof. intros H. by rewrite run_callbacks_app, H. Qed.

Lemma run_callbacks_one cb l m m' r :
  run_callback cb m = (m', r) -> callback_error cb r = HPE_OK -> run_callbacks (cb :: l) m = run_callbacks l m'.
Proof. intros H E. cbn [run_callbacks]. by rewrite H, E. Qed.

Lemma fields_size_nonneg fs : 0 <= fields_size fs.
Proof. induction fs as [|f fs IH]; cbn; [done|]. unfold field_size. pose proof (zlen_nonneg (field_name f)). pose proof (zlen_nonneg (field_value f)). lia. Qed.

Lemma Charge_ok n m : header_bytes_ m + n <= kMaxHeaderTotalBytes -> ChargeHeaderBytes n m = (m <| header_bytes_ ::= fun b => b + n |>, true).
Proof. intros H. unfold ChargeHeaderBytes. by rewrite (proj2 (Z.ltb_ge _ _) H). Qed.

Lemma charge_ok bs m :
  header_bytes_ m + zlen bs <= kMaxHeaderTotalBytes -> zlen (cur_field_ m) + zlen (cur_value_ m) + zlen bs <= kMaxSingleHeaderBytes ->
  charge bs m = (m <| header_bytes_ ::= fun b => b + zlen bs |>, true).
Proof. intros H1 H2. unfold charge. rewrite Charge_ok by done. unfold CheckSingleHeaderSize. cbn. by rewrite (proj2 (Z.ltb_ge _ _) H2). Qed.

(** Pieces of the reason, of a name, of a value. *)
Lemma run_reason ps : forall m,
  zlen (reason_phrase_ m) + zlen (concat ps) <= kMaxReasonBytes -> header_bytes_ m + zlen (concat ps) <= kMaxHeaderTotalBytes ->
  run_callbacks (map on_status ps) m =
    (m <| reason_phrase_ ::= fun r => r ++ concat ps |> <| header_bytes_ ::= fun n => n + zlen (concat ps) |>, HPE_OK).
Proof.
  induction ps as [|p ps IH]; intros m H1 H2; cbn [map concat].
  - ext; by rewrite ?app_nil_r, ?Z.add_0_r.
  - cbn [concat] in H1, H2. rewrite zlen_app in *. pose proof (zlen_nonneg (concat ps)).
    erewrite run_callbacks_one; [|cbn [run_callback]; unfold http_on_status; rewrite Charge_ok by lia; cbn; rewrite (proj2 (Z.ltb_ge _ _)) by lia; reflexivity|done].
    rewrite IH; cbn; rewrite ?zlen_app; [|lia..]. ext; by rewrite ?app_assoc, ?Z.add_assoc.
Qed.

Lemma run_names ps : forall m, last_was_value_ m = false ->
  zlen (cur_field_ m) + zlen (cur_value_ m) + zlen (concat ps) <= kMaxSingleHeaderBytes -> header_bytes_ m + zlen (concat ps) <= kMaxHeaderTotalBytes ->
  run_callbacks (map on_header_field ps) m =
    (m <| cur_field_ ::= fun f => f ++ concat ps |> <| header_bytes_ ::= fun n => n + zlen (concat ps) |>, HPE_OK).
Proof.
  induction ps as [|p ps IH]; intros m Hl H1 H2; cbn [map concat].
  - ext; by rewrite ?app_nil_r, ?Z.add_0_r.
  - cbn [concat] in H1, H2. rewrite zlen_app in *. pose proof (zlen_nonneg (concat ps)).
    erewrite run_callbacks_one; [|cbn [run_callback]; unfold http_on_header_field; rewrite Hl; cbn [negb]; rewrite charge_ok by lia; reflexivity|done].
    rewrite IH; cbn; rewrite ?zlen_app; [|done|lia..]. ext; by rewrite ?app_assoc, ?Z.add_assoc.
Qed.

Lemma run_values ps : forall m,
  zlen (cur_field_ m) + zlen (cur_value_ m) + zlen (concat ps) <= kMaxSingleHeaderBytes -> header_bytes_ m + zlen (concat ps) <= kMaxHeaderTotalBytes ->
  run_callbacks (map on_header_value ps) m =
    (m <| cur_value_ ::= fun f => f ++ concat ps |> <| header_bytes_ ::= fun n => n + zlen (concat ps) |>
       <| last_was_value_ := (match ps with [] => last_was_value_ m | _ => true end) |>, HPE_OK).
Proof.
  induction ps as [|p ps IH]; intros m H1 H2; cbn [map concat].
  - ext; by rewrite ?app_nil_r, ?Z.add_0_r.
  - cbn [concat] in H1, H2. rewrite zlen_app in *. pose proof (zlen_nonneg (concat ps)).
    erewrite run_callbacks_one; [|cbn [run_callback]; unfold http_on_header_value; cbv zeta; rewrite charge_ok by (cbn; lia); reflexivity|done].
    rewrite IH; cbn; rewrite ?zlen_app; [|lia..]. ext; rewrite ?app_assoc, ?Z.add_assoc; by destruct ps.
Qed.

Lemma run_body ps : forall m,
  zlen (body_ m) + zlen (concat ps) <= max_response_bytes_ m ->
  run_callbacks (map on_body ps) m = (m <| body_ ::= fun b => b ++ concat ps |>, HPE_OK).
Proof.
  induction ps as [|p ps IH]; intros m H; cbn [map concat].
  - ext; by rewrite app_nil_r.
  - cbn [concat] in H. rewrite zlen_app in *. pose proof (zlen_nonneg (concat ps)).
    erewrite run_callbacks_one; [|cbn [run_callback]; unfold http_on_body; rewrite (proj2 (Z.ltb_ge _ _)) by lia; reflexivity|done].
    rewrite IH; cbn; rewrite ?zlen_app; [|lia..]. ext; by rewrite app_assoc.
Qed.

(** ** A reply, run *)

(** The header that is being read, if any, is complete; [c] is what it leaves when it is kept. *)
Definition ready (m c : message) : Prop :=
  CommitHeader m = (c, true) /\ cur_field_ c = [] /\ cur_value_ c = [] /\ last_was_value_ c = false /\
  (last_was_value_ m = true \/ m = c).

Definition between (m : message) : Prop := cur_field_ m = [] /\ cur_value_ m = [] /\ last_was_value_ m = false.

Lemma no_header_between m : between m -> no_header m = m.
Proof. intros (H1 & H2 & H3). apply message_ext; cbn; congruence. Qed.

Lemma ready_between m : between m -> ready m m.
Proof.
  intros Hb. pose proof Hb as (H1 & H2 & H3). unfold ready, CommitHeader. rewrite H1. cbn.
  rewrite no_header_between by done. by split_and!; [..|right].
Qed.

Lemma field_of_ready bs m c : ready m c -> http_on_header_field bs m = http_on_header_field bs c.
Proof.
  intros (Hc & _ & _ & Hl & [H| ->]); [|done]. unfold http_on_header_field. by rewrite H, Hl, Hc.
Qed.

Lemma zlen_map_set m k v : zlen m <= zlen (map_set m k v).
Proof.
  induction m as [|[k' v'] m IH]; cbn [map_set]; [done|].
  destruct (bytes_eqb k' k); [rewrite !zlen_cons; lia|]. destruct (bytes_ltb k k'); rewrite !zlen_cons; [|lia].
  pose proof (zlen_nonneg m). lia.
Qed.

Lemma zlen_add_fields fs : forall h, zlen h <= zlen (foldl add_field h fs).
Proof.
  induction fs as [|f fs IH]; intros h; cbn [foldl]; [lia|]. pose proof (IH (add_field h f)). unfold add_field in *. cbv zeta in *.
  etransitivity; [apply zlen_map_set|]. exact H.
Qed.

Definition read_field (f : list bytes * list bytes) (c : message) : message :=
  c <| headers_ ::= fun h => add_field h f |> <| header_bytes_ ::= fun n => n + field_size f |>.

Lemma run_field f m c :
  ready m c -> field_name f <> [] -> snd f <> [] -> field_size f <= kMaxSingleHeaderBytes ->
  header_bytes_ c + field_size f <= kMaxHeaderTotalBytes -> zlen (add_field (headers_ c) f) <= kMaxHeaderCount ->
  exists m', run_callbacks (field_callbacks f) m = (m', HPE_OK) /\ ready m' (read_field f c).
Proof.
  intros Hr Hn Hv Hs Ht Hk. pose proof Hr as (_ & H1 & H2 & H3 & _). unfold field_callbacks. destruct f as [ns vs]. unfold field_size, field_name, field_value in *. cbn [fst snd] in *.
  destruct ns as [|n ns]; [done|]. destruct vs as [|v vs]; [done|].
  assert (Hfirst : run_callbacks (map on_header_field (n :: ns)) m = run_callbacks (map on_header_field (n :: ns)) c).
  { cbn [map run_callbacks run_callback]. by rewrite (field_of_ready n m c Hr). }
  pose proof (zlen_nonneg (concat (n :: ns))). pose proof (zlen_nonneg (concat (v :: vs))).
  erewrite run_callbacks_ok; [|rewrite Hfirst; apply run_names; [done|rewrite H1, H2; change (zlen (@nil Z)) with 0; lia|lia]].
  rewrite run_values; [|cbn [cur_field_ cur_value_ update]; cbn; rewrite H1, H2; cbn [app]; change (zlen (@nil Z)) with 0; cbn in *; lia|cbn in *; lia].
  eexists. split; [reflexivity|]. unfold ready. split; [|cbn; by split_and!; [..|left]].
  unfold CommitHeader. cbn [cur_field_ update]. cbn -[concat ToLowerAscii add_field map_set]. rewrite H1. cbn [app].
  rewrite (proj2 (bytes_eqb_false _ _) Hn). rewrite H2. cbn [app].
  unfold add_field in Hk. unfold field_name, field_value in Hk. cbn [fst snd] in Hk. cbv zeta in Hk.
  destruct (map_find (headers_ c) (ToLowerAscii (concat (n :: ns)))) as [old|] eqn:Ef.
  - apply (f_equal2 pair); [|done]. apply message_ext; cbn -[concat]; try done; [|unfold field_size, field_name, field_value; cbn [fst snd]; lia].
    unfold add_field, field_name, field_value. cbn [fst snd]. by rewrite Ef.
  - destruct (map_set_new _ _ (concat (v :: vs)) Ef) as [Hl _]. rewrite Hl in Hk. rewrite (proj2 (Z.leb_gt _ _)) by lia.
    apply (f_equal2 pair); [|done]. apply message_ext; cbn -[concat]; try done; [|unfold field_size, field_name, field_value; cbn [fst snd]; lia].
    unfold add_field, field_name, field_value. cbn [fst snd]. by rewrite Ef.
Qed.

Lemma run_fields fs : forall m c,
  ready m c -> Forall (fun f => field_name f <> [] /\ snd f <> [] /\ field_size f <= kMaxSingleHeaderBytes) fs ->
  header_bytes_ c + fields_size fs <= kMaxHeaderTotalBytes -> zlen (foldl add_field (headers_ c) fs) <= kMaxHeaderCount ->
  exists m', run_callbacks (concat (map field_callbacks fs)) m = (m', HPE_OK) /\
    ready m' (c <| headers_ ::= fun h => foldl add_field h fs |> <| header_bytes_ ::= fun n => n + fields_size fs |>).
Proof.
  induction fs as [|f fs IH]; intros m c Hr Hf Ht Hk; cbn [map concat].
  - exists m. split; [done|]. replace (c <| headers_ ::= _ |> <| header_bytes_ ::= _ |>) with c; [done|].
    apply message_ext; cbn; try done. lia.
  - cbn [fields_size foldl] in *. apply Forall_cons in Hf as [(F1 & F2 & F3) Hf]. pose proof (fields_size_nonneg fs).
    destruct (run_field f m c Hr F1 F2 F3) as (m1 & R1 & Hr1); [lia|etransitivity; [apply zlen_add_fields|exact Hk]|].
    destruct (IH m1 (read_field f c) Hr1 Hf) as (m2 & R2 & Hr2); [cbn; lia|exact Hk|].
    exists m2. split; [by rewrite (run_callbacks_ok _ _ _ _ R1)|].
    enough (Ee : (read_field f c) <| headers_ ::= fun h => foldl add_field h fs |> <| header_bytes_ ::= fun n => n + fields_size fs |> =
                 c <| headers_ ::= fun h => foldl add_field (add_field h f) fs |> <| header_bytes_ ::= fun n => n + (field_size f + fields_size fs) |>)
      by (rewrite <- Ee; exact Hr2).
    apply message_ext; cbn; try done. lia.
Qed.

(** What a whole reply leaves of a connection that is between headers. *)
Definition replied (p : reply) (m : message) : message :=
  m <| reason_phrase_ ::= fun r => r ++ concat (p_reason p) |> <| headers_ ::= fun h => foldl add_field h (p_fields p) |>
    <| header_bytes_ ::= fun n => n + (zlen (concat (p_reason p)) + fields_size (p_fields p)) |>
    <| status_ := p_status p |> <| body_ ::= fun b => b ++ concat (p_body p) |>.

Definition fits_after (p : reply) (m : message) : Prop :=
  zlen (reason_phrase_ m) + zlen (concat (p_reason p)) <= kMaxReasonBytes /\
  header_bytes_ m + (zlen (concat (p_reason p)) + fields_size (p_fields p)) <= kMaxHeaderTotalBytes /\
  zlen (foldl add_field (headers_ m) (p_fields p)) <= kMaxHeaderCount /\
  Forall (fun f => field_name f <> [] /\ snd f <> [] /\ field_size f <= kMaxSingleHeaderBytes) (p_fields p).

Lemma head_fits_after p m :
  head_fits p -> reason_phrase_ m = [] -> header_bytes_ m = 0 -> headers_ m = [] -> fits_after p m.
Proof. intros (H1 & H2 & H3 & H4) E1 E2 E3. unfold fits_after. rewrite E1, E2, E3. by split_and!. Qed.

(** The head, up to the last header. *)
Lemma run_head p m :
  between m -> fits_after p m ->
  exists m', run_callbacks (map on_status (p_reason p) ++ concat (map field_callbacks (p_fields p))) m = (m', HPE_OK) /\
    CommitHeader m' = (m <| reason_phrase_ ::= fun r => r ++ concat (p_reason p) |>
                         <| headers_ ::= fun h => foldl add_field h (p_fields p) |>
                         <| header_bytes_ ::= fun n => n + (zlen (concat (p_reason p)) + fields_size (p_fields p)) |>, true).
Proof.
  intros Hb (H1 & H2 & H3 & H4). pose proof (fields_size_nonneg (p_fields p)).
  assert (Hr : run_callbacks (map on_status (p_reason p)) m = _) by (apply run_reason; lia).
  set (m0 := m <| reason_phrase_ ::= _ |> <| header_bytes_ ::= _ |>) in Hr.
  destruct (run_fields (p_fields p) m0 m0) as (m' & Hf & (Hc & _)); [by apply ready_between|done|cbn; lia|done|].
  exists m'. split; [by rewrite (run_callbacks_ok _ _ _ _ Hr)|]. rewrite Hc. apply (f_equal2 pair); [|done].
  apply message_ext; cbn; try done. lia.
Qed.

Lemma between_replied p m : between m -> between (replied p m).
Proof. by intros (H1 & H2 & H3). Qed.

Definition is_interim (s : Z) : bool := (100 <=? s) && (s <? 200).

Lemma run_head_end st l m c :
  CommitHeader m = (c, true) -> is_interim st = false -> run_callbacks (on_headers_complete st :: l) m = run_callbacks l (c <| status_ := st |>).
Proof.
  intros H Hs. cbn [run_callbacks run_callback]. unfold http_on_headers_complete. rewrite H. cbn [negb]. unfold is_interim in Hs. rewrite Hs.
  by destruct (_ || _).
Qed.

Lemma run_reply p m :
  between m -> fits_after p m -> is_interim (p_status p) = false -> zlen (body_ m) + zlen (concat (p_body p)) <= max_response_bytes_ m ->
  run_callbacks (reply_callbacks p) m = (replied p m, HPE_OK).
Proof.
  intros Hb Hf Hs Hbody. destruct (run_head p m Hb Hf) as (m1 & R1 & C1). unfold reply_callbacks. rewrite app_assoc, (run_callbacks_ok _ _ _ _ R1).
  cbn [app]. rewrite (run_head_end _ _ _ _ C1 Hs). rewrite run_body by done. done.
Qed.

(** The end of a reply; [closed] is its state then. *)
Definition ended (p : reply) (m : message) : message :=
  llhttp_pause (replied p m <| message_done_ := true |> <| keep_alive_ := p_keep p |>).

Lemma run_reply_end p m :
  between m -> interim_ m = false -> run_callbacks [reply_end p] (replied p m) = (ended p m, HPE_OK).
Proof.
  intros Hb Hi. cbn [run_callbacks run_callback reply_end]. unfold http_on_message_complete.
  change (interim_ (replied p m)) with (interim_ m). rewrite Hi.
  destruct (ready_between _ (between_replied p m Hb)) as (-> & _). cbn [negb].
  change (status_ (replied p m)) with (p_status p). unfold ended.
  destruct (p_status p =? 0) eqn:E; [|done]. cbn. apply (f_equal2 pair); [|done]. unfold llhttp_pause. cbn. by destruct (m_error m =? HPE_OK).
Qed.

(** An interim response leaves nothing but its count. *)
Definition fresh (m : message) : Prop :=
  between m /\ reason_phrase_ m = [] /\ headers_ m = [] /\ body_ m = [] /\ status_ m = 0 /\ header_bytes_ m = 0 /\ interim_ m = false.

(** The end of an interim head, and of the response that has nothing else. *)
Lemma interim_head st m c :
  CommitHeader m = (c, true) -> is_interim st = true -> interim_count_ c + 1 <= kMaxInterimResponses -> 0 <= interim_count_ c ->
  http_on_headers_complete st m = (ResetMessageState (c <| status_ := st |> <| interim_count_ := interim_count_ c + 1 |> <| interim_ := true |>), 0).
Proof.
  intros Hc Hs Hn H0. unfold http_on_headers_complete. rewrite Hc. cbn [negb]. unfold is_interim in Hs. rewrite Hs. cbv zeta.
  set (d := (c <| status_ := st |>) <| interim_count_ ::= fun n => u32 (n + 1) |>).
  assert (Hd : d = c <| status_ := st |> <| interim_count_ := interim_count_ c + 1 |>).
  { apply message_ext; try reflexivity. apply u32_small. change (0 <= interim_count_ c + 1 < 4294967296). unfold kMaxInterimResponses in Hn. lia. }
  rewrite Hd. clearbody d. change (interim_count_ (c <| status_ := st |> <| interim_count_ := interim_count_ c + 1 |>)) with (interim_count_ c + 1).
  by rewrite (proj2 (Z.ltb_ge _ _) Hn).
Qed.

Lemma interim_end st k m : interim_ m = true -> http_on_message_complete st k m = (m <| interim_ := false |>, 0).
Proof. intros H. unfold http_on_message_complete. by rewrite H. Qed.

Lemma run_interim p m :
  fresh m -> head_fits p -> is_interim (p_status p) = true -> p_body p = [] -> 0 <= interim_count_ m < kMaxInterimResponses ->
  run_callbacks (reply_callbacks p ++ [reply_end p]) m = (m <| interim_count_ ::= Z.succ |>, HPE_OK).
Proof.
  intros (Hb & F1 & F2 & F3 & F4 & F5 & F6) Hf Hs Hbody Hn. destruct (run_head p m Hb) as (m1 & R1 & C1); [by apply head_fits_after|].
  set (c := _ <| header_bytes_ ::= _ |>) in C1.
  assert (Hl : reply_callbacks p ++ [reply_end p] =
    (map on_status (p_reason p) ++ concat (map field_callbacks (p_fields p))) ++ [on_headers_complete (p_status p); reply_end p]).
  { unfold reply_callbacks. rewrite Hbody. cbn [map]. by rewrite <- !app_assoc. }
  rewrite Hl, (run_callbacks_ok _ _ _ _ R1).
  assert (Hci : interim_count_ c = interim_count_ m) by reflexivity.
  erewrite run_callbacks_one; [|cbn [run_callback]; apply (interim_head _ _ _ C1 Hs); rewrite Hci; lia|done].
  erewrite run_callbacks_one; [|cbn [run_callback reply_end]; apply interim_end; reflexivity|done].
  cbn [run_callbacks]. apply (f_equal2 pair); [|done]. destruct Hb as (B1 & B2 & B3). rewrite Hci.
  apply message_ext; unfold ResetMessageState, no_header, c; try reflexivity; symmetry; assumption.
Qed.

Definition whole (p : reply) : list callback := reply_callbacks p ++ [reply_end p].

Definition interim_ok (p : reply) : Prop := is_interim (p_status p) = true /\ p_body p = [] /\ head_fits p.

Lemma run_interims ps : forall m,
  fresh m -> Forall interim_ok ps -> 0 <= interim_count_ m -> interim_count_ m + zlen ps <= kMaxInterimResponses ->
  run_callbacks (concat (map whole ps)) m = (m <| interim_count_ ::= fun n => n + zlen ps |>, HPE_OK).
Proof.
  induction ps as [|p ps IH]; intros m Hf Ho H0 Hn; cbn [map concat].
  - ext. change (zlen (@nil reply)) with 0. lia.
  - apply Forall_cons in Ho as [(O1 & O2 & O3) Ho]. rewrite zlen_cons in Hn. pose proof (zlen_nonneg ps).
    erewrite run_callbacks_ok; [|by apply run_interim; [..|lia]]. rewrite IH; [|done|done|cbn; lia|cbn; lia].
    ext. rewrite zlen_cons. lia.
Qed.

(** ** Calls of [OnChannelData] *)

(** What no callback changes. *)
Record steady (m m' : message) : Prop := {
  st_delivered : delivered_ m' = delivered_ m;
  st_done : message_done_ m = true -> message_done_ m' = true;
  st_error : message_done_ m' = false -> m_error m' = m_error m;
  st_pool : pool_enabled_ m' = pool_enabled_ m;
  st_max : max_response_bytes_ m' = max_response_bytes_ m
}.

Lemma message_steady_refl m : steady m m.
Proof. by split. Qed.

Lemma message_steady_trans m1 m2 m3 : steady m1 m2 -> steady m2 m3 -> steady m1 m3.
Proof.
  intros [A1 A2 A3 A4 A5] [B1 B2 B3 B4 B5]. split; try congruence; [auto|]. intros H. rewrite B3 by done. apply A3.
  destruct (message_done_ m2) eqn:E; [|done]. by rewrite B2 in H.
Qed.

Lemma Fail_steady r why m : steady m (Fail r why m).
Proof. unfold Fail. destruct (_ =? _); by split. Qed.

Lemma Commit_steady m : steady m (CommitHeader m).1.
Proof.
  unfold CommitHeader. destruct (bytes_eqb _ _); [by split|]. destruct (map_find _ _); [by split|].
  destruct (_ <=? _); [apply Fail_steady|by split].
Qed.

Lemma charge_steady bs m : steady m (charge bs m).1.
Proof.
  unfold charge, ChargeHeaderBytes, CheckSingleHeaderSize. destruct (_ <? _); cbn [negb]; [apply Fail_steady|].
  destruct (_ <? _); [|by split]. eapply message_steady_trans; [|apply Fail_steady]. by split.
Qed.

Lemma callback_steady cb m : steady m (run_callback cb m).1.
Proof.
  destruct cb as [bs|bs|bs|s|bs|s k]; cbn [run_callback].
  - unfold http_on_status, ChargeHeaderBytes. destruct (_ <? _); cbn [negb]; [apply Fail_steady|].
    destruct (_ <? _); [eapply message_steady_trans; [|apply Fail_steady]|]; by split.
  - unfold http_on_header_field. pose proof (Commit_steady m) as Hc. destruct (if last_was_value_ m then CommitHeader m else (m, true)) as [m1 ok] eqn:E.
    assert (H1 : steady m m1) by (destruct (last_was_value_ m); [by rewrite E in Hc|injection E as <- <-; apply message_steady_refl]).
    destruct ok; cbn [negb]; [|done]. pose proof (charge_steady bs m1) as Hg. destruct (charge bs m1) as [m2 ok].
    destruct ok; cbn [negb]; [|by eapply message_steady_trans]. eapply message_steady_trans; [exact H1|]. eapply message_steady_trans; [exact Hg|by split].
  - unfold http_on_header_value. cbv zeta. pose proof (charge_steady bs (m <| last_was_value_ := true |>)) as Hg. destruct (charge bs _) as [m2 ok].
    assert (H1 : steady m m2) by (eapply message_steady_trans; [|exact Hg]; by split).
    destruct ok; cbn [negb]; [|done]. eapply message_steady_trans; [exact H1|by split].
  - unfold http_on_headers_complete. pose proof (Commit_steady m) as Hc. destruct (CommitHeader m) as [m1 ok]. destruct ok; cbn [negb]; [|done]. cbv zeta.
    eapply message_steady_trans; [exact Hc|]. destruct ((100 <=? s) && (s <? 200)).
    + destruct (_ <? _); [eapply message_steady_trans; [|apply Fail_steady]|]; by split.
    + destruct (_ || _); by split.
  - unfold http_on_body. destruct (_ <? _); [apply Fail_steady|by split].
  - unfold http_on_message_complete. destruct (interim_ m); [by split|]. pose proof (Commit_steady m) as Hc. destruct (CommitHeader m) as [m1 ok].
    destruct ok; cbn [negb]; [|done]. cbv zeta. eapply message_steady_trans; [exact Hc|]. unfold llhttp_pause.
    destruct (status_ m1 =? 0); cbn; destruct (m_error m1 =? HPE_OK); by split.
Qed.

Lemma callbacks_steady cbs : forall m m', run_callbacks cbs m = (m', HPE_OK) -> steady m m'.
Proof.
  induction cbs as [|cb cbs IH]; intros m m'; cbn [run_callbacks].
  - intros [= <-]. apply message_steady_refl.
  - pose proof (callback_steady cb m) as H. destruct (run_callback cb m) as [m1 r]. destruct (callback_error cb r =? HPE_OK) eqn:E.
    + intros H1. eapply message_steady_trans; [exact H|by apply IH].
    + intros [= _ E2]. by rewrite E2 in E.
Qed.

(** The calls that do not end a response only run their callbacks. *)
Lemma feed_runs chunks : forall m m',
  run_callbacks (concat chunks) m = (m', HPE_OK) -> m_error m = 0 -> delivered_ m = false -> message_done_ m' = false ->
  feed chunks m = m'.
Proof.
  induction chunks as [|c chunks IH]; intros m m' H He Hd Hm; cbn [concat] in H; [by injection H|].
  rewrite run_callbacks_app in H. destruct (run_callbacks c m) as [m1 e] eqn:E1.
  destruct (e =? HPE_OK) eqn:Ee; [apply Z.eqb_eq in Ee; subst e|injection H as -> ->; done].
  pose proof (callbacks_steady _ _ _ E1) as [S1 S2 S3 S4 S5]. pose proof (callbacks_steady _ _ _ H) as [T1 T2 T3 T4 T5].
  assert (Hm1 : message_done_ m1 = false) by (destruct (message_done_ m1); [by rewrite T2 in Hm|done]).
  unfold feed. cbn [foldl]. replace (OnChannelData c HPE_OK m) with m1.
  - apply IH; [done|by rewrite S3|congruence|done].
  - unfold OnChannelData, llhttp_execute. rewrite Hd, He. cbn [negb Z.eqb HPE_OK]. rewrite E1. cbn [negb Z.eqb HPE_OK orb]. by rewrite Hm1.
Qed.

(** The call that ends it. *)
Lemma feed_last cbs m m' :
  run_callbacks cbs m = (m', HPE_OK) -> m_error m = 0 -> delivered_ m = false -> message_done_ m' = true ->
  OnChannelData cbs HPE_OK m = ask_channel (if ShouldKeepConnectionAlive m' then DeliverAndPool else CloseChannel) m'.
Proof.
  intros H He Hd Hm. pose proof (callbacks_steady _ _ _ H) as [S1 _ _ _ _].
  unfold OnChannelData, llhttp_execute. rewrite Hd, He. cbn [negb Z.eqb HPE_OK]. rewrite H. cbn [negb Z.eqb HPE_OK orb].
  rewrite Hm, S1, Hd. cbn [negb andb]. by destruct (ShouldKeepConnectionAlive m').
Qed.

(** The calls of a whole response, wherever they are cut. *)
Lemma feed_ends chunks last m0 m1 cb m2 :
  run_callbacks (concat chunks ++ last) m0 = (m1, HPE_OK) -> run_callbacks [cb] m1 = (m2, HPE_OK) ->
  m_error m0 = 0 -> delivered_ m0 = false -> message_done_ m1 = false -> message_done_ m2 = true ->
  feed (chunks ++ [last ++ [cb]]) m0 = ask_channel (if ShouldKeepConnectionAlive m2 then DeliverAndPool else CloseChannel) m2.
Proof.
  intros R R' He Hd Hm1 Hm2. rewrite run_callbacks_app in R. destruct (run_callbacks (concat chunks) m0) as [m e] eqn:R4.
  destruct (e =? HPE_OK) eqn:Ee; [apply Z.eqb_eq in Ee; subst e|injection R as -> ->; done].
  pose proof (callbacks_steady _ _ _ R4) as [A1 A2 A3 A4 A5]. pose proof (callbacks_steady _ _ _ R) as [B1 B2 B3 B4 B5].
  assert (Hm : message_done_ m = false) by (destruct (message_done_ m); [by rewrite B2 in Hm1|done]).
  unfold feed. rewrite foldl_app. cbn [foldl]. fold (feed chunks m0). rewrite (feed_runs _ _ _ R4) by done.
  apply feed_last; [by rewrite (run_callbacks_ok _ _ _ _ R)|by rewrite A3|by rewrite A1|done].
Qed.

(** ** The headers of a reply *)

Definition joined (vs : list bytes) : option bytes :=
  match vs with [] => None | v :: vs => Some (foldl (fun a v => a ++ str ", " ++ v) v vs) end.

(** The values of the fields of a name, in their order. *)
Definition values_of (k : bytes) (fs : list (list bytes * list bytes)) : list bytes :=
  map field_value (List.filter (fun f => bytes_eqb (ToLowerAscii (field_name f)) k) fs).

Lemma add_field_find h f k :
  map_find (add_field h f) k =
    if bytes_eqb (ToLowerAscii (field_name f)) k
    then Some (match map_find h k with Some old => old ++ str ", " ++ field_value f | None => field_value f end) else map_find h k.
Proof.
  unfold add_field. cbv zeta. rewrite map_find_set. destruct (bytes_eqb (ToLowerAscii (field_name f)) k) eqn:E; [|done].
  apply bytes_eqb_true in E. by rewrite E.
Qed.

Lemma gathered_find fs k : map_find (gathered fs) k = joined (values_of k fs).
Proof.
  induction fs as [|f fs IH] using rev_ind; [done|]. unfold gathered, values_of in *. rewrite foldl_app, List.filter_app, map_app. cbn [foldl List.filter].
  rewrite add_field_find, IH. destruct (bytes_eqb (ToLowerAscii (field_name f)) k) eqn:E.
  - cbn [map]. destruct (map field_value _) as [|v vs]; [done|]. cbn [app joined].
    by rewrite foldl_app.
  - cbn [map]. by rewrite app_nil_r.
Qed.

Lemma fresh_new max head pool : fresh (new_message max head pool).
Proof. by split_and!. Qed.

Lemma deliver_done closeResult ends m :
  delivered_ m = false -> message_done_ m = true -> snd (DeliverOnce true closeResult ends m) = Some (OnHttpResponse (response_of m)).
Proof.
  intros H1 H2. unfold DeliverOnce. rewrite H1. cbv zeta. change (message_done_ (m <| delivered_ := true |>)) with (message_done_ m).
  rewrite H2. cbn [negb andb]. change (message_done_ (m <| delivered_ := true |>)) with (message_done_ m). by rewrite H2.
Qed.

(** [llhttp_pause] changes llhttp's error only. *)
Lemma pause_same m : exists e, llhttp_pause m = m <| m_error := e |>.
Proof. unfold llhttp_pause. destruct (m_error m =? HPE_OK); [by eexists|]. exists (m_error m). by apply message_ext. Qed.

Lemma ended_done p m : message_done_ (ended p m) = true.
Proof. unfold ended. by destruct (pause_same (replied p m <| message_done_ := true |> <| keep_alive_ := p_keep p |>)) as [e ->]. Qed.

Lemma ended_delivered p m : delivered_ (ended p m) = delivered_ m.
Proof. unfold ended. by destruct (pause_same (replied p m <| message_done_ := true |> <| keep_alive_ := p_keep p |>)) as [e ->]. Qed.

Lemma ended_asked p m : asked (ended p m) = asked m.
Proof. unfold ended. by destruct (pause_same (replied p m <| message_done_ := true |> <| keep_alive_ := p_keep p |>)) as [e ->]. Qed.

Lemma ended_response p m : response_of (ended p m) =
  {| rs_status := p_status p; rs_reason := reason_phrase_ m ++ concat (p_reason p);
     rs_headers := foldl add_field (headers_ m) (p_fields p); rs_body := body_ m ++ concat (p_body p) |}.
Proof. unfold ended. by destruct (pause_same (replied p m <| message_done_ := true |> <| keep_alive_ := p_keep p |>)) as [e ->]. Qed.

Lemma ended_kept p m :
  fail_result_ m = BC_R_SUCCESS -> delivered_ m = false -> ShouldKeepConnectionAlive (ended p m) = pool_enabled_ m && p_keep p.
Proof.
  intros Hf Hd. unfold ended. destruct (pause_same (replied p m <| message_done_ := true |> <| keep_alive_ := p_keep p |>)) as [e ->].
  unfold ShouldKeepConnectionAlive. set (m' := _ <| m_error := e |>). change (pool_enabled_ m') with (pool_enabled_ m).
  change (keep_alive_ m') with (p_keep p). change (message_done_ m') with true. change (fail_result_ m') with (fail_result_ m).
  change (delivered_ m') with (delivered_ m). rewrite Hf, Hd. change (BC_R_SUCCESS =? BC_R_SUCCESS) with true. cbn [negb]. by rewrite !andb_true_r.
Qed.

(** After a response the parser goes on as before it, with what it left. *)
Lemma ended_between p m : between m -> interim_ m = false ->
  between (ended p m) /\ interim_ (ended p m) = false /\ reason_phrase_ (ended p m) = reason_phrase_ (replied p m) /\
  header_bytes_ (ended p m) = header_bytes_ (replied p m) /\ headers_ (ended p m) = headers_ (replied p m) /\
  body_ (ended p m) = body_ m ++ concat (p_body p) /\ max_response_bytes_ (ended p m) = max_response_bytes_ m /\ delivered_ (ended p m) = delivered_ m.
Proof.
  intros (H1 & H2 & H3) Hi. unfold ended. destruct (pause_same (replied p m <| message_done_ := true |> <| keep_alive_ := p_keep p |>)) as [e ->].
  split_and!; first [done|reflexivity|exact Hi].
Qed.

Lemma deliver_asked closeResult ends a m : delivered_ m = false -> message_done_ m = true ->
  snd (DeliverOnce true closeResult ends (ask_channel a m)) = Some (OnHttpResponse (response_of m)).
Proof. intros H1 H2. by rewrite (deliver_done closeResult ends (ask_channel a m)). Qed.

(** What is delivered after the call that ended a response. *)
Lemma deliver_ended closeResult ends a p m : delivered_ m = false ->
  snd (DeliverOnce true closeResult ends (ask_channel a (ended p m))) = Some (OnHttpResponse (response_of (ended p m))).
Proof. intros H. apply deliver_asked; [by rewrite ended_delivered|apply ended_done]. Qed.

Lemma asked_after a m : asked (ask_channel a m) = asked m ++ [a].
Proof. done. Qed.

(** C29: a response that keeps the limits is delivered as the server meant it, however the
    network and the parser cut it: after up to eight interim responses, which leave no trace,
    the status, the reason and the body are those of the reply, each header has the values of
    its fields in their order, and the channel is kept for another request exactly when
    pooling is on and the parser found that the server keeps it. *)
Theorem response_assembled max head pool interims p chunks last closeResult ends :
  Forall interim_ok interims -> zlen interims <= kMaxInterimResponses ->
  is_interim (p_status p) = false -> head_fits p -> zlen (concat (p_body p)) <= max ->
  concat chunks ++ last = concat (map whole interims) ++ reply_callbacks p ->
  let m := feed (chunks ++ [last ++ [reply_end p]]) (new_message max head pool) in
  asked m = [if pool && p_keep p then DeliverAndPool else CloseChannel] /\
  exists resp, snd (DeliverOnce true closeResult ends m) = Some (OnHttpResponse resp) /\
    rs_status resp = p_status p /\ rs_reason resp = concat (p_reason p) /\ rs_body resp = concat (p_body p) /\
    forall k, map_find (rs_headers resp) k = joined (values_of k (p_fields p)).
Proof.
  intros Hi Hn Hs Hf Hb Hcut m. set (m0 := new_message max head pool) in *. pose (m1 := m0 <| interim_count_ ::= fun n => n + zlen interims |>).
  assert (R1 : run_callbacks (concat (map whole interims)) m0 = (m1, HPE_OK)).
  { apply run_interims; [apply fresh_new|done|done|]. change (interim_count_ m0) with 0. lia. }
  assert (F1 : fresh m1) by by split_and!. pose proof F1 as (Hb1 & E1 & E2 & E3 & _ & E5 & E6).
  assert (Ed : delivered_ m1 = false) by done. assert (Ef : fail_result_ m1 = BC_R_SUCCESS) by done. assert (Ep : pool_enabled_ m1 = pool) by done.
  assert (Ea : asked m1 = []) by done. assert (Em : message_done_ m1 = false) by done. assert (Ex : max_response_bytes_ m1 = max) by done. clearbody m1.
  assert (R2 : run_callbacks (reply_callbacks p) m1 = (replied p m1, HPE_OK)).
  { apply run_reply; [done|by apply head_fits_after|done|]. rewrite E3, Ex. exact Hb. }
  assert (R3 : run_callbacks (concat chunks ++ last) m0 = (replied p m1, HPE_OK)) by by rewrite Hcut, (run_callbacks_ok _ _ _ _ R1).
  assert (Hdone : message_done_ (replied p m1) = false) by exact Em.
  pose proof (feed_ends _ _ _ _ (reply_end p) (ended p m1) R3 (run_reply_end p m1 Hb1 E6) eq_refl eq_refl Hdone (ended_done p m1)) as Hm.
  fold m in Hm. clearbody m. subst m. split.
  - by rewrite asked_after, ended_asked, Ea, ended_kept, Ep.
  - eexists. split; [by apply deliver_ended|]. rewrite ended_response, E1, E2, E3. split_and!; [done..|]. intros k. apply gathered_find.
Qed.

(** ** Bounds *)

(** Each byte of a header was charged; a header that is joined to another costs two more, and
    its name, which is not empty, was charged too. *)
Record bounded (m : message) : Prop := {
  bo_body : zlen (body_ m) <= max_response_bytes_ m;
  bo_bytes : 0 <= header_bytes_ m <= kMaxHeaderTotalBytes;
  bo_count : zlen (headers_ m) <= kMaxHeaderCount;
  bo_reason : zlen (reason_phrase_ m) <= kMaxReasonBytes;
  bo_header : zlen (cur_field_ m) + zlen (cur_value_ m) <= kMaxSingleHeaderBytes;
  bo_sorted : map_sorted (headers_ m);
  bo_charged : headers_size (headers_ m) + zlen (reason_phrase_ m) + 3 * (zlen (cur_field_ m) + zlen (cur_value_ m)) <= 3 * header_bytes_ m
}.

Lemma bounded_new max head pool : 0 <= max -> bounded (new_message max head pool).
Proof. intros H. split; cbn; try done. apply SSorted_nil. Qed.

Lemma bounded_same m m' :
  bounded m -> max_response_bytes_ m' = max_response_bytes_ m -> body_ m' = body_ m -> header_bytes_ m' = header_bytes_ m ->
  headers_ m' = headers_ m -> reason_phrase_ m' = reason_phrase_ m -> cur_field_ m' = cur_field_ m -> cur_value_ m' = cur_value_ m -> bounded m'.
Proof. intros [B1 B2 B3 B4 B5 B6 B7] E1 E2 E3 E4 E5 E6 E7. split; by rewrite ?E1, ?E2, ?E3, ?E4, ?E5, ?E6, ?E7. Qed.

Lemma bounded_fail r why m : bounded m -> bounded (Fail r why m).
Proof. intros H. unfold Fail. destruct (_ =? _); by apply (bounded_same m). Qed.

Lemma zlen_ToLowerAscii s : zlen (ToLowerAscii s) = zlen s.
Proof. unfold ToLowerAscii, zlen. by rewrite length_map. Qed.

(** A state whose new sizes are sums of the old ones. *)
Ltac keep_bounds :=
  split; cbn -[headers_size map_set ToLowerAscii str zlen app kMaxSingleHeaderBytes kMaxHeaderTotalBytes kMaxHeaderCount kMaxReasonBytes];
  rewrite ?zlen_app; change (zlen (@nil Z)) with 0; change (zlen (@nil (bytes * bytes))) with 0;
  try first [done | lia | by apply map_set_sorted | apply SSorted_nil | unfold kMaxSingleHeaderBytes in *; lia | unfold kMaxHeaderCount in *; lia].

Lemma bounded_commit m : bounded m -> bounded (CommitHeader m).1.
Proof.
  intros [B1 B2 B3 B4 B5 B6 B7]. pose proof (zlen_nonneg (cur_field_ m)). pose proof (zlen_nonneg (cur_value_ m)). unfold CommitHeader.
  destruct (bytes_eqb (cur_field_ m) []) eqn:E.
  - keep_bounds.
  - assert (Hn : 0 < zlen (cur_field_ m)).
    { destruct (cur_field_ m) as [|c l]; [done|]. rewrite zlen_cons. pose proof (zlen_nonneg l). lia. }
    destruct (map_find (headers_ m) _) as [old|] eqn:Ef.
    + destruct (map_set_old _ _ (old ++ str ", " ++ cur_value_ m) _ B6 Ef) as [L1 L2]. rewrite !zlen_app in L2. change (zlen (str ", ")) with 2 in L2.
      keep_bounds.
    + destruct (kMaxHeaderCount <=? _) eqn:El; [by apply bounded_fail|]. apply Z.leb_gt in El.
      destruct (map_set_new _ _ (cur_value_ m) Ef) as [L1 L2]. rewrite zlen_ToLowerAscii in L2.
      keep_bounds.
Qed.

(** What the charges leave for [bs] bytes more. *)
Lemma bounded_charge bs m : bounded m ->
  bounded (charge bs m).1 /\
  ((charge bs m).2 = true -> header_bytes_ m + zlen bs <= kMaxHeaderTotalBytes /\ zlen (cur_field_ m) + zlen (cur_value_ m) + zlen bs <= kMaxSingleHeaderBytes /\
     (charge bs m).1 = m <| header_bytes_ ::= fun n => n + zlen bs |>).
Proof.
  intros Hb. pose proof Hb as [B1 B2 B3 B4 B5 B6 B7]. pose proof (zlen_nonneg bs). unfold charge, ChargeHeaderBytes, CheckSingleHeaderSize.
  destruct (Z.ltb_spec kMaxHeaderTotalBytes (header_bytes_ m + zlen bs)); cbn [negb]; [by split; [apply bounded_fail|]|].
  assert (Hc : bounded (m <| header_bytes_ ::= fun n => n + zlen bs |>)) by keep_bounds.
  destruct (_ <? _) eqn:E; cbn [fst snd]; [by split; [apply bounded_fail|]|]. apply Z.ltb_ge in E. split; [done|]. intros _. by split_and!.
Qed.

Lemma bounded_callback cb m : bounded m -> bounded (run_callback cb m).1.
Proof.
  intros Hb. pose proof Hb as [B1 B2 B3 B4 B5 B6 B7]. destruct cb as [bs|bs|bs|s|bs|s k]; cbn [run_callback].
  - pose proof (zlen_nonneg bs). unfold http_on_status, ChargeHeaderBytes. destruct (Z.ltb_spec kMaxHeaderTotalBytes (header_bytes_ m + zlen bs)); cbn [negb]; [by apply bounded_fail|].
    assert (Hc : bounded (m <| header_bytes_ ::= fun n => n + zlen bs |>)) by keep_bounds.
    destruct (_ <? _) eqn:E; [by apply bounded_fail|]. apply Z.ltb_ge in E. cbn in E. keep_bounds.
  - unfold http_on_header_field. pose proof (bounded_commit m Hb) as Hc. destruct (if last_was_value_ m then CommitHeader m else (m, true)) as [m1 ok] eqn:E.
    assert (H1 : bounded m1) by (destruct (last_was_value_ m); [by rewrite E in Hc|by injection E as <- <-]).
    destruct ok; cbn [negb]; [|done]. destruct (bounded_charge bs m1 H1) as [H2 H3]. destruct (charge bs m1) as [m2 ok]. cbn [fst snd] in *.
    destruct ok; cbn [negb]; [|done]. destruct (H3 eq_refl) as (L1 & L2 & ->). pose proof (zlen_nonneg bs). destruct H1 as [D1 D2 D3 D4 D5 D6 D7].
    keep_bounds.
  - unfold http_on_header_value. cbv zeta. assert (H1 : bounded (m <| last_was_value_ := true |>)) by by apply (bounded_same m).
    destruct (bounded_charge bs _ H1) as [H2 H3]. destruct (charge bs _) as [m2 ok]. cbn [fst snd] in *.
    destruct ok; cbn [negb]; [|done]. destruct (H3 eq_refl) as (L1 & L2 & ->). pose proof (zlen_nonneg bs). cbn in L1, L2.
    keep_bounds.
  - unfold http_on_headers_complete. pose proof (bounded_commit m Hb) as Hc. destruct (CommitHeader m) as [m1 ok]. cbn [fst] in Hc.
    destruct ok; cbn [negb]; [|done]. cbv zeta. destruct ((100 <=? s) && (s <? 200)).
    + destruct (_ <? _); [apply bounded_fail; by apply (bounded_same m1)|]. destruct Hc as [D1 D2 D3 D4 D5 D6 D7].
      pose proof (zlen_nonneg (body_ m1)). keep_bounds.
    + destruct (_ || _); by apply (bounded_same m1).
  - unfold http_on_body. destruct (_ <? _) eqn:E; [by apply bounded_fail|]. apply Z.ltb_ge in E. keep_bounds.
  - unfold http_on_message_complete. destruct (interim_ m); [by apply (bounded_same m)|]. pose proof (bounded_commit m Hb) as Hc.
    destruct (CommitHeader m) as [m1 ok]. cbn [fst] in Hc. destruct ok; cbn [negb]; [|done]. cbv zeta. unfold llhttp_pause.
    destruct (status_ m1 =? 0); cbn; destruct (m_error m1 =? HPE_OK); by apply (bounded_same m1).
Qed.

Lemma bounded_callbacks cbs : forall m, bounded m -> bounded (run_callbacks cbs m).1.
Proof.
  induction cbs as [|cb cbs IH]; intros m Hb; cbn [run_callbacks]; [done|]. pose proof (bounded_callback cb m Hb) as H.
  destruct (run_callback cb m) as [m1 r]. cbn [fst] in H. destruct (_ =? _); [by apply IH|by apply (bounded_same m1)].
Qed.

Lemma bounded_data cbs own m : bounded m -> bounded (OnChannelData cbs own m).
Proof.
  intros Hb. unfold OnChannelData. destruct (delivered_ m); [done|]. destruct (llhttp_execute cbs own m) as [m1 err] eqn:E.
  assert (H1 : bounded m1).
  { unfold llhttp_execute in E. destruct (negb _); [by injection E as <- <-|]. pose proof (bounded_callbacks cbs m Hb) as H.
    destruct (run_callbacks cbs m) as [m2 e]. cbn [fst] in H. destruct (negb _); [by injection E as <- <-|].
    destruct (negb _); injection E as <- <-; [by apply (bounded_same m2)|done]. }
  destruct (_ || _).
  - destruct (_ && _); [|done]. destruct (ShouldKeepConnectionAlive m1); by apply (bounded_same m1).
  - destruct (negb _); [by apply (bounded_same m1)|by apply bounded_fail].
Qed.

(** Any calls of [OnChannelData]: what llhttp found, and the error it ended with. *)
Definition receive (inputs : list (list callback * Z)) (m : message) : message := foldl (fun m x => OnChannelData x.1 x.2 m) m inputs.

Lemma bounded_receive inputs : forall m, bounded m -> bounded (receive inputs m).
Proof.
  induction inputs as [|x inputs IH]; intros m H; [done|]. unfold receive. cbn [foldl]. by apply IH, bounded_data.
Qed.

Lemma max_callbacks cbs : forall m, max_response_bytes_ (run_callbacks cbs m).1 = max_response_bytes_ m.
Proof.
  induction cbs as [|cb cbs IH]; intros m; cbn [run_callbacks]; [done|]. pose proof (st_max _ _ (callback_steady cb m)) as H.
  destruct (run_callback cb m) as [m1 r]. cbn [fst] in H. destruct (_ =? _); [by rewrite IH|exact H].
Qed.

Lemma max_Fail r why m : max_response_bytes_ (Fail r why m) = max_response_bytes_ m.
Proof. unfold Fail. by destruct (_ =? _). Qed.

Lemma max_data cbs own m : max_response_bytes_ (OnChannelData cbs own m) = max_response_bytes_ m.
Proof.
  unfold OnChannelData, llhttp_execute. destruct (delivered_ m); [done|]. destruct (negb (m_error m =? HPE_OK)).
  - destruct (_ || _); [destruct (_ && _); [by destruct (ShouldKeepConnectionAlive m)|done]|]. destruct (negb _); [done|apply max_Fail].
  - pose proof (max_callbacks cbs m) as H. destruct (run_callbacks cbs m) as [m1 e]. cbn [fst] in H.
    assert (Hgo : forall m2 err, max_response_bytes_ m2 = max_response_bytes_ m ->
      max_response_bytes_ (if (err =? HPE_OK) || (err =? HPE_PAUSED) then
        if message_done_ m2 && negb (delivered_ m2) then
          if ShouldKeepConnectionAlive m2 then ask_channel DeliverAndPool m2 else ask_channel CloseChannel m2
        else m2
      else if negb (fail_result_ m2 =? BC_R_SUCCESS) then ask_channel CloseChannel m2
      else Fail BC_R_UNEXPECTEDTOKEN (ParseFailed err) m2) = max_response_bytes_ m).
    { intros m2 err H2. destruct (_ || _); [destruct (_ && _); [by destruct (ShouldKeepConnectionAlive m2)|done]|]. destruct (negb _); [done|by rewrite max_Fail]. }
    destruct (negb (e =? HPE_OK)); [by apply Hgo|]. destruct (negb (own =? HPE_OK)); by apply Hgo.
Qed.

Lemma max_receive inputs : forall m, max_response_bytes_ (receive inputs m) = max_response_bytes_ m.
Proof. induction inputs as [|x inputs IH]; intros m; [done|]. unfold receive in *. cbn [foldl]. by rewrite IH, max_data. Qed.

(** C30: whatever a server sends and however the parser tells of it, what is held of the
    response stays within the limits: the body within the configured one, the reason, the
    number of headers and the header being read within theirs, and the headers, joined
    values and separators included, within three times the bytes of a head. *)
Theorem response_bounded max head pool inputs :
  0 <= max ->
  let m := receive inputs (new_message max head pool) in
  zlen (body_ m) <= max /\ zlen (reason_phrase_ m) <= kMaxReasonBytes /\ zlen (headers_ m) <= kMaxHeaderCount /\
  zlen (cur_field_ m) + zlen (cur_value_ m) <= kMaxSingleHeaderBytes /\ headers_size (headers_ m) <= 3 * kMaxHeaderTotalBytes.
Proof.
  intros H m. destruct (bounded_receive inputs _ (bounded_new max head pool H)) as [B1 B2 B3 B4 B5 B6 B7]. change (receive _ _) with m in B1, B2, B3, B4, B5, B6, B7.
  assert (Hmax : max_response_bytes_ m = max) by apply max_receive. rewrite Hmax in B1. pose proof (zlen_nonneg (reason_phrase_ m)). pose proof (zlen_nonneg (cur_field_ m)).
  pose proof (zlen_nonneg (cur_value_ m)). split_and!; try done. lia.
Qed.

(** ** Responses that are cut, and two in one *)

Definition is_complete (cb : callback) : bool := match cb with on_message_complete _ _ => true | _ => false end.

Lemma done_Fail r why m : message_done_ (Fail r why m) = message_done_ m.
Proof. unfold Fail. by destruct (_ =? _). Qed.

Ltac done_fail := first [apply done_Fail | cbn [fst]; unfold FailHeaderLimit; by rewrite done_Fail].

Lemma done_Commit m : message_done_ (CommitHeader m).1 = message_done_ m.
Proof.
  unfold CommitHeader. destruct (bytes_eqb _ _); [done|]. destruct (map_find _ _); [done|]. destruct (_ <=? _); [done_fail|done].
Qed.

Lemma done_charge bs m : message_done_ (charge bs m).1 = message_done_ m.
Proof.
  unfold charge, ChargeHeaderBytes, CheckSingleHeaderSize. destruct (_ <? _); cbn [negb]; [done_fail|].
  destruct (_ <? _); [|done]. done_fail.
Qed.

Lemma done_callback cb m : is_complete cb = false -> message_done_ (run_callback cb m).1 = message_done_ m.
Proof.
  destruct cb as [bs|bs|bs|s|bs|s k]; cbn [run_callback is_complete]; intros Hc; try done.
  - unfold http_on_status, ChargeHeaderBytes. destruct (_ <? _); cbn [negb]; [done_fail|]. destruct (_ <? _); [done_fail|done].
  - unfold http_on_header_field. pose proof (done_Commit m) as H. destruct (last_was_value_ m).
    + destruct (CommitHeader m) as [m1 ok]. cbn [fst] in H. destruct ok; cbn [negb]; [|done]. pose proof (done_charge bs m1) as Hg.
      destruct (charge bs m1) as [m2 ok]. cbn [fst] in Hg. destruct ok; cbn [negb]; cbn; congruence.
    + cbn [negb]. pose proof (done_charge bs m) as Hg. destruct (charge bs m) as [m2 ok]. cbn [fst] in Hg. by destruct ok.
  - unfold http_on_header_value. cbv zeta. pose proof (done_charge bs (m <| last_was_value_ := true |>)) as Hg.
    destruct (charge bs _) as [m2 ok]. cbn [fst] in Hg. by destruct ok.
  - unfold http_on_headers_complete. pose proof (done_Commit m) as H. destruct (CommitHeader m) as [m1 ok]. cbn [fst] in H. destruct ok; cbn [negb]; [|done].
    cbv zeta. destruct ((100 <=? s) && (s <? 200)); [destruct (_ <? _); [cbn [fst]; rewrite done_Fail|]; exact H|]. by destruct (_ || _).
  - unfold http_on_body. destruct (_ <? _); [done_fail|done].
Qed.

Lemma done_callbacks cbs : forall m, existsb is_complete cbs = false -> message_done_ (run_callbacks cbs m).1 = message_done_ m.
Proof.
  induction cbs as [|cb cbs IH]; intros m Hc; cbn [run_callbacks]; [done|]. cbn in Hc. apply orb_false_iff in Hc as [H1 H2].
  pose proof (done_callback cb m H1) as H. destruct (run_callback cb m) as [m1 r]. cbn [fst] in H. destruct (_ =? _); [by rewrite IH|exact H].
Qed.

Lemma done_data cbs own m : existsb is_complete cbs = false -> message_done_ (OnChannelData cbs own m) = message_done_ m.
Proof.
  intros Hc. unfold OnChannelData, llhttp_execute. destruct (delivered_ m); [done|]. pose proof (done_callbacks cbs m Hc) as H.
  assert (Hgo : forall m2 err, message_done_ m2 = message_done_ m ->
    message_done_ (if (err =? HPE_OK) || (err =? HPE_PAUSED) then
      if message_done_ m2 && negb (delivered_ m2) then
        if ShouldKeepConnectionAlive m2 then ask_channel DeliverAndPool m2 else ask_channel CloseChannel m2
      else m2
    else if negb (fail_result_ m2 =? BC_R_SUCCESS) then ask_channel CloseChannel m2
    else Fail BC_R_UNEXPECTEDTOKEN (ParseFailed err) m2) = message_done_ m).
  { intros m2 err H2. destruct (_ || _); [destruct (_ && _); [by destruct (ShouldKeepConnectionAlive m2)|done]|]. destruct (negb _); [done|by rewrite done_Fail]. }
  destruct (negb (m_error m =? HPE_OK)); [by apply Hgo|]. destruct (run_callbacks cbs m) as [m1 e]. cbn [fst] in H.
  destruct (negb (e =? HPE_OK)); [by apply Hgo|]. destruct (negb (own =? HPE_OK)); by apply Hgo.
Qed.

Lemma done_receive inputs : forall m,
  message_done_ m = false -> message_done_ (receive inputs m) = true -> exists x, x ∈ inputs /\ existsb is_complete x.1 = true.
Proof.
  induction inputs as [|x inputs IH]; intros m Hm Hd; unfold receive in *; cbn [foldl] in Hd; [congruence|].
  destruct (existsb is_complete x.1) eqn:E; [exists x; split; [by left|done]|].
  destruct (IH (OnChannelData x.1 x.2 m)) as (y & Hy & Hc); [by rewrite done_data|done|]. exists y. split; [by right|done].
Qed.

Lemma finish_delivered ends m : delivered_ (llhttp_finish ends m) = delivered_ m.
Proof.
  unfold llhttp_finish. destruct (negb _); [done|]. destruct ends as [[s k]|]; [|done].
  exact (st_delivered _ _ (callback_steady (on_message_complete s k) m)).
Qed.

(** What [_DeliverOnce] looks at, and what it makes of it. *)
Definition at_close (closeResult : BCRESULT) (ends : option (Z * bool)) (m : message) : message :=
  if negb (message_done_ m) && (fail_result_ m =? BC_R_SUCCESS) && (closeResult =? BC_R_SUCCESS)
  then llhttp_finish ends (m <| delivered_ := true |>) else m <| delivered_ := true |>.

Lemma DeliverOnce_at_close handler_ closeResult ends m : delivered_ m = false ->
  DeliverOnce handler_ closeResult ends m =
    (let m := at_close closeResult ends m in
     let tell o := if handler_ then Some o else None in
     if message_done_ m then (m, tell (OnHttpResponse (response_of m)))
     else if negb (fail_result_ m =? BC_R_SUCCESS) then (m, tell (OnHttpError (fail_result_ m) (fail_message_ m)))
     else if negb (closeResult =? BC_R_SUCCESS) then (m, tell (OnHttpError closeResult (Some (ChannelClosed (status_ m)))))
     else (m, tell (OnHttpError BC_R_UNEXPECTEDEND (Some ResponseCut)))).
Proof. intros H. unfold DeliverOnce. by rewrite H. Qed.

Lemma at_close_delivered closeResult ends m : delivered_ (at_close closeResult ends m) = true.
Proof. unfold at_close. destruct (_ && _); [by rewrite finish_delivered|done]. Qed.

Lemma finish_none m : llhttp_finish None m = m.
Proof. unfold llhttp_finish. by destruct (negb _). Qed.

Lemma delivered_after handler_ closeResult ends m : delivered_ (fst (DeliverOnce handler_ closeResult ends m)) = true.
Proof.
  destruct (delivered_ m) eqn:E; [unfold DeliverOnce; by rewrite E|]. rewrite DeliverOnce_at_close by done. cbv zeta.
  pose proof (at_close_delivered closeResult ends m) as H. set (m1 := at_close _ _ _) in *. clearbody m1.
  destruct (message_done_ m1); [done|]. destruct (negb (fail_result_ m1 =? _)); [done|]. by destruct (negb (closeResult =? _)).
Qed.

(** The parser's end is the connection's only where nothing had failed. *)
Lemma at_close_done closeResult ends m : message_done_ (at_close closeResult ends m) = true ->
  message_done_ m = true \/ (closeResult = BC_R_SUCCESS /\ is_Some ends /\ fail_result_ m = BC_R_SUCCESS).
Proof.
  unfold at_close. destruct (message_done_ m) eqn:Em; [by left|]. cbn [negb andb]. intros H. right.
  destruct (Z.eqb_spec (fail_result_ m) BC_R_SUCCESS) as [Hf|Hf]; cbn [andb] in H.
  - destruct (Z.eqb_spec closeResult BC_R_SUCCESS) as [Hc|Hc].
    + split; [done|]. split; [|done]. destruct ends as [e|]; [by eexists|]. rewrite finish_none in H. change (message_done_ m = true) in H. congruence.
    + change (message_done_ m = true) in H. congruence.
  - change (message_done_ m = true) in H. congruence.
Qed.

Lemma deliver_only handler_ closeResult ends m resp :
  snd (DeliverOnce handler_ closeResult ends m) = Some (OnHttpResponse resp) ->
  message_done_ m = true \/ (closeResult = BC_R_SUCCESS /\ is_Some ends /\ fail_result_ m = BC_R_SUCCESS).
Proof.
  destruct (delivered_ m) eqn:E; [unfold DeliverOnce; by rewrite E|]. rewrite DeliverOnce_at_close by done. cbv zeta.
  pose proof (at_close_done closeResult ends m) as H. set (m1 := at_close _ _ _) in *. clearbody m1.
  destruct (message_done_ m1); [intros _; by apply H|]. destruct (negb (fail_result_ m1 =? BC_R_SUCCESS)), (negb (closeResult =? BC_R_SUCCESS)), handler_; discriminate.
Qed.

(** A response is delivered only when the parser came to its end: in the bytes received,
    or, when nothing had failed and the connection closed cleanly, at the connection's end.
    One that was cut is an error, and nothing is told twice. *)
Theorem cut_response_is_error max head pool inputs handler_ closeResult ends m o :
  DeliverOnce handler_ closeResult ends (receive inputs (new_message max head pool)) = (m, o) ->
  (forall resp, o = Some (OnHttpResponse resp) ->
     (exists x, x ∈ inputs /\ existsb is_complete x.1 = true) \/
     (closeResult = BC_R_SUCCESS /\ is_Some ends /\ fail_result_ (receive inputs (new_message max head pool)) = BC_R_SUCCESS)) /\
  forall handler_' again ends', snd (DeliverOnce handler_' again ends' m) = None.
Proof.
  set (m0 := receive inputs _). intros H. split.
  - intros resp ->. destruct (deliver_only handler_ closeResult ends m0 resp) as [Hd|Hd]; [by rewrite H| |by right].
    left. by apply (done_receive inputs (new_message max head pool)).
  - intros handler_' again ends'. pose proof (delivered_after handler_ closeResult ends m0) as Hd. rewrite H in Hd. unfold DeliverOnce. cbn [fst] in Hd. by rewrite Hd.
Qed.

(** C31: the pause after a response stops the parser only at its next call. Bytes of a second
    response that came with the first (llhttp goes on to them where the first keeps the
    connection alive) are read into it: the handler gets the second status, and
    the reasons, headers and bodies of both. *)
Theorem second_response_merges max head pool p q closeResult ends :
  is_interim (p_status p) = false -> is_interim (p_status q) = false -> head_fits p ->
  fits_after q (replied p (new_message max head pool)) -> zlen (concat (p_body p)) + zlen (concat (p_body q)) <= max ->
  snd (DeliverOnce true closeResult ends (OnChannelData (whole p ++ whole q) HPE_OK (new_message max head pool))) =
    Some (OnHttpResponse {| rs_status := p_status q; rs_reason := concat (p_reason p) ++ concat (p_reason q);
                            rs_headers := foldl add_field (gathered (p_fields p)) (p_fields q);
                            rs_body := concat (p_body p) ++ concat (p_body q) |}).
Proof.
  intros Hp Hq Hf Hf2 Hb. set (m0 := new_message max head pool) in *. pose proof (zlen_nonneg (concat (p_body q))).
  assert (F0 : fresh m0) by apply fresh_new. pose proof F0 as (Hb0 & E1 & E2 & E3 & _ & E5 & E6).
  assert (Ex : max_response_bytes_ m0 = max) by done. assert (Ed : delivered_ m0 = false) by done. assert (Ee : m_error m0 = 0) by done. clearbody m0.
  pose proof (run_reply p m0 Hb0 (head_fits_after p m0 Hf E1 E5 E2) Hp) as R1. rewrite E3, Ex in R1. specialize (R1 ltac:(change (zlen (@nil Z)) with 0; lia)).
  destruct (ended_between p m0 Hb0 E6) as (Hb1 & I1 & G1 & G2 & G3 & G4 & G5 & G6). set (m1 := ended p m0) in *.
  assert (Hf3 : fits_after q m1) by (unfold fits_after; rewrite G1, G2, G3; exact Hf2).
  assert (R2 : run_callbacks (whole q) m1 = (ended q m1, HPE_OK)).
  { unfold whole. erewrite run_callbacks_ok; [by apply run_reply_end|]. apply run_reply; [done|done|done|].
    rewrite G4, G5, E3, Ex. cbn [app]. lia. }
  rewrite (feed_last _ m0 (ended q m1)); [|unfold whole at 1; rewrite <- app_assoc, (run_callbacks_ok _ _ _ _ R1), (run_callbacks_ok _ _ _ _ (run_reply_end p m0 Hb0 E6)); exact R2|done|done|apply ended_done].
  rewrite deliver_ended by by rewrite G6. rewrite ended_response, G1, G3, G4. unfold replied.
  change (reason_phrase_ (_ <| body_ ::= _ |>)) with (reason_phrase_ m0 ++ concat (p_reason p)).
  change (headers_ (_ <| body_ ::= _ |>)) with (foldl add_field (headers_ m0) (p_fields p)). by rewrite E1, E2, E3.
Qed.

(** ** Replies *)

Definition toy_interim : reply :=
  {| p_status := 100; p_reason := [str "Continue"]; p_fields := []; p_body := []; p_keep := true |}.

(** "Set" comes twice, in two spellings and in pieces. *)
Definition toy_reply : reply :=
  {| p_status := 200; p_reason := [str "O"; str "K"]; p_fields := [([str "Se"; str "t"], [str "a"]); ([str "SET"], [[]; str "b"])];
     p_body := [[1; 2]; [3]]; p_keep := true |}.

Definition toy_second : reply := {| p_status := 500; p_reason := [str "Bad"]; p_fields := []; p_body := [[9]]; p_keep := true |}.

Definition toy_told : list callback := concat (map whole [toy_interim]) ++ reply_callbacks toy_reply.

Lemma toy_fits : head_fits toy_reply.
Proof. split_and!; [done..|]. by repeat constructor. Qed.

Lemma toy_interim_ok : interim_ok toy_interim.
Proof. split; [done|]. split; [done|]. split_and!; [done..|]. constructor. Qed.

Lemma response_assembled_witness :
  let m := feed ([take 2 toy_told; take 5 (drop 2 toy_told)] ++ [drop 7 toy_told ++ [reply_end toy_reply]]) (new_message 10 false true) in
  asked m = [DeliverAndPool] /\
  exists resp, snd (DeliverOnce true BC_R_SUCCESS None m) = Some (OnHttpResponse resp) /\
    rs_status resp = 200 /\ rs_reason resp = str "OK" /\ rs_body resp = [1; 2; 3] /\
    forall k, map_find (rs_headers resp) k = joined (values_of k (p_fields toy_reply)).
Proof.
  apply (response_assembled 10 false true [toy_interim] toy_reply [take 2 toy_told; take 5 (drop 2 toy_told)] (drop 7 toy_told) BC_R_SUCCESS None).
  - constructor; [apply toy_interim_ok|constructor].
  - done.
  - done.
  - apply toy_fits.
  - done.
  - reflexivity.
Defined.

Lemma response_bounded_witness :
  let m := receive [(toy_told ++ [reply_end toy_reply], HPE_OK)] (new_message 10 false true) in
  zlen (body_ m) <= 10 /\ zlen (reason_phrase_ m) <= kMaxReasonBytes /\ zlen (headers_ m) <= kMaxHeaderCount /\
  zlen (cur_field_ m) + zlen (cur_value_ m) <= kMaxSingleHeaderBytes /\ headers_size (headers_ m) <= 3 * kMaxHeaderTotalBytes.
Proof. apply (response_bounded 10 false true). done. Defined.

(** The connection closes cleanly in the middle of a body. *)
Definition toy_cut : message := receive [(toy_told, HPE_OK)] (new_message 10 false true).

Lemma cut_response_is_error_witness :
  snd (DeliverOnce true BC_R_SUCCESS None toy_cut) = Some (OnHttpError BC_R_UNEXPECTEDEND (Some ResponseCut)) /\
  snd (DeliverOnce true BC_R_SUCCESS None (fst (DeliverOnce true BC_R_SUCCESS None toy_cut))) = None.
Proof.
  split; [vm_compute; reflexivity|].
  apply (cut_response_is_error 10 false true [(toy_told, HPE_OK)] true BC_R_SUCCESS None _ (Some (OnHttpError BC_R_UNEXPECTEDEND (Some ResponseCut)))).
  vm_compute. reflexivity.
Defined.

Lemma second_response_merges_witness :
  snd (DeliverOnce true BC_R_SUCCESS None (OnChannelData (whole toy_reply ++ whole toy_second) HPE_OK (new_message 10 false true))) =
    Some (OnHttpResponse {| rs_status := 500; rs_reason := str "OKBad"; rs_headers := [(str "set", str "a, b")]; rs_body := [1; 2; 3; 9] |}).
Proof.
  apply (second_response_merges 10 false true toy_reply toy_second BC_R_SUCCESS None).
  - done.
  - done.
  - apply toy_fits.
  - split_and!; [done..|]. constructor.
  - done.
Defined.
