(* ===== verification/TlsContext.v ===== *)
(** * TlsContext: whom a TLS peer must be ([src/cpp/TlsContext.cpp], [TlsContext.h])

    The certificates to trust, the pin of a public key and the verification of a chain, on
    top of OpenSSL, which is the parameter [openssl]. A certificate is known by its DER text;
    a store is the list of certificates added to it. *)

From Stdlib Require Import ZArith Lia.
From stdpp Require Import base numbers option list.
From S2P Require Import Prelude Results HttpText.

Record TlsConfig := {
  caCertsPem : bytes;
  spkiPin : bytes;
  clientCertFile : bytes;
  clientKeyFile : bytes;
  clientKeyPassword : bytes;
  insecureSkipVerify : bool
}.

#[global] Instance eta_TlsConfig : Eta TlsConfig := fun c =>
  {| caCertsPem := caCertsPem c; spkiPin := spkiPin c; clientCertFile := clientCertFile c;
     clientKeyFile := clientKeyFile c; clientKeyPassword := clientKeyPassword c;
     insecureSkipVerify := insecureSkipVerify c |}.

Abbreviation X509 := bytes.

(** [X509_STORE_add_cert]. *)
Inductive add_result := Added | AlreadyInTable | NotAdded.

(** What a store trusts: the certificates added, or those of the system. *)
Inductive trust := TrustOnly (certs : list X509) | TrustSystem.

(** The calls of OpenSSL. [pem_read] gives the certificates [PEM_read_bio_X509] returns
    before it fails, and whether it fails at the end of the bundle; [None] when the text
    cannot be wrapped. [default_verify_paths] is whether the system's certificates could be
    loaded, on Android from the directory of the system too. *)
Record openssl := {
  pem_read : bytes -> option (list X509 * bool);
  d2i_X509 : bytes -> option X509;
  store_add : list X509 -> X509 -> add_result;
  pubkey_der : X509 -> option bytes;
  SHA256 : bytes -> bytes;
  EVP_EncodeBlock : bytes -> bytes;
  ctx_new : bool;
  default_verify_paths : bool;
  use_certificate_file : bytes -> bool;
  use_PrivateKey_file : bytes -> bytes -> bool;
  store_new : bool;
  store_ctx_init : bool;
  X509_verify_cert : trust -> X509 -> list X509 -> bool;
  X509_check_host : X509 -> bytes -> bool;
  get0_param : bool;
  tls_pton4 : bytes -> option bytes;
  tls_pton6 : bytes -> option bytes
}.

Inductive tls_error :=
| CaBioFailed | CaParseFailed | NoCaCertificate | SslCtxNewFailed | ClientCertFailed (file : bytes)
| SslIsNull | EmptyChain | PinMismatch | StoreNewFailed | CaNotAdded | StoreCtxFailed
| HostMismatch (host : bytes) | ChainInvalid.

(** ** Pins *)

Definition isspace (c : Z) : bool := (c =? 32) || ((9 <=? c) && (c <=? 13)).

Fixpoint skip_spaces (s : bytes) : bytes :=
  match s with [] => [] | c :: s' => if isspace c then skip_spaces s' else s end.

Definition trim_spaces (s : bytes) : bytes := rev (skip_spaces (rev (skip_spaces s))).

Definition kPrefix : bytes := str "sha256//".

(** One character of a pin: standard and URL-safe Base64 alike, a blank that was a [+], and
    the padding and the line ends dropped. *)
Definition pin_char (c : Z) : option Z :=
  if c =? 45 then Some 43
  else if c =? 95 then Some 47
  else if c =? 32 then Some 43
  else if (c =? 61) || (c =? 13) || (c =? 10) || (c =? 9) then None
  else Some c.

Definition CanonicalizeSpkiPin (pin : bytes) : bytes :=
  let pin := trim_spaces pin in
  omap pin_char (if starts_with kPrefix pin then zdrop (zlen kPrefix) pin else pin).

Section OpenSSL.
Context (O : openssl).

Definition IsIpLiteral (host : bytes) : bool :=
  if bytes_eqb host [] then false
  else match tls_pton4 O (c_str host), tls_pton6 O (c_str host) with None, None => false | _, _ => true end.

Definition ParseCAsFromPem (pem : bytes) : tls_error + list X509 :=
  if bytes_eqb pem [] then inr []
  else match pem_read O pem with
  | None => inl CaBioFailed
  | Some (certs, at_end) =>
      if negb at_end then inl CaParseFailed
      else match certs with [] => inl NoCaCertificate | _ => inr certs end
  end.

(** The store after the certificates that went in, and whether all did. *)
Fixpoint AddTrustedCAsToStore (store certs : list X509) : bool * list X509 :=
  match certs with
  | [] => (true, store)
  | c :: certs =>
      match store_add O store c with
      | Added => AddTrustedCAsToStore (store ++ [c]) certs
      | AlreadyInTable => AddTrustedCAsToStore store certs
      | NotAdded => (false, store)
      end
  end.

Definition ComputeSpkiPinBase64 (leaf : option X509) : bytes :=
  match leaf with
  | None => []
  | Some leaf =>
      match pubkey_der O leaf with
      | None | Some [] => []
      | Some der =>
          let b64 := EVP_EncodeBlock O (SHA256 O der) in
          if zlen b64 =? 0 then [] else CanonicalizeSpkiPin b64
      end
  end.

(** What [Create] leaves in the [SSL_CTX]. *)
Record ssl_ctx := {
  ctx_trust : trust;
  ctx_min_version : Z;
  ctx_client_cert : option (bytes * bytes);
  ctx_verify_peer : bool
}.

Definition TLS1_2_VERSION : Z := 0x0303.

Definition Create (cfg : TlsConfig) : tls_error + ssl_ctx :=
  if negb (ctx_new O) then inl SslCtxNewFailed
  else
    match (if negb (bytes_eqb (caCertsPem cfg) []) then
             match ParseCAsFromPem (caCertsPem cfg) with
             | inl e => inl e
             | inr cas => inr (TrustOnly (AddTrustedCAsToStore [] cas).2)
             end
           else inr (if default_verify_paths O then TrustSystem else TrustOnly [])) with
    | inl e => inl e
    | inr trusted =>
        let client := negb (bytes_eqb (clientCertFile cfg) []) && negb (bytes_eqb (clientKeyFile cfg) []) in
        if client && negb (use_certificate_file O (c_str (clientCertFile cfg))
                           && use_PrivateKey_file O (c_str (clientKeyFile cfg)) (clientKeyPassword cfg))
        then inl (ClientCertFailed (clientCertFile cfg))
        else inr {| ctx_trust := trusted; ctx_min_version := TLS1_2_VERSION;
                    ctx_client_cert := if client then Some (clientCertFile cfg, clientKeyFile cfg) else None;
                    ctx_verify_peer := negb (insecureSkipVerify cfg) |}
    end.

(** What [PrepareSsl] sets: the name asked for, and the name the certificate must have. *)
Definition PrepareSsl (ssl : bool) (host : bytes) (cfg : TlsConfig)
    : (tls_error * BCRESULT) + (option bytes * option bytes) :=
  if negb ssl then inl (SslIsNull, BC_R_INVALIDARG)
  else
    let some_host := negb (bytes_eqb host []) in
    inr (if some_host && negb (IsIpLiteral host) then Some (c_str host) else None,
         if negb (insecureSkipVerify cfg) && some_host && get0_param O then Some host else None).

Definition VerifyChain (chain : list (option X509)) (host : bytes) (cfg : TlsConfig) : option tls_error * BCRESULT :=
  let failed e := (Some e, BC_R_TLS_VERIFY_FAILED) in
  match chain with
  | [] | None :: _ => failed EmptyChain
  | Some leaf :: rest =>
      if negb (bytes_eqb (spkiPin cfg) []) then
        let computed := ComputeSpkiPinBase64 (Some leaf) in
        let expected := CanonicalizeSpkiPin (spkiPin cfg) in
        if negb (bytes_eqb computed []) && bytes_eqb computed expected then (None, BC_R_SUCCESS)
        else failed PinMismatch
      else if negb (store_new O) then failed StoreNewFailed
      else
        match (if negb (bytes_eqb (caCertsPem cfg) []) then
                 match ParseCAsFromPem (caCertsPem cfg) with
                 | inl e => inl e
                 | inr cas =>
                     let '(ok, store) := AddTrustedCAsToStore [] cas in
                     if ok then inr (TrustOnly store) else inl CaNotAdded
                 end
               else inr TrustSystem) with
        | inl e => failed e
        | inr trusted =>
            let intermediates := omap (fun c => c) rest in
            if negb (store_ctx_init O) then failed StoreCtxFailed
            else if negb (X509_verify_cert O trusted leaf intermediates) then failed ChainInvalid
            else if negb (bytes_eqb host []) && X509_check_host O leaf host then (None, BC_R_SUCCESS)
            else failed (HostMismatch host)
        end
  end.
End OpenSSL.

(** ** Lemmas *)

Lemma skip_spaces_app ws s : Forall (fun c => isspace c = true) ws -> skip_spaces (ws ++ s) = skip_spaces s.
Proof. induction 1 as [|c ws Hc _ IH]; [done|]. cbn [app skip_spaces]. by rewrite Hc. Qed.

Lemma skip_spaces_id s : (forall c, head s = Some c -> isspace c = false) -> skip_spaces s = s.
Proof. destruct s as [|c s]; [done|]. intros H. cbn. by rewrite (H c). Qed.

(** No blank at either end. *)
Definition tight (s : bytes) : Prop :=
  (forall c, head s = Some c -> isspace c = false) /\ (forall c, last s = Some c -> isspace c = false).

Lemma trim_spaces_tight ws1 s ws2 :
  Forall (fun c => isspace c = true) ws1 -> Forall (fun c => isspace c = true) ws2 -> tight s -> s <> [] ->
  trim_spaces (ws1 ++ s ++ ws2) = s.
Proof.
  intros H1 H2 [Hh Hl] Hs. unfold trim_spaces. rewrite skip_spaces_app by done.
  rewrite (skip_spaces_id (s ++ ws2)).
  - rewrite rev_app_distr, skip_spaces_app by by apply Forall_rev.
    rewrite skip_spaces_id; [apply rev_involutive|]. intros c.
    rewrite (rev_alt s : rev s = reverse s), head_reverse. apply Hl.
  - intros c Hc. apply Hh. by destruct s.
Qed.

(** The Base64 alphabet. *)
Definition base64_char (c : Z) : bool :=
  ((65 <=? c) && (c <=? 90)) || ((97 <=? c) && (c <=? 122)) || ((48 <=? c) && (c <=? 57)) || (c =? 43) || (c =? 47).

Definition base64_text (t : bytes) : Prop := Forall (fun c => base64_char c = true) t.

Lemma base64_pin_char c : base64_char c = true -> pin_char c = Some c /\ isspace c = false.
Proof.
  intros H. unfold base64_char in H. unfold pin_char, isspace.
  repeat match goal with
  | |- context [?a =? ?b] => destruct (Z.eqb_spec a b); [subst; cbn in H; done|]
  end.
  split; [done|]. destruct (9 <=? c) eqn:E1; [|done]. destruct (c <=? 13) eqn:E2; [|done].
  apply Z.leb_le in E1, E2. zbool. exfalso. rewrite !orb_true_iff, !andb_true_iff, !Z.leb_le, !Z.eqb_eq in H. lia.
Qed.

Lemma base64_omap t : base64_text t -> omap pin_char t = t.
Proof.
  induction 1 as [|c t Hc _ IH]; [done|]. cbn. rewrite (proj1 (base64_pin_char c Hc)). cbn. f_equal. exact IH.
Qed.

Lemma base64_tight t : base64_text t -> tight t.
Proof.
  intros H. split; intros c Hc; apply base64_pin_char.
  - destruct t; [done|]. injection Hc as ->. by inversion H.
  - apply (proj1 (Forall_forall _ _) H). by apply last_Some_elem_of.
Qed.

Lemma omap_prefix r : omap pin_char (kPrefix ++ r) = kPrefix ++ omap pin_char r.
Proof. reflexivity. Qed.

(** The texts that spell the digest whose unpadded Base64 text is [t]: blanks around it, the
    prefix or not, either alphabet, padding and line ends anywhere. *)
Definition pin_spells (s t : bytes) : Prop :=
  exists ws1 pre body ws2,
    s = ws1 ++ (pre ++ body) ++ ws2 /\ Forall (fun c => isspace c = true) ws1 /\
    Forall (fun c => isspace c = true) ws2 /\ (pre = [] \/ pre = kPrefix) /\ tight body /\
    omap pin_char body = t.

Lemma pin_spells_canonical s t :
  pin_spells s t -> t <> [] -> starts_with kPrefix t = false -> CanonicalizeSpkiPin s = t.
Proof.
  intros (ws1 & pre & body & ws2 & -> & H1 & H2 & Hp & Hb & Ho) Ht Hn.
  assert (Hbody : body <> []) by (intros ->; by apply Ht).
  assert (Htight : tight (pre ++ body)).
  { destruct Hp as [-> | ->]; [done|]. split; [by intros c [= <-]|].
    intros c Hc. rewrite last_app in Hc. destruct (last body) eqn:E; [|by apply last_None in E].
    injection Hc as <-. by apply Hb. }
  unfold CanonicalizeSpkiPin. rewrite trim_spaces_tight; [|done..|by destruct pre].
  destruct Hp as [-> | ->]; cbn [app].
  - destruct (starts_with kPrefix body) eqn:E; [|done].
    apply starts_with_app in E as [r ->]. rewrite omap_prefix in Ho.
    assert (starts_with kPrefix t = true) by (apply starts_with_app; eauto). congruence.
  - assert (E : starts_with kPrefix (kPrefix ++ body) = true) by (apply starts_with_app; eauto).
    rewrite E. by rewrite zdrop_app_exact.
Qed.

(** A standard text is canonical, unless it happens to begin like the prefix. *)
Lemma canonical_base64 t pad :
  base64_text t -> t <> [] -> pad = [] \/ pad = [61] ->
  CanonicalizeSpkiPin (t ++ pad) = if starts_with kPrefix t then zdrop 8 t else t.
Proof.
  intros Ht Hn Hpad.
  assert (Htight : tight (t ++ pad)).
  { destruct (base64_tight t Ht) as [Hh Hl]. destruct Hpad as [-> | ->]; [by rewrite app_nil_r|].
    split; [intros c Hc; apply Hh; by destruct t|]. intros c. rewrite last_snoc. by intros [= <-]. }
  assert (Hs : starts_with kPrefix (t ++ pad) = starts_with kPrefix t).
  { destruct Hpad as [-> | ->]; [by rewrite app_nil_r|]. unfold starts_with.
    destruct (decide (length kPrefix <= length t)%nat) as [Hle|Hle]; [by rewrite take_app_le|].
    rewrite (take_ge t) by lia. rewrite take_app_ge by lia. apply eq_bool_prop_intro. rewrite !Is_true_true, !bytes_eqb_true.
    split; intros H; exfalso.
    - destruct (length kPrefix - length t)%nat eqn:E; [lia|]. cbn in H. rewrite take_nil in H.
      apply (f_equal last) in H. rewrite last_snoc in H. done.
    - apply Hle. by rewrite H. }
  assert (Hpo : omap pin_char pad = []) by by (destruct Hpad as [-> | ->]).
  unfold CanonicalizeSpkiPin. rewrite <- (app_nil_r (t ++ pad)), <- (app_nil_l ((t ++ pad) ++ [])).
  rewrite trim_spaces_tight by (done || by destruct t). rewrite Hs.
  destruct (starts_with kPrefix t) eqn:E.
  - apply starts_with_app in E as [r ->]. change (zlen kPrefix) with 8.
    rewrite <- app_assoc, !zdrop_app_exact by done. rewrite omap_app, Hpo, app_nil_r. apply base64_omap.
    by apply Forall_app in Ht as [_ ?].
  - rewrite omap_app, Hpo, app_nil_r. by apply base64_omap.
Qed.

(** Who a chain must be, by the configuration: the owner of the pinned key, or a certificate
    for the host that leads to what is trusted. *)
Definition vouched (O : openssl) (leaf : X509) (rest : list (option X509)) (host : bytes) (cfg : TlsConfig) : Prop :=
  if bytes_eqb (spkiPin cfg) [] then
    host <> [] /\ X509_check_host O leaf host = true /\
    exists trusted, X509_verify_cert O trusted leaf (omap (fun c => c) rest) = true /\
      (if bytes_eqb (caCertsPem cfg) [] then trusted = TrustSystem
       else exists cas, ParseCAsFromPem O (caCertsPem cfg) = inr cas /\
              AddTrustedCAsToStore O [] cas = (true, match trusted with TrustOnly l => l | TrustSystem => [] end) /\
              trusted <> TrustSystem)
  else
    ComputeSpkiPinBase64 O (Some leaf) <> [] /\
    ComputeSpkiPinBase64 O (Some leaf) = CanonicalizeSpkiPin (spkiPin cfg).

Lemma VerifyChain_vouched O chain host cfg :
  (VerifyChain O chain host cfg).2 = BC_R_SUCCESS ->
  exists leaf rest, chain = Some leaf :: rest /\ vouched O leaf rest host cfg.
Proof.
  unfold VerifyChain, vouched. destruct chain as [|[leaf|] rest]; try done. intros H. exists leaf, rest. split; [done|].
  destruct (bytes_eqb (spkiPin cfg) []) eqn:Ep; cbn [negb] in H.
  - destruct (store_new O); [|done]. cbn [negb] in H.
    destruct (bytes_eqb (caCertsPem cfg) []) eqn:Ec; cbn [negb] in H.
    + destruct (store_ctx_init O); [|done]. cbn [negb] in H.
      destruct (X509_verify_cert O _ _ _) eqn:Ev; [|done]. cbn [negb] in H.
      destruct (_ && _) eqn:Eh; [|done]. apply andb_true_iff in Eh as [Eh1 Eh2].
      split; [intros ->; done|]. split; [done|]. by exists TrustSystem.
    + destruct (ParseCAsFromPem O _) as [e|cas] eqn:Epem; [done|].
      destruct (AddTrustedCAsToStore O [] cas) as [[] store] eqn:Ea; [|done].
      destruct (store_ctx_init O); [|done]. cbn [negb] in H.
      destruct (X509_verify_cert O _ _ _) eqn:Ev; [|done]. cbn [negb] in H.
      destruct (_ && _) eqn:Eh; [|done]. apply andb_true_iff in Eh as [Eh1 Eh2].
      split; [intros ->; done|]. split; [done|]. exists (TrustOnly store). split; [done|]. by exists cas.
  - destruct (_ && _) eqn:E; [|done]. apply andb_true_iff in E as [E1 E2].
    apply bytes_eqb_true in E2. split; [|done]. intros E. by rewrite E in E1.
Qed.

(** ** Properties *)

(** C32: a pinned key, and no other. However the digest of a public key is spelled in the
    configuration (with blanks around it, with or without the [sha256//] prefix, in standard
    or URL-safe Base64, padded or not, broken over lines), [VerifyChain] accepts a chain exactly
    when the digest of its leaf's key is the one spelled, whatever the rest of the chain, the
    host and the trusted certificates. The digest's own text is taken not to begin like the
    prefix. *)
Theorem pin_accepts_exactly (O : openssl) (leaf : X509) (rest : list (option X509)) (host t t' der : bytes) (cfg : TlsConfig) :
  pin_spells (spkiPin cfg) t -> t <> [] -> starts_with kPrefix t = false ->
  pubkey_der O leaf = Some der -> der <> [] ->
  EVP_EncodeBlock O (SHA256 O der) = t' ++ [61] -> base64_text t' -> zlen t' = zlen t ->
  (VerifyChain O (Some leaf :: rest) host cfg).2 = BC_R_SUCCESS <-> t' = t.
Proof.
  intros Hs Hn Hp Hd Hdn He Ht' Hl.
  assert (Ht'n : t' <> []) by (intros ->; apply Hn, zlen_0_nil; done).
  assert (Hne : spkiPin cfg <> []).
  { intros E. destruct Hs as (ws1 & pre & body & ws2 & Hs & _ & _ & _ & _ & Ho). rewrite E in Hs.
    symmetry in Hs. apply app_eq_nil in Hs as [_ Hs]. apply app_eq_nil in Hs as [Hs _].
    apply app_eq_nil in Hs as [_ ->]. by apply Hn. }
  assert (Hc : ComputeSpkiPinBase64 O (Some leaf) = if starts_with kPrefix t' then zdrop 8 t' else t').
  { unfold ComputeSpkiPinBase64. rewrite Hd. destruct der as [|x der]; [done|]. rewrite He.
    rewrite zlen_app. destruct (Z.eqb_spec (zlen t' + zlen [61]) 0) as [E|_].
    - pose proof (zlen_nonneg t'). change (zlen [61]) with 1 in E. lia.
    - apply canonical_base64; auto. }
  unfold VerifyChain. rewrite (proj2 (bytes_eqb_false (spkiPin cfg) []) Hne). cbn [negb].
  rewrite Hc, (pin_spells_canonical _ _ Hs Hn Hp).
  destruct (starts_with kPrefix t') eqn:Ep.
  - split; [|intros ->; congruence]. destruct (_ && _) eqn:E; [|done]. intros _.
    apply andb_true_iff in E as [_ E]. apply bytes_eqb_true in E. exfalso.
    apply starts_with_app in Ep as [r ->]. rewrite zdrop_app_exact in E by done. subst r.
    rewrite zlen_app in Hl. change (zlen kPrefix) with 8 in Hl. lia.
  - rewrite (proj2 (bytes_eqb_false t' []) Ht'n). cbn [negb andb].
    destruct (bytes_eqb t' t) eqn:E; [by apply bytes_eqb_true in E|].
    apply bytes_eqb_false in E. split; [done|]. intros ->. by destruct E.
Qed.

(** An [openssl] in which the digest of a key is its first byte, for the witness. *)
Definition toy_openssl : openssl :=
  {| pem_read := fun pem => Some ([pem], true); d2i_X509 := fun der => Some der;
     store_add := fun _ _ => Added; pubkey_der := fun c => Some c;
     SHA256 := fun d => ztake 1 d; EVP_EncodeBlock := fun d => d ++ str "Zm8/+A=";
     ctx_new := true; default_verify_paths := true; use_certificate_file := fun _ => true;
     use_PrivateKey_file := fun _ _ => true; store_new := true; store_ctx_init := true;
     X509_verify_cert := fun t leaf _ => match t with TrustOnly l => bool_decide (leaf ∈ l) | TrustSystem => false end;
     X509_check_host := fun c host => bytes_eqb (zdrop 1 c) host; get0_param := true;
     tls_pton4 := fun _ => None; tls_pton6 := fun _ => None |}.

Definition pinned_config (pin : bytes) : TlsConfig :=
  {| caCertsPem := []; spkiPin := pin; clientCertFile := []; clientKeyFile := [];
     clientKeyPassword := []; insecureSkipVerify := false |}.

Lemma pin_accepts_exactly_witness :
  pin_spells (str " sha256//AZm8_-A= ") (str "AZm8/+A") /\
  (VerifyChain toy_openssl [Some (str "A")] [] (pinned_config (str " sha256//AZm8_-A= "))).2 = BC_R_SUCCESS.
Proof.
  assert (Hs : pin_spells (str " sha256//AZm8_-A= ") (str "AZm8/+A")).
  { exists [32], kPrefix, (str "AZm8_-A="), [32].
    split_and!; [done|by repeat constructor|by repeat constructor|by right| |done].
    split; by intros c [= <-]. }
  split; [exact Hs|].
  apply (pin_accepts_exactly toy_openssl (str "A") [] [] (str "AZm8/+A") (str "AZm8/+A") (str "A")); try done.
  repeat constructor.
Defined.
