(* ===== verification/SMPConfig.v ===== *)
(** * SMPConfig: what configures the signalling connector and its connections
      ([src/cpp/SMPConnector.cpp], [SMPConnector.h])

    The two [Config] classes, the proxy's URL, the configuration [Create] settles on, the
    tunnel's own configuration, the generated connection ids and the check of the peer's
    certificate. A [LPCSTR] is the text it points to, or [None]. *)

From Stdlib Require Import ZArith Lia.
From stdpp Require Import base numbers option list.
From S2P Require Import Prelude Results Utils VpnPolicy BCFObject HttpText TlsContext.

(** ** C strings *)

Fixpoint digits_val (acc : Z) (s : bytes) : Z :=
  match s with
  | [] => acc
  | c :: s => if (48 <=? c) && (c <=? 57) then digits_val (acc * 10 + (c - 48)) s else acc
  end.

(** [atoi]: [(int)strtol(s, NULL, 10)], which stops at the ends of a [long]. *)
Definition atoi (s : bytes) : Z :=
  let v := match skip_spaces s with
           | 45 :: s => - digits_val 0 s
           | 43 :: s => digits_val 0 s
           | s => digits_val 0 s
           end in
  i32 (Z.max (-9223372036854775808) (Z.min v 9223372036854775807)).

(** [std::string::rfind] of a character. *)
Definition rfind_char (c : Z) (s : bytes) : option Z :=
  n ← find_char c (rev s); Some (zlen s - 1 - n).

(** [p && *p]: a string that is there and not empty. *)
Definition given (p : option bytes) : bool := match p with Some (_ :: _) => true | _ => false end.

(** ** The proxy *)

Inductive TTProxyType := TT_PROXY_NONE | TT_PROXY_MASQUE.

#[global] Instance TTProxyType_eq_dec : EqDecision TTProxyType.
Proof. solve_decision. Defined.

Definition proxy_scheme_ok (scheme : bytes) : bool :=
  bytes_eqb scheme [] || bytes_eqb scheme (str "masque") || bytes_eqb scheme (str "connect-udp")
  || bytes_eqb scheme (str "https") || bytes_eqb scheme (str "h3").

(** The host and the port of an authority, a host in brackets keeping them. *)
Definition split_authority (authority : bytes) : option (bytes * Z) :=
  if zat authority 0 =? 91 then
    close ← find_char 93 authority;
    Some (ztake (close + 1) authority,
          if (close + 1 <? zlen authority) && (zat authority (close + 1) =? 58)
          then u16 (atoi (zdrop (close + 2) authority)) else 443)
  else
    match rfind_char 58 authority with
    | Some colon => Some (ztake colon authority, u16 (atoi (zdrop (colon + 1) authority)))
    | None => Some (authority, 443)
    end.

(** [ParseProxyUrl]: the host and the port, the type being [TT_PROXY_MASQUE]. *)
Definition ParseProxyUrl (url : bytes) : option (bytes * Z) :=
  if bytes_eqb url [] then None
  else
    let '(scheme, authority) :=
      match find_str (str "://") url with
      | Some sep => (ztake sep url, zdrop (sep + 3) url)
      | None => ([], url)
      end in
    let authority := match find_char 47 authority with Some n => ztake n authority | None => authority end in
    if bytes_eqb authority [] then None
    else if negb (proxy_scheme_ok (ToLowerAscii scheme)) then None
    else
      hp ← split_authority authority;
      let '(host, port) := hp in
      if bytes_eqb host [] || (port =? 0) then None else Some (host, port).

(** ** A connection's configuration *)

Definition SMP_CID_TAG_LEN : Z := 11.
Definition SMP_CID_LEN : Z := 16.

Record conn_config := {
  ipv6 : bool;
  host : option bytes;
  port : Z;
  server_host : option bytes;
  server_port : Z;
  c_cong_ctl : Z;
  pacing_on : bool;
  idle_time_out : Z;
  ping_on : bool;
  linger_on : bool;
  ping_interval : Z;
  active_connection_id_limit : Z;
  alpn : option bytes;
  device_type : Z;
  cid_tag : bytes;
  ca_cert_pem : option bytes;
  vpn_policy : TTVpnPolicy;
  android_net_handle : Z;
  proxy_type : TTProxyType;
  proxy_host : option bytes;
  proxy_port : Z;
  proxy_sni : option bytes;
  proxy_url : option bytes;
  proxy_ca_cert_pem : option bytes;
  spki_pin : option bytes
}.

#[global] Instance eta_conn_config : Eta conn_config := fun c =>
  {| ipv6 := ipv6 c; host := host c; port := port c; server_host := server_host c;
     server_port := server_port c; c_cong_ctl := c_cong_ctl c; pacing_on := pacing_on c;
     idle_time_out := idle_time_out c; ping_on := ping_on c; linger_on := linger_on c;
     ping_interval := ping_interval c; active_connection_id_limit := active_connection_id_limit c;
     alpn := alpn c; device_type := device_type c; cid_tag := cid_tag c; ca_cert_pem := ca_cert_pem c;
     vpn_policy := vpn_policy c; android_net_handle := android_net_handle c; proxy_type := proxy_type c;
     proxy_host := proxy_host c; proxy_port := proxy_port c; proxy_sni := proxy_sni c;
     proxy_url := proxy_url c; proxy_ca_cert_pem := proxy_ca_cert_pem c; spki_pin := spki_pin c |}.

(** The constructor; [random] is what [RAND_bytes] puts in the tag. *)
Definition new_conn_config (random : bytes) : conn_config :=
  {| ipv6 := false; host := None; port := 0; server_host := None; server_port := 0; c_cong_ctl := 98;
     pacing_on := false; idle_time_out := 0; ping_on := false; linger_on := false; ping_interval := 0;
     active_connection_id_limit := 0; alpn := None; device_type := 0; cid_tag := random;
     ca_cert_pem := None; vpn_policy := TT_VPN_POLICY_UNSET; android_net_handle := 0;
     proxy_type := TT_PROXY_NONE; proxy_host := None; proxy_port := 0; proxy_sni := None;
     proxy_url := None; proxy_ca_cert_pem := None; spki_pin := None |}.

(** The members that name a proxy. *)
Definition read_proxy (get : BCFObject) (c : conn_config) : conn_config :=
  let c := on_pointer (get (str "proxy_url")) (fun s c =>
             let c := c <| proxy_url := s |> in
             match s ≫= ParseProxyUrl with
             | Some (h, p) => c <| proxy_type := TT_PROXY_MASQUE |> <| proxy_host := Some h |> <| proxy_port := p |>
             | None => c
             end) c in
  let c := on_pointer (get (str "proxy_host")) (fun s c =>
             c <| proxy_host := s |>
               <| proxy_type ::= fun t => match t with TT_PROXY_NONE => TT_PROXY_MASQUE | _ => t end |>) c in
  let c := on_number (get (str "proxy_port")) (fun v c => c <| proxy_port := u16 v |>) c in
  let c := on_pointer (get (str "proxy_sni")) (fun s c => c <| proxy_sni := s |>) c in
  match proxy_type c with
  | TT_PROXY_NONE => c
  | TT_PROXY_MASQUE =>
      if negb (given (proxy_sni c)) && bool_decide (is_Some (proxy_host c)) then c <| proxy_sni := proxy_host c |> else c
  end.

(** The members after the tag. *)
Definition read_tls_and_proxy (get : BCFObject) (c : conn_config) : conn_config :=
  let c := on_pointer (get (str "ca_cert_pem")) (fun s c => c <| ca_cert_pem := s |>) c in
  let c := on_pointer (get (str "vpnPolicy")) (fun s c => c <| vpn_policy := tt_vpn_policy_from_string s |>) c in
  let c := on_number (get (str "androidNetHandle")) (fun v c => c <| android_net_handle := v |>) c in
  let c := read_proxy get c in
  let c := on_pointer (get (str "proxy_ca_cert_pem")) (fun s c => c <| proxy_ca_cert_pem := s |>) c in
  on_pointer (get (str "spki_pin")) (fun s c => c <| spki_pin := s |>) c.

(** The members before the tag. *)
Definition read_transport (get : BCFObject) (c : conn_config) : conn_config :=
  let c := on_bool (get (str "ipv6")) (fun b c => c <| ipv6 := b |>) c in
  let c := on_pointer (get (str "host")) (fun s c => c <| host := s |>) c in
  let c := on_number (get (str "port")) (fun v c => c <| port := u16 v |>) c in
  let c := on_pointer (get (str "server_host")) (fun s c => c <| server_host := s |>) c in
  let c := on_number (get (str "server_port")) (fun v c => c <| server_port := u16 v |>) c in
  let c := on_number (get (str "c_cong_ctl")) (fun v c => c <| c_cong_ctl := u8 v |>) c in
  let c := on_bool (get (str "pacing_on")) (fun b c => c <| pacing_on := b |>) c in
  let c := on_number (get (str "idle_time_out")) (fun v c => c <| idle_time_out := u32 v |>) c in
  let c := on_bool (get (str "ping_on")) (fun b c => c <| ping_on := b |>) c in
  let c := on_bool (get (str "linger_on")) (fun b c => c <| linger_on := b |>) c in
  let c := on_number (get (str "ping_interval")) (fun v c => c <| ping_interval := u32 v |>) c in
  let c := on_number (get (str "active_connection_id_limit"))
             (fun v c => c <| active_connection_id_limit := v |>) c in
  let c := on_pointer (get (str "alpn")) (fun s c => c <| alpn := s |>) c in
  on_number (get (str "device_type")) (fun v c => c <| device_type := if u8 v =? 1 then 1 else 0 |>) c.

(** [SMPConnection::Config::Init]: a tag that is too long ends it. *)
Definition ConnConfig_Init (get : BCFObject) (c : conn_config) : BCRESULT * conn_config :=
  let c := read_transport get c in
  match get (str "cid_tag") with
  | Some (BCFString s) =>
      let tag := bcf_text s in
      if SMP_CID_TAG_LEN <? zlen tag then (BC_R_INVALIDARG, c)
      else (BC_R_SUCCESS, read_tls_and_proxy get (c <| cid_tag ::= fun t => write_at t 0 tag |>))
  | _ => (BC_R_SUCCESS, read_tls_and_proxy get c)
  end.

(** ** The connector's configuration *)

Module Connector.
Record config := {
  ipv6 : bool;
  publishId : Z;
  host : option bytes;
  port : Z;
  server_host : option bytes;
  server_port : Z;
  c_cong_ctl : Z;
  pacing_on : Z;
  idle_time_out : Z;
  linger_on : Z;
  log_level : Z;
  private_key_file : option bytes;
  cert_file : option bytes;
  ciphers : option bytes;
  groups : option bytes;
  alpn : list bytes;
  ping_on : bool;
  ping_interval : Z;
  log_file : option bytes;
  active_connection_id_limit : Z;
  ca_cert_pem : option bytes;
  disableAutoRestart : bool;
  bypassVpn : bool;
  vpn_policy : TTVpnPolicy;
  vpn_policy_both_given : bool;
  vpn_policy_bad_string : option bytes;
  proxy_type : TTProxyType;
  proxy_host : option bytes;
  proxy_port : Z;
  proxy_sni : option bytes;
  proxy_url : option bytes
}.

#[global] Instance eta_config : Eta config := fun c =>
  {| ipv6 := ipv6 c; publishId := publishId c; host := host c; port := port c;
     server_host := server_host c; server_port := server_port c; c_cong_ctl := c_cong_ctl c;
     pacing_on := pacing_on c; idle_time_out := idle_time_out c; linger_on := linger_on c;
     log_level := log_level c; private_key_file := private_key_file c; cert_file := cert_file c;
     ciphers := ciphers c; groups := groups c; alpn := alpn c; ping_on := ping_on c;
     ping_interval := ping_interval c; log_file := log_file c;
     active_connection_id_limit := active_connection_id_limit c; ca_cert_pem := ca_cert_pem c;
     disableAutoRestart := disableAutoRestart c; bypassVpn := bypassVpn c; vpn_policy := vpn_policy c;
     vpn_policy_both_given := vpn_policy_both_given c; vpn_policy_bad_string := vpn_policy_bad_string c;
     proxy_type := proxy_type c; proxy_host := proxy_host c; proxy_port := proxy_port c;
     proxy_sni := proxy_sni c; proxy_url := proxy_url c |}.

(** The constructor. *)
Definition new_config : config :=
  {| ipv6 := false; publishId := 5; host := None; port := 0; server_host := None; server_port := 0;
     c_cong_ctl := 98; pacing_on := 0; idle_time_out := 0; linger_on := 0; log_level := 100;
     private_key_file := None; cert_file := None; ciphers := None; groups := None; alpn := [];
     ping_on := false; ping_interval := 0; log_file := None; active_connection_id_limit := 0;
     ca_cert_pem := None; disableAutoRestart := false; bypassVpn := true;
     vpn_policy := TT_VPN_POLICY_UNSET; vpn_policy_both_given := false; vpn_policy_bad_string := None;
     proxy_type := TT_PROXY_NONE; proxy_host := None; proxy_port := 0; proxy_sni := None; proxy_url := None |}.

Definition read_transport (get : BCFObject) (c : config) : config :=
  let c := on_bool (get (str "ipv6")) (fun b c => c <| ipv6 := b |>) c in
  let c := on_number (get (str "publishId")) (fun v c => c <| publishId := u32 v |>) c in
  let c := on_pointer (get (str "host")) (fun s c => c <| host := s |>) c in
  let c := on_number (get (str "port")) (fun v c => c <| port := u16 v |>) c in
  let c := on_pointer (get (str "server_host")) (fun s c => c <| server_host := s |>) c in
  let c := on_number (get (str "server_port")) (fun v c => c <| server_port := u16 v |>) c in
  let c := on_number (get (str "c_cong_ctl")) (fun v c => c <| c_cong_ctl := u8 v |>) c in
  let c := on_number (get (str "pacing_on")) (fun v c => c <| pacing_on := u8 v |>) c in
  let c := on_number (get (str "idle_time_out")) (fun v c => c <| idle_time_out := u32 v |>) c in
  let c := on_number (get (str "linger_on")) (fun v c => c <| linger_on := u8 v |>) c in
  on_number (get (str "log_level")) (fun v c => c <| log_level := u8 v |>) c.

Definition read_tls (get : BCFObject) (c : config) : config :=
  let c := on_pointer (get (str "private_key_file")) (fun s c => c <| private_key_file := s |>) c in
  let c := on_pointer (get (str "cert_file")) (fun s c => c <| cert_file := s |>) c in
  let c := on_pointer (get (str "tls_ciphers")) (fun s c => c <| ciphers := s |>) c in
  let c := on_pointer (get (str "tls_groups")) (fun s c => c <| groups := s |>) c in
  let c := on_string (get (str "alpn")) (fun s c => c <| alpn := SplitString s 44 |>) c in
  let c := on_bool (get (str "ping_on")) (fun b c => c <| ping_on := b |>) c in
  let c := on_number (get (str "ping_interval")) (fun v c => c <| ping_interval := u32 v |>) c in
  let c := on_pointer (get (str "log_file")) (fun s c => c <| log_file := s |>) c in
  let c := on_number (get (str "active_connection_id_limit")) (fun v c => c <| active_connection_id_limit := v |>) c in
  let c := on_pointer (get (str "ca_cert_pem")) (fun s c => c <| ca_cert_pem := s |>) c in
  on_bool (get (str "disableAutoRestart")) (fun b c => c <| disableAutoRestart := b |>) c.

(** The policy: [vpnPolicy] when it names one, else the old [bypassVpn], else the platform's. *)
Definition read_policy (ios_target : bool) (get : BCFObject) (c : config) : config :=
  let hasBypassVpn := match get (str "bypassVpn") with Some (BCFBool _) => true | _ => false end in
  let c := on_bool (get (str "bypassVpn")) (fun b c => c <| bypassVpn := b |>) c in
  let '(explicitPolicy, bad) :=
    match get (str "vpnPolicy") with
    | Some (BCFString s) =>
        let raw := c_str <$> s in
        let p := tt_vpn_policy_from_string raw in
        (p, match p with TT_VPN_POLICY_UNSET => if given raw then raw else None | _ => None end)
    | _ => (TT_VPN_POLICY_UNSET, None)
    end in
  let '(policy, both) := tt_vpn_policy_resolve (Some explicitPolicy) hasBypassVpn (bypassVpn c)
                           (tt_vpn_policy_platform_default ios_target) in
  c <| vpn_policy_bad_string := bad |>
    <| vpn_policy := match policy with Some p => p | None => TT_VPN_POLICY_UNSET end |>
    <| vpn_policy_both_given := both |>.

Definition read_proxy (get : BCFObject) (c : config) : config :=
  let c := on_pointer (get (str "proxy_url")) (fun s c =>
             let c := c <| proxy_url := s |> in
             match s ≫= ParseProxyUrl with
             | Some (h, p) => c <| proxy_type := TT_PROXY_MASQUE |> <| proxy_host := Some h |> <| proxy_port := p |>
             | None => c
             end) c in
  let c := on_pointer (get (str "proxy_host")) (fun s c =>
             c <| proxy_host := s |>
               <| proxy_type ::= fun t => match t with TT_PROXY_NONE => TT_PROXY_MASQUE | _ => t end |>) c in
  let c := on_number (get (str "proxy_port")) (fun v c => c <| proxy_port := u16 v |>) c in
  let c := on_pointer (get (str "proxy_sni")) (fun s c => c <| proxy_sni := s |>) c in
  match proxy_type c with
  | TT_PROXY_NONE => c
  | TT_PROXY_MASQUE =>
      if negb (given (proxy_sni c)) && bool_decide (is_Some (proxy_host c)) then c <| proxy_sni := proxy_host c |> else c
  end.

(** [SMPConnector::Config::Init]. *)
Definition Init (ios_target : bool) (get : BCFObject) (c : config) : config :=
  read_proxy get (read_policy ios_target get (read_tls get (read_transport get c))).
End Connector.

(** ** What [SMPConnection::Create] settles on *)

(** It reads the object, takes the connector's policy when none was named, and reads the
    object again. *)
Definition Create_config (random : bytes) (connector : Connector.config) (get : BCFObject) : BCRESULT * conn_config :=
  let c := (ConnConfig_Init get (new_conn_config random)).2 in
  let c := match vpn_policy c with
           | TT_VPN_POLICY_UNSET => c <| vpn_policy := Connector.vpn_policy connector |>
           | _ => c
           end in
  match alpn c, server_host c with
  | Some _, Some _ => (BC_R_SUCCESS, (ConnConfig_Init get c).2)
  | _, _ => (BC_R_INVALIDARG, c)
  end.

(** The object [CreateMasqueTunnel] makes for a tunnel to the proxy of [inner]; [None] when
    there is no proxy to go to. *)
Definition tunnel_object (connector : Connector.config) (inner : conn_config) : option BCFObject :=
  match proxy_type inner, proxy_host inner with
  | TT_PROXY_MASQUE, Some phost =>
      if proxy_port inner =? 0 then None
      else
        let sni := match proxy_sni inner with Some (c :: s) => c :: s | _ => phost end in
        let text k v (get : BCFObject) : BCFObject :=
          fun key => if bytes_eqb key k then Some (BCFString (Some v)) else get key in
        let number k v (get : BCFObject) : BCFObject :=
          fun key => if bytes_eqb key k then Some (BCFNumber v) else get key in
        let get : BCFObject := fun key =>
          if bytes_eqb key (str "ipv6") then Some (BCFBool (Connector.ipv6 connector)) else None in
        let get := text (str "alpn") (str "h3") get in
        let get := text (str "server_host") sni get in
        let get := number (str "server_port") (proxy_port inner) get in
        let get := number (str "c_cong_ctl")
                     (if Connector.c_cong_ctl connector =? 0 then 66 else Connector.c_cong_ctl connector) get in
        let get := number (str "log_level") (Connector.log_level connector) get in
        let get := number (str "num_of_senders") 1 get in
        let get := match proxy_ca_cert_pem inner with Some (c :: s) => text (str "ca_cert_pem") (c :: s) get | _ => get end in
        Some (match spki_pin inner with Some (c :: s) => text (str "spki_pin") (c :: s) get | _ => get end)
  | _, _ => None
  end.

(** ** Connection ids *)

Definition SMP_CID_RANDOM : Z := 2.

(** [cid_generate]: 14 bytes of the original id or the client's mark, and two random ones;
    [None] is [XQC_ERROR]. *)
Definition cid_generate (ori_cid : option xqc_cid) (cid_buflen : Z) (conn : option conn_config) (random : bytes) : option bytes :=
  match conn with
  | None => None
  | Some c =>
      if cid_buflen <? SMP_CID_LEN then None
      else
        let fresh := u8 (Z.lor (u8 (Z.shiftl (device_type c) 7)) 74) :: str "QC" ++ cid_tag c in
        Some ((match ori_cid with
               | Some o => if 14 <=? cid_len o then ztake 14 (cid_buf o) else fresh
               | None => fresh
               end) ++ ztake SMP_CID_RANDOM random)
  end.

(** ** The peer's certificate *)

Section OpenSSL.
Context (O : openssl).

(** [parsePemCertBundle]. *)
Definition parsePemCertBundle (pem : option bytes) : BCRESULT * list X509 :=
  match pem with
  | None | Some [] => (BC_R_SUCCESS, [])
  | Some pem =>
      match pem_read O pem with
      | None => (BC_R_NOMEMORY, [])
      | Some (certs, at_end) =>
          if negb at_end then (BC_R_INVALIDARG, [])
          else match certs with [] => (BC_R_INVALIDARG, []) | _ => (BC_R_SUCCESS, certs) end
      end
  end.

(** Whether the pin is this connection's to check: with a proxy it is the tunnel's. *)
Definition checks_pin (c : conn_config) : bool := given (spki_pin c) && negb (given (proxy_host c)).

(** Whether [Connect_Internal] asks the handshake to verify the peer. *)
Definition asks_to_verify (c : conn_config) (root_cas connector_cas : list X509) : bool :=
  negb (bool_decide (root_cas = [])) || negb (bool_decide (connector_cas = [])) || checks_pin c.

(** The name the peer goes by. *)
Definition server_name (c : conn_config) (host_ : bytes) (connector_host : option bytes) : option bytes :=
  if given (server_host c) then server_host c
  else if 0 <? zlen host_ then Some (c_str host_) else connector_host.

Inductive cert_error := LeafNotParsed | PinNotMatched | NotVerified (e : tls_error).

(** [on_conn_cert_verify]: whether the chain is accepted, and what [cert_verify_error_] is
    set to. *)
Definition on_conn_cert_verify (c : conn_config) (host_ : bytes) (root_cas : list X509)
    (connector : Connector.config) (connector_cas : list X509) (certs : list bytes) : bool * option cert_error :=
  match certs with
  | [] => (false, None)
  | der :: rest =>
      if checks_pin c then
        match d2i_X509 O der with
        | None => (false, Some LeafNotParsed)
        | Some leaf =>
            let computed := ComputeSpkiPinBase64 O (Some leaf) in
            let expected := CanonicalizeSpkiPin (match spki_pin c with Some p => p | None => [] end) in
            if negb (bytes_eqb computed []) && bytes_eqb computed expected then (true, None)
            else (false, Some PinNotMatched)
        end
      else
        let conn_has_ca := negb (bool_decide (root_cas = [])) in
        if bool_decide ((if conn_has_ca then root_cas else connector_cas) = []) then (true, None)
        else
          match d2i_X509 O der with
          | None => (false, None)
          | Some leaf =>
              let chain := Some leaf :: (Some <$> omap (d2i_X509 O) rest) in
              let pem := if conn_has_ca then ca_cert_pem c else Connector.ca_cert_pem connector in
              let cfg := {| caCertsPem := match pem with Some p => p | None => [] end; spkiPin := [];
                            clientCertFile := []; clientKeyFile := []; clientKeyPassword := [];
                            insecureSkipVerify := false |} in
              let name := match server_name c host_ (Connector.server_host connector) with Some h => h | None => [] end in
              match VerifyChain O chain name cfg with
              | (err, r) => if r =? BC_R_SUCCESS then (true, None) else (false, NotVerified <$> err)
              end
          end
  end.
End OpenSSL.

(** ** Lemmas *)

(** The members read after the tag. *)
Definition late (c : conn_config) :=
  (ca_cert_pem c, vpn_policy c, android_net_handle c, (proxy_type c, proxy_host c, proxy_port c, proxy_sni c),
   spki_pin c).

(** Goes through the readers of a configuration: what each keeps, all keep. *)
Ltac readers P :=
  repeat first [ done | apply (on_number_ok P) | apply (on_pointer_ok P) | apply (on_bool_ok P)
               | let H := fresh in intros ? ? ? H; exact H | let H := fresh in intros ? ? H; exact H ].

Lemma read_transport_late get c : late (read_transport get c) = late c.
Proof. unfold read_transport. cbv zeta. readers (fun c' => late c' = late c). Qed.

(** A member that is a text. *)
Definition text_member (get : BCFObject) (key : bytes) : option bytes :=
  match get key with Some (BCFString s) => c_str <$> s | _ => None end.

(** The policy a configuration names, which may be none it knows. *)
Definition named_policy (get : BCFObject) : option TTVpnPolicy :=
  match get (str "vpnPolicy") with Some (BCFString s) => Some (tt_vpn_policy_from_string (c_str <$> s)) | _ => None end.

Definition tag_fits (get : BCFObject) : bool :=
  match get (str "cid_tag") with Some (BCFString s) => zlen (bcf_text s) <=? SMP_CID_TAG_LEN | _ => true end.

(** The members of [read_tls_and_proxy] that are not the proxy's. *)
Definition tls_part (c : conn_config) := (ca_cert_pem c, vpn_policy c, spki_pin c).

Lemma read_proxy_tls get c : tls_part (read_proxy get c) = tls_part c.
Proof.
  unfold read_proxy. cbv zeta. set (P c' := tls_part c' = tls_part c).
  match goal with |- tls_part (match proxy_type ?x with _ => _ end) = _ => assert (H : P x) end.
  - unfold P. readers P. intros s a Ha. by destruct (s ≫= ParseProxyUrl) as [[]|].
  - match goal with |- tls_part (match proxy_type ?x with _ => _ end) = _ => destruct (proxy_type x) end; [exact H|].
    by destruct (_ && _).
Qed.

(** A reader leaves the projections it does not write. *)
Lemma on_pointer_same {A B} (proj : A -> B) v f a :
  (forall s a, proj (f s a) = proj a) -> proj (on_pointer v f a) = proj a.
Proof. intros H. destruct v as [[]|]; try done. apply H. Qed.

Lemma on_number_same {A B} (proj : A -> B) v f a :
  (forall n a, proj (f n a) = proj a) -> proj (on_number v f a) = proj a.
Proof. intros H. destruct v as [[]|]; try done. apply H. Qed.

Lemma read_tls_and_proxy_tls get c :
  ca_cert_pem (read_tls_and_proxy get c)
    = match get (str "ca_cert_pem") with Some (BCFString s) => c_str <$> s | _ => ca_cert_pem c end /\
  vpn_policy (read_tls_and_proxy get c) = match named_policy get with Some p => p | None => vpn_policy c end /\
  spki_pin (read_tls_and_proxy get c) = match get (str "spki_pin") with Some (BCFString s) => c_str <$> s | _ => spki_pin c end.
Proof.
  unfold read_tls_and_proxy. cbv zeta.
  set (c1 := on_pointer (get (str "ca_cert_pem")) _ c). set (c2 := on_pointer (get (str "vpnPolicy")) _ c1).
  set (c3 := on_number (get (str "androidNetHandle")) _ c2).
  pose proof (read_proxy_tls get c3) as H3. unfold tls_part in H3. injection H3 as Ha Hv Hs.
  split_and!.
  - rewrite !(on_pointer_same ca_cert_pem) by done. rewrite Ha. unfold c3, c2.
    rewrite (on_number_same ca_cert_pem), (on_pointer_same ca_cert_pem) by done. unfold c1.
    by destruct (get (str "ca_cert_pem")) as [[]|].
  - rewrite !(on_pointer_same vpn_policy) by done. rewrite Hv. unfold c3.
    rewrite (on_number_same vpn_policy) by done. unfold c2, named_policy.
    destruct (get (str "vpnPolicy")) as [[]|]; cbn; try done; unfold c1; by rewrite (on_pointer_same vpn_policy).
  - set (c5 := on_pointer (get (str "proxy_ca_cert_pem")) _ _).
    assert (H5 : spki_pin c5 = spki_pin c).
    { unfold c5. rewrite (on_pointer_same spki_pin) by done. rewrite Hs. unfold c3, c2, c1.
      by rewrite (on_number_same spki_pin), !(on_pointer_same spki_pin). }
    destruct (get (str "spki_pin")) as [[]|]; done.
Qed.

Lemma ConnConfig_Init_fits get c :
  tag_fits get = true ->
  ca_cert_pem (ConnConfig_Init get c).2
    = match get (str "ca_cert_pem") with Some (BCFString s) => c_str <$> s | _ => ca_cert_pem c end /\
  vpn_policy (ConnConfig_Init get c).2 = match named_policy get with Some p => p | None => vpn_policy c end /\
  spki_pin (ConnConfig_Init get c).2 = match get (str "spki_pin") with Some (BCFString s) => c_str <$> s | _ => spki_pin c end.
Proof.
  intros Hf. unfold ConnConfig_Init, tag_fits in *. pose proof (read_transport_late get c) as Hl.
  set (c1 := read_transport get c) in *. unfold late in Hl. injection Hl as Ha Hv _ _ _ _ _ Hs.
  destruct (get (str "cid_tag")) as [[|s| | |]|]; cbv zeta;
    try (pose proof (read_tls_and_proxy_tls get c1) as H; rewrite Ha, Hv, Hs in H; exact H).
  rewrite (proj2 (Z.ltb_ge _ _)) by lia. cbn [snd].
  match goal with |- context [read_tls_and_proxy get ?x] => pose proof (read_tls_and_proxy_tls get x) as H end.
  cbn in H |- *. rewrite Ha, Hv, Hs in H. exact H.
Qed.

Lemma ConnConfig_Init_long get c : tag_fits get = false -> late (ConnConfig_Init get c).2 = late c.
Proof.
  intros Hf. unfold ConnConfig_Init, tag_fits in *.
  destruct (get (str "cid_tag")) as [[|s| | |]|]; try discriminate Hf. cbv zeta.
  rewrite (proj2 (Z.ltb_lt _ _)) by lia. apply read_transport_late.
Qed.

(** ** Properties *)

(** What a connection is configured with. When the tag of its id fits, its pin and its
    certificates are the ones named, and its policy is the one named, or the connector's when
    none is; a policy that is named and not known leaves none, not the connector's. When the
    tag is too long, the pin, the certificates, the policy and the proxy that were named are
    all dropped, and the connection is made without them. *)
Theorem Create_settles (random : bytes) (connector : Connector.config) (get : BCFObject) (c : conn_config) :
  Create_config random connector get = (BC_R_SUCCESS, c) ->
  if tag_fits get then
    spki_pin c = text_member get (str "spki_pin") /\ ca_cert_pem c = text_member get (str "ca_cert_pem") /\
    vpn_policy c = match named_policy get with Some p => p | None => Connector.vpn_policy connector end
  else
    spki_pin c = None /\ ca_cert_pem c = None /\ proxy_type c = TT_PROXY_NONE /\ proxy_host c = None /\
    vpn_policy c = Connector.vpn_policy connector.
Proof.
  unfold Create_config. cbv zeta. set (c1 := (ConnConfig_Init get (new_conn_config random)).2).
  set (c2 := match vpn_policy c1 with TT_VPN_POLICY_UNSET => _ | _ => c1 end).
  assert (H2 : ca_cert_pem c2 = ca_cert_pem c1 /\ spki_pin c2 = spki_pin c1 /\ proxy_type c2 = proxy_type c1 /\
    proxy_host c2 = proxy_host c1 /\
    vpn_policy c2 = if decide (vpn_policy c1 = TT_VPN_POLICY_UNSET) then Connector.vpn_policy connector else vpn_policy c1).
  { subst c2. destruct (vpn_policy c1) eqn:E; cbn; rewrite ?E; done. }
  clearbody c2. destruct H2 as (Ha2 & Hs2 & Ht2 & Hh2 & Hv2).
  destruct (alpn c2); [|done]. destruct (server_host c2); [|done]. intros [= <-].
  destruct (tag_fits get) eqn:Hf.
  - destruct (ConnConfig_Init_fits get (new_conn_config random) Hf) as (Ha1 & Hv1 & Hs1).
    destruct (ConnConfig_Init_fits get c2 Hf) as (-> & -> & ->). unfold text_member.
    split_and!.
    + rewrite Hs2. unfold c1. rewrite Hs1. by destruct (get (str "spki_pin")) as [[]|].
    + rewrite Ha2. unfold c1. rewrite Ha1. by destruct (get (str "ca_cert_pem")) as [[]|].
    + unfold c1 in Hv2. rewrite Hv1 in Hv2. by destruct (named_policy get).
  - pose proof (ConnConfig_Init_long get c2 Hf) as H. pose proof (ConnConfig_Init_long get (new_conn_config random) Hf) as H1.
    fold c1 in H1. unfold late in H, H1. injection H as -> -> _ -> -> _ _ ->. injection H1 as Ha1 Hv1 _ Ht1 Hh1 _ _ Hs1.
    rewrite Hs2, Ha2, Ht2, Hh2, Hv2, Hs1, Ha1, Ht1, Hh1, Hv1. done.
Qed.

(** ** The proxy's URL *)

Lemma digits_val_fold s acc : Forall (fun c => 48 <= c < 58) s -> digits_val acc s = fold_left (fun acc c => acc * 10 + (c - 48)) s acc.
Proof.
  intros H. revert acc. induction H as [|c s Hc _ IH]; intros acc; [done|]. cbn.
  rewrite (proj2 (Z.leb_le 48 c)), (proj2 (Z.leb_le c 57)) by lia. apply IH.
Qed.

Lemma atoi_dec n : 0 <= n < 65536 -> u16 (atoi (dec_text n)) = n.
Proof.
  intros Hn. pose proof (dec_text_range n ltac:(lia)) as Hr. pose proof (dec_val_dec_text n ltac:(lia)) as Hv.
  unfold atoi, dec_val in *. destruct (dec_text n) as [|c s]; [cbn in Hv; subst n; done|].
  assert (Hc : 48 <= c < 58) by by inversion Hr.
  assert (Hsp : skip_spaces (c :: s) = c :: s).
  { apply skip_spaces_id. intros x [= <-]. unfold isspace. lia. }
  rewrite Hsp. assert (Hm : match c :: s with 45 :: s0 => - digits_val 0 s0 | 43 :: s0 => digits_val 0 s0 | s0 => digits_val 0 s0 end
                            = digits_val 0 (c :: s)).
  { assert (c = 48 \/ c = 49 \/ c = 50 \/ c = 51 \/ c = 52 \/ c = 53 \/ c = 54 \/ c = 55 \/ c = 56 \/ c = 57) as Hd by lia.
    repeat destruct Hd as [-> | Hd]; try done. by subst. }
  rewrite Hm, digits_val_fold, Hv by done. rewrite Z.min_l, Z.max_r by lia.
  unfold i32. rewrite (u32_small n) by lia. rewrite (proj2 (Z.ltb_lt _ _)) by lia. apply u16_small. lia.
Qed.

Lemma find_str_eq pat s :
  find_str pat s = if starts_with pat s then Some 0 else match s with [] => None | _ :: s' => Z.succ <$> find_str pat s' end.
Proof. by destruct s. Qed.

Lemma find_str_scheme s r : Forall (fun x => x <> 58) s -> find_str (str "://") (s ++ str "://" ++ r) = Some (zlen s).
Proof.
  induction 1 as [|c s Hc _ IH]; rewrite find_str_eq.
  - by rewrite (proj2 (starts_with_app (str "://") _)) by eauto.
  - assert (H : starts_with (str "://") (c :: s ++ str "://" ++ r) = false).
    { apply not_true_is_false. intros [r' [= -> _]]%starts_with_app. done. }
    cbn [app]. rewrite H, IH, zlen_cons. cbn. f_equal. lia.
Qed.

Lemma rfind_char_app c s r : Forall (fun x => x <> c) r -> rfind_char c (s ++ c :: r) = Some (zlen s).
Proof.
  intros H. unfold rfind_char. change (c :: r) with ([c] ++ r). rewrite !rev_app_distr, <- app_assoc. cbn [rev app].
  rewrite find_char_app by by apply Forall_rev. cbn. f_equal. unfold zlen. rewrite length_rev, !length_app. cbn. lia.
Qed.

Lemma rfind_char_None c s : Forall (fun x => x <> c) s -> rfind_char c s = None.
Proof. intros H. unfold rfind_char. by rewrite (proj2 (find_char_None c _)) by by apply Forall_rev. Qed.

(** A host: a name or an address without colons, or an address in brackets. *)
Definition proxy_host_ok (h : bytes) : Prop :=
  (h <> [] /\ Forall (fun x => x <> 47 /\ x <> 58 /\ x <> 91) h) \/
  (exists inner, h = 91 :: inner ++ [93] /\ Forall (fun x => x <> 47 /\ x <> 93) inner).

Definition port_text (port : option Z) : bytes := match port with Some p => 58 :: dec_text p | None => [] end.

Lemma proxy_scheme_plain s : proxy_scheme_ok (ToLowerAscii s) = true -> Forall (fun x => x <> 58) s.
Proof.
  intros H. assert (Hl : Forall (fun x => x <> 58) (ToLowerAscii s)).
  { unfold proxy_scheme_ok in H. rewrite !orb_true_iff, !bytes_eqb_true in H.
    repeat destruct H as [H | H]; rewrite H; repeat constructor; done. }
  clear H. unfold ToLowerAscii in Hl. rewrite Forall_map in Hl. eapply Forall_impl; [exact Hl|].
  intros x Hx ->. by apply Hx.
Qed.

Lemma host_no_slash h port :
  proxy_host_ok h -> (forall p, port = Some p -> 0 <= p) -> Forall (fun x => x <> 47) (h ++ port_text port).
Proof.
  intros Hh Hp. apply Forall_app. split.
  - destruct Hh as [[_ H] | (i & -> & H)].
    + eapply Forall_impl; [exact H|]. by intros x [? _].
    + constructor; [done|]. apply Forall_app. split; [|by repeat constructor]. eapply Forall_impl; [exact H|]. by intros x [? _].
  - destruct port as [p|]; [|constructor]. constructor; [done|].
    eapply Forall_impl; [apply dec_text_range, Hp; done|]. cbn. lia.
Qed.

Definition port_or_443 (port : option Z) : Z := match port with Some p => p | None => 443 end.

Lemma zat_app_r l r : zat (l ++ r) (zlen l) = zat r 0.
Proof.
  unfold zat, zget. rewrite (proj2 (Z.ltb_ge _ _)) by apply zlen_nonneg.
  unfold zlen. rewrite Nat2Z.id, lookup_app_r, Nat.sub_diag by lia. done.
Qed.

Lemma split_authority_ok h port :
  proxy_host_ok h -> (forall p, port = Some p -> 0 < p < 65536) ->
  split_authority (h ++ port_text port) = Some (h, port_or_443 port).
Proof.
  intros Hh Hp. unfold split_authority. destruct Hh as [[Hne Hh] | (i & -> & Hi)].
  - rewrite (proj2 (Z.eqb_neq _ 91)).
    2:{ destruct h as [|c h']; [done|]. change (c <> 91). inversion Hh; subst. tauto. }
    destruct port as [p|]; cbn [port_text port_or_443]; [specialize (Hp p eq_refl)|].
    + rewrite rfind_char_app by (eapply Forall_impl; [apply dec_text_range; lia|cbn; lia]).
      rewrite ztake_app_exact by done. change (58 :: dec_text p) with ([58] ++ dec_text p).
      rewrite app_assoc, zdrop_app_exact by by rewrite zlen_app. rewrite atoi_dec by lia. done.
    + by rewrite app_nil_r, rfind_char_None by (eapply Forall_impl; [exact Hh|]; by intros x (_ & ? & _)).
  - rewrite (proj2 (Z.eqb_eq _ 91)) by done.
    assert (Hf : find_char 93 ((91 :: i ++ [93]) ++ port_text port) = Some (zlen (91 :: i))).
    { change ((91 :: i ++ [93]) ++ port_text port) with (((91 :: i) ++ [93]) ++ port_text port). rewrite <- app_assoc.
      apply (find_char_app 93 (91 :: i) (port_text port)). constructor; [done|].
      eapply Forall_impl; [exact Hi|]. by intros x [_ ?]. }
    rewrite Hf. cbn [mbind option_bind].
    assert (Hl : zlen (91 :: i) + 1 = zlen (91 :: i ++ [93])) by (rewrite !zlen_cons, zlen_app, Z.add_assoc; done).
    rewrite Hl, ztake_app_exact by done.
    destruct port as [p|]; cbn [port_text port_or_443]; [specialize (Hp p eq_refl)|by rewrite app_nil_r, Z.ltb_irrefl].
    rewrite (proj2 (Z.ltb_lt (zlen (91 :: i ++ [93])) _)).
    2:{ rewrite zlen_app, (zlen_cons 58). pose proof (zlen_nonneg (dec_text p)). lia. }
    rewrite zat_app_r. cbn [andb].
    assert (Hd : zdrop (zlen (91 :: i) + 2) ((91 :: i ++ [93]) ++ 58 :: dec_text p) = dec_text p).
    { change (58 :: dec_text p) with ([58] ++ dec_text p). rewrite app_assoc. apply zdrop_app_exact.
      rewrite zlen_app, <- Hl. change (zlen [58]) with 1. lia. }
    rewrite Hd, atoi_dec by lia. done.
Qed.

(** A proxy's URL names its host and its port: for every scheme the code knows, in any
    case, every host without colons or address in brackets, and every port, written or left
    to be 443, whatever path follows. *)
Theorem ParseProxyUrl_roundtrip (scheme h path : bytes) (port : option Z) :
  proxy_scheme_ok (ToLowerAscii scheme) = true -> proxy_host_ok h ->
  (forall p, port = Some p -> 0 < p < 65536) -> (path = [] \/ exists p, path = 47 :: p) ->
  ParseProxyUrl (scheme ++ str "://" ++ h ++ port_text port ++ path) = Some (h, port_or_443 port).
Proof.
  intros Hs Hh Hp Hpath. unfold ParseProxyUrl.
  rewrite (proj2 (bytes_eqb_false _ [])) by by destruct scheme.
  rewrite find_str_scheme by by apply proxy_scheme_plain. cbv zeta beta iota. rewrite ztake_app_exact by done.
  assert (Hd : zdrop (zlen scheme + 3) (scheme ++ str "://" ++ h ++ port_text port ++ path) = (h ++ port_text port) ++ path).
  { rewrite (app_assoc scheme (str "://")), zdrop_app_exact; [by rewrite app_assoc|]. by rewrite zlen_app. }
  rewrite Hd. pose proof (host_no_slash h port Hh ltac:(intros p E; apply Hp in E; lia)) as Hns.
  assert (Ha : match find_char 47 ((h ++ port_text port) ++ path) with
               | Some n => ztake n ((h ++ port_text port) ++ path) | None => (h ++ port_text port) ++ path end = h ++ port_text port).
  { destruct Hpath as [-> | [p ->]].
    - rewrite app_nil_r. by rewrite (proj2 (find_char_None _ _) Hns).
    - rewrite find_char_app by done. by apply ztake_app_exact. }
  rewrite Ha. assert (Hhne : h <> []) by (destruct Hh as [[? _] | (i & -> & _)]; done).
  rewrite (proj2 (bytes_eqb_false (h ++ _) [])) by by destruct h.
  rewrite Hs, split_authority_ok by done. cbn [negb mbind option_bind].
  rewrite (proj2 (bytes_eqb_false h [])) by done.
  rewrite (proj2 (Z.eqb_neq _ 0)); [done|]. destruct port as [p|]; [|done]. specialize (Hp p eq_refl). cbn. lia.
Qed.

Lemma ParseProxyUrl_roundtrip_witness :
  ParseProxyUrl (str "Masque://[2001:db8::1]:8443/x") = Some (str "[2001:db8::1]", 8443).
Proof.
  apply (ParseProxyUrl_roundtrip (str "Masque") (str "[2001:db8::1]") (str "/x") (Some 8443)).
  - done.
  - right. exists (str "2001:db8::1"). split; [done|]. apply (bool_decide_unpack _). by vm_compute.
  - intros p [= <-]. lia.
  - right. by exists (str "x").
Defined.

(** ** The peer *)

(** The two readers of a bundle agree on one that has certificates. *)
Lemma bundle_read (O : openssl) pem certs :
  (parsePemCertBundle O (Some pem)).2 = certs -> certs <> [] -> pem <> [] /\ ParseCAsFromPem O pem = inr certs.
Proof.
  unfold parsePemCertBundle, ParseCAsFromPem. destruct pem as [|c pem]; [by intros <-|].
  rewrite (proj2 (bytes_eqb_false (c :: pem) [])) by done.
  destruct (pem_read O _) as [[l at_end]|]; [|by intros <-]. destruct at_end; cbn [negb]; [|by intros <-].
  destruct l; [by intros <-|]. by intros <-.
Qed.

(** The pin that is this connection's to check: one is configured and no proxy is. *)
Definition pinned_here (c : conn_config) (pin : bytes) : Prop :=
  spki_pin c = Some pin /\ pin <> [] /\ (proxy_host c = None \/ proxy_host c = Some []).

(** Something tells the server from others. *)
Definition server_told (c : conn_config) (root_cas connector_cas : list X509) : Prop :=
  root_cas <> [] \/ connector_cas <> [] \/ exists pin, pinned_here c pin.

(** The name the server is known by: the one configured, else the host connected to, else
    the connector's. *)
Definition known_by (c : conn_config) (host_ : bytes) (connector_host : option bytes) (name : bytes) : Prop :=
  match server_host c, host_ with
  | Some (x :: l), _ => name = x :: l
  | _, x :: l => name = c_str (x :: l)
  | _, [] => connector_host = Some name
  end.

Lemma given_false p : given p = false <-> p = None \/ p = Some [].
Proof.
  destruct p as [[|x p]|]; cbn; split; try done; [by right| |by left]. by intros [?|?].
Qed.

Lemma checks_pin_true c : checks_pin c = true <-> exists pin, pinned_here c pin.
Proof.
  unfold checks_pin, pinned_here. rewrite andb_true_iff, negb_true_iff, given_false. split.
  - intros [Hg Hp]. unfold given in Hg. destruct (spki_pin c) as [[|x pin]|]; try done. by exists (x :: pin).
  - intros (pin & -> & Hn & Hp). split; [|done]. by destruct pin.
Qed.

Lemma asks_iff c root_cas connector_cas : asks_to_verify c root_cas connector_cas = true <-> server_told c root_cas connector_cas.
Proof.
  unfold asks_to_verify, server_told. rewrite !orb_true_iff, !negb_true_iff, !bool_decide_eq_false, checks_pin_true. tauto.
Qed.

Lemma server_name_known c host_ connector_host name :
  server_name c host_ connector_host = Some name -> known_by c host_ connector_host name.
Proof.
  unfold server_name, known_by. destruct (server_host c) as [[|x l]|]; cbn [given]; [|by intros [= <-]|];
    (destruct host_ as [|y h]; [done|]); rewrite (proj2 (Z.ltb_lt 0 _)) by (rewrite zlen_cons; pose proof (zlen_nonneg h); lia); by intros [= <-].
Qed.

(** C24: the server of a verified connection. The connection asks the handshake to verify its
    server exactly when something tells that server from others: certificates of the
    connection or of the connector, or a pin and no proxy. A chain is then accepted only when
    its leaf has the pinned key, or, where no pin is this connection's to check, is a
    certificate for the name the server is known by that leads to the configured
    certificates: the connection's own, or the connector's when it has none. The system's
    certificates never count. *)
Theorem server_vouched_for (O : openssl) (c : conn_config) (host_ : bytes) (K : Connector.config) (certs : list bytes) (e : option cert_error) :
  let root_cas := (parsePemCertBundle O (ca_cert_pem c)).2 in
  let connector_cas := (parsePemCertBundle O (Connector.ca_cert_pem K)).2 in
  (asks_to_verify c root_cas connector_cas = true <-> server_told c root_cas connector_cas) /\
  (server_told c root_cas connector_cas ->
   on_conn_cert_verify O c host_ root_cas K connector_cas certs = (true, e) ->
   exists der rest leaf, certs = der :: rest /\ d2i_X509 O der = Some leaf /\
     ((exists pin, pinned_here c pin /\
         ComputeSpkiPinBase64 O (Some leaf) <> [] /\ ComputeSpkiPinBase64 O (Some leaf) = CanonicalizeSpkiPin pin) \/
      ((forall pin, ~ pinned_here c pin) /\
       exists name store,
         known_by c host_ (Connector.server_host K) name /\ name <> [] /\ X509_check_host O leaf name = true /\
         AddTrustedCAsToStore O [] (if bool_decide (root_cas = []) then connector_cas else root_cas) = (true, store) /\
         X509_verify_cert O (TrustOnly store) leaf (omap (d2i_X509 O) rest) = true))).
Proof.
  cbv zeta. set (root := (parsePemCertBundle O (ca_cert_pem c)).2). set (cas := (parsePemCertBundle O (Connector.ca_cert_pem K)).2).
  split; [apply asks_iff|]. intros Ha%asks_iff Hv. unfold on_conn_cert_verify in Hv. destruct certs as [|der rest]; [done|].
  destruct (checks_pin c) eqn:Ep.
  - destruct (d2i_X509 O der) as [leaf|] eqn:Ed; [|done]. cbv zeta in Hv.
    destruct (_ && _) eqn:E in Hv; [|done]. apply andb_true_iff in E as [E1 E2]. apply bytes_eqb_true in E2.
    exists der, rest, leaf. split; [done|]. split; [done|]. left. pose proof (proj1 (checks_pin_true c) Ep) as (pin & Hpin).
    exists pin. split; [done|]. destruct Hpin as (Hp & _). rewrite Hp in E2. split; [by intros E; rewrite E in E1|done].
  - assert (Hroots : (if bool_decide (root = []) then cas else root) <> []).
    { unfold asks_to_verify in Ha. rewrite Ep, orb_false_r in Ha.
      destruct (bool_decide (root = [])) eqn:Er; [by apply negb_true_iff, bool_decide_eq_false in Ha|].
      by apply bool_decide_eq_false in Er. }
    set (pem := if negb (bool_decide (root = [])) then ca_cert_pem c else Connector.ca_cert_pem K) in *.
    assert (Hpem : exists p, pem = Some p /\ p <> [] /\ ParseCAsFromPem O p = inr (if bool_decide (root = []) then cas else root)).
    { unfold pem, root, cas in *. destruct (bool_decide _); cbn [negb].
      - destruct (Connector.ca_cert_pem K) as [p|]; [|done]. exists p. split; [done|]. by apply bundle_read.
      - destruct (ca_cert_pem c) as [p|]; [|done]. exists p. split; [done|]. by apply bundle_read. }
    destruct Hpem as (p & Hpem & Hpn & Hparse).
    cbv zeta in Hv. rewrite bool_decide_eq_false_2 in Hv by by destruct (bool_decide (root = [])).
    destruct (d2i_X509 O der) as [leaf|] eqn:Ed; [|done].
    destruct (VerifyChain O _ _ _) as [err r] eqn:Evc. destruct (Z.eqb_spec r BC_R_SUCCESS) as [->|]; [|done].
    pose proof (f_equal snd Evc) as Hok. apply VerifyChain_vouched in Hok as (leaf' & rest' & [= <- <-] & Hok).
    unfold vouched in Hok. fold pem in Hok. rewrite Hpem in Hok. cbn [spkiPin caCertsPem] in Hok.
    rewrite (proj2 (bytes_eqb_false p [])) in Hok by done.
    destruct Hok as (Hn & Hhost & t & Hver & cas' & Hc' & Hadd & Ht).
    rewrite Hparse in Hc'. injection Hc' as <-. destruct t as [store|]; [|done].
    exists der, rest, leaf. split; [done|]. split; [done|]. right.
    split; [intros pin Hpin; by rewrite (proj2 (checks_pin_true c) (ex_intro _ pin Hpin)) in Ep|].
    destruct (server_name c host_ _) as [name|] eqn:En; [|done]. exists name, store. split_and!; try done; [by apply server_name_known|].
    rewrite <- Hver. f_equal. clear. induction rest as [|d rest IH]; [done|]. cbn. destruct (d2i_X509 O d); cbn; congruence.
Qed.

(** ** Witnesses *)

(** An object with a server, a pin and an unknown policy, whose tag is [tag]. *)
Definition toy_object (tag : bytes) : BCFObject := fun k =>
  if bytes_eqb k (str "alpn") then Some (BCFString (Some (str "smp")))
  else if bytes_eqb k (str "server_host") then Some (BCFString (Some (str "chat.example")))
  else if bytes_eqb k (str "cid_tag") then Some (BCFString (Some tag))
  else if bytes_eqb k (str "ca_cert_pem") then Some (BCFString (Some (str "Achat.example")))
  else if bytes_eqb k (str "vpnPolicy") then Some (BCFString (Some (str "sometimes")))
  else None.

Definition toy_connector : Connector.config := Connector.new_config <| Connector.vpn_policy := TT_VPN_POLICY_FORCE_PHYSICAL |>.

Definition toy_conn (tag : bytes) : conn_config := (Create_config [] toy_connector (toy_object tag)).2.

Lemma Create_settles_witness :
  vpn_policy (toy_conn (str "short")) = TT_VPN_POLICY_UNSET /\
  ca_cert_pem (toy_conn (str "much too long")) = None.
Proof.
  pose proof (Create_settles [] toy_connector (toy_object (str "short")) (toy_conn (str "short"))
                ltac:(vm_compute; reflexivity)) as H1.
  pose proof (Create_settles [] toy_connector (toy_object (str "much too long")) (toy_conn (str "much too long"))
                ltac:(vm_compute; reflexivity)) as H2.
  split; [exact (proj2 (proj2 H1))|exact (proj1 (proj2 H2))].
Defined.

Lemma server_vouched_for_witness :
  asks_to_verify (toy_conn (str "short")) [str "Achat.example"] [] = true /\
  exists der rest leaf, [str "Achat.example"] = der :: rest /\ d2i_X509 toy_openssl der = Some leaf /\
    exists name store,
      known_by (toy_conn (str "short")) [] None name /\ name <> [] /\ X509_check_host toy_openssl leaf name = true /\
      AddTrustedCAsToStore toy_openssl [] [str "Achat.example"] = (true, store) /\
      X509_verify_cert toy_openssl (TrustOnly store) leaf (omap (d2i_X509 toy_openssl) rest) = true.
Proof.
  destruct (server_vouched_for toy_openssl (toy_conn (str "short")) [] toy_connector [str "Achat.example"] None) as [H1 H2].
  change (parsePemCertBundle toy_openssl (ca_cert_pem (toy_conn (str "short")))).2 with [str "Achat.example"] in H1, H2.
  change (parsePemCertBundle toy_openssl (Connector.ca_cert_pem toy_connector)).2 with (@nil X509) in H1, H2.
  assert (Ht : server_told (toy_conn (str "short")) [str "Achat.example"] []) by (left; discriminate).
  split; [by apply H1|].
  destruct (H2 Ht ltac:(vm_compute; reflexivity)) as (der & rest & leaf & -> & Hd & [(pin & (Hp & _) & _)|[_ Hn]]).
  - vm_compute in Hp. discriminate Hp.
  - exists der, rest, leaf. split; [done|]. split; [exact Hd|]. exact Hn.
Defined.
