(* ===== verification/SMPStream.v ===== *)
(** * SMPStream: the streams of a signalling connection
      ([src/cpp/SMPConnector.cpp], [SMPConnector.h], classes [SMPStream] and [H3Stream])

    A raw stream feeds what the QUIC engine reads to the packet parser, and sends the packets
    of its list as far as the engine takes them. What a call of the engine returns is an
    argument: the results of [xqc_stream_recv] and of [xqc_stream_send], in order, the last
    one repeating a "try again". A packet is shared with whoever made it, so the packets are
    a store, and a list holds their addresses. *)

From Stdlib Require Import ZArith Lia.
From stdpp Require Import base numbers option gmap list.
From S2P Require Import Prelude Buffer StreamParser SMPParser MasqueFraming.

Definition webtransport_hdr_mask : bytes := [0x40; 0x41; 0x00].

Definition recv_buff_size_ : Z := 4096.

Record stream := {
  stream_ : bool;                     (* the engine's stream is not null *)
  stream_id_ : Z;
  parser_ : SMPParser;
  recv_buff_ : bytes;
  recv_wt_mask_ : bool;
  send_buff_list_ : list Z            (* the packets, by their addresses *)
}.

#[global] Instance eta_stream : Eta stream := fun s =>
  {| stream_ := stream_ s; stream_id_ := stream_id_ s; parser_ := parser_ s; recv_buff_ := recv_buff_ s;
     recv_wt_mask_ := recv_wt_mask_ s; send_buff_list_ := send_buff_list_ s |}.

(** [SMPStream::Create] on a new object. *)
Definition Create (id : Z) : option stream :=
  p ← SMPParser.Create new_SMPParser true (u32 id);
  Some {| stream_ := true; stream_id_ := id; parser_ := p;
          recv_buff_ := replicate (Z.to_nat recv_buff_size_) 0; recv_wt_mask_ := false; send_buff_list_ := [] |}.

(** ** Reading *)

(** What [xqc_stream_recv] gives: nothing yet, an error, or bytes and whether the peer ended
    the stream. *)
Inductive read_result := ReadAgain | ReadError | ReadData (bs : bytes) (fin : bool).

Section Read.
Context (uninit : Z) (webtransport : bool).

(** The turn of [OnRead] for bytes read: what is in front of them in the buffer is compared
    with the mask, and what follows is parsed; a negative size is a huge one. *)
Definition read_turn (s : stream) (bs : bytes) : option (stream * list smp_event) :=
  let buf := write_at (recv_buff_ s) 0 bs in
  let skip_size := if webtransport && negb (recv_wt_mask_ s) && bool_decide (ztake 3 buf = webtransport_hdr_mask)
                   then 3 else 0 in
  if zlen bs - skip_size <? 0 then None
  else
    '(p, evs) ← Parse uninit (parser_ s) (ztake (zlen bs - skip_size) (zdrop skip_size buf));
    Some (s <| recv_buff_ := buf |> <| parser_ := p |> <| recv_wt_mask_ := recv_wt_mask_ s || webtransport |>, evs).

(** The loop of [SMPStream::OnRead]; [None] is a fault. *)
Fixpoint OnRead (s : stream) (reads : list read_result) : option (stream * list smp_event) :=
  if negb (stream_ s) then None
  else
    match reads with
    | [] | ReadAgain :: _ | ReadError :: _ => Some (s, [])
    | ReadData bs fin :: reads =>
        '(s, evs) ← read_turn s bs;
        if (0 <? zlen bs) && negb fin then
          '(s, evs') ← OnRead s reads; Some (s, evs ++ evs')
        else Some (s, evs)
    end.
End Read.

(** ** Sending *)

Abbreviation packets := (gmap Z SMPacket).

(** What a send does outwards: bytes the engine took, and the handler told of a packet. *)
Inductive sent := SentBytes (bs : bytes) | DataSent (trans_id size : Z).

(** [SMPStream::Send]: the engine takes at most what it is given. *)
Definition Send (open : bool) (data : bytes) (ret : Z) : Z := if open then Z.min ret (zlen data) else -1.

(** The inner loop of [_SendBuffList]: whether the buffer was sent to its end, what is left
    of it, and what the engine took. *)
Fixpoint send_blocks (fuel : nat) (open : bool) (b : buffer) (rets : list Z) : option (bool * buffer * bytes * list Z) :=
  match fuel with
  | O => None
  | S f =>
      let data := PeekBlock b 4294967295 in
      if zlen data =? 0 then Some (true, b, [], rets)
      else
        let '(ret, rets) := match rets with r :: rs => (Send open data r, rs) | [] => (-1, []) end in
        if ret <=? 0 then Some (false, b, [], rets)
        else if zlen data <? ret then Some (false, b, data, rets)
        else
          '(done, b, bs, rets) ← send_blocks f open (Forward b ret) rets;
          Some (done, b, ztake ret data ++ bs, rets)
  end.

(** [_SendBuffList]: the packets, the list left, what was done, the results not used. *)
Fixpoint SendBuffList (open : bool) (m : packets) (l : list Z) (rets : list Z)
    : option (packets * list Z * list sent * list Z) :=
  match l with
  | [] => Some (m, [], [], rets)
  | a :: l' =>
      k ← m !! a;
      b ← packed_jmp_data k;
      '(done, b, bs, rets) ← send_blocks (S (length (b_data b))) open b rets;
      let m := <[a := {| type := type k; timestamp := timestamp k; trans_id := trans_id k;
                         stream_id := stream_id k; origion_data := origion_data k;
                         packed_jmp_data := Some b |}]> m in
      if done : bool then
        '(m, l, evs, rets) ← SendBuffList open m l' rets;
        Some (m, l, SentBytes bs :: DataSent (trans_id k) (zlen (b_data (origion_data k))) :: evs, rets)
      else Some (m, a :: l', [SentBytes bs], rets)
  end.

(** [SMPConnection::SendPacket_Internal] for a stream that is there: the packet is packed,
    put at the end of the list, and the list sent. *)
Definition SendPacket (m : packets) (s : stream) (a : Z) (rets : list Z)
    : option (packets * stream * list sent) :=
  k ← m !! a;
  '(m, l, evs, _) ← SendBuffList (stream_ s) (<[a := PackPacket k]> m) (send_buff_list_ s ++ [a]) rets;
  Some (m, s <| send_buff_list_ := l |>, evs).

(** [OnWriteNotify]. *)
Definition OnWriteNotify (m : packets) (s : stream) (rets : list Z) : option (packets * stream * list sent) :=
  '(m, l, evs, _) ← SendBuffList (stream_ s) m (send_buff_list_ s) rets;
  Some (m, s <| send_buff_list_ := l |>, evs).

(** [Close]. *)
Definition Close (s : stream) : stream := s <| stream_ := false |>.

(** ** HTTP/3 streams *)

Record h3_stream := {
  hdr_sent_ : bool;
  recv_fin_ : bool;
  recv_body_size_ : Z
}.

#[global] Instance eta_h3_stream : Eta h3_stream := fun s =>
  {| hdr_sent_ := hdr_sent_ s; recv_fin_ := recv_fin_ s; recv_body_size_ := recv_body_size_ s |}.

Definition new_h3_stream : h3_stream := {| hdr_sent_ := false; recv_fin_ := false; recv_body_size_ := 0 |}.

Abbreviation fields := (list (bytes * bytes)).

(** The fields of [SendRequest], the WebTransport handshake; [props] are the user's, in the
    order of their names. *)
Definition SendRequest_fields (server_host connector_host : option bytes) (host scheme path query : bytes) (port : Z)
    (props : fields) : fields :=
  let given p := match p with Some (c :: s) => Some (c :: s) | _ => None end in
  let logical_host := match given server_host with
                      | Some h => h
                      | None => match given connector_host with Some h => h | None => c_str host end
                      end in
  let path := if bool_decide (path = []) then str "/" else path in
  let path := if 0 <? zlen query then path ++ str "?" ++ query else path in
  [(str ":method", str "CONNECT"); (str ":protocol", str "webtransport");
   (str ":authority", logical_host ++ str ":" ++ dec_text port); (str ":scheme", scheme);
   (str "host", logical_host); (str ":path", path); (str "Sec-WebTransport-Http3-Draft02", str "1")] ++ props.

(** The fields of [SendConnectUdpRequest]. *)
Definition ConnectUdp_fields (authority target_host : bytes) (target_port : Z) : fields :=
  [(str ":method", str "CONNECT"); (str ":protocol", str "connect-udp"); (str ":scheme", str "https");
   (str ":authority", authority); (str ":path", BuildConnectUdpPath target_host target_port);
   (str "capsule-protocol", str "?1")].

(** The body's loop of [H3Stream::OnRead]: the bytes are counted and dropped. *)
Fixpoint read_body (s : h3_stream) (reads : list read_result) : h3_stream :=
  match reads with
  | [] | ReadAgain :: _ | ReadError :: _ => s
  | ReadData bs fin :: reads =>
      let s := s <| recv_body_size_ ::= fun n => u32 (n + zlen bs) |> in
      if (0 <? zlen bs) && negb fin then read_body s reads else s
  end.

(** ** What a stream reads *)

(** The chunks a call of [OnRead] takes. *)
Fixpoint chunks_read (reads : list read_result) : list bytes :=
  match reads with
  | ReadData bs fin :: reads => bs :: (if (0 <? zlen bs) && negb fin then chunks_read reads else [])
  | _ => []
  end.

Definition read_ok (r : read_result) : Prop :=
  match r with ReadData bs _ => bytes_ok bs /\ zlen bs <= recv_buff_size_ | _ => True end.

#[global] Instance read_ok_dec r : Decision (read_ok r).
Proof. destruct r; apply _. Defined.

Lemma chunks_ok reads :
  Forall read_ok reads -> Forall (fun bs => bytes_ok bs /\ zlen bs <= recv_buff_size_) (chunks_read reads).
Proof.
  induction 1 as [|[| |bs fin] reads Hr _ IH]; try by constructor. cbn. constructor; [done|].
  by destruct (_ && _).
Qed.

(** The bytes for the parser: without the mask the first chunk may begin with. *)
Definition to_parse (masked : bool) (chunks : list bytes) : bytes :=
  match chunks with
  | [] => []
  | c :: cs => (if masked && bool_decide (ztake 3 c = webtransport_hdr_mask) then zdrop 3 c else c) ++ concat cs
  end.

(** A stream that has parsed [consumed] and told its handler [evs]. *)
Definition has_read (s : stream) (consumed : bytes) (evs : list smp_event) : Prop :=
  exists st, between_calls (parser_ s) st /\
    runs (WaitHeader (u32 (stream_id_ s))) consumed evs (inl (st, remaining (parser_ s))).

(** The buffer is clear until something was read. *)
Definition buff_ok (s : stream) : Prop :=
  zlen (recv_buff_ s) = recv_buff_size_ /\ bytes_ok (recv_buff_ s).

Definition buff_clear (s : stream) : Prop := recv_buff_ s = replicate (Z.to_nat recv_buff_size_) 0.

Lemma parse_step uninit p st data :
  is_byte uninit -> between_calls p st -> bytes_ok data -> zlen data <= recv_buff_size_ ->
  exists p' evs st', Parse uninit p data = Some (p', evs) /\ between_calls p' st' /\
    runs st (remaining p ++ data) evs (inl (st', remaining p')).
Proof.
  intros Hu Hb Hd Hl. pose proof Hb as (Hok & Hs & Hi & Hsz).
  assert (Hn : need st < 2 ^ 63).
  { destruct st as [sid|h]; cbn; [unfold DEFAULT_HEADER_SIZE; lia|]. destruct Hs as (_ & _ & _ & Hw).
    unfold in_word in Hw. lia. }
  destruct (Parse_spec uninit p st data) as (p' & evs & st' & HP & H1 & H2 & H3 & H4 & H5); try done.
  { unfold recv_buff_size_ in Hl. lia. }
  by exists p', evs, st'.
Qed.

Lemma has_read_more uninit s bs buf mask consumed evs :
  is_byte uninit -> has_read s consumed evs -> bytes_ok bs -> zlen bs <= recv_buff_size_ ->
  exists p evs', Parse uninit (parser_ s) bs = Some (p, evs') /\
    has_read (s <| recv_buff_ := buf |> <| parser_ := p |> <| recv_wt_mask_ := mask |>) (consumed ++ bs) (evs ++ evs').
Proof.
  intros Hu (st & Hb & Hr) Hd Hl. destruct (parse_step uninit _ st bs Hu Hb Hd Hl) as (p & evs' & st' & HP & Hb' & Hr').
  exists p, evs'. split; [done|]. exists st'. split; [done|]. by eapply runs_app.
Qed.

(** The mask in front of the buffer is in front of the chunk, but for two bytes that a clear
    buffer completes. *)
Lemma mask_found s bs :
  buff_clear s -> zlen bs <= recv_buff_size_ ->
  ztake 3 (write_at (recv_buff_ s) 0 bs) = webtransport_hdr_mask <->
  ztake 3 bs = webtransport_hdr_mask \/ bs = [0x40; 0x41].
Proof.
  intros -> Hl. assert (E : write_at (replicate (Z.to_nat recv_buff_size_) 0) 0 bs = bs ++ replicate (Z.to_nat (recv_buff_size_ - zlen bs)) 0).
  { unfold write_at. change (ztake 0 _) with (@nil Z). cbn [app]. f_equal.
    unfold zdrop. rewrite drop_replicate. f_equal. unfold zlen in *. lia. }
  rewrite E. unfold recv_buff_size_ in *. destruct bs as [|a [|b [|c bs]]]; cbn -[replicate].
  - change (zlen (@nil Z)) with 0 in *. cbn. split; [done|]. by intros [|].
  - change (zlen [a]) with 1 in *. cbn. split; [done|]. by intros [|].
  - change (zlen [a; b]) with 2 in *. cbn. unfold webtransport_hdr_mask. split; [intros [= -> ->]; auto|]. by intros [? | [= -> ->]].
  - change (ztake 3 (a :: b :: c :: bs ++ _)) with [a; b; c]. change (ztake 3 (a :: b :: c :: bs)) with [a; b; c].
    split; [auto|]. by intros [?|].
Qed.

Lemma write_whole buf bs :
  zlen bs <= zlen buf -> ztake (zlen bs) (write_at buf 0 bs) = bs.
Proof.
  intros Hl. unfold write_at. change (ztake 0 buf) with (@nil Z). cbn [app]. by apply ztake_app_exact.
Qed.

Lemma write_skip buf bs n :
  zlen bs <= zlen buf -> 0 <= n <= zlen bs -> ztake (zlen bs - n) (zdrop n (write_at buf 0 bs)) = zdrop n bs.
Proof.
  intros Hl Hn. unfold write_at. change (ztake 0 buf) with (@nil Z). cbn [app]. rewrite zdrop_app_le by lia.
  apply ztake_app_exact. rewrite zlen_zdrop; lia.
Qed.

(** Whether the next bytes may begin with the mask. *)
Definition masked (wt : bool) (s : stream) : bool := wt && negb (recv_wt_mask_ s).

Lemma read_turn_ok uninit wt s bs consumed evs :
  is_byte uninit -> has_read s consumed evs -> buff_ok s -> (masked wt s = true -> buff_clear s) ->
  bytes_ok bs -> zlen bs <= recv_buff_size_ ->
  if masked wt s && bool_decide (bs = [0x40; 0x41]) then read_turn uninit wt s bs = None
  else exists s' evs', read_turn uninit wt s bs = Some (s', evs') /\
    has_read s' (consumed ++ to_parse (masked wt s) [bs]) (evs ++ evs') /\ buff_ok s' /\ masked wt s' = false /\
    stream_ s' = stream_ s /\ stream_id_ s' = stream_id_ s.
Proof.
  intros Hu Hr (Hl & Hbo) Hc Hb Hn. unfold read_turn. fold (masked wt s).
  assert (Hw : zlen (write_at (recv_buff_ s) 0 bs) = recv_buff_size_).
  { rewrite write_at_length; lia. }
  assert (Hwo : bytes_ok (write_at (recv_buff_ s) 0 bs)) by by apply bytes_ok_write_at.
  assert (Hm' : forall p, masked wt (s <| recv_buff_ := write_at (recv_buff_ s) 0 bs |> <| parser_ := p |>
                                       <| recv_wt_mask_ := recv_wt_mask_ s || wt |>) = false).
  { intros p. unfold masked. cbn. destruct wt, (recv_wt_mask_ s); done. }
  destruct (masked wt s) eqn:Em; cbn [andb to_parse concat].
  - specialize (Hc eq_refl). pose proof (mask_found s bs Hc Hn) as Hf.
    destruct (bool_decide (bs = [0x40; 0x41])) eqn:E2.
    + apply bool_decide_eq_true in E2. rewrite bool_decide_eq_true_2 by by apply Hf; right. by subst bs.
    + apply bool_decide_eq_false in E2. rewrite app_nil_r.
      destruct (bool_decide (ztake 3 bs = webtransport_hdr_mask)) eqn:E3.
      * apply bool_decide_eq_true in E3. rewrite bool_decide_eq_true_2 by by apply Hf; left.
        assert (H3 : 3 <= zlen bs).
        { apply (f_equal zlen) in E3. unfold ztake, zlen in E3 |- *. rewrite length_take in E3. cbn in E3. lia. }
        rewrite (proj2 (Z.ltb_ge _ _)) by lia. rewrite write_skip by lia.
        destruct (has_read_more uninit s (zdrop 3 bs) (write_at (recv_buff_ s) 0 bs) (recv_wt_mask_ s || wt) consumed evs)
          as (p & evs' & HP & Hh); [done..|by apply bytes_ok_zdrop|rewrite zlen_zdrop; lia|].
        rewrite HP. cbn [mbind option_bind]. by eexists _, evs'.
      * apply bool_decide_eq_false in E3. rewrite bool_decide_eq_false_2 by by intros [?|?]%Hf.
        rewrite Z.sub_0_r, (proj2 (Z.ltb_ge _ _)) by apply zlen_nonneg. rewrite zdrop_0, write_whole by lia.
        destruct (has_read_more uninit s bs (write_at (recv_buff_ s) 0 bs) (recv_wt_mask_ s || wt) consumed evs)
          as (p & evs' & HP & Hh); [done..|].
        rewrite HP. cbn [mbind option_bind]. by eexists _, evs'.
  - rewrite app_nil_r, Z.sub_0_r, (proj2 (Z.ltb_ge _ _)) by apply zlen_nonneg. rewrite zdrop_0, write_whole by lia.
    destruct (has_read_more uninit s bs (write_at (recv_buff_ s) 0 bs) (recv_wt_mask_ s || wt) consumed evs)
      as (p & evs' & HP & Hh); [done..|].
    rewrite HP. cbn [mbind option_bind]. by eexists _, evs'.
Qed.

(** A stream between calls of [OnRead]. *)
Record reading (wt : bool) (id : Z) (s : stream) (consumed : bytes) (evs : list smp_event) : Prop := {
  reading_read : has_read s consumed evs;
  reading_buff : buff_ok s;
  reading_clear : masked wt s = true -> buff_clear s;
  reading_open : stream_ s = true;
  reading_id : stream_id_ s = id
}.

Lemma to_parse_app m c cs ds :
  to_parse m (c :: cs ++ ds) = to_parse m (c :: cs) ++ concat ds.
Proof. cbn. by rewrite concat_app, app_assoc. Qed.

Lemma to_parse_plain cs : to_parse false cs = concat cs.
Proof. by destruct cs. Qed.

Lemma OnRead_ok uninit wt id s reads consumed evs :
  is_byte uninit -> reading wt id s consumed evs -> Forall read_ok reads ->
  if masked wt s && bool_decide (head (chunks_read reads) = Some [0x40; 0x41]) then OnRead uninit wt s reads = None
  else exists s' evs', OnRead uninit wt s reads = Some (s', evs') /\
    reading wt id s' (consumed ++ to_parse (masked wt s) (chunks_read reads)) (evs ++ evs') /\
    masked wt s' = masked wt s && bool_decide (chunks_read reads = []).
Proof.
  intros Hu Hs Hrs. revert s consumed evs Hs. induction Hrs as [|r reads Hr Hrs IH]; intros s consumed evs Hs.
  { cbn. rewrite (reading_open _ _ _ _ _ Hs), andb_false_r, andb_true_r. exists s, []. by rewrite !app_nil_r. }
  destruct r as [| |bs fin]; cbn [chunks_read head OnRead]; rewrite (reading_open _ _ _ _ _ Hs); cbn [negb].
  1, 2: rewrite andb_false_r, andb_true_r; exists s, []; by rewrite !app_nil_r.
  destruct Hr as [Hb Hl]. pose proof Hs as [Hhr Hbuf Hclr Hopen Hid].
  pose proof (read_turn_ok uninit wt s bs consumed evs Hu Hhr Hbuf Hclr Hb Hl) as Ht.
  assert (E : bool_decide (Some bs = Some [0x40; 0x41]) = bool_decide (bs = [0x40; 0x41])).
  { apply bool_decide_ext. split; [by intros [= ->]|by intros ->]. }
  rewrite E. destruct (masked wt s && bool_decide (bs = [0x40; 0x41])) eqn:Em; [by rewrite Ht|].
  destruct Ht as (s1 & evs1 & -> & Hr1 & Hb1 & Hm1 & Ho1 & Hi1). cbn [mbind option_bind].
  assert (Hs1 : reading wt id s1 (consumed ++ to_parse (masked wt s) [bs]) (evs ++ evs1)).
  { split; [done|done|by rewrite Hm1|by rewrite Ho1|by rewrite Hi1]. }
  destruct (_ && negb fin) eqn:Eg.
  - specialize (IH s1 _ _ Hs1). rewrite Hm1 in IH. cbn [andb] in IH.
    destruct IH as (s2 & evs2 & -> & H2 & Hm2). cbn [mbind option_bind].
    exists s2, (evs1 ++ evs2). split; [done|]. rewrite to_parse_plain in H2.
    rewrite (to_parse_app _ bs [] (chunks_read reads)), app_assoc, (app_assoc evs). split; [done|].
    by rewrite Hm2, andb_false_r.
  - exists s1, evs1. split; [done|]. split; [done|]. by rewrite Hm1, andb_false_r.
Qed.

(** The calls of [OnRead] over a stream's life. *)
Fixpoint OnReads (uninit : Z) (wt : bool) (s : stream) (calls : list (list read_result)) : option (stream * list smp_event) :=
  match calls with
  | [] => Some (s, [])
  | reads :: calls =>
      '(s, evs) ← OnRead uninit wt s reads;
      '(s, evs') ← OnReads uninit wt s calls;
      Some (s, evs ++ evs')
  end.

Lemma created_reading wt id :
  exists s, Create id = Some s /\ reading wt id s [] [] /\ recv_wt_mask_ s = false /\ send_buff_list_ s = [].
Proof.
  destruct (created_between_calls (u32 id)) as (p & HC & Hb & Hrem & _). unfold Create. rewrite HC. cbn [mbind option_bind].
  eexists. split; [done|]. split; [|done]. split; cbn; try done.
  - exists (WaitHeader (u32 id)). split; [done|]. cbn. rewrite Hrem. constructor. done.
  - split; cbn -[replicate]; [by vm_compute|]. apply Forall_replicate. by vm_compute.
Qed.

Lemma OnReads_ok uninit wt id calls s consumed evs :
  is_byte uninit -> Forall (Forall read_ok) calls -> reading wt id s consumed evs ->
  let chunks := concat (map chunks_read calls) in
  if masked wt s && bool_decide (head chunks = Some [0x40; 0x41]) then OnReads uninit wt s calls = None
  else exists s' evs', OnReads uninit wt s calls = Some (s', evs') /\
    reading wt id s' (consumed ++ to_parse (masked wt s) chunks) (evs ++ evs').
Proof.
  intros Hu Hc. revert s consumed evs. induction Hc as [|reads calls Hr Hc IH]; intros s consumed evs Hs; cbn [map concat OnReads].
  { rewrite andb_false_r. exists s, []. by rewrite !app_nil_r. }
  pose proof (OnRead_ok uninit wt id s reads consumed evs Hu Hs Hr) as H1.
  destruct (chunks_read reads) as [|c cs] eqn:Ec; cbn [head app] in *.
  - rewrite andb_false_r in H1. destruct H1 as (s1 & evs1 & -> & Hs1 & Hm1). cbn [mbind option_bind].
    rewrite andb_true_r in Hm1. specialize (IH s1 _ _ Hs1). cbv zeta in IH. rewrite Hm1 in IH.
    destruct (masked wt s && _); [by rewrite IH|]. destruct IH as (s2 & evs2 & -> & H2). cbn [mbind option_bind].
    exists s2, (evs1 ++ evs2). split; [done|]. cbn [to_parse] in H2. by rewrite app_nil_r, <- app_assoc in H2.
  - destruct (masked wt s && _); [by rewrite H1|]. destruct H1 as (s1 & evs1 & -> & Hs1 & Hm1). cbn [mbind option_bind].
    rewrite andb_false_r in Hm1. specialize (IH s1 _ _ Hs1). cbv zeta in IH. rewrite Hm1 in IH. cbn [andb] in IH.
    destruct IH as (s2 & evs2 & -> & H2). cbn [mbind option_bind]. exists s2, (evs1 ++ evs2). split; [done|].
    rewrite to_parse_plain, <- !app_assoc in H2. by rewrite to_parse_app.
Qed.

(** ** What a stream sends *)

Lemma Forward_ok b n : buf_ok b -> 0 <= n -> buf_ok (Forward b n).
Proof.
  intros Hb Hn. pose proof (RemainingLength_nonneg b Hb). apply advance_ok; [done|]. lia.
Qed.

Lemma Forward_unread b n : buf_ok b -> 0 <= n <= RemainingLength b -> unread (Forward b n) = zdrop n (unread b).
Proof. intros Hb Hn. unfold Forward. rewrite Z.min_l by lia. by rewrite advance_unread. Qed.

(** A block is some of the unread bytes, and none only when none is left. *)
Lemma PeekBlock_block b :
  buf_ok b ->
  exists k, PeekBlock b 4294967295 = ztake k (unread b) /\ 0 <= k <= RemainingLength b /\
    (k = 0 -> RemainingLength b = 0) /\ zlen (PeekBlock b 4294967295) = k.
Proof.
  intros Hb. pose proof (RemainingLength_nonneg b Hb). pose proof (zlen_unread b Hb).
  unfold PeekBlock, ReadBlock. cbn [fst]. eexists. split; [done|].
  unfold G_nBlockSize in *. pose proof (Z.mod_pos_bound (b_cur b) 8192). split_and!; try lia.
  rewrite zlen_ztake; lia.
Qed.

Lemma send_blocks_ok fuel open b rets :
  buf_ok b -> RemainingLength b < Z.of_nat fuel ->
  exists done b' bs rets', send_blocks fuel open b rets = Some (done, b', bs, rets') /\
    buf_ok b' /\ b_data b' = b_data b /\ unread b = bs ++ unread b' /\ (done = true <-> unread b' = []).
Proof.
  revert b rets. induction fuel as [|f IH]; intros b rets Hb Hf; [pose proof (RemainingLength_nonneg b Hb); lia|].
  cbn [send_blocks]. destruct (PeekBlock_block b Hb) as (k & Hk & Hk1 & Hk0 & Hz). rewrite Hz.
  pose proof (zlen_unread b Hb) as Hu.
  destruct (Z.eqb_spec k 0) as [E|E].
  { exists true, b, [], rets. split_and!; try done. split; [|done]. intros _. apply zlen_0_nil. lia. }
  assert (Hne : unread b <> []) by (intros E0; rewrite E0 in Hu; change (zlen (@nil Z)) with 0 in Hu; lia).
  destruct (match rets with r :: rs => _ | [] => _ end) as [ret rets'] eqn:Er.
  assert (Hr : ret <= k).
  { destruct rets as [|r rs]; injection Er as <- <-; [lia|]. unfold Send. destruct open; lia. }
  destruct (Z.leb_spec ret 0); [exists false, b, [], rets'; by split_and!|].
  rewrite (proj2 (Z.ltb_ge _ _)) by lia.
  assert (Hfr : RemainingLength (Forward b ret) = RemainingLength b - ret).
  { unfold Forward, RemainingLength in *. cbn. lia. }
  destruct (IH (Forward b ret) rets') as (dn & b' & bs & rets2 & -> & Hb' & Hd' & Hu' & Hdn);
    [by apply Forward_ok; [|lia]|lia|].
  cbn [mbind option_bind]. exists dn, b', (ztake ret (PeekBlock b 4294967295) ++ bs), rets2. split_and!; try done.
  rewrite Forward_unread in Hu' by (done || lia). rewrite <- app_assoc, <- Hu', Hk.
  assert (Ht : ztake ret (ztake k (unread b)) = ztake ret (unread b)) by (apply ztake_ztake_le; lia).
  rewrite Ht. symmetry. apply ztake_zdrop.
Qed.

(** The packets of a list are packed, and each is there once. *)
Definition packed_at (m : packets) (a : Z) (f : bytes) : Prop :=
  exists k b, m !! a = Some k /\ packed_jmp_data k = Some b /\ buf_ok b /\ unread b = f.

(** What the handler is told of a packet that was sent. *)
Definition told (m : packets) (a : Z) : list sent :=
  match m !! a with Some k => [DataSent (trans_id k) (zlen (b_data (origion_data k)))] | None => [] end.

Definition sent_bytes (evs : list sent) : bytes :=
  concat (map (fun e => match e with SentBytes bs => bs | DataSent _ _ => [] end) evs).

Definition sent_told (evs : list sent) : list sent :=
  List.filter (fun e => match e with DataSent _ _ => true | SentBytes _ => false end) evs.

(** Two stores with the same packets, whatever is left of them to send. *)
Definition same_packets (m m' : packets) : Prop :=
  forall a, match m !! a, m' !! a with
    | Some k, Some k' => type k = type k' /\ timestamp k = timestamp k' /\ trans_id k = trans_id k' /\
                         stream_id k = stream_id k' /\ origion_data k = origion_data k'
    | None, None => True
    | _, _ => False
    end.

Lemma same_packets_refl m : same_packets m m.
Proof. intros a. by destruct (m !! a). Qed.

Lemma same_packets_trans m1 m2 m3 : same_packets m1 m2 -> same_packets m2 m3 -> same_packets m1 m3.
Proof.
  intros H1 H2 a. specialize (H1 a). specialize (H2 a).
  destruct (m1 !! a), (m2 !! a), (m3 !! a); try done. intuition congruence.
Qed.

Lemma same_packets_told m m' a : same_packets m m' -> told m' a = told m a.
Proof.
  intros H. specialize (H a). unfold told. destruct (m !! a), (m' !! a); try done.
  destruct H as (_ & _ & -> & _ & ->). done.
Qed.

(** The list's packets in order: the first ones are sent to their end, the next one in part. *)
Lemma SendBuffList_ok open m l fs rets :
  Forall2 (packed_at m) l fs -> NoDup l ->
  exists m' l' fs' evs rets', SendBuffList open m l rets = Some (m', l', evs, rets') /\
    same_packets m m' /\ (forall a, a ∉ l -> m' !! a = m !! a) /\
    Forall2 (packed_at m') l' fs' /\ concat fs = sent_bytes evs ++ concat fs' /\
    exists done, l = done ++ l' /\ sent_told evs = concat (map (told m) done).
Proof.
  revert fs m rets. induction l as [|a l IH]; intros fs m rets H Hnd.
  { inversion H; subst. exists m, [], [], [], rets. split; [done|]. split; [apply same_packets_refl|].
    split_and!; try done; try constructor. by exists []. }
  inversion H as [|? f ? fs0 (k & b & Hk & Hpk & Hb & Hf) Hl]; subst. apply NoDup_cons in Hnd as [Ha Hnd].
  cbn [SendBuffList]. rewrite Hk. cbn [mbind option_bind]. rewrite Hpk. cbn [mbind option_bind].
  destruct (send_blocks_ok (S (length (b_data b))) open b rets) as (dn & b' & bs & rets1 & -> & Hb' & Hd & Hu & Hdn);
    [done| |].
  { unfold RemainingLength, buf_ok, zlen in *. lia. }
  cbn [mbind option_bind]. set (k' := {| type := type k; packed_jmp_data := Some b' |}).
  assert (Hsame : same_packets m (<[a := k']> m)).
  { intros x. destruct (decide (x = a)) as [->|Hx].
    - rewrite Hk, lookup_insert_eq. done.
    - rewrite lookup_insert_ne by done. by destruct (m !! x). }
  assert (Hrest : Forall2 (packed_at (<[a := k']> m)) l fs0).
  { clear -Hl Ha. induction Hl as [|x f l fs (k2 & b2 & H1 & H2) _ IHl]; constructor.
    - exists k2, b2. rewrite lookup_insert_ne; [done|]. intros ->. apply Ha. by left.
    - apply IHl. intros Hx. apply Ha. by right. }
  destruct dn.
  - destruct (IH fs0 (<[a := k']> m) rets1 Hrest Hnd) as (m2 & l2 & fs2 & evs & rets2 & -> & Hs2 & Hout & Hl2 & Hc2 & dn2 & Hd2 & Ht2).
    cbn [mbind option_bind]. exists m2, l2, fs2, (SentBytes bs :: DataSent (trans_id k) (zlen (b_data (origion_data k))) :: evs), rets2.
    split; [done|]. split; [by eapply same_packets_trans|]. split.
    { intros x Hx. rewrite Hout by (intros ?; apply Hx; by right). apply lookup_insert_ne. intros ->. apply Hx. by left. }
    split; [done|]. assert (Hu' : unread b' = []) by by apply Hdn. rewrite Hu', app_nil_r in Hu. split.
    { cbn. rewrite Hu, Hc2. unfold sent_bytes. by rewrite <- app_assoc. }
    exists (a :: dn2). split; [by rewrite Hd2|]. unfold sent_told in *. cbn [List.filter map concat]. rewrite Ht2.
    unfold told at 2. rewrite Hk. cbn [app]. do 2 f_equal. apply map_ext. intros x. by apply same_packets_told.
  - exists (<[a := k']> m), (a :: l), (unread b' :: fs0), [SentBytes bs], rets1. split; [done|]. split; [done|]. split.
    { intros x Hx. apply lookup_insert_ne. intros ->. apply Hx. by left. }
    split.
    { constructor; [|done]. exists k', b'. rewrite lookup_insert_eq. split_and!; try done. }
    split; [|by exists []]. cbn. by rewrite app_nil_r, Hu, <- app_assoc.
Qed.

(** Putting a packet at the end of the list, or the engine asking for more. *)
Inductive stream_op := OpSend (a : Z) (rets : list Z) | OpWrite (rets : list Z).

Definition run_op (m : packets) (s : stream) (o : stream_op) : option (packets * stream * list sent) :=
  match o with OpSend a rets => SendPacket m s a rets | OpWrite rets => OnWriteNotify m s rets end.

Fixpoint run_ops (m : packets) (s : stream) (ops : list stream_op) : option (packets * stream * list sent) :=
  match ops with
  | [] => Some (m, s, [])
  | o :: ops =>
      '(m, s, evs) ← run_op m s o;
      '(m, s, evs') ← run_ops m s ops;
      Some (m, s, evs ++ evs')
  end.

Definition submitted (ops : list stream_op) : list Z :=
  omap (fun o => match o with OpSend a _ => Some a | OpWrite _ => None end) ops.

(** The frame of a packet. *)
Definition frame_of (m : packets) (a : Z) : bytes := match m !! a with Some k => packed k | None => [] end.

Definition there (m : packets) (a : Z) : Prop := is_Some (m !! a).

Lemma same_frame m m' a : same_packets m m' -> frame_of m' a = frame_of m a.
Proof.
  intros H. specialize (H a). unfold frame_of. destruct (m !! a) as [k|], (m' !! a) as [k'|]; try done.
  destruct H as (E1 & E2 & E3 & _ & E5). unfold packed, PackPacket. cbn [packed_jmp_data].
  rewrite E1, E2, E3, E5. by destruct (packed_jmp_data k), (packed_jmp_data k').
Qed.

Lemma same_there m m' a : same_packets m m' -> there m a -> there m' a.
Proof. intros H [k Hk]. specialize (H a). rewrite Hk in H. unfold there. by destruct (m' !! a). Qed.

Lemma pack_there m a k :
  m !! a = Some k ->
  same_packets m (<[a := PackPacket k]> m) /\ packed_at (<[a := PackPacket k]> m) a (frame_of m a).
Proof.
  intros Hk. split.
  - intros x. destruct (decide (x = a)) as [->|Hx].
    + by rewrite Hk, lookup_insert_eq.
    + rewrite lookup_insert_ne by done. by destruct (m !! x).
  - unfold frame_of. rewrite Hk. unfold packed. cbn [PackPacket packed_jmp_data].
    eexists _, _. rewrite lookup_insert_eq. split; [done|]. split; [done|].
    assert (H0 : b_cur (match packed_jmp_data k with Some b => Reset b | None => empty_buffer end) = 0) by by destruct (packed_jmp_data k).
    split.
    + split; cbn; rewrite H0; [done|apply zlen_nonneg].
    + unfold unread. cbn -[Write]. unfold WriteTo, Write at 1. cbn. rewrite H0. by rewrite zdrop_0.
Qed.

(** A packet that was packed, however much of it was sent. *)
Definition packed_in (m : packets) (a : Z) : Prop := exists f, packed_at m a f.

Definition no_worse (m m' : packets) : Prop := same_packets m m' /\ forall a, packed_in m a -> packed_in m' a.

Lemma no_worse_trans m1 m2 m3 : no_worse m1 m2 -> no_worse m2 m3 -> no_worse m1 m3.
Proof. intros [A1 A2] [B1 B2]. split; [by eapply same_packets_trans|auto]. Qed.

Lemma no_worse_insert m a k b :
  m !! a = Some k -> buf_ok b ->
  let k' := {| type := type k; timestamp := timestamp k; trans_id := trans_id k; stream_id := stream_id k;
               origion_data := origion_data k; packed_jmp_data := Some b |} in
  no_worse m (<[a := k']> m) /\ packed_in (<[a := k']> m) a.
Proof.
  intros Hk Hb k'.
  assert (Ha : packed_in (<[a := k']> m) a) by (exists (unread b), k', b; by rewrite lookup_insert_eq).
  split; [|done]. split.
  - intros x. destruct (decide (x = a)) as [->|Hx]; [by rewrite Hk, lookup_insert_eq|].
    rewrite lookup_insert_ne by done. by destruct (m !! x).
  - intros x (f & k2 & b2 & H1 & H2). destruct (decide (x = a)) as [->|Hx]; [done|].
    exists f, k2, b2. by rewrite lookup_insert_ne.
Qed.

(** Whatever is on the list, the packed packets are sent without a fault. *)
Lemma SendBuffList_total open l : forall m rets,
  (forall a, a ∈ l -> packed_in m a) ->
  exists m' l' evs rets', SendBuffList open m l rets = Some (m', l', evs, rets') /\ no_worse m m' /\ (forall a, a ∈ l' -> a ∈ l).
Proof.
  induction l as [|a l IH]; intros m rets Hl.
  { exists m, [], [], rets. split; [done|]. split; [|done]. split; [apply same_packets_refl|done]. }
  destruct (Hl a) as (f & k & b & Hk & Hp & Hb & _); [by left|]. cbn [SendBuffList]. rewrite Hk. cbn [mbind option_bind].
  rewrite Hp. cbn [mbind option_bind].
  destruct (send_blocks_ok (S (length (b_data b))) open b rets) as (dn & b' & bs & rets1 & -> & Hb' & _); [done| |].
  { unfold RemainingLength, buf_ok, zlen in *. lia. }
  cbn [mbind option_bind]. destruct (no_worse_insert m a k b' Hk Hb') as [Hw _]. cbv zeta in Hw.
  set (m1 := <[a := _]> m) in *. destruct dn.
  - destruct (IH m1 rets1) as (m2 & l2 & evs & rets2 & -> & Hw2 & Hl2).
    { intros x Hx. apply Hw, Hl. by right. }
    cbn [mbind option_bind]. eexists _, _, _, _. split; [done|]. split; [by eapply no_worse_trans|].
    intros x Hx. right. by apply Hl2.
  - eexists _, _, _, _. split; [done|]. done.
Qed.

Lemma OnWriteNotify_total m s rets :
  (forall a, a ∈ send_buff_list_ s -> packed_in m a) ->
  exists m' s' evs, OnWriteNotify m s rets = Some (m', s', evs) /\ no_worse m m' /\
    (forall a, a ∈ send_buff_list_ s' -> a ∈ send_buff_list_ s) /\ s' = s <| send_buff_list_ := send_buff_list_ s' |>.
Proof.
  intros Hl. unfold OnWriteNotify. destruct (SendBuffList_total (stream_ s) _ m rets Hl) as (m' & l' & evs & rets' & -> & Hw & Hs).
  cbn [mbind option_bind]. eexists _, _, _. split; [done|]. done.
Qed.

Lemma SendPacket_total m s a rets :
  (forall x, x ∈ send_buff_list_ s -> packed_in m x) -> is_Some (m !! a) ->
  exists m' s' evs, SendPacket m s a rets = Some (m', s', evs) /\ no_worse m m' /\ packed_in m' a /\
    (forall x, x ∈ send_buff_list_ s' -> x ∈ send_buff_list_ s \/ x = a) /\ s' = s <| send_buff_list_ := send_buff_list_ s' |>.
Proof.
  intros Hl [k Hk]. unfold SendPacket. rewrite Hk. cbn [mbind option_bind]. destruct (pack_there m a k Hk) as [Hsame Hpk].
  set (m1 := <[a := PackPacket k]> m) in *.
  assert (Ha : packed_in m1 a) by by eexists.
  assert (Hw : no_worse m m1).
  { split; [done|]. intros x (f & k2 & b2 & H1 & H2). destruct (decide (x = a)) as [->|Hx]; [done|].
    exists f, k2, b2. unfold m1. by rewrite lookup_insert_ne. }
  destruct (SendBuffList_total (stream_ s) (send_buff_list_ s ++ [a]) m1 rets) as (m' & l' & evs & rets' & -> & Hw2 & Hs).
  { intros x [Hx|Hx]%elem_of_app; [by apply Hw, Hl|]. apply list_elem_of_singleton in Hx. by subst x. }
  cbn [mbind option_bind]. eexists _, _, _. split; [done|]. split; [by eapply no_worse_trans|]. split; [by apply Hw2|].
  split; [|done]. intros x Hx. cbn in Hx. apply Hs in Hx. apply elem_of_app in Hx as [?|Hx]; [by left|]. right.
  by apply list_elem_of_singleton in Hx.
Qed.

(** A stream in the middle of its list: what is left of each packet. *)
Definition sending (m : packets) (s : stream) (fs : list bytes) : Prop :=
  Forall2 (packed_at m) (send_buff_list_ s) fs /\ NoDup (send_buff_list_ s).

Lemma run_op_ok m s o fs :
  sending m s fs -> Forall (fun a => there m a /\ a ∉ send_buff_list_ s) (submitted [o]) ->
  exists m' s' evs fs', run_op m s o = Some (m', s', evs) /\ sending m' s' fs' /\ same_packets m m' /\
    concat fs ++ concat (map (frame_of m) (submitted [o])) = sent_bytes evs ++ concat fs' /\
    exists done, send_buff_list_ s ++ submitted [o] = done ++ send_buff_list_ s' /\
      sent_told evs = concat (map (told m) done).
Proof.
  intros [Hf Hnd] Hs. destruct o as [a rets|rets]; cbn [submitted omap list_omap option_bind map concat run_op] in *.
  - apply Forall_cons_1 in Hs as [[[k Hk] Ha] _]. unfold SendPacket. rewrite Hk. cbn [mbind option_bind].
    destruct (pack_there m a k Hk) as [Hsame Hpk].
    assert (Hl : Forall2 (packed_at (<[a := PackPacket k]> m)) (send_buff_list_ s ++ [a]) (fs ++ [frame_of m a])).
    { apply Forall2_app; [|by repeat constructor]. clear -Hf Ha. induction Hf as [|x f l fs (k2 & b2 & H1 & H2) _ IH]; constructor.
      - exists k2, b2. rewrite lookup_insert_ne; [done|]. intros ->. apply Ha. by left.
      - apply IH. intros Hx. apply Ha. by right. }
    assert (Hnd' : NoDup (send_buff_list_ s ++ [a])).
    { apply NoDup_app. split_and!; [done| |by apply NoDup_singleton]. intros x Hx ->%list_elem_of_singleton. done. }
    destruct (SendBuffList_ok (stream_ s) _ _ _ rets Hl Hnd') as (m' & l' & fs' & evs & rets' & -> & Hs' & _ & Hl' & Hc & dn & Hd & Ht).
    cbn [mbind option_bind]. exists m', (s <| send_buff_list_ := l' |>), evs, fs'. split; [done|]. split.
    { split; [done|]. cbn. rewrite Hd in Hnd'. by apply NoDup_app in Hnd' as (_ & _ & ?). }
    split; [by eapply same_packets_trans|]. split; [by rewrite concat_app in Hc|].
    exists dn. split; [done|]. rewrite Ht. f_equal. apply map_ext. intros x. by apply same_packets_told.
  - unfold OnWriteNotify. destruct (SendBuffList_ok (stream_ s) _ _ _ rets Hf Hnd) as (m' & l' & fs' & evs & rets' & -> & Hs' & _ & Hl' & Hc & dn & Hd & Ht).
    cbn [mbind option_bind]. exists m', (s <| send_buff_list_ := l' |>), evs, fs'. split; [done|]. split.
    { split; [done|]. cbn. rewrite Hd in Hnd. by apply NoDup_app in Hnd as (_ & _ & ?). }
    rewrite !app_nil_r. split; [done|]. split; [done|]. by exists dn.
Qed.

Lemma submitted_cons o ops : submitted (o :: ops) = submitted [o] ++ submitted ops.
Proof. by destruct o. Qed.

Lemma sent_bytes_app l l' : sent_bytes (l ++ l') = sent_bytes l ++ sent_bytes l'.
Proof. unfold sent_bytes. by rewrite map_app, concat_app. Qed.

Lemma sent_told_app l l' : sent_told (l ++ l') = sent_told l ++ sent_told l'.
Proof. unfold sent_told. apply List.filter_app. Qed.

Lemma run_ops_ok ops m s fs :
  sending m s fs -> NoDup (submitted ops) -> Forall (fun a => there m a /\ a ∉ send_buff_list_ s) (submitted ops) ->
  exists m' s' evs fs', run_ops m s ops = Some (m', s', evs) /\ sending m' s' fs' /\ same_packets m m' /\
    concat fs ++ concat (map (frame_of m) (submitted ops)) = sent_bytes evs ++ concat fs' /\
    exists done, send_buff_list_ s ++ submitted ops = done ++ send_buff_list_ s' /\
      sent_told evs = concat (map (told m) done).
Proof.
  revert m s fs. induction ops as [|o ops IH]; intros m s fs Hs Hnd Hf.
  { exists m, s, [], fs. split; [done|]. split; [done|]. split; [apply same_packets_refl|]. cbn.
    rewrite !app_nil_r. split; [done|]. by exists []. }
  rewrite submitted_cons in *. apply NoDup_app in Hnd as (_ & Hdis & Hnd). apply Forall_app in Hf as [Hf1 Hf2].
  destruct (run_op_ok m s o fs Hs Hf1) as (m1 & s1 & evs1 & fs1 & Hr1 & Hs1 & Hsame1 & Hc1 & dn1 & Hd1 & Ht1).
  destruct (IH m1 s1 fs1 Hs1 Hnd) as (m2 & s2 & evs2 & fs2 & Hr2 & Hs2 & Hsame2 & Hc2 & dn2 & Hd2 & Ht2).
  { apply Forall_forall. intros a Ha. rewrite Forall_forall in Hf2. destruct (Hf2 a Ha) as [Hth Hout].
    split; [by eapply same_there|]. intros Hin. assert (Hin' : a ∈ send_buff_list_ s ++ submitted [o]).
    { rewrite Hd1. apply elem_of_app. by right. }
    apply elem_of_app in Hin' as [?|Hin']; [done|]. by apply (Hdis a Hin'). }
  cbn [run_ops]. rewrite Hr1. cbn [mbind option_bind]. rewrite Hr2. cbn [mbind option_bind].
  exists m2, s2, (evs1 ++ evs2), fs2. split; [done|]. split; [done|]. split; [by eapply same_packets_trans|]. split.
  - rewrite map_app, concat_app, app_assoc, Hc1, sent_bytes_app, <- !app_assoc. f_equal. rewrite <- Hc2. do 2 f_equal.
    apply map_ext. intros a. symmetry. by apply same_frame.
  - exists (dn1 ++ dn2). rewrite app_assoc, Hd1, <- !app_assoc, Hd2. split; [done|].
    rewrite sent_told_app, Ht1, Ht2, map_app, concat_app. do 2 f_equal. apply map_ext. intros a. by apply same_packets_told.
Qed.

(** ** Properties *)

(** What a stream is read as. Whatever the engine gives over the life of a stream, in
    whatever pieces, the packets told are those of the whole of it; on a WebTransport
    connection, of what follows the three bytes of the mask when the first piece begins with
    them. A first piece that is just the first two of them makes the code parse with a
    negative size, and is the only fault. *)
Theorem stream_received (uninit : Z) (webtransport : bool) (id : Z) (calls : list (list read_result)) :
  is_byte uninit -> Forall (Forall read_ok) calls ->
  let chunks := concat (map chunks_read calls) in
  exists s, Create id = Some s /\
    if webtransport && bool_decide (head chunks = Some [0x40; 0x41]) then OnReads uninit webtransport s calls = None
    else exists s' evs st rest, OnReads uninit webtransport s calls = Some (s', evs) /\
      runs (WaitHeader (u32 id)) (to_parse webtransport chunks) evs (inl (st, rest)).
Proof.
  intros Hu Hc chunks. destruct (created_reading webtransport id) as (s & HC & Hr & Hm & _). exists s. split; [done|].
  pose proof (OnReads_ok uninit webtransport id calls s [] [] Hu Hc Hr) as H. cbv zeta in H. fold chunks in H.
  unfold masked in H. rewrite Hm in H. cbn [negb] in H. rewrite andb_true_r in H.
  destruct (webtransport && _); [done|]. destruct H as (s' & evs & HO & [(st & _ & Hrun) _ _ _ Hid]).
  exists s', evs, st, (remaining (parser_ s')). split; [done|]. rewrite Hid in Hrun. done.
Qed.

(** What a stream sends. For packets that are each sent once, whatever the engine takes of
    what it is offered: the bytes it took are the frames of the packets in the order of the
    calls, as far as they go, and the handler is told of the packets that were sent to their
    end, in order, each once; the others are still on the list. *)
Theorem stream_sent (m : packets) (id : Z) (ops : list stream_op) :
  NoDup (submitted ops) -> Forall (there m) (submitted ops) ->
  exists s m' s' evs tail done, Create id = Some s /\ run_ops m s ops = Some (m', s', evs) /\
    concat (map (frame_of m) (submitted ops)) = sent_bytes evs ++ tail /\
    submitted ops = done ++ send_buff_list_ s' /\ sent_told evs = concat (map (told m) done) /\
    (send_buff_list_ s' = [] -> tail = []).
Proof.
  intros Hnd Ht. destruct (created_reading false id) as (s & HC & _). exists s.
  assert (Hl : send_buff_list_ s = []).
  { unfold Create in HC. destruct (SMPParser.Create _ _ _); [|done]. by injection HC as <-. }
  destruct (run_ops_ok ops m s []) as (m' & s' & evs & fs' & Hr & [Hs' _] & _ & Hc & dn & Hd & Htold).
  { split; rewrite Hl; constructor. }
  { done. }
  { eapply Forall_impl; [exact Ht|]. intros a Ha. split; [done|]. rewrite Hl. by intros ?%elem_of_nil. }
  rewrite Hl in Hd. exists m', s', evs, (concat fs'), dn. split_and!; try done.
  intros E. rewrite E in Hs'. inversion Hs'. done.
Qed.

(** ** Witnesses *)

Definition toy_packet (text : bytes) : SMPacket :=
  {| type := 1; timestamp := 7; trans_id := 5; stream_id := 0; origion_data := {| b_data := text; b_cur := 0 |};
     packed_jmp_data := None |}.

Definition toy_packets : packets := <[1 := toy_packet (str "hi")]> (<[2 := toy_packet (str "there")]> ∅).

(** Two packets, the engine taking ten bytes of the first, then nothing, then all. *)
Definition toy_ops : list stream_op := [OpSend 1 [10; -1]; OpSend 2 [0]; OpWrite [100; 100]].

(** The two frames arrive behind the mask, in pieces. *)
Definition toy_reads : list (list read_result) :=
  [[ReadData (webtransport_hdr_mask ++ ztake 20 (frame_of toy_packets 1 ++ frame_of toy_packets 2)) false; ReadAgain];
   [ReadError]; [ReadData (zdrop 20 (frame_of toy_packets 1 ++ frame_of toy_packets 2)) true]].

Lemma stream_received_witness :
  exists s s' evs st rest, Create 4 = Some s /\ OnReads 0 true s toy_reads = Some (s', evs) /\
    runs (WaitHeader 4) (frame_of toy_packets 1 ++ frame_of toy_packets 2) evs (inl (st, rest)).
Proof.
  destruct (stream_received 0 true 4 toy_reads) as (s & HC & s' & evs & st & rest & HO & Hr).
  - by vm_compute.
  - apply (bool_decide_unpack _). by vm_compute.
  - by exists s, s', evs, st, rest.
Defined.

Lemma stream_sent_witness :
  exists s m' s' evs, Create 4 = Some s /\ run_ops toy_packets s toy_ops = Some (m', s', evs) /\
    frame_of toy_packets 1 ++ frame_of toy_packets 2 = sent_bytes evs /\
    sent_told evs = [DataSent 5 2; DataSent 5 5].
Proof.
  destruct (stream_sent toy_packets 4 toy_ops) as (s & m' & s' & evs & tail & done & HC & Hr & Hb & Hd & Ht & Hn).
  - apply (bool_decide_unpack _). by vm_compute.
  - apply (bool_decide_unpack _). by vm_compute.
  - exists s, m', s', evs. split; [exact HC|]. split; [exact Hr|].
    vm_compute in HC. injection HC as <-. vm_compute in Hr. injection Hr as <- <- <-. split; by vm_compute.
Defined.

(** A packet that is sent again while it is still on a list is packed anew, and the peer gets
    the beginning of one frame followed by whole ones. *)
Lemma resent_packet_corrupts :
  exists s m' s' evs, Create 4 = Some s /\
    run_ops toy_packets s [OpSend 1 [10; 0]; OpSend 1 [100; 100]] = Some (m', s', evs) /\
    sent_bytes evs = ztake 10 (frame_of toy_packets 1) ++ frame_of toy_packets 1.
Proof. do 4 eexists. split; [vm_compute; reflexivity|]. split; vm_compute; reflexivity. Qed.
