(* ===== verification/SMPConnection.v ===== *)
(** * SMPConnection: signalling connections over QUIC and their connector
      ([src/cpp/SMPConnector.cpp], [SMPConnector.h])

    A connection runs the tasks of its own queue on one thread; the connector's own tasks run
    on the runtime's queue. The model holds every connection by its [id_], the queues, the
    packets and the connector, and runs one event at a time to its end: a task, a timer, a
    callback of the UDP group, or a call of the user. The QUIC engine is the environment: a
    call of it may call back, as [engine_call] says, from the engine's connection it runs, for
    as long as that lives. What is done outwards is each connection's log.

    A step may end in a [crash]: where the code would use a null or a dangling pointer, parse
    a negative number of bytes, or index a JSON value that is not an object. *)

From Stdlib Require Import ZArith Lia.
From stdpp Require Import base numbers option gmap list.
From S2P Require Import Prelude Results VpnPolicy Buffer MasqueFraming SMPParser BCFObject TlsContext SMPConfig SMPStream.

(** ** State *)

Definition CONN_STATE_FREED : Z := 0.
Definition CONN_STATE_CLOSING_SOCK : Z := 1.
Definition CONN_STATE_CLOSING_QUIC : Z := 2.
Definition CONN_STATE_INIT : Z := 3.
Definition CONN_STATE_HANDSHAKE : Z := 4.
Definition CONN_STATE_CONNECTING : Z := 5.
Definition CONN_STATE_CONNECTED : Z := 6.
Definition CONN_STATE_MAX : Z := 9.

Definition CONNTOR_STATE_FREED : Z := 0.
Definition CONNTOR_STATE_INIT : Z := 1.
Definition CONNTOR_STATE_WORKING : Z := 2.
Definition CONNTOR_STATE_MAX : Z := 9.

Inductive MasqueRole := MASQUE_NONE | MASQUE_INNER | MASQUE_TUNNEL.

#[global] Instance MasqueRole_eq_dec : EqDecision MasqueRole.
Proof. solve_decision. Defined.

(** What waits on a connection's queue. *)
Inductive task :=
| TConnect (stub : Z) (scheme host : bytes) (port : Z) (path query : bytes) (props : option bytes) (timeout_ms : Z)
| TSendPacket (pkt : Z)
| TRestart (networkHandle : Z)
| TClose
| TCloseStream (sid : Z)
| TCheckAvailable
| TOnRestart (result : BCRESULT)
| TUdpClosed
| TConnectToProxy
| TTunnelReady (result : BCRESULT)
| TTunneledPacket (data : bytes)
| TSendDatagram (wire : bytes)
| TTunnelClosed
| TNextTick.

(** What a connection does outwards: to its handler, to the engine and to the network. *)
Inductive event :=
| OnExecDone (stub : Z) (result : BCRESULT) (msg : option bytes)
| OnHandshakeFinished
| OnStreamCreated (sid : Z)
| OnStreamClosed (sid : Z)
| OnStreamDataSent (sid trans_id size : Z)
| OnStreamDataAcked (sid : Z)
| OnRecvCmd (h : SMPHeader) (payload : bytes)
| OnRecvData (h : SMPHeader) (payload : bytes)
| OnRestarted (result : BCRESULT)
| OnClosed (msg : option bytes) (status : BCRESULT)
| EvEngineConnect (e : Z) (verify : bool) (sni : option bytes) (max_pkt_out_size : option Z)
| EvEngineClose (e : Z)
| EvCertVerify (certs : list bytes) (host : bytes) (accepted : bool)
| EvStreamOpen (e sid : Z)
| EvStreamRead (e sid : Z) (reads : list read_result)
| EvStreamBytes (e sid : Z) (bs : bytes)
| EvHeaders (e sid : Z) (hs : fields)
| EvDatagram (wire : bytes)
| EvUdpSend (bs : bytes)
| EvUdpClose.

(** A connection of the engine: whether it is an HTTP/3 one, what was asked of its handshake
    and how far it got, and whether its datagrams are for the object. *)
Record eng := {
  is_h3 : bool;
  asked : bool;                       (* the peer must be verified *)
  vouched : bool;                     (* [cert_verify_cb] accepted it *)
  hs_done : bool;
  dgram_user : bool
}.

#[global] Instance eta_eng : Eta eng := fun e =>
  {| is_h3 := is_h3 e; asked := asked e; vouched := vouched e; hs_done := hs_done e; dgram_user := dgram_user e |}.

(** The handshake keys are there: the peer is who it must be. *)
Definition secure (e : eng) : bool := negb (asked e) || vouched e.

(** A timer is the connect timer, or one of the engine's connection [e]. *)
Inductive timer_kind := ConnectTimer | EngineTimer (e : Z).

#[global] Instance timer_kind_eq_dec : EqDecision timer_kind.
Proof. solve_decision. Defined.

(** The members of a MASQUE pair. *)
Record masque := {
  masque_role_ : MasqueRole;
  masque_tunnel_ : option Z;
  masque_inner_ : option Z;
  masque_connect_stream_ : option Z;
  masque_qsid_ : Z;
  masque_target_host_ : bytes;
  masque_target_port_ : Z;
  masque_tunnel_ready_ : bool;
  masque_tunnel_closing_ : bool
}.

#[global] Instance eta_masque : Eta masque := fun m =>
  {| masque_role_ := masque_role_ m; masque_tunnel_ := masque_tunnel_ m; masque_inner_ := masque_inner_ m;
     masque_connect_stream_ := masque_connect_stream_ m; masque_qsid_ := masque_qsid_ m;
     masque_target_host_ := masque_target_host_ m; masque_target_port_ := masque_target_port_ m;
     masque_tunnel_ready_ := masque_tunnel_ready_ m; masque_tunnel_closing_ := masque_tunnel_closing_ m |}.

Definition no_masque : masque :=
  {| masque_role_ := MASQUE_NONE; masque_tunnel_ := None; masque_inner_ := None; masque_connect_stream_ := None;
     masque_qsid_ := 0; masque_target_host_ := []; masque_target_port_ := 0; masque_tunnel_ready_ := false;
     masque_tunnel_closing_ := false |}.

(** Where a [Connect] goes. *)
Record target := {
  scheme_ : bytes;
  host_ : bytes;
  port_ : Z;
  path_ : bytes;
  query_ : bytes;
  props_ : option bytes
}.

#[global] Instance eta_target : Eta target := fun t =>
  {| scheme_ := scheme_ t; host_ := host_ t; port_ := port_ t; path_ := path_ t; query_ := query_ t; props_ := props_ t |}.

Definition no_target : target :=
  {| scheme_ := []; host_ := []; port_ := 0; path_ := []; query_ := []; props_ := None |}.

Record conn := {
  config_ : conn_config;
  root_cas_ : list X509;
  user_handler : bool;                (* the handler is the user's, not the tunnel's silent one *)
  tgt : target;
  conn_ : option Z;
  h3_conn_ : option Z;
  engs : gmap Z eng;                  (* the engine's connections for this object *)
  next_eng : Z;
  raw_streams : gmap (Z * Z) stream;  (* the [SMPStream]s, by the engine's connection and stream *)
  stream_map_ : gmap Z (Z * Z);
  h3_streams : gmap (Z * Z) h3_stream;
  connect_rpc_ : option Z;
  connect_timer_id_ : Z;
  network_handle_ : Z;
  udp_socket_ : bool;
  udp_reading : bool;                 (* [StartRecv] was called *)
  udp_told : bool;                    (* [OnUdpClosed] came *)
  webtransport_ : bool;
  mq : masque;
  state_ : Z;
  new_state_ : Z;
  close_status_ : BCRESULT;
  conn_close_msg_ : option bytes;
  cert_verify_error_ : option cert_error;
  keep_working_ : bool;
  delay_tasks : gmap Z (timer_kind * bool);  (* the timers of the queue, and which are armed *)
  next_task_id : Z;
  attached : bool;                    (* the queue is not detached *)
  shut : bool;                        (* [OnEventProcShutdown] ran *)
  log_ : list event
}.

#[global] Instance eta_conn : Eta conn := fun c =>
  {| config_ := config_ c; root_cas_ := root_cas_ c; user_handler := user_handler c; tgt := tgt c; conn_ := conn_ c;
     h3_conn_ := h3_conn_ c; engs := engs c; next_eng := next_eng c; raw_streams := raw_streams c;
     stream_map_ := stream_map_ c; h3_streams := h3_streams c; connect_rpc_ := connect_rpc_ c;
     connect_timer_id_ := connect_timer_id_ c; network_handle_ := network_handle_ c; udp_socket_ := udp_socket_ c;
     udp_reading := udp_reading c; udp_told := udp_told c; webtransport_ := webtransport_ c; mq := mq c;
     state_ := state_ c; new_state_ := new_state_ c; close_status_ := close_status_ c;
     conn_close_msg_ := conn_close_msg_ c; cert_verify_error_ := cert_verify_error_ c;
     keep_working_ := keep_working_ c; delay_tasks := delay_tasks c; next_task_id := next_task_id c;
     attached := attached c; shut := shut c; log_ := log_ c |}.

(** A connection that [Create] made. *)
Definition new_conn (cfg : conn_config) (cas : list X509) (user : bool) : conn :=
  {| config_ := cfg; root_cas_ := cas; user_handler := user; tgt := no_target; conn_ := None; h3_conn_ := None;
     engs := ∅; next_eng := 1; raw_streams := ∅; stream_map_ := ∅; h3_streams := ∅; connect_rpc_ := None;
     connect_timer_id_ := 0; network_handle_ := 0; udp_socket_ := true; udp_reading := false; udp_told := false;
     webtransport_ := false; mq := no_masque; state_ := CONN_STATE_INIT; new_state_ := CONN_STATE_MAX;
     close_status_ := BC_R_SUCCESS; conn_close_msg_ := None; cert_verify_error_ := None; keep_working_ := true;
     delay_tasks := ∅; next_task_id := 0; attached := true; shut := false; log_ := [] |}.

(** The tasks of the runtime that are the connector's. *)
Inductive rt_task := RtCheck | RtClose | RtClosed.

Record connector := {
  k_state : Z;
  k_new_state : Z;
  conns_map_ : gset Z;
  next_conn_id_ : Z;
  total_allocated_ : Z;
  total_freed_ : Z;
  active_connections : Z;
  total_succeed_connections : Z;
  k_config : Connector.config;
  k_root_cas : list X509;
  first_path_callback_seen_ : bool;
  last_path_change_ms_ : Z;
  engine_destroyed : Z;               (* how often [xqc_engine_destroy] was called *)
  told_closed : Z                     (* how often [IConnectorHandler::OnClosed] was called *)
}.

#[global] Instance eta_connector : Eta connector := fun k =>
  {| k_state := k_state k; k_new_state := k_new_state k; conns_map_ := conns_map_ k; next_conn_id_ := next_conn_id_ k;
     total_allocated_ := total_allocated_ k; total_freed_ := total_freed_ k; active_connections := active_connections k;
     total_succeed_connections := total_succeed_connections k; k_config := k_config k; k_root_cas := k_root_cas k;
     first_path_callback_seen_ := first_path_callback_seen_ k; last_path_change_ms_ := last_path_change_ms_ k;
     engine_destroyed := engine_destroyed k; told_closed := told_closed k |}.

(** A connector that [Create] started. *)
Definition new_connector (cfg : Connector.config) (cas : list X509) : connector :=
  {| k_state := CONNTOR_STATE_WORKING; k_new_state := CONNTOR_STATE_MAX; conns_map_ := ∅; next_conn_id_ := 1;
     total_allocated_ := 0; total_freed_ := 0; active_connections := 0; total_succeed_connections := 0;
     k_config := cfg; k_root_cas := cas; first_path_callback_seen_ := false; last_path_change_ms_ := 0;
     engine_destroyed := 0; told_closed := 0 |}.

Record world := {
  objs : gmap Z conn;                 (* the connections, by their [id_] *)
  queues : gmap Z (list task);        (* their queues *)
  pkts : packets;
  next_pkt : Z;
  next_stub : Z;
  rt : list rt_task;                  (* the runtime's queue *)
  K : connector;
  tick : nat
}.

#[global] Instance eta_world : Eta world := fun w =>
  {| objs := objs w; queues := queues w; pkts := pkts w; next_pkt := next_pkt w; next_stub := next_stub w;
     rt := rt w; K := K w; tick := tick w |}.

Definition queue (w : world) (id : Z) : list task := match queues w !! id with Some q => q | None => [] end.

(** ** The user and the environment *)

Inductive api_call :=
| CallConnect (id : Z) (scheme host : bytes) (port : Z) (path query : bytes) (props : option bytes) (timeout_ms : Z)
| CallNewPacket (k : SMPacket)
| CallSendPacket (id : Z) (pkt : Z)
| CallRestart (id : Z) (networkHandle : Z)
| CallClose (id : Z)
| CallCloseStream (id : Z) (sid : Z)
| CallCreateConnection (cfg : BCFObject)
| CallConnectorClose.

(** What the engine may call back, for its connection [e]. *)
Inductive engine_cb :=
| CbWriteSocket (bs : bytes)
| CbTimerSet
| CbTimerUpdate (tid : Z)
| CbTimerUnset (tid : Z) (only_cancel : bool)
| CbNextTick
| CbClosing
| CbCertVerify (certs : list bytes)
| CbHandshake
| CbStreamCreate (sid : Z)
| CbStreamRead (sid : Z) (reads : list read_result)
| CbStreamWrite (sid : Z)
| CbStreamClose (sid : Z)
| CbPacketAcked (sid : Z)
| CbH3Read (sid : Z) (header : option (option fields * bool)) (body : option (list read_result))
| CbH3StreamClose (sid : Z)
| CbDatagram (bs : bytes)
| CbClose (msg : bytes).

(** Inside which call: of a call made from a callback, nothing can be called back that needs
    the engine's main logic; a connection is destroyed only from a timer or a tick. *)
Inductive call_class := Nested | Logic | Drive.

Definition leaf (cb : engine_cb) : bool :=
  match cb with
  | CbWriteSocket _ | CbTimerSet | CbTimerUpdate _ | CbTimerUnset _ _ | CbNextTick | CbClosing => true
  | _ => false
  end.

(** Whether the engine may call back so, for a connection of the kind and at the stage of [e]. *)
Definition cb_allowed (cls : call_class) (e : eng) (cb : engine_cb) : bool :=
  match cls with
  | Nested => leaf cb
  | Logic | Drive =>
      match cb with
      | CbCertVerify certs => asked e && negb (hs_done e)
      | CbHandshake => secure e && negb (hs_done e)
      | CbStreamCreate _ | CbStreamWrite _ | CbStreamClose _ | CbPacketAcked _ => secure e
      | CbStreamRead _ reads => secure e && bool_decide (Forall read_ok reads)
      | CbH3Read _ _ _ | CbH3StreamClose _ | CbDatagram _ => is_h3 e && secure e
      | CbClose _ => match cls with Drive => true | _ => false end
      | _ => leaf cb
      end
  end.

(** What a command says: not an object; or whether its transaction is the connect request's,
    its name, and the text with the version put in. *)
Inductive command := NotAnObject | Command (transId1 : bool) (name : bytes) (versioned : option bytes).

(** How [jqc_connect] ends: it fails at once, or after the connection was made and destroyed
    again, or gives a connection. *)
Inductive connect_end := ConnectRefused | ConnectUndone (h3 : bool) (msg : bytes) | ConnectMade (h3 : bool).

Record env := {
  O : openssl;
  has_path_monitor : bool;
  bbr2_enabled : bool;
  sdk_version : bytes;
  read_command : bytes -> command;
  connect_text : target -> bytes;
  headers_text : fields -> bytes;
  prop_fields : option bytes -> fields;
  user_calls : nat -> list api_call;
  engine_calls : nat -> list engine_cb;
  send_rets : nat -> list Z;
  new_sid : nat -> option Z;          (* a stream of the engine's, or none *)
  connect_ends : nat -> connect_end;
  sockaddr : nat -> BCRESULT;         (* [TextToSockaddr] *)
  schedule_ok : nat -> bool;
  udp_create_ok : nat -> bool;
  process_ok : nat -> bool;           (* [jqc_conn_packet_process] *)
  datagram_mss : nat -> Z;
  default_ifindex : nat -> Z;         (* [tt_netmon_query_default_ifindex_ex] *)
  clock_ms : nat -> Z;
  random_tag : nat -> bytes
}.

(** ** The monad *)

Inductive crash := UseAfterFree | NoEngineConnection | NullStream | MaskUnderflow | JsonNotObject | NoPacket.

Definition M (A : Type) : Type := world -> (A * world) + crash.

Definition ret {A} (a : A) : M A := fun w => inl (a, w).
Definition bind {A B} (m : M A) (k : A -> M B) : M B := fun w =>
  match m w with inl (a, w') => k a w' | inr c => inr c end.
Definition fail {A} (c : crash) : M A := fun _ => inr c.
Definition gets {A} (f : world -> A) : M A := fun w => inl (f w, w).
Definition puts (f : world -> world) : M unit := fun w => inl (tt, f w).

Declare Scope smp_scope.
Notation "x <- m ;; k" := (bind m (fun x => k))
  (at level 100, m at next level, right associativity) : smp_scope.
Notation "m ;; k" := (bind m (fun _ => k)) (at level 100, right associativity) : smp_scope.
Open Scope smp_scope.

Definition ask {A} (f : nat -> A) : M A := fun w => inl (f (tick w), w <| tick ::= S |>).

(** A member of a connection, and a change of one; an object that is not there was freed. *)
Definition get {A} (id : Z) (f : conn -> A) : M A := fun w =>
  match objs w !! id with Some c => inl (f c, w) | None => inr UseAfterFree end.
Definition put (id : Z) (f : conn -> conn) : M unit := puts (fun w => w <| objs ::= alter f id |>).
Definition put_mq (id : Z) (f : masque -> masque) : M unit := put id (fun c => c <| mq ::= f |>).
Definition put_K (f : connector -> connector) : M unit := puts (fun w => w <| K ::= f |>).

Definition log (id : Z) (e : event) : M unit := put id (fun c => c <| log_ ::= fun l => l ++ [e] |>).

(** [PostTask] on the queue of an object. *)
Definition PostTask (id : Z) (t : task) : M unit :=
  get id (fun _ => tt);;
  puts (fun w => w <| queues ::= <[id := queue w id ++ [t]]> |>).

Fixpoint each {A} (f : A -> M unit) (l : list A) : M unit :=
  match l with
  | [] => ret tt
  | x :: l => f x;; each f l
  end.

Definition when (b : bool) (m : M unit) : M unit := if b then m else ret tt.

Section Connection.
Context (E : env).

(** ** The user's calls *)

(** What [keep_working_] guards: the tasks of a connection that works are posted. *)
Definition post_working (id : Z) (t : task) : M unit :=
  kw <- get id keep_working_;;
  when kw (PostTask id t).

(** The connector's part of [Create] of a connection: the object, when it could be made. *)
Definition make_conn (user : bool) (cfg : BCFObject) : M (option conn) :=
  k <- gets K;;
  tag <- ask (random_tag E);;
  match Create_config tag (k_config k) cfg with
  | (r, c) =>
      if negb (r =? BC_R_SUCCESS) then ret None
      else
        let cas := (parsePemCertBundle (O E) (ca_cert_pem c)).2 in
        ok <- ask (udp_create_ok E);;
        ret (if ok : bool then Some (new_conn c cas user) else None)
  end.

(** [SMPConnector::_CloseCheck]; the connections are told to close in the map's order. *)
Definition ConnectorCloseCheck : M bool :=
  k <- gets K;;
  if (k_state k <=? k_new_state k) && (CONNTOR_STATE_FREED <? k_state k) then ret false
  else
    when (k_state k =? CONNTOR_STATE_WORKING)
      (each (fun id => post_working id TClose) (elements (conns_map_ k));;
       put_K (fun k => k <| k_state := CONNTOR_STATE_INIT |>));;
    k <- gets K;;
    when ((k_state k =? CONNTOR_STATE_INIT) && bool_decide (conns_map_ k = ∅))
      (put_K (fun k => k <| engine_destroyed ::= Z.succ |>);;
       puts (fun w => w <| rt ::= fun l => l ++ [RtClosed] |>);;
       put_K (fun k => k <| k_state := CONNTOR_STATE_FREED |>));;
    ret true.

(** [CreateConnection]. *)
Definition CreateConnection (cfg : BCFObject) : M (option Z) :=
  closing <- ConnectorCloseCheck;;
  if closing : bool then ret None
  else
    c <- make_conn true cfg;;
    match c with
    | None => ret None
    | Some c =>
        id <- gets (fun w => next_conn_id_ (K w));;
        puts (fun w => w <| objs ::= <[id := c]> |> <| queues ::= <[id := []]> |>);;
        put_K (fun k => k <| conns_map_ ::= fun s => {[id]} ∪ s |> <| next_conn_id_ ::= Z.succ |>
                          <| total_allocated_ ::= Z.succ |>);;
        ret (Some id)
    end.

(** A call of the user on an object that is the user's. *)
Definition on_user_conn (id : Z) (m : M unit) : M unit := fun w =>
  match objs w !! id with
  | Some c => if user_handler c then m w else inl (tt, w)
  | None => inl (tt, w)
  end.

Definition user_call (a : api_call) : M unit :=
  match a with
  | CallConnect id scheme host port path query props timeout_ms =>
      on_user_conn id
        (kw <- get id keep_working_;;
         when kw
           (s <- gets next_stub;;
            puts (fun w => w <| next_stub ::= Z.succ |>);;
            PostTask id (TConnect s scheme host (u16 port) path query props timeout_ms)))
  | CallNewPacket k => puts (fun w => w <| pkts ::= <[next_pkt w := k]> |> <| next_pkt ::= Z.succ |>)
  | CallSendPacket id a =>
      known <- gets (fun w => bool_decide (is_Some (pkts w !! a)));;
      when known (on_user_conn id (post_working id (TSendPacket a)))
  | CallRestart id h => on_user_conn id (post_working id (TRestart h))
  | CallClose id => on_user_conn id (post_working id TClose)
  | CallCloseStream id sid => on_user_conn id (post_working id (TCloseStream sid))
  | CallCreateConnection cfg => CreateConnection cfg;; ret tt
  | CallConnectorClose => puts (fun w => w <| rt ::= fun l => l ++ [RtClose] |>)
  end.

(** A callback of the handler, and what the user calls from inside it. *)
Definition notify (id : Z) (e : event) : M unit :=
  log id e;;
  user <- get id user_handler;;
  when user (calls <- ask (user_calls E);; each user_call calls).

(** ** Timers *)

(** [UnscheduleTask]. *)
Definition UnscheduleTask (id tid : Z) (onlyCancel : bool) : M unit :=
  put id (fun c => c <| delay_tasks ::= fun m =>
    if onlyCancel then alter (fun '(k, _) => (k, false)) tid m else delete tid m |>).

Definition UnscheduleAllTasks (id : Z) : M unit := put id (fun c => c <| delay_tasks := ∅ |>).

(** [ScheduleTask]: the timer of that number again, or a new one. *)
Definition ScheduleTask (id tid : Z) (k : timer_kind) : M Z :=
  c <- get id (fun c => c);;
  match delay_tasks c !! tid with
  | Some _ => put id (fun c => c <| delay_tasks ::= <[tid := (k, true)]> |>);; ret tid
  | None =>
      let n := next_task_id c + 1 in
      put id (fun c => c <| next_task_id := n |> <| delay_tasks ::= <[n := (k, true)]> |>);; ret n
  end.

(** [connect_timer_id_] when it is one. *)
Definition UnscheduleConnect (id : Z) : M unit :=
  t <- get id connect_timer_id_;;
  when (0 <? t) (UnscheduleTask id t false;; put id (fun c => c <| connect_timer_id_ := 0 |>)).

(** [_NotifyConnectResult]; a message without characters is replaced by the result's name. *)
Definition NotifyConnectResult (id : Z) (pStub : option Z) (result : BCRESULT) (msg : option bytes) : M unit :=
  rpc <- get id connect_rpc_;;
  match (match pStub with Some s => Some s | None => rpc end) with
  | None => ret tt
  | Some s =>
      notify id (OnExecDone s result (match msg with Some (c :: m) => Some (c :: m) | _ => None end));;
      rpc <- get id connect_rpc_;;
      when (bool_decide (rpc = Some s))
        (put id (fun c => c <| connect_rpc_ := None |>);; UnscheduleConnect id)
  end.

(** [_set_state]. *)
Definition set_state (id st : Z) (status : BCRESULT) : M unit :=
  put id (fun c => c <| new_state_ := st |> <| close_status_ := status |>).

(** ** Leaf callbacks of the engine *)

(** [MasqueSendDatagram]. *)
Definition MasqueSendDatagram (tunnel : Z) (buf : bytes) : M unit :=
  c <- get tunnel (fun c => c);;
  if negb (keep_working_ c) || negb (bool_decide (masque_role_ (mq c) = MASQUE_TUNNEL)) then ret tt
  else
    match EncodeDatagram (masque_qsid_ (mq c)) (Some buf) (zlen buf) [] with
    | (false, _) => ret tt
    | (true, wire) => PostTask tunnel (TSendDatagram wire)
    end.

(** [WritePacket]. *)
Definition WritePacket (id : Z) (buf : bytes) : M unit :=
  c <- get id (fun c => c);;
  if state_ c <=? CONN_STATE_CLOSING_SOCK then ret tt
  else
    match masque_role_ (mq c) with
    | MASQUE_INNER =>
        match masque_tunnel_ (mq c) with None => ret tt | Some t => MasqueSendDatagram t buf end
    | _ => when (udp_socket_ c) (log id (EvUdpSend buf))
    end.

(** The timers of the engine never are the connect timer: their numbers were given for it. *)
Definition engine_timer (c : conn) (tid : Z) : bool :=
  match delay_tasks c !! tid with Some (ConnectTimer, _) => false | _ => true end.

Definition leaf_cb (id e : Z) (cb : engine_cb) : M unit :=
  match cb with
  | CbWriteSocket bs => WritePacket id bs
  | CbTimerSet => ScheduleTask id 0 (EngineTimer e);; ret tt
  | CbTimerUpdate tid =>
      ok <- get id (fun c => engine_timer c tid);;
      when ok (ScheduleTask id tid (EngineTimer e);; ret tt)
  | CbTimerUnset tid only_cancel =>
      ok <- get id (fun c => engine_timer c tid);;
      when ok (UnscheduleTask id tid only_cancel)
  | CbNextTick => PostTask id TNextTick
  | CbClosing =>
      c <- get id (fun c => c);;
      when (bool_decide (is_Some (cert_verify_error_ c)) && bool_decide (is_Some (connect_rpc_ c)))
        (NotifyConnectResult id None BC_R_FAILURE (Some (str "certificate not verified")))
  | _ => ret tt
  end.

(** The callbacks of a call made from inside a callback, or of one that only posts. *)
Definition nested_call (id e : Z) : M unit :=
  cbs <- ask (engine_calls E);;
  each (fun cb =>
          eng <- get id (fun c => engs c !! e);;
          match eng with
          | Some eng => when (cb_allowed Nested eng cb) (leaf_cb id e cb)
          | None => ret tt
          end) cbs.

(** ** Closing *)

(** [_CloseCheck]. *)
Definition CloseCheck_quic (id : Z) : M unit :=
  c <- get id (fun c => c);;
  when (CONN_STATE_INIT <? state_ c)
    (put id (fun c => c <| keep_working_ := false |>);;
     match conn_ c with
     | Some e => log id (EvEngineClose e);; nested_call id e
     | None => ret tt
     end;;
     UnscheduleConnect id;;
     put id (fun c => c <| state_ := CONN_STATE_CLOSING_QUIC |>)).

Definition CloseCheck_sock (id : Z) : M unit :=
  c <- get id (fun c => c);;
  when ((state_ c =? CONN_STATE_CLOSING_QUIC) && bool_decide (conn_ c = None))
    (UnscheduleAllTasks id;;
     when (udp_socket_ c) (log id EvUdpClose);;
     put id (fun c => c <| state_ := CONN_STATE_CLOSING_SOCK |>)).

Definition CloseCheck_free (id : Z) : M unit :=
  c <- get id (fun c => c);;
  if (state_ c =? CONN_STATE_CLOSING_SOCK) && negb (udp_socket_ c) then
    match masque_role_ (mq c), masque_tunnel_ (mq c) with
    | MASQUE_INNER, Some t =>
        when (negb (masque_tunnel_closing_ (mq c)))
          (put_mq id (fun m => m <| masque_tunnel_closing_ := true |>);; post_working t TClose)
    | _, _ =>
        NotifyConnectResult id None (close_status_ c) None;;
        put id (fun c => c <| delay_tasks := ∅ |> <| attached := false |>);;
        put id (fun c => c <| state_ := CONN_STATE_FREED |>)
    end
  else ret tt.

Definition CloseCheck (id : Z) : M bool :=
  c <- get id (fun c => c);;
  if (state_ c <=? new_state_ c) && (CONN_STATE_FREED <? state_ c) then ret false
  else CloseCheck_quic id;; CloseCheck_sock id;; CloseCheck_free id;; ret true.

(** What the tasks begin and end with. *)
Definition guarded (id : Z) (m : M unit) : M unit :=
  closing <- CloseCheck id;;
  if closing : bool then ret tt else m;; CloseCheck id;; ret tt.

(** ** Streams *)

(** What the sends of one call did, and the handler told of it. *)
Fixpoint tell_sent (id e sid : Z) (evs : list sent) : M unit :=
  match evs with
  | [] => ret tt
  | SentBytes bs :: evs => log id (EvStreamBytes e sid bs);; tell_sent id e sid evs
  | DataSent tr n :: evs => notify id (OnStreamDataSent sid tr n);; tell_sent id e sid evs
  end.

(** What a send on a stream leaves. The engine may run its main logic inside the send; here it
    makes only the callbacks of [nested_call] then, and those that read or write a stream come
    as steps of their own. *)
Definition stream_did (id e sid : Z) (r : option (packets * stream * list sent)) : M unit :=
  match r with
  | None => fail NoPacket
  | Some (m, s, evs) =>
      puts (fun w => w <| pkts := m |>);;
      put id (fun c => c <| raw_streams ::= <[(e, sid) := s]> |>);;
      tell_sent id e sid evs;;
      nested_call id e
  end.

(** [SendPacket_Internal]. *)
Definition SendPacket_Internal (id a : Z) : M unit :=
  m <- gets pkts;;
  match m !! a with
  | None => fail NoPacket
  | Some k =>
      obj <- get id (fun c => key ← stream_map_ c !! stream_id k; s ← raw_streams c !! key; Some (key, s));;
      match obj with
      | None => ret tt
      | Some ((e, sid), s) =>
          rets <- ask (send_rets E);;
          stream_did id e sid (SendPacket m s a rets)
      end
  end.

(** [on_raw_stream_create_notify] with [OnStreamCreate]. *)
Definition OnStreamCreate (id e sid : Z) : M unit :=
  match SMPStream.Create sid with
  | None => fail NullStream
  | Some s =>
      log id (EvStreamOpen e sid);;
      put id (fun c => c <| raw_streams ::= <[(e, sid) := s]> |> <| stream_map_ ::= <[sid := (e, sid)]> |>);;
      wt <- get id webtransport_;;
      when (wt || (0 <? u32 sid)) (notify id (OnStreamCreated (u32 sid)))
  end.

(** [on_raw_stream_close_notify]; the handler is told twice. *)
Definition OnStreamClose (id e sid : Z) : M unit :=
  there <- get id (fun c => bool_decide (is_Some (raw_streams c !! (e, sid))));;
  when there
    (notify id (OnStreamClosed sid);;
     put id (fun c => c <| raw_streams ::= delete (e, sid) |> <| stream_map_ ::= delete sid |>);;
     wt <- get id webtransport_;;
     when (wt || (0 <? u32 sid)) (notify id (OnStreamClosed (u32 sid)))).

Definition SMP_TYPE_COMMAND : Z := 1.
Definition SMP_TYPE_MESSAGE : Z := 2.

(** [Close] of the connection. *)
Definition Close (id : Z) : M unit := post_working id TClose.

(** [ProcessPacket]. *)
Definition ProcessPacket (id : Z) (h : SMPHeader) (payload : bytes) : M unit :=
  if m_eDataType h =? SMP_TYPE_COMMAND then
    match read_command E payload with
    | NotAnObject => fail JsonNotObject
    | Command transId1 name versioned =>
        rpc <- get id connect_rpc_;;
        if transId1 && bool_decide (is_Some rpc) then
          if bool_decide (name = str "_result") then
            put id (fun c => c <| state_ := CONN_STATE_CONNECTED |>);;
            NotifyConnectResult id None BC_R_SUCCESS (Some (match versioned with Some t => t | None => payload end));;
            notify id (OnStreamCreated (m_nStreamId h));;
            put_K (fun k => k <| total_succeed_connections ::= fun n => u64 (n + 1) |>)
          else if bool_decide (name = str "_error") then
            put id (fun c => c <| state_ := CONN_STATE_INIT |>);;
            NotifyConnectResult id None BC_R_FAILURE (Some (payload ++ str "(sdkVersion=" ++ sdk_version E ++ str ")"));;
            Close id
          else ret tt
        else notify id (OnRecvCmd h payload)
    end
  else if m_eDataType h =? SMP_TYPE_MESSAGE then notify id (OnRecvData h payload)
  else ret tt.

Fixpoint ProcessPackets (id : Z) (evs : list smp_event) : M unit :=
  match evs with
  | [] => ret tt
  | OnPacketParsed h payload :: evs => ProcessPacket id h payload;; ProcessPackets id evs
  | OnDataPacked _ :: evs => ProcessPackets id evs
  end.

(** What the parser's memory holds before it is written does not matter; it is taken zero. *)
Definition OnStreamRead (id e sid : Z) (reads : list read_result) : M unit :=
  s <- get id (fun c => raw_streams c !! (e, sid));;
  match s with
  | None => ret tt
  | Some s =>
      closing <- CloseCheck id;;
      if closing : bool then ret tt
      else if negb (stream_ s) then fail NullStream
      else
        wt <- get id webtransport_;;
        match OnRead 0 wt s reads with
        | None => fail MaskUnderflow
        | Some (s, evs) =>
            log id (EvStreamRead e sid reads);;
            put id (fun c => c <| raw_streams ::= <[(e, sid) := s]> |>);;
            ProcessPackets id evs
        end
  end.

Definition OnStreamWrite (id e sid : Z) : M unit :=
  s <- get id (fun c => raw_streams c !! (e, sid));;
  match s with
  | None => ret tt
  | Some s =>
      m <- gets pkts;;
      rets <- ask (send_rets E);;
      stream_did id e sid (OnWriteNotify m s rets)
  end.

(** ** The handshake *)

(** [OnHandshakeFinished]. *)
Definition OnHandshakeFinish (id e : Z) : M unit :=
  put_K (fun k => k <| active_connections ::= fun n => u64 (n + 1) |>);;
  put id (fun c => c <| state_ := CONN_STATE_CONNECTING |>);;
  notify id OnHandshakeFinished;;
  wt <- get id webtransport_;;
  if wt : bool then ret tt
  else
    sid <- ask (new_sid E);;
    match sid with
    | None => ret tt
    | Some sid =>
        OnStreamCreate id e sid;;
        rpc <- get id connect_rpc_;;
        t <- get id tgt;;
        now <- ask (clock_ms E);;
        when (bool_decide (is_Some rpc))
          (a <- gets next_pkt;;
           puts (fun w => w <| pkts ::= <[a := {| type := SMP_TYPE_COMMAND; timestamp := u64 now; trans_id := 0; stream_id := 0;
                                                 origion_data := Write empty_buffer (connect_text E t);
                                                 packed_jmp_data := None |}]> |> <| next_pkt ::= Z.succ |>);;
           SendPacket_Internal id a)
    end.

(** [MasqueOnConnectUdpResponse]. *)
Definition MasqueOnConnectUdpResponse (id : Z) (ok : bool) : M unit :=
  m <- get id mq;;
  if masque_tunnel_ready_ m && ok then ret tt
  else
    when ok (put_mq id (fun m => m <| masque_tunnel_ready_ := true |>));;
    match masque_inner_ m with
    | None => ret tt
    | Some inner => PostTask inner (TTunnelReady (if ok then BC_R_SUCCESS else BC_R_FAILURE))
    end.

(** [MasqueSendConnectUdp]: whether a request stream could be made. *)
Definition MasqueSendConnectUdp (id e : Z) : M bool :=
  sid <- ask (new_sid E);;
  match sid with
  | None => ret false
  | Some sid =>
      c <- get id (fun c => c);;
      let authority := host_ (tgt c) ++ str ":" ++ dec_text (port_ (tgt c)) in
      put id (fun c => c <| h3_streams ::= <[(e, sid) := new_h3_stream <| hdr_sent_ := true |>]> |>);;
      put_mq id (fun m => m <| masque_connect_stream_ := Some sid |> <| masque_qsid_ := QuarterStreamId sid |>);;
      log id (EvHeaders e sid (ConnectUdp_fields authority (masque_target_host_ (mq c)) (masque_target_port_ (mq c))));;
      nested_call id e;;
      ret true
  end.

(** [OnH3HandshakeFinished]. *)
Definition OnH3HandshakeFinish (id e : Z) : M unit :=
  put_K (fun k => k <| active_connections ::= fun n => u64 (n + 1) |>);;
  put id (fun c => c <| state_ := CONN_STATE_CONNECTING |>);;
  role <- get id (fun c => masque_role_ (mq c));;
  if decide (role = MASQUE_TUNNEL) then
    ok <- MasqueSendConnectUdp id e;;
    when (negb ok) (MasqueOnConnectUdpResponse id false)
  else
    notify id OnHandshakeFinished;;
    sid <- ask (new_sid E);;
    match sid with
    | None => ret tt
    | Some sid =>
        c <- get id (fun c => c);;
        k <- gets (fun w => k_config (K w));;
        let t := tgt c in
        put id (fun c => c <| h3_streams ::= <[(e, sid) := new_h3_stream <| hdr_sent_ := true |>]> |>);;
        log id (EvHeaders e sid (SendRequest_fields (server_host (config_ c)) (Connector.server_host k) (host_ t) (scheme_ t)
                                   (path_ t) (query_ t) (port_ t) (prop_fields E (props_ t))));;
        nested_call id e
    end.

(** The [:status] of an answer begins with a 2. *)
Fixpoint status_2xx (hs : fields) : bool :=
  match hs with
  | [] => false
  | (n, v) :: hs => if bool_decide (n = str ":status") then bool_decide (head v = Some 50) else status_2xx hs
  end.

(** [OnH3RequestRecvHeaders]. *)
Definition OnH3RequestRecvHeaders (id : Z) (headers : option fields) : M unit :=
  role <- get id (fun c => masque_role_ (mq c));;
  if decide (role = MASQUE_TUNNEL) then
    MasqueOnConnectUdpResponse id (match headers with Some hs => status_2xx hs | None => false end)
  else
    rpc <- get id connect_rpc_;;
    when (bool_decide (is_Some rpc))
      (let json := headers_text E (match headers with Some hs => hs | None => [] end) in
       match headers with
       | Some _ =>
           put id (fun c => c <| state_ := CONN_STATE_CONNECTED |>);;
           NotifyConnectResult id None BC_R_SUCCESS (Some json);;
           put_K (fun k => k <| total_succeed_connections ::= fun n => u64 (n + 1) |>)
       | None =>
           put id (fun c => c <| state_ := CONN_STATE_INIT |>);;
           NotifyConnectResult id None BC_R_FAILURE (Some json);;
           Close id
       end).

(** [H3Stream::OnRead]; the header's pair is the fields and whether the stream ends there. *)
Definition OnH3Read (id e sid : Z) (header : option (option fields * bool)) (body : option (list read_result)) : M unit :=
  s <- get id (fun c => h3_streams c !! (e, sid));;
  match s with
  | None => ret tt
  | Some s =>
      closing <- CloseCheck id;;
      if closing : bool then ret tt
      else
        let read_it := match body with
                       | Some reads => put id (fun c => c <| h3_streams ::= <[(e, sid) := read_body s reads]> |>)
                       | None => ret tt
                       end in
        match header with
        | None => read_it
        | Some (None, _) => OnH3RequestRecvHeaders id None
        | Some (Some hs, fin) =>
            OnH3RequestRecvHeaders id (Some hs);;
            if fin : bool then put id (fun c => c <| h3_streams ::= <[(e, sid) := s <| recv_fin_ := true |>]> |>)
            else read_it
        end
  end.

(** [MasqueOnDatagram]. *)
Definition MasqueOnDatagram (id : Z) (data : bytes) : M unit :=
  m <- get id mq;;
  match DecodeDatagram data with
  | None => ret tt
  | Some (qsid, ctx, payload) =>
      if negb (qsid =? masque_qsid_ m) || negb (ctx =? kUdpContextId) || (zlen payload =? 0) then ret tt
      else match masque_inner_ m with None => ret tt | Some inner => PostTask inner (TTunneledPacket payload) end
  end.

(** [on_conn_cert_verify]: the engine is told whether the chain is accepted. *)
Definition OnCertVerify (id e : Z) (certs : list bytes) : M unit :=
  c <- get id (fun c => c);;
  k <- gets K;;
  let '(ok, err) := on_conn_cert_verify (O E) (config_ c) (host_ (tgt c)) (root_cas_ c) (k_config k) (k_root_cas k) certs in
  put id (fun c => (match err with Some _ => c <| cert_verify_error_ := err |> | None => c end)
                     <| engs ::= alter (fun g => g <| vouched := ok |>) e |>);;
  log id (EvCertVerify certs (host_ (tgt c)) ok).

(** [OnClose] and [OnH3Close]: the engine's connection [e] is destroyed. *)
Definition OnClose (id e : Z) (msg : bytes) : M unit :=
  h3 <- get id (fun c => match engs c !! e with Some g => is_h3 g | None => false end);;
  put id (fun c => c <| engs ::= delete e |>);;
  (if h3 : bool then
     put id (fun c => c <| conn_close_msg_ := Some msg |> <| h3_conn_ := None |>)
   else
     put id (fun c => if bool_decide (is_Some (conn_ c)) then c <| conn_close_msg_ := Some msg |> else c);;
     UnscheduleAllTasks id;;
     put id (fun c => c <| conn_ := None |>));;
  guarded id (set_state id CONN_STATE_FREED BC_R_NETDOWN).

(** ** Calls of the engine *)

(** One of the engine's callbacks, for its connection [e]. *)
Definition run_cb (cls : call_class) (id e : Z) (cb : engine_cb) : M unit :=
  eng <- get id (fun c => engs c !! e);;
  match eng with
  | None => ret tt
  | Some eng =>
      when (cb_allowed cls eng cb)
        match cb with
        | CbCertVerify certs => OnCertVerify id e certs
        | CbHandshake =>
            put id (fun c => c <| engs ::= alter (fun g => g <| hs_done := true |>) e |>);;
            if is_h3 eng then OnH3HandshakeFinish id e else OnHandshakeFinish id e
        | CbStreamCreate sid => OnStreamCreate id e sid
        | CbStreamRead sid reads => OnStreamRead id e sid reads
        | CbStreamWrite sid => OnStreamWrite id e sid
        | CbStreamClose sid => OnStreamClose id e sid
        | CbPacketAcked sid =>
            known <- get id (fun c => bool_decide (is_Some (stream_map_ c !! sid)));;
            when known (notify id (OnStreamDataAcked sid))
        | CbH3Read sid header body => OnH3Read id e sid header body
        | CbH3StreamClose sid => put id (fun c => c <| h3_streams ::= delete (e, sid) |>)
        | CbDatagram bs => when (dgram_user eng && (0 <? zlen bs)) (MasqueOnDatagram id bs)
        | CbClose msg => OnClose id e msg
        | _ => leaf_cb id e cb
        end
  end.

(** A call of the engine from a task, a timer or the socket: it runs its connection [e]. *)
Definition engine_call (cls : call_class) (id e : Z) : M unit :=
  cbs <- ask (engine_calls E);;
  each (run_cb cls id e) cbs.

(** ** Connecting *)

Definition cong_ctl_known (c : Z) : bool :=
  (c =? 98) || (c =? 114) || (c =? 99) || ((c =? 66) && bbr2_enabled E).

Definition alpn_h3 (alpn : option bytes) : bool :=
  match alpn with
  | Some (a :: b :: _) => ((a =? 104) || (a =? 72)) && (b =? 51)
  | _ => false
  end.

(** [MasqueDatagramMss]. *)
Definition kMasqueMssSafetyMargin : Z := 64.

Definition MasqueDatagramMss (t : Z) : M Z :=
  c <- get t (fun c => c);;
  if negb (bool_decide (masque_role_ (mq c) = MASQUE_TUNNEL)) || bool_decide (h3_conn_ c = None) then ret 0
  else
    mss <- ask (datagram_mss E);;
    let overhead := DatagramOverhead (masque_qsid_ (mq c)) in
    ret (if mss <=? overhead + kMasqueMssSafetyMargin then 0 else mss - overhead - kMasqueMssSafetyMargin).

(** [MasqueConnectToProxy]. *)
Definition MasqueConnectToProxy (t : Z) : M unit := post_working t TConnectToProxy.

(** [CreateMasqueTunnel]; the tunnel is not one of the connector's connections. *)
Definition CreateMasqueTunnel (inner : Z) : M (option Z) :=
  c <- get inner (fun c => c);;
  k <- gets K;;
  match tunnel_object (k_config k) (config_ c) with
  | None => ret None
  | Some cfg =>
      put_K (fun k => k <| next_conn_id_ ::= Z.succ |>);;
      t <- make_conn false cfg;;
      match t with
      | None => ret None
      | Some t =>
          let id := next_conn_id_ k in
          let t := t <| mq := no_masque <| masque_role_ := MASQUE_TUNNEL |> <| masque_inner_ := Some inner |>
                                <| masque_target_host_ := masque_target_host_ (mq c) |>
                                <| masque_target_port_ := masque_target_port_ (mq c) |> |> in
          puts (fun w => w <| objs ::= <[id := t]> |> <| queues ::= <[id := []]> |>);;
          ret (Some id)
      end
  end.

(** [MasqueStartTunnel]. *)
Definition MasqueStartTunnel (id : Z) : M BCRESULT :=
  t <- CreateMasqueTunnel id;;
  put_mq id (fun m => m <| masque_tunnel_ := t |>);;
  match t with
  | None => NotifyConnectResult id None BC_R_FAILURE None;; ret BC_R_FAILURE
  | Some t => MasqueConnectToProxy t;; ret BC_R_SUCCESS
  end.

(** [on_raw_conn_create_notify] and [on_h3_conn_create_notify]: the engine's new connection. *)
Definition OnConnCreate (id : Z) (h3 : bool) : M Z :=
  c <- get id (fun c => c);;
  k <- gets K;;
  let e := next_eng c in
  put id (fun c =>
    (if h3 then c <| h3_conn_ := Some e |> else c <| conn_ := Some e |>)
      <| engs ::= <[e := {| is_h3 := h3; asked := asks_to_verify (config_ c) (root_cas_ c) (k_root_cas k); vouched := false;
                            hs_done := false;
                            dgram_user := h3 && bool_decide (masque_role_ (mq c) = MASQUE_TUNNEL) |}]> |>
      <| next_eng ::= Z.succ |>);;
  ret e.

(** The call of [jqc_connect]. *)
Definition jqc_connect (id : Z) (out_size : option Z) : M BCRESULT :=
  end_ <- ask (connect_ends E);;
  c <- get id (fun c => c);;
  k <- gets K;;
  let verify := asks_to_verify (config_ c) (root_cas_ c) (k_root_cas k) in
  let sni := server_name (config_ c) (host_ (tgt c)) (Connector.server_host (k_config k)) in
  match end_ with
  | ConnectRefused => ret BC_R_FAILURE
  | ConnectUndone h3 msg =>
      e <- OnConnCreate id h3;;
      log id (EvEngineConnect e verify sni out_size);;
      OnClose id e msg;;
      ret BC_R_FAILURE
  | ConnectMade h3 =>
      e <- OnConnCreate id h3;;
      log id (EvEngineConnect e verify sni out_size);;
      nested_call id e;;
      ret BC_R_SUCCESS
  end.

(** The packet size that [Connect_Internal] asks of the engine, when it asks one: [None] is
    the failure of an inner connection without a tunnel that can carry it. *)
Definition packet_size (id : Z) : M (option (option Z)) :=
  c <- get id (fun c => c);;
  match masque_role_ (mq c) with
  | MASQUE_NONE => ret (Some None)
  | MASQUE_TUNNEL => ret (Some (Some 1420))
  | MASQUE_INNER =>
      mss <- (match masque_tunnel_ (mq c) with Some t => MasqueDatagramMss t | None => ret 0 end);;
      ret (if mss =? 0 then None else Some (Some mss))
  end.

(** [Connect_Internal]. *)
Definition Connect_Internal (id : Z) : M BCRESULT :=
  c <- get id (fun c => c);;
  if bool_decide (masque_role_ (mq c) = MASQUE_NONE) && bool_decide (proxy_type (config_ c) = TT_PROXY_MASQUE) then
    put_mq id (fun m => m <| masque_role_ := MASQUE_INNER |> <| masque_target_host_ := host_ (tgt c) |>
                          <| masque_target_port_ := port_ (tgt c) |>);;
    MasqueStartTunnel id
  else if negb (cong_ctl_known (c_cong_ctl (config_ c))) then ret BC_R_INVALIDARG
  else
    put id (fun c => if alpn_h3 (alpn (config_ c)) then c <| webtransport_ := true |> else c);;
    size <- packet_size id;;
    match size with
    | None => ret BC_R_FAILURE
    | Some out_size =>
        put id (fun c => if negb (bool_decide (masque_role_ (mq c) = MASQUE_INNER)) && udp_socket_ c
                         then c <| udp_reading := true |> else c);;
        r <- ask (sockaddr E);;
        if negb (r =? BC_R_SUCCESS) then ret r else jqc_connect id out_size
    end.

(** ** Tasks *)

(** No interface may be used: the policy forces a physical one and there is none. *)
Definition no_physical_interface (id : Z) : M bool :=
  cfg <- get id config_;;
  if bool_decide (vpn_policy cfg = TT_VPN_POLICY_FORCE_PHYSICAL) && (android_net_handle cfg =? 0) then
    if has_path_monitor E then ifindex <- ask (default_ifindex E);; ret (ifindex <=? 0) else ret true
  else ret false.

(** [Connect], when it may: the timer, and the stub for its answer. *)
Definition StartConnect (id stub : Z) : M unit :=
  r <- Connect_Internal id;;
  if negb (r =? BC_R_SUCCESS) then NotifyConnectResult id (Some stub) r None;; set_state id CONN_STATE_FREED r
  else
    ok <- ask (schedule_ok E);;
    if negb ok then
      NotifyConnectResult id (Some stub) BC_R_FAILURE None;; set_state id CONN_STATE_FREED BC_R_FAILURE
    else
      t <- get id connect_timer_id_;;
      t <- ScheduleTask id t ConnectTimer;;
      put id (fun c => c <| connect_timer_id_ := t |> <| connect_rpc_ := Some stub |>).

Definition Connect (id stub : Z) (t : target) : M unit :=
  guarded id
    (st <- get id state_;;
     if CONN_STATE_INIT <? st then NotifyConnectResult id (Some stub) BC_R_ALREADYRUNNING None
     else
       none <- no_physical_interface id;;
       if none : bool then NotifyConnectResult id (Some stub) BC_R_NO_PHYSICAL_INTERFACE None
       else
         put id (fun c => c <| tgt := t |>);;
         StartConnect id stub;;
         put id (fun c => c <| state_ := CONN_STATE_HANDSHAKE |>)).

(** [CloseStream]. *)
Definition CloseStream (id sid : Z) : M unit :=
  guarded id
    (obj <- get id (fun c => key ← stream_map_ c !! sid; s ← raw_streams c !! key; Some (key, s));;
     match obj with
     | None => ret tt
     | Some (key, s) =>
         put id (fun c => c <| raw_streams ::= <[key := SMPStream.Close s]> |>);;
         when (stream_ s) (engine_call Logic id key.1)
     end).

(** The call of [jqc_conn_local_addr_changed] for the engine's connection there is. *)
Definition local_addr_changed (id : Z) (any : bool) : M unit :=
  c <- get id (fun c => c);;
  match conn_ c, h3_conn_ c with
  | Some e, _ => engine_call Logic id e
  | None, Some e => when any (engine_call Logic id e)
  | None, None => ret tt
  end.

(** The task of [OnRestart]. *)
Definition Restarted (id : Z) (result : BCRESULT) : M unit :=
  guarded id
    (udp <- get id udp_socket_;;
     when ((result =? BC_R_SUCCESS) && udp)
       (put id (fun c => c <| udp_reading := true |>);; local_addr_changed id true);;
     notify id (OnRestarted result)).

(** The task of [MasqueConnectToProxy]. *)
Definition ConnectToProxy (id : Z) : M unit :=
  guarded id
    (c <- get id (fun c => c);;
     if CONN_STATE_INIT <? state_ c then ret tt
     else
       proxy <- (match masque_inner_ (mq c) with
                 | None => ret ([], 0)
                 | Some inner =>
                     cfg <- get inner config_;;
                     ret (match proxy_host cfg with Some h => h | None => [] end, proxy_port cfg)
                 end);;
       put id (fun c => c <| tgt ::= fun t => t <| scheme_ := str "https" |> <| host_ := proxy.1 |> <| port_ := proxy.2 |> |>
                          <| state_ := CONN_STATE_HANDSHAKE |>);;
       r <- Connect_Internal id;;
       when (negb (r =? BC_R_SUCCESS)) (MasqueOnConnectUdpResponse id false)).

(** [MasqueOnTunnelReady]. *)
Definition MasqueOnTunnelReady (id : Z) (result : BCRESULT) : M unit :=
  guarded id
    (if negb (result =? BC_R_SUCCESS) then
       NotifyConnectResult id None BC_R_FAILURE None;; set_state id CONN_STATE_FREED BC_R_FAILURE
     else
       r <- Connect_Internal id;;
       when (negb (r =? BC_R_SUCCESS)) (NotifyConnectResult id None r None;; set_state id CONN_STATE_FREED r)).

(** [MasqueOnTunneledPacket]. *)
Definition MasqueOnTunneledPacket (id : Z) (data : bytes) : M unit :=
  closing <- CloseCheck id;;
  if closing : bool then ret tt
  else
    e <- get id conn_;;
    match e with
    | None => ret tt
    | Some e =>
        engine_call Logic id e;;
        ok <- ask (process_ok E);;
        when ok (engine_call Logic id e);;
        CloseCheck id;; ret tt
    end.

(** [MasqueOnTunnelClosed]: the tunnel is deleted. *)
Definition delete_conn (id : Z) : M unit :=
  puts (fun w => w <| objs ::= delete id |> <| queues ::= delete id |>).

Definition MasqueOnTunnelClosed (id : Z) : M unit :=
  m <- get id mq;;
  put_mq id (fun m => m <| masque_tunnel_ := None |> <| masque_tunnel_closing_ := false |>);;
  (match masque_tunnel_ m with Some t => delete_conn t | None => ret tt end);;
  st <- get id state_;;
  (if st =? CONN_STATE_INIT then
     NotifyConnectResult id None BC_R_NETDOWN None;; set_state id CONN_STATE_FREED BC_R_NETDOWN
   else when (CONN_STATE_INIT <? st) (set_state id CONN_STATE_FREED BC_R_NETDOWN));;
  CloseCheck id;; ret tt.

Definition run_task (id : Z) (t : task) : M unit :=
  match t with
  | TConnect stub scheme host port path query props _ =>
      Connect id stub {| scheme_ := scheme; host_ := host; port_ := port; path_ := path; query_ := query; props_ := props |}
  | TSendPacket a => guarded id (SendPacket_Internal id a)
  | TRestart h => guarded id (put id (fun c => c <| network_handle_ := h |>))
  | TClose => guarded id (set_state id CONN_STATE_FREED BC_R_SUCCESS)
  | TCloseStream sid => CloseStream id sid
  | TCheckAvailable =>
      guarded id (udp <- get id udp_socket_;; when udp (local_addr_changed id false))
  | TOnRestart result => Restarted id result
  | TUdpClosed =>
      put id (fun c => c <| udp_socket_ := false |>);;
      guarded id (set_state id CONN_STATE_FREED BC_R_NETDOWN)
  | TConnectToProxy => ConnectToProxy id
  | TTunnelReady result => MasqueOnTunnelReady id result
  | TTunneledPacket data => MasqueOnTunneledPacket id data
  | TSendDatagram wire =>
      guarded id
        (e <- get id h3_conn_;;
         match e with None => ret tt | Some e => log id (EvDatagram wire);; engine_call Logic id e end)
  | TTunnelClosed => MasqueOnTunnelClosed id
  | TNextTick =>
      e <- get id conn_;;
      match e with None => ret tt | Some e => engine_call Drive id e;; CloseCheck id;; ret tt end
  end.

(** ** The socket, the timers and the end of the queue *)

(** [OnRecvData]: the blocks of the buffer, each processed; a packet that is not processed
    ends it. *)
Fixpoint recv_blocks (id : Z) (blocks : list bytes) : M bool :=
  match blocks with
  | [] => ret true
  | _ :: blocks =>
      c <- get id (fun c => c);;
      match h3_conn_ c, conn_ c with
      | None, None => fail NoEngineConnection
      | Some e, _ | None, Some e =>
          engine_call Logic id e;;
          ok <- ask (process_ok E);;
          if negb ok then ret false else engine_call Logic id e;; recv_blocks id blocks
      end
  end.

Definition OnUdpData (id : Z) (blocks : list bytes) : M unit :=
  closing <- CloseCheck id;;
  if closing : bool then ret tt
  else
    ok <- recv_blocks id blocks;;
    if ok : bool then CloseCheck id;; ret tt else ret tt.

(** [_OnConnectTimeout]. *)
Definition OnConnectTimeout (id : Z) : M unit :=
  NotifyConnectResult id None BC_R_TIMEDOUT None;;
  set_state id CONN_STATE_FREED BC_R_TIMEDOUT;;
  CloseCheck id;; ret tt.

(** What [on_timer_set] and [on_timer_update] schedule. *)
Definition OnEngineTimer (id e : Z) : M unit :=
  there <- get id conn_;;
  match there with None => ret tt | Some _ => engine_call Drive id e;; CloseCheck id;; ret tt end.

Definition fire (id tid : Z) (k : timer_kind) : M unit :=
  put id (fun c => c <| delay_tasks ::= <[tid := (k, false)]> |>);;
  match k with ConnectTimer => OnConnectTimeout id | EngineTimer e => OnEngineTimer id e end.

(** [NotifyConnClosed]. *)
Definition NotifyConnClosed (id : Z) : M unit :=
  put_K (fun k => k <| conns_map_ ::= fun s => s ∖ {[id]} |> <| total_freed_ ::= Z.succ |>);;
  puts (fun w => w <| rt ::= fun l => l ++ [RtCheck] |>).

(** [OnEventProcShutdown]; no message of the engine stands for the status. *)
Definition OnEventProcShutdown (id : Z) : M unit :=
  put id (fun c => c <| shut := true |>);;
  c <- get id (fun c => c);;
  match masque_role_ (mq c) with
  | MASQUE_TUNNEL =>
      put_mq id (fun m => m <| masque_inner_ := None |>);;
      match masque_inner_ (mq c) with None => ret tt | Some inner => PostTask inner TTunnelClosed end
  | _ =>
      NotifyConnClosed id;;
      notify id (OnClosed (match conn_close_msg_ c with Some (b :: m) => Some (b :: m) | _ => None end) (close_status_ c))
  end.

(** ** The connector *)

(** The connector's tasks of the runtime. *)
Definition run_rt (t : rt_task) : M unit :=
  match t with
  | RtCheck => ConnectorCloseCheck;; ret tt
  | RtClose =>
      closing <- ConnectorCloseCheck;;
      if closing : bool then ret tt
      else
        put_K (fun k => k <| k_new_state := CONNTOR_STATE_FREED |>);;
        ConnectorCloseCheck;; ret tt
  | RtClosed => put_K (fun k => k <| told_closed ::= Z.succ |>)
  end.

Definition kPathChangeCooldownMs : Z := 3000.

(** [OnPathChange]. *)
Definition OnPathChange (newIfIndex : Z) : M unit :=
  if newIfIndex <=? 0 then ret tt
  else
    k <- gets K;;
    put_K (fun k => k <| first_path_callback_seen_ := true |>);;
    if negb (first_path_callback_seen_ k) then ret tt
    else
      now <- ask (clock_ms E);;
      if negb (last_path_change_ms_ k =? 0) && (now - last_path_change_ms_ k <? kPathChangeCooldownMs) then ret tt
      else
        put_K (fun k => k <| last_path_change_ms_ := now |>);;
        each (fun id => post_working id (TRestart newIfIndex)) (elements (conns_map_ k)).

(** [GetStats]: allocated, freed, active. *)
Definition GetStats (k : connector) : Z * Z * Z :=
  (total_allocated_ k, total_freed_ k, Z.of_nat (size (conns_map_ k))).

(** ** Events *)

Inductive input :=
| InUser (a : api_call)
| InRun (id : Z)                      (* the first task of the queue *)
| InDrop (id : Z)                     (* what is posted on a detached queue may be lost *)
| InShutdown (id : Z)
| InTimer (id tid : Z)
| InUdpData (id : Z) (blocks : list bytes)
| InUdpClosed (id : Z)
| InUdpRestart (id : Z) (result : BCRESULT)
| InCheckAvailable (id : Z)
| InRuntime
| InPathChange (newIfIndex : Z)
| InDelete (id : Z).                  (* the user deletes a connection that was closed *)

Definition on_conn (id : Z) (may : conn -> bool) (m : M unit) : M unit := fun w =>
  match objs w !! id with
  | Some c => if may c then m w else inl (tt, w)
  | None => inl (tt, w)
  end.

Definition step (i : input) : M unit :=
  match i with
  | InUser a => user_call a
  | InRun id =>
      on_conn id (fun c => negb (shut c))
        (q <- gets (fun w => queue w id);;
         match q with
         | [] => ret tt
         | t :: q => puts (fun w => w <| queues ::= <[id := q]> |>);; run_task id t
         end)
  | InDrop id => on_conn id (fun c => negb (attached c)) (puts (fun w => w <| queues ::= <[id := []]> |>))
  | InShutdown id =>
      on_conn id (fun c => negb (attached c) && negb (shut c))
        (q <- gets (fun w => queue w id);;
         match q with [] => OnEventProcShutdown id | _ => ret tt end)
  | InTimer id tid =>
      on_conn id attached
        (t <- get id (fun c => delay_tasks c !! tid);;
         match t with Some (k, true) => fire id tid k | _ => ret tt end)
  | InUdpData id blocks =>
      on_conn id (fun c => udp_socket_ c && udp_reading c && negb (udp_told c)) (OnUdpData id blocks)
  | InUdpClosed id =>
      on_conn id (fun c => udp_socket_ c && negb (udp_told c))
        (put id (fun c => c <| udp_told := true |>);; PostTask id TUdpClosed)
  | InUdpRestart id r => on_conn id (fun c => udp_socket_ c && negb (udp_told c)) (PostTask id (TOnRestart r))
  | InCheckAvailable id => on_conn id (fun c => udp_socket_ c && negb (udp_told c)) (post_working id TCheckAvailable)
  | InRuntime =>
      l <- gets rt;;
      match l with [] => ret tt | t :: l => puts (fun w => w <| rt := l |>);; run_rt t end
  | InPathChange n => OnPathChange n
  | InDelete id => on_conn id (fun c => user_handler c && shut c) (delete_conn id)
  end.

(** A connector that was created, and nothing else yet. *)
Definition new_world (cfg : Connector.config) (cas : list X509) : world :=
  {| objs := ∅; queues := ∅; pkts := ∅; next_pkt := 0; next_stub := 0; rt := []; K := new_connector cfg cas; tick := 0 |}.

Inductive reachable (cfg : Connector.config) (cas : list X509) : world -> Prop :=
| reach_new : reachable cfg cas (new_world cfg cas)
| reach_step w i w' : reachable cfg cas w -> step i w = inl (tt, w') -> reachable cfg cas w'.

Fixpoint run (ins : list input) : M unit :=
  match ins with [] => ret tt | i :: ins => step i;; run ins end.

Lemma inputs_reachable cfg cas ins w : forall w0,
  reachable cfg cas w0 -> run ins w0 = inl (tt, w) -> reachable cfg cas w.
Proof.
  induction ins as [|i ins IH]; intros w0 H0; cbn [run].
  - by intros [= ->].
  - unfold bind. destruct (step i w0) as [[[] w1]|] eqn:E1; [|done]. apply IH. by eapply reach_step.
Qed.

End Connection.
