(* ===== verification/SMPInvariant.v ===== *)
(** * SMPInvariant: what holds of the signalling connections at all times

    The invariant of [SMPConnection], in two parts: [local], what the members of one
    connection and its log say of each other, and [glob], how the connections, their queues,
    the packets and the connector fit together: above all the pointers between a connection
    and its MASQUE tunnel. The user's calls only post tasks and make new connections, so they
    keep [glob] at any point of a step and change no connection. *)

From Stdlib Require Import ZArith Lia.
From stdpp Require Import base numbers option gmap list.
From S2P Require Import Prelude Results VpnPolicy Buffer MasqueFraming SMPParser BCFObject TlsContext SMPConfig SMPStream SMPConnection.

(** ** Execution *)

(** The faults the code has: nothing freed is used, and every packet is there. *)
Definition known_crash (x : crash) : Prop :=
  match x with UseAfterFree | NoPacket => False | _ => True end.

Definition runs_to {A} (m : M A) (Q : A -> world -> Prop) (w : world) : Prop :=
  match m w with inl (a, w') => Q a w' | inr x => known_crash x end.

Section Running.
Context {A B : Type}.

Lemma runs_bind (m : M A) (k : A -> M B) Q w :
  runs_to m (fun a w' => runs_to (k a) Q w') w -> runs_to (bind m k) Q w.
Proof. unfold runs_to, bind. by destruct (m w) as [[a w']|c]. Qed.

Lemma runs_mono (m : M A) (P Q : A -> world -> Prop) w :
  runs_to m P w -> (forall a w', P a w' -> Q a w') -> runs_to m Q w.
Proof. unfold runs_to. destruct (m w) as [[a w']|c]; auto. Qed.

Lemma runs_call (m : M A) (k : A -> M B) P Q w :
  runs_to m P w -> (forall a w', P a w' -> runs_to (k a) Q w') -> runs_to (bind m k) Q w.
Proof. intros H HK. apply runs_bind. by eapply runs_mono. Qed.

Lemma runs_ret (a : A) Q w : Q a w -> runs_to (ret a) Q w.
Proof. done. Qed.

Lemma runs_fail c (Q : A -> world -> Prop) w : known_crash c -> runs_to (fail c) Q w.
Proof. done. Qed.

Lemma runs_gets (f : world -> A) Q w : Q (f w) w -> runs_to (gets f) Q w.
Proof. done. Qed.

Lemma runs_get id (f : conn -> A) Q w c : objs w !! id = Some c -> Q (f c) w -> runs_to (get id f) Q w.
Proof. intros H. unfold runs_to, get. by rewrite H. Qed.
End Running.

Lemma runs_puts f Q w : Q tt (f w) -> runs_to (puts f) Q w.
Proof. done. Qed.

(** ** The log of a connection *)

Definition answered (l : list event) : list Z :=
  omap (fun e => match e with OnExecDone s _ _ => Some s | _ => None end) l.

(** The stubs of [Connect] that were answered or wait for their answer. *)
Definition owned (c : conn) : list Z :=
  answered (log_ c) ++ match connect_rpc_ c with Some s => [s] | None => [] end.

Definition is_closed_event (e : event) : bool := match e with OnClosed _ _ => true | _ => false end.

(** The end is told once, and is the last thing told. *)
Definition told_end (l : list event) : Prop :=
  exists l' msg st, l = l' ++ [OnClosed msg st] /\ Forall (fun e => is_closed_event e = false) l'.

(** What the handler is told, or the peer sent, of a connection that must be verified. (A
    success without the server's text is what closing reports of a connect that waits.) *)
Definition delivers (e : event) : bool :=
  match e with
  | OnExecDone _ r (Some _) => r =? BC_R_SUCCESS
  | OnHandshakeFinished | OnStreamCreated _ | OnStreamClosed _ | OnStreamDataSent _ _ _ | OnStreamDataAcked _
  | OnRecvCmd _ _ | OnRecvData _ _ | EvStreamOpen _ _ | EvStreamRead _ _ _ | EvStreamBytes _ _ _ | EvHeaders _ _ _ => true
  | _ => false
  end.

(** The server's chain was accepted. *)
Definition authentic (l : list event) : Prop := exists certs host, EvCertVerify certs host true ∈ l.

Definition after_proof (l : list event) : Prop :=
  forall l1 e l2, l = l1 ++ e :: l2 -> delivers e = true -> authentic l1.

(** What was read of a stream since it was opened, and what the handler heard of it: the
    packets between one read of the stream and the next read of any. *)
Record heard_state := { hs_on : bool; hs_reads : list (list read_result); hs_heard : list (SMPHeader * bytes) }.

Definition hear (e sid : Z) (h : heard_state) (ev : event) : heard_state :=
  match ev with
  | EvStreamOpen e' sid' =>
      if bool_decide ((e, sid) = (e', sid')) then {| hs_on := false; hs_reads := []; hs_heard := [] |} else h
  | EvStreamRead e' sid' reads =>
      if bool_decide ((e, sid) = (e', sid')) then {| hs_on := true; hs_reads := hs_reads h ++ [reads]; hs_heard := hs_heard h |}
      else {| hs_on := false; hs_reads := hs_reads h; hs_heard := hs_heard h |}
  | OnRecvCmd p bs | OnRecvData p bs =>
      if hs_on h then {| hs_on := true; hs_reads := hs_reads h; hs_heard := hs_heard h ++ [(p, bs)] |} else h
  | _ => h
  end.

Definition no_reads : heard_state := {| hs_on := false; hs_reads := []; hs_heard := [] |}.
Definition heard (e sid : Z) (l : list event) : heard_state := foldl (hear e sid) no_reads l.

Lemma heard_snoc e sid l ev : heard e sid (l ++ [ev]) = hear e sid (heard e sid l) ev.
Proof. unfold heard. by rewrite foldl_app. Qed.

Section Hears.
Context (E : env).

(** A packet that is not for the handler: of another type, or an answer to a connect. *)
Definition answer_packet (h : SMPHeader) (payload : bytes) : Prop :=
  m_eDataType h = SMP_TYPE_COMMAND /\ exists name v, read_command E payload = Command true name v.

Inductive hears : list smp_event -> list (SMPHeader * bytes) -> Prop :=
| hears_nil : hears [] []
| hears_packed bs evs l : hears evs l -> hears (OnDataPacked bs :: evs) l
| hears_told h payload evs l :
    m_eDataType h = SMP_TYPE_COMMAND \/ m_eDataType h = SMP_TYPE_MESSAGE ->
    hears evs l -> hears (OnPacketParsed h payload :: evs) ((h, payload) :: l)
| hears_answer h payload evs l :
    answer_packet h payload -> hears evs l -> hears (OnPacketParsed h payload :: evs) l
| hears_other h payload evs l :
    m_eDataType h <> SMP_TYPE_COMMAND -> m_eDataType h <> SMP_TYPE_MESSAGE -> hears evs l ->
    hears (OnPacketParsed h payload :: evs) l.

Lemma hears_app evs1 evs2 l1 l2 : hears evs1 l1 -> hears evs2 l2 -> hears (evs1 ++ evs2) (l1 ++ l2).
Proof. intros H1 H2. induction H1; cbn; [done|by constructor..]. Qed.
End Hears.

(** ** One connection *)

Section Invariant.
Context (E : env) (cfg : Connector.config) (cas : list X509).

Definition verifies (c : conn) : bool := asks_to_verify (config_ c) (root_cas_ c) cas.

(** Nothing is told or sent, unless the peer need not be verified or was. *)
Definition trusted (c : conn) : Prop := verifies c = true -> authentic (log_ c).

(** What the callback answered is what the check says. *)
Definition verify_honest (c : conn) (e : event) : Prop :=
  match e with
  | EvCertVerify certs host ok => ok = (on_conn_cert_verify (O E) (config_ c) host (root_cas_ c) cfg cas certs).1
  | _ => True
  end.

(** A stream and what was read of it. *)
Definition stream_ok (c : conn) (key : Z * Z) (s : stream) : Prop :=
  webtransport_ c = alpn_h3 (alpn (config_ c)) /\
  (stream_ s = true ->
   masked (webtransport_ c) s = webtransport_ c && bool_decide (concat (map chunks_read (hs_reads (heard key.1 key.2 (log_ c)))) = []) /\
   exists evs,
     reading (webtransport_ c) key.2 s (to_parse (webtransport_ c) (concat (map chunks_read (hs_reads (heard key.1 key.2 (log_ c)))))) evs /\
     hears E evs (hs_heard (heard key.1 key.2 (log_ c)))).

Definition proxied (c : conn) : bool :=
  user_handler c && bool_decide (proxy_type (config_ c) = TT_PROXY_MASQUE).

Record engines_ok (c : conn) : Prop := {
  en_conn : forall e, conn_ c = Some e -> exists g, engs c !! e = Some g /\ is_h3 g = false;
  en_next : forall e g, engs c !! e = Some g -> e < next_eng c;
  en_asked : forall e g, engs c !! e = Some g -> asked g = verifies c;
  en_vouched : forall e g, engs c !! e = Some g -> vouched g = true -> authentic (log_ c);
  en_wt : webtransport_ c = alpn_h3 (alpn (config_ c)) \/ webtransport_ c = false /\ engs c = ∅;
  en_role : forall e g, engs c !! e = Some g -> proxied c = true -> masque_role_ (mq c) <> MASQUE_NONE
}.

Record timers_ok (c : conn) : Prop := {
  tm_range : forall t x, delay_tasks c !! t = Some x -> 0 < t <= next_task_id c;
  tm_next : 0 <= next_task_id c;
  tm_connect : 0 <= connect_timer_id_ c;
  tm_only : forall t b, delay_tasks c !! t = Some (ConnectTimer, b) -> t = connect_timer_id_ c;
  tm_covers : is_Some (connect_rpc_ c) -> new_state_ c = CONN_STATE_MAX ->
    delay_tasks c !! connect_timer_id_ c = Some (ConnectTimer, true)
}.

Record states_ok (c : conn) : Prop := {
  st_range : 0 <= state_ c <= 6;
  st_new : new_state_ c = CONN_STATE_FREED \/ new_state_ c = CONN_STATE_MAX;
  st_below : state_ c < CONN_STATE_INIT -> new_state_ c = CONN_STATE_FREED;
  st_attached : attached c = negb (state_ c =? CONN_STATE_FREED);
  st_sock : state_ c <= CONN_STATE_CLOSING_SOCK -> conn_ c = None;
  st_freed : state_ c = CONN_STATE_FREED -> udp_socket_ c = false /\ connect_rpc_ c = None;
  st_init : state_ c = CONN_STATE_INIT -> connect_rpc_ c = None /\ connect_timer_id_ c = 0;
  st_told : state_ c = CONN_STATE_CLOSING_QUIC -> forall e, conn_ c = Some e -> EvEngineClose e ∈ log_ c;
  st_told' : state_ c = CONN_STATE_CLOSING_SOCK -> udp_socket_ c = true -> EvUdpClose ∈ log_ c
}.

(** All of it but the states. *)
Record body (c : conn) : Prop := {
  lo_timers : timers_ok c;
  lo_engines : engines_ok c;
  lo_stubs : NoDup (owned c);
  lo_end : if shut c && user_handler c then told_end (log_ c) else Forall (fun e => is_closed_event e = false) (log_ c);
  lo_honest : Forall (verify_honest c) (log_ c);
  lo_proof : verifies c = true -> after_proof (log_ c);
  lo_streams : forall key s, raw_streams c !! key = Some s -> trusted c /\ stream_ok c key s;
  lo_proxied : proxied c = true -> forall bs, EvUdpSend bs ∉ log_ c
}.

Record local (c : conn) : Prop := {
  lo_states : states_ok c;
  lo_body : body c
}.

(** Between the steps: one that closes waits for the engine, its socket or its tunnel. *)
Definition waits_engine (c : conn) : Prop :=
  state_ c = CONN_STATE_CLOSING_QUIC /\ is_Some (conn_ c).

Definition waits_socket (c : conn) : Prop :=
  state_ c = CONN_STATE_CLOSING_SOCK /\ udp_socket_ c = true.

Definition waits_tunnel (c : conn) : Prop :=
  state_ c = CONN_STATE_CLOSING_SOCK /\ udp_socket_ c = false /\ is_Some (masque_tunnel_ (mq c)) /\
  masque_tunnel_closing_ (mq c) = true.

Definition rest (c : conn) : Prop :=
  new_state_ c = CONN_STATE_FREED -> state_ c <> CONN_STATE_INIT -> state_ c <> CONN_STATE_FREED ->
  waits_engine c \/ waits_socket c \/ waits_tunnel c.

(** ** The connections together *)

Definition stubs_of (q : list task) : list Z :=
  omap (fun t => match t with TConnect s _ _ _ _ _ _ _ => Some s | _ => None end) q.

Record queue_ok (w : world) (own : list Z) (q : list task) : Prop := {
  qu_nodup : NoDup (stubs_of q);
  qu_new : forall s, s ∈ stubs_of q -> s < next_stub w /\ s ∉ own;
  qu_own : forall s, s ∈ own -> s < next_stub w;
  qu_pkt : forall a, TSendPacket a ∈ q -> is_Some (pkts w !! a)
}.

(** It closes, or will when its queue is run. *)
Definition told_to_close (c : conn) (q : list task) : Prop := new_state_ c = CONN_STATE_FREED \/ TClose ∈ q.

Record link_ok (w : world) (id : Z) (c : conn) : Prop := {
  li_id : 0 < id < next_conn_id_ (K w);
  li_user : user_handler c = true <-> masque_role_ (mq c) <> MASQUE_TUNNEL;
  li_shut : shut c = true -> attached c = false;
  li_working : keep_working_ c = false -> new_state_ c = CONN_STATE_FREED;
  li_gone : attached c = false -> masque_tunnel_ (mq c) = None;
  li_role : is_Some (masque_tunnel_ (mq c)) -> masque_role_ (mq c) = MASQUE_INNER;
  li_role' : is_Some (masque_inner_ (mq c)) -> masque_role_ (mq c) = MASQUE_TUNNEL;
  li_told : TTunnelClosed ∈ queue w id \/ masque_tunnel_closing_ (mq c) = true -> masque_role_ (mq c) = MASQUE_INNER;
  li_tunnel : forall t, masque_tunnel_ (mq c) = Some t -> exists ct, objs w !! t = Some ct /\
    masque_role_ (mq ct) = MASQUE_TUNNEL /\
    (shut ct = false -> masque_inner_ (mq ct) = Some id) /\
    (shut ct = true <-> TTunnelClosed ∈ queue w id) /\
    (masque_tunnel_closing_ (mq c) = true -> told_to_close ct (queue w t));
  li_inner : masque_role_ (mq c) = MASQUE_TUNNEL -> shut c = false -> exists i ci, masque_inner_ (mq c) = Some i /\
    objs w !! i = Some ci /\ masque_tunnel_ (mq ci) = Some id;
  li_outer : masque_role_ (mq c) = MASQUE_TUNNEL -> shut c = true -> masque_inner_ (mq c) = None;
  li_map : user_handler c = true -> (id ∈ conns_map_ (K w) <-> shut c = false);
  li_closing : id ∈ conns_map_ (K w) -> k_state (K w) < CONNTOR_STATE_WORKING -> told_to_close c (queue w id);
  li_packets : forall key s a, raw_streams c !! key = Some s -> a ∈ send_buff_list_ s -> packed_in (pkts w) a
}.

Definition count_closed (l : list rt_task) : Z :=
  zlen (List.filter (fun t => match t with RtClosed => true | _ => false end) l).

Record connector_ok (w : world) : Prop := {
  ko_state : 0 <= k_state (K w) <= 2;
  ko_new : k_new_state (K w) = CONNTOR_STATE_FREED \/ k_new_state (K w) = CONNTOR_STATE_MAX;
  ko_closing : k_state (K w) < CONNTOR_STATE_WORKING -> k_new_state (K w) = CONNTOR_STATE_FREED;
  ko_count : total_allocated_ (K w) = total_freed_ (K w) + Z.of_nat (size (conns_map_ (K w)));
  ko_conns : forall id, id ∈ conns_map_ (K w) -> exists c, objs w !! id = Some c /\ user_handler c = true;
  ko_next : 0 < next_conn_id_ (K w);
  ko_destroyed : engine_destroyed (K w) = if k_state (K w) =? CONNTOR_STATE_FREED then 1 else 0;
  ko_empty : k_state (K w) = CONNTOR_STATE_FREED -> conns_map_ (K w) = ∅;
  ko_told : 0 <= told_closed (K w) /\ told_closed (K w) + count_closed (rt w) = engine_destroyed (K w);
  ko_config : k_config (K w) = cfg /\ k_root_cas (K w) = cas;
  ko_packets : forall a, is_Some (pkts w !! a) -> a < next_pkt w;
  ko_tunnels : forall i j ci cj t, objs w !! i = Some ci -> objs w !! j = Some cj ->
    masque_tunnel_ (mq ci) = Some t -> masque_tunnel_ (mq cj) = Some t -> i = j
}.

(** In the middle of a step of connection [id], whose stubs are among [own]. *)
Record glob (id : Z) (own : list Z) (w : world) : Prop := {
  gl_connector : connector_ok w;
  gl_link : forall i c, objs w !! i = Some c -> link_ok w i c;
  gl_queue : forall i c, objs w !! i = Some c -> queue_ok w (if decide (i = id) then own else owned c) (queue w i);
  gl_local : forall i c, objs w !! i = Some c -> i <> id -> local c /\ rest c;
  gl_id : id < next_conn_id_ (K w)
}.

(** Between the steps. *)
Definition inv (w : world) : Prop := glob 0 [] w.

(** ** What the user's calls keep *)

Definition post (i : Z) (t : task) (w : world) : world := w <| queues ::= <[i := queue w i ++ [t]]> |>.

Lemma queue_post w i t j : queue (post i t w) j = if decide (j = i) then queue w i ++ [t] else queue w j.
Proof.
  unfold queue at 1, post. cbn. case_decide as H.
  - by rewrite H, lookup_insert_eq.
  - rewrite lookup_insert_ne by done. done.
Qed.

Definition benign (w : world) (t : task) : Prop :=
  match t with
  | TConnect _ _ _ _ _ _ _ _ | TTunnelClosed => False
  | TSendPacket a => is_Some (pkts w !! a)
  | _ => True
  end.

Lemma queue_ok_more w own q t : benign w t -> queue_ok w own q -> queue_ok w own (q ++ [t]).
Proof.
  intros Ht [H1 H2 H3 H4].
  assert (E1 : stubs_of (q ++ [t]) = stubs_of q).
  { unfold stubs_of. rewrite omap_app. destruct t; try done; by rewrite app_nil_r. }
  split; rewrite ?E1; try done. intros a [Ha|Ha]%elem_of_app; [by apply H4|]. apply list_elem_of_singleton in Ha. by subst t.
Qed.

Lemma told_more c q t : told_to_close c q -> told_to_close c (q ++ [t]).
Proof. intros [?|?]; [by left|]. right. apply elem_of_app. by left. Qed.

(** Only the clock and what a property of the world does not read differ. *)
Lemma glob_tick id own w n : glob id own w -> glob id own (w <| tick := n |>).
Proof.
  intros [[] H2 H3 H4]. split; [by split| | |done..].
  - intros i c Hc. destruct (H2 i c Hc). by split.
  - intros i c Hc. destruct (H3 i c Hc). by split.
Qed.

Lemma link_post w i t j c : benign w t -> link_ok w j c -> link_ok (post i t w) j c.
Proof.
  intros Ht [H1 H2 H3 H4 H5 H6 H7 Ht' H8 H9 H10 H11 H12 H13].
  assert (Hq : forall k x, told_to_close x (queue w k) -> told_to_close x (queue (post i t w) k)).
  { intros k x Hx. rewrite queue_post. case_decide; [subst; by apply told_more|done]. }
  assert (Hc : forall k, TTunnelClosed ∈ queue w k <-> TTunnelClosed ∈ queue (post i t w) k).
  { intros k. rewrite queue_post. case_decide; [subst|done]. rewrite elem_of_app, list_elem_of_singleton.
    split; [by left|]. intros [?|<-]; done. }
  split; try done.
  - by rewrite <- Hc.
  - intros t' Ht''. destruct (H8 t' Ht'') as (ct & G1 & G2 & G3 & G4 & G5). exists ct. rewrite <- Hc. split_and!; try done. all: try (intros; apply Hq; auto).
  - intros ? ?. by apply Hq, H12.
Qed.

Lemma glob_post id own w i t : benign w t -> glob id own w -> glob id own (post i t w).
Proof.
  intros Ht [H1 H2 H3 H4]. split.
  - destruct H1. by split.
  - intros j c Hc. apply link_post; [done|]. by apply H2.
  - intros j c Hc. rewrite queue_post. pose proof (H3 j c Hc) as Hq.
    assert (Hs : forall own q, queue_ok w own q -> queue_ok (post i t w) own q) by (intros ? ? []; by split).
    apply Hs. destruct (decide (j = i)) as [->|]; [by apply queue_ok_more|done].
  - done.
  - done.
Qed.

(** The connections stay as they are, and the packets are there. *)
Record kept (w w' : world) : Prop := {
  ke_objs : forall i c, objs w !! i = Some c -> objs w' !! i = Some c;
  ke_pkts : forall a, is_Some (pkts w !! a) -> is_Some (pkts w' !! a)
}.

Lemma keep_refl w : kept w w.
Proof. by split. Qed.

Lemma kept_same w w' : objs w' = objs w -> pkts w' = pkts w -> kept w w'.
Proof. intros E1 E2. split; by rewrite ?E1, ?E2. Qed.

Lemma keep_trans w1 w2 w3 : kept w1 w2 -> kept w2 w3 -> kept w1 w3.
Proof. intros [] []. split; auto. Qed.

(** What a call from inside a callback does. *)
Definition calls_ok {A} (m : M A) : Prop := forall id own w,
  glob id own w -> runs_to m (fun _ w' => glob id own w' /\ kept w w') w.

Lemma calls_ret {A} (a : A) : calls_ok (ret a).
Proof. intros id own w H. split; [done|apply keep_refl]. Qed.

Lemma calls_bind {A B} (m : M A) (k : A -> M B) : calls_ok m -> (forall a, calls_ok (k a)) -> calls_ok (bind m k).
Proof.
  intros Hm Hk id own w H. eapply runs_call; [by apply Hm|]. intros a w1 [H1 K1].
  eapply runs_mono; [by apply Hk|]. intros b w2 [H2 K2]. split; [done|by eapply keep_trans].
Qed.

Lemma calls_ask {A B} (f : nat -> A) (k : A -> M B) : (forall a, calls_ok (k a)) -> calls_ok (bind (ask f) k).
Proof.
  intros Hk. apply calls_bind; [|done]. intros id own w H. split; [by apply glob_tick|]. by apply kept_same.
Qed.

Lemma calls_each {A} (f : A -> M unit) l : (forall a, calls_ok (f a)) -> calls_ok (each f l).
Proof. intros Hf. induction l as [|x l IH]; cbn [each]; [apply calls_ret|by apply calls_bind]. Qed.

(** A task posted to an object that is there. *)
Lemma runs_post id own w i t c :
  objs w !! i = Some c -> benign w t -> glob id own w ->
  runs_to (PostTask i t) (fun _ w' => w' = post i t w /\ glob id own w' /\ kept w w') w.
Proof.
  intros Hc Ht H. unfold PostTask. apply runs_bind. eapply runs_get; [done|]. apply runs_puts. split; [done|].
  split; [by apply glob_post|]. by apply kept_same.
Qed.

Lemma runs_post_working id own w i t c :
  objs w !! i = Some c -> benign w t -> glob id own w ->
  runs_to (post_working i t)
    (fun _ w' => w' = (if keep_working_ c then post i t w else w) /\ glob id own w' /\ kept w w') w.
Proof.
  intros Hc Ht H. unfold post_working. apply runs_bind. eapply runs_get; [done|].
  destruct (keep_working_ c); cbn [when]; [by eapply runs_post|]. apply runs_ret. split_and!; [done|done|apply keep_refl].
Qed.

Lemma calls_user_conn i (m : M unit) :
  (forall id own w c, objs w !! i = Some c -> user_handler c = true -> glob id own w ->
     runs_to m (fun _ w' => glob id own w' /\ kept w w') w) -> calls_ok (on_user_conn i m).
Proof.
  intros Hm id own w H. unfold on_user_conn. unfold runs_to. destruct (objs w !! i) as [c|] eqn:Hc.
  - destruct (user_handler c) eqn:Hu; [by eapply (Hm id own w)|]. split; [done|apply keep_refl].
  - split; [done|apply keep_refl].
Qed.

Lemma user_post_ok i t : benign (new_world cfg cas) t -> calls_ok (on_user_conn i (post_working i t)).
Proof.
  intros Ht. apply calls_user_conn. intros id own w c Hc _ H. eapply runs_mono; [eapply runs_post_working; [done| |done]|].
  - destruct t; try done. destruct Ht as [x Hx]. done.
  - by intros _ w' (_ & ? & ?).
Qed.

(** A stub that nobody has. *)
Lemma glob_connect id own w i c s scheme host port path query props ms :
  objs w !! i = Some c -> s = next_stub w -> glob id own w ->
  glob id own (post i (TConnect s scheme host port path query props ms) (w <| next_stub ::= Z.succ |>)).
Proof.
  intros Hc Hs [H1 H2 H3 H4]. set (t := TConnect s scheme host port path query props ms).
  set (w1 := w <| next_stub ::= Z.succ |>). split.
  - destruct H1. by split.
  - intros j x Hx. destruct (H2 j x Hx) as [L1 L2 L3 Lw L4 L5 L6 Lt L7 L8 L9 L10 L11 L12].
    assert (Hq : forall k y, told_to_close y (queue w k) -> told_to_close y (queue (post i t w1) k)).
    { intros k y Hy. rewrite queue_post. case_decide; [subst; by apply told_more|done]. }
    split; try done; [| |by intros ? ?; apply Hq, L11].
    { rewrite queue_post. case_decide; [subst|done]. intros [[Hin|Hin]%elem_of_app|Hm]; [apply Lt; by left|by apply list_elem_of_singleton in Hin|apply Lt; by right]. }
    intros t' Ht'. destruct (L7 t' Ht') as (ct & G1 & G2 & G3 & G4 & G5). exists ct. split_and!; try done.
    + rewrite G4, queue_post. case_decide; [subst|done]. rewrite elem_of_app, list_elem_of_singleton.
      split; [by left|]. by intros [?|?].
    + intros Hf. by apply Hq, G5.
  - intros j x Hx. rewrite queue_post. destruct (H3 j x Hx) as [Q1 Q2 Q3 Q4].
    assert (Hnext : next_stub (post i t w1) = next_stub w + 1) by done.
    destruct (decide (j = i)) as [->|Hne].
    + change (queue w1 i) with (queue w i).
      assert (E1 : stubs_of (queue w i ++ [t]) = stubs_of (queue w i) ++ [s]) by (unfold stubs_of; by rewrite omap_app).
      split; rewrite ?E1.
      * apply NoDup_app. split_and!; [done| |apply NoDup_singleton].
        intros y Hy ->%list_elem_of_singleton. destruct (Q2 _ Hy). lia.
      * intros y [Hy|Hy]%elem_of_app.
        -- destruct (Q2 _ Hy). split; [lia|done].
        -- apply list_elem_of_singleton in Hy. subst y. split; [lia|]. intros Ho%Q3. lia.
      * intros y Hy%Q3. lia.
      * intros a [Ha|Ha]%elem_of_app; [by apply Q4|]. by apply list_elem_of_singleton in Ha.
    + split; try done.
      * intros y Hy. destruct (Q2 _ Hy). split; [lia|done].
      * intros y Hy%Q3. lia.
  - done.
  - done.
Qed.

Lemma glob_packet id own w k :
  glob id own w -> glob id own (w <| pkts ::= <[next_pkt w := k]> |> <| next_pkt ::= Z.succ |>).
Proof.
  intros [H1 H2 H3 H4]. set (w1 := w <| pkts ::= _ |> <| next_pkt ::= _ |>).
  assert (Hm : forall a, is_Some (pkts w !! a) -> pkts w1 !! a = pkts w !! a).
  { intros a Ha. apply (ko_packets _ H1) in Ha. apply lookup_insert_ne. lia. }
  split.
  - destruct H1. split; try done. intros a Ha. destruct (decide (a = next_pkt w)) as [->|Hne]; [cbn; lia|].
    cbn in Ha. rewrite lookup_insert_ne in Ha by done. apply ko_packets0 in Ha. cbn. lia.
  - intros j x Hx. destruct (H2 j x Hx). split; try done.
    intros key s a Hs Ha. destruct (li_packets0 key s a Hs Ha) as (f & k' & b & E1 & E2). exists f, k', b.
    rewrite Hm by (rewrite E1; eauto). done.
  - intros j x Hx. destruct (H3 j x Hx). split; try done. intros a Ha. rewrite Hm; auto.
  - done.
  - done.
Qed.

Lemma glob_rt id own w l : count_closed l = count_closed (rt w) -> glob id own w -> glob id own (w <| rt := l |>).
Proof.
  intros Hl [[] H2 H3 H4]. split; [split; try done; cbn; congruence| | |done..].
  - intros i c Hc. destruct (H2 i c Hc). by split.
  - intros i c Hc. destruct (H3 i c Hc). by split.
Qed.

Lemma count_closed_app l k : count_closed (l ++ k) = count_closed l + count_closed k.
Proof. unfold count_closed. by rewrite List.filter_app, zlen_app. Qed.

(** Every connection of a list is told to close. *)
Lemma close_each_ok id own l w :
  glob id own w -> (forall i, i ∈ l -> is_Some (objs w !! i)) ->
  runs_to (each (fun i => post_working i TClose) l)
    (fun _ w' => glob id own w' /\ objs w' = objs w /\ K w' = K w /\ pkts w' = pkts w /\
       (forall i c, told_to_close c (queue w i) -> told_to_close c (queue w' i)) /\
       forall i c, i ∈ l -> objs w !! i = Some c -> told_to_close c (queue w' i)) w.
Proof.
  revert w. induction l as [|i l IH]; intros w H Hl; cbn [each].
  { apply runs_ret. split_and!; try done. by intros i c ?%elem_of_nil. }
  destruct (Hl i) as [c Hc]; [by left|].
  eapply runs_call; [by eapply runs_post_working|]. intros _ w1 (Hw1 & H1 & _).
  assert (Ho : objs w1 = objs w) by by subst; destruct (keep_working_ c).
  assert (Hk : K w1 = K w) by by subst; destruct (keep_working_ c).
  assert (Hr : pkts w1 = pkts w) by by subst; destruct (keep_working_ c).
  assert (Hmono : forall j x, told_to_close x (queue w j) -> told_to_close x (queue w1 j)).
  { intros j x Hx. subst w1. destruct (keep_working_ c); [|done]. rewrite queue_post. case_decide; [subst; by apply told_more|done]. }
  assert (Hi : told_to_close c (queue w1 i)).
  { subst w1. destruct (keep_working_ c) eqn:Ek.
    - right. rewrite queue_post, decide_True by done. apply elem_of_app. right. by left.
    - left. by apply (li_working _ _ _ (gl_link _ _ _ H i c Hc)). }
  eapply runs_mono; [apply IH; [done|]|].
  { intros j Hj. rewrite Ho. apply Hl. by right. }
  intros _ w2 (G1 & G2 & G3 & G4 & G5 & G6). split_and!; try done; try congruence; [by auto|].
  intros j x [-> | Hj]%elem_of_cons Hx.
  - rewrite Hc in Hx. injection Hx as <-. by apply G5.
  - rewrite <- Ho in Hx. by eapply G6.
Qed.

(** The connector's members change, its connections do not. *)
Lemma glob_K id own w f :
  let K' := f (K w) in
  glob id own w -> conns_map_ K' = conns_map_ (K w) -> next_conn_id_ K' = next_conn_id_ (K w) ->
  (k_state K' < CONNTOR_STATE_WORKING -> forall i c, i ∈ conns_map_ K' -> objs w !! i = Some c -> told_to_close c (queue w i)) ->
  connector_ok (w <| K ::= f |>) -> glob id own (w <| K ::= f |>).
Proof.
  intros K' [H1 H2 H3 H4 H5] E1 E2 Hc Hk. split; [done| | |done|cbn; fold K'; by rewrite E2].
  - intros i c Hi. destruct (H2 i c Hi). split; try done; cbn; fold K'; rewrite ?E1, ?E2; try done.
    intros Hin Hs. apply (Hc Hs i); [by rewrite E1|done].
  - intros i c Hi. destruct (H3 i c Hi). by split.
Qed.

(** The last stage of closing. *)
Lemma connector_freed id own w :
  glob id own w -> k_new_state (K w) = CONNTOR_STATE_FREED -> k_state (K w) <> CONNTOR_STATE_WORKING ->
  runs_to (k <- gets K;;
    when ((k_state k =? CONNTOR_STATE_INIT) && bool_decide (conns_map_ k = ∅))
      (put_K (fun k => k <| engine_destroyed ::= Z.succ |>);;
       puts (fun w => w <| rt ::= fun l => l ++ [RtClosed] |>);;
       put_K (fun k => k <| k_state := CONNTOR_STATE_FREED |>));;
    ret true) (fun b w' => b = true /\ glob id own w' /\ kept w w') w.
Proof.
  intros H Hn Hs. apply runs_bind, runs_gets. apply runs_bind. destruct (Z.eqb_spec (k_state (K w)) CONNTOR_STATE_INIT) as [Ei|Ei];
    [destruct (bool_decide (conns_map_ (K w) = ∅)) eqn:Ee|]; cbn [andb when]; [|apply runs_ret, runs_ret; split_and!; [done..|apply keep_refl]..].
  apply bool_decide_eq_true in Ee. apply runs_bind, runs_puts, runs_bind, runs_puts, runs_puts, runs_ret. split; [done|].
  split; [|by apply kept_same]. destruct H as [[] H2 H3 H4]. split.
  - split; try done; cbn; try lia.
    + by rewrite ko_destroyed0, Ei.
    + rewrite count_closed_app. change (count_closed [RtClosed]) with 1. lia.
  - intros i c Hi. destruct (H2 i c Hi). split; try done. cbn. rewrite Ee. by intros ?%elem_of_empty.
  - intros i c Hi. destruct (H3 i c Hi). by split.
  - done.
  - done.
Qed.

Lemma ConnectorCloseCheck_ok id own w :
  glob id own w ->
  runs_to ConnectorCloseCheck
    (fun b w' => glob id own w' /\ kept w w' /\
       (b = false -> w' = w /\ k_state (K w) = CONNTOR_STATE_WORKING)) w.
Proof.
  intros H. unfold ConnectorCloseCheck. apply runs_bind, runs_gets. pose proof (gl_connector _ _ _ H) as [S1 S2 S3 S4 S5 S6 S7 S8 S9 S10 S11].
  destruct (_ && _) eqn:Eb.
  { apply runs_ret. split_and!; [done|apply keep_refl|]. intros _. split; [done|].
    destruct (Z.ltb_spec (k_state (K w)) CONNTOR_STATE_WORKING) as [Hlt|]; [|unfold CONNTOR_STATE_WORKING in *; lia].
    rewrite (S3 Hlt) in Eb. unfold CONNTOR_STATE_FREED in *. lia. }
  destruct (Z.eqb_spec (k_state (K w)) CONNTOR_STATE_WORKING) as [Ew|Ew]; cbn [when].
  - assert (Hn : k_new_state (K w) = CONNTOR_STATE_FREED).
    { destruct S2 as [?|S2]; [done|]. rewrite S2, Ew in Eb. done. }
    apply runs_bind. eapply runs_call.
    { apply close_each_ok; [done|]. intros i Hi%elem_of_elements. destruct (S5 i Hi) as (c & -> & _). eauto. }
    intros _ w1 (H1 & Ho & Hk & Hr & Hmono & Hall). apply runs_puts. set (w2 := w1 <| K ::= _ |>).
    assert (H2 : glob id own w2).
    { apply glob_K; try done.
      - intros _ i c Hi Hc. rewrite Ho in Hc. cbn in Hi. rewrite Hk in Hi. apply Hall; [by apply elem_of_elements|done].
      - destruct (gl_connector _ _ _ H1). split; try done; cbn.
        + by rewrite Hk.
        + rewrite Hk, S7, Ew. done. }
    eapply runs_mono; [apply connector_freed; [done|cbn; by rewrite Hk|done]|].
    intros b w3 (-> & H3 & K3). split_and!; [done| |done].
    eapply keep_trans; [|exact K3]. by apply kept_same.
  - apply runs_bind, runs_ret.
    assert (Hn : k_new_state (K w) = CONNTOR_STATE_FREED) by (apply S3; unfold CONNTOR_STATE_WORKING in *; lia).
    eapply runs_mono; [by apply connector_freed|]. intros b w3 (-> & H3 & K3). done.
Qed.

(** *** New connections *)

Lemma new_conn_local c0 rcas user m : local ((new_conn c0 rcas user) <| mq := m |>) /\ rest ((new_conn c0 rcas user) <| mq := m |>).
Proof.
  split; [|done]. split; [split; try done; by right|]. split; cbn; try done; try (constructor; fail).
  - split; try done. intros [? ?]; done.
  - split; try done. by right.
  - intros _ l1 e l2 Hl. by destruct l1.
  - intros _ bs. apply not_elem_of_nil.
Qed.

Lemma make_conn_ok id own w user o :
  glob id own w ->
  runs_to (make_conn E user o) (fun r w' => glob id own w' /\ kept w w' /\ (exists n, w' = w <| tick := n |>) /\
    match r with Some c => exists c0 rcas, c = new_conn c0 rcas user | None => True end) w.
Proof.
  intros H. unfold make_conn. apply runs_bind, runs_gets, runs_bind. unfold runs_to at 1, ask.
  destruct (Create_config _ _ _) as [r c0]. destruct (negb (r =? BC_R_SUCCESS)).
  { apply runs_ret. split_and!; [by apply glob_tick|by apply kept_same|by eexists|done]. }
  apply runs_bind. unfold runs_to at 1, ask. apply runs_ret.
  split_and!; [exact (glob_tick _ _ _ (S (S (tick w))) H)|by apply kept_same|by eexists|]. destruct (udp_create_ok E _); [by eexists _, _|done].
Qed.

Lemma none_at id own w i : glob id own w -> next_conn_id_ (K w) <= i -> objs w !! i = None.
Proof.
  intros H Hi. destruct (objs w !! i) as [c|] eqn:Hc; [|done]. pose proof (li_id _ _ _ (gl_link _ _ _ H i c Hc)). lia.
Qed.

Lemma glob_new_user id own w c0 rcas :
  let i := next_conn_id_ (K w) in
  glob id own w -> k_state (K w) = CONNTOR_STATE_WORKING ->
  glob id own (w <| objs ::= <[i := new_conn c0 rcas true]> |> <| queues ::= <[i := []]> |>
                 <| K ::= fun k => k <| conns_map_ ::= fun s => {[i]} ∪ s |> <| next_conn_id_ ::= Z.succ |>
                                     <| total_allocated_ ::= Z.succ |> |>).
Proof.
  intros i H Hs. pose proof (gl_id _ _ _ H) as Hid. pose proof (none_at _ _ _ i H ltac:(unfold i; lia)) as Hi. set (n := new_conn c0 rcas true).
  match goal with |- glob _ _ ?x => set (w1 := x) end.
  assert (Hq : forall j, queue w1 j = if decide (j = i) then [] else queue w j).
  { intros j. unfold queue, w1. cbn. case_decide as Ej; [by rewrite Ej, lookup_insert_eq|]. by rewrite lookup_insert_ne. }
  assert (Ho : forall j c, objs w1 !! j = Some c -> j = i /\ c = n \/ j <> i /\ objs w !! j = Some c).
  { intros j c. unfold w1. cbn. destruct (decide (j = i)) as [->|Hne].
    - rewrite lookup_insert_eq. intros [= <-]. by left.
    - rewrite lookup_insert_ne by done. by right. }
  assert (Hold : forall j c, objs w !! j = Some c -> j <> i /\ objs w1 !! j = Some c).
  { intros j c Hj. assert (j <> i) by congruence. split; [done|]. unfold w1. cbn. by rewrite lookup_insert_ne. }
  destruct H as [[S1 S2 S3 S4 S5 S6 S7 S8 S9 S10 S11 S12] H2 H3 H4 _]. split.
  - split; try done; cbn; try lia.
    + rewrite size_union, size_singleton, S4; [lia|]. intros j Hj%elem_of_singleton Hin. subst j.
      destruct (S5 i Hin) as (c & Hc & _). congruence.
    + intros j [->%elem_of_singleton|Hj]%elem_of_union.
      * exists n. by rewrite lookup_insert_eq.
      * destruct (S5 j Hj) as (c & Hc & Hu). exists c. by destruct (Hold j c Hc).
    + rewrite Hs. done.
    + intros j k cj ck t Hj Hk. destruct (Ho j cj Hj) as [[-> ->]|[_ Gj]]; [done|].
      destruct (Ho k ck Hk) as [[-> ->]|[_ Gk]]; [done|]. by eapply S12.
  - intros j c Hj. destruct (Ho j c Hj) as [[-> ->]|[Hne Gj]].
    + split; cbn; try done; try (intros [? ?]; done).
      * fold i. lia.
      * rewrite Hq, decide_True by done. by intros [?%elem_of_nil|?].
      * intros _. split; [done|]. intros _. apply elem_of_union. left. by apply elem_of_singleton.
      * rewrite Hs. unfold CONNTOR_STATE_WORKING. lia.
    + destruct (H2 j c Gj) as [L1 L2 L3 Lw L4 L5 L6 Lt L7 L8 L9 L10 L11 L12]. split; cbn; try done.
      * lia.
      * by rewrite Hq, decide_False.
      * intros t Ht. destruct (L7 t Ht) as (ct & G1 & G2 & G3 & G4 & G5). destruct (Hold t ct G1) as [Hnt Gt].
        exists ct. rewrite !Hq, !decide_False by done. done.
      * intros Hr Hsh. destruct (L8 Hr Hsh) as (k & ck & G1 & G2 & G3). exists k, ck. by destruct (Hold k ck G2).
      * intros Hu. rewrite elem_of_union, elem_of_singleton, <- (L10 Hu). tauto.
      * rewrite Hs. unfold CONNTOR_STATE_WORKING. lia.
  - intros j c Hj. rewrite Hq. destruct (Ho j c Hj) as [[-> ->]|[Hne Gj]].
    + rewrite decide_False by lia. rewrite decide_True by done. split; cbn; try (intros ? ?%elem_of_nil; done). constructor.
    + rewrite (decide_False (P := j = i)) by done. destruct (H3 j c Gj). by split.
  - intros j c Hj Hne. destruct (Ho j c Hj) as [[-> ->]|[_ Gj]]; [|by eapply H4].
    apply (new_conn_local c0 rcas true no_masque).
  - cbn. lia.
Qed.

Lemma CreateConnection_calls o : calls_ok (CreateConnection E o).
Proof.
  intros id own w H. unfold CreateConnection. eapply runs_call; [by apply ConnectorCloseCheck_ok|].
  intros [|] w1 (H1 & K1 & Hb); [by apply runs_ret|]. destruct (Hb eq_refl) as [-> Hs].
  eapply runs_call; [by apply make_conn_ok|]. intros r w2 (H2 & K2 & [n ->] & Hr).
  destruct r as [c|]; [|apply runs_ret; split; [done|by eapply keep_trans]]. destruct Hr as (c0 & rcas & ->).
  apply runs_bind, runs_gets, runs_bind, runs_puts, runs_bind, runs_puts, runs_ret.
  pose proof (glob_new_user _ _ _ c0 rcas H2 Hs) as H3. split; [exact H3|].
  split; [|done]. intros i c Hc. cbn. rewrite lookup_insert_ne; [done|]. pose proof (none_at _ _ _ (next_conn_id_ (K w)) H ltac:(lia)) as Hi.
  intros Eq. rewrite Eq in Hi. congruence.
Qed.

Lemma api_call_ok a : calls_ok (user_call E a).
Proof.
  destruct a as [i scheme host port path query props ms|k|i a|i h|i|i sid|o|]; cbn [user_call]; try by apply user_post_ok.
  - apply calls_user_conn. intros id own w c Hc _ H. apply runs_bind. eapply runs_get; [done|].
    destruct (keep_working_ c); cbn [when]; [|apply runs_ret; split; [done|apply keep_refl]].
    apply runs_bind, runs_gets, runs_bind, runs_puts. unfold PostTask. apply runs_bind. eapply runs_get; [done|]. apply runs_puts.
    pose proof (glob_connect _ _ _ i c _ scheme host (u16 port) path query props ms Hc eq_refl H) as Hg.
    split; [exact Hg|]. by apply kept_same.
  - intros id own w H. apply runs_puts. split; [by apply glob_packet|].
    split; [done|]. intros a Ha. cbn. destruct (decide (a = next_pkt w)) as [->|]; [rewrite lookup_insert_eq; eauto|by rewrite lookup_insert_ne].
  - intros id own w H. apply runs_bind, runs_gets. destruct (bool_decide _) eqn:Ea; cbn [when]; [|apply runs_ret; split; [done|apply keep_refl]].
    apply bool_decide_eq_true in Ea. unfold on_user_conn, runs_to. destruct (objs w !! i) as [c|] eqn:Hc; [|split; [done|apply keep_refl]].
    destruct (user_handler c); [|split; [done|apply keep_refl]].
    pose proof (runs_post_working id own w i (TSendPacket a) c Hc Ea H) as Hp. unfold runs_to in Hp.
    destruct (post_working _ _ _) as [[x w']|]; [|done]. by destruct Hp as (_ & ? & ?).
  - apply calls_bind; [apply CreateConnection_calls|]. intros _. apply calls_ret.
  - intros id own w H. apply runs_puts. split; [|by apply kept_same]. apply glob_rt; [|done].
    rewrite count_closed_app. change (count_closed [RtClose]) with 0. lia.
Qed.

Lemma user_calls_ok l : calls_ok (each (user_call E) l).
Proof. apply calls_each. apply api_call_ok. Qed.

(** ** One connection in the middle of its step *)

(** The world [w] of a step of connection [id] that began in [w0], where [id] is now [c]: the
    user's other connections are as they were. *)
Record at_ (w0 : world) (id : Z) (own : list Z) (w : world) (c : conn) : Prop := {
  at_glob : glob id own w;
  at_obj : objs w !! id = Some c;
  at_packets : forall a, is_Some (pkts w0 !! a) -> is_Some (pkts w !! a);
  at_others : forall i x, i <> id -> user_handler x = true -> objs w0 !! i = Some x -> objs w !! i = Some x
}.

(** What others see of a connection. *)
Record same_links (c c' : conn) : Prop := {
  sl_user : user_handler c' = user_handler c;
  sl_role : masque_role_ (mq c') = masque_role_ (mq c);
  sl_tunnel : masque_tunnel_ (mq c') = masque_tunnel_ (mq c);
  sl_inner : masque_inner_ (mq c') = masque_inner_ (mq c);
  sl_shut : shut c' = shut c;
  sl_attached : attached c' = attached c \/ attached c' = false /\ masque_tunnel_ (mq c') = None;
  sl_new : new_state_ c = CONN_STATE_FREED -> new_state_ c' = CONN_STATE_FREED;
  sl_working : keep_working_ c' = keep_working_ c \/ new_state_ c' = CONN_STATE_FREED
}.

(** No packet is on a list that was on none. *)
Definition no_new_packets (c c' : conn) : Prop := forall key s a, raw_streams c' !! key = Some s -> a ∈ send_buff_list_ s ->
  exists key' s', raw_streams c !! key' = Some s' /\ a ∈ send_buff_list_ s'.

Lemma same_no_new c c' : raw_streams c' = raw_streams c -> no_new_packets c c'.
Proof. intros E1 key s a. rewrite E1. eauto. Qed.

Definition lists_packed (w : world) (c : conn) : Prop := forall key s a,
  raw_streams c !! key = Some s -> a ∈ send_buff_list_ s -> packed_in (pkts w) a.

Lemma told_same c c' q : same_links c c' -> told_to_close c q -> told_to_close c' q.
Proof. intros H [Hn|Hq]; [left; by apply (sl_new _ _ H)|by right]. Qed.

Lemma queue_objs w f i : queue (w <| objs ::= f |>) i = queue w i.
Proof. done. Qed.

(** Its tunnel was told to close, if it says so. *)
Definition tunnel_told (w : world) (c : conn) : Prop :=
  masque_tunnel_closing_ (mq c) = true -> masque_role_ (mq c) = MASQUE_INNER /\ forall t ct, masque_tunnel_ (mq c) = Some t -> objs w !! t = Some ct ->
    told_to_close ct (queue w t).

Lemma glob_set id own w c c' :
  glob id own w -> objs w !! id = Some c -> same_links c c' -> tunnel_told w c' -> lists_packed w c' ->
  glob id own (w <| objs ::= <[id := c']> |>).
Proof.
  intros H Hc Hs Htold Hpack. set (w1 := w <| objs ::= _ |>).
  assert (Ho : forall j x, objs w1 !! j = Some x -> exists y, objs w !! j = Some y /\ same_links y x /\ (j <> id -> y = x)).
  { intros j x. unfold w1. cbn. destruct (decide (j = id)) as [->|Hne].
    - rewrite lookup_insert_eq. intros [= <-]. by exists c.
    - rewrite lookup_insert_ne by done. intros Hx. exists x. split; [done|]. split; [|done]. split; auto. }
  assert (Hold : forall j y, objs w !! j = Some y -> exists x, objs w1 !! j = Some x /\ same_links y x).
  { intros j y Hy. unfold w1. cbn. destruct (decide (j = id)) as [->|Hne].
    - rewrite lookup_insert_eq. exists c'. rewrite Hc in Hy. by injection Hy as <-.
    - rewrite lookup_insert_ne by done. exists y. split; [done|]. split; auto. }
  destruct H as [[S1 S2 S3 S4 S5 S6 S7 S8 S9 S10 S11 S12] H2 H3 H4 H5]. split.
  - split; try done.
    + intros j Hj. destruct (S5 j Hj) as (y & Hy & Hu). destruct (Hold j y Hy) as (x & Hx & Hyx). exists x.
      split; [done|]. by rewrite (sl_user _ _ Hyx).
    + intros j k cj ck t Hj Hk Tj Tk. destruct (Ho j cj Hj) as (yj & Yj & Xj & _). destruct (Ho k ck Hk) as (yk & Yk & Xk & _).
      rewrite (sl_tunnel _ _ Xj) in Tj. rewrite (sl_tunnel _ _ Xk) in Tk. by eapply S12.
  - intros j x Hx. destruct (Ho j x Hx) as (y & Hy & Hyx & Hne). pose proof Hyx as [E1 E2 E3 E4 E6 E7 E8 E9].
    destruct (H2 j y Hy) as [L1 L2 L3 Lw L4 L5 L6 Lt L7 L8 L9 L10 L11 L12].
    split; rewrite ?E1, ?E2, ?E3, ?E4, ?E6; try done.
    + intros Hsh. destruct E7 as [->|[-> _]]; auto.
    + intros Hk. destruct E9 as [E9|?]; [|done]. apply E8, Lw. congruence.
    + intros Ha. destruct E7 as [E7|[_ E7]]; [|by rewrite <- E3]. apply L4. congruence.
    + intros [Hin|Hm]; [apply Lt; by left|]. destruct (decide (j = id)) as [->|Hj]; [|rewrite (Hne Hj) in Lt |- *; apply Lt; by right].
      unfold w1 in Hx. cbn in Hx. rewrite lookup_insert_eq in Hx. injection Hx as ->. rewrite <- E2. by apply Htold.
    + intros t Ht. destruct (L7 t Ht) as (ct & G1 & G2 & G3 & G4 & G5). destruct (Hold t ct G1) as (ct' & G1' & X).
      exists ct'. rewrite (sl_role _ _ X), (sl_inner _ _ X), (sl_shut _ _ X). split_and!; try done; try apply G4.
      intros Hf. eapply told_same; [done|]. destruct (decide (j = id)) as [->|Hj].
      { unfold w1 in Hx. cbn in Hx. rewrite lookup_insert_eq in Hx. injection Hx as ->. apply (proj2 (Htold Hf) t ct); [|done]. by rewrite E3. }
      apply G5. by rewrite (Hne Hj).
    + intros Hr Hsh. destruct (L8 Hr Hsh) as (k & ck & G1 & G2 & G3). destruct (Hold k ck G2) as (ck' & G2' & X).
      exists k, ck'. by rewrite (sl_tunnel _ _ X).
    + intros Hm Hk. eapply told_same; [done|]. by apply L11.
    + intros key s a Hs' Ha. destruct (decide (j = id)) as [->|Hj].
      * unfold w1 in Hx. cbn in Hx. rewrite lookup_insert_eq in Hx. injection Hx as ->. by eapply Hpack.
      * rewrite (Hne Hj) in L12. by eapply L12.
  - intros j x Hx. destruct (Ho j x Hx) as (y & Hy & _ & Hne). pose proof (H3 j y Hy) as Hq.
    case_decide as Ej; [|rewrite <- Hne by done]; destruct Hq; by split.
  - intros j x Hx Hj. destruct (Ho j x Hx) as (y & Hy & _ & Hne). rewrite <- Hne by done. by eapply H4.
  - done.
Qed.

Lemma at_update w0 id own w c f :
  at_ w0 id own w c -> same_links c (f c) -> tunnel_told w (f c) -> lists_packed w (f c) ->
  runs_to (put id f) (fun _ w' => at_ w0 id own w' (f c)) w.
Proof.
  intros [H1 H2 Hpk H3] Hs Ht Hp. apply runs_puts.
  assert (Ef : alter f id (objs w) = <[id := f c]> (objs w)).
  { apply map_eq. intros j. destruct (decide (j = id)) as [->|Hne].
    - by rewrite lookup_alter_eq, lookup_insert_eq, H2.
    - by rewrite lookup_alter_ne, lookup_insert_ne. }
  assert (Ew : w <| objs ::= alter f id |> = w <| objs ::= <[id := f c]> |>).
  { unfold update. cbn. by rewrite Ef. }
  rewrite Ew. split; [by eapply glob_set|cbn; by rewrite lookup_insert_eq|done|].
  intros i x Hi Hu Hx. cbn. rewrite lookup_insert_ne by done. by apply H3.
Qed.

Lemma at_put w0 id own w c f :
  at_ w0 id own w c -> same_links c (f c) ->
  (masque_tunnel_closing_ (mq (f c)) = true -> masque_tunnel_closing_ (mq c) = true) -> no_new_packets c (f c) ->
  runs_to (put id f) (fun _ w' => at_ w0 id own w' (f c)) w.
Proof.
  intros H Hs Hf Hp. apply at_update; [done|done| |].
  2: { intros key s a Hk Ha. destruct (Hp key s a Hk Ha) as (key' & s' & K1 & K2).
       by eapply (li_packets _ _ _ (gl_link _ _ _ (at_glob _ _ _ _ _ H) id c (at_obj _ _ _ _ _ H))). } intros Hx.
  pose proof (gl_link _ _ _ (at_glob _ _ _ _ _ H) id c (at_obj _ _ _ _ _ H)) as L.
  split; [rewrite (sl_role _ _ Hs); apply (li_told _ _ _ L); auto|]. intros t ct Ht Hct. rewrite (sl_tunnel _ _ Hs) in Ht.
  destruct (li_tunnel _ _ _ (gl_link _ _ _ (at_glob _ _ _ _ _ H) id c (at_obj _ _ _ _ _ H)) t Ht) as (ct' & G1 & _ & _ & _ & G5).
  rewrite Hct in G1. injection G1 as <-. apply G5. auto.
Qed.

Lemma at_keep w0 id own w w' c : at_ w0 id own w c -> glob id own w' -> kept w w' -> at_ w0 id own w' c.
Proof.
  intros [H1 H2 Hp H3] Hg [K1 K2]. split; [done|by apply K1|by auto|]. intros i x Hi Hu Hx. by apply K1, H3.
Qed.

Lemma at_get {A} w0 id own w c (f : conn -> A) (Q : A -> world -> Prop) :
  at_ w0 id own w c -> Q (f c) w -> runs_to (get id f) Q w.
Proof. intros [_ H _ _]. by apply runs_get. Qed.

Lemma at_ask {A} w0 id own w c (f : nat -> A) :
  at_ w0 id own w c -> runs_to (ask f) (fun _ w' => at_ w0 id own w' c) w.
Proof.
  intros [H1 H2 Hp H3]. unfold runs_to, ask. split; [exact (glob_tick _ _ _ _ H1)|done..].
Qed.

Lemma at_calls {A} (m : M A) w0 id own w c :
  calls_ok m -> at_ w0 id own w c -> runs_to m (fun _ w' => at_ w0 id own w' c) w.
Proof.
  intros Hm H. eapply runs_mono; [apply Hm, H|]. intros a w' [? ?]. by eapply at_keep.
Qed.

Definition logged (e : event) (c : conn) : conn := c <| log_ ::= fun l => l ++ [e] |>.

Lemma at_log w0 id own w c e :
  at_ w0 id own w c -> runs_to (log id e) (fun _ w' => at_ w0 id own w' (logged e c)) w.
Proof. intros H. apply at_put; [done|split; auto|done|by apply same_no_new]. Qed.

Lemma at_notify w0 id own w c e :
  at_ w0 id own w c -> runs_to (notify E id e) (fun _ w' => at_ w0 id own w' (logged e c)) w.
Proof.
  intros H. unfold notify. eapply runs_call; [by apply at_log|]. intros [] w1 H1. apply runs_bind.
  eapply at_get; [done|]. destruct (user_handler _); cbn [when]; [|by apply runs_ret].
  eapply runs_call; [by eapply at_ask|]. intros l w2 H2. eapply at_calls; [apply user_calls_ok|done].
Qed.

(** A member of the connector that is only counted or remembered. *)
Lemma at_put_K w0 id own w c f :
  (forall k, let k' := f k in k_state k' = k_state k /\ k_new_state k' = k_new_state k /\ conns_map_ k' = conns_map_ k /\
     next_conn_id_ k' = next_conn_id_ k /\ total_allocated_ k' = total_allocated_ k /\ total_freed_ k' = total_freed_ k /\
     k_config k' = k_config k /\ k_root_cas k' = k_root_cas k /\ engine_destroyed k' = engine_destroyed k /\
     told_closed k' = told_closed k) ->
  at_ w0 id own w c -> runs_to (put_K f) (fun _ w' => at_ w0 id own w' c) w.
Proof.
  intros Hf [H1 H2 Hp H3]. apply runs_puts. split; [|done..].
  destruct (Hf (K w)) as (E1 & E2 & E3 & E4 & E5 & E6 & E7 & E8 & E9 & E10). apply glob_K; try done.
  - rewrite E1, E3. intros Hs i x Hi Hx. by apply (li_closing _ _ _ (gl_link _ _ _ H1 i x Hx)).
  - destruct (gl_connector _ _ _ H1). split; cbn; rewrite ?E1, ?E2, ?E3, ?E4, ?E5, ?E6, ?E7, ?E8, ?E9, ?E10; done.
Qed.

Lemma at_post w0 id own w c i x t :
  at_ w0 id own w c -> objs w !! i = Some x -> benign w t ->
  runs_to (PostTask i t) (fun _ w' => at_ w0 id own w' c) w.
Proof.
  intros H Hx Ht. eapply runs_mono; [eapply runs_post; [done|done|apply H]|]. intros _ w' (_ & ? & ?). by eapply at_keep.
Qed.

Lemma at_post_working w0 id own w c i x t :
  at_ w0 id own w c -> objs w !! i = Some x -> benign w t ->
  runs_to (post_working i t) (fun _ w' => at_ w0 id own w' c) w.
Proof.
  intros H Hx Ht. eapply runs_mono; [eapply runs_post_working; [done|done|apply H]|]. intros _ w' (_ & ? & ?).
  by eapply at_keep.
Qed.

(** *** Operations whose effect on the connection is a function *)

Definition does (id : Z) (m : M unit) (f : conn -> conn) : Prop := forall w0 own w c,
  at_ w0 id own w c -> runs_to m (fun _ w' => at_ w0 id own w' (f c)) w.

Definition without_timer (c : conn) : conn :=
  if 0 <? connect_timer_id_ c
  then c <| delay_tasks ::= delete (connect_timer_id_ c) |> <| connect_timer_id_ := 0 |> else c.

Lemma UnscheduleConnect_does id : does id (UnscheduleConnect id) without_timer.
Proof.
  intros w0 own w c H. unfold UnscheduleConnect, without_timer. apply runs_bind. eapply at_get; [done|].
  destruct (0 <? connect_timer_id_ c); cbn [when]; [|by apply runs_ret].
  eapply runs_call; [unfold UnscheduleTask; apply at_put; [done|split; auto|done|by apply same_no_new]|]. intros [] w1 H1.
  eapply runs_mono; [apply at_put; [done|split; auto|done|by apply same_no_new]|]. done.
Qed.

(** The connection when the stub [pStub], or the one it holds, was answered. *)
Definition answer (pStub : option Z) (result : BCRESULT) (msg : option bytes) (c : conn) : conn :=
  match (match pStub with Some s => Some s | None => connect_rpc_ c end) with
  | None => c
  | Some s =>
      let c := logged (OnExecDone s result (match msg with Some (b :: m) => Some (b :: m) | _ => None end)) c in
      if bool_decide (connect_rpc_ c = Some s) then without_timer (c <| connect_rpc_ := None |>) else c
  end.

Lemma NotifyConnectResult_does id pStub result msg :
  does id (NotifyConnectResult E id pStub result msg) (answer pStub result msg).
Proof.
  intros w0 own w c H. unfold NotifyConnectResult, answer. apply runs_bind. eapply at_get; [done|].
  destruct (match pStub with Some s => Some s | None => _ end) as [s|]; [|by apply runs_ret].
  eapply runs_call; [by apply at_notify|]. intros [] w1 H1. apply runs_bind. eapply at_get; [done|].
  destruct (bool_decide _); cbn [when]; [|by apply runs_ret].
  eapply runs_call; [apply at_put; [done|split; auto|done|by apply same_no_new]|]. intros [] w2 H2. by apply UnscheduleConnect_does.
Qed.

Lemma set_state_does id st status : st = CONN_STATE_FREED ->
  does id (set_state id st status) (fun c => c <| new_state_ := st |> <| close_status_ := status |>).
Proof.
  intros -> w0 own w c H. unfold set_state.
  apply (at_put w0 id own w c (fun c => c <| new_state_ := CONN_STATE_FREED |> <| close_status_ := status |>)); [done|split; auto|done|by apply same_no_new].
Qed.

Lemma UnscheduleAllTasks_does id : does id (UnscheduleAllTasks id) (fun c => c <| delay_tasks := ∅ |>).
Proof. intros w0 own w c H. apply at_put; [done|split; auto|done|by apply same_no_new]. Qed.

(** ** What keeps a connection's part *)

(** A connection without what [local] does not read. *)
Definition erase (c : conn) : conn :=
  c <| tgt := no_target |> <| h3_conn_ := None |> <| stream_map_ := ∅ |> <| h3_streams := ∅ |> <| network_handle_ := 0 |>
    <| udp_reading := false |> <| udp_told := false |> <| mq := no_masque <| masque_role_ := masque_role_ (mq c) |> |>
    <| close_status_ := 0 |> <| conn_close_msg_ := None |> <| cert_verify_error_ := None |> <| keep_working_ := false |>.

Lemma local_erase c : local c <-> local (erase c).
Proof. split; intros [[] [[] [] ? ? ? ? ? ?]]; (split; [by split|]); by split. Qed.

Lemma local_same c c' : erase c' = erase c -> local c -> local c'.
Proof. intros He H%local_erase. apply local_erase. by rewrite He. Qed.

(** A connection that was told to close before it connected. *)
Definition stuck (c : conn) : Prop :=
  state_ c = CONN_STATE_INIT /\ new_state_ c = CONN_STATE_FREED /\ engs c = ∅.

(** What a step leaves true of a connection. *)
Record rel (c c' : conn) : Prop := {
  re_config : config_ c' = config_ c;
  re_cas : root_cas_ c' = root_cas_ c;
  re_user : user_handler c' = user_handler c;
  re_log : exists l, log_ c' = log_ c ++ l;
  re_new : new_state_ c = CONN_STATE_FREED -> new_state_ c' = CONN_STATE_FREED;
  re_owned : forall s, s ∈ owned c <-> s ∈ owned c';
  re_stuck : stuck c -> stuck c'
}.

Lemma rel_refl c : rel c c.
Proof. split; try done. exists []. by rewrite app_nil_r. Qed.

Lemma rel_trans c1 c2 c3 : rel c1 c2 -> rel c2 c3 -> rel c1 c3.
Proof.
  intros [A1 A2 A3 (l & A4) A5 A6 A7] [B1 B2 B3 (k & B4) B5 B6 B7]. split; auto; try congruence.
  - exists (l ++ k). by rewrite B4, A4, app_assoc.
  - intros s. by rewrite A6.
Qed.

Lemma authentic_app l k : authentic l -> authentic (l ++ k).
Proof. intros (certs & h & H). exists certs, h. apply elem_of_app. by left. Qed.

Lemma trusted_rel c c' : rel c c' -> trusted c -> trusted c'.
Proof.
  intros H Ht Hv. destruct (re_log _ _ H) as [l ->]. apply authentic_app, Ht. unfold verifies in *.
  by rewrite <- (re_config _ _ H), <- (re_cas _ _ H).
Qed.

(** A connection in its step: what it is, and that its stubs are among [own]. *)
Definition St (own : list Z) (c : conn) : Prop := local c /\ (forall s, s ∈ owned c -> s ∈ own) /\ shut c = false.

Lemma St_same own c c' : erase c' = erase c -> St own c -> St own c' /\ rel c c'.
Proof.
  intros He (H1 & H2 & H3).
  pose proof (f_equal log_ He) as E1. pose proof (f_equal connect_rpc_ He) as E2. pose proof (f_equal shut He) as E3.
  pose proof (f_equal config_ He) as E4. pose proof (f_equal root_cas_ He) as E5. pose proof (f_equal user_handler He) as E6.
  pose proof (f_equal new_state_ He) as E7. pose proof (f_equal state_ He) as E8. pose proof (f_equal engs He) as E9.
  change (log_ c' = log_ c) in E1. change (connect_rpc_ c' = connect_rpc_ c) in E2. change (shut c' = shut c) in E3.
  change (config_ c' = config_ c) in E4. change (root_cas_ c' = root_cas_ c) in E5. change (user_handler c' = user_handler c) in E6.
  change (new_state_ c' = new_state_ c) in E7. change (state_ c' = state_ c) in E8. change (engs c' = engs c) in E9.
  assert (Ho : owned c' = owned c) by (unfold owned; rewrite E1, E2; done). split.
  - split; [by eapply local_same|]. split; [intros s; rewrite Ho; apply H2|congruence].
  - split; try congruence; try (by rewrite Ho).
    + exists []. by rewrite app_nil_r.
    + unfold stuck. by rewrite E7, E8, E9.
Qed.

(** *** The log grows *)

Lemma after_proof_snoc l e : after_proof l -> (delivers e = true -> authentic l) -> after_proof (l ++ [e]).
Proof.
  intros H He l1 x l2 Hl Hd. destruct (decide (l2 = [])) as [->|Hne].
  - apply app_inj_tail in Hl as [<- <-]. by apply He.
  - destruct (exists_last Hne) as (k & y & ->). rewrite app_comm_cons, app_assoc in Hl.
    apply app_inj_tail in Hl as [-> _]. by apply (H l1 x k).
Qed.

Definition quiet (e : event) : Prop :=
  match e with
  | OnExecDone _ _ _ | OnRecvCmd _ _ | OnRecvData _ _ | OnClosed _ _ | EvCertVerify _ _ _ | EvStreamOpen _ _
  | EvStreamRead _ _ _ | EvUdpSend _ => False
  | _ => True
  end.

Lemma answered_snoc l e : answered (l ++ [e]) = answered l ++ match e with OnExecDone s _ _ => [s] | _ => [] end.
Proof. unfold answered. rewrite omap_app. by destruct e. Qed.

Lemma owned_quiet c e : quiet e -> owned (logged e c) = owned c.
Proof.
  intros He. change (owned (logged e c)) with (answered (log_ c ++ [e]) ++ match connect_rpc_ c with Some s => [s] | None => [] end).
  rewrite answered_snoc. destruct e; try done; by rewrite app_nil_r.
Qed.

(** The parts of [body] that read the log, when it grows by [e]. *)
Lemma engines_logged c e : engines_ok c -> engines_ok (logged e c).
Proof.
  intros []. split; try done. intros e' g Hg Hv. change (authentic (log_ c ++ [e])). apply authentic_app. eauto.
Qed.

Lemma trusted_logged c e : trusted c -> trusted (logged e c).
Proof. intros Ht Hv. change (authentic (log_ c ++ [e])). by apply authentic_app, Ht. Qed.

Lemma stream_ok_logged c e key s :
  (forall h, hear key.1 key.2 h e = h) -> stream_ok c key s -> stream_ok (logged e c) key s.
Proof.
  intros Hh H. unfold stream_ok in *. change (log_ (logged e c)) with (log_ c ++ [e]). rewrite heard_snoc, Hh. exact H.
Qed.

Lemma body_log c e :
  body c -> shut c = false -> NoDup (owned (logged e c)) -> is_closed_event e = false -> verify_honest c e ->
  (delivers e = true -> trusted c) ->
  (forall key s, raw_streams c !! key = Some s -> stream_ok c key s -> stream_ok (logged e c) key s) ->
  (proxied c = true -> forall bs, e <> EvUdpSend bs) -> body (logged e c).
Proof.
  intros [B1 B2 B3 B4 B5 B6 B7 B8] Hs Hn Hc Hv Hd Hh Hp. change (log_ (logged e c)) with (log_ c ++ [e]) in *.
  split; change (log_ (logged e c)) with (log_ c ++ [e]); try done.
  - destruct B1. by split.
  - by apply engines_logged.
  - change (shut (logged e c)) with (shut c). rewrite Hs in *. cbn [andb] in *. apply Forall_app. by repeat constructor.
  - apply Forall_app. split; [exact B5|]. by repeat constructor.
  - intros Hver. apply after_proof_snoc; [by apply B6|]. intros Hdel. by apply (Hd Hdel).
  - intros key s Hs'. destruct (B7 key s Hs') as [H1 H2]. split; [by apply trusted_logged|]. by apply Hh.
  - intros Hpx bs [Hin|Hin]%elem_of_app; [by eapply B8|]. apply list_elem_of_singleton in Hin. by eapply Hp.
Qed.

Lemma states_log c e : states_ok c -> states_ok (logged e c).
Proof.
  intros []. split; try done; cbn; intros; apply elem_of_app; left; auto.
Qed.

Lemma rel_log c e : (forall s, s ∈ owned c <-> s ∈ owned (logged e c)) -> rel c (logged e c).
Proof. intros Ho. split; try done. by exists [e]. Qed.

Lemma St_quiet own c e : quiet e -> (delivers e = true -> trusted c) -> St own c -> St own (logged e c) /\ rel c (logged e c).
Proof.
  intros He Hd ((Hs & Hb) & Ho & Hsh). pose proof (owned_quiet c e He) as Eo. split.
  - split; [split; [by apply states_log|]|split; [intros s; rewrite Eo; apply Ho|done]].
    apply body_log; try done; try (destruct e; done).
    + rewrite Eo. apply Hb.
    + intros key s _. apply stream_ok_logged. by destruct e.
  - apply rel_log. by rewrite Eo.
Qed.

End Invariant.
