(* ===== verification/SMPSteps.v ===== *)
(** * SMPSteps: every step of the signalling connector keeps the invariant

    The operations of [SMPConnection], from those of one member to whole tasks. [step_ok]
    says of an operation of a connection that it keeps the connection's part of the invariant
    and [rel], from where [P] holds, and ends with [Q]. *)

From Stdlib Require Import ZArith Lia.
From stdpp Require Import base numbers option gmap list.
From S2P Require Import Prelude Results VpnPolicy Buffer MasqueFraming SMPParser BCFObject TlsContext SMPConfig SMPStream SMPConnection SMPInvariant.

(** A member of the connection is read or set. *)
Ltac run_get :=
  match goal with
  | H : SMPInvariant.at_ _ _ _ ?w0 ?id ?own ?w ?c |- runs_to (bind (get ?id _) _) _ ?w => apply runs_bind; eapply (at_get _ _ _ w0 id own w c); [exact H|]
  end.

Ltac run_set w' H' :=
  match goal with
  | H : SMPInvariant.at_ ?E ?cfg ?cas ?w0 ?id ?own ?w ?c |- runs_to (bind (put ?id ?f) _) _ ?w =>
      eapply runs_call; [apply (at_put E cfg cas w0 id own w c f H); [split; auto|done|by apply same_no_new]|intros [] w' H'; cbv beta in H']
  | H : SMPInvariant.at_ ?E ?cfg ?cas ?w0 ?id ?own ?w ?c |- runs_to (put ?id ?f) _ ?w =>
      eapply runs_mono; [apply (at_put E cfg cas w0 id own w c f H); [split; auto|done|by apply same_no_new]|intros [] w' H'; cbv beta in H']
  end.

(** Nothing is changed. *)
Ltac stays c := exists c; split; [eassumption|]; split; [eassumption|]; split; [apply rel_refl|].

Section Steps.
Context (E : env) (cfg : Connector.config) (cas : list X509).
Abbreviation at_ := (at_ E cfg cas).
Abbreviation glob := (glob E cfg cas).
Abbreviation local := (local E cfg cas).
Abbreviation body := (body E cfg cas).
Abbreviation St := (St E cfg cas).
Abbreviation trusted := (trusted cas).
Abbreviation does := (does E cfg cas).

Definition step_ok {A} (id : Z) (m : M A) (P : conn -> Prop) (Q : conn -> A -> conn -> Prop) : Prop :=
  forall w0 own w c, at_ w0 id own w c -> St own c -> P c ->
    runs_to m (fun a w' => exists c', at_ w0 id own w' c' /\ St own c' /\ rel c c' /\ Q c a c') w.

(** ** Answers *)

Lemma owned_answer pStub r msg c s :
  s ∈ owned (answer pStub r msg c) <->
  s ∈ owned c \/ pStub = Some s.
Proof.
  unfold answer. destruct (match pStub with Some x => Some x | None => connect_rpc_ c end) as [x|] eqn:Ex.
  2: { destruct pStub; [done|]. split; [by left|]. by intros [?|?]. }
  set (e := OnExecDone x r _). set (c1 := logged e c).
  assert (E1 : answered (log_ c1) = answered (log_ c) ++ [x]) by apply answered_snoc.
  assert (Hw : forall c2, owned (without_timer c2) = owned c2) by (intros c2; unfold without_timer; by destruct (0 <? connect_timer_id_ c2)).
  destruct (bool_decide (connect_rpc_ c1 = Some x)) eqn:Eb.
  - apply bool_decide_eq_true in Eb. change (connect_rpc_ c = Some x) in Eb. rewrite Hw. unfold owned.
    change (log_ (c1 <| connect_rpc_ := None |>)) with (log_ c1). change (connect_rpc_ (c1 <| connect_rpc_ := None |>)) with (@None Z).
    rewrite E1, Eb, app_nil_r. split; [by left|]. intros [?|Hp]; [done|]. rewrite Hp in Ex. injection Ex as ->.
    apply elem_of_app. right. by left.
  - apply bool_decide_eq_false in Eb. change (connect_rpc_ c <> Some x) in Eb. unfold owned.
    change (connect_rpc_ c1) with (connect_rpc_ c). rewrite E1, !elem_of_app, list_elem_of_singleton.
    destruct pStub as [y|]; [|congruence]. injection Ex as ->.
    split; [intros [[? | ->]|?]; auto|]. intros [[?|?]|[= ->]]; auto.
Qed.

Lemma owned_without_timer c : owned (without_timer c) = owned c.
Proof. unfold without_timer. by destruct (0 <? connect_timer_id_ c). Qed.

Lemma timers_without c : timers_ok c -> connect_rpc_ c = None -> timers_ok (without_timer c).
Proof.
  intros [T1 T2 T3 T4 T5] Hr. unfold without_timer. destruct (Z.ltb_spec 0 (connect_timer_id_ c)); [|by split].
  split; cbn; try done.
  - intros t x Ht. rewrite lookup_delete_Some in Ht. by eapply T1, Ht.
  - intros t b Ht. rewrite lookup_delete_Some in Ht. destruct Ht as [Hne Ht]. by apply T4 in Ht.
  - rewrite Hr. by intros [? ?].
Qed.

Lemma body_without c : body c -> connect_rpc_ c = None -> body (without_timer c).
Proof.
  intros [B1 B2 B3 B4 B5 B6 B7 B8] Hr. pose proof (timers_without c B1 Hr) as Ht. unfold without_timer in *.
  destruct (0 <? connect_timer_id_ c); [|by split]. split; try done. destruct B2. by split.
Qed.

Definition fresh_stub (pStub : option Z) (c : conn) : Prop := forall s, pStub = Some s -> s ∉ owned c.

Lemma body_answer pStub r msg c :
  body c -> shut c = false -> fresh_stub pStub c -> (r = BC_R_SUCCESS -> msg <> None -> trusted c) -> body (answer pStub r msg c).
Proof.
  intros Hb Hs Hf Hr. unfold answer. destruct (match pStub with Some x => Some x | None => connect_rpc_ c end) as [x|] eqn:Ex; [|done].
  set (e := OnExecDone x r _). pose proof (lo_stubs _ _ _ _ Hb) as Hnd.
  assert (E1 : answered (log_ (logged e c)) = answered (log_ c) ++ [x]) by apply answered_snoc.
  set (c1 := logged e c) in *.
  assert (Hd : delivers e = true -> trusted c).
  { cbn. destruct msg as [[|b m]|]; [done| |done]. intros H%Z.eqb_eq. by apply Hr. }
  assert (Hpx : proxied c = true -> forall bs, e <> EvUdpSend bs) by done.
  destruct (bool_decide (connect_rpc_ c1 = Some x)) eqn:Eb.
  - apply bool_decide_eq_true in Eb. change (connect_rpc_ c = Some x) in Eb.
    apply body_without; [|done].
    assert (Hc0 : body (c <| connect_rpc_ := None |>)).
    { destruct Hb as [B1 B2 B3 B4 B5 B6 B7 B8]. split; try done.
      - destruct B1. split; try done. by intros [? ?].
      - destruct B2. by split.
      - unfold owned in Hnd. rewrite Eb in Hnd. unfold owned. cbn. rewrite app_nil_r. by apply NoDup_app in Hnd as (? & _). }
    change (c1 <| connect_rpc_ := None |>) with (logged e (c <| connect_rpc_ := None |>)).
    apply body_log; try done; [|intros key st _; by apply stream_ok_logged].
    unfold owned. change (log_ (logged e (c <| connect_rpc_ := None |>))) with (log_ c1). cbn [connect_rpc_].
    change (connect_rpc_ (logged e (c <| connect_rpc_ := None |>))) with (@None Z). rewrite app_nil_r, E1.
    unfold owned in Hnd. by rewrite Eb in Hnd.
  - apply bool_decide_eq_false in Eb. change (connect_rpc_ c <> Some x) in Eb.
    destruct pStub as [y|]; [|congruence]. injection Ex as ->. apply body_log; try done; [|intros key st _; by apply stream_ok_logged].
    unfold owned. fold c1. rewrite E1. change (connect_rpc_ c1) with (connect_rpc_ c). rewrite <- app_assoc. cbn [app].
    pose proof (Hf x eq_refl) as Hx. unfold owned in Hnd, Hx. rewrite elem_of_app in Hx. apply NoDup_app in Hnd as (N1 & N2 & N3).
    apply NoDup_app. split; [done|]. split.
    + intros z Hz [-> | Hz']%elem_of_cons; [tauto|]. by apply (N2 z).
    + apply NoDup_cons. split; [tauto|done].
Qed.

(** What the callbacks that only report leave alone: all but the log, the stub and the timers. *)
Definition core (c : conn) : conn :=
  c <| log_ := [] |> <| connect_rpc_ := None |> <| delay_tasks := ∅ |> <| connect_timer_id_ := 0 |> <| next_task_id := 0 |>.

Lemma core_field {A} (f : conn -> A) c c' : core c' = core c -> (forall x, f x = f (core x)) -> f c' = f c.
Proof. intros H Hf. by rewrite Hf, H, <- Hf. Qed.

Lemma answer_core pStub r msg c : core (answer pStub r msg c) = core c.
Proof.
  unfold answer. destruct (match pStub with Some x => Some x | None => connect_rpc_ c end); [|done].
  case_bool_decide; [|done]. unfold without_timer. by destruct (0 <? _).
Qed.

Lemma answer_stub r msg c : timers_ok c ->
  connect_rpc_ (answer None r msg c) = None /\ (is_Some (connect_rpc_ c) -> connect_timer_id_ (answer None r msg c) = 0).
Proof.
  intros HT. unfold answer. destruct (connect_rpc_ c) as [s|] eqn:Hs; [|split; [done|by intros [? ?]]].
  rewrite bool_decide_eq_true_2 by done. unfold without_timer. cbn.
  destruct (Z.ltb_spec 0 (connect_timer_id_ c)); cbn; [done|]. split; [done|]. intros _. pose proof (tm_connect _ HT). lia.
Qed.

Lemma answer_log pStub r msg c : exists l, log_ (answer pStub r msg c) = log_ c ++ l.
Proof.
  unfold answer. destruct (match pStub with Some x => Some x | None => connect_rpc_ c end) as [x|]; [|exists []; by rewrite app_nil_r].
  case_bool_decide; [unfold without_timer; destruct (0 <? _)|]; by eexists [_].
Qed.

Lemma states_answer pStub r msg c : timers_ok c -> states_ok c -> states_ok (answer pStub r msg c).
Proof.
  intros HT [S1 S2 S3 S4 S5 S6 S7 S8 S9]. pose proof (answer_core pStub r msg c) as Ec.
  pose proof (core_field state_ _ _ Ec ltac:(reflexivity)) as E1. pose proof (core_field new_state_ _ _ Ec ltac:(reflexivity)) as E2.
  pose proof (core_field attached _ _ Ec ltac:(reflexivity)) as E3. pose proof (core_field conn_ _ _ Ec ltac:(reflexivity)) as E4.
  pose proof (core_field udp_socket_ _ _ Ec ltac:(reflexivity)) as E5.
  assert (Hr : connect_rpc_ c = None -> connect_rpc_ (answer pStub r msg c) = None /\ (connect_timer_id_ c = 0 -> connect_timer_id_ (answer pStub r msg c) = 0)).
  { intros Hn. unfold answer. rewrite Hn. destruct pStub as [x|]; [|done].
    rewrite bool_decide_eq_false_2 by (cbn; congruence). done. }
  split; rewrite ?E1, ?E2, ?E3, ?E4, ?E5; try done.
  - intros Hf. destruct (S6 Hf). split; [done|]. by apply Hr.
  - intros Hi. destruct (S7 Hi). split; [by apply Hr|]. by apply Hr.
  - intros Hq e He. destruct (answer_log pStub r msg c) as [l ->]. apply elem_of_app. left. by apply S8.
  - intros Hq He. destruct (answer_log pStub r msg c) as [l ->]. apply elem_of_app. left. by apply S9.
Qed.

Lemma rel_answer r msg c : rel c (answer None r msg c).
Proof.
  pose proof (answer_core None r msg c) as Ec. split.
  - exact (core_field config_ _ _ Ec ltac:(reflexivity)).
  - exact (core_field root_cas_ _ _ Ec ltac:(reflexivity)).
  - exact (core_field user_handler _ _ Ec ltac:(reflexivity)).
  - apply answer_log.
  - by rewrite (core_field new_state_ _ _ Ec ltac:(reflexivity)).
  - intros s. rewrite owned_answer. split; [by left|]. by intros [?|?].
  - unfold stuck. by rewrite (core_field state_ _ _ Ec ltac:(reflexivity)), (core_field new_state_ _ _ Ec ltac:(reflexivity)),
      (core_field engs _ _ Ec ltac:(reflexivity)).
Qed.

Lemma St_answer own pStub r msg c :
  St own c -> fresh_stub pStub c -> (forall s, pStub = Some s -> s ∈ own) -> (r = BC_R_SUCCESS -> msg <> None -> trusted c) ->
  St own (answer pStub r msg c).
Proof.
  intros ([Hs Hb] & Ho & Hsh) Hf Hp Hr. split; [split|split].
  - apply states_answer; [apply Hb|done].
  - by apply body_answer.
  - intros s [?|?]%owned_answer; auto.
  - by rewrite (core_field shut _ _ (answer_core pStub r msg c) ltac:(reflexivity)).
Qed.

(** The result of the connection's own stub is told. *)
Lemma NotifyConnectResult_ok id r msg :
  step_ok id (NotifyConnectResult E id None r msg) (fun c => r = BC_R_SUCCESS -> msg <> None -> trusted c)
    (fun c _ c' => core c' = core c /\ connect_rpc_ c' = None).
Proof.
  intros w0 own w c Hat HSt Hr. eapply runs_mono; [by apply NotifyConnectResult_does|]. intros [] w' H'.
  eexists. split; [done|]. split; [by apply St_answer|]. split; [apply rel_answer|].
  split; [apply answer_core|]. apply answer_stub, HSt.
Qed.

(** ** Timers *)

Lemma St_timers own c c' :
  core c' = core c -> log_ c' = log_ c -> connect_rpc_ c' = connect_rpc_ c -> timers_ok c' ->
  (state_ c = CONN_STATE_INIT -> connect_timer_id_ c' = connect_timer_id_ c) -> St own c -> St own c' /\ rel c c'.
Proof.
  intros Ec El Er Ht Hi ([[S1 S2 S3 S4 S5 S6 S7] Hb] & Ho & Hsh).
  pose proof (core_field state_ _ _ Ec ltac:(reflexivity)) as E1. pose proof (core_field new_state_ _ _ Ec ltac:(reflexivity)) as E2.
  pose proof (core_field attached _ _ Ec ltac:(reflexivity)) as E3. pose proof (core_field conn_ _ _ Ec ltac:(reflexivity)) as E4.
  pose proof (core_field udp_socket_ _ _ Ec ltac:(reflexivity)) as E5. pose proof (core_field config_ _ _ Ec ltac:(reflexivity)) as E6.
  pose proof (core_field root_cas_ _ _ Ec ltac:(reflexivity)) as E7. pose proof (core_field user_handler _ _ Ec ltac:(reflexivity)) as E8.
  pose proof (core_field engs _ _ Ec ltac:(reflexivity)) as E9. pose proof (core_field next_eng _ _ Ec ltac:(reflexivity)) as E10.
  pose proof (core_field webtransport_ _ _ Ec ltac:(reflexivity)) as E11. pose proof (core_field mq _ _ Ec ltac:(reflexivity)) as E12.
  pose proof (core_field shut _ _ Ec ltac:(reflexivity)) as E13. pose proof (core_field raw_streams _ _ Ec ltac:(reflexivity)) as E14.
  assert (Eo : owned c' = owned c) by (unfold owned; by rewrite El, Er).
  assert (Ev : verifies cas c' = verifies cas c) by (unfold verifies; by rewrite E6, E7).
  assert (Ep : proxied c' = proxied c) by (unfold proxied; by rewrite E6, E8).
  split; [split; [split|split]|].
  - split; rewrite ?E1, ?E2, ?E3, ?E4, ?E5, ?Er, ?El; try done. intros Hs. destruct (S7 Hs). split; [done|]. by rewrite Hi.
  - destruct Hb as [B1 [N1 N2 N3 N4 N5 N6] B3 B4 B5 B6 B7 B8]. split; rewrite ?Ev, ?Ep, ?El, ?E8, ?E13, ?Eo; try done.
    + split; unfold verifies; rewrite ?E4, ?E9, ?E10, ?E11, ?E12, ?E6, ?E7, ?El, ?Ep; done.
    + eapply Forall_impl; [exact B5|]. intros e He. destruct e; try done. cbn in *. by rewrite E6, E7.
    + rewrite E14. intros key s Hs. destruct (B7 key s Hs) as [H1 H2]. split; [intros Hv; rewrite El; apply H1; by rewrite <- Ev|].
      unfold stream_ok in *. by rewrite E11, E6, El.
  - intros s. rewrite Eo. apply Ho.
  - congruence.
  - split; try congruence; rewrite ?Eo; try done.
    + exists []. by rewrite app_nil_r.
    + unfold stuck. by rewrite E1, E2, E9.
Qed.

Definition quietly (c : conn) (c' : conn) : Prop :=
  core c' = core c /\ (connect_rpc_ c' = connect_rpc_ c \/ connect_rpc_ c' = None).

Lemma timers_engine c tid e :
  timers_ok c -> 0 < tid -> (forall b, delay_tasks c !! tid <> Some (ConnectTimer, b)) ->
  tid <= next_task_id c \/ tid = next_task_id c + 1 ->
  timers_ok (c <| next_task_id ::= Z.max tid |> <| delay_tasks ::= <[tid := (EngineTimer e, true)]> |>).
Proof.
  intros [T1 T2 T3 T4 T5] H0 Hn Ht.
  split; cbn; try lia.
  - intros t x. destruct (decide (t = tid)) as [->|Hne]; [lia|]. rewrite lookup_insert_ne by done. intros Hx%T1. lia.
  - intros t b. destruct (decide (t = tid)) as [->|Hne]; [by rewrite lookup_insert_eq|]. rewrite lookup_insert_ne by done. apply T4.
  - intros Hs Hm. rewrite lookup_insert_ne; [by apply T5|]. intros ->. by apply (Hn true), T5.
Qed.

Lemma timers_settled own c c' :
  St own c -> timers_ok c' -> core c' = core c -> log_ c' = log_ c -> connect_rpc_ c' = connect_rpc_ c ->
  connect_timer_id_ c' = connect_timer_id_ c -> St own c' /\ rel c c' /\ quietly c c'.
Proof.
  intros HSt Ht Ec El Er Ei. destruct (St_timers own c c' Ec El Er Ht (fun _ => Ei) HSt).
  split; [done|]. split; [done|]. split; [done|by left].
Qed.

Lemma engine_timer_not c tid : engine_timer c tid = true -> forall b, delay_tasks c !! tid <> Some (ConnectTimer, b).
Proof. unfold engine_timer. intros H b Hb. by rewrite Hb in H. Qed.

Lemma ScheduleTask_engine id tid e :
  step_ok id (ScheduleTask id tid (EngineTimer e)) (fun c => engine_timer c tid = true) (fun c _ c' => quietly c c').
Proof.
  intros w0 own w c Hat HSt Hn0. pose proof (engine_timer_not _ _ Hn0) as Hn. unfold ScheduleTask. apply runs_bind. eapply at_get; [done|].
  pose proof (lo_timers _ _ _ _ (lo_body _ _ _ _ (proj1 HSt))) as HT.
  destruct (delay_tasks c !! tid) as [x|] eqn:Hx.
  - eapply runs_call; [apply at_put; [done|split; auto|done|by apply same_no_new]|]. intros [] w1 H1. apply runs_ret.
    eexists. split; [exact H1|]. assert (H2 : timers_ok (c <| delay_tasks ::= <[tid := (EngineTimer e, true)]> |>)).
    { pose proof (tm_range _ HT tid x Hx) as Hr. pose proof (timers_engine c tid e HT ltac:(lia) ltac:(by rewrite Hx) ltac:(lia)) as [].
      cbn in *. replace (tid `max` next_task_id c)%Z with (next_task_id c) in * by lia. by split. }
    by eapply timers_settled.
  - cbv zeta. run_set w1 H1. apply runs_ret. eexists. split; [exact H1|].
    assert (Hnone : delay_tasks c !! (next_task_id c + 1) = None).
    { destruct (delay_tasks c !! (next_task_id c + 1)) as [y|] eqn:Hy; [|done]. apply (tm_range _ HT) in Hy. lia. }
    assert (H2 : timers_ok (c <| next_task_id := next_task_id c + 1 |> <| delay_tasks ::= <[next_task_id c + 1 := (EngineTimer e, true)]> |>)).
    { pose proof (tm_next _ HT). pose proof (timers_engine c (next_task_id c + 1) e HT ltac:(lia) ltac:(by rewrite Hnone) ltac:(lia)) as [].
      cbn in *. replace ((next_task_id c + 1) `max` next_task_id c)%Z with (next_task_id c + 1) in * by lia. by split. }
    by eapply timers_settled.
Qed.

Lemma UnscheduleTask_engine id tid b :
  step_ok id (UnscheduleTask id tid b) (fun c => engine_timer c tid = true) (fun c _ c' => quietly c c').
Proof.
  intros w0 own w c Hat HSt Hn0. pose proof (engine_timer_not _ _ Hn0) as Hn. unfold UnscheduleTask.
  eapply runs_mono; [apply at_put; [done|split; auto|done|by apply same_no_new]|]. intros [] w1 H1. eexists. split; [exact H1|].
  pose proof (lo_timers _ _ _ _ (lo_body _ _ _ _ (proj1 HSt))) as [T1 T2 T3 T4 T5].
  match type of H1 with at_ _ _ _ _ ?c' => assert (H2 : timers_ok c') end.
  { destruct b; split; cbn; try done.
    - intros t x. rewrite lookup_alter_Some. intros [(-> & y & Hy & ->)|[_ Hx]]; by eapply T1.
    - intros t b. rewrite lookup_alter_Some. intros [(-> & [k b'] & Hy & [= <- ->])|[_ Hx]]; by eapply T4.
    - intros Hs Hm. rewrite lookup_alter_ne; [by apply T5|]. intros ->. by apply (Hn true), T5.
    - intros t x [_ Hx]%lookup_delete_Some. by eapply T1.
    - intros t x [_ Hx]%lookup_delete_Some. by eapply T4.
    - intros Hs Hm. rewrite lookup_delete_ne; [by apply T5|]. intros ->. by apply (Hn true), T5. }
  by eapply timers_settled.
Qed.

(** ** Callbacks that only report *)

Lemma step_call {A B} id (m : M A) (k : A -> M B) P Q R w0 own w c :
  step_ok id m P Q -> at_ w0 id own w c -> St own c -> P c ->
  (forall a w' c', at_ w0 id own w' c' -> St own c' -> rel c c' -> Q c a c' -> runs_to (k a) R w') ->
  runs_to (bind m k) R w.
Proof.
  intros Hm Hat HSt HP Hk. eapply runs_call; [by eapply Hm|]. intros a w' (c' & H1 & H2 & H3 & H4). by eapply Hk.
Qed.

Lemma step_weaken {A} id (m : M A) (P P' : conn -> Prop) (Q Q' : conn -> A -> conn -> Prop) :
  step_ok id m P Q -> (forall own c, St own c -> P' c -> P c) ->
  (forall c a c', P' c -> rel c c' -> Q c a c' -> Q' c a c') -> step_ok id m P' Q'.
Proof.
  intros Hm HP HQ w0 own w c Hat HSt Hc. eapply runs_mono; [eapply Hm; eauto|]. intros a w' (c' & H1 & H2 & H3 & H4).
  exists c'. eauto 6.
Qed.

Lemma quietly_refl c : quietly c c.
Proof. split; [done|by left]. Qed.

Lemma quietly_trans c1 c2 c3 : quietly c1 c2 -> quietly c2 c3 -> quietly c1 c3.
Proof. intros [A1 A2] [B1 B2]. split; [congruence|]. destruct B2 as [->| ->]; auto. Qed.

Lemma step_each {A} id (f : A -> M unit) P (l : list A) :
  (forall x, step_ok id (f x) P (fun c _ c' => quietly c c')) ->
  (forall c c', quietly c c' -> P c -> P c') ->
  step_ok id (each f l) P (fun c _ c' => quietly c c').
Proof.
  intros Hf HP. induction l as [|x l IH]; intros w0 own w c Hat HSt Hc; cbn [each].
  { apply runs_ret. stays c; apply quietly_refl. }
  eapply step_call; [apply Hf|done|done|done|]. intros [] w1 c1 H1 S1 R1 Q1.
  eapply runs_mono; [eapply IH; eauto|]. intros [] w2 (c2 & H2 & S2 & R2 & Q2). exists c2.
  split; [done|]. split; [done|]. split; [by eapply rel_trans|by eapply quietly_trans].
Qed.

Lemma St_udp own c bs : St own c -> proxied c = false -> St own (logged (EvUdpSend bs) c) /\ rel c (logged (EvUdpSend bs) c).
Proof.
  intros ([Hs Hb] & Ho & Hsh) Hp.
  assert (Eo : owned (logged (EvUdpSend bs) c) = owned c).
  { change (answered (log_ c ++ [EvUdpSend bs]) ++ match connect_rpc_ c with Some s => [s] | None => [] end = owned c).
    by rewrite answered_snoc, app_nil_r. }
  split; [split; [split|split]|].
  - by apply states_log.
  - apply body_log; try done; [by rewrite Eo; apply Hb|intros key st _; by apply stream_ok_logged|by rewrite Hp].
  - intros s. rewrite Eo. apply Ho.
  - done.
  - apply rel_log. by rewrite Eo.
Qed.

(** A connection with an engine connection is not proxied by its own socket. *)
Lemma not_own_socket w0 id own w c e g :
  at_ w0 id own w c -> St own c -> engs c !! e = Some g -> masque_role_ (mq c) <> MASQUE_INNER -> proxied c = false.
Proof.
  intros Hat ([_ Hb] & _) Hg Hr. destruct (proxied c) eqn:Hp; [|done]. exfalso.
  pose proof (en_role _ _ (lo_engines _ _ _ _ Hb) e g Hg Hp) as Hn.
  pose proof (li_user _ _ _ (gl_link _ _ _ _ _ _ (at_glob _ _ _ _ _ _ _ _ Hat) id c (at_obj _ _ _ _ _ _ _ _ Hat))) as Hu.
  unfold proxied in Hp. apply andb_prop in Hp as [Hp _]. apply Hu in Hp. by destruct (masque_role_ (mq c)).
Qed.

Lemma MasqueSendDatagram_ok w0 id own w c t ct bs :
  at_ w0 id own w c -> objs w !! t = Some ct ->
  runs_to (MasqueSendDatagram t bs) (fun _ w' => at_ w0 id own w' c) w.
Proof.
  intros Hat Ht. unfold MasqueSendDatagram. apply runs_bind. eapply runs_get; [done|].
  destruct (_ || _); [by apply runs_ret|]. destruct (EncodeDatagram _ _ _ _) as [[|] wire]; [|by apply runs_ret].
  by eapply at_post.
Qed.

Lemma WritePacket_ok id bs :
  step_ok id (WritePacket id bs) (fun c => exists e g, engs c !! e = Some g) (fun c _ c' => quietly c c').
Proof.
  intros w0 own w c Hat HSt (e & g & Hg). unfold WritePacket. apply runs_bind. eapply at_get; [done|].
  destruct (state_ c <=? CONN_STATE_CLOSING_SOCK).
  { apply runs_ret. stays c; apply quietly_refl. }
  assert (Hown : masque_role_ (mq c) <> MASQUE_INNER ->
    runs_to (when (udp_socket_ c) (log id (EvUdpSend bs)))
      (fun _ w' => exists c', at_ w0 id own w' c' /\ St own c' /\ rel c c' /\ quietly c c') w).
  { intros Hr. destruct (udp_socket_ c); cbn [when].
    - eapply runs_mono; [by apply at_log|]. intros [] w1 H1. eexists. split; [done|].
      destruct (St_udp own c bs HSt) as [? ?]; [by eapply not_own_socket|]. split; [done|]. split; [done|]. split; [done|by left].
    - apply runs_ret. stays c; apply quietly_refl. }
  destruct (masque_role_ (mq c)) eqn:Hr; [by apply Hown| |by apply Hown].
  destruct (masque_tunnel_ (mq c)) as [t|] eqn:Ht; [|apply runs_ret; stays c; apply quietly_refl].
  destruct (li_tunnel _ _ _ (gl_link _ _ _ _ _ _ (at_glob _ _ _ _ _ _ _ _ Hat) id c (at_obj _ _ _ _ _ _ _ _ Hat)) t Ht) as (ct & Hct & _).
  eapply runs_mono; [by eapply MasqueSendDatagram_ok|]. intros [] w1 H1.
  stays c; apply quietly_refl.
Qed.

Lemma own_queue w0 id own w c t :
  at_ w0 id own w c -> benign w t -> runs_to (PostTask id t) (fun _ w' => at_ w0 id own w' c) w.
Proof. intros Hat Ht. eapply at_post; [done|apply Hat|done]. Qed.

Lemma leaf_cb_ok id e cb :
  step_ok id (leaf_cb E id e cb) (fun c => exists e g, engs c !! e = Some g) (fun c _ c' => quietly c c').
Proof.
  intros w0 own w c Hat HSt Hg.
  assert (Hstay : forall w1, at_ w0 id own w1 c ->
    exists c', at_ w0 id own w1 c' /\ St own c' /\ rel c c' /\ quietly c c') by (intros w1 H1; stays c; apply quietly_refl).
  destruct cb as [bs| |tid|tid b| | | | | | | | | | | | |]; cbn [leaf_cb]; try (apply runs_ret; by apply Hstay).
  - by eapply WritePacket_ok.
  - eapply step_call; [apply ScheduleTask_engine|done|done| |intros; apply runs_ret; by eauto 6].
    unfold engine_timer. destruct (delay_tasks c !! 0) as [x|] eqn:Hx; [|done].
    apply (tm_range _ (lo_timers _ _ _ _ (lo_body _ _ _ _ (proj1 HSt)))) in Hx. lia.
  - apply runs_bind. eapply at_get; [done|]. destruct (engine_timer c tid) eqn:Ht; cbn [when]; [|apply runs_ret; by apply Hstay].
    eapply step_call; [apply ScheduleTask_engine|done|done|done|intros; apply runs_ret; by eauto 6].
  - apply runs_bind. eapply at_get; [done|]. destruct (engine_timer c tid) eqn:Ht; cbn [when]; [|apply runs_ret; by apply Hstay].
    by eapply UnscheduleTask_engine.
  - eapply runs_mono; [by apply own_queue|]. intros [] w1 H1. by apply Hstay.
  - apply runs_bind. eapply at_get; [done|]. destruct (_ && _); cbn [when]; [|apply runs_ret; by apply Hstay].
    eapply runs_mono; [eapply NotifyConnectResult_ok; [done|done|by intros]|].
    intros [] w1 (c1 & H1 & H2 & H3 & H4 & H5). exists c1. split; [done|]. split; [done|]. split; [done|]. split; [done|by right].
Qed.

Lemma quietly_engine c c' : quietly c c' -> (exists e g, engs c !! e = Some g) -> exists e g, engs c' !! e = Some g.
Proof. intros [Hc _]. by rewrite (core_field engs _ _ Hc ltac:(reflexivity)). Qed.

Lemma nested_call_ok id e : step_ok id (nested_call E id e) (fun _ => True) (fun c _ c' => quietly c c').
Proof.
  intros w0 own w c Hat HSt _. unfold nested_call. eapply runs_call; [by eapply at_ask|]. intros cbs w1 H1.
  eapply (step_each id _ (fun _ => True)); [|by intros|done|done|exact I]. clear. intros cb w0 own w c Hat HSt _.
  apply runs_bind. eapply at_get; [done|]. destruct (engs c !! e) as [g|] eqn:Hg; [|apply runs_ret; stays c; apply quietly_refl].
  destruct (cb_allowed Nested g cb); cbn [when]; [|apply runs_ret; stays c; apply quietly_refl]. eapply leaf_cb_ok; eauto.
Qed.

(** ** Closing *)

Lemma put_erased id f (own : list Z) w0 w c :
  at_ w0 id own w c -> St own c -> same_links c (f c) -> masque_tunnel_closing_ (mq (f c)) = masque_tunnel_closing_ (mq c) ->
  erase (f c) = erase c ->
  runs_to (put id f) (fun _ w' => exists c', at_ w0 id own w' c' /\ St own c' /\ rel c c' /\ c' = f c) w.
Proof.
  intros Hat HSt Hl Hm He. eapply runs_mono; [apply at_put; [done|done|by rewrite Hm|apply same_no_new, (f_equal raw_streams He)]|]. intros [] w1 H1. exists (f c).
  destruct (St_same _ _ _ own c (f c) He HSt). done.
Qed.

Lemma timers_closing c c' :
  timers_ok c -> new_state_ c' = CONN_STATE_FREED -> delay_tasks c' = ∅ \/ delay_tasks c' = delete (connect_timer_id_ c) (delay_tasks c) ->
  next_task_id c' = next_task_id c -> 0 <= connect_timer_id_ c' -> timers_ok c'.
Proof.
  intros [T1 T2 T3 T4 T5] Hn Hd Hi Ht. split; rewrite ?Hi, ?Hn; try done.
  - intros t x. destruct Hd as [->| ->]; [by rewrite lookup_empty|]. intros [_ Hx]%lookup_delete_Some. by eapply T1.
  - intros t b. destruct Hd as [->| ->]; [by rewrite lookup_empty|]. intros [Hne Hx]%lookup_delete_Some. by apply T4 in Hx.
Qed.

Lemma St_without own c :
  St own c -> new_state_ c = CONN_STATE_FREED -> St own (without_timer c) /\ rel c (without_timer c).
Proof.
  intros HSt Hn. pose proof HSt as [[Hs [HT _ _ _ _ _ _ _]] _]. unfold without_timer.
  destruct (Z.ltb_spec 0 (connect_timer_id_ c)) as [Hlt|]; [|split; [done|apply rel_refl]].
  apply St_timers; try done.
  - apply (timers_closing c); try done. by right.
  - intros Hi. destruct (st_init _ Hs Hi). lia.
Qed.

Lemma St_no_timers own c :
  St own c -> new_state_ c = CONN_STATE_FREED ->
  St own (c <| delay_tasks := ∅ |>) /\ rel c (c <| delay_tasks := ∅ |>).
Proof.
  intros HSt Hn. pose proof HSt as [[Hs [HT _ _ _ _ _ _ _]] _]. apply St_timers; try done.
  apply (timers_closing c); try done; [by left|]. apply HT.
Qed.

Lemma St_state own c s :
  St own c -> states_ok (c <| state_ := s |>) -> (stuck c -> s = CONN_STATE_INIT) ->
  St own (c <| state_ := s |>) /\ rel c (c <| state_ := s |>).
Proof.
  intros ([Hs Hb] & Ho & Hsh) Hs' Hst. split; [split; [split; [done|]|done]|].
  - destruct Hb as [[] [] ? ? ? ? ? ?]. split; try done; by split.
  - split; try done; [exists []; by rewrite app_nil_r|]. intros Hk. pose proof (Hst Hk) as ->. by destruct Hk as (_ & ? & ?).
Qed.

(** What closing leaves alone. *)
Definition outer (c : conn) : conn :=
  (core c) <| state_ := 0 |> <| keep_working_ := true |> <| attached := true |> <| mq ::= fun m => m <| masque_tunnel_closing_ := true |> |>.

Lemma core_outer c c' : core c' = core c -> outer c' = outer c.
Proof. unfold outer. by intros H; rewrite H. Qed.

Lemma outer_field {A} (f : conn -> A) c c' : outer c' = outer c -> (forall x, f x = f (outer x)) -> f c' = f c.
Proof. intros H Hf. by rewrite Hf, H, <- Hf. Qed.

Lemma outer_without c : outer (without_timer c) = outer c.
Proof. unfold without_timer. by destruct (0 <? _). Qed.

(** The first stage: the engine is asked to close. *)
Lemma CloseCheck_quic_ok id :
  step_ok id (CloseCheck_quic E id) (fun c => new_state_ c = CONN_STATE_FREED)
    (fun c _ c' => outer c' = outer c /\ attached c' = attached c /\ mq c' = mq c /\
       if CONN_STATE_INIT <? state_ c
       then state_ c' = CONN_STATE_CLOSING_QUIC /\ (forall e, conn_ c = Some e -> EvEngineClose e ∈ log_ c')
       else c' = c).
Proof.
  intros w0 own w c Hat HSt Hn. unfold CloseCheck_quic. run_get.
  destruct (CONN_STATE_INIT <? state_ c) eqn:Ei; cbn [when]; [|apply runs_ret; by stays c].
  set (c1 := c <| keep_working_ := false |>).
  eapply runs_call.
  { apply (at_put E cfg cas w0 id own w c (fun c => c <| keep_working_ := false |>)); [done|split; auto|done|by apply same_no_new]. }
  intros [] w1 H1. cbv beta in H1. fold c1 in H1.
  destruct (St_same E cfg cas own c c1 eq_refl HSt) as [S1 R1].
  eapply (runs_call _ _ (fun _ w' => exists c2, at_ w0 id own w' c2 /\ St own c2 /\ rel c1 c2 /\ core c2 = core c1 /\
    forall e, conn_ c = Some e -> EvEngineClose e ∈ log_ c2)).
  { destruct (conn_ c) as [e|] eqn:He.
    - eapply runs_call; [by apply at_log|]. intros [] w2 H2.
      destruct (St_quiet E cfg cas own c1 (EvEngineClose e) I ltac:(done) S1) as [S2 R2].
      eapply runs_mono; [eapply nested_call_ok; [done|done|done]|]. intros [] w3 (c3 & H3 & S3 & R3 & Q3 & _).
      exists c3. split; [done|]. split; [done|]. split; [by eapply rel_trans|]. split; [by rewrite Q3|].
      intros e' [= <-]. destruct (re_log _ _ R3) as [l ->]. apply elem_of_app. left. apply elem_of_app. right. by left.
    - apply runs_ret. exists c1. split; [done|]. split; [done|]. split; [apply rel_refl|]. done. }
  intros [] w2 (c2 & H2 & S2 & R2 & Q2 & L2).
  eapply runs_call; [by apply UnscheduleConnect_does|]. intros [] w3 H3.
  assert (Hn2 : new_state_ c2 = CONN_STATE_FREED) by by rewrite (core_field new_state_ _ _ Q2 ltac:(reflexivity)).
  destruct (St_without own c2 S2 Hn2) as [S3 R3]. set (c3 := without_timer c2) in *.
  run_set w4 H4.
  assert (E3 : outer c3 = outer c1) by (unfold c3; rewrite outer_without; by apply core_outer).
  assert (E4 : core c3 = core c1) by (unfold c3, without_timer; by destruct (0 <? _); rewrite <- Q2).
  pose proof (core_field new_state_ _ _ E4 ltac:(reflexivity)) as F1. pose proof (core_field attached _ _ E4 ltac:(reflexivity)) as F2.
  pose proof (core_field state_ _ _ E4 ltac:(reflexivity)) as F3. pose proof (core_field mq _ _ E4 ltac:(reflexivity)) as F4.
  change (state_ c1) with (state_ c) in F3. change (attached c1) with (attached c) in F2. change (new_state_ c1) with (new_state_ c) in F1.
  destruct (St_state own c3 CONN_STATE_CLOSING_QUIC S3) as [S4 R4].
  { destruct S3 as [[[X1 X2 X3 X4 X5 X6 X7] _] _]. split; cbn; try done.
    - intros _. congruence.
    - rewrite X4, F3. unfold CONN_STATE_INIT, CONN_STATE_FREED in *. by rewrite (proj2 (Z.eqb_neq _ _)) by lia.
    - intros _ e He. destruct (re_log _ _ R3) as [l Hl]. change (EvEngineClose e ∈ log_ c3). rewrite Hl. apply elem_of_app. left.
      apply L2. pose proof (core_field conn_ _ _ E4 ltac:(reflexivity)) as F5. change (conn_ c3 = conn_ c) in F5. congruence. }
  { intros (Hi & _). unfold CONN_STATE_INIT in *. lia. }
  eexists. split; [exact H4|]. split; [done|]. split; [eapply rel_trans; [exact R1|eapply rel_trans; [exact R2|by eapply rel_trans]]|].
  split; [exact E3|]. split; [exact F2|]. split; [exact F4|]. split; [done|].
  intros e He. destruct (re_log _ _ R3) as [l Hl]. change (EvEngineClose e ∈ log_ c3). rewrite Hl. apply elem_of_app. left. by apply L2.
Qed.

(** The second: the timers go and the socket is asked to close. *)
Lemma CloseCheck_sock_ok id :
  step_ok id (CloseCheck_sock id) (fun c => new_state_ c = CONN_STATE_FREED)
    (fun c _ c' => outer c' = outer c /\ attached c' = attached c /\ mq c' = mq c /\
       if (state_ c =? CONN_STATE_CLOSING_QUIC) && bool_decide (conn_ c = None)
       then state_ c' = CONN_STATE_CLOSING_SOCK /\ (udp_socket_ c = true -> EvUdpClose ∈ log_ c')
       else c' = c).
Proof.
  intros w0 own w c Hat HSt Hn. unfold CloseCheck_sock. run_get.
  destruct (_ && _) eqn:Eb; cbn [when]; [|apply runs_ret; by stays c].
  apply andb_prop in Eb as [Es%Z.eqb_eq Ec%bool_decide_eq_true].
  eapply runs_call; [by apply UnscheduleAllTasks_does|]. intros [] w1 H1. cbv beta in H1.
  destruct (St_no_timers own c HSt Hn) as [S1 R1]. set (c1 := c <| delay_tasks := ∅ |>) in *.
  eapply (runs_call _ _ (fun _ w' => exists c2, at_ w0 id own w' c2 /\ St own c2 /\ rel c1 c2 /\ core c2 = core c1 /\
    (udp_socket_ c = true -> EvUdpClose ∈ log_ c2))).
  { destruct (udp_socket_ c) eqn:Eu; cbn [when].
    - eapply runs_mono; [by apply at_log|]. intros [] w2 H2.
      destruct (St_quiet E cfg cas own c1 EvUdpClose I ltac:(done) S1) as [S2 R2].
      exists (logged EvUdpClose c1). split; [done|]. split; [done|]. split; [done|]. split; [done|].
      intros _. apply elem_of_app. right. by left.
    - apply runs_ret. exists c1. split; [done|]. split; [done|]. split; [apply rel_refl|done]. }
  intros [] w2 (c2 & H2 & S2 & R2 & Q2 & L2). run_set w3 H3.
  pose proof (core_field attached _ _ Q2 ltac:(reflexivity)) as F2. pose proof (core_field state_ _ _ Q2 ltac:(reflexivity)) as F3.
  pose proof (core_field conn_ _ _ Q2 ltac:(reflexivity)) as F4. pose proof (core_field new_state_ _ _ Q2 ltac:(reflexivity)) as F5.
  change (state_ c1) with (state_ c) in F3. change (conn_ c1) with (conn_ c) in F4. change (new_state_ c1) with (new_state_ c) in F5.
  destruct (St_state own c2 CONN_STATE_CLOSING_SOCK S2) as [S3 R3].
  { destruct S2 as [[[X1 X2 X3 X4 X5 X6 X7] _] _]. split; cbn; try done.
    - intros _. congruence.
    - rewrite X4, F3, Es. done.
    - intros _. congruence.
    - intros _ Hu. change (EvUdpClose ∈ log_ c2). apply L2.
      change (udp_socket_ c1 = true). by rewrite <- (core_field udp_socket_ _ _ Q2 ltac:(reflexivity)). }
  { intros (Hi & _). rewrite F3, Es in Hi. done. }
  eexists. split; [exact H3|]. split; [done|]. split; [eapply rel_trans; [exact R1|by eapply rel_trans]|].
  split; [exact (core_outer _ _ Q2)|]. split; [exact F2|]. split; [exact (core_field mq _ _ Q2 ltac:(reflexivity))|]. done.
Qed.

Lemma tunnel_of w0 id own w c t :
  at_ w0 id own w c -> masque_tunnel_ (mq c) = Some t ->
  exists ct, objs w !! t = Some ct /\ t <> id /\ masque_role_ (mq ct) = MASQUE_TUNNEL.
Proof.
  intros [Hg Ho _ _] Ht. pose proof (gl_link _ _ _ _ _ _ Hg id c Ho) as L.
  destruct (li_tunnel _ _ _ L t Ht) as (ct & G1 & G2 & _). exists ct. split; [done|]. split; [|done].
  intros ->. rewrite Ho in G1. injection G1 as <-. rewrite (li_role _ _ _ L) in G2 by eauto. done.
Qed.

(** The tunnel is told to close: the mark and the task together. *)
Lemma tell_tunnel_ok w0 id own w c t :
  at_ w0 id own w c -> masque_tunnel_ (mq c) = Some t ->
  runs_to (put_mq id (fun m => m <| masque_tunnel_closing_ := true |>);; post_working t TClose)
    (fun _ w' => at_ w0 id own w' (c <| mq ::= fun m => m <| masque_tunnel_closing_ := true |> |>)) w.
Proof.
  intros Hat Ht. destruct (tunnel_of _ _ _ _ _ _ Hat Ht) as (ct & Hct & Hne & _).
  set (f := fun c : conn => c <| mq ::= fun m => m <| masque_tunnel_closing_ := true |> |>).
  set (w1 := if keep_working_ ct then post t TClose w else w).
  assert (H1 : at_ w0 id own w1 c).
  { unfold w1. destruct (keep_working_ ct); [|done]. eapply at_keep; [done| |by apply kept_same]. by apply glob_post, Hat. }
  assert (Htold : told_to_close ct (queue w1 t)).
  { unfold w1. destruct (keep_working_ ct) eqn:Ek.
    - right. rewrite queue_post, decide_True by done. apply elem_of_app. right. by left.
    - left. exact (li_working _ _ _ (gl_link _ _ _ _ _ _ (at_glob _ _ _ _ _ _ _ _ Hat) t ct Hct) Ek). }
  assert (H2 : runs_to (put id f) (fun _ w' => at_ w0 id own w' (f c)) w1).
  { apply at_update; [done|split; auto| |intros key s a; apply (li_packets _ _ _ (gl_link _ _ _ _ _ _ (at_glob _ _ _ _ _ _ _ _ H1) id c (at_obj _ _ _ _ _ _ _ _ H1)))]. intros _. split; [apply (li_role _ _ _ (gl_link _ _ _ _ _ _ (at_glob _ _ _ _ _ _ _ _ H1) id c (at_obj _ _ _ _ _ _ _ _ H1))); cbn; rewrite Ht; eauto|].
    intros t' ct' Ht' Hct'. change (masque_tunnel_ (mq (f c))) with (masque_tunnel_ (mq c)) in Ht'.
    rewrite Ht in Ht'. injection Ht' as <-.
    assert (Hsame : objs w1 !! t = Some ct) by (unfold w1; by destruct (keep_working_ ct)). rewrite Hct' in Hsame. by injection Hsame as ->. }
  apply runs_bind. unfold put_mq. fold f. apply runs_puts. unfold post_working. apply runs_bind.
  eapply (runs_get _ _ _ _ ct). { cbn. by rewrite lookup_alter_ne. }
  unfold w1 in H2. destruct (keep_working_ ct); cbn [when]; [|exact H2].
  unfold PostTask. apply runs_bind. eapply (runs_get _ _ _ _ ct). { cbn. by rewrite lookup_alter_ne. }
  apply runs_puts. exact H2.
Qed.

(** The last: the tunnel first; then the connection is answered and detached. *)
Lemma CloseCheck_free_ok id :
  step_ok id (CloseCheck_free E id) (fun c => new_state_ c = CONN_STATE_FREED)
    (fun c _ c' => outer c' = outer c /\
       if (state_ c =? CONN_STATE_CLOSING_SOCK) && negb (udp_socket_ c)
       then state_ c' = CONN_STATE_FREED \/ waits_tunnel c'
       else c' = c).
Proof.
  intros w0 own w c Hat HSt Hn. unfold CloseCheck_free. run_get.
  destruct (_ && _) eqn:Eb; [|apply runs_ret; by stays c].
  apply andb_prop in Eb as [Es%Z.eqb_eq Eu%negb_true_iff].
  destruct (masque_tunnel_ (mq c)) as [t|] eqn:Ht.
  - assert (Hr : masque_role_ (mq c) = MASQUE_INNER).
    { apply (li_role _ _ _ (gl_link _ _ _ _ _ _ (at_glob _ _ _ _ _ _ _ _ Hat) id c (at_obj _ _ _ _ _ _ _ _ Hat))). eauto. }
    rewrite Hr. destruct (masque_tunnel_closing_ (mq c)) eqn:Hcl; cbn [negb when].
    + apply runs_ret. stays c. split; [done|]. right. unfold waits_tunnel. rewrite Ht. eauto.
    + eapply runs_mono; [by eapply tell_tunnel_ok|]. intros [] w1 H1. eexists. split; [exact H1|].
      match type of H1 with SMPInvariant.at_ _ _ _ _ _ _ _ ?c' => destruct (St_same E cfg cas own c c' eq_refl HSt) as [S1 R1] end.
      split; [done|]. split; [done|]. split; [done|]. right. unfold waits_tunnel. cbn. rewrite Ht. eauto.
  - assert (Hgo : runs_to (NotifyConnectResult E id None (close_status_ c) None;;
        put id (fun c => c <| delay_tasks := ∅ |> <| attached := false |>);;
        put id (fun c => c <| state_ := CONN_STATE_FREED |>))
      (fun _ w' => exists c', at_ w0 id own w' c' /\ St own c' /\ rel c c' /\ outer c' = outer c /\
        (state_ c' = CONN_STATE_FREED \/ waits_tunnel c')) w); [|by destruct (masque_role_ (mq c))].
    eapply step_call; [apply NotifyConnectResult_ok|done|done|by intros ? []|]. intros [] w1 c1 H1 S1 R1 [Q1 Q1'].
    pose proof (core_field state_ _ _ Q1 ltac:(reflexivity)) as F1. pose proof (core_field mq _ _ Q1 ltac:(reflexivity)) as F2.
    pose proof (core_field udp_socket_ _ _ Q1 ltac:(reflexivity)) as F3. pose proof (core_field new_state_ _ _ Q1 ltac:(reflexivity)) as F4.
    eapply runs_call; [apply (at_put E cfg cas w0 id own w1 c1 (fun c => c <| delay_tasks := ∅ |> <| attached := false |>) H1); [|done|by apply same_no_new]|].
    { split; auto. right. cbn. by rewrite F2. }
    intros [] w2 H2. cbv beta in H2. run_set w3 H3. eexists. split; [exact H3|].
    destruct (St_no_timers own c1 S1 ltac:(congruence)) as [S2 R2]. set (c2 := c1 <| delay_tasks := ∅ |>) in *.
    split; [|split; [|split; [exact (core_outer _ _ Q1)|by left]]].
    + destruct S2 as ([[X1 X2 X3 X4 X5 X6 X7] Hb] & Ho & Hsh). split; [split|split; [done|done]].
      * split; cbn; try done; [intros _; congruence|intros _; apply X5; change (state_ c1 <= CONN_STATE_CLOSING_SOCK); rewrite F1, Es; lia|intros _; split; congruence].
      * destruct Hb as [[] [] ? ? ? ? ? ?]. split; try done; by split.
    + eapply rel_trans; [exact R1|]. destruct R2. split; try done. intros (Hi & _). rewrite F1, Es in Hi. done.
Qed.

(** [_CloseCheck]: nothing is done while the connection works; otherwise it closes as far as
    it can, and is at rest. *)
Lemma CloseCheck_ok id :
  step_ok id (CloseCheck E id) (fun _ => True)
    (fun c b c' => outer c' = outer c /\
       if b : bool then
         new_state_ c = CONN_STATE_FREED /\ rest c' /\ state_ c' <= CONN_STATE_INIT /\
         (state_ c <= CONN_STATE_INIT -> state_ c' <= state_ c) /\ (state_ c = CONN_STATE_INIT -> c' = c)
       else c' = c /\ new_state_ c = CONN_STATE_MAX /\ CONN_STATE_INIT <= state_ c).
Proof.
  intros w0 own w c Hat HSt _. unfold CloseCheck. run_get. pose proof HSt as [[[X1 X2 X3 X4 X5 X6 X7] _] _].
  destruct (_ && _) eqn:Eb.
  { apply runs_ret. stays c. split; [done|]. split; [done|].
    destruct X2 as [X2|X2]; [unfold CONN_STATE_FREED in *; lia|]. split; [done|].
    destruct (Z.ltb_spec (state_ c) CONN_STATE_INIT) as [Hlt|]; [|done]. rewrite (X3 Hlt) in X2. done. }
  assert (Hn : new_state_ c = CONN_STATE_FREED).
  { destruct X2 as [?|X2]; [done|]. rewrite X2 in Eb. unfold CONN_STATE_FREED, CONN_STATE_MAX in *. apply X3. unfold CONN_STATE_INIT. lia. }
  eapply step_call; [apply CloseCheck_quic_ok|done|done|done|]. intros [] w1 c1 H1 S1 R1 (O1 & A1 & M1 & Q1).
  eapply step_call; [apply CloseCheck_sock_ok|done|done|by apply (re_new _ _ R1)|]. intros [] w2 c2 H2 S2 R2 (O2 & A2 & M2 & Q2).
  eapply step_call; [apply CloseCheck_free_ok|done|done|by apply (re_new _ _ R2), (re_new _ _ R1)|].
  intros [] w3 c3 H3 S3 R3 (O3 & Q3). apply runs_ret. exists c3. split; [done|]. split; [done|].
  split; [eapply rel_trans; [exact R1|by eapply rel_trans]|]. split; [congruence|]. split; [done|].
  pose proof (outer_field conn_ _ _ O1 ltac:(reflexivity)) as C1. pose proof (outer_field udp_socket_ _ _ O1 ltac:(reflexivity)) as U1.
  pose proof (outer_field udp_socket_ _ _ O2 ltac:(reflexivity)) as U2.
  destruct (Z.ltb_spec CONN_STATE_INIT (state_ c)) as [Hi|Hi].
  - destruct Q1 as [Hs1 _]. rewrite Hs1, Z.eqb_refl in Q2. cbn [andb] in Q2.
    assert (Hge : ~ state_ c <= CONN_STATE_INIT) by lia.
    assert (Hrest : rest c3 /\ state_ c3 <= CONN_STATE_INIT); [|destruct Hrest; split; [done|]; split; [done|]; split; [done|]; intros; lia].
    case_bool_decide as Hc.
    + destruct Q2 as [Hs2 _]. rewrite Hs2, Z.eqb_refl in Q3. cbn [andb] in Q3. destruct (udp_socket_ c2) eqn:Hu; cbn [negb] in Q3.
      * rewrite Q3. split; [intros _ _ _; right; left; done|]. by rewrite Hs2.
      * destruct Q3 as [Q3|Q3]; [split; [intros _ _ ?; done|by rewrite Q3]|]. split; [intros _ _ _; by right; right|]. by rewrite (proj1 Q3).
    + rewrite Q2 in *. rewrite Hs1 in Q3. cbn [andb] in Q3. rewrite Q3. split; [|by rewrite Hs1]. intros _ _ _. left. split; [done|].
      by destruct (conn_ c1); [eauto|].
  - rewrite Q1 in *. destruct (Z.eqb_spec (state_ c) CONN_STATE_CLOSING_QUIC) as [Hq|Hq]; cbn [andb] in Q2.
    + assert (Hrest : rest c3 /\ state_ c3 <= state_ c).
      { case_bool_decide as Hc.
        - destruct Q2 as [Hs2 _]. rewrite Hs2, Z.eqb_refl in Q3. cbn [andb] in Q3. destruct (udp_socket_ c2) eqn:Hu; cbn [negb] in Q3.
          + rewrite Q3. split; [intros _ _ _; right; left; done|]. by rewrite Hs2, Hq.
          + destruct Q3 as [Q3|Q3]; [split; [intros _ _ ?; done|by rewrite Q3, Hq]|]. split; [intros _ _ _; by right; right|]. by rewrite (proj1 Q3), Hq.
        - rewrite Q2 in *. rewrite Hq in Q3. cbn [andb] in Q3. rewrite Q3. split; [|done]. intros _ _ _. left. split; [done|].
          by destruct (conn_ c); [eauto|]. }
      destruct Hrest. split; [done|]. split; [lia|]. split; [done|]. rewrite Hq. done.
    + rewrite Q2 in *. destruct (Z.eqb_spec (state_ c) CONN_STATE_CLOSING_SOCK) as [Hk|Hk]; cbn [andb] in Q3.
      * assert (Hrest : rest c3 /\ state_ c3 <= state_ c).
        { destruct (udp_socket_ c) eqn:Hu; cbn [negb] in Q3; [rewrite Q3; split; [intros _ _ _; right; left; done|done]|].
          destruct Q3 as [Q3|Q3]; [split; [intros _ _ ?; done|by rewrite Q3, Hk]|]. split; [intros _ _ _; by right; right|]. by rewrite (proj1 Q3), Hk. }
        destruct Hrest. split; [done|]. split; [lia|]. split; [done|]. rewrite Hk. done.
      * rewrite Q3. split; [|split; [done|split; [done|done]]]. intros _ H1' H2'. exfalso.
        unfold CONN_STATE_INIT, CONN_STATE_CLOSING_QUIC, CONN_STATE_CLOSING_SOCK, CONN_STATE_FREED in *. lia.
Qed.

End Steps.
