(* ===== verification/SMPHandlers.v ===== *)
(** * SMPHandlers: the callbacks of the engine keep the invariant

    What [SMPConnection] does when the QUIC engine calls back: streams created, read, written
    and closed, handshakes finished, answers received, the peer's chain checked, connections
    destroyed; and what calls of the engine do that call back any number of times. *)

From Stdlib Require Import ZArith Lia.
From stdpp Require Import base numbers option gmap list.
From S2P Require Import Prelude Results VpnPolicy Buffer MasqueFraming SMPParser BCFObject TlsContext SMPConfig SMPStream SMPConnection SMPInvariant SMPSteps.

Section Handlers.
Context (E : env) (cfg : Connector.config) (cas : list X509).
Abbreviation at_ := (at_ E cfg cas).
Abbreviation glob := (glob E cfg cas).
Abbreviation local := (local E cfg cas).
Abbreviation body := (body E cfg cas).
Abbreviation St := (St E cfg cas).
Abbreviation trusted := (trusted cas).
Abbreviation step_ok := (step_ok E cfg cas).
Abbreviation stream_ok := (stream_ok E).

(** Callbacks neither make nor destroy the engine's connections, and do not ask to close. *)
Record steady (c c' : conn) : Prop := {
  sd_conn : conn_ c' = conn_ c;
  sd_new : new_state_ c' = new_state_ c;
  sd_engs : forall e, is_Some (engs c' !! e) <-> is_Some (engs c !! e)
}.

Lemma steady_refl c : steady c c.
Proof. done. Qed.

Lemma steady_trans c1 c2 c3 : steady c1 c2 -> steady c2 c3 -> steady c1 c3.
Proof. intros [A1 A2 A3] [B1 B2 B3]. split; [congruence|congruence|]. intros e. by rewrite B3. Qed.

Lemma steady_core c c' : core c' = core c -> steady c c'.
Proof.
  intros H. split.
  - exact (core_field conn_ _ _ H ltac:(reflexivity)).
  - exact (core_field new_state_ _ _ H ltac:(reflexivity)).
  - by rewrite (core_field engs _ _ H ltac:(reflexivity)).
Qed.

Lemma steady_outer c c' : outer c' = outer c -> steady c c'.
Proof.
  intros H. split.
  - exact (outer_field conn_ _ _ H ltac:(reflexivity)).
  - exact (outer_field new_state_ _ _ H ltac:(reflexivity)).
  - by rewrite (outer_field engs _ _ H ltac:(reflexivity)).
Qed.

(** The engine may call back: the connection does not close, or still has its engine's. *)
Definition alive (c : conn) : Prop :=
  CONN_STATE_CLOSING_QUIC <= state_ c /\ (new_state_ c = CONN_STATE_MAX \/ is_Some (conn_ c)).

Lemma alive_steady own c c' : St own c' -> steady c c' -> alive c -> alive c'.
Proof.
  intros ([Hs _] & _) [E1 E2 E3] [Ha Hb]. unfold alive. rewrite E1, E2. split; [|done].
  destruct Hb as [Hb|[e He]].
  - destruct (Z.le_gt_cases CONN_STATE_CLOSING_QUIC (state_ c')) as [|Hlt]; [done|].
    assert (Hf : new_state_ c' = CONN_STATE_FREED) by (apply (st_below _ Hs); unfold CONN_STATE_INIT, CONN_STATE_CLOSING_QUIC in *; lia).
    rewrite E2, Hb in Hf; done.
  - destruct (Z.le_gt_cases CONN_STATE_CLOSING_QUIC (state_ c')) as [|Hlt]; [done|].
    assert (Hf : conn_ c' = None) by (apply (st_sock _ Hs); unfold CONN_STATE_CLOSING_SOCK, CONN_STATE_CLOSING_QUIC in *; lia).
    congruence.
Qed.

(** ** Logging and members *)

Lemma quiet_log id e :
  quiet e -> step_ok id (log id e) (fun c => delivers e = true -> trusted c)
    (fun c _ c' => core c' = core c /\ connect_rpc_ c' = connect_rpc_ c).
Proof.
  intros He w0 own w c Hat HSt Ht. eapply runs_mono; [by apply at_log|]. intros [] w1 H1.
  destruct (St_quiet E cfg cas own c e He Ht HSt) as [S1 R1]. by exists (logged e c).
Qed.

Lemma quiet_notify id e :
  quiet e -> step_ok id (notify E id e) (fun c => delivers e = true -> trusted c)
    (fun c _ c' => core c' = core c /\ connect_rpc_ c' = connect_rpc_ c).
Proof.
  intros He w0 own w c Hat HSt Ht. eapply runs_mono; [by apply at_notify|]. intros [] w1 H1.
  destruct (St_quiet E cfg cas own c e He Ht HSt) as [S1 R1]. by exists (logged e c).
Qed.

Lemma St_raw own c r :
  St own c -> (forall key s, r !! key = Some s -> trusted c /\ stream_ok c key s) ->
  St own (c <| raw_streams := r |>) /\ rel c (c <| raw_streams := r |>).
Proof.
  intros ([Hs Hb] & Ho & Hsh) Hr. split; [split; [split|done]|].
  - destruct Hs. by split.
  - destruct Hb as [[] [] ? ? ? ? ? ?]. split; try done; by split.
  - split; try done. exists []. by rewrite app_nil_r.
Qed.

(** A callback of one's own that answers nothing leaves the stub. *)
Lemma tell_sent_ok id e sid evs :
  step_ok id (tell_sent E id e sid evs) trusted (fun c _ c' => core c' = core c /\ connect_rpc_ c' = connect_rpc_ c).
Proof.
  induction evs as [|[bs|tr n] evs IH]; intros w0 own w c Hat HSt Ht; cbn [tell_sent].
  - apply runs_ret. stays c. done.
  - eapply step_call; [by apply (quiet_log id (EvStreamBytes e sid bs))|done|done|intros _; exact Ht|]. intros [] w1 c1 H1 S1 R1 [Q1 Q1'].
    eapply runs_mono; [eapply IH; [done|done|by eapply trusted_rel]|]. intros [] w2 (c2 & H2 & S2 & R2 & Q2 & Q2').
    exists c2. split; [done|]. split; [done|]. split; [by eapply rel_trans|]. split; congruence.
  - eapply step_call; [by apply (quiet_notify id (OnStreamDataSent sid tr n))|done|done|intros _; exact Ht|]. intros [] w1 c1 H1 S1 R1 [Q1 Q1'].
    eapply runs_mono; [eapply IH; [done|done|by eapply trusted_rel]|]. intros [] w2 (c2 & H2 & S2 & R2 & Q2 & Q2').
    exists c2. split; [done|]. split; [done|]. split; [by eapply rel_trans|]. split; congruence.
Qed.

Lemma at_pkts w0 id own w c m :
  at_ w0 id own w c -> no_worse (pkts w) m ->
  runs_to (puts (fun w => w <| pkts := m |>)) (fun _ w' => at_ w0 id own w' c /\ pkts w' = m) w.
Proof.
  intros [[Hk Hl Hq Hloc Hid] Ho Hp Hoth] [Hsame Hw]. apply runs_puts. split; [|done].
  assert (Hin : forall a, is_Some (m !! a) <-> is_Some (pkts w !! a)).
  { intros a. specialize (Hsame a). destruct (pkts w !! a), (m !! a); try done; split; intros [? ?]; done. }
  split; [split| | |]; try done.
  - destruct Hk. split; try done. intros a Ha. apply ko_packets. by apply Hin.
  - intros i x Hx. destruct (Hl i x Hx). split; try done. intros key s a Hs Ha. by eapply Hw, li_packets.
  - intros i x Hx. destruct (Hq i x Hx). split; try done. intros a Ha. by apply Hin, qu_pkt.
  - intros a Ha. cbn. by apply Hin, Hp.
Qed.

(** What is left of a list was sent: the stream stays what it is. *)
Lemma stream_did_ok w0 id own w c e sid s m s' evs :
  at_ w0 id own w c -> St own c -> raw_streams c !! (e, sid) = Some s ->
  no_worse (pkts w) m -> (forall a, a ∈ send_buff_list_ s' -> packed_in m a) -> s' = s <| send_buff_list_ := send_buff_list_ s' |> ->
  runs_to (stream_did E id e sid (Some (m, s', evs)))
    (fun _ w' => exists c', at_ w0 id own w' c' /\ St own c' /\ rel c c' /\ steady c c') w.
Proof.
  intros Hat HSt Hs Hm Hl Hs'. unfold stream_did. destruct (lo_streams _ _ _ _ (lo_body _ _ _ _ (proj1 HSt)) _ _ Hs) as [Ht Hok].
  eapply runs_call; [by apply at_pkts|]. intros [] w1 [H1 Hp1].
  destruct (St_raw own c (<[(e, sid) := s']> (raw_streams c)) HSt) as [S2 R2].
  { intros key x. destruct (decide (key = (e, sid))) as [->|Hne].
    - rewrite lookup_insert_eq. intros [= <-]. split; [done|]. rewrite Hs'. destruct Hok as [O1 O2]. split; [done|]. intros Hst.
      destruct (O2 Hst) as (Hmask & evs0 & [[st0 Hread] Hbuf Hclr Hopen Hid] & Hhear). split; [done|]. exists evs0. split; [|done].
      split; try done. by exists st0.
    - rewrite lookup_insert_ne by done. apply (lo_streams _ _ _ _ (lo_body _ _ _ _ (proj1 HSt))). }
  eapply runs_call.
  { apply (at_update E cfg cas w0 id own w1 c (fun c => c <| raw_streams ::= <[(e, sid) := s']> |>) H1); [split; auto| |].
    - intros Hx. split; [apply (li_told _ _ _ (gl_link _ _ _ _ _ _ (at_glob _ _ _ _ _ _ _ _ H1) id c (at_obj _ _ _ _ _ _ _ _ H1))); auto|].
      intros t ct Htt Hct. destruct (li_tunnel _ _ _ (gl_link _ _ _ _ _ _ (at_glob _ _ _ _ _ _ _ _ H1) id c (at_obj _ _ _ _ _ _ _ _ H1)) t Htt) as (ct' & G1 & _ & _ & _ & G5).
      rewrite Hct in G1. injection G1 as <-. by apply G5.
    - intros key x a. cbn. destruct (decide (key = (e, sid))) as [->|Hne].
      + rewrite lookup_insert_eq. intros [= <-] Ha. rewrite Hp1. by apply Hl.
      + rewrite lookup_insert_ne by done. apply (li_packets _ _ _ (gl_link _ _ _ _ _ _ (at_glob _ _ _ _ _ _ _ _ H1) id c (at_obj _ _ _ _ _ _ _ _ H1))). }
  intros [] w2 H2. cbv beta in H2.
  eapply step_call; [apply tell_sent_ok|exact H2|exact S2|by eapply trusted_rel|]. intros [] w3 c3 H3 S3 R3 [Q3 _].
  eapply runs_mono; [eapply nested_call_ok; [done|done|done]|]. intros [] w4 (c4 & H4 & S4 & R4 & Q4 & _).
  exists c4. split; [done|]. split; [done|]. split; [eapply rel_trans; [exact R2|by eapply rel_trans]|].
  apply (steady_trans c (c <| raw_streams := <[(e, sid) := s']> (raw_streams c) |>)); [by split|].
  eapply steady_trans; [apply steady_core, Q3|by apply steady_core].
Qed.

Lemma SendPacket_Internal_ok w0 id own w c a :
  at_ w0 id own w c -> St own c -> is_Some (pkts w !! a) ->
  runs_to (SendPacket_Internal E id a)
    (fun _ w' => exists c', at_ w0 id own w' c' /\ St own c' /\ rel c c' /\ steady c c') w.
Proof.
  intros Hat HSt [k Hk]. unfold SendPacket_Internal. apply runs_bind, runs_gets. rewrite Hk. run_get.
  destruct (stream_map_ c !! stream_id k) as [[e sid]|]; cbn [mbind option_bind]; [|apply runs_ret; stays c; apply steady_refl].
  destruct (raw_streams c !! (e, sid)) as [s|] eqn:Hs; cbn [mbind option_bind]; [|apply runs_ret; stays c; apply steady_refl].
  unfold runs_to at 1. eapply runs_bind. unfold runs_to at 1, ask. cbv beta iota.
  assert (H1 : at_ w0 id own (w <| tick ::= S |>) c).
  { destruct Hat as [G O Pk Oth]. split; [exact (glob_tick E cfg cas _ _ _ _ G)|done..]. }
  assert (Hl : forall x, x ∈ send_buff_list_ s -> packed_in (pkts w) x).
  { intros x Hx. eapply (li_packets _ _ _ (gl_link _ _ _ _ _ _ (at_glob _ _ _ _ _ _ _ _ Hat) id c (at_obj _ _ _ _ _ _ _ _ Hat))); [exact Hs|exact Hx]. }
  destruct (SendPacket_total (pkts w) s a (send_rets E (tick w)) Hl ltac:(by eexists)) as (m & s' & evs & -> & Hm & Ha & Hs' & Es').
  eapply stream_did_ok; try done. intros x Hx. destruct (Hs' x Hx) as [?| ->]; [by apply Hm, Hl|done].
Qed.

Lemma OnStreamWrite_ok id e sid :
  step_ok id (OnStreamWrite E id e sid) (fun _ => True) (fun c _ c' => steady c c').
Proof.
  intros w0 own w c Hat HSt _. unfold OnStreamWrite. run_get.
  destruct (raw_streams c !! (e, sid)) as [s|] eqn:Hs; [|apply runs_ret; stays c; apply steady_refl].
  apply runs_bind, runs_gets. eapply runs_bind. unfold runs_to at 1, ask. cbv beta iota.
  assert (H1 : at_ w0 id own (w <| tick ::= S |>) c).
  { destruct Hat as [G O Pk Oth]. split; [exact (glob_tick E cfg cas _ _ _ _ G)|done..]. }
  assert (Hl : forall x, x ∈ send_buff_list_ s -> packed_in (pkts w) x).
  { intros x Hx. eapply (li_packets _ _ _ (gl_link _ _ _ _ _ _ (at_glob _ _ _ _ _ _ _ _ Hat) id c (at_obj _ _ _ _ _ _ _ _ Hat))); [exact Hs|exact Hx]. }
  destruct (OnWriteNotify_total (pkts w) s (send_rets E (tick w)) Hl) as (m & s' & evs & -> & Hm & Hs' & Es').
  eapply stream_did_ok; try done. intros x Hx. by apply Hm, Hl, Hs'.
Qed.

(** ** Streams *)

Definition opened_stream (e sid : Z) (s : stream) (c : conn) : conn :=
  (logged (EvStreamOpen e sid) c) <| raw_streams ::= <[(e, sid) := s]> |> <| stream_map_ ::= <[sid := (e, sid)]> |>.

Lemma St_opened own c e sid s :
  St own c -> trusted c -> webtransport_ c = alpn_h3 (alpn (config_ c)) ->
  reading (webtransport_ c) sid s [] [] -> recv_wt_mask_ s = false ->
  St own (opened_stream e sid s c) /\ rel c (opened_stream e sid s c).
Proof.
  intros HSt Ht Hw Hr Hm.
  destruct (St_raw own c (delete (e, sid) (raw_streams c)) HSt) as [S1 R1].
  { intros key x [_ Hx]%lookup_delete_Some. by apply (lo_streams _ _ _ _ (lo_body _ _ _ _ (proj1 HSt))). }
  set (c1 := c <| raw_streams := _ |>) in *. set (ev := EvStreamOpen e sid).
  assert (Eo : owned (logged ev c1) = owned c1).
  { change (answered (log_ c1 ++ [ev]) ++ match connect_rpc_ c1 with Some s => [s] | None => [] end = owned c1).
    by rewrite answered_snoc, app_nil_r. }
  assert (S2 : St own (logged ev c1)).
  { destruct S1 as ([Hs Hb] & Ho & Hsh). split; [split|split; [intros x; rewrite Eo; apply Ho|done]]; [by apply states_log|].
    apply body_log; try done; [by rewrite Eo; apply Hb|]. intros key x Hx. apply stream_ok_logged. intros h. cbn.
    rewrite bool_decide_eq_false_2; [done|]. intros Heq. cbn in Hx. rewrite lookup_delete_Some in Hx. destruct Hx as [Hx _].
    apply Hx. by destruct key. }
  assert (R2 : rel c1 (logged ev c1)) by (apply rel_log; by rewrite Eo).
  assert (Ht2 : trusted (logged ev c1)) by by apply (trusted_logged cas c1 ev).
  destruct (St_raw own (logged ev c1) (<[(e, sid) := s]> (raw_streams c)) S2) as [S3 R3].
  { intros key x. destruct (decide (key = (e, sid))) as [->|Hne].
    - rewrite lookup_insert_eq. intros [= <-]. split; [done|]. unfold SMPInvariant.stream_ok. cbn [fst snd].
      change (log_ (logged ev c1)) with (log_ c ++ [ev]). rewrite heard_snoc. cbn [hear ev]. rewrite (bool_decide_eq_true_2 ((e, sid) = (e, sid))) by done.
      cbn [hs_reads hs_heard map concat to_parse]. change (webtransport_ (logged ev c1)) with (webtransport_ c).
      split; [done|]. intros _. split; [unfold masked; by rewrite Hm|]. exists []. split; [done|constructor].
    - rewrite lookup_insert_ne by done. intros Hx.
      apply (lo_streams _ _ _ _ (lo_body _ _ _ _ (proj1 S2))). cbn. by rewrite lookup_delete_ne. }
  change ((logged ev c1) <| raw_streams := <[(e, sid) := s]> (raw_streams c) |>)
    with ((logged (EvStreamOpen e sid) c) <| raw_streams ::= <[(e, sid) := s]> |>) in S3, R3.
  unfold opened_stream. set (c3 := (logged _ c) <| raw_streams ::= _ |>) in *.
  clearbody c3. assert (He : erase (c3 <| stream_map_ ::= <[sid := (e, sid)]> |>) = erase c3) by by destruct c3.
  destruct (St_same E cfg cas own _ _ He S3) as [S4 R4]. split; [done|].
  eapply rel_trans; [exact R1|]. eapply rel_trans; [exact R2|]. by eapply rel_trans.
Qed.

Lemma OnStreamCreate_ok id e sid :
  step_ok id (OnStreamCreate E id e sid) (fun c => trusted c /\ exists e g, engs c !! e = Some g)
    (fun c _ c' => steady c c').
Proof.
  intros w0 own w c Hat HSt (Ht & e0 & g & Hg). unfold OnStreamCreate.
  assert (Hw : webtransport_ c = alpn_h3 (alpn (config_ c))).
  { destruct (en_wt _ _ (lo_engines _ _ _ _ (lo_body _ _ _ _ (proj1 HSt)))) as [?|[_ He]]; [done|]. rewrite He in Hg. by rewrite lookup_empty in Hg. }
  destruct (created_reading (webtransport_ c) sid) as (s & -> & Hr & Hm & Hl).
  eapply runs_call; [by apply at_log|]. intros [] w1 H1.
  eapply runs_call.
  { apply (at_put E cfg cas w0 id own w1 _ (fun c => c <| raw_streams ::= <[(e, sid) := s]> |> <| stream_map_ ::= <[sid := (e, sid)]> |>) H1);
      [split; auto|done|].
    intros key x a. cbn. destruct (decide (key = (e, sid))) as [->|Hne].
    - rewrite lookup_insert_eq. intros [= <-]. rewrite Hl. by intros ?%elem_of_nil.
    - rewrite lookup_insert_ne by done. eauto. }
  intros [] w2 H2. cbv beta in H2. fold (opened_stream e sid s c) in H2.
  destruct (St_opened own c e sid s HSt Ht Hw Hr Hm) as [S2 R2]. run_get.
  change (webtransport_ (opened_stream e sid s c)) with (webtransport_ c).
  destruct (webtransport_ c || (0 <? u32 sid)); cbn [when].
  - eapply runs_mono; [eapply (quiet_notify id (OnStreamCreated (u32 sid))); [done|exact H2|exact S2|intros _; by eapply trusted_rel]|].
    intros [] w3 (c3 & H3 & S3 & R3 & Q3 & _). exists c3. split; [done|]. split; [done|]. split; [by eapply rel_trans|].
    eapply (steady_trans _ (opened_stream e sid s c)); [by split|by apply steady_core].
  - apply runs_ret. exists (opened_stream e sid s c). split; [done|]. split; [done|]. split; [done|]. by split.
Qed.

Lemma OnStreamClose_ok id e sid :
  step_ok id (OnStreamClose E id e sid) trusted (fun c _ c' => steady c c').
Proof.
  intros w0 own w c Hat HSt Ht. unfold OnStreamClose. run_get.
  case_bool_decide as Hin; cbn [when]; [|apply runs_ret; stays c; apply steady_refl].
  eapply step_call; [by apply (quiet_notify id (OnStreamClosed sid))|done|done|intros _; exact Ht|].
  intros [] w1 c1 H1 S1 R1 [Q1 _].
  eapply runs_call.
  { apply (at_put E cfg cas w0 id own w1 c1 (fun c => c <| raw_streams ::= delete (e, sid) |> <| stream_map_ ::= delete sid |>) H1);
      [split; auto|done|]. intros key x a. cbn. intros [_ Hx]%lookup_delete_Some Ha. eauto. }
  intros [] w2 H2. cbv beta in H2.
  destruct (St_raw own c1 (delete (e, sid) (raw_streams c1)) S1) as [S2 R2].
  { intros key x [_ Hx]%lookup_delete_Some. by apply (lo_streams _ _ _ _ (lo_body _ _ _ _ (proj1 S1))). }
  change (c1 <| raw_streams ::= delete (e, sid) |>) with (c1 <| raw_streams := delete (e, sid) (raw_streams c1) |>) in H2.
  assert (E2 : steady c1 (c1 <| raw_streams := delete (e, sid) (raw_streams c1) |>)) by by split.
  set (c2 := c1 <| raw_streams := _ |>) in *. clearbody c2.
  assert (He : erase (c2 <| stream_map_ ::= delete sid |>) = erase c2) by by destruct c2.
  assert (E3 : steady c2 (c2 <| stream_map_ ::= delete sid |>)) by by split.
  destruct (St_same E cfg cas own _ _ He S2) as [S3 R3]. set (c3 := c2 <| stream_map_ ::= _ |>) in *. clearbody c3.
  assert (R13 : rel c c3) by (eapply rel_trans; [exact R1|by eapply rel_trans]).
  assert (D13 : steady c c3) by (eapply steady_trans; [apply steady_core, Q1|by eapply steady_trans]).
  run_get. destruct (webtransport_ c3 || (0 <? u32 sid)); cbn [when].
  - eapply runs_mono; [eapply (quiet_notify id (OnStreamClosed (u32 sid))); [done|exact H2|exact S3|intros _; by eapply trusted_rel]|].
    intros [] w3 (c4 & H4 & S4 & R4 & Q4 & _). exists c4. split; [done|]. split; [done|]. split; [by eapply rel_trans|].
    eapply steady_trans; [exact D13|by apply steady_core].
  - apply runs_ret. by exists c3.
Qed.

(** ** What is read *)

(** The connection without the stream that is being read. *)
Definition but (key : Z * Z) (c : conn) : conn := c <| raw_streams ::= delete key |>.

(** The handler hears of stream [key] only. *)
Record hearing (own : list Z) (key : Z * Z) (c : conn) : Prop := {
  hg_St : St own (but key c);
  hg_trusted : trusted c;
  hg_on : hs_on (heard key.1 key.2 (log_ c)) = true;
  hg_off : forall key', key' <> key -> hs_on (heard key'.1 key'.2 (log_ c)) = false
}.

(** A packet handled: what the handler heard of the stream grew by [l]. *)
Definition heard_more (key : Z * Z) (c c' : conn) (l : list (SMPHeader * bytes)) : Prop :=
  raw_streams c' = raw_streams c /\ webtransport_ c' = webtransport_ c /\
  heard key.1 key.2 (log_ c') =
    {| hs_on := true; hs_reads := hs_reads (heard key.1 key.2 (log_ c)); hs_heard := hs_heard (heard key.1 key.2 (log_ c)) ++ l |}.

Lemma rel_but key c c' : rel (but key c) (but key c') -> rel c c'.
Proof. intros [A1 A2 A3 A4 A5 A6 A7]. by split. Qed.

Lemma owned_but key c : owned (but key c) = owned c.
Proof. done. Qed.

(** A log entry that is no packet. *)
Lemma hearing_quiet own key c e :
  hearing own key c -> quiet e -> hearing own key (logged e c) /\ rel c (logged e c) /\ heard_more key c (logged e c) [].
Proof.
  intros [H1 H2 H3 H4] He. destruct (St_quiet E cfg cas own (but key c) e He (fun _ => H2) H1) as [S1 R1].
  assert (Hh : forall k1 k2, heard k1 k2 (log_ (logged e c)) = heard k1 k2 (log_ c)).
  { intros k1 k2. change (log_ (logged e c)) with (log_ c ++ [e]). rewrite heard_snoc. by destruct e. }
  split; [|split].
  - split; [exact S1|by apply trusted_logged|by rewrite Hh|]. intros key' Hne. rewrite Hh. by apply H4.
  - by apply (rel_but key).
  - split; [done|]. split; [done|]. rewrite Hh, app_nil_r. destruct (heard _ _ _). cbn in *. by subst.
Qed.

Definition is_packet (e : event) (h : SMPHeader) (bs : bytes) : Prop := e = OnRecvCmd h bs \/ e = OnRecvData h bs.

Lemma hearing_packet own key c e h bs :
  hearing own key c -> is_packet e h bs -> hearing own key (logged e c) /\ rel c (logged e c) /\ heard_more key c (logged e c) [(h, bs)].
Proof.
  intros [H1 H2 H3 H4] He.
  assert (Hh : forall k1 k2, heard k1 k2 (log_ (logged e c)) =
    if hs_on (heard k1 k2 (log_ c))
    then {| hs_on := true; hs_reads := hs_reads (heard k1 k2 (log_ c)); hs_heard := hs_heard (heard k1 k2 (log_ c)) ++ [(h, bs)] |}
    else heard k1 k2 (log_ c)).
  { intros k1 k2. change (log_ (logged e c)) with (log_ c ++ [e]). rewrite heard_snoc. by destruct He as [->| ->]. }
  assert (Eo : owned (logged e (but key c)) = owned (but key c)).
  { change (answered (log_ c ++ [e]) ++ match connect_rpc_ c with Some s => [s] | None => [] end = owned (but key c)).
    rewrite answered_snoc. by destruct He as [->| ->]; rewrite app_nil_r. }
  split; [|split].
  - destruct H1 as ([Hs Hb] & Ho & Hsh).
    split; [|by apply trusted_logged|by rewrite Hh, H3|intros key' Hne; rewrite Hh, H4 by done; by apply H4].
    split; [split|split; [intros x Hx; apply Ho; rewrite <- Eo; exact Hx|done]].
    + apply (states_log (but key c) e Hs).
    + apply (body_log E cfg cas (but key c) e Hb Hsh); try (by destruct He as [->| ->]).
      * rewrite Eo. apply Hb.
      * intros key' x Hx. assert (Hne : key' <> key) by (cbn in Hx; rewrite lookup_delete_Some in Hx; by destruct Hx as [? _]; intros ->).
        unfold SMPInvariant.stream_ok. change (log_ (logged e (but key c))) with (log_ (logged e c)). rewrite Hh, H4 by done. done.
  - apply rel_log. intros x. change (owned c) with (owned (but key c)). by rewrite <- Eo.
  - split; [done|]. split; [done|]. by rewrite Hh, H3.
Qed.


(** Only what a packet tells changes nothing of another stream. *)
Lemma hearing_same own key c c' :
  hearing own key c -> St own (but key c') -> rel c c' -> raw_streams c' = raw_streams c -> webtransport_ c' = webtransport_ c ->
  (forall k1 k2, heard k1 k2 (log_ c') = heard k1 k2 (log_ c)) -> hearing own key c' /\ heard_more key c c' [].
Proof.
  intros [H1 H2 H3 H4] HS HR Er Ew Hh. split.
  - split; [done|by eapply trusted_rel|by rewrite Hh|]. intros key' Hne. rewrite Hh. by apply H4.
  - split; [done|]. split; [done|]. rewrite Hh, app_nil_r. destruct (heard _ _ _). cbn in *. by subst.
Qed.

Lemma heard_more_trans key c1 c2 c3 l1 l2 : heard_more key c1 c2 l1 -> heard_more key c2 c3 l2 -> heard_more key c1 c3 (l1 ++ l2).
Proof.
  intros (A1 & A2 & A3) (B1 & B2 & B3). split; [congruence|]. split; [congruence|]. rewrite B3, A3. cbn [hs_reads hs_heard]. by rewrite app_assoc.
Qed.

Lemma alive_not_stuck own c : St own c -> alive c -> ~ stuck c.
Proof.
  intros ([_ Hb] & _) [_ Ha] (Hi & Hn & He). destruct Ha as [Ha|[e Ha]]; [by rewrite Hn in Ha|].
  destruct (en_conn _ _ (lo_engines _ _ _ _ Hb) e Ha) as (g & Hg & _). rewrite He in Hg. by rewrite lookup_empty in Hg.
Qed.

(** The handshake goes on. *)
Lemma St_onward own c s :
  St own c -> alive c -> CONN_STATE_INIT < s <= CONN_STATE_CONNECTED -> St own (c <| state_ := s |>) /\ rel c (c <| state_ := s |>).
Proof.
  intros HSt Ha Hs. pose proof (alive_not_stuck own c HSt Ha) as Hk. pose proof HSt as ([[X1 X2 X3 X4 X5 X6 X7 X8 X9] _] & _).
  unfold CONN_STATE_INIT, CONN_STATE_CONNECTED in *.
  apply St_state; [done| |by intros]. destruct Ha as [Ha _]. unfold CONN_STATE_CLOSING_QUIC in Ha.
  split; cbn; unfold CONN_STATE_INIT, CONN_STATE_CLOSING_SOCK, CONN_STATE_FREED, CONN_STATE_CLOSING_QUIC in *; try done; try lia.
  rewrite X4. destruct (Z.eqb_spec (state_ c) 0), (Z.eqb_spec s 0); lia || done.
Qed.

Lemma answer_state pStub r msg c s : answer pStub r msg (c <| state_ := s |>) = (answer pStub r msg c) <| state_ := s |>.
Proof.
  unfold answer. destruct c. cbn. destruct (match pStub with Some x => Some x | None => _ end); [|done].
  cbn. case_bool_decide; [|done]. unfold without_timer. cbn. by destruct (0 <? _).
Qed.

Lemma answer_but key pStub r msg c : answer pStub r msg (but key c) = but key (answer pStub r msg c).
Proof.
  unfold answer. destruct c. cbn. destruct (match pStub with Some x => Some x | None => _ end); [|done].
  cbn. case_bool_decide; [|done]. unfold without_timer. cbn. by destruct (0 <? _).
Qed.

Lemma heard_answer k1 k2 pStub r msg c : heard k1 k2 (log_ (answer pStub r msg c)) = heard k1 k2 (log_ c).
Proof.
  unfold answer. destruct (match pStub with Some x => Some x | None => _ end) as [x|]; [|done].
  case_bool_decide; [unfold without_timer; destruct (0 <? _)|]; apply heard_snoc.
Qed.

(** The connect failed: it is told, and may be tried again. *)
Lemma St_refused own c r msg :
  St own c -> alive c -> is_Some (connect_rpc_ c) -> r <> BC_R_SUCCESS ->
  St own (answer None r msg (c <| state_ := CONN_STATE_INIT |>)) /\ rel c (answer None r msg (c <| state_ := CONN_STATE_INIT |>)).
Proof.
  intros HSt Ha Hs Hr. rewrite answer_state. pose proof (alive_not_stuck own c HSt Ha) as Hk.
  assert (S1 : St own (answer None r msg c)) by (apply St_answer; try done).
  pose proof (answer_core None r msg c) as Ec.
  destruct (answer_stub r msg c (lo_timers _ _ _ _ (lo_body _ _ _ _ (proj1 HSt)))) as [F1 F2]. specialize (F2 Hs).
  pose proof (core_field state_ _ _ Ec ltac:(reflexivity)) as E1.
  destruct (St_state E cfg cas own (answer None r msg c) CONN_STATE_INIT S1) as [S2 R2]; [|done|].
  - destruct S1 as ([[X1 X2 X3 X4 X5 X6 X7 X8 X9] _] & _). destruct Ha as [Ha _]. unfold CONN_STATE_CLOSING_QUIC in Ha.
    split; cbn; unfold CONN_STATE_INIT, CONN_STATE_CLOSING_SOCK, CONN_STATE_FREED, CONN_STATE_CLOSING_QUIC in *; try done; try lia.
    rewrite X4, E1. destruct (Z.eqb_spec (state_ c) 0); lia || done.
  - split; [done|]. eapply rel_trans; [apply rel_answer|done].
Qed.

Definition tells (key : Z * Z) (evs : list smp_event) (c c' : conn) : Prop := exists l, heard_more key c c' l /\ hears E evs l.

Lemma tells_trans key ev evs c1 c2 c3 : tells key [ev] c1 c2 -> tells key evs c2 c3 -> tells key (ev :: evs) c1 c3.
Proof.
  intros (l1 & A1 & A2) (l2 & B1 & B2). exists (l1 ++ l2). split; [by eapply heard_more_trans|]. by apply (hears_app E [ev]).
Qed.

(** An operation in the middle of the packets of one read. *)
Definition packet_ok (id : Z) (key : Z * Z) (m : M unit) (P : conn -> Prop) (evs : list smp_event) : Prop :=
  forall w0 own w c, at_ w0 id own w c -> hearing own key c -> alive c -> P c ->
    runs_to m (fun _ w' => exists c', at_ w0 id own w' c' /\ hearing own key c' /\ rel c c' /\ steady c c' /\ tells key evs c c') w.

Lemma heard_more_refl own key c : hearing own key c -> heard_more key c c [].
Proof. intros [_ _ H _]. split; [done|]. split; [done|]. rewrite app_nil_r. destruct (heard _ _ _). cbn in *. by subst. Qed.

Lemma unheard_ok id key m P evs :
  hears E evs [] ->
  (forall w0 own w c, at_ w0 id own w c -> hearing own key c -> alive c -> P c ->
    runs_to m (fun _ w' => exists c', at_ w0 id own w' c' /\ hearing own key c' /\ rel c c' /\ steady c c' /\ heard_more key c c' []) w) ->
  packet_ok id key m P evs.
Proof.
  intros He Hm w0 own w c Hat Hg Ha HP. eapply runs_mono; [by eapply Hm|]. intros [] w1 (c1 & H1 & G1 & R1 & D1 & M1).
  exists c1. split; [done|]. split; [done|]. split; [done|]. split; [done|]. by exists [].
Qed.

Lemma told_packet_ok id key e h bs :
  is_packet e h bs -> m_eDataType h = SMP_TYPE_COMMAND \/ m_eDataType h = SMP_TYPE_MESSAGE ->
  packet_ok id key (notify E id e) (fun _ => True) [OnPacketParsed h bs].
Proof.
  intros He Ht w0 own w c Hat Hg Ha _. eapply runs_mono; [by apply at_notify|]. intros [] w1 H1.
  destruct (hearing_packet own key c e h bs Hg He) as (G1 & R1 & M1). exists (logged e c).
  split; [done|]. split; [done|]. split; [done|]. split; [by split|]. exists [(h, bs)]. split; [done|]. apply hears_told; [done|constructor].
Qed.

(** The answer to the connect request. *)
Lemma connect_told_ok id key msg sid :
  forall w0 own w c, at_ w0 id own w c -> hearing own key c -> alive c -> True ->
    runs_to (put id (fun c => c <| state_ := CONN_STATE_CONNECTED |>);;
             NotifyConnectResult E id None BC_R_SUCCESS msg;;
             notify E id (OnStreamCreated sid);;
             put_K (fun k => k <| total_succeed_connections ::= fun n => u64 (n + 1) |>))
      (fun _ w' => exists c', at_ w0 id own w' c' /\ hearing own key c' /\ rel c c' /\ steady c c' /\ heard_more key c c' []) w.
Proof.
  intros w0 own w c Hat Hg Ha _. run_set w1 H1.
  destruct (St_onward own (but key c) CONN_STATE_CONNECTED (hg_St _ _ _ Hg) Ha ltac:(unfold CONN_STATE_INIT, CONN_STATE_CONNECTED; lia)) as [S1 R1].
  change ((but key c) <| state_ := CONN_STATE_CONNECTED |>) with (but key (c <| state_ := CONN_STATE_CONNECTED |>)) in S1, R1.
  apply rel_but in R1. destruct (hearing_same own key c _ Hg S1 R1 eq_refl eq_refl ltac:(done)) as [G1 M1].
  assert (D1 : steady c (c <| state_ := CONN_STATE_CONNECTED |>)) by by split.
  set (c1 := c <| state_ := _ |>) in *. clearbody c1.
  eapply runs_call; [by apply NotifyConnectResult_does|]. intros [] w2 H2.
  pose proof (St_answer E cfg cas own None BC_R_SUCCESS msg (but key c1) S1 ltac:(done) ltac:(done) (fun _ _ => hg_trusted _ _ _ G1)) as S2.
  rewrite answer_but in S2.
  pose proof (answer_core None BC_R_SUCCESS msg c1) as Ec.
  destruct (hearing_same own key c1 _ G1 S2 (rel_answer _ _ _) (core_field raw_streams _ _ Ec ltac:(reflexivity)) (core_field webtransport_ _ _ Ec ltac:(reflexivity))
    (fun k1 k2 => heard_answer k1 k2 _ _ _ _)) as [G2 M2].
  set (c2 := answer _ _ _ _) in *.
  eapply runs_call; [by apply at_notify|]. intros [] w3 H3.
  destruct (hearing_quiet own key c2 (OnStreamCreated sid) G2 I) as (G3 & R3 & M3).
  eapply runs_mono; [by apply at_put_K|]. intros [] w4 H4. exists (logged (OnStreamCreated sid) c2).
  split; [done|]. split; [done|]. split; [eapply rel_trans; [exact R1|]; eapply rel_trans; [apply rel_answer|exact R3]|].
  split; [eapply steady_trans; [exact D1|]; eapply steady_trans; [apply steady_core, Ec|by split]|].
  apply (heard_more_trans key c c1 _ [] [] M1). by apply (heard_more_trans key c1 c2 _ [] []).
Qed.

Lemma refused_ok id key msg :
  forall w0 own w c, at_ w0 id own w c -> hearing own key c -> alive c -> is_Some (connect_rpc_ c) ->
    runs_to (put id (fun c => c <| state_ := CONN_STATE_INIT |>);;
             NotifyConnectResult E id None BC_R_FAILURE msg;;
             Close id)
      (fun _ w' => exists c', at_ w0 id own w' c' /\ hearing own key c' /\ rel c c' /\ steady c c' /\ heard_more key c c' []) w.
Proof.
  intros w0 own w c Hat Hg Ha Hs. run_set w1 H1.
  eapply runs_call; [by apply NotifyConnectResult_does|]. intros [] w2 H2.
  destruct (St_refused own (but key c) BC_R_FAILURE msg (hg_St _ _ _ Hg) Ha Hs ltac:(done)) as [S2 R2].
  change ((but key c) <| state_ := CONN_STATE_INIT |>) with (but key (c <| state_ := CONN_STATE_INIT |>)) in S2, R2.
  rewrite answer_but in S2, R2. apply rel_but in R2.
  pose proof (answer_core None BC_R_FAILURE msg (c <| state_ := CONN_STATE_INIT |>)) as Ec.
  destruct (hearing_same own key c _ Hg S2 R2 (core_field raw_streams _ _ Ec ltac:(reflexivity)) (core_field webtransport_ _ _ Ec ltac:(reflexivity))
    (fun k1 k2 => heard_answer k1 k2 _ _ _ _)) as [G2 M2].
  assert (D2 : steady c (answer None BC_R_FAILURE msg (c <| state_ := CONN_STATE_INIT |>))).
  { eapply steady_trans; [|apply steady_core, Ec]. by split. }
  set (c2 := answer _ _ _ _) in *. unfold Close.
  eapply runs_mono; [eapply at_post_working; [done|apply H2|done]|]. intros [] w3 H3. exists c2. done.
Qed.

Lemma ProcessPacket_ok id key h payload :
  packet_ok id key (ProcessPacket E id h payload) (fun _ => True) [OnPacketParsed h payload].
Proof.
  intros w0 own w c Hat Hg Ha _. unfold ProcessPacket.
  destruct (Z.eqb_spec (m_eDataType h) SMP_TYPE_COMMAND) as [Hc|Hc].
  - destruct (read_command E payload) as [|tr name v] eqn:Er; [by apply runs_fail|]. run_get.
    destruct (tr && bool_decide (is_Some (connect_rpc_ c))) eqn:Eb; [|by apply (told_packet_ok id key (OnRecvCmd h payload)); auto; left].
    apply andb_prop in Eb as [-> Hs%bool_decide_eq_true].
    assert (Hans : hears E [OnPacketParsed h payload] []) by (apply hears_answer; [split; eauto|constructor]).
    case_bool_decide; [|case_bool_decide].
    + eapply (unheard_ok id key _ (fun _ => True) _ Hans); [apply connect_told_ok|done..].
    + eapply (unheard_ok id key _ (fun c => is_Some (connect_rpc_ c)) _ Hans); [apply refused_ok|done..].
    + apply runs_ret. exists c. split; [done|]. split; [done|]. split; [apply rel_refl|]. split; [done|]. exists [].
      split; [by eapply heard_more_refl|done].
  - destruct (Z.eqb_spec (m_eDataType h) SMP_TYPE_MESSAGE) as [Hm|Hm].
    + apply (told_packet_ok id key (OnRecvData h payload)); auto. by right.
    + apply runs_ret. exists c. split; [done|]. split; [done|]. split; [apply rel_refl|]. split; [done|]. exists [].
      split; [by eapply heard_more_refl|]. apply hears_other; [done|done|constructor].
Qed.

Lemma ProcessPackets_ok id key evs : packet_ok id key (ProcessPackets E id evs) (fun _ => True) evs.
Proof.
  induction evs as [|[h payload|bs] evs IH]; intros w0 own w c Hat Hg Ha _; cbn [ProcessPackets].
  - apply runs_ret. exists c. split; [done|]. split; [done|]. split; [apply rel_refl|]. split; [done|]. exists [].
    split; [by eapply heard_more_refl|constructor].
  - eapply runs_call; [by apply ProcessPacket_ok|]. intros [] w1 (c1 & H1 & G1 & R1 & D1 & T1).
    assert (D1' : steady (but key c) (but key c1)) by by destruct D1.
    pose proof (alive_steady own _ _ (hg_St _ _ _ G1) D1' Ha) as Ha1.
    eapply runs_mono; [by apply IH|]. intros [] w2 (c2 & H2 & G2 & R2 & D2 & T2). exists c2.
    split; [done|]. split; [done|]. split; [by eapply rel_trans|]. split; [by eapply steady_trans|]. by eapply tells_trans.
  - eapply runs_mono; [by apply IH|]. intros [] w1 (c1 & H1 & G1 & R1 & D1 & l & M1 & L1). exists c1.
    split; [done|]. split; [done|]. split; [done|]. split; [done|]. exists l. split; [done|]. by constructor.
Qed.

(** *** A read of a stream *)

Lemma OnRead_list wt reads : forall s s' evs, OnRead 0 wt s reads = Some (s', evs) -> send_buff_list_ s' = send_buff_list_ s.
Proof.
  induction reads as [|r reads IH]; intros s s' evs; cbn [OnRead]; destruct (negb (stream_ s)); try done; [by intros [= <-]|].
  destruct r as [| |bs fin]; try (by intros [= <-]). unfold read_turn.
  destruct (_ <? 0); [done|]. destruct (Parse _ _ _) as [[p evs1]|]; [|done]. cbn [mbind option_bind].
  destruct (_ && negb fin); [|by intros [= <- _]].
  destruct (OnRead 0 wt _ reads) as [[s2 evs2]|] eqn:E2; [|done]. cbn [mbind option_bind]. intros [= <- _]. by rewrite (IH _ _ _ E2).
Qed.

Definition read_stream (e sid : Z) (reads : list read_result) (s : stream) (c : conn) : conn :=
  (logged (EvStreamRead e sid reads) c) <| raw_streams ::= <[(e, sid) := s]> |>.

Lemma St_but own key c : St own c -> St own (but key c) /\ rel c (but key c).
Proof.
  intros HSt. apply (St_raw own c (delete key (raw_streams c)) HSt).
  intros key' x [_ Hx]%lookup_delete_Some. by apply (lo_streams _ _ _ _ (lo_body _ _ _ _ (proj1 HSt))).
Qed.

Lemma St_whole own key c :
  St own (but key c) -> (forall s, raw_streams c !! key = Some s -> trusted c /\ stream_ok c key s) -> St own c.
Proof.
  intros HSt Hs. destruct (St_raw own (but key c) (raw_streams c) HSt) as [H _]; [|by destruct c].
  intros key' s Hs'. destruct (decide (key' = key)) as [->|Hne]; [by apply Hs|].
  apply (lo_streams _ _ _ _ (lo_body _ _ _ _ (proj1 HSt)) key' s). cbn. by rewrite lookup_delete_ne.
Qed.

Lemma hearing_read own e sid reads s s' c :
  St own c -> raw_streams c !! (e, sid) = Some s ->
  hearing own (e, sid) (read_stream e sid reads s' c) /\ rel c (read_stream e sid reads s' c) /\
  heard e sid (log_ (read_stream e sid reads s' c)) =
    {| hs_on := true; hs_reads := hs_reads (heard e sid (log_ c)) ++ [reads]; hs_heard := hs_heard (heard e sid (log_ c)) |}.
Proof.
  intros HSt Hs. set (key := (e, sid)). set (ev := EvStreamRead e sid reads).
  destruct (lo_streams _ _ _ _ (lo_body _ _ _ _ (proj1 HSt)) key s Hs) as [Ht _].
  destruct (St_but own key c HSt) as [S1 R1].
  assert (El : log_ (read_stream e sid reads s' c) = log_ c ++ [ev]) by done.
  assert (Hh : forall k1 k2, heard k1 k2 (log_ c ++ [ev]) =
    if bool_decide ((k1, k2) = key) then {| hs_on := true; hs_reads := hs_reads (heard k1 k2 (log_ c)) ++ [reads]; hs_heard := hs_heard (heard k1 k2 (log_ c)) |}
    else {| hs_on := false; hs_reads := hs_reads (heard k1 k2 (log_ c)); hs_heard := hs_heard (heard k1 k2 (log_ c)) |}).
  { intros k1 k2. by rewrite heard_snoc. }
  assert (Eo : owned (logged ev (but key c)) = owned (but key c)).
  { change (answered (log_ c ++ [ev]) ++ match connect_rpc_ c with Some s => [s] | None => [] end = owned (but key c)).
    by rewrite answered_snoc, app_nil_r. }
  assert (S2 : St own (logged ev (but key c))).
  { destruct S1 as ([Hst Hb] & Ho & Hsh). split; [split|split; [intros x Hx; apply Ho; rewrite <- Eo; exact Hx|done]].
    - by apply states_log.
    - apply body_log; try done; [rewrite Eo; apply Hb|]. intros key' x Hx Hok.
      assert (Hne : key' <> key) by (cbn in Hx; rewrite lookup_delete_Some in Hx; by destruct Hx as [? _]; intros ->).
      destruct key' as [k1 k2]. unfold SMPInvariant.stream_ok in *. cbn [fst snd] in *. change (log_ (logged ev (but key c))) with (log_ c ++ [ev]).
      rewrite Hh, (bool_decide_eq_false_2 ((k1, k2) = key)) by done. exact Hok. }
  assert (R2 : rel (but key c) (logged ev (but key c))) by (apply rel_log; by rewrite Eo).
  assert (Eb : but key (read_stream e sid reads s' c) = logged ev (but key c)).
  { unfold but, read_stream, logged. destruct c. unfold update. cbn. f_equal. apply delete_insert_eq. }
  split; [|split].
  - split; [by rewrite Eb| | |].
    + intros Hv. rewrite El. by apply authentic_app, Ht.
    + rewrite El, Hh. by rewrite bool_decide_eq_true_2.
    + intros [k1 k2] Hne. cbn [fst snd]. rewrite El, Hh. by rewrite bool_decide_eq_false_2.
  - apply (rel_but key). rewrite Eb. exact R2.
  - rewrite El, Hh. by rewrite bool_decide_eq_true_2.
Qed.

(** What is parsed after one more call of [OnRead]. *)
Lemma to_parse_more wt cs ds :
  to_parse wt (cs ++ ds) = to_parse wt cs ++ to_parse (wt && bool_decide (cs = [])) ds.
Proof.
  destruct cs as [|c cs]; [by rewrite andb_true_r|]. cbn [app]. rewrite to_parse_app. rewrite bool_decide_eq_false_2 by done.
  by rewrite andb_false_r, to_parse_plain.
Qed.

Lemma bool_decide_both {A} (cs ds : list A) : bool_decide (cs ++ ds = []) = bool_decide (cs = []) && bool_decide (ds = []).
Proof. destruct cs, ds; done. Qed.

Lemma read_told c c' c'' e sid reads s s' evs l :
  stream_ok c (e, sid) s -> stream_ s = true -> Forall read_ok reads -> OnRead 0 (webtransport_ c) s reads = Some (s', evs) ->
  webtransport_ c' = webtransport_ c -> config_ c' = config_ c ->
  heard e sid (log_ c') = {| hs_on := true; hs_reads := hs_reads (heard e sid (log_ c)) ++ [reads]; hs_heard := hs_heard (heard e sid (log_ c)) |} ->
  heard_more (e, sid) c' c'' l -> hears E evs l -> config_ c'' = config_ c' -> stream_ok c'' (e, sid) s'.
Proof.
  intros [Hw Hok] Hopen Hr HR Ew Ec Hh (M1 & M2 & M3) Hl Ec'. destruct (Hok Hopen) as (Hm & evs0 & Hread & Hhear). cbn [fst snd] in *.
  set (wt := webtransport_ c) in *. set (before := concat (map chunks_read (hs_reads (heard e sid (log_ c))))) in *.
  pose proof (OnRead_ok 0 wt sid s reads _ evs0 ltac:(unfold is_byte; lia) Hread Hr) as Ho.
  destruct (masked wt s && _); [congruence|]. destruct Ho as (s1 & evs1 & E1 & Hread1 & Hm1). rewrite E1 in HR. injection HR as -> ->.
  split; [rewrite M2, Ew, Ec', Ec; exact Hw|]. intros _. rewrite M2, Ew. cbn [fst snd]. rewrite M3, Hh. cbn [hs_reads hs_heard].
  rewrite map_app, concat_app. cbn [map concat]. rewrite app_nil_r. fold before wt.
  rewrite bool_decide_both, Hm1, Hm. split; [by rewrite andb_assoc|].
  exists (evs0 ++ evs). split; [|by apply hears_app]. rewrite to_parse_more, <- Hm. exact Hread1.
Qed.

Lemma OnStreamRead_ok id e sid reads :
  step_ok id (OnStreamRead E id e sid reads) (fun c => Forall read_ok reads) (fun c _ c' => steady c c').
Proof.
  intros w0 own w c Hat HSt Hr. unfold OnStreamRead. run_get.
  destruct (raw_streams c !! (e, sid)) as [s|] eqn:Hs; [|apply runs_ret; stays c; apply steady_refl].
  eapply step_call; [apply CloseCheck_ok|done|done|done|]. intros [|] w1 c1 H1 S1 R1 [Q1 Q1'].
  { apply runs_ret. exists c1. split; [done|]. split; [done|]. split; [done|]. by apply steady_outer. }
  destruct Q1' as (-> & Hn & Hi). destruct (negb (stream_ s)) eqn:Ho; [by apply runs_fail|]. apply negb_false_iff in Ho.
  run_get. destruct (OnRead 0 (webtransport_ c) s reads) as [[s' evs]|] eqn:HR; [|by apply runs_fail].
  destruct (hearing_read own e sid reads s s' c S1 Hs) as (G2 & R2 & Hh2).
  destruct (lo_streams _ _ _ _ (lo_body _ _ _ _ (proj1 S1)) _ _ Hs) as [Ht Hok].
  eapply runs_call; [by apply at_log|]. intros [] w2 H2.
  eapply runs_call.
  { apply (at_put E cfg cas w0 id own w2 _ (fun c => c <| raw_streams ::= <[(e, sid) := s']> |>) H2); [split; auto|done|].
    intros key x a. cbn. destruct (decide (key = (e, sid))) as [->|Hne].
    - rewrite lookup_insert_eq. intros [= <-]. rewrite (OnRead_list _ _ _ _ _ HR). eauto.
    - rewrite lookup_insert_ne by done. eauto. }
  intros [] w3 H3. cbv beta in H3. fold (read_stream e sid reads s' c) in H3.
  assert (Ha : alive (read_stream e sid reads s' c)).
  { split; [|by left]. change (CONN_STATE_CLOSING_QUIC <= state_ c). unfold CONN_STATE_INIT, CONN_STATE_CLOSING_QUIC in *. lia. }
  assert (D2 : steady c (read_stream e sid reads s' c)) by by split.
  assert (Er : raw_streams (read_stream e sid reads s' c) !! (e, sid) = Some s') by (cbn; by rewrite lookup_insert_eq).
  assert (Ew : webtransport_ (read_stream e sid reads s' c) = webtransport_ c) by done.
  assert (Ec : config_ (read_stream e sid reads s' c) = config_ c) by done.
  set (c2 := read_stream _ _ _ _ _) in *. clearbody c2.
  eapply runs_mono; [by apply (ProcessPackets_ok id (e, sid) evs)|]. intros [] w4 (c3 & H4 & G4 & R4 & D4 & l & M4 & L4).
  exists c3. split; [done|]. split; [|split; [by eapply rel_trans|by eapply steady_trans]].
  apply (St_whole own (e, sid) c3 (hg_St _ _ _ G4)). intros s2. rewrite (proj1 M4), Er. intros [= <-].
  split; [apply G4|]. eapply (read_told c c2 c3 e sid reads s s' evs l); try done. apply R4.
Qed.

(** ** Members that the invariant does not read *)

Lemma step_same id f :
  (forall c, erase (f c) = erase c) ->
  (forall c, masque_tunnel_ (mq (f c)) = masque_tunnel_ (mq c) /\ masque_inner_ (mq (f c)) = masque_inner_ (mq c) /\
     masque_tunnel_closing_ (mq (f c)) = masque_tunnel_closing_ (mq c) /\ keep_working_ (f c) = keep_working_ c) ->
  step_ok id (put id f) (fun _ => True) (fun c _ c' => c' = f c /\ steady c c').
Proof.
  intros He Hm w0 own w c Hat HSt _. destruct (Hm c) as (M1 & M2 & M3 & M4). specialize (He c).
  pose proof (f_equal user_handler He) as E1. pose proof (f_equal (fun c => masque_role_ (mq c)) He) as E2.
  pose proof (f_equal shut He) as E3. pose proof (f_equal attached He) as E4. pose proof (f_equal new_state_ He) as E5.
  pose proof (f_equal conn_ He) as E6. pose proof (f_equal engs He) as E7.
  change (user_handler (f c) = user_handler c) in E1. change (masque_role_ (mq (f c)) = masque_role_ (mq c)) in E2.
  change (shut (f c) = shut c) in E3. change (attached (f c) = attached c) in E4. change (new_state_ (f c) = new_state_ c) in E5.
  change (conn_ (f c) = conn_ c) in E6. change (engs (f c) = engs c) in E7.
  eapply runs_mono; [apply (put_erased E cfg cas id f own w0 w c Hat HSt); [split; auto|by rewrite M3|done]|].
  { intros ?. congruence. }
  intros [] w1 (c1 & H1 & S1 & R1 & ->). exists (f c). split; [done|]. split; [done|]. split; [done|]. split; [done|].
  split; [done|done|]. intros e. by rewrite E7.
Qed.

(** ** The handshake *)

Lemma secure_trusted own c e g : St own c -> engs c !! e = Some g -> secure g = true -> trusted c.
Proof.
  intros ([_ Hb] & _) Hg Hs Hv. pose proof (lo_engines _ _ _ _ Hb) as He. unfold secure in Hs.
  rewrite (en_asked _ _ He e g Hg), Hv in Hs. by apply (en_vouched _ _ He e g Hg).
Qed.

(** The engine's connections change, but are of the kinds they were. *)
Lemma St_engs own c m :
  St own c ->
  (forall e g', m !! e = Some g' -> exists g, engs c !! e = Some g /\ is_h3 g' = is_h3 g /\ asked g' = asked g /\
     (vouched g' = true -> authentic (log_ c))) ->
  (forall e, conn_ c = Some e -> is_Some (m !! e)) ->
  St own (c <| engs := m |>) /\ rel c (c <| engs := m |>).
Proof.
  intros ([Hs Hb] & Ho & Hsh) H1 H2. split; [split; [split|done]|].
  - destruct Hs. by split.
  - destruct Hb as [[] [N1 N2 N3 N4 N5 N6] ? ? ? ? ? ?]. split; try done. split; cbn; try done.
    + intros e He. destruct (H2 e He) as [g' Hg']. exists g'. split; [done|]. destruct (H1 e g' Hg') as (g & Hg & -> & _).
      destruct (N1 e He) as (g1 & Hg1 & Hh). rewrite Hg in Hg1. by injection Hg1 as ->.
    + intros e g' Hg'. destruct (H1 e g' Hg') as (g & Hg & _). by eapply N2.
    + intros e g' Hg'. destruct (H1 e g' Hg') as (g & Hg & _ & -> & _). by eapply N3.
    + intros e g' Hg' Hv. destruct (H1 e g' Hg') as (g & Hg & _ & _ & Ha). by apply Ha.
    + destruct N5 as [N5|[N5 N5']]; [by left|right; split; [done|]]. apply map_empty. intros e.
      destruct (m !! e) as [g'|] eqn:Hg'; [|done]. destruct (H1 e g' Hg') as (g & Hg & _). rewrite N5' in Hg. by rewrite lookup_empty in Hg.
    + intros e g' Hg'. destruct (H1 e g' Hg') as (g & Hg & _). by eapply N6.
  - split; try done; [by exists []; rewrite app_nil_r|]. intros (K1 & K2 & K3). split; [done|]. split; [done|]. cbn.
    apply map_empty. intros e. destruct (m !! e) as [g'|] eqn:Hg'; [|done]. destruct (H1 e g' Hg') as (g & Hg & _). rewrite K3 in Hg.
    by rewrite lookup_empty in Hg.
Qed.

Lemma at_new_packet w0 id own w c k :
  at_ w0 id own w c ->
  runs_to (puts (fun w => w <| pkts ::= <[next_pkt w := k]> |> <| next_pkt ::= Z.succ |>))
    (fun _ w' => at_ w0 id own w' c /\ is_Some (pkts w' !! next_pkt w)) w.
Proof.
  intros [H1 H2 H3 H4]. apply runs_puts. split; [|cbn; rewrite lookup_insert_eq; eauto].
  split; [by apply glob_packet|done| |done]. intros a Ha. cbn. destruct (decide (a = next_pkt w)) as [->|Hne].
  - rewrite lookup_insert_eq. eauto.
  - rewrite lookup_insert_ne by done. by apply H3.
Qed.

(** A handler runs while the engine may call back, for the engine's connection [e]. *)
Definition called (e : Z) (c : conn) : Prop := trusted c /\ alive c /\ is_Some (engs c !! e).

Lemma called_steady own e c c' : St own c' -> rel c c' -> steady c c' -> called e c -> called e c'.
Proof.
  intros HS HR HD (H1 & H2 & H3). split; [by eapply trusted_rel|]. split; [by eapply alive_steady|]. by apply (sd_engs _ _ HD).
Qed.

Lemma called_engine e c : called e c -> exists e g, engs c !! e = Some g.
Proof. intros (_ & _ & g & Hg). eauto. Qed.

(** The finished handshake is counted and the connection goes on. *)
Lemma handshaken_ok id e :
  step_ok id (put_K (fun k => k <| active_connections ::= fun n => u64 (n + 1) |>);;
              put id (fun c => c <| state_ := CONN_STATE_CONNECTING |>)) (called e) (fun c _ c' => steady c c').
Proof.
  intros w0 own w c Hat HSt (Ht & Ha & He). eapply runs_call; [by apply at_put_K|]. intros [] w1 H1. run_set w2 H2.
  destruct (St_onward own c CONN_STATE_CONNECTING HSt Ha) as [S1 R1]; [unfold CONN_STATE_INIT, CONN_STATE_CONNECTED, CONN_STATE_CONNECTING; lia|].
  eexists. split; [exact H2|]. split; [done|]. split; [done|]. by split.
Qed.

Lemma step_seq {A B} id (m : M A) (k : A -> M B) (P : conn -> Prop) :
  (forall own c c', St own c' -> rel c c' -> steady c c' -> P c -> P c') ->
  step_ok id m P (fun c _ c' => steady c c') ->
  (forall a, step_ok id (k a) P (fun c _ c' => steady c c')) ->
  step_ok id (bind m k) P (fun c _ c' => steady c c').
Proof.
  intros HP Hm Hk w0 own w c Hat HSt HPc. eapply step_call; [exact Hm|done|done|done|]. intros a w1 c1 H1 S1 R1 D1.
  eapply runs_mono; [eapply Hk; [done|done|by eapply HP]|]. intros b w2 (c2 & H2 & S2 & R2 & D2). exists c2.
  split; [done|]. split; [done|]. split; [by eapply rel_trans|exact (steady_trans _ _ _ D1 D2)].
Qed.

Lemma step_assoc {A B C} id (m : M A) (j : M B) (k : M C) P Q : step_ok id (bind (bind m (fun _ => j)) (fun _ => k)) P Q -> step_ok id (m;; (j;; k)) P Q.
Proof.
  intros H w0 own w c Hat HSt HP. specialize (H w0 own w c Hat HSt HP). unfold runs_to, bind in *. by destruct (m w) as [[a w1]|].
Qed.

Lemma step_ret {A} id (a : A) P : step_ok id (ret a) P (fun c _ c' => steady c c').
Proof. intros w0 own w c Hat HSt _. apply runs_ret. stays c. apply steady_refl. Qed.

(** Reading and asking change nothing of the connection. *)
Lemma step_get {A B} id (f : conn -> A) (k : A -> M B) (P : conn -> Prop) :
  (forall a, step_ok id (k a) (fun c => P c /\ f c = a) (fun c _ c' => steady c c')) ->
  step_ok id (bind (get id f) k) P (fun c _ c' => steady c c').
Proof. intros Hk w0 own w c Hat HSt HP. run_get. by apply (Hk (f c) w0 own w c). Qed.

Lemma step_ask {A B} id (f : nat -> A) (k : A -> M B) (P : conn -> Prop) :
  (forall a, step_ok id (k a) P (fun c _ c' => steady c c')) -> step_ok id (bind (ask f) k) P (fun c _ c' => steady c c').
Proof. intros Hk w0 own w c Hat HSt HP. eapply runs_call; [by eapply at_ask|]. intros a w1 H1. by apply (Hk a w0 own w1 c). Qed.

Lemma step_weak {A} id (m : M A) (P P' : conn -> Prop) :
  step_ok id m P (fun c _ c' => steady c c') -> (forall own c, St own c -> P' c -> P c) -> step_ok id m P' (fun c _ c' => steady c c').
Proof. intros Hm HP. eapply step_weaken; [exact Hm|exact HP|done]. Qed.

Lemma step_steady {A} id (m : M A) (P : conn -> Prop) (Q : conn -> A -> conn -> Prop) :
  step_ok id m P Q -> (forall c a c', Q c a c' -> steady c c') -> step_ok id m P (fun c _ c' => steady c c').
Proof. intros Hm HQ. eapply step_weaken; [exact Hm|done|]. intros c a c' _ _ Hq. by eapply HQ. Qed.

Lemma notify_steady id e : quiet e -> step_ok id (notify E id e) (fun c => delivers e = true -> trusted c) (fun c _ c' => steady c c').
Proof. intros He. eapply step_steady; [by apply quiet_notify|]. intros c a c' [Hc _]. by apply steady_core. Qed.

Lemma log_steady id e : quiet e -> step_ok id (log id e) (fun c => delivers e = true -> trusted c) (fun c _ c' => steady c c').
Proof. intros He. eapply step_steady; [by apply quiet_log|]. intros c a c' [Hc _]. by apply steady_core. Qed.

Lemma nested_steady id e : step_ok id (nested_call E id e) (fun _ => True) (fun c _ c' => steady c c').
Proof. eapply step_steady; [apply nested_call_ok|]. intros c a c' [Hc _]. by apply steady_core. Qed.

Lemma answer_steady id r msg :
  step_ok id (NotifyConnectResult E id None r msg) (fun c => r = BC_R_SUCCESS -> msg <> None -> trusted c) (fun c _ c' => steady c c').
Proof. eapply step_steady; [apply NotifyConnectResult_ok|]. intros c a c' [Hc _]. by apply steady_core. Qed.

Lemma same_steady id f :
  (forall c, erase (f c) = erase c) ->
  (forall c, masque_tunnel_ (mq (f c)) = masque_tunnel_ (mq c) /\ masque_inner_ (mq (f c)) = masque_inner_ (mq c) /\
     masque_tunnel_closing_ (mq (f c)) = masque_tunnel_closing_ (mq c) /\ keep_working_ (f c) = keep_working_ c) ->
  step_ok id (put id f) (fun _ => True) (fun c _ c' => steady c c').
Proof. intros H1 H2. eapply step_steady; [by apply step_same|]. by intros c a c' [_ ?]. Qed.

(** A task posted to the connection that a tunnel carries. *)
Lemma post_inner_ok id i t :
  benign (new_world cfg cas) t -> step_ok id (PostTask i t) (fun c => masque_inner_ (mq c) = Some i) (fun c _ c' => steady c c').
Proof.
  intros Ht w0 own w c Hat HSt Hi. pose proof (gl_link _ _ _ _ _ _ (at_glob _ _ _ _ _ _ _ _ Hat) id c (at_obj _ _ _ _ _ _ _ _ Hat)) as L.
  destruct (li_inner _ _ _ L) as (j & ci & Hj & Hci & _); [apply (li_role' _ _ _ L); eauto|apply HSt|].
  rewrite Hi in Hj. injection Hj as <-. eapply runs_mono; [eapply at_post; [done|done|]|].
  { destruct t; try done. by destruct Ht as [x Hx]. }
  intros [] w1 H1. stays c. apply steady_refl.
Qed.

Lemma MasqueOnConnectUdpResponse_ok id ok :
  step_ok id (MasqueOnConnectUdpResponse id ok) (fun _ => True) (fun c _ c' => steady c c').
Proof.
  unfold MasqueOnConnectUdpResponse. apply step_get. intros m. destruct (_ && ok); [apply step_ret|].
  intros w0 own w c Hat HSt [_ Hm].
  eapply (step_call E cfg cas id _ _ (fun _ => True) (fun c _ c' => steady c c' /\ masque_inner_ (mq c') = masque_inner_ (mq c))); [|done|done|done|].
  - clear -Hat. destruct ok; cbn [when]; [|intros w1 own1 w2 c1 H1 S1 _; apply runs_ret; stays c1; split; [apply steady_refl|done]].
    eapply step_weaken; [apply step_same|done|].
    + intros c1. by destruct c1.
    + intros c1. by destruct c1.
    + by intros c1 a c2 _ _ [-> ?].
  - intros [] w1 c1 H1 S1 R1 [D1 I1]. rewrite <- Hm. destruct (masque_inner_ (mq c)) as [i|] eqn:Ei; [|apply runs_ret; by exists c1].
    eapply runs_mono; [apply (post_inner_ok id i (TTunnelReady (if ok then BC_R_SUCCESS else BC_R_FAILURE)) I w0 own w1 c1 H1 S1 I1)|].
    intros [] w2 (c2 & H2 & S2 & R2 & D2). exists c2. split; [done|]. split; [done|]. split; [by eapply rel_trans|exact (steady_trans _ _ _ D1 D2)].
Qed.

Lemma OnHandshakeFinish_ok id e : step_ok id (OnHandshakeFinish E id e) (called e) (fun c _ c' => steady c c').
Proof.
  unfold OnHandshakeFinish. pose proof (called_steady) as HC.
  apply step_assoc. apply (step_seq id _ _ (called e) (fun own c c' => HC own e c c') (handshaken_ok id e)). intros [].
  apply (step_seq id _ _ (called e) (fun own c c' => HC own e c c')); [eapply step_weak; [by apply notify_steady|by intros own c _ (? & _) _]|]. intros [].
  apply step_get. intros [|]; [apply step_ret|]. apply step_ask. intros [sid|]; [|apply step_ret].
  eapply step_weak; [|intros own c _ [Hc _]; exact Hc].
  apply (step_seq id _ _ (called e) (fun own c c' => HC own e c c')).
  { eapply step_weak; [apply OnStreamCreate_ok|]. intros own c _ Hc. split; [apply Hc|by apply (called_engine e)]. }
  intros []. apply step_get. intros rpc. apply step_get. intros t. apply step_ask. intros now.
  destruct (bool_decide (is_Some rpc)); cbn [when]; [|apply step_ret].
  intros w0 own w c Hat HSt _. apply runs_bind, runs_gets. eapply runs_call; [by apply at_new_packet|].
  intros [] w1 [H1 Hp]. by apply SendPacket_Internal_ok.
Qed.

Lemma called_seq {A B} id e (m : M A) (k : A -> M B) :
  step_ok id m (called e) (fun c _ c' => steady c c') -> (forall a, step_ok id (k a) (called e) (fun c _ c' => steady c c')) ->
  step_ok id (bind m k) (called e) (fun c _ c' => steady c c').
Proof. intros Hm Hk. apply (step_seq id _ _ (called e)); [|done|done]. intros own c c'. by apply called_steady. Qed.

Lemma any_seq {A B} id (m : M A) (k : A -> M B) (P : conn -> Prop) :
  step_ok id m P (fun c _ c' => steady c c') -> (forall a, step_ok id (k a) (fun _ => True) (fun c _ c' => steady c c')) ->
  step_ok id (bind m k) P (fun c _ c' => steady c c').
Proof.
  intros Hm Hk w0 own w c Hat HSt HP. eapply step_call; [exact Hm|done|done|done|]. intros a w1 c1 H1 S1 R1 D1.
  eapply runs_mono; [by eapply Hk|]. intros b w2 (c2 & H2 & S2 & R2 & D2). exists c2.
  split; [done|]. split; [done|]. split; [by eapply rel_trans|exact (steady_trans _ _ _ D1 D2)].
Qed.

Lemma step_called {A} id e (m : M A) (P : conn -> Prop) :
  step_ok id m P (fun c _ c' => steady c c') -> (forall c, called e c -> P c) -> step_ok id m (called e) (fun c _ c' => steady c c').
Proof. intros Hm HP. eapply step_weak; [exact Hm|]. intros own c _. apply HP. Qed.

Lemma MasqueSendConnectUdp_ok id e : step_ok id (MasqueSendConnectUdp E id e) trusted (fun c _ c' => steady c c').
Proof.
  unfold MasqueSendConnectUdp. apply step_ask. intros [sid|]; [|apply step_ret]. apply step_get. intros c0.
  assert (HP : forall own c c', St own c' -> rel c c' -> steady c c' -> trusted c -> trusted c') by (intros own c c' _ HR _; by apply trusted_rel).
  eapply step_weak; [|intros own c _ [Hc _]; exact Hc].
  apply (step_seq id _ _ trusted HP).
  { eapply step_weak; [apply same_steady|done]; intros c; by destruct c. }
  intros []. apply (step_seq id _ _ trusted HP).
  { eapply step_weak; [apply same_steady|done]; intros c; by destruct c. }
  intros []. apply (step_seq id _ _ trusted HP); [eapply step_weak; [by apply log_steady|by intros own c _ Hc _]|].
  intros []. apply any_seq; [eapply step_weak; [apply nested_steady|done]|]. intros []. apply step_ret.
Qed.

Lemma OnH3HandshakeFinish_ok id e : step_ok id (OnH3HandshakeFinish E id e) (called e) (fun c _ c' => steady c c').
Proof.
  unfold OnH3HandshakeFinish. apply step_assoc, called_seq; [apply handshaken_ok|]. intros []. apply step_get. intros role.
  eapply step_weak; [|intros own c _ [Hc _]; exact Hc]. destruct (decide (role = MASQUE_TUNNEL)).
  - apply any_seq; [eapply step_called; [apply MasqueSendConnectUdp_ok|by intros c (? & _)]|].
    intros [|]; cbn [negb when]; [apply step_ret|apply MasqueOnConnectUdpResponse_ok].
  - apply called_seq; [eapply step_called; [by apply notify_steady|by intros c (? & _) _]|]. intros [].
    apply step_ask. intros [sid|]; [|apply step_ret]. apply step_get. intros c0. eapply step_weak; [|intros own c _ [Hc _]; exact Hc].
    intros w0 own w c Hat HSt Hc. apply runs_bind, runs_gets. revert w0 own w c Hat HSt Hc.
    assert (Hgo : forall hs, step_ok id (put id (fun c => c <| h3_streams ::= <[(e, sid) := new_h3_stream <| hdr_sent_ := true |>]> |>);;
      log id (EvHeaders e sid hs);; nested_call E id e) (called e) (fun c _ c' => steady c c')).
    { intros hs. apply called_seq; [eapply step_called; [apply same_steady|done]; intros c; by destruct c|]. intros [].
      apply any_seq; [eapply step_called; [by apply log_steady|by intros c (? & _) _]|]. intros []. apply nested_steady. }
    intros w0 own w c. by apply Hgo.
Qed.

Lemma refused_steady id e msg :
  step_ok id (put id (fun c => c <| state_ := CONN_STATE_INIT |>);; NotifyConnectResult E id None BC_R_FAILURE msg;; Close id)
    (fun c => called e c /\ is_Some (connect_rpc_ c)) (fun c _ c' => steady c c').
Proof.
  intros w0 own w c Hat HSt [(_ & Ha & _) Hs]. run_set w1 H1.
  eapply runs_call; [by apply NotifyConnectResult_does|]. intros [] w2 H2.
  destruct (St_refused own c BC_R_FAILURE msg HSt Ha Hs ltac:(done)) as [S2 R2].
  assert (D2 : steady c (answer None BC_R_FAILURE msg (c <| state_ := CONN_STATE_INIT |>))).
  { eapply steady_trans; [|apply steady_core, answer_core]. by split. }
  set (c2 := answer _ _ _ _) in *. unfold Close.
  eapply runs_mono; [eapply at_post_working; [done|apply H2|done]|]. intros [] w3 H3. by exists c2.
Qed.

Lemma onward_steady id e s :
  CONN_STATE_INIT < s <= CONN_STATE_CONNECTED ->
  step_ok id (put id (fun c => c <| state_ := s |>)) (called e) (fun c _ c' => steady c c').
Proof.
  intros Hs w0 own w c Hat HSt (_ & Ha & _). run_set w1 H1. destruct (St_onward own c s HSt Ha Hs) as [S1 R1].
  eexists. split; [exact H1|]. split; [done|]. split; [done|]. by split.
Qed.

Lemma put_K_steady id f :
  (forall k, let k' := f k in k_state k' = k_state k /\ k_new_state k' = k_new_state k /\ conns_map_ k' = conns_map_ k /\
     next_conn_id_ k' = next_conn_id_ k /\ total_allocated_ k' = total_allocated_ k /\ total_freed_ k' = total_freed_ k /\
     k_config k' = k_config k /\ k_root_cas k' = k_root_cas k /\ engine_destroyed k' = engine_destroyed k /\
     told_closed k' = told_closed k) -> step_ok id (put_K f) (fun _ => True) (fun c _ c' => steady c c').
Proof.
  intros Hf w0 own w c Hat HSt _. eapply runs_mono; [by apply at_put_K|]. intros [] w1 H1. stays c. apply steady_refl.
Qed.

Lemma OnH3RequestRecvHeaders_ok id e headers :
  step_ok id (OnH3RequestRecvHeaders E id headers) (called e) (fun c _ c' => steady c c').
Proof.
  unfold OnH3RequestRecvHeaders. apply step_get. intros role. destruct (decide (role = MASQUE_TUNNEL)).
  { eapply step_weak; [apply MasqueOnConnectUdpResponse_ok|done]. }
  apply step_get. intros rpc. destruct (bool_decide (is_Some rpc)) eqn:Er; cbn [when]; [|apply step_ret].
  apply bool_decide_eq_true in Er. destruct headers as [hs|].
  - eapply step_weak; [|intros own c _ [[Hc _] _]; exact Hc].
    apply called_seq; [apply onward_steady; unfold CONN_STATE_INIT, CONN_STATE_CONNECTED; lia|]. intros [].
    apply any_seq; [eapply step_called; [apply answer_steady|by intros c (Hc & _) _ _]|]. intros []. by apply put_K_steady.
  - eapply step_weak; [apply refused_steady|]. intros own c _ [[Hc _] Hr]. split; [exact Hc|]. by rewrite Hr.
Qed.

Lemma OnH3Read_ok id e sid header body : step_ok id (OnH3Read E id e sid header body) (called e) (fun c _ c' => steady c c').
Proof.
  unfold OnH3Read. apply step_get. intros [s|]; [|apply step_ret]. eapply step_weak; [|intros own c _ [Hc _]; exact Hc].
  intros w0 own w c Hat HSt Hc. eapply step_call; [apply CloseCheck_ok|done|done|done|]. intros [|] w1 c1 H1 S1 R1 [Q1 Q1'].
  { apply runs_ret. exists c1. split; [done|]. split; [done|]. split; [done|]. by apply steady_outer. }
  destruct Q1' as (-> & _). clear Q1 R1 Hat HSt. revert w0 own w1 c H1 S1 Hc.
  assert (Hput : forall x, step_ok id (put id (fun c => c <| h3_streams ::= <[(e, sid) := x]> |>)) (fun _ => True) (fun c _ c' => steady c c')).
  { intros x. apply same_steady; intros c; by destruct c. }
  assert (Hread : step_ok id (match body with Some reads => put id (fun c => c <| h3_streams ::= <[(e, sid) := read_body s reads]> |>) | None => ret tt end)
    (fun _ => True) (fun c _ c' => steady c c')) by (destruct body; [apply Hput|apply step_ret]).
  assert (Hgo : step_ok id (match header with
    | None => match body with Some reads => put id (fun c => c <| h3_streams ::= <[(e, sid) := read_body s reads]> |>) | None => ret tt end
    | Some (None, _) => OnH3RequestRecvHeaders E id None
    | Some (Some hs, fin) => OnH3RequestRecvHeaders E id (Some hs);;
        if fin : bool then put id (fun c => c <| h3_streams ::= <[(e, sid) := s <| recv_fin_ := true |>]> |>)
        else match body with Some reads => put id (fun c => c <| h3_streams ::= <[(e, sid) := read_body s reads]> |>) | None => ret tt end
    end) (called e) (fun c _ c' => steady c c')).
  { destruct header as [[[hs|] fin]|].
    - apply any_seq; [apply OnH3RequestRecvHeaders_ok|]. intros []. destruct fin; [apply Hput|apply Hread].
    - apply OnH3RequestRecvHeaders_ok.
    - eapply step_called; [apply Hread|done]. }
  intros w0 own w1 c. apply Hgo.
Qed.

Lemma MasqueOnDatagram_ok id bs : step_ok id (MasqueOnDatagram id bs) (fun _ => True) (fun c _ c' => steady c c').
Proof.
  unfold MasqueOnDatagram. apply step_get. intros m. destruct (DecodeDatagram bs) as [[[qsid ctx] payload]|]; [|apply step_ret].
  destruct (_ || _ || _); [apply step_ret|]. destruct (masque_inner_ m) as [i|] eqn:Hi; [|apply step_ret].
  eapply step_weak; [by apply post_inner_ok|]. by intros own c _ [_ ->].
Qed.

(** ** The peer's chain *)

Lemma St_verified own c certs host :
  St own c ->
  let ev := EvCertVerify certs host (on_conn_cert_verify (O E) (config_ c) host (root_cas_ c) cfg cas certs).1 in
  St own (logged ev c) /\ rel c (logged ev c).
Proof.
  intros ([Hs Hb] & Ho & Hsh) ev.
  assert (Eo : owned (logged ev c) = owned c).
  { change (answered (log_ c ++ [ev]) ++ match connect_rpc_ c with Some s => [s] | None => [] end = owned c).
    by rewrite answered_snoc, app_nil_r. }
  split; [|apply rel_log; by rewrite Eo].
  split; [split|split; [intros x Hx; apply Ho; rewrite <- Eo; exact Hx|done]]; [by apply states_log|].
  apply body_log; try done; [rewrite Eo; apply Hb|]. intros key s _. by apply stream_ok_logged.
Qed.

Lemma OnCertVerify_ok id e certs : step_ok id (OnCertVerify E id e certs) (fun _ => True) (fun c _ c' => steady c c').
Proof.
  intros w0 own w c Hat HSt _. unfold OnCertVerify. run_get. apply runs_bind, runs_gets.
  destruct (ko_config _ _ _ (gl_connector _ _ _ _ _ _ (at_glob _ _ _ _ _ _ _ _ Hat))) as [-> ->].
  pose proof (St_verified own c certs (host_ (tgt c)) HSt) as HV. cbv zeta in HV.
  destruct (on_conn_cert_verify (O E) (config_ c) (host_ (tgt c)) (root_cas_ c) cfg cas certs) as [ok err] eqn:Ev. cbn [fst] in HV.
  destruct HV as [S1 R1]. set (ev := EvCertVerify certs (host_ (tgt c)) ok) in *.
  set (note := fun c : conn => match err with Some _ => c <| cert_verify_error_ := err |> | None => c end).
  eapply runs_call.
  { apply (at_put E cfg cas w0 id own w c (fun c => (note c) <| engs ::= alter (fun g => g <| vouched := ok |>) e |>) Hat).
    - unfold note. destruct err; split; auto.
    - unfold note. by destruct err.
    - apply same_no_new. unfold note. by destruct err. }
  intros [] w1 H1. cbv beta in H1. eapply runs_mono; [by apply at_log|]. intros [] w2 H2. eexists. split; [exact H2|].
  destruct (St_engs own (logged ev c) (alter (fun g => g <| vouched := ok |>) e (engs c)) S1) as [S2 R2].
  { intros e' g'. rewrite lookup_alter_Some. intros [(-> & g & Hg & ->)|[_ Hg']].
    - exists g. split; [exact Hg|]. split; [done|]. split; [done|]. cbn. intros ->. exists certs, (host_ (tgt c)). apply elem_of_app. right. by left.
    - exists g'. split; [exact Hg'|]. split; [done|]. split; [done|]. intros Hv. apply authentic_app.
      exact (en_vouched _ _ (lo_engines _ _ _ _ (lo_body _ _ _ _ (proj1 HSt))) e' g' Hg' Hv). }
  { intros e' He'. destruct (en_conn _ _ (lo_engines _ _ _ _ (lo_body _ _ _ _ (proj1 HSt))) e' He') as (g & Hg & _).
    destruct (decide (e' = e)) as [->|Hne]; [rewrite lookup_alter_eq, Hg; eauto|rewrite lookup_alter_ne by done; eauto]. }
  assert (Ee : erase (logged ev ((note c) <| engs ::= alter (fun g => g <| vouched := ok |>) e |>)) =
    erase ((logged ev c) <| engs := alter (fun g => g <| vouched := ok |>) e (engs c) |>)) by (unfold note; by destruct err, c).
  assert (D : steady c (logged ev ((note c) <| engs ::= alter (fun g => g <| vouched := ok |>) e |>))).
  { split; [by unfold note; destruct err|by unfold note; destruct err|]. intros e'.
    replace (engs (logged ev ((note c) <| engs ::= alter (fun g => g <| vouched := ok |>) e |>))) with (alter (fun g => g <| vouched := ok |>) e (engs c))
      by (unfold note; by destruct err).
    destruct (decide (e' = e)) as [->|Hne]; [rewrite lookup_alter_eq; by destruct (engs c !! e)|by rewrite lookup_alter_ne]. }
  destruct (St_same E cfg cas own _ _ Ee S2) as [S3 R3]. split; [done|]. split; [|done].
  eapply rel_trans; [exact R1|]. by eapply rel_trans.
Qed.

(** ** Connections of the engine destroyed *)

Lemma St_closing own c r : St own c -> 
  St own (c <| new_state_ := CONN_STATE_FREED |> <| close_status_ := r |>) /\ rel c (c <| new_state_ := CONN_STATE_FREED |> <| close_status_ := r |>).
Proof.
  intros ([[X1 X2 X3 X4 X5 X6 X7 X8 X9] Hb] & Ho & Hsh). split; [split; [split|done]|].
  - split; try done. by left.
  - destruct Hb as [[] [] ? ? ? ? ? ?]. split; try done; by split.
  - split; try done; [by exists []; rewrite app_nil_r|]. by intros (? & _ & ?).
Qed.

Lemma St_no_conn own c : St own c -> St own (c <| conn_ := None |>) /\ rel c (c <| conn_ := None |>).
Proof.
  intros ([[X1 X2 X3 X4 X5 X6 X7 X8 X9] Hb] & Ho & Hsh). split; [split; [split|done]|].
  - by split.
  - destruct Hb as [[] [] ? ? ? ? ? ?]. split; try done; by split.
  - split; try done. by exists []; rewrite app_nil_r.
Qed.

Lemma set_state_ok id r :
  step_ok id (set_state id CONN_STATE_FREED r) (fun _ => True) (fun c _ c' => c' = c <| new_state_ := CONN_STATE_FREED |> <| close_status_ := r |>).
Proof.
  intros w0 own w c Hat HSt _. eapply runs_mono; [by apply set_state_does|]. intros [] w1 H1.
  destruct (St_closing own c r HSt). eauto 6.
Qed.

(** A task that is guarded leaves the connection at rest. *)
Lemma guarded_ok id m (P : conn -> Prop) (T : conn -> conn -> Prop) :
  (forall c c', outer c' = outer c -> T c c') -> (forall c1 c2 c3, T c1 c2 -> T c2 c3 -> T c1 c3) ->
  step_ok id m (fun c => P c /\ new_state_ c = CONN_STATE_MAX /\ CONN_STATE_INIT <= state_ c) (fun c _ c' => T c c') ->
  step_ok id (guarded E id m) P (fun c _ c' => T c c' /\ rest c').
Proof.
  intros T1 T2 Hm w0 own w c Hat HSt HP. unfold guarded.
  eapply step_call; [apply CloseCheck_ok|done|done|done|]. intros [|] w1 c1 H1 S1 R1 [Q1 Q1'].
  { apply runs_ret. exists c1. split; [done|]. split; [done|]. split; [done|]. split; [by apply T1|apply Q1']. }
  destruct Q1' as (-> & Hn & Hi). eapply step_call; [exact Hm|done|done|done|]. intros [] w2 c2 H2 S2 R2 Q2.
  eapply step_call; [apply CloseCheck_ok|done|done|done|]. intros b w3 c3 H3 S3 R3 [Q3 Q3'].
  apply runs_ret. exists c3. split; [done|]. split; [done|]. split; [by eapply rel_trans|].
  split; [eapply T2; [exact Q2|by apply T1]|]. destruct b; [apply Q3'|]. destruct Q3' as (-> & Hn' & _). intros Hf. by rewrite Hn' in Hf.
Qed.

(** A connection that works is not closed by the check. *)
Lemma CloseCheck_working w0 id own w c :
  at_ w0 id own w c -> CONN_STATE_INIT <= state_ c <= CONN_STATE_CONNECTED -> new_state_ c = CONN_STATE_MAX ->
  runs_to (CloseCheck E id) (fun b w' => b = false /\ at_ w0 id own w' c) w.
Proof.
  intros Hat Hs Hn. unfold CloseCheck. run_get. rewrite Hn. unfold CONN_STATE_INIT, CONN_STATE_CONNECTED, CONN_STATE_MAX, CONN_STATE_FREED in *.
  rewrite (proj2 (Z.leb_le _ _)) by lia. rewrite (proj2 (Z.ltb_lt _ _)) by lia. by apply runs_ret.
Qed.

Definition gone (e : Z) (c : conn) : Prop := engs c !! e = None.

Lemma gone_outer e c c' : outer c' = outer c -> gone e c -> gone e c'.
Proof. intros Ho H. unfold gone in *. by rewrite (outer_field engs _ _ Ho ltac:(reflexivity)). Qed.

(** What a handler destroyed is not in its connection any more. *)
Definition destroyed (e : Z) (h3 : bool) (msg : bytes) (c : conn) : conn :=
  let c := c <| engs ::= delete e |> in
  if h3 then c <| conn_close_msg_ := Some msg |> <| h3_conn_ := None |>
  else (if bool_decide (is_Some (conn_ c)) then c <| conn_close_msg_ := Some msg |> else c) <| delay_tasks := ∅ |> <| conn_ := None |>.

Lemma St_destroyed own c e h3 msg r :
  St own c -> h3 = match engs c !! e with Some g => is_h3 g | None => false end ->
  St own ((destroyed e h3 msg c) <| new_state_ := CONN_STATE_FREED |> <| close_status_ := r |>) /\
  rel c ((destroyed e h3 msg c) <| new_state_ := CONN_STATE_FREED |> <| close_status_ := r |>).
Proof.
  intros HSt Hh. pose proof (lo_engines _ _ _ _ (lo_body _ _ _ _ (proj1 HSt))) as HN.
  assert (Hdel : forall c1 : conn, engs c1 = engs c -> log_ c1 = log_ c -> forall e' g', delete e (engs c1) !! e' = Some g' ->
    exists g, engs c1 !! e' = Some g /\ is_h3 g' = is_h3 g /\ asked g' = asked g /\ (vouched g' = true -> authentic (log_ c1))).
  { intros c1 E1 E2 e' g' [_ Hg']%lookup_delete_Some. exists g'. split; [done|]. split; [done|]. split; [done|]. rewrite E1 in Hg'. rewrite E2.
    exact (en_vouched _ _ HN e' g' Hg'). }
  unfold destroyed. destruct h3.
  - destruct (St_engs own c (delete e (engs c)) HSt (Hdel c eq_refl eq_refl)) as [S1 R1].
    { intros e' He'. destruct (en_conn _ _ HN e' He') as (g & Hg & Hg3). exists g. rewrite lookup_delete_ne; [done|].
      intros <-. rewrite Hg in Hh. congruence. }
    destruct (St_closing own _ r S1) as [S2 R2].
    match goal with |- St own ?x /\ _ => assert (Ee : erase x = erase ((c <| engs := delete e (engs c) |>) <| new_state_ := CONN_STATE_FREED |> <| close_status_ := r |>)) by by destruct c end.
    destruct (St_same E cfg cas own _ _ Ee S2) as [S3 R3]. split; [exact S3|]. eapply rel_trans; [exact R1|]. by eapply rel_trans.
  - destruct (St_no_conn own c HSt) as [S1 R1].
    destruct (St_engs own _ (delete e (engs c)) S1 (Hdel _ eq_refl eq_refl)) as [S2 R2]; [done|].
    destruct (St_closing own _ r S2) as [S3 R3]. destruct (St_no_timers E cfg cas own _ S3 eq_refl) as [S4 R4].
    match type of S4 with SMPInvariant.St _ _ _ _ ?y =>
      match goal with |- St own ?x /\ _ => assert (Ee : erase x = erase y) by (destruct c; cbn; by case_bool_decide) end end.
    destruct (St_same E cfg cas own _ _ Ee S4) as [S5 R5]. split; [exact S5|].
    eapply rel_trans; [exact R1|]. eapply rel_trans; [exact R2|]. eapply rel_trans; [exact R3|]. by eapply rel_trans.
Qed.

Lemma OnClose_ok id e msg :
  step_ok id (OnClose E id e msg) (fun _ => True) (fun c _ c' => gone e c' /\ rest c' /\ (state_ c = CONN_STATE_INIT -> state_ c' = CONN_STATE_INIT)).
Proof.
  intros w0 own w c Hat HSt _. unfold OnClose. run_get. cbv beta.
  set (h3 := match engs c !! e with Some g => is_h3 g | None => false end).
  pose proof (St_destroyed own c e h3 msg BC_R_NETDOWN HSt eq_refl) as HD. cbv zeta in HD.
  run_set w1 H1.
  eapply (runs_call _ _ (fun _ w' => at_ w0 id own w' (destroyed e h3 msg c))).
  { destruct h3.
    - eapply runs_mono; [apply (at_put E cfg cas w0 id own w1 _ (fun c => c <| conn_close_msg_ := Some msg |> <| h3_conn_ := None |>) H1); [split; auto|done|by apply same_no_new]|done].
    - eapply runs_call.
      { apply (at_put E cfg cas w0 id own w1 _ (fun c => if bool_decide (is_Some (conn_ c)) then c <| conn_close_msg_ := Some msg |> else c) H1).
        - case_bool_decide; split; auto.
        - by case_bool_decide.
        - case_bool_decide; by apply same_no_new. }
      intros [] w2 H2. cbv beta in H2. eapply runs_call; [by apply UnscheduleAllTasks_does|]. intros [] w3 H3. cbv beta in H3.
      eapply runs_mono; [apply (at_put E cfg cas w0 id own w3 _ (fun c => c <| conn_ := None |>) H3); [split; auto|done|by apply same_no_new]|].
      done. }
  intros [] w2 H2.
  assert (Hg : gone e (destroyed e h3 msg c)).
  { unfold gone, destroyed. destruct h3; [apply lookup_delete_eq|]. destruct c. cbn. case_bool_decide; apply lookup_delete_eq. }
  assert (F1 : new_state_ (destroyed e h3 msg c) = new_state_ c) by (unfold destroyed; destruct h3; [done|]; destruct c; cbn; by case_bool_decide).
  assert (F2 : state_ (destroyed e h3 msg c) = state_ c) by (unfold destroyed; destruct h3; [done|]; destruct c; cbn; by case_bool_decide).
  pose proof HSt as ([[X1 X2 X3 X4 X5 X6 X7] _] & _). unfold guarded. destruct HD as [SD RD].
  set (d := destroyed e h3 msg c) in *. clearbody d. destruct X2 as [Hn|Hn].
  - assert (Ee : erase d = erase (d <| new_state_ := CONN_STATE_FREED |> <| close_status_ := BC_R_NETDOWN |>)).
    { destruct d. cbn in F1. rewrite <- Hn, <- F1. done. }
    destruct (St_same E cfg cas own _ _ Ee SD) as [S2 R2].
    eapply step_call; [apply CloseCheck_ok|done|done|done|]. intros [|] w3 c3 H3 S3 R3 [Q3 Q3'].
    + apply runs_ret. exists c3. split; [done|]. split; [done|].
      split; [eapply rel_trans; [exact RD|by eapply rel_trans]|]. split; [by eapply gone_outer|]. destruct Q3' as (_ & Q3' & _ & _ & Q4). split; [exact Q3'|].
      intros Hs. rewrite Q4; [by rewrite F2|]. by rewrite F2.
    + destruct Q3' as (_ & Hn' & _). rewrite F1, Hn in Hn'. done.
  - assert (Hi : CONN_STATE_INIT <= state_ d <= CONN_STATE_CONNECTED).
    { rewrite F2. split; [|unfold CONN_STATE_CONNECTED; lia]. destruct (Z.le_gt_cases CONN_STATE_INIT (state_ c)) as [|Hlt]; [done|].
      rewrite X3 in Hn by lia. done. }
    eapply runs_call; [by eapply CloseCheck_working; [done|done|congruence]|]. intros b w3 [-> H3].
    eapply runs_call; [by apply set_state_does|]. intros [] w4 H4. cbv beta in H4.
    eapply step_call; [apply CloseCheck_ok|exact H4|exact SD|done|]. intros b w5 c5 H5 S5 R5 [Q5 Q5'].
    apply runs_ret. exists c5. split; [done|]. split; [done|]. split; [by eapply rel_trans|].
    split; [by eapply gone_outer|]. destruct b; [|by destruct Q5' as (_ & Hn' & _)]. destruct Q5' as (_ & Q5' & _ & _ & Q6).
    split; [exact Q5'|]. intros Hs. rewrite Q6; [|change (state_ d = CONN_STATE_INIT); congruence]. change (state_ d = CONN_STATE_INIT). congruence.
Qed.

(** ** The engine's calls *)

(** The engine may run its connection [e]: it is destroyed, or may call back. *)
Definition runnable (e : Z) (c : conn) : Prop := gone e c \/ alive c.

Lemma runnable_steady own e c c' : St own c' -> steady c c' -> runnable e c -> runnable e c'.
Proof.
  intros HS HD [Hg|Ha]; [left|right; by eapply alive_steady]. unfold gone in *.
  pose proof (sd_engs _ _ HD e) as He. rewrite Hg in He. destruct (engs c' !! e); [|done]. by destruct (proj1 He ltac:(eauto)).
Qed.

(** What a callback, or a call, of the engine did. *)
Definition ran (cls : call_class) (e : Z) (c c' : conn) : Prop := runnable e c' /\ (cls = Logic -> steady c c').

Lemma steady_ran {A} cls id e (m : M A) (P : conn -> Prop) :
  step_ok id m P (fun c _ c' => steady c c') -> step_ok id m (fun c => P c /\ runnable e c) (fun c _ c' => ran cls e c c').
Proof.
  intros Hm w0 own w c Hat HSt [HP Hr]. eapply runs_mono; [by eapply Hm|]. intros a w1 (c1 & H1 & S1 & R1 & D1). exists c1.
  split; [done|]. split; [done|]. split; [done|]. split; [by eapply runnable_steady|done].
Qed.

Lemma hs_done_steady id e :
  step_ok id (put id (fun c => c <| engs ::= alter (fun g => g <| hs_done := true |>) e |>)) (fun _ => True) (fun c _ c' => steady c c').
Proof.
  intros w0 own w c Hat HSt _. run_set w1 H1. pose proof (lo_engines _ _ _ _ (lo_body _ _ _ _ (proj1 HSt))) as HN.
  destruct (St_engs own c (alter (fun g => g <| hs_done := true |>) e (engs c)) HSt) as [S1 R1].
  { intros e' g'. rewrite lookup_alter_Some. intros [(-> & g & Hg & ->)|[_ Hg']].
    - exists g. split; [exact Hg|]. split; [done|]. split; [done|]. exact (en_vouched _ _ HN _ g Hg).
    - exists g'. split; [exact Hg'|]. split; [done|]. split; [done|]. exact (en_vouched _ _ HN e' g' Hg'). }
  { intros e' He'. destruct (en_conn _ _ HN e' He') as (g & Hg & _).
    destruct (decide (e' = e)) as [->|Hne]; [rewrite lookup_alter_eq, Hg; eauto|rewrite lookup_alter_ne by done; eauto]. }
  eexists. split; [exact H1|]. split; [exact S1|]. split; [exact R1|]. split; [done|done|]. intros e'. cbn.
  destruct (decide (e' = e)) as [->|Hne]; [rewrite lookup_alter_eq; by destruct (engs c !! e)|by rewrite lookup_alter_ne].
Qed.

(** What the engine keeps to. *)
Lemma cb_allowed_needs cls g cb :
  cb_allowed cls g cb = true -> leaf cb = true \/
  match cb with
  | CbHandshake | CbStreamCreate _ | CbStreamClose _ | CbPacketAcked _ | CbH3Read _ _ _ => secure g = true
  | CbStreamRead _ reads => secure g = true /\ Forall read_ok reads
  | CbClose _ => cls = Drive
  | _ => True
  end.
Proof.
  intros H. destruct cls; [by left|..]; destruct cb; cbn in *; auto; right; try (apply andb_prop in H as [H1 H2]); try done.
  all: split; [done|by apply bool_decide_eq_true in H2].
Qed.

Lemma run_cb_ok cls id e cb : step_ok id (run_cb E cls id e cb) (runnable e) (fun c _ c' => ran cls e c c').
Proof.
  intros w0 own w c Hat HSt Hr. unfold run_cb. run_get.
  assert (Hstay : runs_to (ret tt) (fun _ w' => exists c', at_ w0 id own w' c' /\ St own c' /\ rel c c' /\ ran cls e c c') w).
  { apply runs_ret. stays c. split; [done|]. intros _. apply steady_refl. }
  destruct (engs c !! e) as [g|] eqn:Hg; [|exact Hstay]. destruct (cb_allowed cls g cb) eqn:Hal; cbn [when]; [|exact Hstay]. clear Hstay.
  assert (Ha : alive c) by (destruct Hr as [Hr|Hr]; [unfold gone in Hr; congruence|done]).
  assert (Hc : secure g = true -> called e c) by (intros Hs; split; [by eapply secure_trusted|split; [done|eauto]]).
  assert (Hdo : forall (m : M unit) (P : conn -> Prop), step_ok id m P (fun c _ c' => steady c c') -> P c ->
    runs_to m (fun _ w' => exists c', at_ w0 id own w' c' /\ St own c' /\ rel c c' /\ ran cls e c c') w).
  { intros m P Hm HP. by apply (steady_ran cls id e m P Hm w0 own w c). }
  assert (Hleaf : runs_to (leaf_cb E id e cb) (fun _ w' => exists c', at_ w0 id own w' c' /\ St own c' /\ rel c c' /\ ran cls e c c') w).
  { eapply (Hdo _ (fun c => exists e g, engs c !! e = Some g)); [|eauto]. eapply step_steady; [apply leaf_cb_ok|]. intros ? ? ? [Hq _]. by apply steady_core. }
  destruct (cb_allowed_needs cls g cb Hal) as [Hl|Hn]; [by destruct cb|]. clear Hal.
  destruct cb as [bs| |tid|tid b| | |certs| |sid|sid reads|sid|sid|sid|sid header body|sid|bs|msg]; try exact Hleaf; clear Hleaf.
  - eapply Hdo; [apply OnCertVerify_ok|done].
  - eapply (Hdo _ (called e)); [|by apply Hc]. apply called_seq; [eapply step_weak; [apply hs_done_steady|done]|]. intros [].
    destruct (is_h3 g); [apply OnH3HandshakeFinish_ok|apply OnHandshakeFinish_ok].
  - eapply (Hdo _ (called e)); [|by apply Hc]. eapply step_called; [apply OnStreamCreate_ok|]. intros c1 Hc1. split; [apply Hc1|by apply (called_engine e)].
  - destruct Hn as [Hs Hr']. eapply Hdo; [apply OnStreamRead_ok|exact Hr'].
  - eapply Hdo; [apply OnStreamWrite_ok|done].
  - eapply Hdo; [apply OnStreamClose_ok|by apply (secure_trusted own c e g)].
  - eapply (Hdo _ (called e)); [|by apply Hc]. apply step_get. intros known. destruct known; cbn [when]; [|apply step_ret].
    eapply step_weak; [by apply notify_steady|]. by intros own' c1 _ [(Ht & _) _] _.
  - eapply Hdo; [apply OnH3Read_ok|by apply Hc].
  - eapply Hdo; [apply same_steady|done]; intros c1; by destruct c1.
  - eapply (Hdo _ (fun _ => True)); [|done]. destruct (_ && _); cbn [when]; [apply MasqueOnDatagram_ok|apply step_ret].
  - subst cls. eapply runs_mono; [by apply OnClose_ok|]. intros [] w1 (c1 & H1 & S1 & R1 & G1 & _). exists c1.
    split; [done|]. split; [done|]. split; [done|]. split; [by left|done].
Qed.

Lemma ran_trans cls e c1 c2 c3 : ran cls e c1 c2 -> ran cls e c2 c3 -> ran cls e c1 c3.
Proof. intros [A1 A2] [B1 B2]. split; [done|]. intros Hl. exact (steady_trans _ _ _ (A2 Hl) (B2 Hl)). Qed.

Lemma engine_call_ok cls id e : step_ok id (engine_call E cls id e) (runnable e) (fun c _ c' => ran cls e c c').
Proof.
  intros w0 own w c Hat HSt Hr. unfold engine_call. eapply runs_call; [by eapply at_ask|]. intros cbs w1 H1. clear Hat w.
  revert w1 c H1 HSt Hr. induction cbs as [|cb cbs IH]; intros w c Hat HSt Hr; cbn [each].
  { apply runs_ret. stays c. split; [done|]. intros _. apply steady_refl. }
  eapply step_call; [apply run_cb_ok|done|done|done|]. intros [] w1 c1 H1 S1 R1 D1.
  eapply runs_mono; [eapply IH; [done|done|apply D1]|]. intros [] w2 (c2 & H2 & S2 & R2 & D2). exists c2.
  split; [done|]. split; [done|]. split; [by eapply rel_trans|by eapply ran_trans].
Qed.

End Handlers.
