(* ===== verification/SMPTunnels.v ===== *)
(** * SMPTunnels: connections made, paired and deleted

    What changes the connections of a connector together: a task taken from a queue, a MASQUE
    tunnel made for a connection and deleted again, the end of a connection, and its deletion.
    Each keeps [glob] of [SMPInvariant]. *)

From Stdlib Require Import ZArith Lia.
From stdpp Require Import base numbers option gmap list.
From S2P Require Import Prelude Results VpnPolicy Buffer MasqueFraming SMPParser BCFObject TlsContext SMPConfig SMPStream SMPConnection SMPInvariant.

Section Tunnels.
Context (E : env) (cfg : Connector.config) (cas : list X509).
Abbreviation at_ := (at_ E cfg cas).
Abbreviation glob := (glob E cfg cas).
Abbreviation local := (local E cfg cas).

(** A connection that does not change, in a world that changed elsewhere. *)
Lemma link_elsewhere w w' j x :
  link_ok w j x ->
  (forall t ct, masque_tunnel_ (mq x) = Some t -> objs w !! t = Some ct ->
     objs w' !! t = Some ct /\ (told_to_close ct (queue w t) -> told_to_close ct (queue w' t))) ->
  (forall i ci, masque_inner_ (mq x) = Some i -> objs w !! i = Some ci -> masque_tunnel_ (mq ci) = Some j ->
     exists ci', objs w' !! i = Some ci' /\ masque_tunnel_ (mq ci') = Some j) ->
  (told_to_close x (queue w j) -> told_to_close x (queue w' j)) ->
  (TTunnelClosed ∈ queue w' j <-> TTunnelClosed ∈ queue w j) ->
  next_conn_id_ (K w) <= next_conn_id_ (K w') ->
  (j ∈ conns_map_ (K w') <-> j ∈ conns_map_ (K w)) -> k_state (K w') = k_state (K w) -> pkts w' = pkts w ->
  link_ok w' j x.
Proof.
  intros [L1 L2 L3 L4 L5 L6 L7 L8 L9 L10 L11 L12 L13 L14] Ht Hi Htold Hcl Hnext Hmap Hst Hp.
  split; rewrite ?Hcl, ?Hmap, ?Hst, ?Hp; try done; try lia.
  - intros t Hxt. destruct (L9 t Hxt) as (ct & G1 & G2 & G3 & G4 & G5). destruct (Ht t ct Hxt G1) as [G1' G6].
    exists ct. rewrite Hcl. split; [done|]. split; [done|]. split; [done|]. split; [done|]. auto.
  - intros Hr Hs. destruct (L10 Hr Hs) as (i & ci & G1 & G2 & G3). destruct (Hi i ci G1 G2 G3) as (ci' & ? & ?). eauto.
  - auto.
Qed.

Lemma queue_set w w' i q j : queues w' = <[i := q]> (queues w) -> queue w' j = if decide (j = i) then q else queue w j.
Proof. intros E1. unfold queue. rewrite E1. case_decide as H; [by rewrite H, lookup_insert_eq|by rewrite lookup_insert_ne]. Qed.

(** ** A task is taken from its queue *)

Definition stub_of (t : task) : list Z := match t with TConnect s _ _ _ _ _ _ _ => [s] | _ => [] end.

Lemma tunnel_closed_or t : t = TTunnelClosed \/ t <> TTunnelClosed.
Proof. destruct t; first [right; discriminate|left; reflexivity]. Qed.

Lemma stubs_cons t q : stubs_of (t :: q) = stub_of t ++ stubs_of q.
Proof. by destruct t. Qed.

Lemma at_pop w0 id own w c t q :
  at_ w0 id own w c -> queue w id = t :: q ->
  (t = TTunnelClosed -> masque_tunnel_ (mq c) = None) -> (t = TClose -> new_state_ c = CONN_STATE_FREED) ->
  at_ w0 id (stub_of t ++ own) (w <| queues ::= <[id := q]> |>) c.
Proof.
  intros [[H1 H2 H3 H4 H5] Hc Hp Hoth] Hq Htc Hcl. set (w1 := w <| queues ::= _ |>).
  assert (Hq1 : forall j, queue w1 j = if decide (j = id) then q else queue w j) by (intros j; by apply queue_set).
  assert (Htold : forall j y, objs w !! j = Some y -> told_to_close y (queue w j) -> told_to_close y (queue w1 j)).
  { intros j y Hy. rewrite Hq1. case_decide as Hj; [|done]. rewrite Hj in *. rewrite Hc in Hy. injection Hy as <-. rewrite Hq.
    intros [Hn|[Hin|Hin]%elem_of_cons]; [by left|left; by apply Hcl|by right]. }
  split; [|done..]. split; [by destruct H1| | |done|done].
  - intros j x Hj. change (objs w !! j = Some x) in Hj. destruct (decide (j = id)) as [->|Hne].
    + rewrite Hc in Hj. injection Hj as <-. destruct (tunnel_closed_or t) as [Ht|Ht].
      * specialize (Htc Ht). destruct (H2 id c Hc) as [L1 L2 L3 L4 L5 L6 L7 L8 L9 L10 L11 L12 L13 L14].
        split; try done; [|by intros t' Ht'; rewrite Htc in Ht'|by intros Hm Hk; eapply Htold, L13].
        intros [Hin|Hm]; apply L8; [left; rewrite Hq, Ht; by left|by right].
      * apply (link_elsewhere w); try done; [by apply H2|by eauto|by eauto|by apply Htold|].
        rewrite Hq1, decide_True by done. rewrite Hq. rewrite elem_of_cons. split; [by right|]. by intros [?|?].
    + apply (link_elsewhere w); try done; [by apply H2|by eauto|by eauto|by apply Htold|]. by rewrite Hq1, decide_False.
  - intros j x Hj. change (objs w !! j = Some x) in Hj. rewrite Hq1. specialize (H3 j x Hj).
    destruct (decide (j = id)) as [->|Hne]; [|by destruct H3].
    rewrite Hc in Hj. injection Hj as <-. rewrite Hq in H3. destruct H3 as [Q1 Q2 Q3 Q4]. rewrite stubs_cons in Q1, Q2.
    apply NoDup_app in Q1 as (N1 & N2 & N3). split.
    + done.
    + intros s Hs. destruct (Q2 s) as [? Hn]; [apply elem_of_app; by right|]. split; [done|].
      intros [Hin|Hin]%elem_of_app; [by apply (N2 s)|done].
    + intros s [Hin|Hin]%elem_of_app; [|by apply Q3]. by destruct (Q2 s) as [? _]; [apply elem_of_app; by left|].
    + intros a Ha. apply Q4. by right.
Qed.

(** A step that takes nothing from a queue. *)
Lemma glob_enter w id c : glob 0 [] w -> objs w !! id = Some c -> at_ w id (owned c) w c.
Proof.
  intros [H1 H2 H3 H4 H5] Hc. split; [|done..].
  assert (Hid : forall j y, objs w !! j = Some y -> j <> 0) by (intros j y Hy; pose proof (li_id _ _ _ (H2 j y Hy)); lia).
  split; [done|done| |intros i x Hi _; by apply (H4 i x Hi), (Hid i x)|].
  - intros j x Hj. specialize (H3 j x Hj). rewrite decide_False in H3 by by eapply Hid.
    case_decide as Ej; [|done]. rewrite Ej in *. rewrite Hc in Hj. by injection Hj as <-.
  - pose proof (li_id _ _ _ (H2 id c Hc)). lia.
Qed.

(** The end of a step. *)
Lemma glob_leave w0 id own w c :
  at_ w0 id own w c -> local c -> rest c -> (forall s, s ∈ owned c -> s ∈ own) -> glob 0 [] w.
Proof.
  intros [[H1 H2 H3 H4 H5] Hc _ _] Hl Hr Ho.
  assert (Hid : forall j y, objs w !! j = Some y -> j <> 0) by (intros j y Hy; pose proof (li_id _ _ _ (H2 j y Hy)); lia).
  split; [done|done| | |pose proof (ko_next _ _ _ H1); lia].
  - intros j x Hj. rewrite (decide_False (P := j = 0)) by by eapply Hid. specialize (H3 j x Hj).
    destruct (decide (j = id)) as [->|Hne]; [|done]. rewrite Hc in Hj. injection Hj as <-.
    destruct H3 as [Q1 Q2 Q3 Q4]. split; [done| |by eauto|done]. intros s Hs. destruct (Q2 s Hs) as [? Hn]. split; [done|]. by intros ?%Ho.
  - intros j x Hj _. destruct (decide (j = id)) as [->|Hne]; [|by apply (H4 j)]. rewrite Hc in Hj. by injection Hj as <-.
Qed.

(** ** A tunnel is made *)

Lemma glob_next id own w : glob id own w -> glob id own (w <| K ::= fun k => k <| next_conn_id_ ::= Z.succ |> |>).
Proof.
  intros [H1 H2 H3 H4 H5]. split; [destruct H1; split; try done; cbn; lia| | |done|cbn; lia].
  - intros j x Hj. apply (link_elsewhere w); try done; eauto. cbn; lia.
  - intros j x Hj. by destruct (H3 j x Hj).
Qed.

Lemma alter_set (m : gmap Z conn) id c f : m !! id = Some c -> alter f id m = <[id := f c]> m.
Proof.
  intros Hc. apply map_eq. intros j. destruct (decide (j = id)) as [->|Hne].
  - by rewrite lookup_alter_eq, lookup_insert_eq, Hc.
  - by rewrite lookup_alter_ne, lookup_insert_ne.
Qed.

Definition as_inner (host : bytes) (port : Z) (c : conn) : conn :=
  c <| mq ::= fun m => m <| masque_role_ := MASQUE_INNER |> <| masque_target_host_ := host |> <| masque_target_port_ := port |> |>.

(** Nobody knows a connection that has no role. *)
Lemma no_role w id c :
  (forall i c, objs w !! i = Some c -> link_ok w i c) -> objs w !! id = Some c -> masque_role_ (mq c) = MASQUE_NONE ->
  masque_tunnel_ (mq c) = None /\ masque_inner_ (mq c) = None /\ masque_tunnel_closing_ (mq c) = false /\ ~ (TTunnelClosed ∈ queue w id) /\
  (forall j x, objs w !! j = Some x -> masque_tunnel_ (mq x) <> Some id) /\
  (forall j x, objs w !! j = Some x -> masque_inner_ (mq x) = Some id -> shut x = true).
Proof.
  intros H2 Hc Hr. pose proof (H2 id c Hc) as L. split; [|split; [|split; [|split; [|split]]]].
  - destruct (masque_tunnel_ (mq c)) as [t|] eqn:Ht; [|done]. pose proof (li_role _ _ _ L) as Hx. rewrite Ht in Hx. rewrite Hx in Hr; eauto. done.
  - destruct (masque_inner_ (mq c)) as [t|] eqn:Ht; [|done]. pose proof (li_role' _ _ _ L) as Hx. rewrite Ht in Hx. rewrite Hx in Hr; eauto. done.
  - destruct (masque_tunnel_closing_ (mq c)) eqn:Ht; [|done]. rewrite (li_told _ _ _ L) in Hr; auto. done.
  - intros Hin. rewrite (li_told _ _ _ L) in Hr; auto. done.
  - intros j x Hj Ht. destruct (li_tunnel _ _ _ (H2 j x Hj) id Ht) as (ct & G1 & G2 & _). rewrite Hc in G1. injection G1 as <-. congruence.
  - intros j x Hj Hi. destruct (shut x) eqn:Hs; [done|].
    destruct (li_inner _ _ _ (H2 j x Hj)) as (i & ci & G1 & G2 & G3); [apply (li_role' _ _ _ (H2 j x Hj)); eauto|done|].
    rewrite Hi in G1. injection G1 as <-. rewrite Hc in G2. injection G2 as <-. rewrite (li_role _ _ _ L) in Hr; eauto. done.
Qed.

Lemma glob_role id own w c host port :
  glob id own w -> objs w !! id = Some c -> masque_role_ (mq c) = MASQUE_NONE ->
  glob id own (w <| objs ::= <[id := as_inner host port c]> |>).
Proof.
  intros [H1 H2 H3 H4 H5] Hc Hr. destruct (no_role w id c H2 Hc Hr) as (N1 & N2 & N3 & N4 & N5 & N6).
  set (w1 := w <| objs ::= _ |>).
  assert (Ho : forall j x, j <> id -> objs w1 !! j = Some x <-> objs w !! j = Some x) by (intros j x Hne; unfold w1; cbn; by rewrite lookup_insert_ne).
  assert (Hn : objs w1 !! id = Some (as_inner host port c)) by apply lookup_insert_eq.
  split; [| | |intros j x Hj Hne; apply Ho in Hj; [by eapply H4|done]|done].
  - destruct H1 as [S1 S2 S3 S4 S5 S6 S7 S8 S9 S10 S11 S12]. split; try done.
    + intros j Hj. destruct (S5 j Hj) as (y & Hy & Hu). destruct (decide (j = id)) as [->|Hne].
      * exists (as_inner host port c). split; [done|]. rewrite Hc in Hy. by injection Hy as ->.
      * exists y. by rewrite Ho.
    + intros i j ci cj t Hi Hj Ti Tj. destruct (decide (i = id)) as [->|Hi'], (decide (j = id)) as [->|Hj']; try done.
      * rewrite Hn in Hi. injection Hi as <-. change (masque_tunnel_ (mq c) = Some t) in Ti. congruence.
      * rewrite Hn in Hj. injection Hj as <-. change (masque_tunnel_ (mq c) = Some t) in Tj. congruence.
      * apply Ho in Hi, Hj; try done. by eapply S12.
  - intros j x Hj. destruct (decide (j = id)) as [->|Hne].
    + rewrite Hn in Hj. injection Hj as <-. destruct (H2 id c Hc) as [L1 L2 L3 L4 L5 L6 L7 L8 L9 L10 L11 L12 L13 L14].
      split; try done.
      * rewrite L2, Hr. done.
      * change (is_Some (masque_inner_ (mq c)) -> MASQUE_INNER = MASQUE_TUNNEL). rewrite N2. by intros [? ?].
      * intros t Ht. change (masque_tunnel_ (mq c) = Some t) in Ht. congruence.
    + apply Ho in Hj; [|done]. pose proof (H2 j x Hj) as Lj. apply (link_elsewhere w); try done.
      * intros t ct Ht Hct. split; [|done]. apply Ho; [|done]. intros ->. by apply (N5 j x).
      * intros i ci Hi Hci Hti. exists ci. split; [|done]. apply Ho; [|done]. intros ->. rewrite Hc in Hci. injection Hci as <-. congruence.
  - intros j x Hj. destruct (decide (j = id)) as [->|Hne].
    + pose proof (H3 id c Hc) as Q. rewrite decide_True in Q by done. by destruct Q.
    + apply Ho in Hj; [|done]. pose proof (H3 j x Hj) as Q. rewrite decide_False in Q by done. by destruct Q.
Qed.

(** The object of a tunnel, and of its connection. *)
Definition new_tunnel (id : Z) (host : bytes) (port : Z) (t : conn) : conn :=
  t <| mq := no_masque <| masque_role_ := MASQUE_TUNNEL |> <| masque_inner_ := Some id |>
                       <| masque_target_host_ := host |> <| masque_target_port_ := port |> |>.

Definition with_tunnel (t : option Z) (c : conn) : conn := c <| mq ::= fun m => m <| masque_tunnel_ := t |> |>.

Lemma glob_tunnel id own w c i c0 rcas host port :
  glob id own w -> objs w !! id = Some c -> 0 < i < next_conn_id_ (K w) -> objs w !! i = None ->
  masque_role_ (mq c) = MASQUE_INNER -> masque_tunnel_ (mq c) = None -> masque_tunnel_closing_ (mq c) = false ->
  attached c = true -> TTunnelClosed ∉ queue w id ->
  glob id own (w <| objs ::= fun m => <[id := with_tunnel (Some i) c]> (<[i := new_tunnel id host port (new_conn c0 rcas false)]> m) |>
                 <| queues ::= <[i := []]> |>).
Proof.
  intros [H1 H2 H3 H4 H5] Hc Hi Hnone Hr Ht Hcl Ha Hq. set (x := new_tunnel _ _ _ _). set (c' := with_tunnel _ _). set (w1 := w <| objs ::= _ |> <| queues ::= _ |>).
  assert (Hne : i <> id) by (intros ->; congruence).
  assert (O1 : objs w1 !! id = Some c') by apply lookup_insert_eq.
  assert (O2 : objs w1 !! i = Some x) by (unfold w1; cbn; rewrite lookup_insert_ne by done; apply lookup_insert_eq).
  assert (O3 : forall j, j <> id -> j <> i -> objs w1 !! j = objs w !! j) by (intros j J1 J2; unfold w1; cbn; by rewrite !lookup_insert_ne).
  assert (Hq1 : forall j, queue w1 j = if decide (j = i) then [] else queue w j) by (intros j; by apply queue_set).
  assert (Hno : forall j y, objs w !! j = Some y -> masque_tunnel_ (mq y) <> Some i).
  { intros j y Hy Hty. destruct (li_tunnel _ _ _ (H2 j y Hy) i Hty) as (ct & G1 & _). congruence. }
  assert (Hcase : forall j y, objs w1 !! j = Some y -> j = id /\ y = c' \/ j = i /\ y = x \/ j <> id /\ j <> i /\ objs w !! j = Some y).
  { intros j y Hy. destruct (decide (j = id)) as [->|J1]; [left; rewrite O1 in Hy; by injection Hy as <-|].
    destruct (decide (j = i)) as [->|J2]; [right; left; rewrite O2 in Hy; by injection Hy as <-|]. right; right. by rewrite O3 in Hy. }
  split; [| | | |done].
  - destruct H1 as [S1 S2 S3 S4 S5 S6 S7 S8 S9 S10 S11 S12]. split; try done.
    + intros j Hj. destruct (S5 j Hj) as (y & Hy & Hu). destruct (decide (j = id)) as [->|J1].
      * exists c'. split; [done|]. rewrite Hc in Hy. by injection Hy as <-.
      * exists y. rewrite O3; [done|done|]. intros ->. congruence.
    + intros j k cj ck t Hj Hk Tj Tk. destruct (Hcase j cj Hj) as [[-> ->]|[[-> ->]|(J1 & J2 & Gj)]]; [| by cbn in Tj|];
        (destruct (Hcase k ck Hk) as [[-> ->]|[[-> ->]|(K1 & K2 & Gk)]]; [| by cbn in Tk|]); try done.
      * injection Tj as <-. by destruct (Hno k ck Gk).
      * injection Tk as <-. by destruct (Hno j cj Gj).
      * by eapply S12.
  - intros j y Hy. destruct (Hcase j y Hy) as [[-> ->]|[[-> ->]|(J1 & J2 & Gy)]].
    + destruct (H2 id c Hc) as [L1 L2 L3 L4 L5 L6 L7 L8 L9 L10 L11 L12 L13 L14].
      split; rewrite ?Hq1, ?(decide_False (P := id = i)) by done; try done.
      * intros Hf. change (attached c = false) in Hf. congruence.
      * intros t' [= <-]. exists x. split; [done|]. split; [done|]. split; [done|]. split; [done|]. intros Hf. change (masque_tunnel_closing_ (mq c) = true) in Hf. congruence.
      * intros Hro. change (masque_role_ (mq c) = MASQUE_TUNNEL) in Hro. congruence.
    + split; rewrite ?Hq1, ?(decide_True (P := i = i)) by done; try done.
      * by intros [? ?].
      * by intros [?%elem_of_nil|?].
      * intros _ _. by exists id, c'.
      * intros Hin. destruct (ko_conns _ _ _ H1 i Hin) as (y & Hyy & _). congruence.
    + apply (link_elsewhere w); rewrite ?Hq1, ?(decide_False (P := j = i)) by done; try done; [by apply H2| |].
      * intros t ct Htt Hct. assert (t <> i) by congruence. rewrite Hq1, decide_False by done.
        assert (t <> id); [|by rewrite O3]. intros ->. destruct (li_tunnel _ _ _ (H2 j y Gy) id Htt) as (ct' & G1 & G2 & _). congruence.
      * intros k ck Hk Hck Htk. assert (k <> i) by congruence. assert (k <> id); [|exists ck; by rewrite O3]. intros ->. congruence.
  - intros j y Hy. rewrite Hq1. destruct (Hcase j y Hy) as [[-> ->]|[[-> ->]|(J1 & J2 & Gy)]].
    + rewrite decide_True, (decide_False (P := id = i)) by done. pose proof (H3 id c Hc) as Q. rewrite decide_True in Q by done. by destruct Q.
    + rewrite (decide_False (P := i = id)), (decide_True (P := i = i)) by done. split; cbn; try (intros ? ?%elem_of_nil; done). constructor.
    + rewrite (decide_False (P := j = i)) by done. by destruct (H3 j y Gy).
  - intros j y Hy J. destruct (Hcase j y Hy) as [[-> ->]|[[-> ->]|(J1 & J2 & Gy)]]; [done| |by apply (H4 j)].
    apply (new_conn_local E cfg cas c0 rcas false).
Qed.

(** ** A tunnel is deleted *)

Definition no_tunnel (c : conn) : conn := c <| mq ::= fun m => m <| masque_tunnel_ := None |> <| masque_tunnel_closing_ := false |> |>.

(** The tunnel that was told to have ended is deleted; its connection has none then. *)
Lemma glob_drop w id c t q :
  glob 0 [] w -> objs w !! id = Some c -> queue w id = TTunnelClosed :: q -> masque_tunnel_ (mq c) = Some t ->
  at_ w id (owned c) (w <| objs ::= fun m => delete t (<[id := no_tunnel c]> m) |> <| queues ::= fun m => delete t (<[id := q]> m) |>)
    (no_tunnel c).
Proof.
  intros [H1 H2 H3 H4 H5] Hc Hq Ht. set (w1 := w <| objs ::= _ |> <| queues ::= _ |>). set (c' := no_tunnel c).
  assert (Hid : forall j y, objs w !! j = Some y -> j <> 0) by (intros j y Hy; pose proof (li_id _ _ _ (H2 j y Hy)); lia).
  pose proof (H2 id c Hc) as L. destruct (li_tunnel _ _ _ L t Ht) as (ct & Hct & Hr & _ & Hsh & _).
  assert (Hsct : shut ct = true) by (apply Hsh; rewrite Hq; by left).
  assert (Hri : masque_role_ (mq c) = MASQUE_INNER) by (apply (li_role _ _ _ L); rewrite Ht; eauto).
  assert (Hne : t <> id) by (intros ->; congruence).
  assert (O1 : objs w1 !! id = Some c') by (unfold w1; cbn; rewrite lookup_delete_ne by done; apply lookup_insert_eq).
  assert (O2 : objs w1 !! t = None) by apply lookup_delete_eq.
  assert (O3 : forall j, j <> id -> j <> t -> objs w1 !! j = objs w !! j) by (intros j J1 J2; unfold w1; cbn; by rewrite lookup_delete_ne, lookup_insert_ne).
  assert (Hq1 : forall j, j <> t -> queue w1 j = if decide (j = id) then q else queue w j).
  { intros j Hj. unfold queue, w1. cbn. rewrite lookup_delete_ne by done. case_decide as Ej; [by rewrite Ej, lookup_insert_eq|by rewrite lookup_insert_ne]. }
  assert (Hcase : forall j y, objs w1 !! j = Some y -> j <> t /\ (j = id /\ y = c' \/ j <> id /\ objs w !! j = Some y)).
  { intros j y Hy. split; [intros ->; congruence|]. destruct (decide (j = id)) as [->|J1]; [left; rewrite O1 in Hy; by injection Hy as <-|].
    right. rewrite O3 in Hy; [done|done|]. intros ->. congruence. }
  assert (Hsome : forall j y, objs w !! j = Some y -> j <> t -> masque_tunnel_ (mq y) <> Some t -> objs w1 !! j = Some y).
  { intros j y Hy J1 J2. destruct (decide (j = id)) as [->|J3]; [|by rewrite O3]. rewrite Hc in Hy. by injection Hy as <-. }
  split; [|done|done|intros i x Hi Hu Hx].
  2: { rewrite O3; [done|done|]. intros ->. rewrite Hct in Hx. injection Hx as <-. by apply (li_user _ _ _ (H2 t ct Hct)) in Hu. }
  split; [| | |intros j y Hy J; destruct (Hcase j y Hy) as [_ [[? _]|[_ Gy]]]; [done|by apply (H4 j y Gy), (Hid j y)]|].
  - destruct H1 as [S1 S2 S3 S4 S5 S6 S7 S8 S9 S10 S11 S12]. split; try done.
    + intros j Hj. destruct (S5 j Hj) as (y & Hy & Hu). assert (Jt : j <> t).
      { intros ->. rewrite Hct in Hy. injection Hy as <-. by apply (li_user _ _ _ (H2 t ct Hct)) in Hu. }
      destruct (decide (j = id)) as [->|J1]; [exists c'; split; [done|]; rewrite Hc in Hy; by injection Hy as <-|exists y; by rewrite O3].
    + intros j k cj ck t' Hj Hk Tj Tk. destruct (Hcase j cj Hj) as [_ [[-> ->]|[J1 Gj]]]; [by cbn in Tj|].
      destruct (Hcase k ck Hk) as [_ [[-> ->]|[K1 Gk]]]; [by cbn in Tk|]. by eapply S12.
  - intros j y Hy. destruct (Hcase j y Hy) as [Jt [[-> ->]|[J1 Gy]]].
    + destruct L as [L1 L2 L3 L4 L5 L6 L7 L8 L9 L10 L11 L12 L13 L14]. split; rewrite ?Hq1, ?(decide_True (P := id = id)) by done; try done.
      * intros Hro. change (masque_role_ (mq c) = MASQUE_TUNNEL) in Hro. congruence.
      * intros Hm Hk. destruct (L13 Hm Hk) as [?|Hin]; [by left|right]. rewrite Hq in Hin. by apply elem_of_cons in Hin as [?|?].
    + apply (link_elsewhere w); try done; rewrite ?Hq1, ?(decide_False (P := j = id)) by done; try done; [by apply H2| |].
      * intros k ck Hk Hck. assert (k <> t).
        { intros ->. apply J1. by eapply (ko_tunnels _ _ _ H1 j id y c t). }
        assert (k <> id). { intros ->. rewrite Hc in Hck. injection Hck as <-. destruct (li_tunnel _ _ _ (H2 j y Gy) id Hk) as (c2 & G1 & G2 & _). congruence. }
        split; [by rewrite O3|]. by rewrite Hq1, decide_False.
      * intros k ck Hk Hck Htk. exists ck. split; [|done]. apply Hsome; [done| |].
        -- intros ->. rewrite Hct in Hck. injection Hck as <-. rewrite (li_role _ _ _ (H2 t ct Hct)) in Hr; [done|]. rewrite Htk. eauto.
        -- rewrite Htk. congruence.
  - intros j y Hy. destruct (Hcase j y Hy) as [Jt [[-> ->]|[J1 Gy]]]; rewrite Hq1 by done.
    + rewrite !decide_True by done. pose proof (H3 id c Hc) as Q. rewrite (decide_False (P := id = 0)) in Q by by eapply Hid.
      rewrite Hq in Q. destruct Q as [Q1 Q2 Q3 Q4]. split; try done. intros a Ha. apply Q4. by right.
    + rewrite !(decide_False (P := j = id)) by done. pose proof (H3 j y Gy) as Q. rewrite (decide_False (P := j = 0)) in Q by by eapply Hid. by destruct Q.
  - pose proof (li_id _ _ _ L). cbn. lia.
Qed.

(** ** Deleting what nobody knows *)

Lemma glob_delete w id c :
  glob 0 [] w -> objs w !! id = Some c -> user_handler c = true -> shut c = true ->
  glob 0 [] (w <| objs ::= delete id |> <| queues ::= delete id |>).
Proof.
  intros [H1 H2 H3 H4 H5] Hc Hu Hs. pose proof (H2 id c Hc) as L. set (w1 := w <| objs ::= _ |> <| queues ::= _ |>).
  assert (Hrole : masque_role_ (mq c) <> MASQUE_TUNNEL) by by apply (li_user _ _ _ L).
  assert (Hnt : masque_tunnel_ (mq c) = None) by apply (li_gone _ _ _ L), (li_shut _ _ _ L), Hs.
  assert (Hcase : forall j y, objs w1 !! j = Some y -> j <> id /\ objs w !! j = Some y) by (intros j y Hy; unfold w1 in Hy; cbn in Hy; apply lookup_delete_Some in Hy as [? ?]; done).
  assert (O3 : forall j, j <> id -> objs w1 !! j = objs w !! j) by (intros j Hj; by apply lookup_delete_ne).
  assert (Hq1 : forall j, j <> id -> queue w1 j = queue w j) by (intros j Hj; unfold queue, w1; cbn; by rewrite lookup_delete_ne).
  split; [| | |intros j y Hy; apply Hcase in Hy as [_ Gy]; by apply H4|done].
  - destruct H1 as [S1 S2 S3 S4 S5 S6 S7 S8 S9 S10 S11 S12]. split; try done.
    + intros j Hj. destruct (S5 j Hj) as (y & Hy & Hyu). exists y. rewrite O3; [done|]. intros ->.
      rewrite Hc in Hy. injection Hy as <-. apply (li_map _ _ _ L) in Hj; [congruence|done].
    + intros j k cj ck t Hj%Hcase Hk%Hcase Tj Tk. eapply S12; [apply Hj|apply Hk|done|done].
  - intros j y Hy. apply Hcase in Hy as [J Gy]. apply (link_elsewhere w); rewrite ?Hq1 by done; try done; [by apply H2| |].
    + intros t ct Ht Hct. assert (t <> id); [|by rewrite O3, Hq1]. intros ->. destruct (li_tunnel _ _ _ (H2 j y Gy) id Ht) as (ct' & G1 & G2 & _). congruence.
    + intros i ci Hi Hci Hti. exists ci. rewrite O3; [done|]. intros ->. congruence.
  - intros j y Hy. apply Hcase in Hy as [J Gy]. rewrite Hq1 by done. by destruct (H3 j y Gy).
Qed.

(** What is posted on a detached queue may be lost. *)
Lemma glob_lost w id c :
  glob 0 [] w -> objs w !! id = Some c -> attached c = false -> glob 0 [] (w <| queues ::= <[id := []]> |>).
Proof.
  intros [H1 H2 H3 H4 H5] Hc Ha. set (w1 := w <| queues ::= _ |>).
  assert (Hid : forall j y, objs w !! j = Some y -> j <> 0) by (intros j y Hy; pose proof (li_id _ _ _ (H2 j y Hy)); lia).
  assert (Hq1 : forall j, queue w1 j = if decide (j = id) then [] else queue w j) by (intros j; by apply queue_set).
  assert (Hn : new_state_ c = CONN_STATE_FREED).
  { destruct (proj1 (H4 id c Hc (Hid id c Hc))) as [Hst _]. apply (st_below _ Hst).
    pose proof (st_attached _ Hst) as Hx. rewrite Ha in Hx. symmetry in Hx. apply negb_false_iff, Z.eqb_eq in Hx.
    unfold CONN_STATE_FREED, CONN_STATE_INIT in *. lia. }
  assert (Htold : forall j y, objs w !! j = Some y -> told_to_close y (queue w j) -> told_to_close y (queue w1 j)).
  { intros j y Hy. rewrite Hq1. case_decide as Hj; [|done]. rewrite Hj in *. rewrite Hc in Hy. injection Hy as <-. intros _. by left. }
  split; [by destruct H1| | |intros j y Hy; by apply H4|done].
  - intros j y Hy. change (objs w !! j = Some y) in Hy. destruct (decide (j = id)) as [->|Hne].
    + rewrite Hc in Hy. injection Hy as <-. destruct (H2 id c Hc) as [L1 L2 L3 L4 L5 L6 L7 L8 L9 L10 L11 L12 L13 L14].
      split; rewrite ?Hq1, ?(decide_True (P := id = id)) by done; try done.
      * intros [?%elem_of_nil|Hm]; [done|]. apply L8. by right.
      * intros t Ht. rewrite L5 in Ht; done.
      * intros _ _. by left.
    + apply (link_elsewhere w); rewrite ?Hq1, ?(decide_False (P := j = id)) by done; try done; [by apply H2|by eauto|by eauto].
  - intros j y Hy. change (objs w !! j = Some y) in Hy. rewrite Hq1. pose proof (H3 j y Hy) as Q.
    destruct (decide (j = id)); [|by destruct Q]. destruct Q. split; try done; try (intros ? ?%elem_of_nil; done). constructor.
Qed.

(** ** The end of a connection *)

Lemma owned_quiet' c e : match e with OnExecDone _ _ _ => False | _ => True end -> owned (logged e c) = owned c.
Proof.
  intros He. change (answered (log_ c ++ [e]) ++ match connect_rpc_ c with Some s => [s] | None => [] end = owned c).
  rewrite answered_snoc. destruct e; try done; by rewrite app_nil_r.
Qed.

Definition ended (e : event) (c : conn) : conn := logged e (c <| shut := true |>).

Lemma local_ended c msg st :
  local c -> shut c = false -> user_handler c = true -> local (ended (OnClosed msg st) c).
Proof.
  intros [Hs [B1 B2 B3 B4 B5 B6 B7 B8]] Hsh Hu. set (e := OnClosed msg st). unfold ended.
  assert (Hst : states_ok (c <| shut := true |>)) by (destruct Hs; by split).
  split; [by apply states_log|]. rewrite Hsh in B4. cbn [andb] in B4. split.
  - destruct B1. by split.
  - apply engines_logged. destruct B2. by split.
  - by rewrite (owned_quiet' (c <| shut := true |>) e).
  - change (user_handler (logged e (c <| shut := true |>))) with (user_handler c). rewrite Hu. cbn [andb shut]. by exists (log_ c), msg, st.
  - apply Forall_app. split; [exact B5|]. by repeat constructor.
  - intros Hv. by apply after_proof_snoc; [apply B6|].
  - intros key s Hk. destruct (B7 key s Hk) as [H1 H2]. split; [by apply (trusted_logged cas (c <| shut := true |>) e)|].
    by apply (stream_ok_logged E (c <| shut := true |>) e).
  - intros Hp bs [Hin|Hin]%elem_of_app; [by eapply B8|]. by apply list_elem_of_singleton in Hin.
Qed.

Definition forgotten (id : Z) (k : connector) : connector := k <| conns_map_ ::= fun s => s ∖ {[id]} |> <| total_freed_ ::= Z.succ |>.

Lemma glob_end w id c msg st :
  glob 0 [] w -> objs w !! id = Some c -> user_handler c = true -> attached c = false -> shut c = false ->
  glob 0 [] (w <| objs ::= <[id := ended (OnClosed msg st) c]> |> <| K ::= forgotten id |> <| rt ::= fun l => l ++ [RtCheck] |>).
Proof.
  intros [H1 H2 H3 H4 H5] Hc Hu Ha Hs. set (c' := ended _ c). set (w1 := w <| objs ::= _ |> <| K ::= _ |> <| rt ::= _ |>).
  assert (Hid : forall j y, objs w !! j = Some y -> j <> 0) by (intros j y Hy; pose proof (li_id _ _ _ (H2 j y Hy)); lia).
  pose proof (H2 id c Hc) as L. pose proof (li_gone _ _ _ L Ha) as Hnt.
  assert (Hin : id ∈ conns_map_ (K w)) by by apply (li_map _ _ _ L).
  assert (Hrole : masque_role_ (mq c) <> MASQUE_TUNNEL) by by apply (li_user _ _ _ L).
  assert (O1 : objs w1 !! id = Some c') by apply lookup_insert_eq.
  assert (O3 : forall j, j <> id -> objs w1 !! j = objs w !! j) by (intros j Hj; by apply lookup_insert_ne).
  assert (Hcase : forall j y, objs w1 !! j = Some y -> j = id /\ y = c' \/ j <> id /\ objs w !! j = Some y).
  { intros j y Hy. destruct (decide (j = id)) as [->|J]; [left; rewrite O1 in Hy; by injection Hy as <-|right; by rewrite O3 in Hy]. }
  assert (Hown : owned c' = owned c) by (unfold c', ended; by rewrite (owned_quiet' (c <| shut := true |>))).
  split; [| | | |done].
  - destruct H1 as [S1 S2 S3 S4 S5 S6 S7 S8 S9 S10 S11 S12]. split; try done.
    + cbn. rewrite size_difference by (by apply singleton_subseteq_l). rewrite size_singleton, S4.
      assert (Hsz : size (conns_map_ (K w)) <> 0%nat) by (intros Hz%size_empty_inv; apply (Hz id) in Hin; by apply elem_of_empty in Hin). lia.
    + intros j [Hj Hne]%elem_of_difference. rewrite elem_of_singleton in Hne. rewrite O3 by done. by apply S5.
    + intros Hf. rewrite S8 in Hin by done. by apply elem_of_empty in Hin.
    + cbn. rewrite count_closed_app. change (count_closed [RtCheck]) with 0. cbn in S9. lia.
    + intros j k cj ck t Hj Hk Tj Tk. destruct (Hcase j cj Hj) as [[-> ->]|[J Gj]]; [change (masque_tunnel_ (mq c) = Some t) in Tj; congruence|].
      destruct (Hcase k ck Hk) as [[-> ->]|[J' Gk]]; [change (masque_tunnel_ (mq c) = Some t) in Tk; congruence|]. by eapply S12.
  - intros j y Hy. destruct (Hcase j y Hy) as [[-> ->]|[J Gy]].
    + destruct L as [L1 L2 L3 L4 L5 L6 L7 L8 L9 L10 L11 L12 L13 L14]. split; try done.
      * intros t Ht. change (masque_tunnel_ (mq c) = Some t) in Ht. congruence.
      * intros _. cbn. rewrite elem_of_difference, elem_of_singleton. split; [by intros [_ ?]|done].
      * cbn. rewrite elem_of_difference, elem_of_singleton. by intros [_ ?].
    + apply (link_elsewhere w); try done; [by apply H2| | |].
      * intros t ct Ht Hct. assert (t <> id); [|by rewrite O3]. intros ->. destruct (li_tunnel _ _ _ (H2 j y Gy) id Ht) as (ct' & G1 & G2 & _). congruence.
      * intros i ci Hi Hci Hti. exists ci. rewrite O3; [done|]. intros ->. congruence.
      * cbn. rewrite elem_of_difference, elem_of_singleton. tauto.
  - intros j y Hy. destruct (Hcase j y Hy) as [[-> ->]|[J Gy]]; [rewrite Hown; by destruct (H3 id c Hc)|by destruct (H3 j y Gy)].
  - intros j y Hy J0. destruct (Hcase j y Hy) as [[-> ->]|[J Gy]]; [|by apply (H4 j)].
    destruct (H4 id c Hc J0). split; [by apply local_ended|done].
Qed.

Definition ended_tunnel (c : conn) : conn := c <| shut := true |> <| mq ::= fun m => m <| masque_inner_ := None |> |>.

Lemma local_ended_tunnel c : local c -> shut c = false -> user_handler c = false -> local (ended_tunnel c).
Proof.
  intros [Hs [B1 B2 B3 B4 B5 B6 B7 B8]] Hsh Hu. split; [destruct Hs; by split|]. split; try done.
  - destruct B1. by split.
  - destruct B2. by split.
  - change (user_handler (ended_tunnel c)) with (user_handler c). rewrite Hu, andb_false_r. by rewrite Hsh in B4.
Qed.

Lemma glob_end_tunnel w id c i :
  glob 0 [] w -> objs w !! id = Some c -> masque_role_ (mq c) = MASQUE_TUNNEL -> attached c = false -> shut c = false ->
  masque_inner_ (mq c) = Some i ->
  is_Some (objs w !! i) /\ i <> id /\
  glob 0 [] (w <| objs ::= <[id := ended_tunnel c]> |> <| queues ::= <[i := queue w i ++ [TTunnelClosed]]> |>).
Proof.
  intros [H1 H2 H3 H4 H5] Hc Hr Ha Hs Hi. set (c' := ended_tunnel c). set (w1 := w <| objs ::= _ |> <| queues ::= _ |>).
  assert (Hid : forall j y, objs w !! j = Some y -> j <> 0) by (intros j y Hy; pose proof (li_id _ _ _ (H2 j y Hy)); lia).
  pose proof (H2 id c Hc) as L. destruct (li_inner _ _ _ L Hr Hs) as (i' & ci & G1 & Hci & Hti). rewrite Hi in G1. injection G1 as <-.
  assert (Hri : masque_role_ (mq ci) = MASQUE_INNER) by (apply (li_role _ _ _ (H2 i ci Hci)); rewrite Hti; eauto).
  assert (Hne : i <> id) by (intros ->; congruence).
  assert (Hnt : masque_tunnel_ (mq c) = None).
  { destruct (masque_tunnel_ (mq c)) as [t|] eqn:Ht; [|done]. rewrite (li_role _ _ _ L) in Hr; [done|]. rewrite Ht. eauto. }
  split; [eauto|]. split; [done|].
  assert (O1 : objs w1 !! id = Some c') by apply lookup_insert_eq.
  assert (O3 : forall j, j <> id -> objs w1 !! j = objs w !! j) by (intros j Hj; by apply lookup_insert_ne).
  assert (Hcase : forall j y, objs w1 !! j = Some y -> j = id /\ y = c' \/ j <> id /\ objs w !! j = Some y).
  { intros j y Hy. destruct (decide (j = id)) as [->|J]; [left; rewrite O1 in Hy; by injection Hy as <-|right; by rewrite O3 in Hy]. }
  assert (Hq1 : forall j, queue w1 j = if decide (j = i) then queue w i ++ [TTunnelClosed] else queue w j) by (intros j; by apply queue_set).
  assert (Htold : forall j y, told_to_close y (queue w j) -> told_to_close y (queue w1 j)).
  { intros j y Hy. rewrite Hq1. case_decide as Ej; [rewrite Ej in Hy; by apply told_more|done]. }
  assert (Hcl : forall j, j <> i -> TTunnelClosed ∈ queue w1 j <-> TTunnelClosed ∈ queue w j) by (intros j Hj; by rewrite Hq1, decide_False).
  split; [| | | |done].
  - destruct H1 as [S1 S2 S3 S4 S5 S6 S7 S8 S9 S10 S11 S12]. split; try done.
    + intros j Hj. destruct (S5 j Hj) as (y & Hy & Hu). exists y. rewrite O3; [done|]. intros ->.
      rewrite Hc in Hy. injection Hy as <-. by apply (li_user _ _ _ L) in Hu.
    + intros j k cj ck t Hj Hk Tj Tk. destruct (Hcase j cj Hj) as [[-> ->]|[J Gj]]; [change (masque_tunnel_ (mq c) = Some t) in Tj; congruence|].
      destruct (Hcase k ck Hk) as [[-> ->]|[J' Gk]]; [change (masque_tunnel_ (mq c) = Some t) in Tk; congruence|]. by eapply S12.
  - intros j y Hy. destruct (Hcase j y Hy) as [[-> ->]|[J Gy]].
    + destruct L as [L1 L2 L3 L4 L5 L6 L7 L8 L9 L10 L11 L12 L13 L14]. split; rewrite ?Hcl by done; try done.
      * intros t Ht. change (masque_tunnel_ (mq c) = Some t) in Ht. congruence.
      * intros Hm. apply L2 in Hm. congruence.
      * intros Hm _. destruct (ko_conns _ _ _ H1 id Hm) as (y & Hy' & Hu). rewrite Hc in Hy'. injection Hy' as <-. apply L2 in Hu. congruence.
    + destruct (decide (j = i)) as [->|Ji].
      * rewrite Hci in Gy. injection Gy as <-. destruct (H2 i ci Hci) as [L1 L2 L3 L4 L5 L6 L7 L8 L9 L10 L11 L12 L13 L14]. split; try done.
        -- intros t Ht. rewrite Hti in Ht. injection Ht as <-. destruct (L9 id Hti) as (ct & K1 & K2 & K3 & K4 & K5).
           rewrite Hc in K1. injection K1 as <-. exists c'. split; [done|]. split; [done|]. split; [done|].
           split; [|intros Hm; apply (Htold id c'), (K5 Hm)]. split; [|done]. intros _. rewrite Hq1, decide_True by done. apply elem_of_app. right. by left.
        -- intros Hro. congruence.
        -- intros Hm Hk. by apply Htold, L13.
      * apply (link_elsewhere w); rewrite ?Hcl by done; try done; [by apply H2| | |by apply Htold].
        -- intros t ct Ht Hct. assert (t <> id); [|rewrite O3 by done; split; [done|by apply Htold]]. intros ->.
           apply Ji. by eapply (ko_tunnels _ _ _ H1 j i y ci id).
        -- intros k ck Hk Hck Htk. exists ck. rewrite O3; [done|]. intros ->. congruence.
  - intros j y Hy. rewrite Hq1. assert (Hsame : forall own, queue_ok w own (queue w i) -> queue_ok w1 own (queue w i ++ [TTunnelClosed])).
    { intros own [Q1 Q2 Q3 Q4]. assert (Es : stubs_of (queue w i ++ [TTunnelClosed]) = stubs_of (queue w i)) by (unfold stubs_of; by rewrite omap_app, app_nil_r).
      split; rewrite ?Es; try done. intros a [Hin|Hin]%elem_of_app; [by apply Q4|]. by apply list_elem_of_singleton in Hin. }
    destruct (Hcase j y Hy) as [[-> ->]|[J Gy]].
    + rewrite (decide_False (P := id = i)) by done. by destruct (H3 id c Hc).
    + destruct (decide (j = i)) as [->|Ji]; [apply Hsame, (H3 i y Gy)|by destruct (H3 j y Gy)].
  - intros j y Hy J0. destruct (Hcase j y Hy) as [[-> ->]|[J Gy]]; [|by apply (H4 j)].
    destruct (H4 id c Hc J0). split; [apply local_ended_tunnel; [done|done|]|done].
    destruct (user_handler c) eqn:Hu; [|done]. apply (li_user _ _ _ L) in Hu. congruence.
Qed.

End Tunnels.
