(* ===== verification/SMPTasks.v ===== *)
(** * SMPTasks: the tasks, timers and socket callbacks keep the invariant

    Every task of a connection's queue, what its timers and its UDP group call, the making
    and deleting of MASQUE tunnels, the end of a queue and the connector's own tasks: so that
    each step of [SMPConnection] keeps [inv], and no step uses what was freed. *)

From Stdlib Require Import ZArith Lia.
From stdpp Require Import base numbers option gmap list.
From S2P Require Import Prelude Results VpnPolicy Buffer MasqueFraming SMPParser BCFObject TlsContext SMPConfig SMPStream SMPConnection SMPInvariant SMPSteps SMPHandlers SMPTunnels.

Section Tasks.
Context (E : env) (cfg : Connector.config) (cas : list X509).
Abbreviation at_ := (at_ E cfg cas).
Abbreviation glob := (glob E cfg cas).
Abbreviation inv := (inv E cfg cas).
Abbreviation local := (local E cfg cas).
Abbreviation body := (body E cfg cas).
Abbreviation St := (St E cfg cas).
Abbreviation trusted := (trusted cas).
Abbreviation step_ok := (step_ok E cfg cas).

(** An operation of a step that began in [w0]. *)
Definition step_at (w0 : world) {A} (id : Z) (m : M A) (P : conn -> Prop) (Q : conn -> A -> conn -> Prop) : Prop :=
  forall own w c, at_ w0 id own w c -> St own c -> P c ->
    runs_to m (fun a w' => exists c', at_ w0 id own w' c' /\ St own c' /\ rel c c' /\ Q c a c') w.

Abbreviation any := (fun _ => True).
Abbreviation done_ := (fun (_ : conn) _ (_ : conn) => True).
Abbreviation rests := (fun (_ : conn) _ (c' : conn) => rest c').

(** It may run tasks: it was not told to close. *)
Definition working (c : conn) : Prop := new_state_ c = CONN_STATE_MAX /\ CONN_STATE_INIT <= state_ c.

Lemma working_alive c : working c -> alive c.
Proof. intros [H1 H2]. unfold CONN_STATE_INIT, alive, CONN_STATE_CLOSING_QUIC in *. split; [lia|by left]. Qed.

Lemma at_step {A} w0 id (m : M A) P Q : step_ok id m P Q -> step_at w0 id m P Q.
Proof. intros H own w c. apply H. Qed.

Lemma step_done w0 {A} id (m : M A) P Q : step_ok id m P Q -> step_at w0 id m P done_.
Proof. intros H own w c Hat HSt HP. eapply runs_mono; [by eapply H|]. intros a w1 (c1 & H1 & S1 & R1 & _). eauto 6. Qed.

Lemma at_seq {A B} w0 id (m : M A) (k : A -> M B) (P : conn -> Prop) Q R :
  step_ok id m P Q ->
  (forall a own w c c', at_ w0 id own w c' -> St own c' -> P c -> rel c c' -> Q c a c' ->
    runs_to (k a) (fun b w' => exists c'', at_ w0 id own w' c'' /\ St own c'' /\ rel c' c'' /\ R c'' b) w) ->
  step_at w0 id (bind m k) P (fun _ b c'' => R c'' b).
Proof.
  intros Hm Hk own w c Hat HSt HP. eapply step_call; [exact Hm|done|done|done|]. intros a w1 c1 H1 S1 R1 Q1.
  eapply runs_mono; [by eapply Hk|]. intros b w2 (c2 & H2 & S2 & R2 & Q2). exists c2. split; [done|]. split; [done|].
  split; [by eapply rel_trans|done].
Qed.

(** The close check ends a task, and leaves the connection at rest. *)
Lemma check_rests w0 id : step_at w0 id (CloseCheck E id;; ret tt) any rests.
Proof.
  intros own w c Hat HSt _. eapply step_call; [apply CloseCheck_ok|done|done|done|]. intros b w1 c1 H1 S1 R1 [Q1 Q1'].
  apply runs_ret. exists c1. split; [done|]. split; [done|]. split; [done|]. destruct b; [apply Q1'|].
  destruct Q1' as (-> & Hn & _). intros Hf. by rewrite Hn in Hf.
Qed.

Lemma then_check w0 id (m : M unit) P : step_at w0 id m P done_ -> step_at w0 id (m;; (CloseCheck E id;; ret tt)) P rests.
Proof.
  intros Hm own w c Hat HSt HP. eapply runs_call; [by eapply Hm|]. intros [] w1 (c1 & H1 & S1 & R1 & _).
  eapply runs_mono; [by eapply check_rests|]. intros [] w2 (c2 & H2 & S2 & R2 & Q2). exists c2. split; [done|]. split; [done|].
  split; [by eapply rel_trans|done].
Qed.

Lemma guarded_rests w0 id m : step_at w0 id m working done_ -> step_at w0 id (guarded E id m) any rests.
Proof.
  intros Hm own w c Hat HSt _. unfold guarded. eapply step_call; [apply CloseCheck_ok|done|done|done|].
  intros [|] w1 c1 H1 S1 R1 [Q1 Q1'].
  { apply runs_ret. exists c1. split; [done|]. split; [done|]. split; [done|]. apply Q1'. }
  destruct Q1' as (-> & Hn & Hi). by apply (then_check w0 id m working Hm own w1 c).
Qed.

(** ** Tasks that only use the engine *)

Lemma engine_done w0 cls id e : step_at w0 id (engine_call E cls id e) (runnable e) done_.
Proof. eapply step_done, engine_call_ok. Qed.

Lemma at_weak {A} w0 id (m : M A) (P P' : conn -> Prop) Q : step_at w0 id m P Q -> (forall c, P' c -> P c) -> step_at w0 id m P' Q.
Proof. intros Hm HP own w c Hat HSt H. apply Hm; auto. Qed.

Lemma local_addr_ok w0 id any_ : step_at w0 id (local_addr_changed E id any_) alive done_.
Proof.
  intros own w c Hat HSt Ha. unfold local_addr_changed. run_get. destruct (conn_ c) as [e|]; [|destruct (h3_conn_ c) as [e|]].
  - apply (engine_done w0 Logic id e own w c Hat HSt). by right.
  - destruct any_; cbn [when]; [apply (engine_done w0 Logic id e own w c Hat HSt); by right|]. apply runs_ret. by stays c.
  - apply runs_ret. by stays c.
Qed.

Lemma CloseStream_rests w0 id sid : step_at w0 id (CloseStream E id sid) any rests.
Proof.
  apply guarded_rests. intros own w c Hat HSt Hw. run_get.
  destruct (stream_map_ c !! sid) as [key|]; cbn [mbind option_bind]; [|apply runs_ret; by stays c].
  destruct (raw_streams c !! key) as [s|] eqn:Hs; cbn [mbind option_bind]; [|apply runs_ret; by stays c].
  destruct (St_raw E cfg cas own c (<[key := SMPStream.Close s]> (raw_streams c)) HSt) as [S1 R1].
  { intros key' x. destruct (decide (key' = key)) as [->|Hne].
    - rewrite lookup_insert_eq. intros [= <-]. destruct (lo_streams _ _ _ _ (lo_body _ _ _ _ (proj1 HSt)) key s Hs) as [? [? _]]. split; [done|].
      split; [done|]. by intros.
    - rewrite lookup_insert_ne by done. apply (lo_streams _ _ _ _ (lo_body _ _ _ _ (proj1 HSt))). }
  eapply runs_call.
  { apply (at_put E cfg cas w0 id own w c (fun c => c <| raw_streams ::= <[key := SMPStream.Close s]> |>) Hat); [split; auto|done|].
    intros key' x a. cbn. destruct (decide (key' = key)) as [->|Hne]; [rewrite lookup_insert_eq; intros [= <-]; eauto|rewrite lookup_insert_ne by done; eauto]. }
  intros [] w1 H1. cbv beta in H1.
  destruct (stream_ s); cbn [when]; [|apply runs_ret; eauto 6].
  eapply runs_mono; [apply (engine_done w0 Logic id key.1 own w1 _ H1 S1); right; by apply working_alive|].
  intros [] w2 (c2 & H2 & S2 & R2 & _). exists c2. split; [done|]. split; [done|]. split; [by eapply rel_trans|done].
Qed.

Lemma Restarted_rests w0 id r : step_at w0 id (Restarted E id r) any rests.
Proof.
  apply guarded_rests. intros own w c Hat HSt Hw. run_get.
  eapply (runs_call _ _ (fun _ w' => exists c', at_ w0 id own w' c' /\ St own c' /\ rel c c')).
  { destruct (_ && udp_socket_ c); cbn [when]; [|apply runs_ret; exists c; split; [done|]; split; [done|apply rel_refl]].
    eapply step_call; [apply (same_steady E cfg cas id (fun c => c <| udp_reading := true |>)); intros c'; by destruct c'|done|done|done|].
    intros [] w1 c1 H1 S1 R1 D1. eapply runs_mono; [apply (local_addr_ok w0 id true own w1 c1 H1 S1)|].
    { eapply alive_steady; [exact S1|exact D1|by apply working_alive]. }
    intros [] w2 (c2 & H2 & S2 & R2 & _). exists c2. split; [done|]. split; [done|]. by eapply rel_trans. }
  intros [] w1 (c1 & H1 & S1 & R1). eapply runs_mono; [eapply (quiet_notify E cfg cas id (OnRestarted r)); done|].
  intros [] w2 (c2 & H2 & S2 & R2 & _). exists c2. split; [done|]. split; [done|]. split; [by eapply rel_trans|done].
Qed.

Lemma TSendDatagram_rests w0 id wire : step_at w0 id (run_task E id (TSendDatagram wire)) any rests.
Proof.
  apply guarded_rests. intros own w c Hat HSt Hw. run_get. destruct (h3_conn_ c) as [e|]; [|apply runs_ret; by stays c].
  eapply step_call; [by apply (log_steady E cfg cas id (EvDatagram wire))|done|done|done|]. intros [] w1 c1 H1 S1 R1 D1.
  eapply runs_mono; [apply (engine_done w0 Logic id e own w1 c1 H1 S1)|].
  { right. eapply alive_steady; [exact S1|exact D1|by apply working_alive]. }
  intros [] w2 (c2 & H2 & S2 & R2 & _). exists c2. split; [done|]. split; [done|]. split; [by eapply rel_trans|done].
Qed.

(** An engine's connection that is there may call back. *)
Lemma has_conn_alive own c e : St own c -> conn_ c = Some e -> alive c.
Proof.
  intros ([Hs _] & _) He. split; [|right; eauto]. destruct (Z.le_gt_cases CONN_STATE_CLOSING_QUIC (state_ c)) as [|Hlt]; [done|].
  rewrite (st_sock _ Hs) in He; [done|]. unfold CONN_STATE_CLOSING_SOCK, CONN_STATE_CLOSING_QUIC in *. lia.
Qed.

Lemma drive_rests w0 id e :
  step_at w0 id (engine_call E Drive id e;; (CloseCheck E id;; ret tt)) (fun c => is_Some (conn_ c)) rests.
Proof.
  apply then_check. intros own w c Hat HSt [e' He]. apply (engine_done w0 Drive id e own w c Hat HSt). right. by eapply has_conn_alive.
Qed.

Lemma TNextTick_rests w0 id : step_at w0 id (run_task E id TNextTick) rest rests.
Proof.
  intros own w c Hat HSt Hr. cbn [run_task]. run_get. destruct (conn_ c) as [e|] eqn:He; [|apply runs_ret; by stays c].
  apply (drive_rests w0 id e own w c Hat HSt). eauto.
Qed.

Lemma process_rests w0 id e :
  step_at w0 id (engine_call E Logic id e;; ok <- ask (process_ok E);; when ok (engine_call E Logic id e);; (CloseCheck E id;; ret tt)) alive rests.
Proof.
  intros own w c Hat HSt Ha. eapply step_call; [apply (engine_call_ok E cfg cas Logic id e)|done|done|by right|].
  intros [] w1 c1 H1 S1 R1 [Q1 D1]. eapply runs_call; [by eapply at_ask|]. intros ok w2 H2.
  eapply runs_mono; [apply (then_check w0 id (when ok (engine_call E Logic id e)) (runnable e))|].
  - destruct ok; cbn [when]; [apply engine_done|]. intros own' w' c' ? ? ?. apply runs_ret. by stays c'.
  - exact H2.
  - exact S1.
  - exact Q1.
  - intros [] w3 (c3 & H3 & S3 & R3 & Q3). exists c3. split; [done|]. split; [done|]. split; [by eapply rel_trans|done].
Qed.

Lemma MasqueOnTunneledPacket_rests w0 id data : step_at w0 id (MasqueOnTunneledPacket E id data) any rests.
Proof.
  intros own w c Hat HSt _. unfold MasqueOnTunneledPacket. eapply step_call; [apply CloseCheck_ok|done|done|done|].
  intros [|] w1 c1 H1 S1 R1 [Q1 Q1'].
  { apply runs_ret. exists c1. split; [done|]. split; [done|]. split; [done|]. apply Q1'. }
  destruct Q1' as (-> & Hn & Hi). run_get. destruct (conn_ c) as [e|].
  - apply (process_rests w0 id e own w1 c H1 S1). by apply working_alive.
  - apply runs_ret. stays c. intros Hf. by rewrite Hn in Hf.
Qed.

(** ** The socket and the timers *)

Lemma St_udp_closed own c : St own c -> St own (c <| udp_socket_ := false |>) /\ rel c (c <| udp_socket_ := false |>).
Proof.
  intros ([[X1 X2 X3 X4 X5 X6 X7 X8 X9] Hb] & Ho & Hsh). split; [split; [split|done]|].
  - split; try done. intros Hf. by destruct (X6 Hf).
  - destruct Hb as [[] [] ? ? ? ? ? ?]. split; try done; by split.
  - split; try done. by exists []; rewrite app_nil_r.
Qed.

Lemma set_state_done w0 id r (P : conn -> Prop) : step_at w0 id (set_state id CONN_STATE_FREED r) P done_.
Proof. eapply at_weak; [eapply step_done, set_state_ok|done]. Qed.

Lemma TUdpClosed_rests w0 id : step_at w0 id (run_task E id TUdpClosed) any rests.
Proof.
  intros own w c Hat HSt _. cbn [run_task]. run_set w1 H1. destruct (St_udp_closed own c HSt) as [S1 R1].
  eapply runs_mono; [by eapply guarded_rests; [apply set_state_done|..]|]. intros [] w2 (c2 & H2 & S2 & R2 & Q2).
  exists c2. split; [done|]. split; [done|]. split; [by eapply rel_trans|done].
Qed.

Lemma rest_working c : new_state_ c = CONN_STATE_MAX -> rest c.
Proof. intros Hn Hf. by rewrite Hn in Hf. Qed.

Lemma recv_blocks_working w0 id blocks : step_at w0 id (recv_blocks E id blocks) working
  (fun c _ c' => new_state_ c' = CONN_STATE_MAX).
Proof.
  induction blocks as [|b blocks IH]; intros own w c Hat HSt Hw; cbn [recv_blocks]; [apply runs_ret; stays c; apply Hw|]. run_get.
  assert (Hst : forall own c c', St own c' -> steady c c' -> working c -> working c').
  { intros own' c1 c2 [[Hs _] _] HD [W1 W2]. rewrite <- (sd_new _ _ HD) in W1. split; [exact W1|].
    destruct (Z.le_gt_cases CONN_STATE_INIT (state_ c2)) as [|Hlt]; [done|]. rewrite (st_below _ Hs) in W1 by lia. done. }
  assert (Hgo : forall e, runs_to (engine_call E Logic id e;; ok <- ask (process_ok E);;
    (if negb ok then ret false else engine_call E Logic id e;; recv_blocks E id blocks))
    (fun _ w' => exists c', at_ w0 id own w' c' /\ St own c' /\ rel c c' /\ new_state_ c' = CONN_STATE_MAX) w).
  { intros e. eapply step_call; [apply (engine_call_ok E cfg cas Logic id e)|done|done|right; by apply working_alive|].
    intros [] w1 c1 H1 S1 R1 [Q1 D1]. specialize (D1 eq_refl). assert (W1 : working c1) by by eapply Hst.
    eapply runs_call; [by eapply at_ask|]. intros ok w2 H2.
    destruct (negb ok); [apply runs_ret; exists c1; split; [done|]; split; [done|]; split; [done|apply W1]|].
    eapply step_call; [apply (engine_call_ok E cfg cas Logic id e)|exact H2|exact S1|right; by apply working_alive|].
    intros [] w3 c3 H3 S3 R3 [Q3 D3]. specialize (D3 eq_refl).
    eapply runs_mono; [apply (IH own w3 c3 H3 S3); by eapply Hst|].
    intros ok' w4 (c4 & H4 & S4 & R4 & Q4). exists c4. split; [done|]. split; [done|]. split; [|done].
    eapply rel_trans; [exact R1|]. by eapply rel_trans. }
  destruct (h3_conn_ c) as [e|]; [apply Hgo|]. destruct (conn_ c) as [e|]; [apply Hgo|]. by apply runs_fail.
Qed.

Lemma OnUdpData_rests w0 id blocks : step_at w0 id (OnUdpData E id blocks) any rests.
Proof.
  intros own w c Hat HSt _. unfold OnUdpData. eapply step_call; [apply CloseCheck_ok|done|done|done|].
  intros [|] w1 c1 H1 S1 R1 [Q1 Q1'].
  { apply runs_ret. exists c1. split; [done|]. split; [done|]. split; [done|]. apply Q1'. }
  destruct Q1' as (-> & Hn & Hi). eapply runs_call; [by apply recv_blocks_working|]. intros ok w2 (c2 & H2 & S2 & R2 & Q2). destruct ok.
  - eapply runs_mono; [by eapply check_rests|]. intros [] w3 (c3 & H3 & S3 & R3 & Q3). exists c3. split; [done|]. split; [done|].
    split; [by eapply rel_trans|done].
  - apply runs_ret. exists c2. split; [done|]. split; [done|]. split; [done|by apply rest_working].
Qed.

(** ** A connection of a MASQUE proxy gets its tunnel *)

Lemma St_role own c host port :
  St own c -> masque_role_ (mq c) = MASQUE_NONE -> St own (as_inner host port c) /\ rel c (as_inner host port c).
Proof.
  intros ([Hs Hb] & Ho & Hsh) Hr. split; [split; [split|done]|].
  - destruct Hs. by split.
  - destruct Hb as [[] [] ? ? ? ? ? ?]. split; try done; by split.
  - split; try done. by exists []; rewrite app_nil_r.
Qed.

Lemma at_next w0 id own w c : at_ w0 id own w c -> runs_to (put_K (fun k => k <| next_conn_id_ ::= Z.succ |>)) (fun _ w' =>
  w' = w <| K ::= fun k => k <| next_conn_id_ ::= Z.succ |> |> /\ at_ w0 id own w' c) w.
Proof. intros [H1 H2 H3 H4]. apply runs_puts. split; [done|]. split; [by apply glob_next|done..]. Qed.

(** A pair was not made. *)
Lemma no_tunnel_made id :
  step_ok id (put_mq id (fun m => m <| masque_tunnel_ := None |>);; (NotifyConnectResult E id None BC_R_FAILURE None;; ret BC_R_FAILURE))
    (fun c => masque_tunnel_ (mq c) = None) (fun c _ c' => state_ c' = state_ c).
Proof.
  intros w0 own w c Hat HSt Ht. eapply runs_call.
  { apply (at_put E cfg cas w0 id own w c (with_tunnel None) Hat); [split; auto|done|by apply same_no_new]. }
  intros [] w1 H1. cbv beta in H1. destruct (St_same E cfg cas own c (with_tunnel None c) eq_refl HSt) as [S1 R1].
  eapply step_call; [apply NotifyConnectResult_ok|done|done|done|]. intros [] w2 c2 H2 S2 R2 [Q2 _]. apply runs_ret.
  exists c2. split; [done|]. split; [done|]. split; [by eapply rel_trans|]. by rewrite (core_field state_ _ _ Q2 ltac:(reflexivity)).
Qed.

Lemma MasqueStartTunnel_ok id :
  forall w0 own w c, at_ w0 id own w c -> St own c -> attached c = true ->
    masque_role_ (mq c) = MASQUE_INNER -> masque_tunnel_ (mq c) = None -> masque_tunnel_closing_ (mq c) = false ->
    ~ (TTunnelClosed ∈ queue w id) ->
    runs_to (MasqueStartTunnel E id) (fun _ w' => exists c', at_ w0 id own w' c' /\ St own c' /\ rel c c' /\ state_ c' = state_ c) w.
Proof.
  intros w0 own w c Hat HSt Ha Hr Ht Hcl Hq. unfold MasqueStartTunnel, CreateMasqueTunnel.
  assert (Hnone : forall w', at_ w0 id own w' c -> runs_to (put_mq id (fun m => m <| masque_tunnel_ := None |>);;
    (NotifyConnectResult E id None BC_R_FAILURE None;; ret BC_R_FAILURE))
    (fun _ w' => exists c', at_ w0 id own w' c' /\ St own c' /\ rel c c' /\ state_ c' = state_ c) w') by (intros w' Hat'; by apply no_tunnel_made).
  apply runs_bind. run_get. apply runs_bind, runs_gets.
  destruct (tunnel_object (k_config (K w)) (config_ c)) as [o|]; [|apply runs_ret; by apply Hnone].
  eapply runs_call; [by apply at_next|]. intros [] w1 [E1 H1].
  eapply runs_call; [apply (make_conn_ok E cfg cas id own w1 false o), H1|]. intros r w2 (G2 & K2 & [n E2] & Hr2).
  assert (H2 : at_ w0 id own w2 c) by by eapply at_keep.
  destruct r as [t|]; [|apply runs_ret; by apply Hnone]. destruct Hr2 as (c0 & rcas & ->).
  set (i := next_conn_id_ (K w)). apply runs_bind, runs_puts, runs_ret.
  pose proof (ko_next _ _ _ (gl_connector _ _ _ _ _ _ (at_glob _ _ _ _ _ _ _ _ Hat))) as Hnext.
  assert (Hi : objs w !! i = None) by (apply (none_at E cfg cas id own w); [apply Hat|unfold i; lia]).
  assert (Hne : i <> id) by (intros Hx; rewrite Hx, (at_obj _ _ _ _ _ _ _ _ Hat) in Hi; done).
  assert (Ho2 : objs w2 = objs w) by by rewrite E2, E1.
  assert (HG : glob id own (w2 <| objs ::= fun m => <[id := with_tunnel (Some i) c]> (<[i := new_tunnel id (masque_target_host_ (mq c)) (masque_target_port_ (mq c)) (new_conn c0 rcas false)]> m) |>
                 <| queues ::= <[i := []]> |>)).
  { apply (glob_tunnel E cfg cas); try done.
    - by rewrite Ho2, (at_obj _ _ _ _ _ _ _ _ Hat).
    - rewrite E2, E1. cbn. unfold i. lia.
    - by rewrite Ho2.
    - unfold queue. rewrite E2, E1. exact Hq. }
  set (x := new_tunnel _ _ _ _) in *.
  assert (H3 : runs_to (put_mq id (fun m => m <| masque_tunnel_ := Some i |>)) (fun _ w' => at_ w0 id own w' (with_tunnel (Some i) c) /\ objs w' !! i = Some x)
    (w2 <| objs ::= <[i := x]> |> <| queues ::= <[i := []]> |>)).
  { apply runs_puts. 
    match goal with |- at_ _ _ _ ?wa _ /\ _ => match type of HG with SMPInvariant.glob _ _ _ _ _ ?wb => replace wa with wb end end.
    - split; [|cbn; rewrite lookup_insert_ne by done; apply lookup_insert_eq]. split; [exact HG|apply lookup_insert_eq|apply H2|].
      intros j y Hj Hu Hy. cbn. rewrite lookup_insert_ne by done. pose proof (at_others _ _ _ _ _ _ _ _ H2 j y Hj Hu Hy) as Hy2.
      rewrite lookup_insert_ne; [done|]. intros <-. rewrite Ho2 in Hy2. congruence.
    - assert (Hl : <[i := x]> (objs w2) !! id = Some c) by (rewrite lookup_insert_ne by done; rewrite Ho2; apply Hat).
      destruct w2. unfold update. cbn in *. f_equal. by rewrite (alter_set _ id c _ Hl). }
  eapply runs_call; [exact H3|]. intros [] w4 [H4 O4]. destruct (St_same E cfg cas own c (with_tunnel (Some i) c) eq_refl HSt) as [S4 R4].
  unfold MasqueConnectToProxy. eapply runs_call; [by eapply at_post_working|]. intros [] w5 H5. apply runs_ret.
  exists (with_tunnel (Some i) c). done.
Qed.

Lemma StartTunnel_ok id :
  forall w0 own w c, at_ w0 id own w c -> St own c -> attached c = true -> masque_role_ (mq c) = MASQUE_NONE ->
    runs_to (put_mq id (fun m => m <| masque_role_ := MASQUE_INNER |> <| masque_target_host_ := host_ (tgt c) |>
                          <| masque_target_port_ := port_ (tgt c) |>);; MasqueStartTunnel E id)
      (fun _ w' => exists c', at_ w0 id own w' c' /\ St own c' /\ rel c c' /\ state_ c' = state_ c) w.
Proof.
  intros w0 own w c Hat HSt Ha Hr.
  destruct (no_role w id c (gl_link _ _ _ _ _ _ (at_glob _ _ _ _ _ _ _ _ Hat)) (at_obj _ _ _ _ _ _ _ _ Hat) Hr) as (N1 & N2 & N3 & N4 & _).
  apply runs_bind, runs_puts. change (fun c0 : conn => c0 <| mq ::= _ |>) with (as_inner (host_ (tgt c)) (port_ (tgt c))).
  set (c1 := as_inner (host_ (tgt c)) (port_ (tgt c)) c).
  assert (H1 : at_ w0 id own (w <| objs ::= alter (as_inner (host_ (tgt c)) (port_ (tgt c))) id |>) c1).
  { destruct Hat as [G O P Oth]. assert (Ew : w <| objs ::= alter (as_inner (host_ (tgt c)) (port_ (tgt c))) id |> = w <| objs ::= <[id := c1]> |>).
    { destruct w. unfold update. cbn in *. f_equal. by rewrite (alter_set _ id c). }
    rewrite Ew. split; [by apply glob_role|apply lookup_insert_eq|done|]. intros j y Hj Hu Hy. cbn. rewrite lookup_insert_ne by done. by apply Oth. }
  destruct (St_role own c (host_ (tgt c)) (port_ (tgt c)) HSt Hr) as [S1 R1].
  eapply runs_mono; [by apply (MasqueStartTunnel_ok id w0 own _ c1 H1 S1)|].
  intros r w2 (c2 & H2 & S2 & R2 & Q2). exists c2. split; [done|]. split; [done|]. split; [by eapply rel_trans|by rewrite Q2].
Qed.

(** ** Connecting *)

Definition created (h3 : bool) (c : conn) : conn :=
  (if h3 then c <| h3_conn_ := Some (next_eng c) |> else c <| conn_ := Some (next_eng c) |>)
    <| engs ::= <[next_eng c := {| is_h3 := h3; asked := asks_to_verify (config_ c) (root_cas_ c) cas; vouched := false;
                          hs_done := false;
                          dgram_user := h3 && bool_decide (masque_role_ (mq c) = MASQUE_TUNNEL) |}]> |>
    <| next_eng ::= Z.succ |>.

Lemma St_created own c h3 :
  St own c -> CONN_STATE_INIT <= state_ c -> ~ stuck c -> webtransport_ c = alpn_h3 (alpn (config_ c)) ->
  (proxied c = true -> masque_role_ (mq c) <> MASQUE_NONE) -> St own (created h3 c) /\ rel c (created h3 c).
Proof.
  intros ([[X1 X2 X3 X4 X5 X6 X7 X8 X9] [B1 [N1 N2 N3 N4 N5 N6] B3 B4 B5 B6 B7 B8]] & Ho & Hsh) Hi Hk Hw Hp.
  unfold CONN_STATE_INIT, CONN_STATE_CLOSING_SOCK, CONN_STATE_FREED, CONN_STATE_CLOSING_QUIC in *.
  split; [split; [split|split; [destruct h3; exact Ho|by destruct h3]]|].
  - destruct h3; (split; cbn; unfold CONN_STATE_INIT, CONN_STATE_CLOSING_SOCK, CONN_STATE_FREED, CONN_STATE_CLOSING_QUIC in *; try done; lia).
  - assert (Hold : forall e g, <[next_eng c := {| is_h3 := h3; asked := asks_to_verify (config_ c) (root_cas_ c) cas; vouched := false;
        hs_done := false; dgram_user := h3 && bool_decide (masque_role_ (mq c) = MASQUE_TUNNEL) |}]> (engs c) !! e = Some g ->
      e = next_eng c /\ is_h3 g = h3 /\ asked g = verifies cas c /\ vouched g = false \/ e <> next_eng c /\ engs c !! e = Some g).
    { intros e g. destruct (decide (e = next_eng c)) as [->|Hne]; [rewrite lookup_insert_eq; intros [= <-]; by left|].
      rewrite lookup_insert_ne by done. by right. }
    assert (HN : engines_ok cas (created h3 c)).
    { split.
      - intros e He. destruct (decide (e = next_eng c)) as [->|Hne].
        + destruct h3; cbn in *; [|rewrite lookup_insert_eq; eauto]. destruct (N1 _ He) as (g & Hg & _). apply N2 in Hg. lia.
        + destruct h3; cbn in *; [rewrite lookup_insert_ne by done; by apply N1|]. injection He as <-. done.
      - intros e g He.
        assert (He' : e < next_eng c + 1); [|destruct h3; cbn; lia].
        destruct (Hold e g) as [(-> & _)|[_ Hg]]; [by destruct h3|lia|]. apply N2 in Hg. lia.
      - intros e g He. destruct (Hold e g) as [(_ & _ & Ha & _)|[_ Hg]]; [by destruct h3|by destruct h3|]. rewrite (N3 e g Hg). by destruct h3.
      - intros e g He Hv. destruct (Hold e g) as [(_ & _ & _ & Ha)|[_ Hg]]; [by destruct h3|congruence|]. pose proof (N4 e g Hg Hv). by destruct h3.
      - left. by destruct h3.
      - intros e g He Hpx. destruct h3; by apply Hp. }
    destruct h3; split; try done; destruct B1; by split.
  - destruct h3; split; try done; try (by exists []; rewrite app_nil_r); intros Hs; by destruct Hk.
Qed.

Lemma OnConnCreate_ok id h3 :
  step_ok id (OnConnCreate id h3)
    (fun c => CONN_STATE_INIT <= state_ c /\ ~ stuck c /\ webtransport_ c = alpn_h3 (alpn (config_ c)) /\
       (proxied c = true -> masque_role_ (mq c) <> MASQUE_NONE))
    (fun c _ c' => c' = created h3 c).
Proof.
  intros w0 own w c Hat HSt (Hi & Hk & Hw & Hp). unfold OnConnCreate. run_get. apply runs_bind, runs_gets.
  destruct (ko_config _ _ _ (gl_connector _ _ _ _ _ _ (at_glob _ _ _ _ _ _ _ _ Hat))) as [_ ->].
  destruct (St_created own c h3 HSt Hi Hk Hw Hp) as [S1 R1]. cbv zeta. apply runs_bind.
  match goal with |- runs_to (put id ?f) _ _ => assert (Ef : f c = created h3 c) by done;
    eapply runs_mono; [apply (at_put E cfg cas w0 id own w c f Hat); rewrite ?Ef|] end.
  - destruct h3; split; auto.
  - by destruct h3.
  - destruct h3; by apply same_no_new.
  - intros [] w1 H1. apply runs_ret. exists (created h3 c). done.
Qed.

(** What holds when [jqc_connect] is called. *)
Definition connecting (c : conn) : Prop :=
  working c /\ webtransport_ c = alpn_h3 (alpn (config_ c)) /\ (proxied c = true -> masque_role_ (mq c) <> MASQUE_NONE).

Definition keeps_init (c : conn) {A} (_ : A) (c' : conn) : Prop := state_ c = CONN_STATE_INIT -> state_ c' = CONN_STATE_INIT.

Lemma working_not_stuck c : working c -> ~ stuck c.
Proof. intros [Hn _] (_ & Hf & _). by rewrite Hn in Hf. Qed.

Lemma jqc_connect_ok id size : step_ok id (jqc_connect E id size) connecting (fun c r c' => keeps_init c r c').
Proof.
  intros w0 own w c Hat HSt (Hw & Hwt & Hp). unfold jqc_connect. eapply runs_call; [by eapply at_ask|]. intros en w1 H1.
  cbv beta in H1. run_get. apply runs_bind, runs_gets. cbv zeta.
  assert (Hmade : forall h3, St own (created h3 c) /\ state_ (created h3 c) = state_ c).
  { intros h3. split; [|by destruct h3]. apply St_created; try done; [apply Hw|by apply working_not_stuck]. }
  assert (Hnew : forall h3 (k : Z -> M BCRESULT) Q, (forall e w2 c2, at_ w0 id own w2 c2 -> St own c2 -> rel c c2 -> state_ c2 = state_ c -> runs_to (k e) Q w2) ->
    runs_to (bind (OnConnCreate id h3) k) Q w1).
  { intros h3 k Q Hk. eapply step_call; [apply OnConnCreate_ok|done|done|split; [apply Hw|split; [by apply working_not_stuck|done]]|].
    intros e w2 c2 H2 S2 R2 ->. eapply Hk; [done|done|done|by destruct h3]. }
  destruct en as [|h3 msg|h3].
  - apply runs_ret. stays c. by unfold keeps_init.
  - apply Hnew. intros e w2 c2 H2 S2 R2 Es. eapply step_call; [by apply quiet_log|done|done|done|]. intros [] w3 c3 H3 S3 R3 [Q3 _].
    pose proof (core_field state_ _ _ Q3 ltac:(reflexivity)) as Es3.
    eapply step_call; [apply OnClose_ok|done|done|done|]. intros [] w4 c4 H4 S4 R4 (_ & _ & Q4). apply runs_ret. exists c4.
    split; [done|]. split; [done|]. split; [eapply rel_trans; [exact R2|by eapply rel_trans]|]. intros Hi. apply Q4. congruence.
  - apply Hnew. intros e w2 c2 H2 S2 R2 Es. eapply step_call; [by apply quiet_log|done|done|done|]. intros [] w3 c3 H3 S3 R3 [Q3 _].
    pose proof (core_field state_ _ _ Q3 ltac:(reflexivity)) as Es3.
    eapply step_call; [apply nested_call_ok|done|done|done|]. intros [] w4 c4 H4 S4 R4 [Q4 _].
    pose proof (core_field state_ _ _ Q4 ltac:(reflexivity)) as Es4. apply runs_ret. exists c4.
    split; [done|]. split; [done|]. split; [eapply rel_trans; [exact R2|by eapply rel_trans]|]. intros Hi. congruence.
Qed.

Lemma packet_size_ok w0 id own w c :
  at_ w0 id own w c -> runs_to (packet_size E id) (fun _ w' => at_ w0 id own w' c) w.
Proof.
  intros Hat. unfold packet_size. run_get. destruct (masque_role_ (mq c)); [by apply runs_ret| |by apply runs_ret].
  eapply (runs_call _ _ (fun _ w' => at_ w0 id own w' c)); [|intros mss w1 H1; by apply runs_ret].
  destruct (masque_tunnel_ (mq c)) as [t|] eqn:Ht; [|by apply runs_ret].
  destruct (tunnel_of _ _ _ _ _ _ _ _ _ Hat Ht) as (ct & Hct & _). unfold MasqueDatagramMss. apply runs_bind. eapply runs_get; [done|].
  destruct (_ || _); [by apply runs_ret|]. eapply runs_call; [by eapply at_ask|]. intros m w1 H1. by apply runs_ret.
Qed.

Lemma St_webtransport own c : St own c -> alpn_h3 (alpn (config_ c)) = true ->
  St own (c <| webtransport_ := true |>) /\ rel c (c <| webtransport_ := true |>).
Proof.
  intros ([[X1 X2 X3 X4 X5 X6 X7 X8 X9] [B1 [N1 N2 N3 N4 N5 N6] B3 B4 B5 B6 B7 B8]] & Ho & Hsh) Ha.
  split; [split; [split; [by split|]|done]|].
  - split; try done; [destruct B1; by split|split; try done; left; by cbn|].
    intros key s Hs. destruct (B7 key s Hs) as [H1 H2]. split; [done|].
    destruct H2 as [W1 W2]. unfold stream_ok. cbn [webtransport_]. change (config_ (c <| webtransport_ := true |>)) with (config_ c).
    rewrite <- W1 in Ha. rewrite Ha in *. by split.
  - split; try done. by exists []; rewrite app_nil_r.
Qed.

(** What follows once the role is known. *)
Lemma connect_ok id :
  step_ok id
    (put id (fun c => if alpn_h3 (alpn (config_ c)) then c <| webtransport_ := true |> else c);;
     size <- packet_size E id;;
     match size with
     | None => ret BC_R_FAILURE
     | Some out_size =>
         put id (fun c => if negb (bool_decide (masque_role_ (mq c) = MASQUE_INNER)) && udp_socket_ c
                          then c <| udp_reading := true |> else c);;
         r <- ask (sockaddr E);;
         if negb (r =? BC_R_SUCCESS) then ret r else jqc_connect E id out_size
     end)
    (fun c => working c /\ (proxied c = true -> masque_role_ (mq c) <> MASQUE_NONE)) (fun c r c' => keeps_init c r c').
Proof.
  intros w0 own w c Hat HSt [Hw Hp]. pose proof HSt as ([Hs Hb] & _).
  set (wt := fun c : conn => if alpn_h3 (alpn (config_ c)) then c <| webtransport_ := true |> else c).
  assert (Hwt : St own (wt c) /\ rel c (wt c) /\ connecting (wt c) /\ state_ (wt c) = state_ c).
  { unfold wt. destruct (alpn_h3 (alpn (config_ c))) eqn:Ea.
    - destruct (St_webtransport own c HSt Ea). split; [done|]. split; [done|]. split; [|done]. split; [exact Hw|]. split; [symmetry; exact Ea|exact Hp].
    - split; [done|]. split; [apply rel_refl|]. split; [|done]. split; [exact Hw|]. split; [|exact Hp]. rewrite Ea.
      by destruct (en_wt _ _ (lo_engines _ _ _ _ Hb)) as [->|[-> _]]. }
  destruct Hwt as (S1 & R1 & Hc1 & Es1). eapply runs_call.
  { apply (at_put E cfg cas w0 id own w c wt Hat); unfold wt; destruct (alpn_h3 _); first [done|by apply same_no_new|split; auto]. }
  intros [] w1 H1. cbv beta in H1. set (c1 := wt c) in *. clearbody c1.
  eapply runs_call; [by apply packet_size_ok|]. intros [size|] w2 H2.
  2: { apply runs_ret. exists c1. split; [done|]. split; [done|]. split; [done|]. intros Hi. congruence. }
  set (rd := fun c : conn => if negb (bool_decide (masque_role_ (mq c) = MASQUE_INNER)) && udp_socket_ c then c <| udp_reading := true |> else c).
  assert (Hrd : erase (rd c1) = erase c1 /\ connecting (rd c1) /\ state_ (rd c1) = state_ c1) by (unfold rd; destruct (negb _ && _); done).
  destruct Hrd as (Ee & Hc2 & Es2). destruct (St_same E cfg cas own _ _ Ee S1) as [S2 R2]. eapply runs_call.
  { apply (at_put E cfg cas w0 id own w2 c1 rd H2); unfold rd; destruct (negb _ && _); first [done|by apply same_no_new|split; auto]. }
  intros [] w3 H3. cbv beta in H3. set (c2 := rd c1) in *. clearbody c2.
  assert (R12 : rel c c2) by by eapply rel_trans. assert (Es : state_ c2 = state_ c) by congruence.
  eapply runs_call; [by eapply at_ask|]. intros r w4 H4. destruct (negb (r =? BC_R_SUCCESS)).
  { apply runs_ret. exists c2. split; [done|]. split; [done|]. split; [done|]. intros Hi. congruence. }
  eapply runs_mono; [apply (jqc_connect_ok id size w0 own w4 c2 H4 S2 Hc2)|]. intros r' w5 (c5 & H5 & S5 & R5 & Q5). exists c5. split; [done|]. split; [done|].
  split; [by eapply rel_trans|]. intros Hi. apply Q5. congruence.
Qed.

Lemma Connect_Internal_ok id : step_ok id (Connect_Internal E id) working (fun c r c' => keeps_init c r c').
Proof.
  intros w0 own w c Hat HSt Hw. unfold Connect_Internal. run_get. pose proof HSt as ([Hs Hb] & _).
  destruct (bool_decide (masque_role_ (mq c) = MASQUE_NONE) && bool_decide (proxy_type (config_ c) = TT_PROXY_MASQUE)) eqn:Ep.
  - apply andb_prop in Ep as [Er%bool_decide_eq_true _]. eapply runs_mono; [apply (StartTunnel_ok id w0 own w c Hat HSt); [|done]|].
    + rewrite (st_attached _ Hs). destruct Hw as [_ Hi]. unfold CONN_STATE_INIT, CONN_STATE_FREED in *. by rewrite (proj2 (Z.eqb_neq _ _)) by lia.
    + intros r w1 (c1 & H1 & S1 & R1 & Q1). exists c1. split; [done|]. split; [done|]. split; [done|]. intros Hi. congruence.
  - destruct (negb (cong_ctl_known E (c_cong_ctl (config_ c)))); [apply runs_ret; stays c; by unfold keeps_init|].
    apply connect_ok; [done|done|]. split; [exact Hw|]. intros Hp Hr. unfold proxied in Hp. apply andb_prop in Hp as [_ Hp].
    rewrite (bool_decide_eq_true_2 _ Hr), Hp in Ep. done.
Qed.

(** *** The task of [Connect] *)

(** What a step leaves true of a connection that may have got a stub. *)
Record kin (c c' : conn) : Prop := {
  ki_config : config_ c' = config_ c;
  ki_cas : root_cas_ c' = root_cas_ c;
  ki_user : user_handler c' = user_handler c;
  ki_log : exists l, log_ c' = log_ c ++ l;
  ki_new : new_state_ c = CONN_STATE_FREED -> new_state_ c' = CONN_STATE_FREED;
  ki_owned : forall s, s ∈ owned c -> s ∈ owned c'
}.

Lemma rel_kin c c' : rel c c' -> kin c c'.
Proof. intros []. split; try done. intros s Hs. by apply re_owned. Qed.

Lemma kin_trans c1 c2 c3 : kin c1 c2 -> kin c2 c3 -> kin c1 c3.
Proof.
  intros [A1 A2 A3 (l & A4) A5 A6] [B1 B2 B3 (k & B4) B5 B6]. split; auto; try congruence.
  exists (l ++ k). by rewrite B4, A4, app_assoc.
Qed.

Lemma kin_answer pStub r msg c : kin c (answer pStub r msg c).
Proof.
  pose proof (answer_core pStub r msg c) as Ec. split.
  - exact (core_field config_ _ _ Ec ltac:(reflexivity)).
  - exact (core_field root_cas_ _ _ Ec ltac:(reflexivity)).
  - exact (core_field user_handler _ _ Ec ltac:(reflexivity)).
  - apply answer_log.
  - by rewrite (core_field new_state_ _ _ Ec ltac:(reflexivity)).
  - intros s Hs. apply owned_answer. by left.
Qed.

Definition has_stub (stub : Z) (own : list Z) (c : conn) : Prop := stub ∈ own /\ stub ∉ owned c.

(** The caller's own stub is answered. *)
Lemma answer_stub_ok w0 id own w c stub r :
  at_ w0 id own w c -> St own c -> has_stub stub own c ->
  runs_to (NotifyConnectResult E id (Some stub) r None)
    (fun _ w' => let c' := answer (Some stub) r None c in at_ w0 id own w' c' /\ St own c' /\ kin c c' /\ stub ∈ owned c' /\ core c' = core c) w.
Proof.
  intros Hat HSt [Hin Hn]. eapply runs_mono; [by apply NotifyConnectResult_does|]. intros [] w1 H1. cbv zeta.
  split; [done|]. split.
  { apply St_answer; [done|by intros s [= <-]|by intros s [= <-]|done]. }
  split; [apply kin_answer|]. split; [apply owned_answer; by right|apply answer_core].
Qed.

Lemma St_handshake own c :
  St own c -> state_ c = CONN_STATE_INIT -> St own (c <| state_ := CONN_STATE_HANDSHAKE |>) /\ kin c (c <| state_ := CONN_STATE_HANDSHAKE |>).
Proof.
  intros ([[X1 X2 X3 X4 X5 X6 X7 X8 X9] Hb] & Ho & Hsh) Hi. split; [split; [split|done]|].
  - split; try done. change (attached c = negb (CONN_STATE_HANDSHAKE =? CONN_STATE_FREED)). by rewrite X4, Hi.
  - destruct Hb as [[] [] ? ? ? ? ? ?]. split; try done; by split.
  - split; try done. by exists []; rewrite app_nil_r.
Qed.

(** The connection waits for the answer to [stub]. *)
Definition waits_for (stub : Z) (c : conn) : conn :=
  c <| next_task_id := next_task_id c + 1 |> <| delay_tasks ::= <[next_task_id c + 1 := (ConnectTimer, true)]> |>
    <| connect_timer_id_ := next_task_id c + 1 |> <| connect_rpc_ := Some stub |> <| state_ := CONN_STATE_HANDSHAKE |>.

Lemma St_waits own c stub :
  St own c -> has_stub stub own c -> state_ c = CONN_STATE_INIT ->
  St own (waits_for stub c) /\ kin c (waits_for stub c) /\ stub ∈ owned (waits_for stub c).
Proof.
  intros ([[X1 X2 X3 X4 X5 X6 X7 X8 X9] [[T1 T2 T3 T4 T5] B2 B3 B4 B5 B6 B7 B8]] & Ho & Hsh) [Hin Hn] Hi.
  destruct (X7 Hi) as [Hr Ht].
  assert (Eo : owned (waits_for stub c) = owned c ++ [stub]).
  { change (owned (waits_for stub c)) with (answered (log_ c) ++ [stub]). unfold owned. by rewrite Hr, app_nil_r. }
  split; [split; [split|split; [|done]]|split].
  - split; try done. change (attached c = negb (CONN_STATE_HANDSHAKE =? CONN_STATE_FREED)). by rewrite X4, Hi.
  - split; try done; [|by destruct B2|].
    + split; cbn; try lia.
      * intros t x. destruct (decide (t = next_task_id c + 1)) as [->|Hne]; [lia|]. rewrite lookup_insert_ne by done. intros Hx%T1. lia.
      * intros t b. destruct (decide (t = next_task_id c + 1)) as [->|Hne]; [done|]. rewrite lookup_insert_ne by done.
        intros Hx. pose proof (T4 t b Hx). apply T1 in Hx. lia.
      * intros _ _. by rewrite lookup_insert_eq.
    + rewrite Eo. apply NoDup_app. split; [done|]. split; [|apply NoDup_singleton]. intros s Hs ->%list_elem_of_singleton. done.
  - intros s. rewrite Eo. intros [?|Hs]%elem_of_app; [by apply Ho|]. apply list_elem_of_singleton in Hs. by subst.
  - split; try done; [by exists []; rewrite app_nil_r|]. intros s Hs. rewrite Eo. apply elem_of_app. by left.
  - rewrite Eo. apply elem_of_app. right. by left.
Qed.

Definition got_stub (own : list Z) (stub : Z) (w0 : world) (id : Z) (c : conn) (w' : world) : Prop :=
  exists c', at_ w0 id own w' c' /\ St own c' /\ kin c c' /\ stub ∈ owned c'.

Lemma got_stub_from own stub w0 id c c1 w' : kin c c1 -> got_stub own stub w0 id c1 w' -> got_stub own stub w0 id c w'.
Proof. intros Hk (c2 & H2 & S2 & K2 & I2). exists c2. split; [done|]. split; [done|]. split; [by eapply kin_trans|done]. Qed.

(** It could not be started: the stub is answered and the connection closes. *)
Lemma not_started own stub w0 id w c r :
  at_ w0 id own w c -> St own c -> has_stub stub own c -> state_ c = CONN_STATE_INIT ->
  runs_to (bind (NotifyConnectResult E id (Some stub) r None;; set_state id CONN_STATE_FREED r)
             (fun _ => put id (fun c => c <| state_ := CONN_STATE_HANDSHAKE |>)))
    (fun _ w' => got_stub own stub w0 id c w') w.
Proof.
  intros Hat HSt Hst Hi. apply runs_bind. eapply runs_call; [by apply answer_stub_ok|]. intros [] w1 (H1 & S1 & K1 & I1 & C1).
  set (c1 := answer _ _ _ _) in *. clearbody c1.
  eapply runs_mono; [by apply (set_state_ok E cfg cas id r w0 own w1 c1 H1 S1)|]. intros [] w2 (c2 & H2 & S2 & R2 & E2).
  assert (Hi2 : state_ c2 = CONN_STATE_INIT).
  { rewrite E2. change (state_ c1 = CONN_STATE_INIT). by rewrite (core_field state_ _ _ C1 ltac:(reflexivity)). }
  destruct (St_handshake own c2 S2 Hi2) as [S3 K3]. clear E2. run_set w3 H3. eexists. split; [exact H3|]. split; [done|].
  split; [eapply kin_trans; [exact K1|]; eapply kin_trans; [apply rel_kin, R2|exact K3]|].
  apply (ki_owned _ _ K3). by apply (re_owned _ _ R2).
Qed.

Lemma StartConnect_ok own stub w0 id w c :
  at_ w0 id own w c -> St own c -> has_stub stub own c -> working c -> state_ c = CONN_STATE_INIT ->
  runs_to (StartConnect E id stub;; put id (fun c => c <| state_ := CONN_STATE_HANDSHAKE |>))
    (fun _ w' => got_stub own stub w0 id c w') w.
Proof.
  intros Hat HSt Hst Hw Hi. unfold StartConnect. apply runs_bind.
  eapply step_call; [apply Connect_Internal_ok|done|done|done|]. intros r w1 c1 H1 S1 R1 Q1. specialize (Q1 Hi).
  assert (Hst1 : has_stub stub own c1) by (split; [apply Hst|]; intros Hx; apply Hst, (re_owned _ _ R1), Hx).
  assert (Hfail : forall r w2, at_ w0 id own w2 c1 -> runs_to (NotifyConnectResult E id (Some stub) r None;; set_state id CONN_STATE_FREED r)
    (fun _ w' => runs_to (put id (fun c => c <| state_ := CONN_STATE_HANDSHAKE |>)) (fun _ w' => got_stub own stub w0 id c w') w') w2).
  { intros r' w2 H2. pose proof (not_started own stub w0 id w2 c1 r' H2 S1 Hst1 Q1) as Hn. unfold runs_to, bind in *.
    destruct (NotifyConnectResult E id (Some stub) r' None w2) as [[[] w3]|]; [|done].
    destruct (set_state id CONN_STATE_FREED r' w3) as [[[] w4]|]; [|done].
    destruct (put id _ w4) as [[[] w5]|]; [|done]. eapply got_stub_from; [apply rel_kin, R1|done]. }
  destruct (negb (r =? BC_R_SUCCESS)); [by apply Hfail|].
  eapply runs_call; [by eapply at_ask|]. intros ok w2 H2. cbv beta in H2. destruct (negb ok); [by apply Hfail|].
  run_get. destruct (st_init _ (lo_states _ _ _ _ (proj1 S1)) Q1) as [Hr Ht]. rewrite Ht.
  unfold ScheduleTask. apply runs_bind. apply runs_bind. eapply at_get; [exact H2|].
  destruct (delay_tasks c1 !! 0) as [x|] eqn:Hx.
  { apply (tm_range _ (lo_timers _ _ _ _ (lo_body _ _ _ _ (proj1 S1)))) in Hx. lia. }
  cbv zeta. run_set w3 H3. apply runs_ret. run_set w4 H4. run_set w5 H5.
  destruct (St_waits own c1 stub S1 Hst1 Q1) as (S5 & K5 & I5). exists (waits_for stub c1). split; [exact H5|]. split; [done|].
  split; [eapply kin_trans; [apply rel_kin, R1|exact K5]|done].
Qed.

Lemma no_physical_interface_ok w0 id own w c :
  at_ w0 id own w c -> runs_to (no_physical_interface E id) (fun _ w' => at_ w0 id own w' c) w.
Proof.
  intros Hat. unfold no_physical_interface. run_get. destruct (_ && _); [|by apply runs_ret].
  destruct (has_path_monitor E); [|by apply runs_ret]. eapply runs_call; [by eapply at_ask|]. intros n w1 H1. by apply runs_ret.
Qed.

(** What the task of [Connect] leaves: its stub is dropped only by a connection that closes. *)
Definition connected_or_dropped (own : list Z) (stub : Z) (w0 : world) (id : Z) (c : conn) (w' : world) : Prop :=
  exists c', at_ w0 id own w' c' /\ St own c' /\ kin c c' /\ rest c' /\ (stuck c -> stuck c') /\
    (new_state_ c = CONN_STATE_FREED \/ stub ∈ owned c').

Lemma SMPConnect_ok own stub w0 id w c t :
  at_ w0 id own w c -> St own c -> has_stub stub own c ->
  runs_to (Connect E id stub t) (fun _ w' => connected_or_dropped own stub w0 id c w') w.
Proof.
  intros Hat HSt Hst. unfold Connect, guarded.
  eapply step_call; [apply CloseCheck_ok|done|done|done|]. intros [|] w1 c1 H1 S1 R1 [Q1 Q1'].
  { apply runs_ret. exists c1. split; [done|]. split; [done|]. split; [by apply rel_kin|]. split; [apply Q1'|].
    split; [apply R1|left; apply Q1']. }
  destruct Q1' as (-> & Hn & Hi). clear Q1 R1.
  eapply (runs_call _ _ (fun _ w' => got_stub own stub w0 id c w')).
  - run_get. destruct (Z.ltb_spec CONN_STATE_INIT (state_ c)) as [Hlt|Hge].
    + eapply runs_mono; [by apply answer_stub_ok|]. intros [] w2 (H2 & S2 & K2 & I2 & _). by exists (answer (Some stub) BC_R_ALREADYRUNNING None c).
    + eapply runs_call; [by apply no_physical_interface_ok|]. intros none w2 H2. destruct none.
      * eapply runs_mono; [by apply answer_stub_ok|]. intros [] w3 (H3 & S3 & K3 & I3 & _). by exists (answer (Some stub) BC_R_NO_PHYSICAL_INTERFACE None c).
      * run_set w3 H3. assert (Ee : erase (c <| tgt := t |>) = erase c) by done. destruct (St_same E cfg cas own _ _ Ee S1) as [S3 R3].
        eapply runs_mono; [apply (StartConnect_ok own stub w0 id w3 _ H3 S3); [exact Hst|by split|]|].
        -- change (state_ c = CONN_STATE_INIT). lia.
        -- intros [] w4 Hg. eapply got_stub_from; [apply rel_kin, R3|exact Hg].
  - intros [] w2 (c2 & H2 & S2 & K2 & I2).
    eapply runs_mono; [by apply (check_rests w0 id own w2 c2 H2 S2)|]. intros [] w3 (c3 & H3 & S3 & R3 & Q3). exists c3.
    split; [done|]. split; [done|]. split; [eapply kin_trans; [exact K2|by apply rel_kin]|]. split; [done|].
    split; [intros (_ & Hf & _); by rewrite Hn in Hf|right; by apply (re_owned _ _ R3)].
Qed.

(** ** The tasks of a MASQUE pair *)

Lemma done_weak {A} w0 id (m : M A) (P : conn -> Prop) Q : step_at w0 id m P Q -> step_at w0 id m P done_.
Proof. intros Hm own w c Hat HSt HP. eapply runs_mono; [by eapply Hm|]. intros a w1 (c1 & H1 & S1 & R1 & _). eauto 6. Qed.

Lemma closing_after w0 id (m : M unit) r (P : conn -> Prop) Q :
  step_ok id m P Q -> step_at w0 id (m;; set_state id CONN_STATE_FREED r) P done_.
Proof.
  intros Hm own w c Hat HSt HP. eapply step_call; [exact Hm|done|done|done|]. intros [] w1 c1 H1 S1 R1 _.
  eapply runs_mono; [by apply (set_state_done w0 id r any own w1 c1 H1 S1)|]. intros [] w2 (c2 & H2 & S2 & R2 & _). exists c2.
  split; [done|]. split; [done|]. split; [by eapply rel_trans|done].
Qed.

Lemma failing_ok w0 id r r' : r <> BC_R_SUCCESS ->
  step_at w0 id (NotifyConnectResult E id None r None;; set_state id CONN_STATE_FREED r') any done_.
Proof. intros Hr. apply (closing_after w0 id _ r' any (fun _ _ _ => True)). eapply step_weaken; [apply NotifyConnectResult_ok|intros ? ? _ _ Hx; by destruct (Hr Hx)|done]. Qed.

Lemma MasqueOnTunnelReady_rests w0 id r : step_at w0 id (MasqueOnTunnelReady E id r) any rests.
Proof.
  apply guarded_rests. intros own w c Hat HSt Hw. destruct (negb (r =? BC_R_SUCCESS)); [by apply (failing_ok w0 id)|].
  eapply step_call; [apply Connect_Internal_ok|done|done|done|]. intros r' w1 c1 H1 S1 R1 _.
  destruct (Z.eqb_spec r' BC_R_SUCCESS) as [|Hr]; cbn [negb when]; [apply runs_ret; by exists c1|].
  eapply runs_mono; [by apply (failing_ok w0 id r' r' Hr own w1 c1)|]. intros [] w2 (c2 & H2 & S2 & R2 & _). exists c2.
  split; [done|]. split; [done|]. split; [by eapply rel_trans|done].
Qed.

Lemma ConnectToProxy_rests w0 id : step_at w0 id (ConnectToProxy E id) any rests.
Proof.
  apply guarded_rests. intros own w c Hat HSt Hw. run_get.
  destruct (Z.ltb_spec CONN_STATE_INIT (state_ c)) as [Hlt|Hge]; [apply runs_ret; by stays c|].
  pose proof (gl_link _ _ _ _ _ _ (at_glob _ _ _ _ _ _ _ _ Hat) id c (at_obj _ _ _ _ _ _ _ _ Hat)) as L.
  eapply (runs_call _ _ (fun _ w' => w' = w)).
  { destruct (masque_inner_ (mq c)) as [i|] eqn:Hi; [|by apply runs_ret].
    destruct (li_inner _ _ _ L) as (j & ci & Hj & Hci & _); [apply (li_role' _ _ _ L); rewrite Hi; eauto|apply HSt|].
    rewrite Hi in Hj. injection Hj as <-. apply runs_bind. eapply runs_get; [done|]. by apply runs_ret. }
  intros proxy w1 ->.
  set (f := fun c : conn => c <| tgt ::= fun t => t <| scheme_ := str "https" |> <| host_ := proxy.1 |> <| port_ := proxy.2 |> |> <| state_ := CONN_STATE_HANDSHAKE |>).
  eapply runs_call; [apply (at_put E cfg cas w0 id own w c f Hat); [split; auto|done|by apply same_no_new]|]. intros [] w2 H2. cbv beta in H2.
  destruct (St_onward E cfg cas own c CONN_STATE_HANDSHAKE HSt (working_alive _ Hw)) as [S1 R1]; [unfold CONN_STATE_INIT, CONN_STATE_CONNECTED, CONN_STATE_HANDSHAKE; lia|].
  assert (Ee : erase (f c) = erase (c <| state_ := CONN_STATE_HANDSHAKE |>)) by by destruct c.
  destruct (St_same E cfg cas own _ _ Ee S1) as [S2 R2].
  assert (Hw2 : working (f c)) by (split; [apply Hw|done]). set (c2 := f c) in *. clearbody c2.
  eapply step_call; [apply Connect_Internal_ok|done|done|done|]. intros r w3 c3 H3 S3 R3 _.
  assert (R13 : rel c c3) by (eapply rel_trans; [exact R1|by eapply rel_trans]).
  destruct (negb (r =? BC_R_SUCCESS)); cbn [when]; [|apply runs_ret; by exists c3].
  eapply runs_mono; [by apply MasqueOnConnectUdpResponse_ok|]. intros [] w4 (c4 & H4 & S4 & R4 & _). exists c4.
  split; [done|]. split; [done|]. split; [by eapply rel_trans|done].
Qed.

(** What follows the end of the tunnel. *)
Definition tunnel_lost (id : Z) : M unit :=
  st <- get id state_;;
  (if st =? CONN_STATE_INIT then
     NotifyConnectResult E id None BC_R_NETDOWN None;; set_state id CONN_STATE_FREED BC_R_NETDOWN
   else when (CONN_STATE_INIT <? st) (set_state id CONN_STATE_FREED BC_R_NETDOWN));;
  (CloseCheck E id;; ret tt).

Lemma tunnel_lost_rests w0 id : step_at w0 id (tunnel_lost id) any rests.
Proof.
  intros own w c Hat HSt _. unfold tunnel_lost. run_get. revert own w c Hat HSt.
  assert (Hgo : forall st, step_at w0 id ((if st =? CONN_STATE_INIT then
     NotifyConnectResult E id None BC_R_NETDOWN None;; set_state id CONN_STATE_FREED BC_R_NETDOWN
   else when (CONN_STATE_INIT <? st) (set_state id CONN_STATE_FREED BC_R_NETDOWN));;
   (CloseCheck E id;; ret tt)) any rests).
  { intros st. apply then_check. destruct (st =? CONN_STATE_INIT); [by apply failing_ok|].
    destruct (CONN_STATE_INIT <? st); cbn [when]; [apply set_state_done|]. intros own w c Hat HSt _. apply runs_ret. by stays c. }
  intros own w c Hat HSt. by apply (Hgo (state_ c) own w c).
Qed.

Lemma no_tunnel_same c : erase (no_tunnel c) = erase c.
Proof. done. Qed.

(** The task itself, when there is no tunnel any more. *)
Lemma MasqueOnTunnelClosed_rests w0 id :
  step_at w0 id (MasqueOnTunnelClosed E id) (fun c => masque_tunnel_ (mq c) = None) rests.
Proof.
  intros own w c Hat HSt Ht. unfold MasqueOnTunnelClosed. run_get. rewrite Ht. eapply runs_call.
  { apply (at_put E cfg cas w0 id own w c no_tunnel Hat); [split; auto|done|by apply same_no_new]. }
  intros [] w1 H1. cbv beta in H1. destruct (St_same E cfg cas own c (no_tunnel c) eq_refl HSt) as [S1 R1].
  apply runs_bind, runs_ret. eapply runs_mono; [by apply (tunnel_lost_rests w0 id own w1 _ H1 S1)|].
  intros [] w2 (c2 & H2 & S2 & R2 & Q2). exists c2. split; [done|]. split; [done|]. split; [by eapply rel_trans|done].
Qed.

(** And when there is: it is deleted. *)
Lemma tunnel_deleted id w c t q :
  glob 0 [] w -> objs w !! id = Some c -> queue w id = TTunnelClosed :: q -> masque_tunnel_ (mq c) = Some t -> St (owned c) c ->
  runs_to (puts (fun w => w <| queues ::= <[id := q]> |>);; MasqueOnTunnelClosed E id)
    (fun _ w' => exists c', at_ w id (owned c) w' c' /\ St (owned c) c' /\ rel c c' /\ rest c') w.
Proof.
  intros Hg Hc Hq Ht HSt. apply runs_bind, runs_puts. unfold MasqueOnTunnelClosed. apply runs_bind. eapply runs_get; [exact Hc|].
  apply runs_bind, runs_puts. rewrite Ht. apply runs_bind, runs_puts.
  pose proof (glob_drop E cfg cas w id c t q Hg Hc Hq Ht) as H1.
  destruct (St_same E cfg cas (owned c) c (no_tunnel c) eq_refl HSt) as [S1 R1].
  assert (Ew : w <| objs ::= fun m => delete t (<[id := no_tunnel c]> m) |> <| queues ::= fun m => delete t (<[id := q]> m) |> =
    (w <| queues ::= <[id := q]> |> <| objs ::= alter no_tunnel id |>) <| objs ::= delete t |> <| queues ::= delete t |>).
  { destruct w. unfold update. cbn in *. f_equal. by rewrite (alter_set _ id c). }
  rewrite Ew in H1. eapply runs_mono; [by apply (tunnel_lost_rests w id (owned c) _ _ H1 S1)|].
  intros [] w2 (c2 & H2 & S2 & R2 & Q2). exists c2. split; [done|]. split; [done|]. split; [by eapply rel_trans|done].
Qed.

(** ** The other tasks *)

Lemma TSendPacket_rests w0 id a : is_Some (pkts w0 !! a) -> step_at w0 id (run_task E id (TSendPacket a)) any rests.
Proof.
  intros Ha. apply guarded_rests. intros own w c Hat HSt Hw.
  eapply runs_mono; [apply (SendPacket_Internal_ok E cfg cas w0 id own w c a Hat HSt); by apply (at_packets _ _ _ _ _ _ _ _ Hat)|].
  intros [] w1 (c1 & H1 & S1 & R1 & _). eauto 6.
Qed.

Lemma TRestart_rests w0 id h : step_at w0 id (run_task E id (TRestart h)) any rests.
Proof.
  apply guarded_rests. eapply at_weak; [eapply step_done, (same_steady E cfg cas id (fun c => c <| network_handle_ := h |>))|done];
    intros c; by destruct c.
Qed.

Lemma TCheckAvailable_rests w0 id : step_at w0 id (run_task E id TCheckAvailable) any rests.
Proof.
  apply guarded_rests. intros own w c Hat HSt Hw. run_get. destruct (udp_socket_ c); cbn [when]; [|apply runs_ret; by stays c].
  apply (local_addr_ok w0 id false own w c Hat HSt). by apply working_alive.
Qed.

Lemma TClose_rests w0 id : step_at w0 id (run_task E id TClose) any rests.
Proof. apply guarded_rests, set_state_done. Qed.

(** A task that is neither the connect's nor one that changes the connection before it begins. *)
Lemma run_task_rests w0 id t :
  match t with TConnect _ _ _ _ _ _ _ _ | TTunnelClosed => False | TSendPacket a => is_Some (pkts w0 !! a) | _ => True end ->
  step_at w0 id (run_task E id t) rest rests.
Proof.
  intros Ht. destruct t; try done.
  - eapply at_weak; [by apply TSendPacket_rests|done].
  - eapply at_weak; [apply TRestart_rests|done].
  - eapply at_weak; [apply TClose_rests|done].
  - eapply at_weak; [apply CloseStream_rests|done].
  - eapply at_weak; [apply TCheckAvailable_rests|done].
  - eapply at_weak; [apply Restarted_rests|done].
  - eapply at_weak; [apply TUdpClosed_rests|done].
  - eapply at_weak; [apply ConnectToProxy_rests|done].
  - eapply at_weak; [apply MasqueOnTunnelReady_rests|done].
  - eapply at_weak; [apply MasqueOnTunneledPacket_rests|done].
  - eapply at_weak; [apply TSendDatagram_rests|done].
  - apply TNextTick_rests.
Qed.

(** ** The timers *)

Definition disarmed (tid : Z) (k : timer_kind) (c : conn) : conn := c <| delay_tasks ::= <[tid := (k, false)]> |>.

Lemma St_disarmed own c tid k :
  St own c -> delay_tasks c !! tid = Some (k, true) ->
  k <> ConnectTimer \/ connect_rpc_ c = None \/ new_state_ c = CONN_STATE_FREED ->
  St own (disarmed tid k c) /\ rel c (disarmed tid k c).
Proof.
  intros HSt Ht Hk. apply St_timers; try done. destruct (lo_timers _ _ _ _ (lo_body _ _ _ _ (proj1 HSt))) as [T1 T2 T3 T4 T5].
  split; cbn; try done.
  - intros t x. destruct (decide (t = tid)) as [->|Hne]; [intros _; by eapply T1|]. rewrite lookup_insert_ne by done. apply T1.
  - intros t b. destruct (decide (t = tid)) as [->|Hne]; [rewrite lookup_insert_eq; intros [= -> _]; by eapply T4|].
    rewrite lookup_insert_ne by done. apply T4.
  - intros Hs Hn. destruct Hk as [Hk|[Hk|Hk]]; [|rewrite Hk in Hs; by destruct Hs|by rewrite Hk in Hn].
    rewrite lookup_insert_ne; [by apply T5|]. intros ->. rewrite (T5 Hs Hn) in Ht. by injection Ht as <-.
Qed.

(** The connect timer goes with the answer. *)
Lemma answer_disarmed c tid r msg :
  timers_ok c -> delay_tasks c !! tid = Some (ConnectTimer, true) -> is_Some (connect_rpc_ c) ->
  answer None r msg (disarmed tid ConnectTimer c) = answer None r msg c.
Proof.
  intros [T1 T2 T3 T4 T5] Ht [s Hs]. pose proof (T4 tid true Ht) as Ei. pose proof (T1 tid _ Ht) as Hr.
  unfold answer, disarmed. destruct c. cbn in *. subst connect_rpc_. cbn. rewrite !bool_decide_eq_true_2 by done.
  unfold without_timer. cbn. subst connect_timer_id_. rewrite (proj2 (Z.ltb_lt 0 tid)) by lia. unfold update. cbn. f_equal.
  apply delete_insert_eq.
Qed.

Lemma OnConnectTimeout_rests own w0 id w c tid :
  at_ w0 id own w (disarmed tid ConnectTimer c) -> St own c -> delay_tasks c !! tid = Some (ConnectTimer, true) ->
  runs_to (OnConnectTimeout E id) (fun _ w' => exists c', at_ w0 id own w' c' /\ St own c' /\ rel c c' /\ rest c') w.
Proof.
  intros Hat HSt Ht. unfold OnConnectTimeout.
  set (c1 := answer None BC_R_TIMEDOUT None (disarmed tid ConnectTimer c)).
  assert (H1 : St own c1 /\ rel c c1).
  { pose proof HSt as ([Hs Hb] & _). unfold c1. destruct (connect_rpc_ c) as [s|] eqn:Er; [destruct (st_new _ Hs) as [Hn|Hn]|].
    - destruct (St_disarmed own c tid ConnectTimer HSt Ht) as [S1 R1]; [by right; right|].
      split; [by apply St_answer|]. eapply rel_trans; [exact R1|apply rel_answer].
    - rewrite answer_disarmed; [|apply Hb|done|rewrite Er; eauto]. split; [by apply St_answer|apply rel_answer].
    - destruct (St_disarmed own c tid ConnectTimer HSt Ht) as [S1 R1]; [by right; left|].
      split; [by apply St_answer|]. eapply rel_trans; [exact R1|apply rel_answer]. }
  destruct H1 as [S1 R1]. eapply runs_call; [by apply NotifyConnectResult_does|]. intros [] w1 H1. fold c1 in H1. clearbody c1.
  eapply runs_call; [by apply (set_state_done w0 id BC_R_TIMEDOUT any own w1 c1 H1 S1)|]. intros [] w2 (c2 & H2 & S2 & R2 & _).
  eapply runs_mono; [by apply (check_rests w0 id own w2 c2 H2 S2)|]. intros [] w3 (c3 & H3 & S3 & R3 & Q3). exists c3.
  split; [done|]. split; [done|]. split; [|done]. eapply rel_trans; [exact R1|by eapply rel_trans].
Qed.

Lemma fire_rests own w0 id w c tid k :
  at_ w0 id own w c -> St own c -> rest c -> delay_tasks c !! tid = Some (k, true) ->
  runs_to (fire E id tid k) (fun _ w' => exists c', at_ w0 id own w' c' /\ St own c' /\ rel c c' /\ rest c') w.
Proof.
  intros Hat HSt Hr Ht. unfold fire.
  eapply runs_call; [apply (at_put E cfg cas w0 id own w c (disarmed tid k) Hat); [split; auto|done|by apply same_no_new]|].
  intros [] w1 H1. cbv beta in H1. destruct k as [|e]; [by eapply OnConnectTimeout_rests|].
  destruct (St_disarmed own c tid (EngineTimer e) HSt Ht) as [S1 R1]; [by left|]. unfold OnEngineTimer. run_get.
  destruct (conn_ (disarmed tid (EngineTimer e) c)) as [e'|] eqn:He.
  - eapply runs_mono; [apply (drive_rests w0 id e own w1 _ H1 S1); eauto|]. intros [] w2 (c2 & H2 & S2 & R2 & Q2). exists c2.
    split; [done|]. split; [done|]. split; [by eapply rel_trans|done].
  - apply runs_ret. exists (disarmed tid (EngineTimer e) c). done.
Qed.

End Tasks.
