(* ===== verification/SMPReachable.v ===== *)
(** * SMPReachable: every step of the signalling connector keeps the invariant

    From the tasks, timers, callbacks and calls to the steps of [SMPConnection], and from the
    steps to every world that can be reached. *)

From Stdlib Require Import ZArith Lia.
From stdpp Require Import base numbers option gmap list.
From S2P Require Import Prelude Results VpnPolicy Buffer MasqueFraming SMPParser BCFObject TlsContext SMPConfig SMPStream SMPConnection SMPInvariant SMPSteps SMPHandlers SMPTunnels SMPTasks.

Section Reachable.
Context (E : env) (cfg : Connector.config) (cas : list X509).
Abbreviation at_ := (at_ E cfg cas).
Abbreviation glob := (glob E cfg cas).
Abbreviation inv := (inv E cfg cas).
Abbreviation local := (local E cfg cas).
Abbreviation St := (St E cfg cas).

(** What every step but its deletion leaves true of a connection of the user's. *)
Definition grows (c c' : conn) : Prop := kin c c' /\ (stuck c -> stuck c').

Lemma grows_self c : grows c c.
Proof. split; [apply rel_kin, rel_refl|done]. Qed.

Lemma rel_grows c c' : rel c c' -> grows c c'.
Proof. intros H. split; [by apply rel_kin|apply H]. Qed.

Definition keeps (i : input) (w w' : world) : Prop :=
  inv w' /\ forall j c, objs w !! j = Some c -> user_handler c = true -> i <> InDelete j -> exists c', objs w' !! j = Some c' /\ grows c c'.

Lemma keeps_same i w w' : inv w' -> objs w' = objs w -> keeps i w w'.
Proof. intros Hi Ho. split; [done|]. intros j c Hj _ _. exists c. rewrite Ho. split; [done|apply grows_self]. Qed.

Lemma keeps_kept i w w' : inv w' -> kept w w' -> keeps i w w'.
Proof. intros Hi [Hk _]. split; [done|]. intros j c Hj _ _. exists c. split; [by apply Hk|apply grows_self]. Qed.

Lemma keeps_from i w w1 w' : inv w' -> objs w1 = objs w -> kept w1 w' -> keeps i w w'.
Proof.
  intros Hi Ho [Hk _]. split; [done|]. intros j c Hj _ _. exists c. split; [apply Hk; by rewrite Ho|apply grows_self].
Qed.

Lemma keeps_at i w id own w' c c' :
  at_ w id own w' c' -> objs w !! id = Some c -> St own c' -> rest c' -> grows c c' -> keeps i w w'.
Proof.
  intros Hat Hc (Hl & Ho & _) Hr Hg. split; [by eapply glob_leave|]. intros j x Hj Hu _.
  destruct (decide (j = id)) as [->|Hne].
  - rewrite Hc in Hj. injection Hj as <-. exists c'. split; [apply Hat|done].
  - exists x. split; [by apply (at_others _ _ _ _ _ _ _ _ Hat)|apply grows_self].
Qed.

(** A connection at the beginning of a step. *)
Lemma inv_local w id c : inv w -> objs w !! id = Some c -> local c /\ rest c.
Proof.
  intros H Hc. apply (gl_local _ _ _ _ _ _ H id c Hc). pose proof (li_id _ _ _ (gl_link _ _ _ _ _ _ H id c Hc)). lia.
Qed.

Lemma inv_St w id c : inv w -> objs w !! id = Some c -> shut c = false -> St (owned c) c.
Proof. intros H Hc Hs. split; [by apply (inv_local w id)|done]. Qed.

Lemma inv_queue w id c : inv w -> objs w !! id = Some c -> queue_ok w (owned c) (queue w id).
Proof.
  intros H Hc. pose proof (gl_queue _ _ _ _ _ _ H id c Hc) as Q. rewrite decide_False in Q; [done|].
  pose proof (li_id _ _ _ (gl_link _ _ _ _ _ _ H id c Hc)). lia.
Qed.

(** A detached connection uses no socket. *)
Lemma shut_freed w id c : inv w -> objs w !! id = Some c -> shut c = true -> attached c = false /\ udp_socket_ c = false.
Proof.
  intros H Hc Hs. pose proof (li_shut _ _ _ (gl_link _ _ _ _ _ _ H id c Hc) Hs) as Ha. split; [done|].
  destruct (proj1 (inv_local w id c H Hc)) as [Hst _]. rewrite (st_attached _ Hst) in Ha.
  apply negb_false_iff, Z.eqb_eq in Ha. by apply (st_freed _ Hst).
Qed.

Lemma on_conn_ok i id may m w :
  inv w ->
  (forall c, objs w !! id = Some c -> may c = true -> runs_to m (fun _ w' => keeps i w w') w) ->
  runs_to (on_conn id may m) (fun _ w' => keeps i w w') w.
Proof.
  intros H Hm. assert (Hstay : keeps i w w) by by apply keeps_same. unfold on_conn, runs_to.
  destruct (objs w !! id) as [c|] eqn:Hc; [|exact Hstay]. destruct (may c) eqn:Hy; [|exact Hstay]. by apply (Hm c).
Qed.

(** ** A task of a queue *)

Lemma pop_St own own' c : St own c -> St (own' ++ own) c.
Proof. intros (H1 & H2 & H3). split; [done|]. split; [|done]. intros s Hs. apply elem_of_app. right. by apply H2. Qed.

Lemma run_connect i w id c stub scheme host port path query props ms q :
  inv w -> objs w !! id = Some c -> shut c = false -> queue w id = TConnect stub scheme host port path query props ms :: q ->
  runs_to (puts (fun w => w <| queues ::= <[id := q]> |>);; run_task E id (TConnect stub scheme host port path query props ms))
    (fun _ w' => keeps i w w' /\ (new_state_ c = CONN_STATE_FREED \/ exists c', objs w' !! id = Some c' /\ stub ∈ owned c')) w.
Proof.
  intros H Hc Hs Hq. apply runs_bind, runs_puts.
  pose proof (at_pop _ _ _ w id (owned c) w c _ q (glob_enter _ _ _ w id c H Hc) Hq ltac:(done) ltac:(done)) as H1.
  pose proof (pop_St _ [stub] c (inv_St w id c H Hc Hs)) as S1.
  assert (Hst : has_stub stub ([stub] ++ owned c) c).
  { split; [by left|]. pose proof (qu_new _ _ _ (inv_queue w id c H Hc)) as Hn. rewrite Hq in Hn. apply (Hn stub). by left. }
  eapply runs_mono; [apply (SMPConnect_ok E cfg cas ([stub] ++ owned c) stub w id _ c _ H1 S1 Hst)|].
  intros [] w2 (c2 & H2 & S2 & K2 & Q2 & T2 & I2). split; [eapply keeps_at; [exact H2|done|done|done|by split]|].
  destruct I2 as [?|I2]; [by left|right]. exists c2. split; [apply H2|done].
Qed.

Lemma run_close i w id c q :
  inv w -> objs w !! id = Some c -> shut c = false -> queue w id = TClose :: q ->
  runs_to (puts (fun w => w <| queues ::= <[id := q]> |>);; run_task E id TClose) (fun _ w' => keeps i w w') w.
Proof.
  intros H Hc Hs Hq. pose proof (inv_St w id c H Hc Hs) as S0. pose proof (glob_enter _ _ _ w id c H Hc) as H0.
  apply runs_bind, runs_puts. destruct (st_new _ (lo_states _ _ _ _ (proj1 S0))) as [Hn|Hn].
  - pose proof (at_pop _ _ _ w id (owned c) w c _ q H0 Hq ltac:(done) ltac:(done)) as H1.
    eapply runs_mono; [by apply (TClose_rests E cfg cas w id (owned c) _ c H1 S0)|].
    intros [] w2 (c2 & H2 & S2 & R2 & Q2). eapply keeps_at; [exact H2|done|done|done|by apply rel_grows].
  - cbn [run_task]. unfold guarded, CloseCheck. apply runs_bind, runs_bind. eapply runs_get; [exact Hc|].
    assert (Hi : CONN_STATE_INIT <= state_ c <= CONN_STATE_CONNECTED).
    { pose proof (st_range _ (lo_states _ _ _ _ (proj1 S0))) as Hr. split; [|exact (proj2 Hr)].
      destruct (Z.le_gt_cases CONN_STATE_INIT (state_ c)) as [|Hlt]; [done|]. rewrite (st_below _ (lo_states _ _ _ _ (proj1 S0))) in Hn by lia. done. }
    rewrite Hn. unfold CONN_STATE_INIT, CONN_STATE_CONNECTED in Hi. unfold CONN_STATE_MAX, CONN_STATE_FREED.
    rewrite (proj2 (Z.leb_le (state_ c) 9)) by lia. rewrite (proj2 (Z.ltb_lt 0 (state_ c))) by lia. cbn [andb]. apply runs_ret.
    pose proof (set_state_does E cfg cas id CONN_STATE_FREED BC_R_SUCCESS eq_refl w (owned c) w c H0) as Hset.
    apply runs_bind. unfold set_state, put, puts, runs_to in Hset |- *. cbv beta iota in Hset |- *.
    set (c1 := c <| new_state_ := CONN_STATE_FREED |> <| close_status_ := BC_R_SUCCESS |>) in *.
    destruct (St_closing E cfg cas (owned c) c BC_R_SUCCESS S0) as [S1 R1]. fold c1 in S1, R1.
    pose proof (at_pop _ _ _ w id (owned c) _ c1 TClose q Hset Hq ltac:(done) ltac:(done)) as H1.
    eapply runs_mono; [by apply (check_rests E cfg cas w id (owned c) _ c1 H1 S1)|].
    intros [] w2 (c2 & H2 & S2 & R2 & Q2). eapply keeps_at; [exact H2|done|done|done|]. apply rel_grows. by eapply rel_trans.
Qed.

Lemma run_tunnel_closed i w id c q :
  inv w -> objs w !! id = Some c -> shut c = false -> queue w id = TTunnelClosed :: q ->
  runs_to (puts (fun w => w <| queues ::= <[id := q]> |>);; run_task E id TTunnelClosed) (fun _ w' => keeps i w w') w.
Proof.
  intros H Hc Hs Hq. pose proof (inv_St w id c H Hc Hs) as S0. destruct (masque_tunnel_ (mq c)) as [t|] eqn:Ht.
  - eapply runs_mono; [by eapply (tunnel_deleted E cfg cas id w c t q)|].
    intros [] w2 (c2 & H2 & S2 & R2 & Q2). eapply keeps_at; [exact H2|done|done|done|by apply rel_grows].
  - apply runs_bind, runs_puts.
    pose proof (at_pop _ _ _ w id (owned c) w c _ q (glob_enter _ _ _ w id c H Hc) Hq ltac:(done) ltac:(done)) as H1.
    eapply runs_mono; [by apply (MasqueOnTunnelClosed_rests E cfg cas w id (owned c) _ c H1 S0)|].
    intros [] w2 (c2 & H2 & S2 & R2 & Q2). eapply keeps_at; [exact H2|done|done|done|by apply rel_grows].
Qed.

Lemma step_run w id : inv w -> runs_to (step E (InRun id)) (fun _ w' => keeps (InRun id) w w') w.
Proof.
  intros H. cbn [step]. apply on_conn_ok; [done|]. intros c Hc Hs%negb_true_iff. apply runs_bind, runs_gets.
  destruct (queue w id) as [|t q] eqn:Hq; [apply runs_ret; by apply keeps_same|].
  pose proof (inv_St w id c H Hc Hs) as S0. pose proof (proj2 (inv_local w id c H Hc)) as Hr.
  assert (Hother : match t with TConnect _ _ _ _ _ _ _ _ | TTunnelClosed | TClose => False | TSendPacket a => is_Some (pkts w !! a) | _ => True end ->
    runs_to (puts (fun w => w <| queues ::= <[id := q]> |>);; run_task E id t) (fun _ w' => keeps (InRun id) w w') w).
  { intros Ht. apply runs_bind, runs_puts.
    assert (H1 : at_ w id (owned c) (w <| queues ::= <[id := q]> |>) c).
    { pose proof (at_pop _ _ _ w id (owned c) w c _ q (glob_enter _ _ _ w id c H Hc) Hq) as H1.
      destruct t; try done; by apply H1. }
    eapply runs_mono; [apply (run_task_rests E cfg cas w id t); [by destruct t|exact H1|exact S0|exact Hr]|].
    intros [] w2 (c2 & H2 & S2 & R2 & Q2). eapply keeps_at; [exact H2|done|done|done|by apply rel_grows]. }
  destruct t; try (by apply Hother).
  - eapply runs_mono; [by eapply (run_connect (InRun id))|]. by intros [] w' [? _].
  - apply Hother. apply (qu_pkt _ _ _ (inv_queue w id c H Hc)). rewrite Hq. by left.
  - by eapply run_close.
  - by eapply run_tunnel_closed.
Qed.

(** ** The timers and the socket *)

Lemma on_at i w id c (m : M unit) :
  inv w -> objs w !! id = Some c -> shut c = false ->
  (forall own, at_ w id own w c -> St own c -> rest c ->
     runs_to m (fun _ w' => exists c', at_ w id own w' c' /\ St own c' /\ rel c c' /\ rest c') w) ->
  runs_to m (fun _ w' => keeps i w w') w.
Proof.
  intros H Hc Hs Hm.
  eapply runs_mono; [apply (Hm (owned c)); [by apply glob_enter|by apply (inv_St w id)|by apply (inv_local w id)]|].
  intros [] w2 (c2 & H2 & S2 & R2 & Q2). eapply keeps_at; [exact H2|done|done|done|by apply rel_grows].
Qed.

Lemma udp_not_shut w id c b1 b2 : inv w -> objs w !! id = Some c -> udp_socket_ c && b1 && b2 = true -> shut c = false.
Proof.
  intros H Hc Hb. destruct (shut c) eqn:Hs; [|done]. destruct (shut_freed w id c H Hc Hs) as [_ Hu]. by rewrite Hu in Hb.
Qed.

Lemma post_keeps i w id c t : inv w -> objs w !! id = Some c -> benign w t ->
  runs_to (PostTask id t) (fun _ w' => keeps i w w') w /\ runs_to (post_working id t) (fun _ w' => keeps i w w') w.
Proof.
  intros H Hc Ht. split.
  - eapply runs_mono; [by eapply runs_post|]. intros [] w' (_ & Hg & Hk). by apply keeps_kept.
  - eapply runs_mono; [by eapply runs_post_working|]. intros [] w' (_ & Hg & Hk). by apply keeps_kept.
Qed.

Lemma step_timer w id tid : inv w -> runs_to (step E (InTimer id tid)) (fun _ w' => keeps (InTimer id tid) w w') w.
Proof.
  intros H. cbn [step]. apply on_conn_ok; [done|]. intros c Hc Ha.
  assert (Hs : shut c = false).
  { destruct (shut c) eqn:Hs; [|done]. destruct (shut_freed w id c H Hc Hs). congruence. }
  apply runs_bind. eapply runs_get; [exact Hc|].
  destruct (delay_tasks c !! tid) as [[k [|]]|] eqn:Ht; [|apply runs_ret; by apply keeps_same..].
  eapply on_at; [done|exact Hc|done|]. intros own Hat HSt Hr. by apply fire_rests.
Qed.

Lemma step_udp_data w id blocks : inv w -> runs_to (step E (InUdpData id blocks)) (fun _ w' => keeps (InUdpData id blocks) w w') w.
Proof.
  intros H. cbn [step]. apply on_conn_ok; [done|]. intros c Hc Hb.
  eapply on_at; [done|exact Hc|by eapply udp_not_shut|]. intros own Hat HSt Hr. by apply (OnUdpData_rests E cfg cas w id blocks own w c).
Qed.

Lemma step_udp_closed w id : inv w -> runs_to (step E (InUdpClosed id)) (fun _ w' => keeps (InUdpClosed id) w w') w.
Proof.
  intros H. cbn [step]. apply on_conn_ok; [done|]. intros c Hc Hb.
  eapply on_at; [done|exact Hc|apply (udp_not_shut w id c true (negb (udp_told c))); [done|done|by rewrite andb_true_r]|].
  intros own Hat HSt Hr. run_set w1 H1.
  assert (Ee : erase (c <| udp_told := true |>) = erase c) by done. destruct (St_same E cfg cas own _ _ Ee HSt) as [S1 R1].
  eapply runs_mono; [by apply (own_queue E cfg cas w id own w1 _ TUdpClosed H1)|]. intros [] w2 H2. exists (c <| udp_told := true |>). split; [exact H2|]. split; [exact S1|]. split; [exact R1|exact Hr].
Qed.

Lemma step_simple_post w id i t (P : conn -> bool) (working : bool) :
  benign (new_world cfg cas) t -> inv w ->
  runs_to (on_conn id P (if working then post_working id t else PostTask id t)) (fun _ w' => keeps i w w') w.
Proof.
  intros Ht H. apply on_conn_ok; [done|]. intros c Hc _.
  assert (Hb : benign w t) by (destruct t; try done; by destruct Ht).
  destruct (post_keeps i w id c t H Hc Hb), working; done.
Qed.

(** ** The end of a queue *)

Lemma grows_ended c msg st : shut c = false -> grows c (ended (OnClosed msg st) c).
Proof.
  intros Hs. split; [split; try done|done]; [by exists [OnClosed msg st]|]. intros s Hsin. unfold ended. by rewrite (owned_quiet' (c <| shut := true |>)).
Qed.

Lemma end_user w id c :
  inv w -> objs w !! id = Some c -> attached c = false -> shut c = false -> masque_role_ (mq c) <> MASQUE_TUNNEL ->
  runs_to (OnEventProcShutdown E id) (fun _ w' => keeps (InShutdown id) w w') w.
Proof.
  intros H Hc Ha Hs Hr. pose proof (gl_link _ _ _ _ _ _ H id c Hc) as L.
  assert (Hu : user_handler c = true) by by apply (li_user _ _ _ L).
  unfold OnEventProcShutdown. apply runs_bind, runs_puts. apply runs_bind.
  eapply (runs_get _ _ _ _ (c <| shut := true |>)); [cbn; by rewrite lookup_alter_eq, Hc|]. cbn [mq].
  set (msg := match conn_close_msg_ _ with Some (b :: m) => _ | _ => _ end). set (st := close_status_ _).
  assert (Hgo : runs_to (NotifyConnClosed id;; notify E id (OnClosed msg st)) (fun _ w' => keeps (InShutdown id) w w')
    (w <| objs ::= alter (fun c => c <| shut := true |>) id |>)).
  { unfold NotifyConnClosed. apply runs_bind, runs_bind, runs_puts, runs_puts. unfold notify. apply runs_bind, runs_puts.
    pose proof (glob_end E cfg cas w id c msg st H Hc Hu Ha Hs) as HG.
    match type of HG with SMPInvariant.glob _ _ _ _ _ ?wb => match goal with |- runs_to _ _ ?wa => assert (Ew : wa = wb) end end.
    { destruct w. unfold update. cbn in *. f_equal. rewrite (alter_set objs id c) by done.
      rewrite (alter_set _ id (c <| shut := true |>)) by by rewrite lookup_insert_eq. by rewrite insert_insert_eq. }
    rewrite Ew. clear Ew. apply runs_bind. eapply (runs_get _ _ _ _ (ended (OnClosed msg st) c)); [cbn; by rewrite lookup_insert_eq|].
    change (user_handler (ended (OnClosed msg st) c)) with (user_handler c). rewrite Hu. cbn [when].
    eapply (runs_call _ _ (fun _ w1 => inv w1 /\ kept _ w1)); [unfold runs_to, ask; split; [exact (glob_tick E cfg cas _ _ _ _ HG)|by apply kept_same]|]. intros l w1 [H1 K1].
    eapply runs_mono; [by apply (user_calls_ok E cfg cas l 0 [] w1)|]. intros [] w2 [H2 K2]. split; [done|].
    intros j x Hj Hxu _. destruct (decide (j = id)) as [->|Hne].
    - exists (ended (OnClosed msg st) c). rewrite Hc in Hj. injection Hj as <-. split; [|by apply grows_ended].
      apply (ke_objs _ _ K2), (ke_objs _ _ K1). cbn. by rewrite lookup_insert_eq.
    - exists x. split; [|apply grows_self]. apply (ke_objs _ _ K2), (ke_objs _ _ K1). cbn. by rewrite lookup_insert_ne. }
  change (masque_role_ (mq (c <| shut := true |>))) with (masque_role_ (mq c)). destruct (masque_role_ (mq c)); done.
Qed.

Lemma end_tunnel w id c :
  inv w -> objs w !! id = Some c -> attached c = false -> shut c = false -> masque_role_ (mq c) = MASQUE_TUNNEL ->
  runs_to (OnEventProcShutdown E id) (fun _ w' => keeps (InShutdown id) w w') w.
Proof.
  intros H Hc Ha Hs Hr. pose proof (gl_link _ _ _ _ _ _ H id c Hc) as L.
  assert (Hu : user_handler c = false).
  { destruct (user_handler c) eqn:Hu; [|done]. apply (li_user _ _ _ L) in Hu. congruence. }
  destruct (li_inner _ _ _ L Hr Hs) as (i & ci & Hi & Hci & _).
  destruct (glob_end_tunnel E cfg cas w id c i H Hc Hr Ha Hs Hi) as (_ & Hne & HG).
  unfold OnEventProcShutdown. apply runs_bind, runs_puts. apply runs_bind.
  eapply (runs_get _ _ _ _ (c <| shut := true |>)); [cbn; by rewrite lookup_alter_eq, Hc|].
  change (masque_role_ (mq (c <| shut := true |>))) with (masque_role_ (mq c)). rewrite Hr. apply runs_bind, runs_puts.
  change (masque_inner_ (mq (c <| shut := true |>))) with (masque_inner_ (mq c)). rewrite Hi.
  unfold PostTask. apply runs_bind. eapply (runs_get _ _ _ _ ci); [cbn; by rewrite !lookup_alter_ne|]. apply runs_puts.
  match type of HG with SMPInvariant.glob _ _ _ _ _ ?wb => match goal with |- keeps _ _ ?wa => assert (Ew : wa = wb) end end.
  { destruct w. unfold update. cbn in *. f_equal. rewrite (alter_set objs id c) by done.
    rewrite (alter_set _ id (c <| shut := true |>)) by by rewrite lookup_insert_eq. by rewrite insert_insert_eq. }
  rewrite Ew. split; [done|]. intros j x Hj Hxu _. exists x. split; [|apply grows_self]. cbn. rewrite lookup_insert_ne; [done|].
  intros <-. rewrite Hc in Hj. injection Hj as <-. congruence.
Qed.

Lemma step_shutdown w id : inv w -> runs_to (step E (InShutdown id)) (fun _ w' => keeps (InShutdown id) w w') w.
Proof.
  intros H. cbn [step]. apply on_conn_ok; [done|]. intros c Hc [Ha%negb_true_iff Hs%negb_true_iff]%andb_prop.
  apply runs_bind, runs_gets. destruct (queue w id); [|apply runs_ret; by apply keeps_same].
  destruct (decide (masque_role_ (mq c) = MASQUE_TUNNEL)); [by eapply end_tunnel|by eapply end_user].
Qed.

(** ** The connector's tasks *)

Lemma inv_rt_closed w l :
  rt w = RtClosed :: l -> inv w -> inv (w <| rt := l |> <| K ::= fun k => k <| told_closed ::= Z.succ |> |>).
Proof.
  intros Hl [[] H2 H3 H4 H5]. split; [split; try done| | |done..].
  - cbn. rewrite Hl in *. change (count_closed (RtClosed :: l)) with (count_closed ([RtClosed] ++ l)) in *. rewrite count_closed_app in *.
    change (count_closed [RtClosed]) with 1 in *. cbn in *. lia.
  - intros j c Hj. by destruct (H2 j c Hj).
  - intros j c Hj. by destruct (H3 j c Hj).
Qed.

Lemma step_runtime w : inv w -> runs_to (step E InRuntime) (fun _ w' => keeps InRuntime w w') w.
Proof.
  intros H. cbn [step]. apply runs_bind, runs_gets. destruct (rt w) as [|t l] eqn:Hl; [apply runs_ret; by apply keeps_same|].
  apply runs_bind, runs_puts.
  assert (Hpop : t <> RtClosed -> inv (w <| rt := l |>)).
  { intros Ht. apply glob_rt; [|done]. rewrite Hl. change (t :: l) with ([t] ++ l). rewrite count_closed_app. by destruct t. }
  destruct t; cbn [run_rt].
  - eapply runs_call; [by apply (ConnectorCloseCheck_ok E cfg cas 0 []), Hpop|]. intros b w1 (H1 & K1 & _). apply runs_ret.
    by eapply keeps_from; [done| |exact K1].
  - specialize (Hpop ltac:(done)). eapply runs_call; [by apply (ConnectorCloseCheck_ok E cfg cas 0 [])|].
    intros [|] w1 (H1 & K1 & Hb); [apply runs_ret; by eapply keeps_from; [done| |exact K1]|]. destruct (Hb eq_refl) as [-> Hw].
    apply runs_bind, runs_puts. cbn in Hw.
    assert (H2 : inv (w <| rt := l |> <| K ::= fun k => k <| k_new_state := CONNTOR_STATE_FREED |> |>)).
    { apply (glob_K E cfg cas 0 []); try done.
      - cbn. rewrite Hw. unfold CONNTOR_STATE_WORKING. lia.
      - destruct (gl_connector _ _ _ _ _ _ Hpop). split; try done. by left. }
    eapply runs_call; [by apply (ConnectorCloseCheck_ok E cfg cas 0 [])|]. intros b w2 (H3 & K3 & _). apply runs_ret.
    by eapply keeps_from; [done| |exact K3].
  - apply runs_puts. apply keeps_same; [by apply inv_rt_closed|done].
Qed.

Lemma restarts_ok l n w : inv w -> (forall i, i ∈ l -> is_Some (objs w !! i)) ->
  runs_to (each (fun id => post_working id (TRestart n)) l) (fun _ w' => inv w' /\ kept w w') w.
Proof.
  revert w. induction l as [|i l IH]; intros w H Hl; cbn [each]; [apply runs_ret; split; [done|by apply kept_same]|].
  destruct (Hl i) as [c Hc]; [by left|]. eapply runs_call; [by eapply (runs_post_working E cfg cas 0 [])|]. intros [] w1 (_ & H1 & K1).
  eapply runs_mono; [apply IH; [done|]|].
  - intros j Hj. destruct (Hl j) as [x Hx]; [by right|]. exists x. by apply (ke_objs _ _ K1).
  - intros [] w2 [H2 K2]. split; [done|]. split; [intros j x Hj; by apply (ke_objs _ _ K2), (ke_objs _ _ K1)|intros a Ha; by apply (ke_pkts _ _ K2), (ke_pkts _ _ K1)].
Qed.

(** A member of the connector that is only remembered. *)
Lemma inv_put_K w f :
  (forall k, let k' := f k in k_state k' = k_state k /\ k_new_state k' = k_new_state k /\ conns_map_ k' = conns_map_ k /\
     next_conn_id_ k' = next_conn_id_ k /\ total_allocated_ k' = total_allocated_ k /\ total_freed_ k' = total_freed_ k /\
     k_config k' = k_config k /\ k_root_cas k' = k_root_cas k /\ engine_destroyed k' = engine_destroyed k /\
     told_closed k' = told_closed k) -> inv w -> inv (w <| K ::= f |>).
Proof.
  intros Hf H. destruct (Hf (K w)) as (E1 & E2 & E3 & E4 & E5 & E6 & E7 & E8 & E9 & E10). apply (glob_K E cfg cas 0 []); try done.
  - rewrite E1, E3. intros Hs i x Hi Hx. by apply (li_closing _ _ _ (gl_link _ _ _ _ _ _ H i x Hx)).
  - destruct (gl_connector _ _ _ _ _ _ H). split; cbn; rewrite ?E1, ?E2, ?E3, ?E4, ?E5, ?E6, ?E7, ?E8, ?E9, ?E10; done.
Qed.

Lemma step_path w n : inv w -> runs_to (step E (InPathChange n)) (fun _ w' => keeps (InPathChange n) w w') w.
Proof.
  intros H. cbn [step]. unfold OnPathChange. destruct (n <=? 0); [apply runs_ret; by apply keeps_same|].
  apply runs_bind, runs_gets, runs_bind, runs_puts. set (w1 := w <| K ::= _ |>). assert (H1 : inv w1) by by apply inv_put_K.
  destruct (negb (first_path_callback_seen_ (K w))); [apply runs_ret; by apply keeps_same|].
  apply runs_bind. unfold runs_to at 1, ask. cbv beta iota. set (w2 := w1 <| tick ::= S |>).
  assert (H2 : inv w2) by exact (glob_tick E cfg cas _ _ _ _ H1).
  destruct (_ && _); [apply runs_ret; by apply keeps_same|]. apply runs_bind, runs_puts. set (w3 := w2 <| K ::= _ |>).
  assert (H3 : inv w3) by by apply inv_put_K.
  eapply runs_mono; [apply restarts_ok; [exact H3|]|].
  - intros i Hi%elem_of_elements. destruct (ko_conns _ _ _ (gl_connector _ _ _ _ _ _ H) i Hi) as (c & Hc & _). change (is_Some (objs w !! i)). eauto.
  - intros [] w4 [H4 K4]. split; [done|]. intros j c Hj _ _. exists c. split; [by apply (ke_objs _ _ K4)|apply grows_self].
Qed.

(** ** Every step *)

Lemma step_delete w id : inv w -> runs_to (step E (InDelete id)) (fun _ w' => keeps (InDelete id) w w') w.
Proof.
  intros H. cbn [step]. apply on_conn_ok; [done|]. intros c Hc [Hu Hs]%andb_prop. unfold delete_conn. apply runs_puts.
  split; [by eapply glob_delete|]. intros j x Hj _ Hne. exists x. split; [|apply grows_self]. cbn. rewrite lookup_delete_ne; [done|].
  intros ->. done.
Qed.

Lemma step_drop w id : inv w -> runs_to (step E (InDrop id)) (fun _ w' => keeps (InDrop id) w w') w.
Proof.
  intros H. cbn [step]. apply on_conn_ok; [done|]. intros c Hc Ha%negb_true_iff. apply runs_puts.
  apply keeps_same; [by eapply glob_lost|done].
Qed.

Lemma step_keeps w i : inv w -> runs_to (step E i) (fun _ w' => keeps i w w') w.
Proof.
  intros H. destruct i as [a|id|id|id|id tid|id blocks|id|id r|id| |n|id].
  - eapply runs_mono; [by apply (api_call_ok E cfg cas a 0 [] w)|]. intros [] w' [H1 K1]. by apply keeps_kept.
  - by apply step_run.
  - by apply step_drop.
  - by apply step_shutdown.
  - by apply step_timer.
  - by apply step_udp_data.
  - by apply step_udp_closed.
  - by apply (step_simple_post w id (InUdpRestart id r) (TOnRestart r) _ false).
  - by apply (step_simple_post w id (InCheckAvailable id) TCheckAvailable _ true).
  - by apply step_runtime.
  - by apply step_path.
  - by apply step_delete.
Qed.

Lemma inv_new : inv (new_world cfg cas).
Proof.
  assert (Hn : forall i c, objs (new_world cfg cas) !! i <> Some c) by (intros i c Hc; cbn in Hc; by rewrite lookup_empty in Hc).
  split; [|intros i c Hc; by destruct (Hn i c)..|done].
  split; cbn; try done; try lia. all: try (intros a [x Hx]; by rewrite lookup_empty in Hx).
Qed.

Lemma reachable_inv w : reachable E cfg cas w -> inv w.
Proof.
  induction 1 as [|w i w' _ IH Hstep]; [apply inv_new|]. pose proof (step_keeps w i IH) as H. unfold runs_to in H.
  rewrite Hstep in H. apply H.
Qed.

End Reachable.
