(* ===== verification/SMPProperties.v ===== *)
(** * SMPProperties: what the signalling connector promises

    What follows from the invariant of [SMPInvariant] for every world that can be reached, in
    the terms of the handler, the peer and the network. *)

From Stdlib Require Import ZArith Lia.
From stdpp Require Import base numbers option gmap list.
From S2P Require Import Prelude Results VpnPolicy Buffer StreamParser MasqueFraming SMPParser BCFObject TlsContext SMPConfig SMPStream SMPConnection SMPInvariant SMPSteps SMPHandlers SMPTunnels SMPTasks SMPReachable.

Section Properties.
Context (E : env) (cfg : Connector.config) (cas : list X509).
Abbreviation reachable := (reachable E cfg cas).

(** A run of steps, told by each of its connections. *)
Lemma run_grows ins : forall w w' id c,
  reachable w -> run E ins w = inl (tt, w') -> InDelete id ∉ ins ->
  objs w !! id = Some c -> user_handler c = true -> exists c', objs w' !! id = Some c' /\ grows c c'.
Proof.
  induction ins as [|i ins IH]; intros w w' id c Hr Hrun Hn Hc Hu; cbn [run] in Hrun.
  { injection Hrun as <-. exists c. split; [done|apply grows_self]. }
  unfold bind in Hrun. destruct (step E i w) as [[[] w1]|] eqn:Hs; [|done].
  rewrite elem_of_cons in Hn. pose proof (step_keeps E cfg cas w i (reachable_inv E cfg cas w Hr)) as Hk. unfold runs_to in Hk. rewrite Hs in Hk.
  destruct Hk as [_ Hk]. destruct (Hk id c Hc Hu) as (c1 & Hc1 & K1 & T1); [by intros ->; apply Hn; left|].
  destruct (IH w1 w' id c1) as (c2 & Hc2 & K2 & T2); [by eapply reach_step|done|tauto|done|by rewrite (ki_user _ _ K1)|].
  exists c2. split; [done|]. split; [by eapply kin_trans|auto].
Qed.

(** C9: the faults of the signalling connector. From any world that can be reached, whatever
    the user, the peer, the network and the engine do next, a step does not use a connection
    or a tunnel that was deleted, by whatever pointer the MASQUE pair holds, nor a packet that
    is not there; what it may do is end in one of four faults: bytes from a socket when the
    engine has no connection, a stream of the engine that is null, a WebTransport stream whose
    first read is the first two bytes of its mask, and a command that is not a JSON object. *)
Theorem connection_faults w i :
  reachable w ->
  match step E i w with
  | inl _ => True
  | inr x => x = NoEngineConnection \/ x = NullStream \/ x = MaskUnderflow \/ x = JsonNotObject
  end.
Proof.
  intros Hr. pose proof (step_keeps E cfg cas w i (reachable_inv E cfg cas w Hr)) as Hk. unfold runs_to in Hk.
  destruct (step E i w) as [?|x]; [done|]. destruct x; cbn in Hk; tauto.
Qed.

(** What is left of a connection whose end was told. *)
Lemma told_ended w id c :
  reachable w -> objs w !! id = Some c -> shut c = true ->
  connect_rpc_ c = None /\ conn_ c = None /\ udp_socket_ c = false /\ masque_tunnel_ (mq c) = None.
Proof.
  intros Hr Hc Hsh. pose proof (reachable_inv E cfg cas w Hr) as H. destruct (inv_local E cfg cas w id c H Hc) as [[Hs Hb] _].
  destruct (shut_freed E cfg cas w id c H Hc Hsh) as [Ha Hud]. pose proof Ha as Ha'.
  rewrite (st_attached _ Hs) in Ha'. apply negb_false_iff, Z.eqb_eq in Ha'.
  split; [by apply (st_freed _ Hs)|]. split; [apply (st_sock _ Hs); by rewrite Ha'|]. split; [done|].
  by apply (li_gone _ _ _ (gl_link _ _ _ _ _ _ H id c Hc)).
Qed.

(** C3: what a connection's handler is told. Its end is told once, as the last thing, when the
    connection's queue has ended; each connect is answered at most once; and when the end was
    told no connect waits for its answer, no connection of the engine's and no socket or
    tunnel is left. *)
Theorem connection_told w id c :
  reachable w -> objs w !! id = Some c -> user_handler c = true ->
  (if shut c then exists l msg st, log_ c = l ++ [OnClosed msg st] /\ Forall (fun e => is_closed_event e = false) l
   else Forall (fun e => is_closed_event e = false) (log_ c)) /\
  NoDup (answered (log_ c)) /\
  (shut c = true -> connect_rpc_ c = None /\ conn_ c = None /\ udp_socket_ c = false /\ masque_tunnel_ (mq c) = None).
Proof.
  intros Hr Hc Hu. destruct (inv_local E cfg cas w id c (reachable_inv E cfg cas w Hr) Hc) as [[_ Hb] _].
  split; [|split; [|by eapply told_ended]].
  - pose proof (lo_end _ _ _ _ Hb) as He. rewrite Hu, andb_true_r in He. exact He.
  - pose proof (lo_stubs _ _ _ _ Hb) as Hn. unfold owned in Hn. by apply NoDup_app in Hn as (? & _).
Qed.

(** C10: connects are answered. The connect that a connection takes from its queue, before it
    was told to close, is answered or waits for its answer after any run that does not delete
    the connection, and the log before is the beginning of the log after; once the connection's
    end was told it has been answered. *)
Theorem connect_answered w ins w' id c stub scheme host port path query props timeout_ms q :
  reachable w -> objs w !! id = Some c -> user_handler c = true -> shut c = false -> new_state_ c = CONN_STATE_MAX ->
  queue w id = TConnect stub scheme host port path query props timeout_ms :: q ->
  run E (InRun id :: ins) w = inl (tt, w') -> InDelete id ∉ ins ->
  exists c', objs w' !! id = Some c' /\ (exists l, log_ c' = log_ c ++ l) /\
    (connect_rpc_ c' = Some stub \/ stub ∈ answered (log_ c')) /\ (shut c' = true -> stub ∈ answered (log_ c')).
Proof.
  intros Hr Hc Hu Hs Hmax Hq Hrun Hn. cbn [run] in Hrun. unfold bind in Hrun.
  destruct (step E (InRun id) w) as [[[] w1]|] eqn:Hst; [|done].
  assert (H1 : keeps E cfg cas (InRun id) w w1 /\ exists c1, objs w1 !! id = Some c1 /\ stub ∈ owned c1).
  { pose proof (run_connect E cfg cas (InRun id) w id c stub scheme host port path query props timeout_ms q (reachable_inv E cfg cas w Hr) Hc Hs Hq) as H1.
    unfold runs_to in H1. cbn [step] in Hst. unfold on_conn in Hst. rewrite Hc, Hs in Hst. cbn [negb] in Hst.
    unfold bind at 1, gets in Hst. rewrite Hq in Hst. rewrite Hst in H1. destruct H1 as [H1 [Hx|?]]; [by rewrite Hmax in Hx|done]. }
  destruct H1 as ([_ Hk] & c1 & Hc1 & Ho1). destruct (Hk id c Hc Hu ltac:(done)) as (c1' & Hc1' & [K1 _]). rewrite Hc1 in Hc1'. injection Hc1' as <-.
  assert (Hr1 : reachable w1) by by eapply reach_step.
  destruct (run_grows ins w1 w' id c1 Hr1 Hrun Hn Hc1) as (c' & Hc' & K2 & _); [by rewrite (ki_user _ _ K1)|].
  exists c'. split; [done|]. split; [apply (kin_trans _ _ _ K1 K2)|].
  assert (Hr' : reachable w') by by eapply inputs_reachable.
  assert (Ho : stub ∈ owned c') by by apply (ki_owned _ _ K2).
  apply elem_of_app in Ho as [Ho|Ho]; [by auto|]. destruct (connect_rpc_ c') as [s|] eqn:Es; [|by apply elem_of_nil in Ho].
  apply list_elem_of_singleton in Ho as ->. split; [by left|]. intros Hsh.
  destruct (told_ended w' id c' Hr' Hc' Hsh) as [Hx _]. congruence.
Qed.

(** C4: nothing is told of a server, and nothing is sent on a stream, before its chain was
    accepted: where the configuration asks to verify the peer, whatever the handler is told
    that comes from it (a connect that succeeded with the server's answer, the handshake,
    streams, packets and data sent) and whatever is sent to it on a stream comes after the
    engine was given, for a chain and the host asked for, the answer that it is accepted; and
    that answer was the one of the check of the chain against the pin or the trusted
    certificates. *)
Theorem told_after_verification w id c l1 e l2 :
  reachable w -> objs w !! id = Some c -> asks_to_verify (config_ c) (root_cas_ c) cas = true ->
  log_ c = l1 ++ e :: l2 -> delivers e = true ->
  exists certs host, EvCertVerify certs host true ∈ l1 /\
    (on_conn_cert_verify (O E) (config_ c) host (root_cas_ c) cfg cas certs).1 = true.
Proof.
  intros Hr Hc Hv Hl Hd. destruct (inv_local E cfg cas w id c (reachable_inv E cfg cas w Hr) Hc) as [[_ Hb] _].
  destruct (lo_proof _ _ _ _ Hb Hv l1 e l2 Hl Hd) as (certs & host & Hin). exists certs, host. split; [done|].
  pose proof (lo_honest _ _ _ _ Hb) as Hh. rewrite Forall_forall in Hh. symmetry. apply (Hh (EvCertVerify certs host true)).
  rewrite Hl. apply elem_of_app. by left.
Qed.

(** C11: what the handler hears of a stream. While a stream is open, the commands and messages
    told between the reads of it are, in order, those of the packets in the bytes the engine
    gave since it was opened, however they were cut, past the mask of a WebTransport stream:
    only packets of other types and answers to a connect are left out. *)
Theorem stream_packets_told w id c e sid s :
  reachable w -> objs w !! id = Some c -> raw_streams c !! (e, sid) = Some s -> stream_ s = true ->
  let h := heard e sid (log_ c) in
  exists evs st, runs (WaitHeader (u32 sid)) (to_parse (alpn_h3 (alpn (config_ c))) (concat (map chunks_read (hs_reads h)))) evs (inl (st, remaining (parser_ s))) /\
    hears E evs (hs_heard h).
Proof.
  intros Hr Hc Hs Ho. cbv zeta. destruct (inv_local E cfg cas w id c (reachable_inv E cfg cas w Hr) Hc) as [[_ Hb] _].
  destruct (lo_streams _ _ _ _ Hb (e, sid) s Hs) as (_ & Hw & Hok). destruct (Hok Ho) as (_ & evs & [(st & _ & Hrun) _ _ _ Hid] & Hh).
  cbn [fst snd] in *. exists evs, st. rewrite <- Hw. rewrite Hid in Hrun. done.
Qed.


Lemma stuck_lives w id c : reachable w -> objs w !! id = Some c -> user_handler c = true -> stuck c ->
  shut c = false /\ id ∈ conns_map_ (K w) /\ k_state (K w) <> CONNTOR_STATE_FREED.
Proof.
  intros Hr Hc Hu (Hi & _). pose proof (reachable_inv E cfg cas w Hr) as H. destruct (inv_local E cfg cas w id c H Hc) as [[Hs _] _].
  assert (Hsh : shut c = false).
  { destruct (shut c) eqn:Hsh; [|done]. destruct (shut_freed E cfg cas w id c H Hc Hsh) as [Ha _].
    rewrite (st_attached _ Hs), Hi in Ha. done. }
  split; [done|]. assert (Hin : id ∈ conns_map_ (K w)) by by apply (li_map _ _ _ (gl_link _ _ _ _ _ _ H id c Hc)).
  split; [done|]. intros Hk. rewrite (ko_empty _ _ _ (gl_connector _ _ _ _ _ _ H) Hk) in Hin. by apply elem_of_empty in Hin.
Qed.

(** C15: a defect of closing. A connection that was told to close while it was not connecting,
    and of which the engine has nothing, never closes: over every run that does not delete it,
    which the user may do only when its end was told, its end is not told, it stays the
    connector's, and the connector's own end is not told either. *)
Theorem early_close_hangs w ins w' id c :
  reachable w -> run E ins w = inl (tt, w') -> InDelete id ∉ ins ->
  objs w !! id = Some c -> user_handler c = true ->
  state_ c = CONN_STATE_INIT -> new_state_ c = CONN_STATE_FREED -> engs c = ∅ ->
  exists c', objs w' !! id = Some c' /\ state_ c' = CONN_STATE_INIT /\
    Forall (fun e => is_closed_event e = false) (log_ c') /\ id ∈ conns_map_ (K w') /\ told_closed (K w') = 0.
Proof.
  intros Hr Hrun Hn Hc Hu Hi Hf He. destruct (run_grows ins w w' id c Hr Hrun Hn Hc Hu) as (c' & Hc' & K & Hst).
  assert (Hs : stuck c') by (apply Hst; done). assert (Hr' : reachable w') by by eapply inputs_reachable.
  assert (Hu' : user_handler c' = true) by by rewrite (ki_user _ _ K).
  destruct (stuck_lives w' id c' Hr' Hc' Hu' Hs) as (Hsh & Hin & Hk). exists c'. split; [done|]. split; [apply Hs|].
  pose proof (reachable_inv E cfg cas w' Hr') as H'. destruct (inv_local E cfg cas w' id c' H' Hc') as [[_ Hb] _]. split.
  - pose proof (lo_end _ _ _ _ Hb) as Hend. by rewrite Hsh in Hend.
  - split; [done|]. destruct (gl_connector _ _ _ _ _ _ H') as [_ _ _ _ _ _ Kd _ Kt _ _ _].
    rewrite (proj2 (Z.eqb_neq _ _) Hk) in Kd. pose proof (zlen_nonneg (List.filter (fun t => match t with RtClosed => true | _ => false end) (rt w'))) as Hz.
    unfold count_closed in Kt. lia.
Qed.

(** C13: the connector's books. The connections made are those that ended and those it has; it
    has a connection of the user's exactly until the connection's end is told; the engine is
    destroyed at most once, when the connector closes and has no connection any more, and the
    connector's handler is told at most once, after that; and a connector that closes has told
    each of its connections to close. *)
Theorem connector_books w :
  reachable w ->
  total_allocated_ (K w) = total_freed_ (K w) + Z.of_nat (size (conns_map_ (K w))) /\
  (forall id c, objs w !! id = Some c -> user_handler c = true -> id ∈ conns_map_ (K w) <-> shut c = false) /\
  0 <= told_closed (K w) <= engine_destroyed (K w) /\ engine_destroyed (K w) <= 1 /\
  (engine_destroyed (K w) = 1 -> conns_map_ (K w) = ∅ /\ k_new_state (K w) = CONNTOR_STATE_FREED) /\
  (k_state (K w) < CONNTOR_STATE_WORKING ->
     forall id, id ∈ conns_map_ (K w) -> exists c, objs w !! id = Some c /\ (new_state_ c = CONN_STATE_FREED \/ TClose ∈ queue w id)).
Proof.
  intros Hr. pose proof (reachable_inv E cfg cas w Hr) as H. pose proof (gl_connector _ _ _ _ _ _ H) as [K1 K2 K3 K4 K5 K6 K7 K8 K9 K10 K11 K12].
  pose proof (zlen_nonneg (List.filter (fun t => match t with RtClosed => true | _ => false end) (rt w))) as Hz. unfold count_closed in K9.
  assert (Hd : engine_destroyed (K w) <= 1) by (rewrite K7; by destruct (_ =? _)).
  split; [exact K4|]. split; [intros id c Hc Hu; by apply (li_map _ _ _ (gl_link _ _ _ _ _ _ H id c Hc))|].
  split; [lia|]. split; [exact Hd|]. split.
  - intros Hone. rewrite K7 in Hone. destruct (Z.eqb_spec (k_state (K w)) CONNTOR_STATE_FREED) as [Hf|]; [|done].
    split; [by apply K8|]. apply K3. rewrite Hf. done.
  - intros Hs id Hin. destruct (K5 id Hin) as (c & Hc & _). exists c. split; [done|].
    exact (li_closing _ _ _ (gl_link _ _ _ _ _ _ H id c Hc) Hin Hs).
Qed.

(** C14: a connection of the user's that is to use a MASQUE proxy sends nothing by its own
    socket, at any time; if it has a tunnel, the tunnel is an object of its own, made for it
    alone, that knows it until the tunnel's end, of which the connection then has to be told. *)
Theorem proxied_by_tunnel w id c :
  reachable w -> objs w !! id = Some c -> user_handler c = true -> proxy_type (config_ c) = TT_PROXY_MASQUE ->
  (forall bs, EvUdpSend bs ∉ log_ c) /\
  forall t, masque_tunnel_ (mq c) = Some t -> exists ct, objs w !! t = Some ct /\ masque_role_ (mq ct) = MASQUE_TUNNEL /\
    user_handler ct = false /\ (if shut ct then TTunnelClosed ∈ queue w id else masque_inner_ (mq ct) = Some id) /\
    forall j cj, objs w !! j = Some cj -> masque_tunnel_ (mq cj) = Some t -> j = id.
Proof.
  intros Hr Hc Hu Hp. pose proof (reachable_inv E cfg cas w Hr) as H. destruct (inv_local E cfg cas w id c H Hc) as [[_ Hb] _]. split.
  - intros bs. apply (lo_proxied _ _ _ _ Hb). unfold proxied. rewrite Hu. by rewrite bool_decide_eq_true_2.
  - intros t Ht. destruct (li_tunnel _ _ _ (gl_link _ _ _ _ _ _ H id c Hc) t Ht) as (ct & G1 & G2 & G3 & G4 & _). exists ct.
    split; [done|]. split; [done|]. split.
    + destruct (user_handler ct) eqn:Hut; [|done]. by apply (li_user _ _ _ (gl_link _ _ _ _ _ _ H t ct G1)) in Hut.
    + split; [destruct (shut ct); [by apply G4|by apply G3]|]. intros j cj Hj Htj.
      by eapply (ko_tunnels _ _ _ (gl_connector _ _ _ _ _ _ H) j id cj c t).
Qed.

End Properties.

(** ** Witnesses *)

Definition toy_answer : bytes := encode_packet SMP_TYPE_COMMAND 5 1 (str "Rok").
Definition toy_message : bytes := encode_packet SMP_TYPE_MESSAGE 6 2 (str "hello").

(** The engine accepts the server's chain in its first call, and gives its answer and a
    message cut in two; it has a timer, and later bytes that are no JSON object, and closes. *)
Definition toy_engine (n : nat) : list engine_cb :=
  if Nat.eqb n 6 then
    [CbCertVerify [str "Achat.example"]; CbHandshake;
     CbStreamRead 0 [ReadData (toy_answer ++ ztake 9 toy_message) false; ReadAgain];
     CbStreamRead 0 [ReadData (zdrop 9 toy_message) false]]
  else if Nat.leb n 17 then [CbTimerSet]
  else [CbStreamRead 0 [ReadData (encode_packet SMP_TYPE_COMMAND 7 3 (str "7")) false]; CbClose (str "done")].

Definition toy_smp : env :=
  {| O := toy_openssl; has_path_monitor := true; bbr2_enabled := false; sdk_version := str "1.0";
     read_command := fun t => match t with
                              | 82 :: _ => Command true (str "_result") None
                              | 55 :: _ => NotAnObject
                              | _ => Command false [] None
                              end;
     connect_text := path_; headers_text := fun _ => []; prop_fields := fun _ => []; user_calls := fun _ => [];
     engine_calls := toy_engine; send_rets := fun _ => [17; 1]; new_sid := fun _ => Some 0;
     connect_ends := fun _ => ConnectMade false; sockaddr := fun _ => BC_R_SUCCESS; schedule_ok := fun _ => true;
     udp_create_ok := fun _ => true; process_ok := fun _ => true; datagram_mss := fun _ => 1200;
     default_ifindex := fun _ => 2; clock_ms := fun n => 1000 * Z.of_nat n; random_tag := fun _ => str "tag" |}.

(** An object as [toy_object], with a proxy. *)
Definition toy_proxied : BCFObject := fun k =>
  if bytes_eqb k (str "proxy_url") then Some (BCFString (Some (str "masque://proxy.example:8443"))) else toy_object (str "short") k.

Definition toy_create : input := InUser (CallCreateConnection (toy_object (str "short"))).
Definition toy_connect : input := InUser (CallConnect 1 (str "smp") (str "chat.example") 443 (str "/") [] None 0).
Definition toy_rest : list input := [InUdpData 1 [[0]]; InUser (CallClose 1); InRun 1; InTimer 1 1; InUdpClosed 1; InRun 1; InShutdown 1].

Definition smp_world_of (r : (unit * world) + crash) : world :=
  match r with inl (_, w) => w | inr _ => new_world toy_connector [] end.
Definition smp_after (ins : list input) : world := smp_world_of (run toy_smp ins (new_world toy_connector [])).
Definition smp_conn_of (w : world) (id : Z) : conn := default (new_conn (new_conn_config []) [] true) (objs w !! id).

Definition toy_waiting : world := smp_after [toy_create; toy_connect].
Definition toy_working : world := smp_after [toy_create; toy_connect; InRun 1; InUdpData 1 [[0]]].
Definition toy_closed : world := smp_after (toy_create :: toy_connect :: InRun 1 :: toy_rest).
Definition toy_early : world := smp_after [toy_create; InUser (CallClose 1); InRun 1].
Definition toy_tunnelled : world := smp_after [InUser (CallCreateConnection toy_proxied); toy_connect; InRun 1; InRun 2].

Lemma smp_after_reachable ins :
  match run toy_smp ins (new_world toy_connector []) with inl _ => true | inr _ => false end = true ->
  reachable toy_smp toy_connector [] (smp_after ins).
Proof.
  intros H. unfold smp_after. destruct (run toy_smp ins _) as [[[] w]|x] eqn:Hr; [|done]. cbn.
  eapply inputs_reachable; [apply reach_new|exact Hr].
Qed.

Lemma no_delete ins id :
  forallb (fun i => match i with InDelete j => negb (j =? id) | _ => true end) ins = true -> InDelete id ∉ ins.
Proof.
  induction ins as [|i ins IH]; cbn; [by intros _ ?%elem_of_nil|]. intros [Hi Hins]%andb_true_iff [<-|H]%elem_of_cons; [|by apply IH].
  by rewrite Z.eqb_refl in Hi.
Qed.

Lemma connection_faults_witness :
  reachable toy_smp toy_connector [] toy_working /\
  exists x, step toy_smp (InUdpData 1 [[0]]) toy_working = inr x /\
    (x = NoEngineConnection \/ x = NullStream \/ x = MaskUnderflow \/ x = JsonNotObject).
Proof.
  assert (Hr : reachable toy_smp toy_connector [] toy_working) by (apply smp_after_reachable; vm_compute; reflexivity).
  split; [exact Hr|]. pose proof (connection_faults toy_smp toy_connector [] toy_working (InUdpData 1 [[0]]) Hr) as H.
  assert (Hs : match step toy_smp (InUdpData 1 [[0]]) toy_working with inl _ => false | inr _ => true end = true)
    by (vm_compute; reflexivity).
  destruct (step toy_smp (InUdpData 1 [[0]]) toy_working) as [|x]; [discriminate|]. exists x. split; [reflexivity|exact H].
Defined.

Lemma connection_told_witness :
  let c := smp_conn_of toy_closed 1 in
  shut c = true /\ answered (log_ c) = [0] /\
  (exists l msg st, log_ c = l ++ [OnClosed msg st] /\ Forall (fun e => is_closed_event e = false) l) /\
  NoDup (answered (log_ c)) /\ connect_rpc_ c = None.
Proof.
  intros c. assert (Hr : reachable toy_smp toy_connector [] toy_closed) by (apply smp_after_reachable; vm_compute; reflexivity).
  assert (Hc : objs toy_closed !! 1 = Some c) by (vm_compute; reflexivity).
  assert (Hs : shut c = true) by (vm_compute; reflexivity).
  destruct (connection_told toy_smp toy_connector [] toy_closed 1 c Hr Hc ltac:(vm_compute; reflexivity)) as (H1 & H2 & H3).
  rewrite Hs in H1. split; [exact Hs|]. split; [vm_compute; reflexivity|]. split; [exact H1|]. split; [exact H2|apply (H3 Hs)].
Defined.

Lemma connect_answered_witness :
  queue toy_waiting 1 = [TConnect 0 (str "smp") (str "chat.example") 443 (str "/") [] None 0] /\
  exists c', objs toy_closed !! 1 = Some c' /\ shut c' = true /\ 0 ∈ answered (log_ c').
Proof.
  assert (Hq : queue toy_waiting 1 = [TConnect 0 (str "smp") (str "chat.example") 443 (str "/") [] None 0]) by (vm_compute; reflexivity).
  assert (Hr : reachable toy_smp toy_connector [] toy_waiting) by (apply smp_after_reachable; vm_compute; reflexivity).
  assert (Hc : objs toy_waiting !! 1 = Some (smp_conn_of toy_waiting 1)) by (vm_compute; reflexivity).
  assert (Hrun : run toy_smp (InRun 1 :: toy_rest) toy_waiting = inl (tt, toy_closed)) by (vm_compute; reflexivity).
  destruct (connect_answered toy_smp toy_connector [] toy_waiting toy_rest toy_closed 1 (smp_conn_of toy_waiting 1) 0 _ _ _ _ _ _ _ []
              Hr Hc ltac:(vm_compute; reflexivity) ltac:(vm_compute; reflexivity) ltac:(vm_compute; reflexivity) Hq Hrun
              ltac:(apply no_delete; vm_compute; reflexivity)) as (c' & Hc' & _ & _ & H).
  split; [exact Hq|]. exists c'. split; [exact Hc'|].
  assert (Hs : shut c' = true) by (vm_compute in Hc'; injection Hc' as <-; reflexivity). split; [exact Hs|exact (H Hs)].
Defined.

Lemma told_after_verification_witness :
  let c := smp_conn_of toy_working 1 in
  exists l1 e l2 certs host, log_ c = l1 ++ e :: l2 /\ e = OnHandshakeFinished /\ EvCertVerify certs host true ∈ l1 /\
    (on_conn_cert_verify toy_openssl (config_ c) host (root_cas_ c) toy_connector [] certs).1 = true.
Proof.
  intros c. assert (Hr : reachable toy_smp toy_connector [] toy_working) by (apply smp_after_reachable; vm_compute; reflexivity).
  assert (Hc : objs toy_working !! 1 = Some c) by (vm_compute; reflexivity).
  assert (Hl : log_ c = take 2 (log_ c) ++ OnHandshakeFinished :: drop 3 (log_ c)) by (vm_compute; reflexivity).
  destruct (told_after_verification toy_smp toy_connector [] toy_working 1 c _ _ _ Hr Hc ltac:(vm_compute; reflexivity) Hl
              ltac:(reflexivity)) as (certs & host & H1 & H2).
  exists (take 2 (log_ c)), OnHandshakeFinished, (drop 3 (log_ c)), certs, host.
  split; [exact Hl|]. split; [reflexivity|]. split; [exact H1|exact H2].
Defined.

Lemma stream_packets_told_witness :
  let c := smp_conn_of toy_working 1 in
  let h := heard 1 0 (log_ c) in
  concat (map chunks_read (hs_reads h)) = [toy_answer ++ ztake 9 toy_message; zdrop 9 toy_message] /\
  map snd (hs_heard h) = [str "hello"] /\
  exists evs st rest, runs (WaitHeader 0) (toy_answer ++ toy_message) evs (inl (st, rest)) /\ hears toy_smp evs (hs_heard h).
Proof.
  intros c h. assert (Hr : reachable toy_smp toy_connector [] toy_working) by (apply smp_after_reachable; vm_compute; reflexivity).
  assert (Hc : objs toy_working !! 1 = Some c) by (vm_compute; reflexivity).
  destruct (raw_streams c !! (1, 0)) as [s|] eqn:Hs; [|vm_compute in Hs; discriminate].
  assert (Ho : stream_ s = true) by (vm_compute in Hs; injection Hs as <-; reflexivity).
  split; [vm_compute; reflexivity|]. split; [vm_compute; reflexivity|].
  destruct (stream_packets_told toy_smp toy_connector [] toy_working 1 c 1 0 s Hr Hc Hs Ho) as (evs & st & H1 & H2).
  exists evs, st, (remaining (parser_ s)). split; [|exact H2].
  assert (Hb : to_parse false (concat (map chunks_read (hs_reads h))) = toy_answer ++ toy_message) by (vm_compute; reflexivity).
  rewrite <- Hb. exact H1.
Defined.


Lemma early_close_hangs_witness :
  let c := smp_conn_of toy_early 1 in
  state_ c = CONN_STATE_INIT /\ new_state_ c = CONN_STATE_FREED /\
  exists w', run toy_smp [InUser CallConnectorClose; InRuntime; InRun 1; InUdpClosed 1; InRun 1; InShutdown 1; InRuntime] toy_early = inl (tt, w') /\
    1 ∈ conns_map_ (K w') /\ told_closed (K w') = 0.
Proof.
  intros c. assert (Hr : reachable toy_smp toy_connector [] toy_early) by (apply smp_after_reachable; vm_compute; reflexivity).
  assert (Hc : objs toy_early !! 1 = Some c) by (vm_compute; reflexivity).
  split; [vm_compute; reflexivity|]. split; [vm_compute; reflexivity|]. set (ins := [InUser _; _; _; _; _; _; _]).
  assert (Hrun : run toy_smp ins toy_early = inl (tt, smp_world_of (run toy_smp ins toy_early))) by (vm_compute; reflexivity).
  destruct (early_close_hangs toy_smp toy_connector [] toy_early ins _ 1 c Hr Hrun
              ltac:(apply no_delete; vm_compute; reflexivity) Hc ltac:(vm_compute; reflexivity) ltac:(vm_compute; reflexivity)
              ltac:(vm_compute; reflexivity) ltac:(vm_compute; reflexivity)) as (c' & _ & _ & _ & H).
  eexists. split; [exact Hrun|exact H].
Defined.

Lemma connector_books_witness :
  total_allocated_ (K toy_closed) = 1 /\ total_freed_ (K toy_closed) = 1 /\
  total_allocated_ (K toy_closed) = total_freed_ (K toy_closed) + Z.of_nat (size (conns_map_ (K toy_closed))).
Proof.
  split; [vm_compute; reflexivity|]. split; [vm_compute; reflexivity|].
  apply (connector_books toy_smp toy_connector [] toy_closed). apply smp_after_reachable; vm_compute; reflexivity.
Defined.

Lemma proxied_by_tunnel_witness :
  let c := smp_conn_of toy_tunnelled 1 in
  masque_tunnel_ (mq c) = Some 2 /\ (forall bs, ~ (EvUdpSend bs ∈ log_ c)) /\
  exists ct, objs toy_tunnelled !! 2 = Some ct /\ masque_role_ (mq ct) = MASQUE_TUNNEL.
Proof.
  intros c. assert (Hr : reachable toy_smp toy_connector [] toy_tunnelled) by (apply smp_after_reachable; vm_compute; reflexivity).
  assert (Hc : objs toy_tunnelled !! 1 = Some c) by (vm_compute; reflexivity).
  assert (Ht : masque_tunnel_ (mq c) = Some 2) by (vm_compute; reflexivity).
  destruct (proxied_by_tunnel toy_smp toy_connector [] toy_tunnelled 1 c Hr Hc ltac:(vm_compute; reflexivity) ltac:(vm_compute; reflexivity))
    as [H1 H2]. split; [exact Ht|]. split; [exact H1|]. destruct (H2 2 Ht) as (ct & G1 & G2 & _). exists ct. split; [exact G1|exact G2].
Defined.

(** A connect that is given up by [Close] before the server answered is told a success: the
    answer is the status that [Close] set. *)
Lemma given_up_connect_succeeds :
  let w := smp_after ([toy_create; toy_connect; InRun 1; InUser (CallClose 1); InRun 1] ++
                      map (InTimer 1) [1; 3; 4; 5; 6; 7; 8; 9; 10; 11; 12; 13] ++ [InUdpClosed 1; InRun 1]) in
  List.filter (fun e => match e with OnExecDone _ _ _ => true | _ => false end) (log_ (smp_conn_of w 1)) =
    [OnExecDone 0 BC_R_SUCCESS None].
Proof. vm_compute. reflexivity. Qed.
