(* ===== verification/UdpSender.v ===== *)
(** * UdpSender: UDP sockets that are pinned and restarted, and the group that races them
      ([src/cpp/UDPSender.cpp], [UDPSenderGroup.cpp] and their headers)

    A sender runs on a queue of its own and closes or changes its socket only when the kernel
    has completed what is outstanding on it. A group opens several senders, sends on all of
    them, and settles on the one that receives first. The model runs one step at a time: a
    call of the user, an event of a sender's queue, a completion of the kernel, a timer, or
    the end of a queue. The kernel, the routes and the user are the environment, asked anew at
    every call (the [tick]); what the group does outwards is the trace.

    [Send] and [Connect] take the sender's lock and may come between the events of its queue.
    The lock is released while the handler hears of data; when it hears of a restart it is
    held, and the handler makes no calls. A step may [fail]: where the code would use a null,
    deleted or unbound socket, where an assertion fails, and where a 32-bit count of
    outstanding operations would wrap. *)

From Stdlib Require Import ZArith Lia.
From stdpp Require Import base numbers option gmap list.
From S2P Require Import Prelude Results VpnPolicy SocketPinner BCFObject.

(** ** Data *)

Definition SNDR_STATE_FREED : Z := 0.
Definition SNDR_STATE_INACTIVE : Z := 1.
Definition SNDR_STATE_RESTARTING : Z := 2.
Definition SNDR_STATE_READY : Z := 3.
Definition SNDR_STATE_READING : Z := 4.
Definition SNDR_STATE_MAX : Z := 9.

Definition BC_SOCKET_MAXSCATTERGATHER : Z := 1024.

Record Config := {
  ipv6 : bool;
  publishId : Z;
  host : option bytes;
  port : Z;
  checkAvailableInterval : Z
}.

#[global] Instance eta_Config : Eta Config := fun c =>
  {| ipv6 := ipv6 c; publishId := publishId c; host := host c; port := port c;
     checkAvailableInterval := checkAvailableInterval c |}.

Definition new_config : Config :=
  {| ipv6 := false; publishId := 5; host := None; port := 0; checkAvailableInterval := 2000000 |}.

(** [UDPSender::Config::Init]. *)
Definition Config_Init (get : BCFObject) (c : Config) : Config :=
  let c := on_bool (get (str "ipv6")) (fun b c => c <| ipv6 := b |>) c in
  let c := on_number (get (str "publishId")) (fun n c => c <| publishId := u32 n |>) c in
  let c := on_pointer (get (str "host")) (fun s c => c <| host := s |>) c in
  let c := on_number (get (str "port")) (fun n c => c <| port := u16 n |>) c in
  on_number (get (str "checkAvailableInterval")) (fun n c => c <| checkAvailableInterval := u32 n |>) c.

(** [UDPSenderGroup::Config::Init]: the number of senders. *)
Definition GroupConfig_Init (get : BCFObject) : Z := on_number (get (str "num_of_senders")) (fun n _ => u32 n) 1.

(** What [m_pSocket] points to: nothing; a [BCSocket] that was not created or freed itself
    again; one without an address; or one to send and receive with, and what the pins left
    bound. *)
Inductive socket := NoSocket | Dangling | Unbound (fd : Z) | Bound (fd : Z) (b : bindings).

Definition no_socket (sk : socket) : bool := match sk with NoSocket => true | _ => false end.

(** The events of a sender's queue. *)
Inductive sevent :=
| SNDRM_STARTWORK (szHost : bytes) (nPort : Z)
| SNDRM_START_RECV
| SNDRM_STOPWORK
| SNDRM_RESTART_WORK (checkAvailable : bool) (networkHandle : Z).

Record sender := {
  m_sConfig : Config;
  m_bBindIP : bool;
  m_pSocket : socket;
  m_nPendingConnect : Z;
  m_nPendingRecv : Z;
  m_nPendingSend : Z;
  m_eState : Z;
  m_nNewState : Z;
  m_nCloseStatus : BCRESULT;
  m_nPendingRestart : Z;
  m_bCheckAvailable : bool;
  m_nCheckAvailableTimerId : Z;
  m_nRecvDataCount : Z;
  m_nNetworkHandle : Z;
  m_bInterfaceBindingActive : bool;
  m_eVpnPolicy : TTVpnPolicy;
  (* the queue *)
  m_lstEvents : list sevent;
  m_nCtrls : bool;                    (* its event is on the task, not yet run *)
  running : bool;                     (* [EVENT_STATE_RUNNING] *)
  attached : bool;                    (* the queue has its task *)
  shut : bool;                        (* [OnEventProcShutdown] ran *)
  delay_tasks : gmap Z bool;          (* the timers, and whether they are armed *)
  next_task_id : Z;
  (* what the kernel has not completed *)
  k_connect : Z;
  k_recv : Z;
  k_send : Z
}.

#[global] Instance eta_sender : Eta sender := fun s =>
  {| m_sConfig := m_sConfig s; m_bBindIP := m_bBindIP s; m_pSocket := m_pSocket s;
     m_nPendingConnect := m_nPendingConnect s; m_nPendingRecv := m_nPendingRecv s; m_nPendingSend := m_nPendingSend s;
     m_eState := m_eState s; m_nNewState := m_nNewState s; m_nCloseStatus := m_nCloseStatus s;
     m_nPendingRestart := m_nPendingRestart s; m_bCheckAvailable := m_bCheckAvailable s;
     m_nCheckAvailableTimerId := m_nCheckAvailableTimerId s; m_nRecvDataCount := m_nRecvDataCount s;
     m_nNetworkHandle := m_nNetworkHandle s; m_bInterfaceBindingActive := m_bInterfaceBindingActive s;
     m_eVpnPolicy := m_eVpnPolicy s; m_lstEvents := m_lstEvents s; m_nCtrls := m_nCtrls s; running := running s;
     attached := attached s; shut := shut s; delay_tasks := delay_tasks s; next_task_id := next_task_id s;
     k_connect := k_connect s; k_recv := k_recv s; k_send := k_send s |}.

(** The constructor, and what [Create] sets. *)
Definition new_sender (cfg : Config) (bindIP : bool) (networkHandle : Z) : sender :=
  {| m_sConfig := cfg; m_bBindIP := bindIP; m_pSocket := NoSocket; m_nPendingConnect := 0; m_nPendingRecv := 0;
     m_nPendingSend := 0; m_eState := SNDR_STATE_INACTIVE; m_nNewState := SNDR_STATE_MAX;
     m_nCloseStatus := BC_R_SUCCESS; m_nPendingRestart := 0; m_bCheckAvailable := false;
     m_nCheckAvailableTimerId := 0; m_nRecvDataCount := 0; m_nNetworkHandle := networkHandle;
     m_bInterfaceBindingActive := false; m_eVpnPolicy := TT_VPN_POLICY_UNSET; m_lstEvents := []; m_nCtrls := false;
     running := false; attached := true; shut := false; delay_tasks := ∅; next_task_id := 0;
     k_connect := 0; k_recv := 0; k_send := 0 |}.

(** Why a pin was given up. *)
Inductive unpin_cause := RouteRecheck | ConnectError (r : BCRESULT) | SendError (r : BCRESULT).

(** What the group's handler hears, what the network sees, and the steps that matter to the
    statements. *)
Inductive event :=
| OnSendData (i : nat) (nWrite : Z)
| OnRecvData (i : nat) (data : bytes)
| OnCheckAvailable (i : nat)
| OnRestart (i : nat) (result : BCRESULT)
| OnUdpClosed
| EvStartRecv
| EvSend (i : nat) (data : bytes) (b : bindings)
| EvInit (i : nat) (result : BCRESULT)
| EvPin (i : nat) (policy : TTVpnPolicy) (networkHandle : Z) (result : TTPinResult)
| EvUnpin (i : nat) (policy : TTVpnPolicy) (why : unpin_cause)
| EvCancel (i : nat)
| EvRecvDone (i : nat) (result : BCRESULT).

Record world := {
  senders : list sender;
  winner_ : option nat;
  converged_ : bool;
  closed_count_ : Z;
  trace : list event;
  tick : nat
}.

#[global] Instance eta_world : Eta world := fun w =>
  {| senders := senders w; winner_ := winner_ w; converged_ := converged_ w; closed_count_ := closed_count_ w;
     trace := trace w; tick := tick w |}.

Definition new_world : world :=
  {| senders := []; winner_ := None; converged_ := false; closed_count_ := 0; trace := []; tick := 0 |}.

(** ** The environment *)

Inductive api_call :=
| CallRestart (networkHandle : Z) | CallConnect (addr : sockaddr) | CallStartRecv | CallSend (data : bytes)
| CallSetVpnPolicy (policy : TTVpnPolicy) | CallClose.

Record env := {
  platform_is : platform;
  if_indextoname : Z -> option bytes;
  api_level : Z;
  have_setsocknetwork : bool;
  setsockopt : nat -> os_call -> Z;
  route_lookup : nat -> sockaddr -> Z -> Z;
  queue_create : nat -> BCRESULT;
  socket_create : nat -> BCRESULT;
  socket_fd : nat -> Z;
  net_pton : bool -> bytes -> bool;
  socket_bind : nat -> BCRESULT;
  socket_connect : nat -> BCRESULT * bool;   (* the result; whether the socket has an address now *)
  socket_recv : nat -> BCRESULT;
  socket_send : nat -> BCRESULT;
  schedule_task : nat -> BCRESULT;
  user_calls : nat -> list api_call
}.

(** ** The monad *)

Inductive crash := NullSocket | BadSocket | UnboundSocket | AssertFailed | CountWraps | TooDeep | NoSender.

Definition M (A : Type) : Type := world -> (A * world) + crash.

Definition ret {A} (a : A) : M A := fun w => inl (a, w).
Definition bind {A B} (m : M A) (k : A -> M B) : M B := fun w =>
  match m w with inl (a, w') => k a w' | inr c => inr c end.
Definition fail {A} (c : crash) : M A := fun _ => inr c.
Definition gets {A} (f : world -> A) : M A := fun w => inl (f w, w).
Definition puts (f : world -> world) : M unit := fun w => inl (tt, f w).

Declare Scope udp_scope.
Notation "x <- m ;; k" := (bind m (fun x => k))
  (at level 100, m at next level, right associativity) : udp_scope.
Notation "m ;; k" := (bind m (fun _ => k)) (at level 100, right associativity) : udp_scope.
Open Scope udp_scope.

Definition ask {A} (f : nat -> A) : M A := fun w => inl (f (tick w), w <| tick ::= S |>).
Definition log (e : event) : M unit := puts (fun w => w <| trace ::= fun t => t ++ [e] |>).
Definition when (b : bool) (m : M unit) : M unit := if b then m else ret tt.

Definition get {A} (i : nat) (f : sender -> A) : M A := fun w =>
  match senders w !! i with Some s => inl (f s, w) | None => inr NoSender end.
Definition put (i : nat) (f : sender -> sender) : M unit := puts (fun w => w <| senders ::= alter f i |>).

Fixpoint each {A} (f : A -> M unit) (l : list A) : M unit :=
  match l with
  | [] => ret tt
  | x :: l => f x;; each f l
  end.

Definition UINT32_MAX : Z := 0xFFFFFFFF.

(** [count++] on a count of outstanding operations. *)
Definition increment (i : nat) (count : sender -> Z) (set_count : Z -> sender -> sender) : M unit :=
  n <- get i count;;
  if n <? UINT32_MAX then put i (set_count (n + 1)) else fail CountWraps.

(** [ASSERT]. *)
Definition assert_ (b : bool) : M unit := if b then ret tt else fail AssertFailed.

Section Udp.
Context (E : env).

(** ** The queue *)

(** [QueueEvent]. *)
Definition PostEvent (i : nat) (e : sevent) : M unit :=
  put i (fun s => s <| m_lstEvents ::= fun l => l ++ [e] |>
                    <| m_nCtrls ::= fun b => b || (attached s && negb (running s)) |>).

(** [ScheduleTask] and [UnscheduleTask], for [m_nCheckAvailableTimerId]. *)
Definition ScheduleTask (i : nat) : M BCRESULT :=
  s <- get i (fun s => s);;
  r <- ask (schedule_task E);;
  if negb (r =? BC_R_SUCCESS) then ret r
  else
    let tid := m_nCheckAvailableTimerId s in
    match delay_tasks s !! tid with
    | Some _ => put i (fun s => s <| delay_tasks ::= <[tid := true]> |>);; ret BC_R_SUCCESS
    | None =>
        let n := next_task_id s + 1 in
        put i (fun s => s <| next_task_id := n |> <| delay_tasks ::= <[n := true]> |> <| m_nCheckAvailableTimerId := n |>);;
        ret BC_R_SUCCESS
    end.

Definition UnscheduleTask (i : nat) : M unit :=
  put i (fun s => if bool_decide (is_Some (delay_tasks s !! m_nCheckAvailableTimerId s))
                  then s <| delay_tasks ::= delete (m_nCheckAvailableTimerId s) |> <| m_nCheckAvailableTimerId := 0 |>
                  else s).

(** [if (m_nCheckAvailableTimerId > 0)] the timer is given up. *)
Definition unschedule_check (i : nat) : M unit :=
  t <- get i m_nCheckAvailableTimerId;;
  when (0 <? t) (UnscheduleTask i;; put i (fun s => s <| m_nCheckAvailableTimerId := 0 |>)).

(** [BCEventQueue::Detach]. *)
Definition DetachQueue (i : nat) : M unit := put i (fun s => s <| delay_tasks := ∅ |> <| attached := false |>).

(** [_set_state]. *)
Definition set_state (i : nat) (st : Z) (status : BCRESULT) : M unit :=
  put i (fun s => s <| m_nNewState := st |> <| m_nCloseStatus := status |>).

(** ** The socket *)

(** A call that needs a socket that was created. *)
Definition created_socket (i : nat) : M unit :=
  sk <- get i m_pSocket;;
  match sk with
  | NoSocket => fail NullSocket
  | Dangling => fail BadSocket
  | Unbound _ | Bound _ _ => ret tt
  end.

(** A call that needs a socket with an address. *)
Definition bound_socket (i : nat) : M bindings :=
  sk <- get i m_pSocket;;
  match sk with
  | NoSocket => fail NullSocket
  | Dangling => fail BadSocket
  | Unbound _ => fail UnboundSocket
  | Bound _ b => ret b
  end.

(** [m_pSocket->Cancel]. *)
Definition CancelSocket (i : nat) : M unit := created_socket i;; log (EvCancel i).

(** [if (m_pSocket != NULL) m_pSocket->Detach(&m_pSocket)]. *)
Definition DetachSocket (i : nat) : M unit :=
  sk <- get i m_pSocket;;
  match sk with
  | NoSocket => ret tt
  | _ => created_socket i;; put i (fun s => s <| m_pSocket := NoSocket |>)
  end.

Definition pin_request (s : sender) (fd : Z) : TTPinRequest :=
  {| req_fd := fd; req_ifIndex := u32 (m_nNetworkHandle s); req_androidNetHandle := u64 (m_nNetworkHandle s);
     req_ipv6 := ipv6 (m_sConfig s); req_isTcp := false; req_policy := m_eVpnPolicy s |}.

(** [_InitSocket]; the addresses are left to the kernel. *)
Definition open_socket (i : nat) : M BCRESULT :=
  put i (fun s => s <| m_bInterfaceBindingActive := false |> <| m_pSocket := Dangling |>);;
  s <- get i (fun s => s);;
  r <- ask (socket_create E);;
  if negb (r =? BC_R_SUCCESS) then ret r
  else
    fd <- ask (socket_fd E);;
    put i (fun s => s <| m_pSocket := Unbound fd |>);;
    let parsed := match host (m_sConfig s) with
                  | Some h => if m_bBindIP s then net_pton E (ipv6 (m_sConfig s)) h else true
                  | None => true
                  end in
    if negb parsed then ret BC_R_UNEXPECTED
    else
      r <- ask (socket_bind E);;
      if negb (r =? BC_R_SUCCESS) then DetachSocket i;; ret r
      else
        out <- ask (fun n => tt_socket_pin (setsockopt E n) (if_indextoname E) (api_level E)
                               (have_setsocknetwork E) (platform_is E) (Some (pin_request s fd)) 32);;
        put i (fun s => s <| m_pSocket := Bound fd (bound_after unbound (po_calls out)) |>);;
        log (EvPin i (m_eVpnPolicy s) (m_nNetworkHandle s) (po_result out));;
        when (bool_decide (po_result out = TT_PIN_OK)) (put i (fun s => s <| m_bInterfaceBindingActive := true |>));;
        ret BC_R_SUCCESS.

Definition InitSocket (i : nat) : M BCRESULT :=
  r <- open_socket i;;
  log (EvInit i r);;
  ret r.

(** [_TryClearInterfaceBinding]. *)
Definition TryClearInterfaceBinding (i : nat) (why : unpin_cause) : M bool :=
  match platform_is E with
  | OS_ANDROID | OS_OTHER => ret false
  | pf =>
      s <- get i (fun s => s);;
      if negb (m_bInterfaceBindingActive s) then ret false
      else
        match m_pSocket s with
        | NoSocket => ret false
        | Dangling => fail BadSocket
        | Unbound fd | Bound fd _ =>
            if fd <? 0 then put i (fun s => s <| m_bInterfaceBindingActive := false |>);; ret false
            else
              out <- ask (fun n => tt_socket_unpin (setsockopt E n) pf fd (ipv6 (m_sConfig s)) 32);;
              put i (fun s => s <| m_bInterfaceBindingActive := false |>
                                <| m_pSocket ::= fun sk => match sk with
                                                           | Bound fd b => Bound fd (bound_after b (po_calls out))
                                                           | sk => sk
                                                           end |>);;
              log (EvUnpin i (m_eVpnPolicy s) why);;
              ret true
        end
  end.

(** ** The group's handler *)

Definition is_winner (w : world) (i : nat) : bool := bool_decide (winner_ w = Some i).

(** The callbacks that come with the sender's lock held. *)
Definition OnSenderCheckAvailable (i : nat) : M unit :=
  ok <- gets (fun w => negb (converged_ w) || is_winner w i);;
  when ok (log (OnCheckAvailable i)).

Definition OnSenderRestart (i : nat) (r : BCRESULT) : M unit :=
  ok <- gets (fun w => negb (converged_ w) || is_winner w i);;
  when ok (log (OnRestart i r)).

(** ** Closing and restarting *)

(** [_UDP_RecvChunk], given [_ExitCheck]. *)
Definition UDP_RecvChunk_with (ExitCheck : nat -> M bool) (i : nat) : M unit :=
  stop <- ExitCheck i;;
  n <- get i m_nPendingRecv;;
  if stop || (0 <? n) then ret tt
  else
    bound_socket i;;
    r <- ask (socket_recv E);;
    when ((r =? BC_R_SUCCESS) || (r =? BC_R_INPROGRESS))
      (increment i m_nPendingRecv (fun n s => s <| m_nPendingRecv := n |> <| k_recv ::= Z.succ |>));;
    ExitCheck i;;
    ret tt.

(** [_Restart]. *)
Definition restarted (i : nat) (r : BCRESULT) : M unit :=
  put i (fun s => s <| m_nPendingRestart ::= fun n => u32 (n - 1) |> <| m_bCheckAvailable := false |>);;
  OnSenderRestart i r.

Definition Restart_with (ExitCheck : nat -> M bool) (i : nat) : M unit :=
  r <- InitSocket i;;
  if negb (r =? BC_R_SUCCESS) then restarted i r
  else
    check <- get i m_bCheckAvailable;;
    if negb check then restarted i BC_R_SUCCESS
    else
      put i (fun s => s <| m_nRecvDataCount := 0 |>);;
      OnSenderCheckAvailable i;;
      UDP_RecvChunk_with ExitCheck i;;
      r <- ScheduleTask i;;
      when (negb (r =? BC_R_SUCCESS)) (restarted i r).

(** The parts of [_ExitCheck]: a sender that works is told to stop, one that waits for the
    kernel lets its socket go and restarts or goes on to close, one that closes detaches its
    queue. *)
Definition exit_reading (i : nat) : M unit :=
  s <- get i (fun s => s);;
  when (m_eState s =? SNDR_STATE_READING)
    (assert_ (m_nNewState s <=? SNDR_STATE_READY);;
     when (0 <? m_nPendingRecv s) (CancelSocket i);;
     when (0 <? m_nPendingSend s) (CancelSocket i);;
     put i (fun s => s <| m_eState := SNDR_STATE_READY |>)).

Definition exit_inactive (i : nat) : M bool :=
  s <- get i (fun s => s);;
  if m_eState s =? SNDR_STATE_INACTIVE then
    assert_ (m_nNewState s =? SNDR_STATE_FREED);;
    unschedule_check i;;
    DetachQueue i;;
    ret true
  else ret true.

Definition exit_ready (Restart : nat -> M unit) (i : nat) : M bool :=
  s <- get i (fun s => s);;
  if m_eState s =? SNDR_STATE_READY then
    assert_ (m_nNewState s <=? SNDR_STATE_READY);;
    if negb ((m_nPendingRecv s =? 0) && (m_nPendingSend s =? 0)) then ret true
    else
      DetachSocket i;;
      if m_nCtrls s then ret true
      else
        put i (fun s => s <| m_eState := SNDR_STATE_INACTIVE |>);;
        if SNDR_STATE_INACTIVE =? m_nNewState s then
          when (0 <? m_nPendingRestart s)
            (unschedule_check i;;
             Restart i;;
             put i (fun s => s <| m_eState := SNDR_STATE_READING |>);;
             set_state i SNDR_STATE_MAX BC_R_SUCCESS);;
          ret false
        else exit_inactive i
  else exit_inactive i.

(** [_ExitCheck]; it calls itself only from a restart, where it ends at once. *)
Fixpoint ExitCheck_rec (depth : nat) (i : nat) : M bool :=
  match depth with
  | O => fail TooDeep
  | S depth =>
      s <- get i (fun s => s);;
      if m_eState s <=? m_nNewState s then ret false
      else
        assert_ (m_nNewState s <? SNDR_STATE_READING);;
        exit_reading i;;
        exit_ready (Restart_with (ExitCheck_rec depth)) i
  end.

Definition ExitCheck (i : nat) : M bool := ExitCheck_rec 2 i.
Definition UDP_RecvChunk (i : nat) : M unit := UDP_RecvChunk_with ExitCheck i.

(** ** Sending and connecting *)

(** [_UDP_Send]. *)
Definition UDP_Send (i : nat) (data : bytes) : M BCRESULT :=
  b <- bound_socket i;;
  r <- ask (socket_send E);;
  when ((r =? BC_R_SUCCESS) || (r =? BC_R_INPROGRESS))
    (log (EvSend i data b);;
     increment i m_nPendingSend (fun n s => s <| m_nPendingSend := n |> <| k_send ::= Z.succ |>));;
  ret r.

(** [UDPSender::Send]. *)
Definition SenderSend (i : nat) (data : bytes) : M BCRESULT :=
  stop <- ExitCheck i;;
  if stop : bool then ret BC_R_SHUTTINGDOWN else UDP_Send i data.

(** [UDPSender::SendMMsg] with [_UDP_SendMMsg]: one datagram of several regions. *)
Definition SendMMsg (i : nat) (io_vec : list bytes) : M BCRESULT :=
  stop <- ExitCheck i;;
  if stop : bool then ret BC_R_SHUTTINGDOWN
  else if BC_SOCKET_MAXSCATTERGATHER <? zlen io_vec then ret BC_R_INVALIDARG
  else UDP_Send i (concat io_vec).

(** The check of the pin in [UDPSender::Connect]; what a forced policy makes of it is logged. *)
Definition recheck_pin (i : nat) (addr : sockaddr) : M unit :=
  s <- get i (fun s => s);;
  when (m_bInterfaceBindingActive s)
    (let peer_len := match addr with SockIn6 _ => sizeof_sockaddr_in6 | _ => sizeof_sockaddr_in end in
     let bound_idx := u32 (m_nNetworkHandle s) in
     scoped_idx <- ask (fun n => route_lookup E n addr bound_idx);;
     global_idx <- ask (fun n => route_lookup E n addr 0);;
     let peer_class := if bool_decide (platform_is E = OS_APPLE) then tt_peer_address_class (Some addr) peer_len
                       else TT_PEER_CLASS_GLOBAL in
     let forced := bool_decide (m_eVpnPolicy s = TT_VPN_POLICY_FORCE_PHYSICAL) in
     let verdict := (tt_vpn_pin_recheck (m_eVpnPolicy s) bound_idx scoped_idx global_idx peer_class).1 in
     if bool_decide (verdict = TT_PIN_VERDICT_UNPIN) && negb forced then
       match platform_is E with
       | OS_APPLE | OS_WINDOWS => TryClearInterfaceBinding i RouteRecheck;; ret tt
       | _ => ret tt
       end
     else ret tt).

(** [UDPSender::Connect]. *)
Definition SenderConnect (i : nat) (addr : sockaddr) : M BCRESULT :=
  stop <- ExitCheck i;;
  sk <- get i m_pSocket;;
  if stop || no_socket sk then ret BC_R_SHUTTINGDOWN
  else
    recheck_pin i addr;;
    created_socket i;;
    answer <- ask (socket_connect E);;
    when (answer.1 =? BC_R_SUCCESS)
      (put i (fun s => s <| k_connect ::= Z.succ |>
                         <| m_pSocket ::= fun sk => match sk with
                                                    | Unbound fd => if answer.2 : bool then Bound fd unbound else Unbound fd
                                                    | sk => sk
                                                    end |>));;
    ret answer.1.

(** ** The group's calls *)

(** The last result of a call of each sender that is not among [fine]. *)
Fixpoint each_sender (call : nat -> M BCRESULT) (fine : BCRESULT -> bool) (n i : nat) (last : BCRESULT) : M BCRESULT :=
  match n with
  | O => ret last
  | S n => r <- call i;; each_sender call fine n (S i) (if fine r then last else r)
  end.

Definition on_each (call : nat -> M BCRESULT) (fine : BCRESULT -> bool) : M BCRESULT :=
  n <- gets (fun w => length (senders w));;
  each_sender call fine n 0%nat BC_R_SUCCESS.

Definition is_success (r : BCRESULT) : bool := r =? BC_R_SUCCESS.

Definition posts (e : sevent) (i : nat) : M BCRESULT := PostEvent i e;; ret BC_R_SUCCESS.

Definition GroupRestart (networkHandle : Z) : M BCRESULT := on_each (posts (SNDRM_RESTART_WORK false networkHandle)) is_success.
Definition GroupConnect (addr : sockaddr) : M BCRESULT := on_each (fun i => SenderConnect i addr) is_success.
Definition GroupStartRecv : M BCRESULT := log EvStartRecv;; on_each (posts SNDRM_START_RECV) is_success.
Definition GroupClose : M BCRESULT := on_each (posts SNDRM_STOPWORK) is_success.
Definition SetVpnPolicy (policy : TTVpnPolicy) : M BCRESULT :=
  on_each (fun i => put i (fun s => s <| m_eVpnPolicy := policy |>);; ret BC_R_SUCCESS) is_success.

Definition GroupSend (data : bytes) : M BCRESULT :=
  w <- gets (fun w => w);;
  match (if converged_ w then winner_ w else None) with
  | Some i => SenderSend i data
  | None => on_each (fun i => SenderSend i data) (fun r => is_success r || (r =? BC_R_INPROGRESS))
  end.

(** Whose address [GetSockName] gives. *)
Definition GetSockName : M (option nat) :=
  w <- gets (fun w => w);;
  let address_of i := has <- get i (fun s => negb (no_socket (m_pSocket s)));; ret (if has : bool then Some i else None) in
  match (if converged_ w then winner_ w else None) with
  | Some i => address_of i
  | None => match senders w with [] => ret None | _ => address_of 0%nat end
  end.

Definition user_call (a : api_call) : M unit :=
  match a with
  | CallRestart h => GroupRestart h;; ret tt
  | CallConnect addr => GroupConnect addr;; ret tt
  | CallStartRecv => GroupStartRecv;; ret tt
  | CallSend data => GroupSend data;; ret tt
  | CallSetVpnPolicy p => SetVpnPolicy p;; ret tt
  | CallClose => GroupClose;; ret tt
  end.

(** A callback without the lock, and what the user calls from inside it. *)
Definition notify (e : event) : M unit :=
  log e;;
  calls <- ask (user_calls E);;
  each user_call calls.

Definition OnSenderSendData (i : nat) (nWrite : Z) : M unit :=
  ok <- gets (fun w => negb (converged_ w) || is_winner w i);;
  when ok (notify (OnSendData i nWrite)).

Definition OnSenderRecvData (i : nat) (data : bytes) : M unit :=
  settled <- gets converged_;;
  when (negb settled) (puts (fun w => w <| converged_ := true |> <| winner_ := Some i |>));;
  notify (OnRecvData i data).

Definition OnSenderUdpClosed (i : nat) : M unit :=
  puts (fun w => w <| closed_count_ ::= fun n => u32 (n + 1) |>);;
  w <- gets (fun w => w);;
  when (Z.of_nat (length (senders w)) <=? closed_count_ w) (notify OnUdpClosed).

(** ** The events of a queue *)

(** [_StartWork]; the address is kept for a use that there is not. *)
Definition StartWork (i : nat) (szHost : bytes) : M BCRESULT :=
  s <- get i (fun s => s);;
  if negb (bool_decide (szHost = [])) && negb (net_pton E (ipv6 (m_sConfig s)) szHost) then ret BC_R_UNEXPECTED
  else UDP_RecvChunk i;; ret BC_R_SUCCESS.

(** [OnEventProcess]. *)
Definition OnEventProcess (i : nat) (e : sevent) : M unit :=
  stop <- ExitCheck i;;
  if stop : bool then ret tt
  else
    match e with
    | SNDRM_STARTWORK h _ => StartWork i h;; ret tt
    | SNDRM_START_RECV => UDP_RecvChunk i
    | SNDRM_STOPWORK => set_state i SNDR_STATE_FREED BC_R_SUCCESS
    | SNDRM_RESTART_WORK check h =>
        n <- get i m_nPendingRestart;;
        when (n =? 0) (set_state i SNDR_STATE_INACTIVE BC_R_SUCCESS);;
        put i (fun s => s <| m_nPendingRestart ::= fun n => u32 (n + 1) |> <| m_bCheckAvailable := check |>
                          <| m_nNetworkHandle := h |> <| m_nRecvDataCount := 0 |>)
    end;;
    ExitCheck i;;
    ret tt.

(** ** Completions *)

(** The errors a sender outlives. *)
Definition transient (r : BCRESULT) : bool :=
  (r =? BC_R_TIMEDOUT) || (r =? BC_R_ADDRNOTAVAIL) || (r =? BC_R_NETUNREACH) || (r =? BC_R_HOSTUNREACH)
  || (r =? BC_R_NETDOWN) || (r =? BC_R_HOSTDOWN) || (r =? BC_R_CANCELED).

Definition unreachable (r : BCRESULT) : bool :=
  (r =? BC_R_NETUNREACH) || (r =? BC_R_HOSTUNREACH) || (r =? BC_R_ADDRNOTAVAIL).

(** [_OnDataRecv]. *)
Definition OnDataRecv (i : nat) (data : bytes) : M unit :=
  put i (fun s => s <| m_nRecvDataCount ::= fun n => u32 (n + zlen data) |>);;
  OnSenderRecvData i data.

(** [_RecvDoneCallback]; a receive that failed has no data. *)
Definition RecvDoneCallback (i : nat) (result : BCRESULT) (data : bytes) : M unit :=
  put i (fun s => s <| k_recv ::= Z.pred |>);;
  log (EvRecvDone i result);;
  s <- get i (fun s => s);;
  assert_ (m_nPendingRecv s =? 1);;
  put i (fun s => s <| m_nPendingRecv := 0 |>);;
  when (negb (result =? BC_R_SUCCESS) && (m_nPendingRestart s =? 0))
    (when (negb (transient result)) (set_state i SNDR_STATE_FREED result));;
  stop <- ExitCheck i;;
  if stop : bool then ret tt
  else
    UDP_RecvChunk i;;
    OnDataRecv i (if result =? BC_R_SUCCESS then data else []);;
    ExitCheck i;;
    ret tt.

(** [_SendDoneCallback]. *)
Definition SendDoneCallback (i : nat) (n : Z) (result : BCRESULT) : M unit :=
  put i (fun s => s <| k_send ::= Z.pred |>);;
  s <- get i (fun s => s);;
  when (0 <? m_nPendingSend s) (put i (fun s => s <| m_nPendingSend ::= Z.pred |>));;
  when (negb (result =? BC_R_SUCCESS) && (m_nPendingRestart s =? 0))
    (if negb (transient result) then set_state i SNDR_STATE_FREED result
     else when (unreachable result) (TryClearInterfaceBinding i (SendError result);; ret tt));;
  stop <- ExitCheck i;;
  if stop : bool then ret tt
  else
    OnSenderSendData i n;;
    ExitCheck i;;
    ret tt.

(** [_OnConnectDone]. *)
Definition OnConnectDone (i : nat) (result : BCRESULT) : M unit :=
  s <- get i (fun s => s);;
  when (unreachable result && negb (bool_decide (m_eVpnPolicy s = TT_VPN_POLICY_FORCE_PHYSICAL)))
    (TryClearInterfaceBinding i (ConnectError result);; ret tt).

(** [_ConnectDoneCB]. *)
Definition ConnectDoneCB (i : nat) (result : BCRESULT) : M unit :=
  put i (fun s => s <| k_connect ::= Z.pred |>);;
  n <- get i m_nPendingConnect;;
  when (0 <? n) (put i (fun s => s <| m_nPendingConnect ::= Z.pred |>));;
  OnConnectDone i result;;
  ExitCheck i;;
  ret tt.

(** The timer of [_Restart]. *)
Definition CheckAvailableTimeout (i : nat) : M unit :=
  stop <- ExitCheck i;;
  if stop : bool then ret tt
  else
    UnscheduleTask i;;
    s <- get i (fun s => s);;
    (if 0 <? m_nRecvDataCount s then
       put i (fun s => s <| m_nRecvDataCount := 0 |>);; restarted i BC_R_SUCCESS
     else
       put i (fun s => s <| m_nPendingRestart ::= fun n => u32 (n - 1) |> <| m_bCheckAvailable := false |>);;
       set_state i SNDR_STATE_INACTIVE BC_R_NETUNREACH);;
    ExitCheck i;;
    ret tt.

(** [OnEventProcShutdown] with [_Cleanup]. *)
Definition OnEventProcShutdown (i : nat) : M unit :=
  DetachSocket i;;
  put i (fun s => s <| m_lstEvents := [] |> <| shut := true |>);;
  OnSenderUdpClosed i.

(** ** Creating the group *)

(** [UDPSender::Create]. *)
Definition SenderCreate (i : nat) : M BCRESULT :=
  r <- ask (queue_create E);;
  if negb (r =? BC_R_SUCCESS) then ret r
  else
    r <- InitSocket i;;
    if negb (r =? BC_R_SUCCESS) then DetachQueue i;; ret r
    else put i (fun s => s <| m_eState := SNDR_STATE_READING |>);; ret BC_R_SUCCESS.

(** The loop of [UDPSenderGroup::Create]; a sender that could not be made is dropped. *)
Fixpoint create_senders (n : nat) (cfg : Config) (bindIP : bool) (networkHandle : Z) : M unit :=
  match n with
  | O => ret tt
  | S n =>
      i <- gets (fun w => length (senders w));;
      puts (fun w => w <| senders ::= fun l => l ++ [new_sender cfg bindIP networkHandle] |>);;
      r <- SenderCreate i;;
      when (negb (r =? BC_R_SUCCESS)) (puts (fun w => w <| senders ::= take i |>));;
      create_senders n cfg bindIP networkHandle
  end.

Definition GroupCreate (cfg : BCFObject) (bindIP : bool) (initialNetworkHandle : Z) : M BCRESULT :=
  create_senders (Z.to_nat (GroupConfig_Init cfg)) (Config_Init cfg new_config) bindIP initialNetworkHandle;;
  l <- gets senders;;
  ret (match l with [] => BC_R_FAILURE | _ => BC_R_SUCCESS end).

(** ** Steps *)

Inductive input :=
| InCall (a : api_call)
| InEvents (i : nat)                  (* the queue's event begins *)
| InEvent (i : nat)                   (* the next event of the queue, or its end *)
| InRecvDone (i : nat) (result : BCRESULT) (data : bytes)
| InSendDone (i : nat) (n : Z) (result : BCRESULT)
| InConnectDone (i : nat) (result : BCRESULT)
| InTimer (i : nat) (tid : Z)
| InShutdown (i : nat).

Definition on_sender (i : nat) (may : sender -> bool) (m : M unit) : M unit := fun w =>
  match senders w !! i with
  | Some s => if may s then m w else inl (tt, w)
  | None => inl (tt, w)
  end.

Definition step (x : input) : M unit :=
  match x with
  | InCall a => user_call a
  | InEvents i =>
      on_sender i (fun s => m_nCtrls s && negb (running s))
        (put i (fun s => s <| m_nCtrls := false |> <| running := true |>))
  | InEvent i =>
      on_sender i running
        (l <- get i m_lstEvents;;
         match l with
         | [] => put i (fun s => s <| running := false |>)
         | e :: l => put i (fun s => s <| m_lstEvents := l |>);; OnEventProcess i e
         end)
  | InRecvDone i r data => on_sender i (fun s => (0 <? k_recv s) && negb (running s)) (RecvDoneCallback i r data)
  | InSendDone i n r => on_sender i (fun s => (0 <? k_send s) && negb (running s)) (SendDoneCallback i n r)
  | InConnectDone i r => on_sender i (fun s => (0 <? k_connect s) && negb (running s)) (ConnectDoneCB i r)
  | InTimer i tid =>
      on_sender i (fun s => bool_decide (delay_tasks s !! tid = Some true) && negb (running s))
        (put i (fun s => s <| delay_tasks ::= <[tid := false]> |>);; CheckAvailableTimeout i)
  | InShutdown i =>
      on_sender i (fun s => negb (attached s) && negb (shut s) && negb (running s) && negb (m_nCtrls s) &&
                            (k_connect s =? 0) && (k_recv s =? 0) && (k_send s =? 0))
        (OnEventProcShutdown i)
  end.

(** A group that was created, and any steps after. *)
Inductive reachable (cfg : BCFObject) (bindIP : bool) (handle : Z) : world -> Prop :=
| reach_create w : GroupCreate cfg bindIP handle new_world = inl (BC_R_SUCCESS, w) -> reachable cfg bindIP handle w
| reach_step w x w' : reachable cfg bindIP handle w -> step x w = inl (tt, w') -> reachable cfg bindIP handle w'.

Fixpoint run (xs : list input) : M unit :=
  match xs with [] => ret tt | x :: xs => step x;; run xs end.

Lemma run_group cfg bindIP handle xs w : forall w0,
  reachable cfg bindIP handle w0 -> run xs w0 = inl (tt, w) -> reachable cfg bindIP handle w.
Proof.
  induction xs as [|x xs IH]; intros w0 H0; cbn [run].
  - by intros [= ->].
  - unfold bind. destruct (step x w0) as [[[] w1]|] eqn:E1; [|done]. apply IH. by eapply reach_step.
Qed.

End Udp.
