(* ===== verification/UdpInvariant.v ===== *)
(** * UdpInvariant: the invariant of a group of UDP senders

    What holds of each sender of [UdpSender] between the steps and inside them, what holds of
    the group and its trace, and what the operations of a sender keep of it. *)

From Stdlib Require Import ZArith Lia.
From stdpp Require Import base numbers option gmap list.
From S2P Require Import Prelude Results VpnPolicy SocketPinner BCFObject UdpSender.

Section Faults.
Context (E : env).

(** The kernel gives every socket that is asked for, with an address. *)
Definition sockets_made : Prop :=
  (forall n, socket_create E n = BC_R_SUCCESS) /\ (forall n, socket_bind E n = BC_R_SUCCESS) /\
  (forall b h, net_pton E b h = true).

(** The faults of a step: a count that wraps, or the use of a socket that was not made. *)
Definition known_fault (x : crash) : Prop :=
  x = CountWraps \/ ((sockets_made -> False) /\ (x = NullSocket \/ x = BadSocket \/ x = UnboundSocket)).

Definition does {A} (m : M A) (Q : A -> world -> Prop) (w : world) : Prop :=
  match m w with inl (a, w') => Q a w' | inr x => known_fault x end.

Lemma does_seq {A B} (m : M A) (k : A -> M B) Q w : does m (fun a w' => does (k a) Q w') w -> does (bind m k) Q w.
Proof. unfold does, bind. by destruct (m w) as [[a w']|c]. Qed.

Lemma does_weaken {A} (m : M A) (P Q : A -> world -> Prop) w : does m P w -> (forall a w', P a w' -> Q a w') -> does m Q w.
Proof. unfold does. destruct (m w) as [[a w']|c]; auto. Qed.

Lemma does_then {A B} (m : M A) (k : A -> M B) P Q w :
  does m P w -> (forall a w', P a w' -> does (k a) Q w') -> does (bind m k) Q w.
Proof. intros H HK. apply does_seq. by eapply does_weaken. Qed.

Lemma does_val {A} (a : A) Q w : Q a w -> does (ret a) Q w.
Proof. done. Qed.

Lemma does_oracle {A B} (f : nat -> A) (k : A -> M B) Q w :
  (forall n, does (k (f n)) Q (w <| tick ::= S |>)) -> does (bind (ask f) k) Q w.
Proof. intros H. unfold does, bind, ask. apply H. Qed.

Lemma does_look {A B} (f : world -> A) (k : A -> M B) Q w : does (k (f w)) Q w -> does (bind (gets f) k) Q w.
Proof. done. Qed.

Lemma does_field {A B} i (f : sender -> A) (k : A -> M B) Q w s :
  senders w !! i = Some s -> does (k (f s)) Q w -> does (bind (get i f) k) Q w.
Proof. intros H HK. unfold does, bind, get. by rewrite H. Qed.

Lemma does_update {B} f (k : unit -> M B) Q w : does (k tt) Q (f w) -> does (bind (puts f) k) Q w.
Proof. done. Qed.

End Faults.

(** ** The trace *)

Definition first_recv (l : list event) : option nat :=
  head (omap (fun e => match e with OnRecvData i _ => Some i | _ => None end) l).

Lemma first_recv_snoc l e :
  first_recv (l ++ [e]) = match first_recv l with Some i => Some i | None => match e with OnRecvData i _ => Some i | _ => None end end.
Proof. unfold first_recv. rewrite omap_app. destruct (omap _ l) eqn:H; cbn; [|done]. by destruct e. Qed.

(** Whose callback or datagram it is, where only the winner's may come when there is one. *)
Definition of_path (e : event) : option nat :=
  match e with
  | OnSendData i _ | OnCheckAvailable i | OnRestart i _ | EvSend i _ _ => Some i
  | _ => None
  end.

Definition is_call (e : event) : bool := match e with EvStartRecv => true | _ => false end.

(** What may come after [l]. *)
Definition admits (l : list event) (e : event) : Prop :=
  (forall i j, of_path e = Some i -> first_recv l = Some j -> i = j) /\
  (is_call e = false -> OnUdpClosed ∉ l) /\
  match e with
  | OnRecvData i data => EvStartRecv ∈ l /\ exists r, EvRecvDone i r ∈ l /\ (r = BC_R_SUCCESS \/ data = [])
  | EvUnpin _ p why => p = TT_VPN_POLICY_FORCE_PHYSICAL -> exists r, why = SendError r /\ unreachable r = true
  | _ => True
  end.

Definition ordered (l : list event) : Prop := forall l1 e l2, l = l1 ++ e :: l2 -> admits l1 e.

Lemma ordered_nil : ordered [].
Proof. intros l1 e l2 H. by destruct l1. Qed.

Lemma ordered_snoc l e : ordered l -> admits l e -> ordered (l ++ [e]).
Proof.
  intros Ho Ha l1 e' l2 H. destruct l2 as [|x l2] using rev_ind.
  - apply app_inj_tail in H as [-> ->]. exact Ha.
  - assert (H' : l ++ [e] = (l1 ++ e' :: l2) ++ [x]) by (rewrite H; by rewrite <- app_assoc).
    apply app_inj_tail in H' as [H' _]. by apply (Ho l1 e' l2).
Qed.

(** ** A sender *)

Definition is_bound (sk : socket) : Prop := match sk with Bound _ _ => True | _ => False end.

(** It works; it has been told to restart or to close; it has closed. *)
Definition working (s : sender) : Prop :=
  m_eState s = SNDR_STATE_READING /\ m_nNewState s = SNDR_STATE_MAX /\ m_nPendingRestart s = 0 /\ attached s = true.

Definition restarting (s : sender) : Prop :=
  (m_eState s = SNDR_STATE_READING \/ m_eState s = SNDR_STATE_READY) /\ m_nNewState s = SNDR_STATE_INACTIVE /\
  m_nPendingRestart s = 1 /\ attached s = true.

Definition closing (s : sender) : Prop :=
  (m_eState s = SNDR_STATE_READING \/ m_eState s = SNDR_STATE_READY) /\ m_nNewState s = SNDR_STATE_FREED /\
  m_nPendingRestart s = 0 /\ attached s = true.

Definition closed (s : sender) : Prop :=
  m_eState s = SNDR_STATE_INACTIVE /\ m_nNewState s = SNDR_STATE_FREED /\ m_nPendingRestart s = 0 /\ attached s = false /\
  m_pSocket s = NoSocket /\ m_nPendingRecv s = 0 /\ m_nPendingSend s = 0.

(** What the group posts. *)
Definition plain_event (e : sevent) : Prop :=
  match e with SNDRM_STARTWORK _ _ => False | SNDRM_RESTART_WORK check _ => check = false | _ => True end.

Section Invariant.
Context (E : env).

Record core (s : sender) : Prop := {
  co_recv : k_recv s = m_nPendingRecv s /\ 0 <= m_nPendingRecv s <= 1;
  co_send : k_send s = m_nPendingSend s /\ 0 <= m_nPendingSend s;
  co_connect : 0 <= k_connect s /\ m_nPendingConnect s = 0;
  co_check : m_bCheckAvailable s = false /\ delay_tasks s = ∅ /\ m_nCheckAvailableTimerId s = 0;
  co_pending : 0 < m_nPendingRecv s \/ 0 < m_nPendingSend s -> is_bound (m_pSocket s);
  co_mode : working s \/ restarting s \/ closing s \/ closed s;
  co_made : m_eState s = SNDR_STATE_READING -> is_bound (m_pSocket s) \/ (sockets_made E -> False);
  co_ready : m_eState s = SNDR_STATE_READY -> is_bound (m_pSocket s) \/ m_pSocket s = NoSocket \/ (sockets_made E -> False);
  co_active : m_bInterfaceBindingActive s = true -> is_bound (m_pSocket s) \/ m_pSocket s = NoSocket;
  co_events : Forall plain_event (m_lstEvents s);
  co_ctrls : m_nCtrls s = true -> m_lstEvents s <> [] /\ running s = false /\ attached s = true;
  co_runs : attached s = true -> m_lstEvents s <> [] -> m_nCtrls s = true \/ running s = true;
  co_shut : shut s = true -> closed s /\ running s = false /\ k_connect s = 0
}.

(** After [_ExitCheck]: who has something to leave for waits for the kernel or for an event. *)
Definition rests (s : sender) : Prop :=
  (m_eState s = SNDR_STATE_READING -> m_nNewState s = SNDR_STATE_MAX) /\
  (m_eState s = SNDR_STATE_READY ->
     0 < m_nPendingRecv s \/ 0 < m_nPendingSend s \/ (m_pSocket s = NoSocket /\ m_lstEvents s <> [])).

(** Nothing is read that was not asked for. *)
Definition asked (w : world) (s : sender) : Prop :=
  0 < m_nPendingRecv s \/ SNDRM_START_RECV ∈ m_lstEvents s -> EvStartRecv ∈ trace w.

Definition ok (w : world) (s : sender) : Prop := core s /\ rests s /\ asked w s.

(** ** The group *)

Definition count_shut (l : list sender) : Z := zlen (List.filter shut l).

Record group (w : world) : Prop := {
  gr_some : 0 < zlen (senders w) < 2 ^ 32;
  gr_closed : closed_count_ w = count_shut (senders w);
  gr_told : OnUdpClosed ∈ trace w <-> Forall (fun s => shut s = true) (senders w);
  gr_settled : converged_ w = bool_decide (is_Some (winner_ w)) /\ winner_ w = first_recv (trace w);
  gr_winner : forall i, winner_ w = Some i -> (i < length (senders w))%nat;
  gr_ordered : ordered (trace w)
}.

Definition inv (w : world) : Prop := group w /\ forall i s, senders w !! i = Some s -> ok w s.

(** Inside a step of a sender that has not ended: the others are as they should be. *)
Record at_ (w : world) (i : nat) (s : sender) : Prop := {
  at_here : senders w !! i = Some s;
  at_open : shut s = false;
  at_group : group w;
  at_others : forall j s', j <> i -> senders w !! j = Some s' -> ok w s'
}.

Lemma at_begin w i s : inv w -> senders w !! i = Some s -> shut s = false -> at_ w i s /\ ok w s.
Proof. intros [Hg Ho] Hs Hsh. split; [|by apply (Ho i)]. split; [done..|]. intros j s' _. apply Ho. Qed.

Lemma at_end w i s : at_ w i s -> ok w s -> inv w.
Proof.
  intros [Hs _ Hg Ho] Hk. split; [done|]. intros j s' Hj. destruct (decide (j = i)) as [->|Hne]; [|by apply (Ho j)].
  rewrite Hs in Hj. by injection Hj as <-.
Qed.

Lemma at_not_told w i s : at_ w i s -> OnUdpClosed ∉ trace w.
Proof.
  intros H Hin. pose proof (proj1 (gr_told _ (at_group _ _ _ H)) Hin) as Hf. rewrite Forall_forall in Hf.
  pose proof (at_open _ _ _ H) as Ho. rewrite (Hf s) in Ho; [done|]. by eapply list_elem_of_lookup_2, at_here.
Qed.

Lemma all_shut l : Forall (fun b => b = true) (map shut l) <-> Forall (fun s => shut s = true) l.
Proof. apply Forall_fmap. Qed.

(** What leaves the senders' ends and the trace alone. *)
Lemma group_same w w' :
  group w -> converged_ w' = converged_ w -> winner_ w' = winner_ w -> closed_count_ w' = closed_count_ w -> trace w' = trace w ->
  map shut (senders w') = map shut (senders w) -> group w'.
Proof.
  intros [H1 H2 H3 H4 H6 H5] E1 E2 E3 E4 E5.
  assert (El : length (senders w') = length (senders w)) by by rewrite <- !(length_map shut), E5.
  assert (Ec : forall l l' : list sender, map shut l = map shut l' -> length (List.filter shut l) = length (List.filter shut l')).
  { induction l as [|a l IH]; intros [|b l'] [=]; [done|]. cbn. destruct (shut a), (shut b); cbn; try done; by rewrite (IH l'). }
  split.
  - unfold zlen in *. by rewrite El.
  - rewrite E3, H2. unfold count_shut, zlen. by rewrite (Ec (senders w') (senders w) E5).
  - rewrite E4, H3. by rewrite <- !all_shut, E5.
  - by rewrite E1, E2, E4.
  - by rewrite E2, El.
  - by rewrite E4.
Qed.

Lemma shut_alter f (l : list sender) : forall i s,
  l !! i = Some s -> shut (f s) = shut s -> map shut (alter f i l) = map shut l.
Proof.
  induction l as [|x l IH]; intros i s Hs Hf; [done|]. destruct i as [|i]; cbn in Hs |- *.
  - injection Hs as ->. by rewrite Hf.
  - f_equal. by apply (IH i s).
Qed.

Lemma ok_later w w' s : (EvStartRecv ∈ trace w -> EvStartRecv ∈ trace w') -> ok w s -> ok w' s.
Proof. intros H (Hc & Hr & Ha). split; [done|]. split; [done|]. intros Hx. by apply H, Ha. Qed.

(** ** Steps of a step *)

Definition set_sender (w : world) (i : nat) (f : sender -> sender) : world := w <| senders ::= alter f i |>.
Definition set_trace (w : world) (e : event) : world := w <| trace ::= fun t => t ++ [e] |>.

Lemma at_change w i s f : at_ w i s -> shut (f s) = shut s -> at_ (set_sender w i f) i (f s).
Proof.
  intros [Hs Ho Hg Hk] Hf. split.
  - cbn. rewrite list_lookup_alter_eq. by rewrite Hs.
  - by rewrite Hf.
  - apply (group_same w); try done. by apply (shut_alter f _ i s).
  - intros j s' Hj Hl. cbn in Hl. rewrite list_lookup_alter_ne in Hl by done. by apply (Hk j).
Qed.

Definition quiet (e : event) : bool := match e with OnRecvData _ _ | OnUdpClosed => false | _ => true end.

Lemma quiet_told l e : e <> OnUdpClosed -> OnUdpClosed ∈ l ++ [e] <-> OnUdpClosed ∈ l.
Proof. rewrite elem_of_app, list_elem_of_singleton. intros He. split; [intros [?|?]; [done|by subst]|by left]. Qed.

Lemma at_trace w i s e : at_ w i s -> admits (trace w) e -> quiet e = true -> at_ (set_trace w e) i s.
Proof.
  intros [Hs Ho [H1 H2 H3 H4 H6 H5] Hk] Ha Hq. split; [done..| |].
  - split; cbn; [done|done| | |done|].
    + rewrite <- H3. apply quiet_told. by intros ->.
    + rewrite first_recv_snoc. destruct H4 as [-> ->]. split; [done|]. by destruct (first_recv _), e.
    + by apply ordered_snoc.
  - intros j s' Hj Hl. apply (ok_later w); [|by apply (Hk j)]. intros Hin. cbn. apply elem_of_app. by left.
Qed.

Lemma at_tick w i s : at_ w i s -> at_ (w <| tick ::= S |>) i s.
Proof. intros [Hs Ho Hg Hk]. split; [done..| |done]. by apply (group_same w). Qed.

(** What the operations of a sender, its callbacks apart, leave of the trace. *)
Definition later (w w' : world) : Prop :=
  (exists l, trace w' = trace w ++ l) /\ first_recv (trace w') = first_recv (trace w) /\
  map shut (senders w') = map shut (senders w).

Lemma later_refl w : later w w.
Proof. split; [exists []; by rewrite app_nil_r|done]. Qed.

Lemma later_trans w1 w2 w3 : later w1 w2 -> later w2 w3 -> later w1 w3.
Proof.
  intros ((l & H1) & H2 & H3) ((l' & H1') & H2' & H3'). split; [exists (l ++ l'); by rewrite H1', H1, app_assoc|].
  split; congruence.
Qed.

Lemma later_set w i s f : senders w !! i = Some s -> shut (f s) = shut s -> later w (set_sender w i f).
Proof. intros Hs Hf. split; [exists []; by rewrite app_nil_r|]. split; [done|]. by apply (shut_alter f _ i s). Qed.

Lemma later_trace w e : quiet e = true -> later w (set_trace w e).
Proof.
  intros Hq. split; [by exists [e]|]. split; [|done]. cbn. rewrite first_recv_snoc. by destruct (first_recv _), e.
Qed.

Lemma later_tick w : later w (w <| tick ::= S |>).
Proof. split; [exists []; by rewrite app_nil_r|done]. Qed.

Lemma later_call w w' : later w w' -> EvStartRecv ∈ trace w -> EvStartRecv ∈ trace w'.
Proof. intros ((l & ->) & _) H. apply elem_of_app. by left. Qed.

Lemma does_change {B} w i s f (k : unit -> M B) Q :
  at_ w i s -> shut (f s) = shut s ->
  (forall w', at_ w' i (f s) -> later w w' -> trace w' = trace w -> does E (k tt) Q w') -> does E (bind (put i f) k) Q w.
Proof.
  intros H Hf Hk. apply does_update. apply Hk; [by apply at_change|by eapply later_set; [apply H|]|done].
Qed.

Lemma does_log {B} w i s e (k : unit -> M B) Q :
  at_ w i s -> admits (trace w) e -> quiet e = true ->
  (forall w', at_ w' i s -> later w w' -> trace w' = trace w ++ [e] -> does E (k tt) Q w') -> does E (bind (log e) k) Q w.
Proof.
  intros H Ha Hq Hk. apply does_update. apply Hk; [by apply at_trace|by apply later_trace|done].
Qed.

Lemma admits_plain w i s e : at_ w i s -> of_path e = None ->
  match e with OnRecvData _ _ | EvUnpin _ _ _ => False | _ => True end -> admits (trace w) e.
Proof.
  intros H Hp He. split; [by rewrite Hp|]. split; [intros _; by eapply at_not_told|]. by destruct e.
Qed.

Lemma does_answer {A B} w i s (f : nat -> A) (k : A -> M B) Q :
  at_ w i s -> (forall n w', at_ w' i s -> later w w' -> trace w' = trace w -> does E (k (f n)) Q w') -> does E (bind (ask f) k) Q w.
Proof. intros H Hk. apply does_oracle. intros n. apply Hk; [by apply at_tick|apply later_tick|done]. Qed.

Lemma does_read {A B} w i s (f : sender -> A) (k : A -> M B) Q :
  at_ w i s -> does E (k (f s)) Q w -> does E (bind (get i f) k) Q w.
Proof. intros H. eapply does_field, H. Qed.

(** [when] in front of what follows. *)
Lemma does_when {B} (w : world) (b : bool) (m : M unit) (k : unit -> M B) (Q : B -> world -> Prop) :
  (if b then does E (bind m k) Q w else does E (k tt) Q w) -> does E (bind (when b m) k) Q w.
Proof. destruct b; [done|]. intros H. apply does_seq. exact H. Qed.

Lemma bind_assoc {A B C} (m : M A) (k : A -> M B) (h : B -> M C) (w : world) :
  bind (bind m k) h w = bind m (fun a => bind (k a) h) w.
Proof. unfold bind. by destruct (m w) as [[a w']|]. Qed.

Lemma does_assoc {A B C} (m : M A) (k : A -> M B) (h : B -> M C) (Q : C -> world -> Prop) (w : world) :
  does E (bind m (fun a => bind (k a) h)) Q w -> does E (bind (bind m k) h) Q w.
Proof. unfold does. by rewrite bind_assoc. Qed.

End Invariant.
