(* ===== verification/UdpSteps.v ===== *)
(** * UdpSteps: what the operations of a UDP sender keep of the invariant

    The socket, closing and restarting, sending and connecting, the events of the queue and
    the completions of the kernel, each from a state in which the invariant of [UdpInvariant]
    holds. *)

From Stdlib Require Import ZArith Lia.
From stdpp Require Import base numbers option gmap list.
From S2P Require Import Prelude Results VpnPolicy SocketPinner BCFObject UdpSender UdpInvariant.

Section Steps.
Context (E : env).
Abbreviation at_ := (at_ E).
Abbreviation core := (core E).
Abbreviation ok := (ok E).
Abbreviation inv := (inv E).
Abbreviation does := (does E).

Lemma fault_wraps : known_fault E CountWraps.
Proof. by left. Qed.

Lemma fault_socket x : (sockets_made E -> False) -> x = NullSocket \/ x = BadSocket \/ x = UnboundSocket -> known_fault E x.
Proof. by right. Qed.

(** ** The socket *)

(** A sender with another socket. *)
Definition with_socket (sk : socket) (a : bool) (s : sender) : sender :=
  s <| m_bInterfaceBindingActive := a |> <| m_pSocket := sk |>.

Definition socket_given (r : BCRESULT) (sk : socket) : Prop :=
  if r =? BC_R_SUCCESS then is_bound sk else (sockets_made E -> False).

Lemma ends_put w i s f (Q : unit -> world -> Prop) :
  at_ w i s -> shut (f s) = shut s -> (forall w', at_ w' i (f s) -> later w w' -> trace w' = trace w -> Q tt w') -> does (put i f) Q w.
Proof. intros H Hf HQ. apply HQ; [by apply at_change|by eapply later_set; [apply H|]|done]. Qed.

Lemma ends_log w i s e (Q : unit -> world -> Prop) :
  at_ w i s -> admits (trace w) e -> quiet e = true ->
  (forall w', at_ w' i s -> later w w' -> trace w' = trace w ++ [e] -> Q tt w') -> does (log e) Q w.
Proof. intros H Ha Hq HQ. apply HQ; [by apply at_trace|by apply later_trace|done]. Qed.

Definition no_socket_now (s : sender) : sender := s <| m_pSocket := NoSocket |>.

Lemma no_socket_same s : m_pSocket s = NoSocket -> no_socket_now s = s.
Proof. intros Hs. destruct s. cbn in Hs. by subst. Qed.

Lemma DetachSocket_does w i s (Q : unit -> world -> Prop) :
  at_ w i s -> (m_pSocket s = Dangling -> sockets_made E -> False) ->
  (forall w', at_ w' i (no_socket_now s) -> later w w' -> trace w' = trace w -> Q tt w') -> does (DetachSocket i) Q w.
Proof.
  intros H Hd HQ. unfold DetachSocket. eapply does_read; [exact H|].
  assert (Hput : does (put i (fun s => s <| m_pSocket := NoSocket |>)) Q w).
  { eapply ends_put; [exact H|done|exact HQ]. }
  destruct (m_pSocket s) eqn:Es.
  - apply does_val, HQ; [by rewrite no_socket_same|apply later_refl|done].
  - unfold created_socket. apply does_assoc. eapply does_read; [exact H|]. rewrite Es. apply fault_socket; [by apply Hd|auto].
  - unfold created_socket. apply does_assoc. eapply does_read; [exact H|]. rewrite Es. exact Hput.
  - unfold created_socket. apply does_assoc. eapply does_read; [exact H|]. rewrite Es. exact Hput.
Qed.

Lemma open_socket_does w i s :
  at_ w i s ->
  does (open_socket E i) (fun r w' => exists sk a, at_ w' i (with_socket sk a s) /\ later w w' /\ socket_given r sk /\
                                        (a = true -> is_bound sk)) w.
Proof.
  intros H. unfold open_socket. eapply does_change; [exact H|done|]. intros w1 H1 L1 _.
  eapply does_read; [exact H1|]. eapply does_answer; [exact H1|]. intros n w2 H2 L2 _.
  assert (L : later w w2) by by eapply later_trans. clear H1 L1 L2 w1.
  destruct (Z.eqb_spec (socket_create E n) BC_R_SUCCESS) as [Hr|Hr]; cbn [negb].
  2:{ exists Dangling, false. split; [exact H2|]. split; [done|]. unfold socket_given. rewrite (proj2 (Z.eqb_neq _ _) Hr).
      split; [|done]. intros (Hm & _). by apply Hr. }
  eapply does_answer; [exact H2|]. intros n' w3 H3 L3 _. eapply does_change; [exact H3|done|]. intros w4 H4 L4 _. cbv zeta.
  assert (L' : later w w4) by (eapply later_trans; [|exact L4]; by eapply later_trans). clear H2 L L3 L4 H3 w2 w3.
  match goal with |- does (if negb ?b then _ else _) _ _ => destruct b eqn:Hp end; cbn [negb].
  2:{ exists (Unbound (socket_fd E n')), false. split; [exact H4|]. split; [done|]. split; [|done]. intros (_ & _ & Hm).
      revert Hp. cbn. destruct (host (m_sConfig s)), (m_bBindIP s); try done. by rewrite Hm. }
  eapply does_answer; [exact H4|]. intros m w5 H5 L5 _. assert (L : later w w5) by by eapply later_trans. clear H4 L' L5 w4 Hp.
  destruct (Z.eqb_spec (socket_bind E m) BC_R_SUCCESS) as [Hb|Hb]; cbn [negb].
  2:{ apply does_seq. eapply DetachSocket_does; [exact H5|done|]. intros w6 H6 L6 _.
      exists NoSocket, false. split; [exact H6|]. split; [by eapply later_trans|]. unfold socket_given.
      rewrite (proj2 (Z.eqb_neq _ _) Hb). split; [|done]. intros (_ & Hm & _). by apply Hb. }
  eapply does_answer; [exact H5|]. intros n2 w6 H6 L6 _. set (out := tt_socket_pin _ _ _ _ _ _ _).
  eapply does_change; [exact H6|done|]. intros w7 H7 L7 _.
  eapply does_log; [exact H7|by eapply admits_plain|done|]. intros w8 H8 L8 _.
  assert (L' : later w w8) by (do 3 (eapply later_trans; [|eassumption]); done). clear H5 L H6 L6 H7 L7 L8 w5 w6 w7. cbn in H8.
  apply does_when. destruct (bool_decide _).
  - eapply does_change; [exact H8|done|]. intros w9 H9 L9 _. eexists (Bound _ _), true. split; [exact H9|].
    split; [by eapply later_trans|]. done.
  - eexists (Bound _ _), false. split; [exact H8|]. done.
Qed.

Lemma InitSocket_does w i s :
  at_ w i s ->
  does (InitSocket E i) (fun r w' => exists sk a, at_ w' i (with_socket sk a s) /\ later w w' /\ socket_given r sk /\
                                       (a = true -> is_bound sk)) w.
Proof.
  intros H. unfold InitSocket. eapply does_then; [by apply open_socket_does|]. intros r w1 (sk & a & H1 & L1 & Hr & Ha).
  eapply does_log; [exact H1|by eapply admits_plain|done|]. intros w2 H2 L2 _. exists sk, a. split; [exact H2|].
  split; [by eapply later_trans|done].
Qed.

Lemma created_does {B} w i s (k : unit -> M B) Q :
  at_ w i s -> is_bound (m_pSocket s) \/ (m_pSocket s <> NoSocket /\ (sockets_made E -> False)) ->
  does (k tt) Q w -> does (bind (created_socket i) k) Q w.
Proof.
  intros H Hs HQ. unfold created_socket. apply does_assoc. eapply does_read; [exact H|].
  destruct (m_pSocket s); cbn in Hs; try exact HQ; apply fault_socket; auto; by destruct Hs as [?|[? ?]].
Qed.

Lemma bound_does {B} w i s (k : bindings -> M B) Q :
  at_ w i s -> is_bound (m_pSocket s) \/ (sockets_made E -> False) ->
  (forall b, is_bound (m_pSocket s) -> does (k b) Q w) -> does (bind (bound_socket i) k) Q w.
Proof.
  intros H Hs HQ. unfold bound_socket. apply does_assoc. eapply does_read; [exact H|].
  destruct (m_pSocket s); cbn in *; try (apply fault_socket; [by destruct Hs|auto]). by apply HQ.
Qed.

(** ** Closing and restarting *)

(** The sender may be heard of: there is no winner, or it is the winner. *)
Definition may_speak (w : world) (i : nat) : Prop := forall j, first_recv (trace w) = Some j -> i = j.

Lemma path_open w i s : at_ w i s -> negb (converged_ w) || is_winner w i = true -> may_speak w i.
Proof.
  intros H Hok j Hj. destruct (gr_settled _ (at_group _ _ _ _ H)) as [Hc Hw]. rewrite <- Hw in Hj.
  rewrite Hc, Hj in Hok. unfold is_winner in Hok. rewrite Hj in Hok. cbn in Hok. apply bool_decide_eq_true in Hok. congruence.
Qed.

Lemma admits_path w i s e : at_ w i s -> may_speak w i -> of_path e = Some i ->
  match e with OnRecvData _ _ | EvUnpin _ _ _ => False | _ => True end -> admits (trace w) e.
Proof.
  intros H Hm Hp He. split; [rewrite Hp; intros ? j [= <-]; apply Hm|]. split; [intros _; by eapply at_not_told|]. by destruct e.
Qed.

Lemma OnSenderRestart_does w i s r :
  at_ w i s -> does (OnSenderRestart i r) (fun _ w' => at_ w' i s /\ later w w') w.
Proof.
  intros H. unfold OnSenderRestart. apply does_look. destruct (_ || _) eqn:Hok; cbn [when]; [|split; [done|apply later_refl]].
  eapply ends_log; [exact H|eapply admits_path; [exact H|by eapply path_open|done..]|done|]. auto.
Qed.

Lemma restarted_does w i s r (Q : unit -> world -> Prop) :
  at_ w i s ->
  (forall w', at_ w' i (s <| m_nPendingRestart ::= fun n => u32 (n - 1) |> <| m_bCheckAvailable := false |>) -> later w w' -> Q tt w') ->
  does (restarted i r) Q w.
Proof.
  intros H HQ. unfold restarted. eapply does_change; [exact H|done|]. intros w1 H1 L1 _.
  eapply does_weaken; [by apply OnSenderRestart_does|]. intros [] w2 [H2 L2]. apply HQ; [done|by eapply later_trans].
Qed.

(** A restart of what does not check its availability. *)
Lemma Restart_does w i s f :
  at_ w i s -> m_bCheckAvailable s = false ->
  does (Restart_with E f i)
    (fun _ w' => exists sk a, (is_bound sk \/ (sockets_made E -> False)) /\ (a = true -> is_bound sk) /\ later w w' /\
       at_ w' i (with_socket sk a s <| m_nPendingRestart ::= fun n => u32 (n - 1) |> <| m_bCheckAvailable := false |>)) w.
Proof.
  intros H Hn. unfold Restart_with. eapply does_then; [by apply InitSocket_does|]. intros r w1 (sk & a & H1 & L1 & Hr & Ha). unfold socket_given in Hr.
  destruct (Z.eqb_spec r BC_R_SUCCESS) as [->|Hne]; cbn [negb].
  - eapply does_read; [exact H1|]. cbn [m_bCheckAvailable with_socket]. change (m_bCheckAvailable (with_socket sk a s)) with (m_bCheckAvailable s).
    rewrite Hn. cbn [negb]. eapply restarted_does; [exact H1|]. intros w2 H2 L2. exists sk, a.
    split; [by left|]. split; [done|]. split; [by eapply later_trans|done].
  - eapply restarted_does; [exact H1|]. intros w2 H2 L2. exists sk, a.
    split; [by right|]. split; [done|]. split; [by eapply later_trans|done].
Qed.

(** What [_ExitCheck] leaves of a sender. *)
Record kept (s s' : sender) : Prop := {
  ke_events : m_lstEvents s' = m_lstEvents s;
  ke_ctrls : m_nCtrls s' = m_nCtrls s;
  ke_running : running s' = running s;
  ke_connect : k_connect s' = k_connect s;
  ke_recv : m_nPendingRecv s' = m_nPendingRecv s;
  ke_send : m_nPendingSend s' = m_nPendingSend s;
  ke_policy : m_eVpnPolicy s' = m_eVpnPolicy s;
  ke_config : m_sConfig s' = m_sConfig s;
  ke_new : m_nNewState s = SNDR_STATE_FREED -> m_nNewState s' = SNDR_STATE_FREED
}.

Definition exited (w : world) (i : nat) (s : sender) (b : bool) (w' : world) : Prop :=
  exists s', at_ w' i s' /\ ok w' s' /\ later w w' /\ kept s s' /\
    (if b then m_eState s' <> SNDR_STATE_READING else working s') /\ (working s -> s' = s /\ w' = w).

Lemma does_assert {B} (w : world) (b : bool) (k : unit -> M B) (Q : B -> world -> Prop) : b = true -> does (k tt) Q w -> does (bind (assert_ b) k) Q w.
Proof. by intros ->. Qed.

Lemma exited_intro w0 i s0 (b : bool) w' s' :
  asked w0 s0 -> at_ w' i s' -> core s' -> rests s' -> later w0 w' -> kept s0 s' ->
  (if b then m_eState s' <> SNDR_STATE_READING else working s') -> (working s0 -> False) -> exited w0 i s0 b w'.
Proof.
  intros Ha H Hc Hr L K Hb Hn. exists s'. split; [done|]. split; [|by split_and!].
  split; [done|]. split; [done|]. intros Hx. eapply later_call, Ha; [done|]. by rewrite <- (ke_recv _ _ K), <- (ke_events _ _ K).
Qed.

Definition detached (s : sender) : sender := s <| delay_tasks := ∅ |> <| attached := false |>.

Lemma exit_inactive_does w0 w i s s0 :
  asked w0 s0 -> at_ w i s -> m_eState s = SNDR_STATE_INACTIVE -> m_nNewState s = SNDR_STATE_FREED ->
  m_nCheckAvailableTimerId s = 0 -> core (detached s) -> later w0 w -> kept s0 (detached s) -> (working s0 -> False) ->
  does (exit_inactive i) (exited w0 i s0) w.
Proof.
  intros Ha H Hi Hf Ht Hc L K Hn. unfold exit_inactive.
  eapply does_read; [exact H|]. rewrite Hi. cbn [Z.eqb SNDR_STATE_INACTIVE Pos.eqb]. apply does_assert; [by rewrite Hf|].
  unfold unschedule_check. apply does_assoc. eapply does_read; [exact H|]. rewrite Ht.
  cbn [Z.ltb Z.compare when]. unfold DetachQueue. eapply does_change; [exact H|done|]. intros w1 H1 L1 E1.
  eapply exited_intro; try done; [|by eapply later_trans|by cbn; rewrite Hi]. split; cbn; by rewrite Hi.
Qed.

(** A sender whose queue is detached as it lets its socket go. *)
Definition ended (s : sender) : sender := detached (no_socket_now s <| m_eState := SNDR_STATE_INACTIVE |>).

Lemma core_ended s : core s -> closing s -> m_nPendingRecv s = 0 -> m_nPendingSend s = 0 -> m_nCtrls s = false -> core (ended s).
Proof.
  intros [C1 C2 C3 (C4 & C5 & C6) C7 C8 C9 C10 C11 C12 C13 C14 C15] (_ & Hf & Hr & Ha) Hp Hs Hx. split; cbn; try done.
  - lia.
  - right; right; right. by split_and!.
  - auto.
  - by rewrite Hx.
  - intros Hsh. destruct (C15 Hsh) as ((Hi & _ & _ & Hd & _) & _). congruence.
Qed.

Lemma core_let_go s : core s -> m_eState s = SNDR_STATE_READY -> m_nPendingRecv s = 0 -> m_nPendingSend s = 0 -> core (no_socket_now s).
Proof.
  intros [C1 C2 C3 C4 C7 C8 C9 C10 C11 C12 C13 C14 C15] Hst Hp Hs. split; cbn; auto.
  - lia.
  - unfold working, restarting, closing, closed in *. cbn. destruct C8 as [?|[?|[?|(Hi & _)]]]; auto. by rewrite Hst in Hi.
  - by rewrite Hst.
  - intros Hy. destruct (C15 Hy) as ((Hi & _) & _). by rewrite Hst in Hi.
Qed.

(** A sender whose restart was done. *)
Definition restarted_with (sk : socket) (a : bool) (s : sender) : sender :=
  with_socket sk a s <| m_nPendingRestart := 0 |> <| m_bCheckAvailable := false |> <| m_eState := SNDR_STATE_READING |>
    <| m_nNewState := SNDR_STATE_MAX |> <| m_nCloseStatus := BC_R_SUCCESS |>.

Lemma core_restarted sk a s :
  core s -> restarting s -> m_nPendingRecv s = 0 -> m_nPendingSend s = 0 ->
  is_bound sk \/ (sockets_made E -> False) -> (a = true -> is_bound sk) -> core (restarted_with sk a s) /\ working (restarted_with sk a s).
Proof.
  intros [C1 C2 C3 (C4 & C5 & C6) C7 C8 C9 C10 C11 C12 C13 C14 C15] (_ & Hf & Hr & Ha) Hp Hs Hsk Hact.
  assert (Hw : working (restarted_with sk a s)) by by split_and!. split; [|done]. split; cbn; try done; auto.
  - lia.
  - intros Hsh. destruct (C15 Hsh) as ((Hi & _ & _ & Hd & _) & _). congruence.
Qed.

(** ** [_ExitCheck] *)

Lemma exit_ready_does d w0 w i s s0 :
  asked w0 s0 -> at_ w i s -> core s -> m_eState s = SNDR_STATE_READY -> later w0 w -> kept s0 s -> (working s0 -> False) ->
  does (exit_ready (Restart_with E (ExitCheck_rec E d)) i) (exited w0 i s0) w.
Proof.
  intros Ha H Hc Hst L K Hn. pose proof Hc as [C1 C2 C3 (C4 & C5 & C6) C7 C8 C9 C10 C11 C12 C13 C14 C15].
  assert (Hmode : restarting s \/ closing s).
  { destruct C8 as [(Hx & _)|[?|[?|(Hx & _)]]]; auto; by rewrite Hst in Hx. }
  unfold exit_ready. eapply does_read; [exact H|]. rewrite Hst. cbn [Z.eqb SNDR_STATE_READY Pos.eqb].
  apply does_assert; [by destruct Hmode as [(_ & -> & _)|(_ & -> & _)]|].
  destruct ((m_nPendingRecv s =? 0) && (m_nPendingSend s =? 0)) eqn:Hp; cbn [negb].
  2:{ eapply exited_intro; try done; [|by rewrite Hst]. split; [by rewrite Hst|]. intros _.
      apply andb_false_iff in Hp as [Hp|Hp]; apply Z.eqb_neq in Hp; lia. }
  apply andb_true_iff in Hp as [Hp1%Z.eqb_eq Hp2%Z.eqb_eq].
  apply does_seq. eapply DetachSocket_does; [exact H| |].
  { intros Hd. destruct (C10 Hst) as [Hb|[Hb|Hb]]; [by rewrite Hd in Hb|by rewrite Hd in Hb|exact Hb]. }
  intros w1 H1 L1 _. assert (L' : later w0 w1) by by eapply later_trans. clear L L1 H w.
  destruct (m_nCtrls s) eqn:Hx.
  { eapply (exited_intro w0 i s0 true w1 (no_socket_now s)); try done.
    - by apply core_let_go.
    - split; cbn; [by rewrite Hst|]. intros _. right; right. split; [done|]. by apply C13.
    - destruct K. by split.
    - cbn. by rewrite Hst. }
  eapply does_change; [exact H1|done|]. intros w2 H2 L2 _. assert (L : later w0 w2) by by eapply later_trans. clear L2 L' H1 w1.
  destruct Hmode as [Hm|Hm].
  - pose proof Hm as (_ & Hnew & Hr & Hat). rewrite Hnew. cbn [Z.eqb SNDR_STATE_INACTIVE Pos.eqb]. rewrite Hr. cbn [Z.ltb Z.compare when].
    apply does_assoc. unfold unschedule_check. apply does_assoc. eapply does_read; [exact H2|].
    match goal with |- does (bind (when ?b _) _) _ _ => assert (Hb : b = false) by by cbn; rewrite C6 end. rewrite Hb. cbn [when].
    apply does_seq, does_val, does_assoc. eapply does_then; [by apply Restart_does|]. intros [] w3 (sk & a & Hsk & Hact & L3 & H3).
    apply does_assoc. eapply does_change; [exact H3|done|]. intros w4 H4 L4 _. unfold set_state. eapply does_change; [exact H4|done|]. intros w5 H5 L5 _.
    destruct (core_restarted sk a s Hc Hm Hp1 Hp2 Hsk Hact) as [Hc' Hw'].
    assert (L' : later w0 w5) by (do 3 (eapply later_trans; [|eassumption]); done).
    assert (Es : at_ w5 i (restarted_with sk a s)).
    { clear -H5 Hr. unfold restarted_with, with_socket. destruct s. cbn in *. subst. exact H5. }
    eapply exited_intro; [done|exact Es|done|split; [done|]|done| |done|done].
    + cbn. done.
    + destruct K. split; try done. cbn. intros Hf. specialize (ke_new0 Hf). by rewrite Hnew in ke_new0.
  - pose proof Hm as (_ & Hnew & Hr & Hat). rewrite Hnew. cbn [Z.eqb SNDR_STATE_INACTIVE SNDR_STATE_FREED Pos.eqb].
    eapply exit_inactive_does; try done; [exact (core_ended s Hc Hm Hp1 Hp2 Hx)|]. destruct K. by split.
Qed.

Lemma kept_self s : kept s s.
Proof. by split. Qed.

Lemma cancel_does w i s b (Q : unit -> world -> Prop) :
  at_ w i s -> (b = true -> is_bound (m_pSocket s)) -> (forall w', at_ w' i s -> later w w' -> Q tt w') ->
  does (when b (CancelSocket i)) Q w.
Proof.
  intros H Hb HQ. destruct b; [|apply HQ; [done|apply later_refl]]. unfold CancelSocket.
  eapply created_does; [exact H|left; by apply Hb|]. eapply ends_log; [exact H|by eapply admits_plain|done|]. auto.
Qed.

Definition set_ready (s : sender) : sender := s <| m_eState := SNDR_STATE_READY |>.

Lemma core_set_ready s : core s -> m_eState s = SNDR_STATE_READING -> m_nNewState s <> SNDR_STATE_MAX -> core (set_ready s).
Proof.
  intros [C1 C2 C3 C4 C7 C8 C9 C10 C11 C12 C13 C14 C15] Hst Hn. split; cbn; auto.
  - unfold working, restarting, closing, closed in *. cbn. destruct C8 as [(_ & ? & _)|[(_ & ?)|[(_ & ?)|(Hi & _)]]].
    + done.
    + right; left. split; [by right|done].
    + right; right; left. split; [by right|done].
    + by rewrite Hst in Hi.
  - intros _. destruct (C9 Hst); auto.
  - intros Hy. destruct (C15 Hy) as ((Hi & _) & _). by rewrite Hst in Hi.
Qed.

Lemma ExitCheck_does w i s :
  at_ w i s -> core s -> asked w s -> does (ExitCheck E i) (exited w i s) w.
Proof.
  intros H Hc Ha. unfold ExitCheck. generalize 1%nat as d. intros d. cbn [ExitCheck_rec].
  eapply does_read; [exact H|]. pose proof Hc as [C1 C2 C3 (C4 & C5 & C6) C7 C8 C9 C10 C11 C12 C13 C14 C15].
  assert (Hleaving : (m_eState s = SNDR_STATE_READING \/ m_eState s = SNDR_STATE_READY) ->
                     m_nNewState s = SNDR_STATE_INACTIVE \/ m_nNewState s = SNDR_STATE_FREED ->
    does (if m_eState s <=? m_nNewState s then ret false
          else assert_ (m_nNewState s <? SNDR_STATE_READING);; exit_reading i;;
               exit_ready (Restart_with E (ExitCheck_rec E d)) i) (exited w i s) w).
  { intros Hst Hnew. assert (Hle : (m_eState s <=? m_nNewState s) = false) by by destruct Hst as [-> | ->], Hnew as [-> | ->].
    rewrite Hle. apply does_assert; [by destruct Hnew as [-> | ->]|].
    assert (Hnw : working s -> False) by (intros (_ & Hw & _); rewrite Hw in Hnew; by destruct Hnew).
    unfold exit_reading. apply does_assoc. eapply does_read; [exact H|]. destruct Hst as [Hst|Hst]; rewrite Hst; cbn [Z.eqb SNDR_STATE_READING SNDR_STATE_READY Pos.eqb when].
    2:{ apply does_seq, does_val. eapply exit_ready_does; try done; apply later_refl. }
    apply does_assoc, does_assert; [by destruct Hnew as [-> | ->]|].
    apply does_assoc. apply does_seq. eapply cancel_does; [exact H|intros Hb%Z.ltb_lt; apply C7; by left|]. intros w1 H1 L1.
    apply does_assoc, does_seq. eapply cancel_does; [exact H1|intros Hb%Z.ltb_lt; apply C7; by right|]. intros w2 H2 L2.
    eapply does_change; [exact H2|done|]. intros w3 H3 L3 _. fold (set_ready s) in H3.
    eapply exit_ready_does; [exact Ha|exact H3| |done| |by split|exact Hnw].
    - apply core_set_ready; [done..|]. by destruct Hnew as [-> | ->].
    - do 2 (eapply later_trans; [|eassumption]). done. }
  destruct C8 as [Hm|[(Hst & Hnew & _)|[(Hst & Hnew & _)|Hm]]]; [| |by apply Hleaving; auto|].
  - pose proof Hm as (Hst & Hnew & _). rewrite Hst, Hnew. cbn [Z.leb Z.compare SNDR_STATE_READING SNDR_STATE_MAX Pos.compare Pos.compare_cont].
    exists s. split; [done|]. split; [split; [done|]; split; [|done]; split; by rewrite Hst|]. split; [apply later_refl|].
    split; [apply kept_self|]. done.
  - apply Hleaving; auto.
  - pose proof Hm as (Hst & Hnew & Hr & Hat & Hsk & Hp & Hs). rewrite Hst, Hnew. cbn [Z.leb Z.compare SNDR_STATE_INACTIVE SNDR_STATE_FREED].
    apply does_assert; [done|]. unfold exit_reading. apply does_assoc. eapply does_read; [exact H|]. rewrite Hst. cbn [Z.eqb SNDR_STATE_READING SNDR_STATE_INACTIVE Pos.eqb when].
    apply does_seq, does_val. unfold exit_ready. eapply does_read; [exact H|]. rewrite Hst. cbn [Z.eqb SNDR_STATE_READY SNDR_STATE_INACTIVE Pos.eqb].
    assert (Es : detached s = s) by (destruct s; cbn in *; by subst).
    eapply exit_inactive_does; [exact Ha|exact H|exact Hst|exact Hnew|exact C6|by rewrite Es|apply later_refl|rewrite Es; apply kept_self|]. intros (Hx & _). by rewrite Hst in Hx.
Qed.


(** ** A sender that has ended *)

Lemma set_same w i s f : senders w !! i = Some s -> f s = s -> set_sender w i f = w.
Proof.
  intros Hs Hf. destruct w. unfold set_sender, update. cbn in *. f_equal. revert i Hs.
  induction senders as [|x l IH]; intros [|i] Hs; cbn in *; [done..| |].
  - injection Hs as ->. by rewrite Hf.
  - f_equal. by apply IH.
Qed.

Lemma exit_shut w i s : inv w -> senders w !! i = Some s -> shut s = true -> ExitCheck E i w = inl (true, w).
Proof.
  intros [_ Ho] Hs Hsh. destruct (Ho i s Hs) as [Hc _]. destruct (co_shut _ _ Hc Hsh) as ((Hi & Hf & Hr & Hat & Hsk & _) & _).
  pose proof (co_check _ _ Hc) as (_ & Hd & Ht).
  assert (Hget : forall {A} (f : sender -> A), get i f w = inl (f s, w)) by (intros; unfold get; by rewrite Hs).
  unfold ExitCheck. cbn [ExitCheck_rec]. unfold bind at 1. rewrite Hget, Hi, Hf. cbn [Z.leb Z.compare SNDR_STATE_INACTIVE SNDR_STATE_FREED].
  unfold bind at 1. cbn. unfold bind at 1, exit_reading. unfold bind at 1. rewrite Hget, Hi. cbn.
  unfold exit_ready. unfold bind at 1. rewrite Hget, Hi. cbn. unfold exit_inactive. unfold bind at 1. rewrite Hget, Hi, Hf. cbn.
  unfold bind at 1, unschedule_check. unfold bind at 1. cbn. unfold bind at 1. rewrite Hget, Ht. cbn. unfold bind, DetachQueue, put, puts, ret.
  do 2 f_equal. fold (set_sender w i (fun s => s <| delay_tasks := ∅ |> <| attached := false |>)). eapply set_same; [exact Hs|].
  destruct s. cbn in *. by subst.
Qed.

(** ** Reading *)

Lemma rests_working s : working s -> rests s.
Proof. intros (Hst & Hnew & _). split; rewrite Hst; done. Qed.

Lemma does_increment {B} w i s count set_count (k : unit -> M B) Q :
  at_ w i s -> (forall n, shut (set_count n s) = shut s) ->
  (forall w', at_ w' i (set_count (count s + 1) s) -> later w w' -> trace w' = trace w -> does (k tt) Q w') ->
  does (bind (increment i count set_count) k) Q w.
Proof.
  intros H Hs Hk. unfold increment. apply does_assoc. eapply does_read; [exact H|]. destruct (_ <? _); [|exact fault_wraps].
  eapply does_change; [exact H|by apply Hs|exact Hk].
Qed.

Definition goes_well (w : world) (i : nat) (w' : world) : Prop := exists s', at_ w' i s' /\ ok w' s' /\ later w w'.

Lemma goes_well_later w1 w2 i w3 : later w1 w2 -> goes_well w2 i w3 -> goes_well w1 i w3.
Proof. intros L (s & H & Hk & L'). exists s. split; [done|]. split; [done|]. by eapply later_trans. Qed.

Lemma does_exit {B} w i s (k : bool -> M B) Q :
  at_ w i s -> core s -> asked w s -> (forall b w', exited w i s b w' -> does (k b) Q w') -> does (bind (ExitCheck E i) k) Q w.
Proof. intros H Hc Ha Hk. eapply does_then; [by apply ExitCheck_does|]. exact Hk. Qed.

(** What ends with [_ExitCheck]. *)
Lemma ends_exit w i s : at_ w i s -> core s -> asked w s -> does (ExitCheck E i;; ret tt) (fun _ w' => goes_well w i w') w.
Proof.
  intros H Hc Ha. eapply does_exit; [done..|]. intros b w' (s' & H' & Hk & L & _). exists s'. by split.
Qed.

Definition receiving (s : sender) : sender := s <| m_nPendingRecv := 1 |> <| k_recv := 1 |>.

Lemma core_receiving s : core s -> working s -> m_nPendingRecv s = 0 -> is_bound (m_pSocket s) -> core (receiving s).
Proof.
  intros [C1 C2 C3 C4 C7 C8 C9 C10 C11 C12 C13 C14 C15] Hw Hn Hb. split; cbn; auto.
  - lia.
  - intros Hsh. destruct (C15 Hsh) as ((Hi & _) & _). destruct Hw as [Hst _]. by rewrite Hst in Hi.
Qed.

Lemma RecvChunk_does w i s :
  at_ w i s -> core s -> asked w s -> EvStartRecv ∈ trace w -> does (UDP_RecvChunk E i) (fun _ w' => goes_well w i w') w.
Proof.
  intros H Hc Ha Hin. unfold UDP_RecvChunk, UDP_RecvChunk_with. eapply does_exit; [done..|]. intros b w1 (s1 & H1 & Hk1 & L1 & K1 & Hb & _).
  eapply does_read; [exact H1|]. destruct b; cbn [orb]; [exists s1; by split|]. destruct (Z.ltb_spec 0 (m_nPendingRecv s1)); [exists s1; by split|].
  destruct Hk1 as (Hc1 & Hr1 & Ha1). eapply bound_does; [exact H1|apply (co_made _ _ Hc1), Hb|]. intros _ Hbd.
  eapply does_answer; [exact H1|]. intros n w2 H2 L2 E2.
  assert (Hn : m_nPendingRecv s1 = 0) by (pose proof (co_recv _ _ Hc1); lia).
  assert (L : later w w2) by by eapply later_trans.
  assert (Hin2 : EvStartRecv ∈ trace w2) by by eapply later_call.
  apply does_when. destruct (_ || _).
  - eapply does_increment; [exact H2|done|]. intros w3 H3 L3 E3.
    assert (Es : at_ w3 i (receiving s1)).
    { clear -H3 Hn Hc1. destruct (co_recv _ _ Hc1) as [Hk _]. unfold receiving. destruct s1. cbn in *. subst. exact H3. }
    eapply does_weaken; [eapply ends_exit; [exact Es|by apply core_receiving|intros _; by rewrite E3]|].
    intros [] w4 H4. eapply goes_well_later; [|exact H4]. by eapply later_trans.
  - eapply does_weaken; [eapply ends_exit; [exact H2|done|intros _; by rewrite E2 in *]|].
    intros [] w4 H4. by eapply goes_well_later.
Qed.

(** ** Sending *)

Definition sending (s : sender) : sender := s <| m_nPendingSend ::= Z.succ |> <| k_send ::= Z.succ |>.

Lemma core_sending s : core s -> working s -> is_bound (m_pSocket s) -> core (sending s).
Proof.
  intros [C1 C2 C3 C4 C7 C8 C9 C10 C11 C12 C13 C14 C15] Hw Hb. split; cbn; auto.
  - lia.
  - intros Hsh. destruct (C15 Hsh) as ((Hi & _) & _). destruct Hw as [Hst _]. by rewrite Hst in Hi.
Qed.

Lemma UDP_Send_does w i s data :
  at_ w i s -> ok w s -> working s -> may_speak w i -> does (UDP_Send E i data) (fun _ w' => goes_well w i w') w.
Proof.
  intros H (Hc & Hr & Ha) Hw Hm. unfold UDP_Send. eapply bound_does; [exact H|apply (co_made _ _ Hc), Hw|]. intros b Hb.
  eapply does_answer; [exact H|]. intros n w1 H1 L1 E1. apply does_when. destruct (_ || _).
  - apply does_assoc. eapply does_log; [exact H1|eapply admits_path; [exact H1|by unfold may_speak; rewrite E1|done..]|done|]. intros w2 H2 L2 E2.
    eapply does_increment; [exact H2|done|]. intros w3 H3 L3 E3.
    assert (Es : at_ w3 i (sending s)).
    { clear -H3 Hc. destruct (co_send _ _ Hc) as [Hk _]. unfold sending. destruct s. cbn in *. subst. exact H3. }
    exists (sending s). split; [exact Es|]. split; [|do 2 (eapply later_trans; [|eassumption]); done].
    split; [by apply core_sending|]. split; [by apply rests_working|]. intros Hx. rewrite E3, E2, E1. apply elem_of_app. left. by apply Ha.
  - exists s. split; [done|]. split; [|done]. split; [done|]. split; [done|]. unfold asked. by rewrite E1.
Qed.

(** What an operation of one of the senders keeps of the group. *)
Definition stays (w w' : world) : Prop := inv w' /\ later w w'.

Lemma stays_refl w : inv w -> stays w w.
Proof. split; [done|apply later_refl]. Qed.

Lemma stays_trans w1 w2 w3 : stays w1 w2 -> stays w2 w3 -> stays w1 w3.
Proof. intros [_ L] [H L']. split; [done|by eapply later_trans]. Qed.

Lemma goes_stays w i w' : goes_well w i w' -> stays w w'.
Proof. intros (s & H & Hk & L). split; [by eapply at_end|done]. Qed.

(** A call that begins with [_ExitCheck], on a sender that may have ended. *)
Lemma begins_exit {A} w i s (k : bool -> M A) :
  inv w -> senders w !! i = Some s ->
  (shut s = true -> does (k true) (fun _ w' => stays w w') w) ->
  (forall b w', exited w i s b w' -> does (k b) (fun _ w'' => stays w w'') w') ->
  does (bind (ExitCheck E i) k) (fun _ w' => stays w w') w.
Proof.
  intros H Hs Hsh Hk. destruct (shut s) eqn:Es.
  - unfold bind. unfold does, UdpInvariant.does. rewrite (exit_shut w i s H Hs Es). by apply Hsh.
  - destruct (at_begin E w i s H Hs Es) as [Ha (Hc & _ & Hx)]. by eapply does_exit.
Qed.

Lemma exited_stays w i s b w' : exited w i s b w' -> stays w w'.
Proof. intros (s' & H & Hk & L & _). eapply goes_stays. by exists s'. Qed.

Lemma SenderSend_does w i s data :
  inv w -> senders w !! i = Some s -> may_speak w i -> does (SenderSend E i data) (fun _ w' => stays w w') w.
Proof.
  intros H Hs Hm. unfold SenderSend. eapply begins_exit; [exact H|exact Hs|intros _; by apply stays_refl|].
  intros b w' Hx. pose proof (exited_stays _ _ _ _ _ Hx) as Hst. destruct b; [exact Hst|].
  destruct Hx as (s' & H' & Hk & L & _ & Hw & _). eapply does_weaken; [eapply UDP_Send_does; [exact H'|exact Hk|exact Hw|]|].
  - unfold may_speak. destruct L as (_ & -> & _). exact Hm.
  - intros r w'' Hg. eapply stays_trans; [exact Hst|eapply goes_stays, Hg].
Qed.

(** ** The pin *)

Definition repinned (s s' : sender) : Prop :=
  s' = s \/ (is_bound (m_pSocket s) /\ exists sk, is_bound sk /\ s' = with_socket sk false s) \/
  (m_pSocket s = NoSocket /\ s' = with_socket NoSocket false s).

Lemma core_repinned s s' : core s -> repinned s s' -> core s'.
Proof.
  intros [C1 C2 C3 C4 C7 C8 C9 C10 C11 C12 C13 C14 C15] [->|[(Hb & sk & Hsk & ->)|(Hb & ->)]]; split; cbn; auto; try done.
  - unfold working, restarting, closing, closed in *. cbn. destruct C8 as [?|[?|[?|(? & ? & ? & ? & Hn & _)]]]; auto. by rewrite Hn in Hb.
  - intros Hsh. destruct (C15 Hsh) as ((? & ? & ? & ? & Hn & _) & _). by rewrite Hn in Hb.
  - intros Hp. rewrite Hb in C7. exact (C7 Hp).
  - unfold working, restarting, closing, closed in *. cbn. destruct C8 as [?|[?|[?|(? & ? & ? & ? & ? & ? & ?)]]]; auto 10.
  - intros Hst. specialize (C9 Hst). by rewrite Hb in C9.
  - intros Hsh. destruct (C15 Hsh) as ((? & ? & ? & ? & ? & ? & ?) & ? & ?). by split_and!.
Qed.

Lemma repinned_events s s' : repinned s s' ->
  m_lstEvents s' = m_lstEvents s /\ m_nPendingRecv s' = m_nPendingRecv s /\ m_eState s' = m_eState s /\ m_nNewState s' = m_nNewState s /\
  m_nPendingSend s' = m_nPendingSend s /\ (m_pSocket s = NoSocket -> m_pSocket s' = NoSocket) /\ attached s' = attached s /\
  m_nPendingRestart s' = m_nPendingRestart s /\ k_connect s' = k_connect s /\ (is_bound (m_pSocket s) -> is_bound (m_pSocket s')).
Proof. intros [->|[(Hb & sk & Hsk & ->)|(Hb & ->)]]; split_and!; try done; cbn; intros Hx; first [by rewrite Hx in Hb|by rewrite Hb in Hx]. Qed.

Lemma TryClear_does w i s why :
  at_ w i s -> core s -> (m_eVpnPolicy s = TT_VPN_POLICY_FORCE_PHYSICAL -> exists r, why = SendError r /\ unreachable r = true) ->
  does (TryClearInterfaceBinding E i why) (fun _ w' => exists s', at_ w' i s' /\ repinned s s' /\ later w w') w.
Proof.
  intros H Hc Hp. assert (Hstay : exists s', at_ w i s' /\ repinned s s' /\ later w w).
  { exists s. split; [done|]. split; [by left|apply later_refl]. }
  assert (Hdo : does (s <- get i (fun s => s);;
      if negb (m_bInterfaceBindingActive s) then ret false
      else
        match m_pSocket s with
        | NoSocket => ret false
        | Dangling => fail BadSocket
        | Unbound fd | Bound fd _ =>
            if fd <? 0 then put i (fun s => s <| m_bInterfaceBindingActive := false |>);; ret false
            else
              out <- ask (fun n => tt_socket_unpin (setsockopt E n) (platform_is E) fd (ipv6 (m_sConfig s)) 32);;
              put i (fun s => s <| m_bInterfaceBindingActive := false |>
                                <| m_pSocket ::= fun sk => match sk with
                                                           | Bound fd b => Bound fd (bound_after b (po_calls out))
                                                           | sk => sk
                                                           end |>);;
              log (EvUnpin i (m_eVpnPolicy s) why);;
              ret true
        end) (fun _ w' => exists s', at_ w' i s' /\ repinned s s' /\ later w w') w).
  2:{ unfold TryClearInterfaceBinding. by destruct (platform_is E). }
  eapply does_read; [exact H|]. destruct (m_bInterfaceBindingActive s) eqn:Ea; cbn [negb]; [|exact Hstay].
  destruct (co_active _ _ Hc Ea) as [Hb|Hb]; [|rewrite Hb; exact Hstay].
  destruct (m_pSocket s) as [| |fd|fd b] eqn:Es; [exact Hstay|done|done|]. destruct (fd <? 0).
  - eapply does_change; [exact H|done|]. intros w1 H1 L1 _. exists (with_socket (Bound fd b) false s). split; [|split; [|done]].
    + clear -H1 Es. destruct s. cbn in *. subst. exact H1.
    + right; left. rewrite Es. split; [done|]. by exists (Bound fd b).
  - eapply does_answer; [exact H|]. intros n w1 H1 L1 E1. set (out := tt_socket_unpin _ _ _ _ _).
    eapply does_change; [exact H1|done|]. intros w2 H2 L2 E2.
    eapply does_log; [exact H2| |done|].
    + split; [done|]. split; [intros _; by eapply at_not_told|]. exact Hp.
    + intros w3 H3 L3 _. exists (with_socket (Bound fd (bound_after b (po_calls out))) false s). split; [|split].
      * clear -H3 Es. destruct s. cbn in *. subst. exact H3.
      * right; left. rewrite Es. split; [done|]. eexists. by split; [|done].
      * do 2 (eapply later_trans; [|eassumption]). done.
Qed.

(** ** Connecting *)

Lemma recheck_does w i s addr :
  at_ w i s -> core s -> does (recheck_pin E i addr) (fun _ w' => exists s', at_ w' i s' /\ repinned s s' /\ later w w') w.
Proof.
  intros H Hc. unfold recheck_pin. eapply does_read; [exact H|].
  assert (Hstay : forall w', at_ w' i s -> later w w' -> exists s', at_ w' i s' /\ repinned s s' /\ later w w').
  { intros w' H' L. exists s. split; [done|]. split; [by left|done]. }
  destruct (m_bInterfaceBindingActive s) eqn:Ea; cbn [when]; [|apply does_val, Hstay; [done|apply later_refl]].
  eapply does_answer; [exact H|]. intros n w1 H1 L1 _. eapply does_answer; [exact H1|]. intros n' w2 H2 L2 _.
  assert (L : later w w2) by by eapply later_trans. destruct (bool_decide (_ = TT_PIN_VERDICT_UNPIN) && _) eqn:Eb; [|by apply Hstay].
  apply andb_true_iff in Eb as [_ Hf]. apply negb_true_iff, bool_decide_eq_false in Hf.
  assert (Hclear : does (TryClearInterfaceBinding E i RouteRecheck;; ret tt) (fun _ w' => exists s', at_ w' i s' /\ repinned s s' /\ later w w') w2).
  { eapply does_then; [by eapply TryClear_does|]. intros b w3 (s' & H3 & R & L3). exists s'. split; [done|].
    split; [done|by eapply later_trans]. }
  destruct (platform_is E); [by apply Hstay|exact Hclear|by apply Hstay|exact Hclear|by apply Hstay].
Qed.

Definition connected (g : socket -> socket) (s : sender) : sender := s <| k_connect ::= Z.succ |> <| m_pSocket ::= g |>.

Lemma core_connected g s : core s -> working s -> (forall sk, is_bound sk \/ sk = NoSocket -> g sk = sk) -> core (connected g s).
Proof.
  intros [C1 C2 C3 C4 C7 C8 C9 C10 C11 C12 C13 C14 C15] Hw Hg.
  assert (Hb : is_bound (m_pSocket s) -> is_bound (g (m_pSocket s))) by (intros Hb; by rewrite Hg; auto).
  split; cbn; auto.
  - lia.
  - intros Hst. destruct (C9 Hst); auto.
  - intros Hst. destruct Hw as [Hx _]. by rewrite Hx in Hst.
  - intros Ha. destruct (C11 Ha) as [?|Hn]; auto. right. rewrite Hg; auto.
  - intros Hsh. destruct (C15 Hsh) as ((Hi & _) & _). destruct Hw as [Hst _]. by rewrite Hst in Hi.
Qed.

Lemma working_repinned s s' : working s -> repinned s s' -> working s'.
Proof.
  intros (H1 & H2 & H3 & H4) R. destruct (repinned_events _ _ R) as (_ & _ & E1 & E2 & _ & _ & E3 & E4 & _).
  split_and!; congruence.
Qed.

Lemma SenderConnect_does w i s addr :
  inv w -> senders w !! i = Some s -> does (SenderConnect E i addr) (fun _ w' => stays w w') w.
Proof.
  intros H Hs. unfold SenderConnect. eapply begins_exit; [exact H|exact Hs|intros _; eapply does_field; [exact Hs|]; exact (stays_refl w H)|].
  intros b w1 Hx. pose proof (exited_stays _ _ _ _ _ Hx) as Hst. destruct Hx as (s1 & H1 & (Hc & _ & Ha) & L1 & _ & Hb & _).
  eapply does_read; [exact H1|]. destruct b; cbn [orb]; [exact Hst|]. destruct (no_socket (m_pSocket s1)) eqn:En; [exact Hst|].
  eapply does_then; [by apply recheck_does|]. intros [] w2 (s2 & H2 & R & L2).
  pose proof (core_repinned _ _ Hc R) as Hc2. pose proof (working_repinned _ _ Hb R) as Hw2. pose proof (co_made _ _ Hc (proj1 Hb)) as Hm.
  destruct (repinned_events _ _ R) as (Ev & Er & _ & _ & _ & _ & _ & _ & _ & Ebd).
  assert (Hk : is_bound (m_pSocket s2) \/ m_pSocket s2 <> NoSocket /\ (sockets_made E -> False)).
  { destruct Hm as [Hm|Hm]; [left; by apply Ebd|]. destruct R as [->|[(Hbd & _)|(Hn & _)]]; [|left; by apply Ebd|by rewrite Hn in En].
    right. split; [by intros Hn; rewrite Hn in En|done]. }
  eapply created_does; [exact H2|exact Hk|]. eapply does_answer; [exact H2|]. intros n w3 H3 L3 E3.
  assert (L : later w w3) by (do 2 (eapply later_trans; [|eassumption]); done).
  assert (Ha3 : forall s', m_nPendingRecv s' = m_nPendingRecv s2 -> m_lstEvents s' = m_lstEvents s2 -> asked w3 s').
  { intros s' E4 E5 Hx. rewrite E3. eapply later_call; [exact L2|]. apply Ha. by rewrite <- Er, <- Ev, <- E4, <- E5. }
  apply does_when. destruct (_ =? _).
  - eapply does_change; [exact H3|done|]. intros w4 H4 L4 E4. apply (goes_stays w i). eexists. split; [exact H4|]. split; [|by eapply later_trans].
    split; [|split].
    + apply (core_connected (fun sk => match sk with Unbound fd => if (socket_connect E n).2 : bool then Bound fd unbound else Unbound fd | sk => sk end) s2); [done..|].
      by intros [| | |] [?|?].
    + by apply rests_working.
    + unfold asked. rewrite E4. by apply Ha3.
  - apply (goes_stays w i). exists s2. split; [done|]. split; [|done]. split; [done|]. split; [by apply rests_working|by apply Ha3].
Qed.

(** ** What the group does to all its senders *)

Lemma inv_set w i s f : inv w -> senders w !! i = Some s -> shut (f s) = shut s -> ok w (f s) -> stays w (set_sender w i f).
Proof.
  intros [Hg Ho] Hs Hf Hk. split; [|by eapply later_set]. split.
  - apply (group_same w); try done. by apply (shut_alter f _ i s).
  - intros j s' Hj. cbn in Hj. destruct (decide (i = j)) as [<-|Hne].
    + rewrite list_lookup_alter_eq, Hs in Hj. injection Hj as <-. exact Hk.
    + rewrite list_lookup_alter_ne in Hj by done. by apply (Ho j).
Qed.

Lemma stays_lookup w w' i : stays w w' -> is_Some (senders w !! i) -> is_Some (senders w' !! i).
Proof.
  intros [_ (_ & _ & Hm)] Hlt%lookup_lt_is_Some. apply lookup_lt_is_Some. rewrite <- (length_map shut), Hm, length_map. done.
Qed.

Lemma on_each_does (P : world -> Prop) call fine w :
  (forall w w', P w -> later w w' -> P w') ->
  (forall i w s, inv w -> P w -> senders w !! i = Some s -> does (call i) (fun _ w' => stays w w') w) ->
  inv w -> P w -> does (on_each call fine) (fun _ w' => stays w w') w.
Proof.
  intros HP Hcall H HPw. unfold on_each. apply does_look.
  assert (Hrec : forall n i last w, inv w -> P w -> (i + n <= length (senders w))%nat ->
            does (each_sender call fine n i last) (fun _ w' => stays w w') w).
  { clear w H HPw. induction n as [|n IH]; intros i last w H HPw Hl; cbn [each_sender]; [by apply stays_refl|].
    destruct (lookup_lt_is_Some_2 (senders w) i ltac:(lia)) as [s Hs].
    eapply does_then; [by eapply Hcall|]. cbn beta. intros r w1 Hst.
    eapply does_weaken; [apply IH; [apply Hst|eapply HP; [exact HPw|apply Hst]|]|].
    - destruct Hst as [_ (_ & _ & Hm)]. rewrite <- (length_map shut), Hm, length_map. lia.
    - intros a w2 Hst2. by eapply stays_trans. }
  by apply Hrec.
Qed.

Lemma PostEvent_does w i s e :
  inv w -> senders w !! i = Some s -> plain_event e -> (e = SNDRM_START_RECV -> EvStartRecv ∈ trace w) ->
  does (PostEvent i e) (fun _ w' => stays w w') w.
Proof.
  intros H Hs Hp He. destruct (proj2 H i s Hs) as (Hc & Hr & Ha). pose proof Hc as [C1 C2 C3 C4 C7 C8 C9 C10 C11 C12 C13 C14 C15].
  unfold PostEvent, put, puts. apply (inv_set w i s); [done..|]. split; [|split].
  - split; cbn; auto.
    + apply Forall_app. split; [done|by repeat constructor].
    + intros Hx. split; [by destruct (m_lstEvents s)|]. destruct (m_nCtrls s); [by destruct (C13 eq_refl)|]. cbn in Hx.
      apply andb_true_iff in Hx as [Hat Hrun%negb_true_iff]. done.
    + intros Hat _. destruct (m_nCtrls s); [by left|]. cbn. rewrite Hat. cbn. destruct (running s); auto.
  - destruct Hr as [Hr1 Hr2]. split; cbn; [exact Hr1|]. intros Hst. destruct (Hr2 Hst) as [?|[?|[? _]]]; auto. right; right. split; [done|].
    by destruct (m_lstEvents s).
  - unfold asked in *. cbn. rewrite elem_of_app, list_elem_of_singleton. intros [?|[?|?]]; auto.
Qed.

Lemma posts_does (P : world -> Prop) e w : (forall w w', P w -> later w w' -> P w') -> inv w -> P w -> plain_event e ->
  (forall w, P w -> e = SNDRM_START_RECV -> EvStartRecv ∈ trace w) -> does (on_each (posts e) is_success) (fun _ w' => stays w w') w.
Proof.
  intros HP H HPw Hp He. eapply (on_each_does P); [done| |done|done]. intros i w1 s H1 HP1 Hs. unfold posts.
  eapply does_then; [eapply PostEvent_does; [exact H1|exact Hs|exact Hp|by apply He]|]. intros [] w2 H2. exact H2.
Qed.

End Steps.
