(* ===== verification/UdpGroup.v ===== *)
(** * UdpGroup: what every step of a group of UDP senders keeps of the invariant

    The calls of the user, the callbacks with the calls made inside them, the completions of
    the kernel, the ends of the queues, and so every world that can be reached. *)

From Stdlib Require Import ZArith Lia.
From stdpp Require Import base numbers option gmap list.
From S2P Require Import Prelude Results VpnPolicy SocketPinner BCFObject UdpSender UdpInvariant UdpSteps.

Section Group.
Context (E : env).
Abbreviation at_ := (at_ E).
Abbreviation core := (core E).
Abbreviation ok := (ok E).
Abbreviation inv := (inv E).
Abbreviation does := (does E).
Abbreviation stays := (stays E).

(** ** The user's calls *)

Lemma inv_trace w e : inv w -> admits (trace w) e -> quiet e = true -> stays w (set_trace w e).
Proof.
  intros [[H1 H2 H3 H4 H6 H5] Ho] Ha Hq. split; [|by apply later_trace]. split.
  - split; cbn; [done|done| | |done|].
    + rewrite <- H3. apply quiet_told. by intros ->.
    + rewrite first_recv_snoc. destruct H4 as [-> ->]. split; [done|]. by destruct (first_recv _), e.
    + by apply ordered_snoc.
  - intros i s Hs. apply (ok_later E w); [|by apply (Ho i)]. intros Hin. cbn. apply elem_of_app. by left.
Qed.

Lemma inv_tick w : inv w -> stays w (w <| tick ::= S |>).
Proof. intros [Hg Ho]. split; [|apply later_tick]. split; [by apply (group_same w)|done]. Qed.

Lemma StartRecv_admitted w : admits (trace w) EvStartRecv.
Proof. by split_and!. Qed.

Lemma GroupSend_does w data : inv w -> does (GroupSend E data) (fun _ w' => stays w w') w.
Proof.
  intros H. unfold GroupSend. apply does_look. destruct (gr_settled _ (proj1 H)) as [Hc Hw].
  destruct (if converged_ w then winner_ w else None) as [i|] eqn:Ei.
  - destruct (converged_ w); [|done]. destruct (lookup_lt_is_Some_2 (senders w) i) as [s Hs]; [by apply (gr_winner _ (proj1 H))|].
    eapply SenderSend_does; [done|exact Hs|]. intros j Hj. rewrite <- Hw, Ei in Hj. by injection Hj.
  - assert (Hn : first_recv (trace w) = None).
    { rewrite <- Hw. destruct (winner_ w); [|done]. by rewrite Hc in Ei. }
    eapply (on_each_does E (fun w => first_recv (trace w) = None)); [|by intros i w1 s H1 Hf Hs; eapply SenderSend_does; [done|exact Hs|]; intros j; rewrite Hf|done|done].
    intros w1 w2 H1 (_ & -> & _). exact H1.
Qed.

Lemma user_call_does w a : inv w -> does (user_call E a) (fun _ w' => stays w w') w.
Proof.
  intros H.
  assert (Hend : forall (m : M BCRESULT), does m (fun _ w' => stays w w') w -> does (m;; ret tt) (fun _ w' => stays w w') w).
  { intros m Hm. eapply does_then; [exact Hm|]. intros r w' Hw. exact Hw. }
  destruct a as [h|addr| |data|p|]; cbn [user_call]; apply Hend.
  - unfold GroupRestart. eapply (posts_does E (fun _ => True)); [done|exact H|done|done|]. intros w1 _ Hx. discriminate Hx.
  - eapply (on_each_does E (fun _ => True)); [done| |done|done]. intros i w1 s H1 _ Hs. by eapply SenderConnect_does.
  - unfold GroupStartRecv. pose proof (inv_trace w EvStartRecv H (StartRecv_admitted w) eq_refl) as Hst.
    apply does_update. eapply does_weaken; [eapply (posts_does E (fun w => EvStartRecv ∈ trace w)); [|apply Hst| |done|done]|].
    + intros w1 w2 H1 L. by eapply later_call.
    + cbn. apply elem_of_app. right. by apply list_elem_of_singleton.
    + intros r w2 H2. by eapply stays_trans.
  - by apply GroupSend_does.
  - eapply (on_each_does E (fun _ => True)); [done| |done|done]. intros i w1 s H1 _ Hs.
    apply does_update. apply (inv_set E w1 i s); [done..|]. destruct (proj2 H1 i s Hs) as (Hc & Hr & Ha). split; [|split; [exact Hr|exact Ha]].
    destruct Hc. by split.
  - by eapply (posts_does E (fun _ => True)).
Qed.

Lemma calls_does l : forall w, inv w -> does (each (user_call E) l) (fun _ w' => stays w w') w.
Proof.
  induction l as [|a l IH]; intros w H; cbn [each]; [by apply stays_refl|].
  eapply does_then; [by apply user_call_does|]. intros [] w1 H1. eapply does_weaken; [apply IH, H1|].
  intros [] w2 H2. by eapply stays_trans.
Qed.

(** ** Callbacks *)

Lemma notified w e : inv (set_trace w e) -> does (notify E e) (fun _ w' => stays (set_trace w e) w') w.
Proof.
  intros H. unfold notify. apply does_update, does_oracle. intros n.
  pose proof (inv_tick _ H) as Ht. eapply does_weaken; [apply calls_does, Ht|]. intros [] w' H'. exact (stays_trans E _ _ _ Ht H').
Qed.

Lemma OnSenderSendData_does w i s n : at_ w i s -> ok w s -> does (OnSenderSendData E i n) (fun _ w' => stays w w') w.
Proof.
  intros H Hk. pose proof (at_end E w i s H Hk) as Hi. unfold OnSenderSendData. apply does_look.
  destruct (_ || _) eqn:Hok; cbn [when]; [|by apply stays_refl].
  assert (Hst : stays w (set_trace w (OnSendData i n))).
  { apply inv_trace; [done| |done]. eapply admits_path; [exact H|by eapply path_open|done..]. }
  eapply does_weaken; [apply notified, Hst|]. intros [] w' H'. by eapply stays_trans.
Qed.

(** What goes on after a callback: the sender that made it has not ended. *)
Definition after (w w' : world) : Prop :=
  inv w' /\ (exists l, trace w' = trace w ++ l) /\ map shut (senders w') = map shut (senders w).

Lemma stays_after w w' : stays w w' -> after w w'.
Proof. intros [H (L & _ & M)]. by split. Qed.

Lemma after_trans w1 w2 w3 : after w1 w2 -> after w2 w3 -> after w1 w3.
Proof.
  intros (_ & (l & H1) & M1) (H & (l' & H2) & M2). split; [done|]. split; [exists (l ++ l'); by rewrite H2, H1, app_assoc|congruence].
Qed.

Lemma after_open w w' i s : after w w' -> senders w !! i = Some s -> shut s = false ->
  exists s', at_ w' i s' /\ ok w' s'.
Proof.
  intros (H & _ & Hm) Hs Ho.
  assert (Hf : map shut (senders w') !! i = Some false) by by rewrite Hm, list_lookup_fmap, Hs; cbn; rewrite Ho.
  rewrite list_lookup_fmap in Hf. destruct (senders w' !! i) as [s'|] eqn:Hs'; [|done]. cbn in Hf. injection Hf as Hf.
  exists s'. by apply at_begin.
Qed.

Lemma OnSenderRecvData_does w i s data r :
  at_ w i s -> ok w s -> EvStartRecv ∈ trace w -> EvRecvDone i r ∈ trace w -> r = BC_R_SUCCESS \/ data = [] ->
  does (OnSenderRecvData E i data) (fun _ w' => after w w') w.
Proof.
  intros H Hk Hs Hd Hr. unfold OnSenderRecvData. apply does_look. destruct (gr_settled _ (at_group _ _ _ _ H)) as [Hc Hw].
  assert (Hadm : admits (trace w) (OnRecvData i data)).
  { split; [done|]. split; [intros _; by eapply at_not_told|]. split; [done|]. by exists r. }
  pose proof (at_end E w i s H Hk) as [[G1 G2 G3 _ G6 G5] Ho].
  assert (Hok : forall w', trace w' = trace w ++ [OnRecvData i data] -> senders w' = senders w ->
            (forall j s', senders w' !! j = Some s' -> ok w' s')).
  { intros w' Et Es j s' Hj. rewrite Es in Hj. apply (ok_later E w); [|by apply (Ho j)]. intros _. rewrite Et. apply elem_of_app. by left. }
  assert (Hgr : forall w', trace w' = trace w ++ [OnRecvData i data] -> senders w' = senders w -> closed_count_ w' = closed_count_ w ->
            (winner_ w' = match winner_ w with Some j => Some j | None => Some i end) -> converged_ w' = true -> inv w').
  { intros w' Et Es Ec Ew Ev. split; [|by apply Hok]. split.
    - by rewrite Es.
    - by rewrite Es, Ec.
    - rewrite Et, Es, <- G3. by apply quiet_told.
    - rewrite Ev, Ew, Et, first_recv_snoc, <- Hw. by destruct (winner_ w).
    - rewrite Es, Ew. intros j. destruct (winner_ w) eqn:E1; [by apply G6|]. intros [= <-]. by eapply lookup_lt_Some, (at_here _ _ _ _ H).
    - rewrite Et. by apply ordered_snoc. }
  assert (Hgo : forall w', senders w' = senders w -> closed_count_ w' = closed_count_ w -> trace w' = trace w ->
            (winner_ w' = match winner_ w with Some j => Some j | None => Some i end) -> converged_ w' = true ->
            does (notify E (OnRecvData i data)) (fun _ w'' => after w w'') w').
  { intros w' Es Ec Et Ew Ev. assert (Hi : inv (set_trace w' (OnRecvData i data))).
    { apply Hgr; cbn; try done. by rewrite Et. }
    eapply does_weaken; [by apply notified|]. intros [] w'' Hw''. eapply after_trans; [|by apply stays_after].
    split; [exact Hi|]. cbn. rewrite Et, Es. split; [by eexists|done]. }
  apply does_when. destruct (converged_ w) eqn:Ec; cbn [negb].
  - apply Hgo; try done. symmetry in Hc. apply bool_decide_eq_true in Hc as [j Hj]. by rewrite Hj.
  - apply does_update. apply Hgo; try done. cbn. symmetry in Hc. apply bool_decide_eq_false in Hc.
    destruct (winner_ w); [|done]. destruct Hc. by eexists.
Qed.

(** ** The end of a step *)

Lemma ends_well w i w1 : goes_well E w i w1 -> does (ExitCheck E i;; ret tt) (fun _ w' => stays w w') w1.
Proof.
  intros (s & H & (Hc & _ & Ha) & L). eapply does_weaken; [by eapply ends_exit|]. intros [] w2 H2.
  eapply goes_stays. by eapply goes_well_later.
Qed.

Lemma ends_after w i s w1 : senders w !! i = Some s -> shut s = false -> after w w1 ->
  does (ExitCheck E i;; ret tt) (fun _ w' => after w w') w1.
Proof.
  intros Hs Ho Ha. destruct (after_open w w1 i s Ha Hs Ho) as (s1 & H1 & (Hc & _ & Hx)).
  eapply does_weaken; [by eapply ends_exit|]. intros [] w2 H2. eapply after_trans; [exact Ha|]. apply stays_after. by eapply goes_stays.
Qed.

(** ** The events of the queue *)

Definition told_to (st : Z) (status : BCRESULT) (s : sender) : sender := s <| m_nNewState := st |> <| m_nCloseStatus := status |>.

Lemma core_freed s r : core s -> working s \/ closing s -> core (told_to SNDR_STATE_FREED r s).
Proof.
  intros [C1 C2 C3 C4 C7 C8 C9 C10 C11 C12 C13 C14 C15] Hm. split; cbn; auto.
  - right; right; left. unfold closing. cbn. destruct Hm as [(-> & _ & ? & ?)|(? & _ & ? & ?)]; auto.
  - intros Hsh. destruct (C15 Hsh) as ((Hi & _) & _). destruct Hm as [(Hst & _)|([Hst|Hst] & _)]; by rewrite Hst in Hi.
Qed.

Lemma core_restart s h : core s -> working s ->
  core (told_to SNDR_STATE_INACTIVE BC_R_SUCCESS s <| m_nPendingRestart ::= fun n => u32 (n + 1) |> <| m_bCheckAvailable := false |>
          <| m_nNetworkHandle := h |> <| m_nRecvDataCount := 0 |>).
Proof.
  intros [C1 C2 C3 (_ & C5 & C6) C7 C8 C9 C10 C11 C12 C13 C14 C15] (Hst & _ & Hr & Hat). split; cbn; auto.
  - right; left. unfold restarting. cbn. rewrite Hr. auto.
  - intros Hsh. destruct (C15 Hsh) as ((Hi & _) & _). by rewrite Hst in Hi.
Qed.

Lemma OnEventProcess_does w w0 i s e :
  at_ w i s -> core s -> asked w s -> plain_event e -> (e = SNDRM_START_RECV -> EvStartRecv ∈ trace w) ->
  later w0 w -> does (OnEventProcess E i e) (fun _ w' => stays w0 w') w.
Proof.
  intros H Hc Ha Hp He L0. unfold OnEventProcess. eapply does_exit; [done..|]. intros b w1 (s1 & H1 & (Hc1 & Hr1 & Ha1) & L1 & _ & Hb & _).
  assert (Hend : forall w', goes_well E w1 i w' -> does (ExitCheck E i;; ret tt) (fun _ w'' => stays w0 w'') w').
  { intros w' (s' & H' & Hk' & L'). apply (ends_well w0). exists s'. split; [done|]. split; [done|]. do 2 (eapply later_trans; [|eassumption]). done. }
  assert (Hlast : forall s' w', at_ w' i s' -> core s' -> asked w' s' -> later w1 w' -> does (ExitCheck E i;; ret tt) (fun _ w'' => stays w0 w'') w').
  { intros s' w' H' Hc' Ha' L'. eapply does_weaken; [by eapply ends_exit|]. intros [] w2 Hg. eapply (goes_stays E w0 i).
    eapply goes_well_later; [|exact Hg]. do 2 (eapply later_trans; [|eassumption]). done. }
  destruct b; [apply (goes_stays E w0 i); exists s1; split; [done|]; split; [done|by eapply later_trans]|].
  destruct e as [h n| | |check h]; [done| | |].
  - eapply does_then; [eapply RecvChunk_does; [done..|eapply later_call; [done|by apply He]]|]. intros [] w2. apply Hend.
  - unfold set_state. eapply does_change; [exact H1|done|]. intros w2 H2 L2 E2. eapply Hlast; [exact H2| | |done].
    + apply core_freed; auto.
    + unfold asked. by rewrite E2.
  - cbn in Hp. subst check. pose proof Hb as (_ & _ & Hn & _). apply does_assoc. eapply does_read; [exact H1|]. rewrite Hn. cbn [Z.eqb when].
    apply does_assoc. unfold set_state. eapply does_change; [exact H1|done|]. intros w2 H2 L2 E2.
    eapply does_change; [exact H2|done|]. intros w3 H3 L3 E3. eapply Hlast; [exact H3|exact (core_restart s1 h Hc1 Hb)| |by eapply later_trans].
    unfold asked. cbn. rewrite E3, E2. exact Ha1.
Qed.

(** ** Completions *)

Lemma core_received s : core s -> core (s <| k_recv ::= Z.pred |> <| m_nPendingRecv := 0 |>) \/ k_recv s = 0.
Proof.
  intros [C1 C2 C3 C4 C7 C8 C9 C10 C11 C12 C13 C14 C15]. destruct (Z.eq_dec (k_recv s) 0) as [|Hn]; [by right|]. left.
  split; cbn; auto.
  - lia.
  - intros [?|?]; [lia|auto].
  - unfold working, restarting, closing, closed in *. cbn. destruct C8 as [?|[?|[?|(? & ? & ? & ? & ? & Hx & _)]]]; auto. lia.
  - intros Hsh. destruct (C15 Hsh) as ((_ & _ & _ & _ & _ & Hx & _) & _). lia.
Qed.

Lemma open_pending s : core s -> 0 < k_recv s \/ 0 < k_send s \/ 0 < k_connect s \/ running s = true -> shut s = false.
Proof.
  intros Hc Hk. destruct (shut s) eqn:Hsh; [|done]. destruct (co_shut _ _ Hc Hsh) as ((_ & _ & _ & _ & _ & H1 & H2) & H3 & H4).
  pose proof (co_recv _ _ Hc). pose proof (co_send _ _ Hc). destruct Hk as [?|[?|[?|?]]]; [lia..|congruence].
Qed.

Lemma mode_free s : core s -> m_nPendingRestart s = 0 -> m_eState s <> SNDR_STATE_INACTIVE -> working s \/ closing s.
Proof.
  intros Hc Hr Hi. destruct (co_mode _ _ Hc) as [?|[(_ & _ & Hx & _)|[?|(Hx & _)]]]; auto; [lia|done].
Qed.

(** What a completion's error does. *)
Lemma freed_does {B} w i s (b : bool) r (k : unit -> M B) Q :
  at_ w i s -> core s -> m_eState s <> SNDR_STATE_INACTIVE -> (b = true -> m_nPendingRestart s = 0) ->
  (forall s' w', at_ w' i s' -> core s' -> later w w' -> trace w' = trace w -> m_nPendingRecv s' = m_nPendingRecv s ->
     m_lstEvents s' = m_lstEvents s -> does (k tt) Q w') ->
  does (bind (when b (when (negb (transient r)) (set_state i SNDR_STATE_FREED r))) k) Q w.
Proof.
  intros H Hc Hi Hb Hk. apply does_when. destruct b; [|by apply (Hk s w); [..|apply later_refl| | |]].
  apply does_when. destruct (negb _); [|by apply (Hk s w); [..|apply later_refl| | |]].
  unfold set_state. eapply does_change; [exact H|done|]. intros w1 H1 L1 E1. eapply Hk; [exact H1| |done..].
  apply core_freed; [done|]. by apply mode_free; [..|apply Hb|].
Qed.

Lemma RecvDone_does w i s r data :
  inv w -> senders w !! i = Some s -> 0 < k_recv s -> does (RecvDoneCallback E i r data) (fun _ w' => after w w') w.
Proof.
  intros Hinv Hs Hk. destruct (proj2 Hinv i s Hs) as (Hc & _ & Ha).
  assert (Ho : shut s = false) by (apply open_pending; auto). destruct (at_begin E w i s Hinv Hs Ho) as [H _].
  destruct (core_received s Hc) as [Hc1|]; [|lia]. pose proof (co_recv _ _ Hc) as Hpr.
  assert (Hin : EvStartRecv ∈ trace w) by (apply Ha; left; lia).
  assert (Hst : m_eState s <> SNDR_STATE_INACTIVE).
  { intros Hi. destruct (co_mode _ _ Hc) as [(Hx & _)|[([Hx|Hx] & _)|[([Hx|Hx] & _)|(_ & _ & _ & _ & _ & Hx & _)]]]; try (by rewrite Hi in Hx). lia. }
  unfold RecvDoneCallback. eapply does_change; [exact H|done|]. intros w1 H1 L1 E1.
  eapply does_log; [exact H1|by eapply admits_plain|done|]. intros w2 H2 L2 E2. eapply does_read; [exact H2|].
  apply does_assert; [apply Z.eqb_eq; cbn; lia|]. eapply does_change; [exact H2|done|]. intros w3 H3 L3 E3.
  assert (L : later w w3) by (do 2 (eapply later_trans; [|eassumption]); done).
  eapply freed_does; [exact H3|exact Hc1|exact Hst|by intros [_ Hx%Z.eqb_eq]%andb_true_iff|].
  intros s4 w4 H4 Hc4 L4 E4 Er4 Ee4. assert (L' : later w w4) by by eapply later_trans. clear L1 L2 L3 H1 H2 H3 Hc1.
  assert (Hin4 : EvStartRecv ∈ trace w4) by by eapply later_call.
  assert (Hrd : EvRecvDone i r ∈ trace w4) by (rewrite E4, E3, E2; apply elem_of_app; right; by apply list_elem_of_singleton).
  eapply does_exit; [exact H4|exact Hc4|by intros _|]. intros b w5 (s5 & H5 & (Hc5 & Hr5 & Ha5) & L5 & _).
  assert (La : later w w5) by by eapply later_trans.
  destruct b; [apply stays_after, (goes_stays E w i); by exists s5|].
  assert (Hgrow : forall e, e ∈ trace w4 -> forall w', later w4 w' -> e ∈ trace w') by (intros e He w' ((l & ->) & _); apply elem_of_app; by left).
  eapply does_then; [eapply RecvChunk_does; [done..|by apply (Hgrow EvStartRecv)]|]. intros [] w6 (s6 & H6 & (Hc6 & Hr6 & Ha6) & L6).
  unfold OnDataRecv. apply does_assoc. eapply does_change; [exact H6|done|]. intros w7 H7 L7 E7.
  assert (Lb : later w4 w7) by (do 2 (eapply later_trans; [|eassumption]); done).
  eapply does_then.
  - eapply (OnSenderRecvData_does w7 i _ (if r =? BC_R_SUCCESS then data else []) r); [exact H7| |by apply (Hgrow EvStartRecv)|by apply (Hgrow (EvRecvDone i r))|].
    + split; [destruct Hc6; by split|]. split; [exact Hr6|]. unfold asked. rewrite E7. exact Ha6.
    + destruct (Z.eqb_spec r BC_R_SUCCESS); auto.
  - intros [] w8 H8. eapply (ends_after w i s); [done..|]. eapply after_trans; [|exact H8]. apply stays_after. split; [|exact (later_trans _ _ _ L' Lb)].
    eapply at_end; [exact H7|]. split; [destruct Hc6; by split|]. split; [exact Hr6|]. unfold asked. rewrite E7. exact Ha6.
Qed.

Lemma core_sent s : core s -> 0 < k_send s -> core (s <| k_send ::= Z.pred |> <| m_nPendingSend ::= Z.pred |>).
Proof.
  intros [C1 C2 C3 C4 C7 C8 C9 C10 C11 C12 C13 C14 C15] Hn. split; cbn; auto.
  - lia.
  - intros [?|?]; apply C7; [by left|right; lia].
  - unfold working, restarting, closing, closed in *. cbn. destruct C8 as [?|[?|[?|(? & ? & ? & ? & ? & _ & Hx)]]]; auto. lia.
  - intros Hsh. destruct (C15 Hsh) as ((_ & _ & _ & _ & _ & _ & Hx) & _). lia.
Qed.

Lemma asked_same w w' s s' : asked w s -> trace w' = trace w -> m_nPendingRecv s' = m_nPendingRecv s -> m_lstEvents s' = m_lstEvents s -> asked w' s'.
Proof. unfold asked. by intros H -> -> ->. Qed.

Lemma asked_later w w' s s' : asked w s -> later w w' -> m_nPendingRecv s' = m_nPendingRecv s -> m_lstEvents s' = m_lstEvents s -> asked w' s'.
Proof. unfold asked. intros H L -> -> Hx. eapply later_call; [exact L|]. by apply H. Qed.

Lemma SendDone_does w i s n r :
  inv w -> senders w !! i = Some s -> 0 < k_send s -> does (SendDoneCallback E i n r) (fun _ w' => stays w w') w.
Proof.
  intros Hinv Hs Hk. destruct (proj2 Hinv i s Hs) as (Hc & _ & Ha).
  assert (Ho : shut s = false) by (apply open_pending; auto). destruct (at_begin E w i s Hinv Hs Ho) as [H _].
  pose proof (core_sent s Hc Hk) as Hc1. pose proof (co_send _ _ Hc) as Hps.
  assert (Hst : m_eState s <> SNDR_STATE_INACTIVE).
  { intros Hi. destruct (co_mode _ _ Hc) as [(Hx & _)|[([Hx|Hx] & _)|[([Hx|Hx] & _)|(_ & _ & _ & _ & _ & _ & Hx)]]]; try (by rewrite Hi in Hx). lia. }
  unfold SendDoneCallback. eapply does_change; [exact H|done|]. intros w1 H1 L1 E1. eapply does_read; [exact H1|].
  change (m_nPendingSend (s <| k_send ::= Z.pred |>)) with (m_nPendingSend s). rewrite (proj2 (Z.ltb_lt _ _)) by lia. cbn [when].
  eapply does_change; [exact H1|done|]. intros w2 H2 L2 E2. assert (L : later w w2) by by eapply later_trans.
  change (m_nPendingRestart (s <| k_send ::= Z.pred |>)) with (m_nPendingRestart s).
  set (s2 := s <| k_send ::= Z.pred |> <| m_nPendingSend ::= Z.pred |>) in *.
  assert (Hgo : forall s3 w3, at_ w3 i s3 -> core s3 -> later w2 w3 -> m_nPendingRecv s3 = m_nPendingRecv s -> m_lstEvents s3 = m_lstEvents s ->
            does (stop <- ExitCheck E i;; if stop : bool then ret tt else OnSenderSendData E i n;; ExitCheck E i;; ret tt)
              (fun _ w' => stays w w') w3).
  { intros s3 w3 H3 Hc3 L3 Er Ee. assert (L' : later w w3) by by eapply later_trans.
    eapply does_exit; [exact H3|exact Hc3|by eapply asked_later|]. intros b w4 (s4 & H4 & Hk4 & L4 & _).
    assert (La : later w w4) by by eapply later_trans.
    destruct b; [eapply (goes_stays E w i); by exists s4|].
    eapply does_then; [by eapply OnSenderSendData_does|]. cbn beta. intros [] w5 H5.
    destruct (after_open w4 w5 i s4) as (s5 & H5' & (Hc5 & _ & Ha5)); [by apply stays_after|apply H4|apply (at_open _ _ _ _ H4)|].
    eapply does_weaken; [by eapply ends_exit|]. intros [] w6 H6. apply (stays_trans E w w5); [split; [apply H5|]|by eapply goes_stays].
    eapply later_trans; [exact La|apply H5]. }
  apply does_when. destruct (negb (r =? BC_R_SUCCESS) && (m_nPendingRestart s =? 0)) eqn:Eb.
  2:{ eapply (Hgo s2); [exact H2|done|apply later_refl|done..]. }
  apply andb_true_iff in Eb as [_ Hr%Z.eqb_eq]. destruct (negb (transient r)).
  - unfold set_state. eapply does_change; [exact H2|done|]. intros w3 H3 L3 _. eapply Hgo; [exact H3| |done..].
    apply (core_freed s2 r Hc1). by apply mode_free.
  - apply does_when. destruct (unreachable r) eqn:Hu; [|eapply (Hgo s2); [exact H2|done|apply later_refl|done..]].
    apply does_assoc. eapply does_then; [eapply TryClear_does; [exact H2|done|by exists r]|]. intros b w3 (s3 & H3 & R & L3).
    apply does_seq, does_val. destruct (repinned_events _ _ R) as (Ee & Er & _).
    eapply Hgo; [exact H3|by eapply core_repinned|done..].
Qed.

Lemma ConnectDone_does w i s r :
  inv w -> senders w !! i = Some s -> 0 < k_connect s -> does (ConnectDoneCB E i r) (fun _ w' => stays w w') w.
Proof.
  intros Hinv Hs Hk. destruct (proj2 Hinv i s Hs) as (Hc & _ & Ha).
  assert (Ho : shut s = false) by (apply open_pending; auto). destruct (at_begin E w i s Hinv Hs Ho) as [H _].
  set (s1 := s <| k_connect ::= Z.pred |>). assert (Hc1 : core s1).
  { destruct Hc as [C1 C2 C3 C4 C7 C8 C9 C10 C11 C12 C13 C14 C15]. split; cbn; auto; [lia|]. intros Hsh. congruence. }
  unfold ConnectDoneCB. eapply does_change; [exact H|done|]. intros w1 H1 L1 E1. fold s1 in H1. eapply does_read; [exact H1|].
  destruct (co_connect _ _ Hc1) as [_ ->]. cbn [Z.ltb Z.compare when]. apply does_seq, does_val.
  assert (Hgo : forall s3 w3, at_ w3 i s3 -> repinned s1 s3 -> later w1 w3 -> does (ExitCheck E i;; ret tt) (fun _ w' => stays w w') w3).
  { intros s3 w3 H3 R L3. assert (L' : later w w3) by by eapply later_trans. destruct (repinned_events _ _ R) as (Ee & Er & _).
    eapply does_weaken; [eapply ends_exit; [exact H3|by eapply core_repinned|eapply asked_later; [exact Ha|exact L'|done..]]|].
    intros [] w4 H4. eapply (goes_stays E w i), goes_well_later; [exact L'|exact H4]. }
  unfold OnConnectDone. apply does_assoc. eapply does_read; [exact H1|]. apply does_when. destruct (unreachable r && _) eqn:Eu.
  - apply does_assoc. eapply does_then; [eapply (TryClear_does E w1 i s1); [exact H1|done|]|].
    + apply andb_true_iff in Eu as [_ Hn%negb_true_iff%bool_decide_eq_false]. done.
    + intros b w3 (s3 & H3 & R & L3). apply does_seq, does_val. by eapply Hgo.
  - eapply (Hgo s1); [exact H1|by left|apply later_refl].
Qed.

(** ** The end of a queue *)

Lemma count_one l : forall i s f, l !! i = Some s -> shut s = false -> shut (f s) = true ->
  count_shut (alter f i l) = count_shut l + 1 /\ count_shut l < zlen l.
Proof.
  unfold count_shut, zlen. induction l as [|x l IH]; intros [|i] s f Hs Ho Hf; cbn in Hs |- *; try done.
  - injection Hs as ->. rewrite Ho, Hf. cbn. pose proof (List.filter_length_le shut l). lia.
  - destruct (IH i s f Hs Ho Hf). destruct (shut x); cbn; lia.
Qed.

Lemma all_shut_count l : zlen l <= count_shut l -> Forall (fun s => shut s = true) l.
Proof.
  unfold count_shut, zlen. induction l as [|x l IH]; [by constructor|]. cbn. intros Hl.
  pose proof (List.filter_length_le shut l). destruct (shut x) eqn:Hx; cbn in Hl; [constructor; [done|apply IH; lia]|lia].
Qed.

Lemma shut_all_count l : Forall (fun s => shut s = true) l -> count_shut l = zlen l.
Proof.
  unfold count_shut, zlen. induction 1 as [|x l Hx _ IH]; [done|]. cbn. rewrite Hx. cbn. lia.
Qed.

Definition ending (s : sender) : sender := s <| m_lstEvents := [] |> <| shut := true |>.

Lemma Shutdown_does w i s :
  inv w -> senders w !! i = Some s -> attached s = false -> shut s = false -> running s = false -> m_nCtrls s = false -> k_connect s = 0 ->
  does (OnEventProcShutdown E i) (fun _ w' => inv w' /\ exists l, trace w' = trace w ++ l) w.
Proof.
  intros Hinv Hs Hat Ho Hrun Hct Hk. destruct (proj2 Hinv i s Hs) as (Hc & _ & Ha). destruct (at_begin E w i s Hinv Hs Ho) as [H _].
  assert (Hcl : closed s) by (destruct (co_mode _ _ Hc) as [(_ & _ & _ & ?)|[(_ & _ & _ & ?)|[(_ & _ & _ & ?)|?]]]; congruence || done).
  pose proof Hcl as (Hi & Hf & Hr & _ & Hsk & Hp & Hps). unfold OnEventProcShutdown.
  unfold DetachSocket. apply does_assoc. eapply does_read; [exact H|]. rewrite Hsk. apply does_seq, does_val, does_update.
  change (w <| senders ::= alter (fun s => s <| m_lstEvents := [] |> <| shut := true |>) i |>) with (set_sender w i ending).
  set (w1 := set_sender w i ending). unfold OnSenderUdpClosed. apply does_update. apply does_look.
  destruct Hinv as [[G1 G2 G3 G4 G6 G5] Hok].
  destruct (count_one (senders w) i s ending Hs Ho eq_refl) as [Hcount Hlt].
  assert (Hlen : zlen (senders w1) = zlen (senders w)) by by unfold w1, set_sender, zlen; cbn; rewrite length_alter.
  set (w2 := w1 <| closed_count_ ::= fun n => u32 (n + 1) |>).
  assert (Hn : closed_count_ w2 = count_shut (senders w1)).
  { cbn. rewrite G2, Hcount. apply u32_small. unfold count_shut, zlen in *. lia. }
  assert (Hks : core (ending s)).
  { destruct Hc as [C1 C2 C3 C4 C7 C8 C9 C10 C11 C12 C13 C14 C15]. split; cbn; auto; try done; intros Hx; congruence. }
  assert (Hend : ok w1 (ending s)).
  { split; [done|]. split; [split; cbn; by rewrite Hi|]. intros [Hx|Hx]; [cbn in Hx; lia|by apply elem_of_nil in Hx]. }
  assert (Hok1 : forall j s', senders w1 !! j = Some s' -> ok w1 s').
  { intros j s' Hj. cbn in Hj. destruct (decide (i = j)) as [<-|Hne].
    - rewrite list_lookup_alter_eq, Hs in Hj. injection Hj as <-. done.
    - rewrite list_lookup_alter_ne in Hj by done. by apply (Hok j). }
  assert (Hnt : OnUdpClosed ∉ trace w) by by eapply at_not_told.
  cbn [senders closed_count_]. destruct (Z.leb_spec (Z.of_nat (length (senders w2))) (closed_count_ w2)) as [Hle|Hgt]; cbn [when].
  2:{ split; [|exists []; by rewrite app_nil_r]. split; [|exact Hok1]. split.
    - change (0 < zlen (senders w1) < 2 ^ 32). by rewrite Hlen.
    - exact Hn.
    - split; [done|]. intros Hall. apply shut_all_count in Hall. rewrite Hn in Hgt. change (senders w2) with (senders w1) in *.
      unfold zlen in *. lia.
    - exact G4.
    - change (senders w2) with (alter ending i (senders w)). rewrite length_alter. exact G6.
    - exact G5. }
  assert (Hall : Forall (fun s => shut s = true) (senders w2)).
  { apply all_shut_count. rewrite Hn in Hle. exact Hle. }
  assert (Hi2 : inv (set_trace w2 OnUdpClosed)).
  { split.
    - split.
      + change (0 < zlen (senders w1) < 2 ^ 32). by rewrite Hlen.
      + exact Hn.
      + split; [intros _; exact Hall|]. intros _. cbn. apply elem_of_app. right. by apply list_elem_of_singleton.
      + destruct G4 as [Ka Kb]. split; [exact Ka|]. change (trace (set_trace w2 OnUdpClosed)) with (trace w ++ [OnUdpClosed]). rewrite first_recv_snoc. transitivity (first_recv (trace w)); [exact Kb|].
        cbn. by destruct (first_recv _).
      + change (senders (set_trace w2 OnUdpClosed)) with (alter ending i (senders w)). rewrite length_alter. exact G6.
      + apply ordered_snoc; [exact G5|]. by split_and!.
    - intros j s' Hj. apply (ok_later E w1); [|by apply (Hok1 j)]. intros Hin. cbn. apply elem_of_app. by left. }
  eapply does_weaken; [by apply notified|]. intros [] w' [Hw' (L & _ & _)]. split; [done|]. destruct L as [l Hl].
  exists ([OnUdpClosed] ++ l). rewrite Hl. cbn. by rewrite <- app_assoc.
Qed.
End Group.
