(* ===== verification/UdpReachable.v ===== *)
(** * UdpReachable: the invariant of a group of UDP senders, in every world it reaches

    The creation of a group, and every step of it: [group_inv] is what the properties of
    [UdpProperties] start from. *)

From Stdlib Require Import ZArith Lia.
From stdpp Require Import base numbers option gmap list.
From S2P Require Import Prelude Results VpnPolicy SocketPinner BCFObject UdpSender UdpInvariant UdpSteps UdpGroup.

Section Reachable.
Context (E : env).
Abbreviation at_ := (at_ E).
Abbreviation core := (core E).
Abbreviation ok := (ok E).
Abbreviation inv := (inv E).
Abbreviation does := (does E).
Abbreviation stays := (stays E).

(** ** Steps *)

(** A step: the invariant holds again, and the trace has grown. *)
Definition goes (w w' : world) : Prop := inv w' /\ exists l, trace w' = trace w ++ l.

Lemma goes_refl w : inv w -> goes w w.
Proof. split; [done|exists []; by rewrite app_nil_r]. Qed.

Lemma stays_goes w w' : stays w w' -> goes w w'.
Proof. intros [H (L & _)]. by split. Qed.

Lemma does_stays {A} (m : M A) w : does m (fun _ w' => stays w w') w -> does m (fun _ w' => goes w w') w.
Proof. intros H. eapply does_weaken; [exact H|]. intros a w'. apply stays_goes. Qed.

Lemma on_sender_does w i may m :
  inv w -> (forall s, senders w !! i = Some s -> may s = true -> does m (fun _ w' => goes w w') w) ->
  does (on_sender i may m) (fun _ w' => goes w w') w.
Proof.
  intros H Hm. unfold on_sender, does, UdpInvariant.does. destruct (senders w !! i) as [s|] eqn:Hs; [|by apply goes_refl].
  destruct (may s) eqn:Hmay; [by apply (Hm s)|by apply goes_refl].
Qed.

Lemma InEvents_does w i s :
  inv w -> senders w !! i = Some s -> m_nCtrls s = true ->
  stays w (set_sender w i (fun s => s <| m_nCtrls := false |> <| running := true |>)).
Proof.
  intros H Hs Hn. apply (inv_set E w i s); [done..|]. destruct (proj2 H i s Hs) as ([C1 C2 C3 C4 C7 C8 C9 C10 C11 C12 C13 C14 C15] & Hr & Ha).
  split; [|by split]. split; cbn; auto; [done|]. intros Hsh. destruct (C13 Hn) as (_ & _ & Hat), (C15 Hsh) as ((_ & _ & _ & Hd & _) & _). congruence.
Qed.

Lemma InEvent_does w i s :
  inv w -> senders w !! i = Some s -> running s = true ->
  does (l <- get i m_lstEvents;;
        match l with
        | [] => put i (fun s => s <| running := false |>)
        | e :: l => put i (fun s => s <| m_lstEvents := l |>);; OnEventProcess E i e
        end) (fun _ w' => stays w w') w.
Proof.
  intros H Hs Hrun. destruct (proj2 H i s Hs) as (Hc & Hr & Ha). pose proof Hc as [C1 C2 C3 C4 C7 C8 C9 C10 C11 C12 C13 C14 C15].
  assert (Hn : m_nCtrls s = false) by (destruct (m_nCtrls s); [by destruct (C13 eq_refl) as (_ & Hx & _); rewrite Hrun in Hx|done]).
  eapply does_field; [exact Hs|]. destruct (m_lstEvents s) as [|e l] eqn:El.
  - apply (inv_set E w i s (fun s => s <| running := false |>)); [done..|]. split; [|split; [exact Hr|exact Ha]].
    split; cbn; rewrite ?El; auto; try done.
    + by rewrite Hn.
    + intros Hsh. by destruct (C15 Hsh) as (? & _ & ?).
  - assert (Ho : shut s = false) by (eapply open_pending; eauto). destruct (at_begin E w i s H Hs Ho) as [Hat _].
    eapply does_change; [exact Hat|done|]. intros w1 H1 L1 E1. apply Forall_cons in C12 as [Hp Hl].
    eapply OnEventProcess_does; [exact H1| | |exact Hp| |exact L1].
    + split; cbn; auto; try done; intros; congruence.
    + intros [Hx|Hx]; rewrite E1; apply Ha; [by left|right; rewrite El; by right].
    + intros ->. rewrite E1. apply Ha. right. rewrite El. by left.
Qed.

Lemma step_does w x : inv w -> does (step E x) (fun _ w' => goes w w') w.
Proof.
  intros H. destruct x as [a|i|i|i r data|i n r|i r|i tid|i]; cbn [step].
  - apply does_stays. by apply user_call_does.
  - apply on_sender_does; [done|]. intros s Hs [Hn _]%andb_true_iff. apply does_stays. by apply (InEvents_does w i s).
  - apply on_sender_does; [done|]. intros s Hs Hrun. apply does_stays. by eapply InEvent_does.
  - apply on_sender_does; [done|]. intros s Hs [Hk%Z.ltb_lt _]%andb_true_iff. eapply does_weaken; [by eapply RecvDone_does|].
    intros [] w' (Hw' & L & _). by split.
  - apply on_sender_does; [done|]. intros s Hs [Hk%Z.ltb_lt _]%andb_true_iff. apply does_stays. by eapply SendDone_does.
  - apply on_sender_does; [done|]. intros s Hs [Hk%Z.ltb_lt _]%andb_true_iff. apply does_stays. by eapply ConnectDone_does.
  - apply on_sender_does; [done|]. intros s Hs [Hd%bool_decide_eq_true _]%andb_true_iff.
    destruct (co_check _ _ (proj1 (proj2 H i s Hs))) as (_ & Hx & _). by rewrite Hx in Hd.
  - apply on_sender_does; [done|]. intros s Hs Hb. rewrite !andb_true_iff, !negb_true_iff, !Z.eqb_eq in Hb.
    destruct Hb as ((((((?&?)&?)&?)&?)&?)&?). by eapply Shutdown_does.
Qed.

(** ** Creation *)

Record creating (w : world) : Prop := {
  cr_senders : forall i s, senders w !! i = Some s -> ok w s /\ shut s = false;
  cr_closed : closed_count_ w = 0;
  cr_settled : winner_ w = None /\ converged_ w = false /\ first_recv (trace w) = None;
  cr_told : OnUdpClosed ∉ trace w;
  cr_ordered : ordered (trace w)
}.

Lemma none_shut l : (forall i s, l !! i = Some s -> shut s = false) -> count_shut l = 0.
Proof.
  unfold count_shut, zlen. induction l as [|x l IH]; intros H; [done|]. cbn. rewrite (H 0%nat x eq_refl).
  apply IH. intros i s Hs. by apply (H (S i)).
Qed.

Lemma creating_group w : creating w -> 0 < zlen (senders w) < 2 ^ 32 -> inv w.
Proof.
  intros [H1 H2 (H3 & H4 & H5) H6 H7] Hl. split; [|by intros i s Hs; apply (H1 i)]. split; try done.
  - rewrite H2, none_shut; [done|]. intros i s Hs. by apply (H1 i).
  - split; [done|]. intros Hf. destruct (lookup_lt_is_Some_2 (senders w) 0%nat ltac:(unfold zlen in Hl; lia)) as [s Hs].
    rewrite Forall_lookup in Hf. specialize (Hf _ _ Hs). destruct (H1 _ _ Hs) as [_ Ho]. by rewrite Ho in Hf.
  - rewrite H3, H4, H5. by split.
  - by rewrite H3.
Qed.

Lemma core_new sk a cfg b h :
  is_bound sk -> core (with_socket sk a (new_sender cfg b h) <| m_eState := SNDR_STATE_READING |>).
Proof. intros Hs. split; cbn; auto; try done. by left. Qed.

(** One more sender, whatever has been done to it. *)
Definition add_sender (w : world) (s : sender) : world := w <| senders ::= fun l => l ++ [s] |>.

Lemma part_made w0 w s new :
  creating w0 -> shut new = false -> later (add_sender w0 new) w -> at_ w (length (senders w0)) s ->
  closed_count_ w = 0 /\ (winner_ w = None /\ converged_ w = false /\ first_recv (trace w) = None) /\ (OnUdpClosed ∉ trace w) /\
  ordered (trace w) /\ length (senders w) = S (length (senders w0)) /\
  forall j s', (j < length (senders w0))%nat -> senders w !! j = Some s' -> ok w s' /\ shut s' = false.
Proof.
  intros Hc Hn (_ & Hf & Hm) H. pose proof (at_group _ _ _ _ H) as [G1 G2 G3 [G4 G4'] G6 G5].
  destruct (cr_settled _ Hc) as (_ & _ & Hnone). cbn in Hf, Hm. rewrite Hnone in Hf. rewrite Hf in G4'. rewrite G4' in G4.
  assert (Hsh : forall j s', senders w !! j = Some s' -> shut s' = false).
  { intros j s' Hj. assert (Hx : map shut (senders w) !! j = Some (shut s')) by by rewrite list_lookup_fmap, Hj.
    rewrite Hm, list_lookup_fmap in Hx. destruct ((senders w0 ++ [new]) !! j) as [s2|] eqn:E2; [|done]. cbn in Hx. injection Hx as <-.
    apply lookup_app_Some in E2 as [E2|[_ E2]]; [by apply (cr_senders _ Hc j)|].
    apply list_lookup_singleton_Some in E2 as [_ <-]. done. }
  rewrite G2, none_shut by done. split_and!; try done; [by eapply at_not_told| |].
  - rewrite <- (length_map shut (senders w)), Hm, length_map, length_app. cbn. lia.
  - intros j s' Hj Hs. split; [|by eapply Hsh]. eapply (at_others _ _ _ _ H j); [lia|done].
Qed.

Lemma SenderCreate_does w s :
  creating w -> shut s = false -> zlen (senders w) + 1 < 2 ^ 32 -> (exists cfg b h, s = new_sender cfg b h) ->
  does (SenderCreate E (length (senders w)))
    (fun r w' => creating (if r =? BC_R_SUCCESS then w' else (w' <| senders ::= (take (length (senders w))) |>)) /\
                 length (senders w') = S (length (senders w))) (add_sender w s).
Proof.
  intros Hc Ho Hl (cfg & b & h & ->). set (s := new_sender cfg b h) in *. set (i := length (senders w)).
  assert (H0 : at_ (add_sender w s) i s).
  { assert (Hn : forall j s', senders (add_sender w s) !! j = Some s' -> shut s' = false).
    { cbn. intros j s' [Hj|[_ Hj]]%lookup_app_Some; [by apply (cr_senders _ Hc j)|]. by apply list_lookup_singleton_Some in Hj as [_ <-]. }
    destruct Hc as [H1 H2 (H3 & H4 & H5) H6 H7]. split; cbn; [by rewrite list_lookup_middle|done| |].
    - split; cbn; try done.
      + unfold zlen in *. rewrite length_app. cbn. lia.
      + rewrite H2. symmetry. apply none_shut, Hn.
      + split; [done|]. intros [_ Hf]%Forall_app. inversion_clear Hf as [|? ? Hx]. discriminate Hx.
      + by rewrite H3, H4, H5.
      + by rewrite H3.
    - intros j s' Hj [Hs|[Hge Hs]]%lookup_app_Some; [by apply (H1 j)|]. apply list_lookup_singleton_Some in Hs as [Hx _]. subst i. lia. }
  assert (Htake : forall w' s', later (add_sender w s) w' -> at_ w' i s' ->
            creating (w' <| senders ::= take i |>) /\ length (senders w') = S i).
  { intros w' s' L H'. destruct (part_made w w' s' s Hc Ho L H') as (P1 & P2 & P3 & P4 & P5 & P6). split; [|done]. split; cbn; try done.
    intros j s2 Hj. apply lookup_take_Some in Hj as [Hj Hlt]. by apply (P6 j). }
  unfold SenderCreate. eapply does_answer; [exact H0|]. intros n w1 H1 L1 _.
  destruct (queue_create E n =? BC_R_SUCCESS) eqn:Eq; cbn [negb]; [|apply does_val; rewrite Eq; by apply (Htake w1 s)].
  eapply does_then; [by apply InitSocket_does|]. intros r w2 (sk & a & H2 & L2 & Hr & _).
  unfold socket_given in Hr. destruct (r =? BC_R_SUCCESS) eqn:Er; cbn [negb].
  - eapply does_change; [exact H2|done|]. intros w3 H3 L3 _. apply does_val.
    assert (L : later (add_sender w s) w3) by (do 2 (eapply later_trans; [|eassumption]); done).
    destruct (part_made w w3 _ s Hc Ho L H3) as (P1 & P2 & P3 & P4 & P5 & P6). split; [|done]. rewrite Z.eqb_refl. split; try done.
    intros j s' Hj. destruct (decide (j < i)%nat) as [Hlt|Hge]; [by apply (P6 j)|].
    assert (j = i) as -> by (apply lookup_lt_Some in Hj; unfold i in *; lia).
    pose proof (at_here _ _ _ _ H3) as Hi. fold i in Hi. rewrite Hj in Hi. injection Hi as ->.
    split; [|done]. split; [by apply core_new|]. split; [by split|]. intros [Hx|Hx]; [done|]. by apply elem_of_nil in Hx.
  - unfold DetachQueue. eapply does_change; [exact H2|done|]. intros w3 H3 L3 _. apply does_val. rewrite Er. eapply (Htake w3); [|exact H3].
    do 2 (eapply later_trans; [|eassumption]). done.
Qed.

Lemma create_senders_does n cfg b h : forall w,
  creating w -> zlen (senders w) + Z.of_nat n < 2 ^ 32 ->
  does (create_senders E n cfg b h) (fun _ w' => creating w' /\ zlen (senders w') < 2 ^ 32) w.
Proof.
  induction n as [|n IH]; intros w H Hl; cbn [create_senders]; [apply does_val; split; [done|lia]|].
  apply does_look, does_update. change (w <| senders ::= _ |>) with (add_sender w (new_sender cfg b h)).
  eapply does_then; [apply SenderCreate_does; [done..|lia|by do 3 eexists]|]. cbn beta. intros r w1 [H1 Hl1].
  apply does_when. destruct (r =? BC_R_SUCCESS); cbn [negb].
  - apply IH; [done|]. unfold zlen in *. rewrite Hl1. lia.
  - apply does_update. apply IH; [done|]. unfold zlen in *. cbn. rewrite length_take. lia.
Qed.

Lemma creating_new : creating new_world.
Proof. split; try done; [by intros Hx%elem_of_nil|apply ordered_nil]. Qed.

Lemma GroupCreate_does cfg b h :
  does (GroupCreate E cfg b h) (fun r w => r = BC_R_SUCCESS -> inv w) new_world.
Proof.
  unfold GroupCreate. eapply does_then; [apply create_senders_does; [apply creating_new|]|].
  - assert (Hu : forall n, Z.of_nat (Z.to_nat (u32 n)) < 2 ^ 32).
    { intros n. pose proof (Z.mod_pos_bound n (2 ^ 32) ltac:(done)) as Hn. unfold u32, wrap. lia. }
    change (zlen (senders new_world)) with 0. rewrite Z.add_0_l. unfold GroupConfig_Init, on_number.
    destruct (cfg (str "num_of_senders")) as [[]|]; first [apply Hu|done].
  - intros [] w [H Hl]. apply does_look, does_val. intros Hr. apply creating_group; [done|]. destruct (senders w); [done|].
    unfold zlen in *. cbn in *. lia.
Qed.

(** ** Every world that can be reached *)

Lemma group_inv cfg b h w : reachable E cfg b h w -> inv w.
Proof.
  induction 1 as [w H|w x w' _ IH H].
  - pose proof (GroupCreate_does cfg b h) as Hd. unfold does, UdpInvariant.does in Hd. rewrite H in Hd. by apply Hd.
  - pose proof (step_does w x IH) as Hd. unfold does, UdpInvariant.does in Hd. rewrite H in Hd. apply Hd.
Qed.

Lemma reachable_step cfg b h w x :
  reachable E cfg b h w ->
  match step E x w with inl (_, w') => goes w w' | inr c => known_fault E c end.
Proof.
  intros H%group_inv. pose proof (step_does w x H) as Hd. unfold does, UdpInvariant.does in Hd.
  by destruct (step E x w) as [[[] w']|c].
Qed.
End Reachable.
