(* ===== verification/UdpProperties.v ===== *)
(** * UdpProperties: what a group of UDP senders promises

    What the handler hears and where datagrams go, what becomes of a pin under a forced
    policy, what a restart does, how a sender that was told to close gets there, and which
    faults there are. *)

From Stdlib Require Import ZArith Lia.
From stdpp Require Import base numbers option gmap list.
From S2P Require Import Prelude Results VpnPolicy SocketPinner BCFObject UdpSender UdpInvariant UdpSteps UdpGroup UdpReachable.

(** ** The contract with the handler *)

(** What the handler knows: it has asked for data; which path was settled on; it has been told
    that all is over. *)
Record contract := { started : bool; path : option nat; over : bool }.

Definition new_contract : contract := {| started := false; path := None; over := false |}.

(** What may be heard next, and what is known then: nothing after the end, data only when it
    was asked for, and of the senders only the one that was settled on. *)
Definition hears (c : contract) (e : event) : option contract :=
  if is_call e then Some {| started := true; path := path c; over := over c |}
  else if over c then None
  else
    match e with
    | OnUdpClosed => Some {| started := started c; path := path c; over := true |}
    | OnRecvData i _ =>
        if started c
        then Some {| started := true; path := match path c with Some j => Some j | None => Some i end; over := false |}
        else None
    | _ =>
        match of_path e, path c with
        | Some i, Some j => if bool_decide (i = j) then Some c else None
        | _, _ => Some c
        end
    end.

Fixpoint hear_all (c : contract) (l : list event) : option contract :=
  match l with
  | [] => Some c
  | e :: l => match hears c e with Some c => hear_all c l | None => None end
  end.

Lemma hear_all_snoc l e : forall c,
  hear_all c (l ++ [e]) = match hear_all c l with Some c => hears c e | None => None end.
Proof.
  induction l as [|x l IH]; intros c; cbn; [by destruct (hears c e)|]. by destruct (hears c x).
Qed.

Definition is_end (e : event) : bool := match e with OnUdpClosed => true | _ => false end.

Definition contract_of (l : list event) : contract :=
  {| started := existsb is_call l; path := first_recv l; over := existsb is_end l |}.

Lemma existsb_in (p : event -> bool) x l : (forall e, p e = true <-> e = x) -> existsb p l = true <-> x ∈ l.
Proof.
  intros Hp. rewrite existsb_exists. split.
  - intros (e & Hin & He). apply Hp in He as ->. by apply list_elem_of_In.
  - intros Hin. exists x. split; [by apply list_elem_of_In|by apply Hp].
Qed.

Lemma is_call_iff e : is_call e = true <-> e = EvStartRecv.
Proof. split; [by destruct e|by intros ->]. Qed.

Lemma is_end_iff e : is_end e = true <-> e = OnUdpClosed.
Proof. split; [by destruct e|by intros ->]. Qed.

Lemma ordered_prefix l l' : ordered (l ++ l') -> ordered l.
Proof. intros H l1 e l2 ->. apply (H l1 e (l2 ++ l')). by rewrite <- app_assoc. Qed.

Lemma admits_heard l e : admits l e -> hears (contract_of l) e = Some (contract_of (l ++ [e])).
Proof.
  intros (Hp & Hend & He). unfold contract_of. rewrite !existsb_app, first_recv_snoc. unfold hears. cbn [existsb started path over].
  destruct (is_call e) eqn:Hc; [destruct e; try done; cbn; rewrite !orb_true_r, !orb_false_r; by destruct (first_recv l)|].
  assert (Ho : existsb is_end l = false).
  { apply not_true_iff_false. rewrite (existsb_in is_end OnUdpClosed); [by apply Hend|apply is_end_iff]. }
  rewrite Ho. destruct e as [i n|i d|i|i r| | | i d b| i r| i p hd r| i p why| i|i r]; cbn in Hp |- *; rewrite ?orb_false_r; try done;
    try (destruct (first_recv l) as [j|]; [|done]; rewrite bool_decide_true; [done|by apply Hp]); try (by destruct (first_recv l)).
  rewrite (proj2 (existsb_in is_call EvStartRecv l is_call_iff)); [done|apply He].
Qed.

Lemma ordered_heard l : ordered l -> hear_all new_contract l = Some (contract_of l).
Proof.
  induction l as [|e l IH] using rev_ind; [done|]. intros Ho. rewrite hear_all_snoc, IH; [|by eapply ordered_prefix].
  apply admits_heard. by apply (Ho l e []).
Qed.

Lemma forallb_shut l : forallb shut l = true <-> Forall (fun s => shut s = true) l.
Proof. rewrite forallb_forall, List.Forall_forall. done. Qed.

(** C16: in every world a group reaches, what its handler heard and the network saw is a run of
    the contract [hears], and the group's own state is the contract's: it has settled exactly
    on the sender that was first heard to receive, whose datagrams and callbacks alone come
    after; [OnUdpClosed] has been told, once and last, exactly when every sender has ended. *)
Theorem group_contract E cfg b h w :
  reachable E cfg b h w ->
  hear_all new_contract (trace w) =
    Some {| started := existsb is_call (trace w); path := if converged_ w then winner_ w else None;
            over := forallb shut (senders w) |}.
Proof.
  intros [Hg _]%group_inv. rewrite ordered_heard by apply Hg. unfold contract_of. do 2 f_equal.
  - destruct (gr_settled _ Hg) as [-> <-]. by destruct (winner_ w).
  - apply eq_true_iff_eq. rewrite (existsb_in is_end OnUdpClosed) by apply is_end_iff. rewrite (gr_told _ Hg). symmetry. apply forallb_shut.
Qed.

(** What the owner of the group builds on: data only after [StartRecv], and no callback but
    in this order, none after the end. *)
Lemma callbacks_in_order E cfg b h w l1 e l2 :
  reachable E cfg b h w -> trace w = l1 ++ e :: l2 -> is_call e = false ->
  (OnUdpClosed ∉ l1) /\ (forall i data, e = OnRecvData i data -> EvStartRecv ∈ l1).
Proof.
  intros [Hg _]%group_inv Hl He. destruct (gr_ordered _ Hg _ _ _ Hl) as (_ & Hc & Hd). split; [by apply Hc|].
  intros i data ->. apply Hd.
Qed.

(** ** Faults, and what a forced policy leaves of a pin *)

(** C19: the only faults of a step are a 32-bit count of outstanding operations that wraps and,
    where some socket could not be made, the use of a socket that is not there. *)
Theorem group_faults E cfg b h w x c :
  reachable E cfg b h w -> step E x w = inr c ->
  c = CountWraps \/ ((sockets_made E -> False) /\ (c = NullSocket \/ c = BadSocket \/ c = UnboundSocket)).
Proof. intros H Hx. pose proof (reachable_step E cfg b h w x H) as Hk. by rewrite Hx in Hk. Qed.

(** C17: with the policy that forces the physical interface, a pin is given up for one reason
    only: the kernel reported of a datagram that it cannot get out. *)
Theorem forced_pin_given_up E cfg b h w i why :
  reachable E cfg b h w -> EvUnpin i TT_VPN_POLICY_FORCE_PHYSICAL why ∈ trace w ->
  exists r, why = SendError r /\ (r = BC_R_NETUNREACH \/ r = BC_R_HOSTUNREACH \/ r = BC_R_ADDRNOTAVAIL).
Proof.
  intros [Hg _]%group_inv (l1 & l2 & Hl)%list_elem_of_split. destruct (gr_ordered _ Hg _ _ _ Hl) as (_ & _ & He).
  destruct (He eq_refl) as (r & -> & Hr). exists r. split; [done|]. unfold unreachable in Hr. rewrite !orb_true_iff, !Z.eqb_eq in Hr. tauto.
Qed.

(** ** Closing *)

Lemma may_shut E w i s :
  senders w !! i = Some s -> core E s -> closed s -> shut s = false -> running s = false -> k_connect s <= 0 ->
  step E (InShutdown i) w = OnEventProcShutdown E i w.
Proof.
  intros Hs Hc (_ & _ & _ & Hat & _ & Hp & Hps) Hsh Hrun Hk. pose proof (co_recv _ _ Hc). pose proof (co_send _ _ Hc). pose proof (co_connect _ _ Hc).
  assert (Hn : m_nCtrls s = false) by (destruct (m_nCtrls s) eqn:Hx; [destruct (co_ctrls _ _ Hc Hx) as (_ & _ & Hy); congruence|done]).
  cbn [step]. unfold on_sender. rewrite Hs, Hat, Hsh, Hrun, Hn. rewrite !(proj2 (Z.eqb_eq _ _)) by lia. done.
Qed.

(** What waits for the kernel stays as it is. *)
Lemma ExitCheck_waits E w i s :
  senders w !! i = Some s -> m_eState s = SNDR_STATE_READY -> m_nNewState s < SNDR_STATE_READY -> m_nPendingRecv s <> 0 \/ m_nPendingSend s <> 0 ->
  ExitCheck E i w = inl (true, w).
Proof.
  intros Hs Hst Hn Hp. assert (Hget : forall {A} (f : sender -> A), get i f w = inl (f s, w)) by (intros; unfold get; by rewrite Hs).
  unfold ExitCheck. cbn [ExitCheck_rec]. unfold SNDR_STATE_READY in *. unfold bind at 1. rewrite Hget, Hst.
  rewrite (proj2 (Z.leb_gt _ _)) by lia. unfold bind at 1, assert_. rewrite (proj2 (Z.ltb_lt _ _)) by (unfold SNDR_STATE_READING; lia).
  cbn. unfold bind at 1, exit_reading. unfold bind at 1. rewrite Hget, Hst. cbn. unfold exit_ready. unfold bind at 1. rewrite Hget, Hst. cbn.
  unfold bind at 1, assert_. unfold SNDR_STATE_READY. rewrite (proj2 (Z.leb_le _ _)) by lia. cbn.
  destruct (Z.eqb_spec (m_nPendingRecv s) 0), (Z.eqb_spec (m_nPendingSend s) 0); try done. by destruct Hp.
Qed.

(** A sender that was told to close has detached its queue, or it waits for the kernel, or
    its queue has an event that is about to run. Once it has detached, the end of the queue
    waits for nothing but the completions of [connect] and the run of the queue itself. *)
Theorem told_to_close E cfg b h w i s :
  reachable E cfg b h w -> senders w !! i = Some s -> m_nNewState s = SNDR_STATE_FREED ->
  (attached s = true /\ (0 < k_recv s \/ 0 < k_send s \/ (m_lstEvents s <> [] /\ (m_nCtrls s = true \/ running s = true)))) \/
  (attached s = false /\
   (shut s = true \/ running s = true \/ 0 < k_connect s \/ step E (InShutdown i) w = OnEventProcShutdown E i w)).
Proof.
  intros H%group_inv Hs Hn. destruct (proj2 H i s Hs) as (Hc & [Hr1 Hr2] & _).
  destruct (co_mode _ _ Hc) as [(_ & Hx & _)|[(_ & Hx & _)|[(Hst & _ & _ & Hat)|Hcl]]]; [by rewrite Hn in Hx..| |].
  - left. split; [done|]. pose proof (co_recv _ _ Hc). pose proof (co_send _ _ Hc).
    destruct Hst as [Hst|Hst]; [by specialize (Hr1 Hst); rewrite Hn in Hr1|].
    destruct (Hr2 Hst) as [?|[?|[_ ?]]]; [lia..|]. do 2 right. split; [done|]. by apply (co_runs _ _ Hc).
  - right. pose proof Hcl as (_ & _ & _ & Hat & _). split; [done|].
    destruct (shut s) eqn:Hsh, (running s) eqn:Hrun, (Z.ltb_spec 0 (k_connect s)); auto. do 3 right. by apply (may_shut E w i s).
Qed.

(** An event that comes while a restart waits for the kernel is lost: the sender does
    nothing with it, neither a close nor another restart. *)
Theorem restart_loses_events E cfg b h w i s e :
  reachable E cfg b h w -> senders w !! i = Some s -> m_nNewState s = SNDR_STATE_INACTIVE -> 0 < k_recv s \/ 0 < k_send s ->
  OnEventProcess E i e w = inl (tt, w).
Proof.
  intros H%group_inv Hs Hn Hk. destruct (proj2 H i s Hs) as (Hc & [Hr1 _] & _).
  pose proof (co_recv _ _ Hc). pose proof (co_send _ _ Hc).
  destruct (co_mode _ _ Hc) as [(_ & Hx & _)|[(Hst & _)|[(_ & Hx & _)|(_ & Hx & _)]]]; try by rewrite Hn in Hx.
  destruct Hst as [Hst|Hst]; [by specialize (Hr1 Hst); rewrite Hn in Hr1|].
  unfold OnEventProcess, bind at 1. rewrite (ExitCheck_waits E w i s); [done|done|done|by rewrite Hn|lia].
Qed.

(** ** Where datagrams go *)

Lemma ExitCheck_works E w i s : senders w !! i = Some s -> working s -> ExitCheck E i w = inl (false, w).
Proof.
  intros Hs (Hst & Hn & _). unfold ExitCheck. cbn [ExitCheck_rec]. unfold bind, get. by rewrite Hs, Hst, Hn.
Qed.

(** A sender that can send, and what its socket is bound to. *)
Definition sendable (s : sender) : Prop := working s /\ is_bound (m_pSocket s) /\ m_nPendingSend s < UINT32_MAX.

Definition bindings_of (sk : socket) : bindings := match sk with Bound _ b => b | _ => unbound end.

(** The datagram leaves on the path of [i]. *)
Definition sent_on (w : world) (data : bytes) (i : nat) : event :=
  EvSend i data (match senders w !! i with Some s => bindings_of (m_pSocket s) | None => unbound end).

Lemma SenderSend_reaches E w i s data :
  (forall n, socket_send E n = BC_R_SUCCESS) -> senders w !! i = Some s -> sendable s ->
  SenderSend E i data w =
    inl (BC_R_SUCCESS, set_sender (set_trace (w <| tick ::= S |>) (sent_on w data i)) i
                         (fun s' => s' <| m_nPendingSend := m_nPendingSend s + 1 |> <| k_send ::= Z.succ |>)).
Proof.
  intros He Hs (Hw & Hb & Hn). unfold SenderSend, bind at 1. rewrite (ExitCheck_works E w i s Hs Hw). unfold sent_on. rewrite Hs.
  unfold UDP_Send, bind at 1, bound_socket, bind at 1, get. rewrite Hs. destruct (m_pSocket s) as [| | |fd b]; try done.
  unfold ret at 1, bind at 1, ask. rewrite He. cbn. unfold bind at 1, when, log, puts, increment. cbn. unfold bind, get. cbn. rewrite Hs.
  rewrite (proj2 (Z.ltb_lt _ _) Hn). done.
Qed.

(** The senders a datagram goes to: the one that was settled on, or all. *)
Definition targets (w : world) : list nat :=
  match (if converged_ w then winner_ w else None) with Some i => [i] | None => seq 0 (length (senders w)) end.

(** C20: with senders that work and a kernel that takes each datagram, the call succeeds: while
    the race is open the datagram goes out once on every sender, in their order, and once it is
    settled only on the winner, each time with what that sender's socket was pinned to. *)
Theorem send_reaches E cfg b h w data :
  reachable E cfg b h w -> (forall n, socket_send E n = BC_R_SUCCESS) -> Forall sendable (senders w) ->
  exists w', GroupSend E data w = inl (BC_R_SUCCESS, w') /\ trace w' = trace w ++ map (sent_on w data) (targets w).
Proof.
  intros H%group_inv He Hall. rewrite Forall_lookup in Hall. unfold GroupSend, bind at 1, gets, targets.
  destruct (if converged_ w then winner_ w else None) as [i|] eqn:Ei.
  - destruct (converged_ w); [|done]. destruct (lookup_lt_is_Some_2 (senders w) i) as [s Hs]; [by apply (gr_winner _ (proj1 H))|].
    rewrite (SenderSend_reaches E w i s); [|done|done|by eapply Hall]. eexists. split; [done|]. done.
  - unfold on_each, bind at 1, gets.
    assert (Hrec : forall n i w1, (i + n <= length (senders w))%nat -> (forall j, (i <= j)%nat -> senders w1 !! j = senders w !! j) ->
              exists w', each_sender (fun i => SenderSend E i data) (fun r => is_success r || (r =? BC_R_INPROGRESS)) n i BC_R_SUCCESS w1 =
                           inl (BC_R_SUCCESS, w') /\ trace w' = trace w1 ++ map (sent_on w data) (seq i n)).
    { induction n as [|n IH]; intros i w1 Hl Hsame; cbn [each_sender seq map].
      - exists w1. split; [done|]. by rewrite app_nil_r.
      - destruct (lookup_lt_is_Some_2 (senders w) i ltac:(lia)) as [s Hs]. unfold bind at 1.
        assert (Hs1 : senders w1 !! i = Some s) by by rewrite Hsame.
        rewrite (SenderSend_reaches E w1 i s); [|done|done|by eapply Hall]. cbn [is_success Z.eqb BC_R_SUCCESS orb].
        edestruct (IH (S i)) as (w' & Hr & Ht); [lia| |exists w'; split; [exact Hr|]].
        + intros j Hj. cbn. rewrite list_lookup_alter_ne by lia. apply Hsame. lia.
        + rewrite Ht. cbn. rewrite <- app_assoc. cbn. do 2 f_equal. unfold sent_on. by rewrite Hs1, Hs. }
    destruct (Hrec (length (senders w)) 0%nat w) as (w' & Hr & Ht); [lia|done|]. by exists w'.
Qed.

(** ** A restart *)

Definition surely {A} (m : M A) (Q : A -> world -> Prop) (w : world) : Prop :=
  match m w with inl (a, w') => Q a w' | inr _ => False end.

(** Where a run of sender [i] stands: the sender, the trace, and what the race has come to. *)
Definition here (w : world) (i : nat) (s : sender) (t : list event) (c : bool * option nat) : Prop :=
  senders w !! i = Some s /\ trace w = t /\ (converged_ w, winner_ w) = c.

Section Surely.
Context (i : nat) (s : sender) (t : list event) (c : bool * option nat).

Lemma surely_put {B} f (k : unit -> M B) Q w :
  here w i s t c -> (forall w', here w' i (f s) t c -> surely (k tt) Q w') -> surely (bind (put i f) k) Q w.
Proof.
  intros (Hs & Ht & Hc) Hk. unfold surely, bind, put, puts. apply Hk. split; [|done]. cbn. by rewrite list_lookup_alter_eq, Hs.
Qed.

Lemma surely_log {B} e (k : unit -> M B) Q w :
  here w i s t c -> (forall w', here w' i s (t ++ [e]) c -> surely (k tt) Q w') -> surely (bind (log e) k) Q w.
Proof. intros (Hs & Ht & Hc) Hk. unfold surely, bind, log, puts. apply Hk. split; [done|]. by cbn; rewrite Ht. Qed.

Lemma surely_get {A B} (f : sender -> A) (k : A -> M B) Q w :
  here w i s t c -> surely (k (f s)) Q w -> surely (bind (get i f) k) Q w.
Proof. intros (Hs & _) Hk. unfold surely, bind, get. by rewrite Hs. Qed.

Lemma surely_ask {A B} (f : nat -> A) (k : A -> M B) Q w :
  here w i s t c -> (forall n w', here w' i s t c -> surely (k (f n)) Q w') -> surely (bind (ask f) k) Q w.
Proof. intros H Hk. unfold surely, bind, ask. by apply Hk. Qed.

End Surely.

Lemma surely_assoc {A B C} (m : M A) (k : A -> M B) (g : B -> M C) (Q : C -> world -> Prop) (w : world) :
  surely (bind m (fun a => bind (k a) g)) Q w -> surely (bind (bind m k) g) Q w.
Proof. unfold surely. by rewrite bind_assoc. Qed.

Lemma surely_bind {A B} (m : M A) (k : A -> M B) Q w : surely m (fun a w' => surely (k a) Q w') w -> surely (bind m k) Q w.
Proof. unfold surely, bind. by destruct (m w) as [[a w']|c]. Qed.

Lemma surely_val {A B} (a : A) (k : A -> M B) Q (w : world) : surely (k a) Q w -> surely (bind (ret a) k) Q w.
Proof. done. Qed.

Lemma surely_mono {A} (m : M A) (P Q : A -> world -> Prop) w : surely m P w -> (forall a w', P a w' -> Q a w') -> surely m Q w.
Proof. unfold surely. destruct (m w) as [[a w']|c]; auto. Qed.

Section Restart.
Context (E : env) (made : sockets_made E).

Lemma InitSocket_opens w i s t c :
  here w i s t c ->
  surely (InitSocket E i) (fun r w' => r = BC_R_SUCCESS /\ exists fd bs res,
    here w' i (with_socket (Bound fd bs) (bool_decide (res = TT_PIN_OK)) s)
      (t ++ [EvPin i (m_eVpnPolicy s) (m_nNetworkHandle s) res; EvInit i BC_R_SUCCESS]) c) w.
Proof.
  destruct made as (Hcr & Hbd & Hpt). intros H. unfold InitSocket, open_socket. apply surely_assoc.
  eapply surely_put; [exact H|]. intros w1 H1. apply surely_assoc. eapply surely_get; [exact H1|].
  apply surely_assoc. eapply surely_ask; [exact H1|]. intros n w2 H2. rewrite Hcr. cbn [negb Z.eqb BC_R_SUCCESS].
  apply surely_assoc. eapply surely_ask; [exact H2|]. intros n' w3 H3. apply surely_assoc. eapply surely_put; [exact H3|]. intros w4 H4. cbv zeta.
  match goal with |- surely (bind (if negb ?b then _ else _) _) _ _ => assert (Hb : b = true) by (cbn; by destruct (host (m_sConfig s)), (m_bBindIP s)); rewrite Hb end. cbn [negb].
  apply surely_assoc. eapply surely_ask; [exact H4|]. intros m w5 H5. rewrite Hbd. cbn [negb Z.eqb BC_R_SUCCESS].
  apply surely_assoc. eapply surely_ask; [exact H5|]. intros n2 w6 H6. set (out := tt_socket_pin _ _ _ _ _ _ _).
  apply surely_assoc. eapply surely_put; [exact H6|]. intros w7 H7. apply surely_assoc. eapply surely_log; [exact H7|]. intros w8 H8. cbn in H8.
  assert (Hend : forall a w', here w' i (with_socket (Bound (socket_fd E n') (bound_after unbound (po_calls out))) a s)
                                (t ++ [EvPin i (m_eVpnPolicy s) (m_nNetworkHandle s) (po_result out)]) c -> a = bool_decide (po_result out = TT_PIN_OK) ->
            surely (r <- ret BC_R_SUCCESS;; log (EvInit i r);; ret r) (fun r w' => r = BC_R_SUCCESS /\ exists fd bs res,
              here w' i (with_socket (Bound fd bs) (bool_decide (res = TT_PIN_OK)) s)
                (t ++ [EvPin i (m_eVpnPolicy s) (m_nNetworkHandle s) res; EvInit i BC_R_SUCCESS]) c) w').
  { intros a w' H' ->. apply surely_val. eapply surely_log; [exact H'|]. intros w9 H9. cbn. split; [done|]. do 3 eexists.
    rewrite <- app_assoc in H9. exact H9. }
  apply surely_assoc. destruct (bool_decide (po_result out = TT_PIN_OK)) eqn:Eb; cbn [when].
  - eapply surely_put; [exact H8|]. intros w9 H9. by apply (Hend true).
  - apply surely_val. by apply (Hend false).
Qed.

Lemma restarted_tells w i s t c r :
  here w i s t c ->
  surely (restarted i r) (fun _ w' => here w' i (s <| m_nPendingRestart ::= fun n => u32 (n - 1) |> <| m_bCheckAvailable := false |>)
    (t ++ (if negb c.1 || bool_decide (c.2 = Some i) then [OnRestart i r] else [])) c) w.
Proof.
  intros H. unfold restarted. eapply surely_put; [exact H|]. intros w1 (Hs1 & Ht1 & Hc1). unfold OnSenderRestart, surely, bind at 1, gets. rewrite <- Hc1. unfold is_winner. cbn [fst snd].
  destruct (_ || _); cbn; (split; [done|]); cbn; rewrite Ht1, ?app_nil_r; by split.
Qed.

Lemma surely_exit {B} w i s t c (k : bool -> M B) Q :
  here w i s t c -> working s -> surely (k false) Q w -> surely (bind (ExitCheck E i) k) Q w.
Proof. intros (Hs & _) Hw Hk. unfold surely, bind. by rewrite (ExitCheck_works E w i s Hs Hw). Qed.

(** A sender with nothing outstanding and no event to run. *)
Definition idle (s : sender) : Prop :=
  is_bound (m_pSocket s) /\ m_nPendingRecv s = 0 /\ m_nPendingSend s = 0 /\ m_nCtrls s = false /\
  m_bCheckAvailable s = false /\ m_nCheckAvailableTimerId s = 0.

(** What is told of a restart. *)
Definition restart_told (i : nat) (policy : TTVpnPolicy) (h : Z) (res : TTPinResult) (c : bool * option nat) : list event :=
  [EvPin i policy h res; EvInit i BC_R_SUCCESS] ++ (if negb c.1 || bool_decide (c.2 = Some i) then [OnRestart i BC_R_SUCCESS] else []).

Lemma ExitCheck_restarts w i s t c :
  here w i s t c -> idle s -> m_eState s = SNDR_STATE_READING -> m_nNewState s = SNDR_STATE_INACTIVE -> m_nPendingRestart s = 1 ->
  surely (ExitCheck E i) (fun _ w' => exists fd bs res,
    here w' i (restarted_with (Bound fd bs) (bool_decide (res = TT_PIN_OK)) s)
      (t ++ restart_told i (m_eVpnPolicy s) (m_nNetworkHandle s) res c) c) w.
Proof.
  intros H (Hb & Hp & Hps & Hn & Hck & Ht) Hst Hnew Hr. unfold ExitCheck. cbn [ExitCheck_rec]. eapply surely_get; [exact H|]. rewrite Hst, Hnew.
  apply surely_val. unfold exit_reading. apply surely_assoc. eapply surely_get; [exact H|]. rewrite Hst, Hnew, Hp, Hps.
  apply surely_assoc, surely_val, surely_assoc, surely_val, surely_assoc, surely_val. eapply surely_put; [exact H|]. intros w1 H1.
  unfold exit_ready. eapply surely_get; [exact H1|].
  change (m_nNewState (s <| m_eState := SNDR_STATE_READY |>)) with (m_nNewState s). rewrite Hnew. apply surely_val.
  change (m_nPendingRecv (s <| m_eState := SNDR_STATE_READY |>)) with (m_nPendingRecv s).
  change (m_nPendingSend (s <| m_eState := SNDR_STATE_READY |>)) with (m_nPendingSend s). rewrite Hp, Hps.
  cbn [Z.eqb SNDR_STATE_READY Pos.eqb andb negb]. unfold DetachSocket. apply surely_assoc. eapply surely_get; [exact H1|].
  change (m_pSocket (s <| m_eState := SNDR_STATE_READY |>)) with (m_pSocket s). destruct (m_pSocket s) as [| | |fd0 b0] eqn:Es; try done.
  apply surely_assoc. unfold created_socket. apply surely_assoc. eapply surely_get; [exact H1|].
  change (m_pSocket (s <| m_eState := SNDR_STATE_READY |>)) with (m_pSocket s). rewrite Es. apply surely_val.
  eapply surely_put; [exact H1|]. intros w2 H2. change (m_nCtrls (s <| m_eState := SNDR_STATE_READY |>)) with (m_nCtrls s). rewrite Hn.
  eapply surely_put; [exact H2|]. intros w3 H3. cbn [Z.eqb SNDR_STATE_INACTIVE Pos.eqb].
  change (m_nPendingRestart (s <| m_eState := SNDR_STATE_READY |>)) with (m_nPendingRestart s). rewrite Hr. cbn [Z.ltb Z.compare when].
  apply surely_assoc. unfold unschedule_check. apply surely_assoc. eapply surely_get; [exact H3|].
  match goal with |- surely (bind (when ?b _) _) _ _ => assert (Hx : b = false) by by cbn; rewrite Ht end. rewrite Hx.
  apply surely_val, surely_assoc. unfold Restart_with. apply surely_assoc, surely_bind. eapply surely_mono; [eapply InitSocket_opens, H3|].
  cbv beta. intros r w4 (-> & fd & bs & res & H4). cbn [negb Z.eqb BC_R_SUCCESS]. apply surely_assoc. eapply surely_get; [exact H4|].
  match goal with |- surely (bind (if negb ?b then _ else _) _) _ _ => assert (Hy : b = false) by exact Hck; rewrite Hy end. cbn [negb].
  apply surely_bind. eapply surely_mono; [eapply restarted_tells, H4|]. cbv beta. intros [] w5 H5.
  apply surely_assoc. eapply surely_put; [exact H5|]. intros w6 H6. unfold set_state. eapply surely_put; [exact H6|]. intros w7 H7.
  cbn. exists fd, bs, res. unfold restart_told. rewrite <- app_assoc in H7. clear -H7 Hr. unfold restarted_with, with_socket. destruct s. cbn in *. subst. exact H7.
Qed.

Lemma restart_runs w i s t c h :
  here w i s t c -> working s -> idle s ->
  surely (OnEventProcess E i (SNDRM_RESTART_WORK false h)) (fun _ w' => exists s' res,
    here w' i s' (t ++ restart_told i (m_eVpnPolicy s) h res c) c /\ working s' /\ m_nNetworkHandle s' = h /\ is_bound (m_pSocket s') /\
    m_bInterfaceBindingActive s' = bool_decide (res = TT_PIN_OK)) w.
Proof.
  intros H Hw Hi. pose proof Hw as (Hst & Hnew & Hr & Hat). unfold OnEventProcess. eapply surely_exit; [exact H|exact Hw|].
  apply surely_assoc. eapply surely_get; [exact H|]. rewrite Hr. cbn [Z.eqb when]. apply surely_assoc. unfold set_state.
  eapply surely_put; [exact H|]. intros w1 H1. eapply surely_put; [exact H1|]. intros w2 H2. apply surely_bind.
  eapply surely_mono; [eapply ExitCheck_restarts; [exact H2|by destruct Hi as (?&?&?&?&?&?); split_and!|exact Hst|done|by cbn; rewrite Hr]|]. cbv beta.
  intros b w3 (fd & bs & res & H3). cbn. do 2 eexists. split; [exact H3|]. by split_and!.
Qed.
End Restart.

(** C18: where the kernel makes its sockets, a restart of a working sender with nothing
    outstanding gets it a new socket at once, pinned for the new network under the sender's policy; the sender works on, it counts as pinned exactly
    when the pin took hold, and the handler hears of the restart unless the race was settled
    on another sender. *)
Theorem restart_repins E cfg b h w i s net l :
  reachable E cfg b h w -> sockets_made E -> senders w !! i = Some s -> running s = true ->
  m_lstEvents s = SNDRM_RESTART_WORK false net :: l -> working s -> k_recv s = 0 -> k_send s = 0 ->
  exists w' s' res, step E (InEvent i) w = inl (tt, w') /\ senders w' !! i = Some s' /\
    working s' /\ m_nNetworkHandle s' = net /\ is_bound (m_pSocket s') /\ m_bInterfaceBindingActive s' = bool_decide (res = TT_PIN_OK) /\
    trace w' = trace w ++ restart_told i (m_eVpnPolicy s) net res (converged_ w, winner_ w).
Proof.
  intros H%group_inv Hm Hs Hrun Hl Hw Hk Hks. destruct (proj2 H i s Hs) as (Hc & _).
  pose proof (co_recv _ _ Hc) as [Hp _]. pose proof (co_send _ _ Hc) as [Hps _]. destruct (co_check _ _ Hc) as (Hck & _ & Ht).
  assert (Hn : m_nCtrls s = false) by (destruct (m_nCtrls s) eqn:Hx; [destruct (co_ctrls _ _ Hc Hx) as (_ & Hy & _); congruence|done]).
  assert (Hb : is_bound (m_pSocket s)) by (destruct (co_made _ _ Hc (proj1 Hw)) as [?|Hf]; [done|by destruct (Hf Hm)]).
  assert (Hd : surely (step E (InEvent i)) (fun _ w' => exists s' res,
    here w' i s' (trace w ++ restart_told i (m_eVpnPolicy s) net res (converged_ w, winner_ w)) (converged_ w, winner_ w) /\
    working s' /\ m_nNetworkHandle s' = net /\ is_bound (m_pSocket s') /\ m_bInterfaceBindingActive s' = bool_decide (res = TT_PIN_OK)) w).
  { cbn [step]. unfold on_sender, surely. rewrite Hs, Hrun.
    match goal with |- match ?m w with _ => _ end => change (surely m (fun _ w' => exists s' res,
      here w' i s' (trace w ++ restart_told i (m_eVpnPolicy s) net res (converged_ w, winner_ w)) (converged_ w, winner_ w) /\
      working s' /\ m_nNetworkHandle s' = net /\ is_bound (m_pSocket s') /\ m_bInterfaceBindingActive s' = bool_decide (res = TT_PIN_OK)) w) end.
    assert (H0 : here w i s (trace w) (converged_ w, winner_ w)) by by split. eapply surely_get; [exact H0|]. rewrite Hl.
    eapply surely_put; [exact H0|]. intros w1 H1. eapply (restart_runs E Hm w1 i _ _ _ net H1); [exact Hw|].
    split_and!; cbn; try done; congruence. }
  unfold surely in Hd. destruct (step E (InEvent i) w) as [[[] w']|]; [|done]. destruct Hd as (s' & res & (H1 & H2 & _) & H3).
  exists w', s', res. split; [done|]. split; [done|]. split; [by apply H3|]. tauto.
Qed.

(** ** A group of two senders *)

(** A kernel that grants everything, or from some call on makes no sockets. *)
Definition kernel (lasts : option nat) : env := {|
  platform_is := OS_APPLE; if_indextoname _ := None; api_level := 0; have_setsocknetwork := true; setsockopt _ _ := 0;
  route_lookup _ _ _ := 3; queue_create _ := BC_R_SUCCESS;
  socket_create n := match lasts with Some m => if (n <? m)%nat then BC_R_SUCCESS else BC_R_FAILURE | None => BC_R_SUCCESS end;
  socket_fd _ := 7; net_pton _ _ := true; socket_bind _ := BC_R_SUCCESS; socket_connect _ := (BC_R_SUCCESS, true);
  socket_recv _ := BC_R_INPROGRESS; socket_send _ := BC_R_SUCCESS; schedule_task _ := BC_R_SUCCESS; user_calls _ := []
|}.

Definition two_senders : BCFObject := fun k => if bool_decide (k = str "num_of_senders") then Some (BCFNumber 2) else None.

Definition toy_start (E : env) : world :=
  match GroupCreate E two_senders false 3 new_world with inl (_, w) => w | inr _ => new_world end.

Definition toy_after (E : env) (xs : list input) : world :=
  match run E xs (toy_start E) with inl (_, w) => w | inr _ => toy_start E end.

Lemma toy_reaches lasts xs : lasts = Some 10%nat \/ lasts = None -> reachable (kernel lasts) two_senders false 3 (toy_after (kernel lasts) xs).
Proof.
  intros Hl. assert (H0 : reachable (kernel lasts) two_senders false 3 (toy_start (kernel lasts))).
  { apply reach_create. destruct Hl as [-> | ->]; vm_compute; reflexivity. }
  unfold toy_after. destruct (run _ xs _) as [[[] w]|] eqn:Hr; [|done]. by eapply run_group.
Qed.

(** A queue runs its only event. *)
Definition turn (i : nat) : list input := [InEvents i; InEvent i; InEvent i].

(** Both receive, the first wins, and both close. *)
Definition toy_life : list input :=
  [InCall CallStartRecv] ++ turn 0 ++ turn 1 ++
  [InCall (CallSend [1]); InRecvDone 0 BC_R_SUCCESS [2]; InCall (CallSend [3]); InSendDone 0 1 BC_R_SUCCESS;
   InSendDone 0 1 BC_R_SUCCESS; InSendDone 1 1 BC_R_SUCCESS; InCall CallClose] ++ turn 0 ++ turn 1 ++
  [InRecvDone 0 BC_R_CANCELED []; InRecvDone 1 BC_R_CANCELED []; InShutdown 0; InShutdown 1].

Lemma group_contract_witness :
  hear_all new_contract (trace (toy_after (kernel None) toy_life)) = Some {| started := true; path := Some 0%nat; over := true |}.
Proof.
  rewrite (group_contract (kernel None) two_senders false 3 (toy_after (kernel None) toy_life)).
  - vm_compute. reflexivity.
  - apply toy_reaches. by right.
Defined.

(** A restart that gets no socket, and then a datagram. *)
Definition toy_torn : list input := [InCall (CallRestart 4)] ++ turn 0.

Lemma group_faults_witness :
  BadSocket = CountWraps \/ ((sockets_made (kernel (Some 10%nat)) -> False) /\ (BadSocket = NullSocket \/ BadSocket = BadSocket \/ BadSocket = UnboundSocket)).
Proof.
  apply (group_faults (kernel (Some 10%nat)) two_senders false 3 (toy_after (kernel (Some 10%nat)) toy_torn) (InCall (CallSend [1]))).
  - apply toy_reaches. by left.
  - vm_compute. reflexivity.
Defined.

(** The policy is forced, and a datagram cannot get out. *)
Definition toy_forced : list input :=
  [InCall (CallSetVpnPolicy TT_VPN_POLICY_FORCE_PHYSICAL); InCall (CallSend [1]); InSendDone 1 0 BC_R_HOSTUNREACH].

Lemma forced_pin_given_up_witness :
  exists r, SendError BC_R_HOSTUNREACH = SendError r /\ (r = BC_R_NETUNREACH \/ r = BC_R_HOSTUNREACH \/ r = BC_R_ADDRNOTAVAIL).
Proof.
  apply (forced_pin_given_up (kernel None) two_senders false 3 (toy_after (kernel None) toy_forced) 1).
  - apply toy_reaches. by right.
  - apply list_elem_of_In. vm_compute. tauto.
Defined.

(** The first sender as it stands. *)
Definition first_sender (w : world) : sender :=
  match senders w with s :: _ => s | [] => new_sender new_config false 0 end.

(** It was told to close while it received; it was told to restart while it received. *)
Definition toy_closing : list input := [InCall CallStartRecv] ++ turn 0 ++ [InCall CallClose] ++ turn 0.
Definition toy_restarting : list input := [InCall CallStartRecv] ++ turn 0 ++ [InCall (CallRestart 4)] ++ turn 0.

(** It has let everything go, and its queue has detached. *)
Definition toy_detached : list input := toy_closing ++ [InRecvDone 0 BC_R_CANCELED []].

Lemma told_to_close_witness :
  0 < k_recv (first_sender (toy_after (kernel None) toy_closing)) /\
  step (kernel None) (InShutdown 0) (toy_after (kernel None) toy_detached) = OnEventProcShutdown (kernel None) 0 (toy_after (kernel None) toy_detached).
Proof.
  split; [vm_compute; reflexivity|].
  destruct (told_to_close (kernel None) two_senders false 3 (toy_after (kernel None) toy_detached) 0 (first_sender (toy_after (kernel None) toy_detached)))
    as [[Ha _]|[_ [Hs|[Hr|[Hk|He]]]]]; [apply toy_reaches; by right|vm_compute; reflexivity|vm_compute; reflexivity|..|exact He].
  - vm_compute in Ha. discriminate Ha.
  - vm_compute in Hs. discriminate Hs.
  - vm_compute in Hr. discriminate Hr.
  - vm_compute in Hk. discriminate Hk.
Defined.

Lemma restart_loses_events_witness :
  OnEventProcess (kernel None) 0 SNDRM_STOPWORK (toy_after (kernel None) toy_restarting) = inl (tt, toy_after (kernel None) toy_restarting).
Proof.
  apply (restart_loses_events (kernel None) two_senders false 3 _ 0 (first_sender (toy_after (kernel None) toy_restarting))).
  - apply toy_reaches. by right.
  - vm_compute. reflexivity.
  - vm_compute. reflexivity.
  - left. vm_compute. reflexivity.
Defined.

Lemma send_reaches_witness :
  exists w', GroupSend (kernel None) [1; 2] (toy_after (kernel None) []) = inl (BC_R_SUCCESS, w') /\
    trace w' = trace (toy_after (kernel None) []) ++ map (sent_on (toy_after (kernel None) []) [1; 2]) [0%nat; 1%nat].
Proof.
  apply (send_reaches (kernel None) two_senders false 3 (toy_after (kernel None) []) [1; 2]).
  - apply toy_reaches. by right.
  - intros n. reflexivity.
  - let l := eval vm_compute in (senders (toy_after (kernel None) [])) in
      replace (senders (toy_after (kernel None) [])) with l by (vm_compute; reflexivity).
    repeat constructor.
Defined.

(** The restart is the event that its queue comes to. *)
Definition toy_asked : list input := [InCall (CallRestart 4); InEvents 0].

Lemma restart_repins_witness :
  exists w' s' res, step (kernel None) (InEvent 0) (toy_after (kernel None) toy_asked) = inl (tt, w') /\ senders w' !! 0%nat = Some s' /\
    working s' /\ m_nNetworkHandle s' = 4 /\ is_bound (m_pSocket s') /\ m_bInterfaceBindingActive s' = bool_decide (res = TT_PIN_OK) /\
    trace w' = trace (toy_after (kernel None) toy_asked) ++ restart_told 0 TT_VPN_POLICY_UNSET 4 res (false, None).
Proof.
  apply (restart_repins (kernel None) two_senders false 3 (toy_after (kernel None) toy_asked) 0 (first_sender (toy_after (kernel None) toy_asked)) 4 []).
  - apply toy_reaches. by right.
  - by split.
  - vm_compute. reflexivity.
  - vm_compute. reflexivity.
  - vm_compute. reflexivity.
  - vm_compute. repeat split.
  - vm_compute. reflexivity.
  - vm_compute. reflexivity.
Defined.
