(* ===== verification/TcpChannel.v ===== *)
(** * TcpChannel: the TCP/TLS connection state machine
      ([src/cpp/TcpChannel.cpp], [TcpChannel.h])

    A channel resolves a name, pins a socket, connects, shakes hands and carries
    data, on an event queue of its own; its user calls it from any thread and from
    inside its callbacks. The model runs one event at a time: a call of the user, a
    task taken from the queue, the timer, a turn of the resolver thread, the
    completion of a socket operation, or the shutdown of the queue. What the
    operating system, OpenSSL, the resolver and the user do is the environment [env],
    asked anew at every call (the [tick]); what the channel does outwards is the trace.
    An operation may [Crash]: where the code would use a null pointer, where a 32-bit
    count of outstanding operations would wrap, and where a loop would not end. *)

From Stdlib Require Import ZArith Lia.
From stdpp Require Import base numbers option list.
From S2P Require Import Prelude Results VpnPolicy SocketPinner DnsMessage DnsResolver BCBuffer TlsContext.

(** ** Data *)

Inductive State :=
| TCPCH_IDLE | TCPCH_RESOLVING | TCPCH_PINNING | TCPCH_CONNECTING
| TCPCH_TLS_HANDSHAKE | TCPCH_READY | TCPCH_CLOSING | TCPCH_CLOSED.

#[global] Instance State_eq_dec : EqDecision State.
Proof. solve_decision. Defined.

Definition is_state (a b : State) : bool := bool_decide (a = b).

(** [IsLegalTransition]. *)
Definition IsLegalTransition (from to : State) : bool :=
  if is_state to TCPCH_CLOSING then negb (is_state from TCPCH_CLOSING) && negb (is_state from TCPCH_CLOSED)
  else if is_state to TCPCH_CLOSED then is_state from TCPCH_CLOSING
  else match from with
  | TCPCH_IDLE => is_state to TCPCH_RESOLVING
  | TCPCH_RESOLVING => is_state to TCPCH_PINNING
  | TCPCH_PINNING => is_state to TCPCH_CONNECTING
  | TCPCH_CONNECTING => is_state to TCPCH_TLS_HANDSHAKE || is_state to TCPCH_READY
  | TCPCH_TLS_HANDSHAKE => is_state to TCPCH_READY
  | _ => false
  end.

Record TcpChannelConfig := {
  tc_host : bytes;
  tc_port : Z;
  tc_tls : bool;
  tc_resolvedIp : bytes;
  tc_policy : TTVpnPolicy;
  tc_ifIndex : Z;
  tc_androidNetHandle : Z;
  tc_dns : DnsConfig;
  tc_tls_cfg : TlsConfig;
  tc_connectTimeoutMs : Z
}.

#[global] Instance eta_TcpChannelConfig : Eta TcpChannelConfig := fun c =>
  {| tc_host := tc_host c; tc_port := tc_port c; tc_tls := tc_tls c;
     tc_resolvedIp := tc_resolvedIp c; tc_policy := tc_policy c; tc_ifIndex := tc_ifIndex c;
     tc_androidNetHandle := tc_androidNetHandle c; tc_dns := tc_dns c;
     tc_tls_cfg := tc_tls_cfg c; tc_connectTimeoutMs := tc_connectTimeoutMs c |}.

#[global] Instance eta_DnsConfig : Eta DnsConfig := fun c =>
  {| cfg_policy := cfg_policy c; cfg_ifIndex := cfg_ifIndex c;
     cfg_androidNetHandle := cfg_androidNetHandle c; cfg_servers := cfg_servers c;
     cfg_serverPort := cfg_serverPort c; cfg_timeoutMs := cfg_timeoutMs c;
     cfg_secondAnswerGraceMs := cfg_secondAnswerGraceMs c; cfg_preferIpv6 := cfg_preferIpv6 c |}.

(** What the value-initialised members hold before [Open]. *)
Definition new_config : TcpChannelConfig :=
  {| tc_host := []; tc_port := 0; tc_tls := false; tc_resolvedIp := [];
     tc_policy := TT_VPN_POLICY_UNSET; tc_ifIndex := 0; tc_androidNetHandle := 0;
     tc_dns := {| cfg_policy := TT_VPN_POLICY_UNSET; cfg_ifIndex := 0; cfg_androidNetHandle := 0;
                  cfg_servers := []; cfg_serverPort := 53; cfg_timeoutMs := 1000;
                  cfg_secondAnswerGraceMs := 50; cfg_preferIpv6 := false |};
     tc_tls_cfg := {| caCertsPem := []; spkiPin := []; clientCertFile := []; clientKeyFile := [];
                      clientKeyPassword := []; insecureSkipVerify := false |};
     tc_connectTimeoutMs := 10000 |}.

(** The texts given to [_Fail] and left in [open_error_]. *)
Inductive reason :=
| NoReason
| ConnectTimeout (stuck : State) | NoDnsExecutor | ClosedByCaller | StaleOnAdopt
| ResolveFailed (why : list dns_msg) | SocketCreateFailed | ConnectStartFailed
| PinFailed (ifIndex : Z) (r : TTPinResult) (err : Z)
| NotGlobalPeer (ifIndex scoped : Z) | NoScopedRoute (ifIndex : Z) | RouteMismatch (ifIndex scoped : Z)
| SslCtxFailed | SslNewFailed | PrepareSslFailed | SslLayerFailed
| NoPeerCertificate | SpkiPinFailed | TlsError
| ConnectFailed | PeerClosedEarly (at_state : State) | TlsTruncation | PeerClosed
| RecvMountFailed | RecvFailed | SendFailed
| NoPhysicalInterface | QueueCreateFailed (result : BCRESULT).

(** The request shared with the resolver thread. *)
Record TcpDnsRequest := { rq_abandoned : bool; rq_channel : bool; rq_host : bytes; rq_cfg : DnsConfig }.

Record channel := {
  config_ : TcpChannelConfig;
  handler_ : option nat;
  state_ : State;
  queue_created_ : bool;
  detached_ : bool;
  parked_ : bool;
  poisoned_ : bool;
  socket_ : bool;
  is_ipv6_ : bool;
  peer_addr_ : sockaddr * Z;
  peer_addr_len_ : Z;
  bound_ifindex_ : Z;
  pin_method_ : bytes;
  open_error_ : reason;
  ssl_ctx_ : bool;
  ssl_ : bool;
  ssl_layer_ : bool;
  connect_timer_ : bool;
  dns_request_ : bool;
  tls_shutdown_clean_ : bool;
  pending_dns_ : Z;
  pending_connect_ : Z;
  pending_recv_ : Z;
  pending_send_ : Z;
  ssl_depth_ : Z;
  pending_tasks_ : Z;
  closing_ : bool;
  closed_notified_ : bool;
  close_result_ : BCRESULT;
  close_reason_ : reason
}.

#[global] Instance eta_channel : Eta channel := fun c =>
  {| config_ := config_ c; handler_ := handler_ c; state_ := state_ c;
     queue_created_ := queue_created_ c; detached_ := detached_ c; parked_ := parked_ c;
     poisoned_ := poisoned_ c; socket_ := socket_ c; is_ipv6_ := is_ipv6_ c;
     peer_addr_ := peer_addr_ c; peer_addr_len_ := peer_addr_len_ c;
     bound_ifindex_ := bound_ifindex_ c; pin_method_ := pin_method_ c; open_error_ := open_error_ c;
     ssl_ctx_ := ssl_ctx_ c; ssl_ := ssl_ c; ssl_layer_ := ssl_layer_ c;
     connect_timer_ := connect_timer_ c; dns_request_ := dns_request_ c;
     tls_shutdown_clean_ := tls_shutdown_clean_ c; pending_dns_ := pending_dns_ c;
     pending_connect_ := pending_connect_ c; pending_recv_ := pending_recv_ c;
     pending_send_ := pending_send_ c; ssl_depth_ := ssl_depth_ c;
     pending_tasks_ := pending_tasks_ c; closing_ := closing_ c;
     closed_notified_ := closed_notified_ c; close_result_ := close_result_ c;
     close_reason_ := close_reason_ c |}.

(** The constructor. *)
Definition new_channel : channel :=
  {| config_ := new_config; handler_ := None; state_ := TCPCH_IDLE; queue_created_ := false;
     detached_ := false; parked_ := false; poisoned_ := false; socket_ := false; is_ipv6_ := false;
     peer_addr_ := (SockOther 0, 0); peer_addr_len_ := 0; bound_ifindex_ := 0; pin_method_ := [];
     open_error_ := NoReason; ssl_ctx_ := false; ssl_ := false; ssl_layer_ := false;
     connect_timer_ := false; dns_request_ := false; tls_shutdown_clean_ := false;
     pending_dns_ := 0; pending_connect_ := 0; pending_recv_ := 0; pending_send_ := 0;
     ssl_depth_ := 0; pending_tasks_ := 0; closing_ := false; closed_notified_ := false;
     close_result_ := BC_R_SUCCESS; close_reason_ := NoReason |}.

(** What the user may call, from a callback or from another thread. *)
Inductive api_call :=
| CallSend (buf : option BCBuffer) | CallClose | CallPark (watcher : option nat)
| CallAdopt (handler : option nat).

(** The calls [SSLayer] makes back while it reads, writes or connects. *)
Inductive ssl_callback :=
| OnSSLWrite_cb (data : bytes) | OnRecvDataFromSSL_cb (data : bytes) | OnSSLReady_cb
| OnSSLFinished_cb | OnSSLError_cb.

Inductive task :=
| TaskSend (buf : BCBuffer) | TaskClose | TaskAdopt (handler : nat)
| TaskResolveDone (r : DnsResult) | TaskNoExecutor.

(** The resolver thread's work on the request. *)
Inductive worker_state := NoRequest | Posted | Resolving | WorkDone.

(** What the channel does that its user, the kernel or the peer can see, and the
    steps that matter to the statements. *)
Inductive event :=
| EvOpen (cfg : TcpChannelConfig) (h : nat)
| EvState (from to : State)
| EvPin (ifIndex : Z) (r : TTPinResult)
| EvUnbind
| EvConnect (ifIndex : Z)
| EvHandshake
| EvSpki (result : BCRESULT)
| EvSend (buf : BCBuffer)
| EvPark (watcher : option nat)
| EvAdopt (h : nat)
| EvPoison
| EvCloseNotify
| OnChannelReady (h : nat)
| OnChannelDetached (h : nat)
| OnChannelAdoptFailed (h : nat)
| OnChannelData (h : nat) (data : bytes)
| OnChannelClosed (h : nat) (result : BCRESULT) (why : reason).

Record world := {
  ch : channel;
  mem : heap;
  queue : list task;            (* posted and not yet run *)
  request : option TcpDnsRequest;
  worker : worker_state;
  timer : bool;                 (* armed and not yet fired *)
  connect_ops : Z;              (* socket operations the kernel has not completed *)
  recv_ops : Z;
  send_ops : Z;
  shutting_down : bool;         (* the queue was detached, its shutdown not yet run *)
  trace : list event;
  tick : nat
}.

#[global] Instance eta_world : Eta world := fun w =>
  {| ch := ch w; mem := mem w; queue := queue w; request := request w; worker := worker w;
     timer := timer w; connect_ops := connect_ops w; recv_ops := recv_ops w;
     send_ops := send_ops w; shutting_down := shutting_down w; trace := trace w; tick := tick w |}.

Definition new_world : world :=
  {| ch := new_channel; mem := []; queue := []; request := None; worker := NoRequest;
     timer := false; connect_ops := 0; recv_ops := 0; send_ops := 0; shutting_down := false;
     trace := []; tick := 0 |}.

(** ** The environment *)

Record env := {
  platform_is : platform;
  ios_target : bool;
  path_monitor : option (TTVpnPolicy -> Z);
  inet_pton4 : bytes -> option bytes;
  inet_pton6 : bytes -> option bytes;
  if_indextoname : Z -> option bytes;
  api_level : Z;
  have_setsocknetwork : bool;
  queue_create : nat -> BCRESULT;
  schedule_task : nat -> bool;
  dns_executor : nat -> bool;
  socket_create : nat -> BCRESULT;
  socket_fd : nat -> Z;
  setsockopt : nat -> os_call -> Z;
  route_lookup : nat -> sockaddr * Z -> Z -> Z;
  socket_connect : nat -> BCRESULT;
  socket_recv : nat -> BCRESULT;
  socket_send : nat -> BCRESULT;
  tls_context : nat -> TlsConfig -> bool;
  ssl_new : nat -> bool;
  prepare_ssl : nat -> bytes -> TlsConfig -> BCRESULT;
  peer_certificate : nat -> bool;
  verify_chain : nat -> bytes -> TlsConfig -> BCRESULT;
  verify_result_ok : nat -> bool;
  ssl_callbacks : nat -> list ssl_callback;
  user_calls : nat -> list api_call;
  uninit : Z
}.

(** ** The monad *)

Inductive crash := NullSslLayer | NullSocket | NullHandler | CountWraps | ExtractStuck.

Definition M (A : Type) : Type := world -> (A * world) + crash.

Definition ret {A} (a : A) : M A := fun w => inl (a, w).
Definition bind {A B} (m : M A) (k : A -> M B) : M B := fun w =>
  match m w with inl (a, w') => k a w' | inr c => inr c end.
Definition fail {A} (c : crash) : M A := fun _ => inr c.
Definition get {A} (f : channel -> A) : M A := fun w => inl (f (ch w), w).
Definition gets {A} (f : world -> A) : M A := fun w => inl (f w, w).
Definition put (f : channel -> channel) : M unit := fun w => inl (tt, w <| ch ::= f |>).
Definition puts (f : world -> world) : M unit := fun w => inl (tt, f w).

Declare Scope channel_scope.
Notation "x <- m ;; k" := (bind m (fun x => k))
  (at level 100, m at next level, right associativity) : channel_scope.
Notation "m ;; k" := (bind m (fun _ => k)) (at level 100, right associativity) : channel_scope.
Open Scope channel_scope.

(** An answer of the environment. *)
Definition ask {A} (f : nat -> A) : M A := fun w => inl (f (tick w), w <| tick ::= S |>).

Definition log (e : event) : M unit := puts (fun w => w <| trace ::= fun t => t ++ [e] |>).

Definition UINT32_MAX : Z := 0xFFFFFFFF.

(** [count++] on a count of outstanding operations. *)
Definition increment (count : channel -> Z) (set_count : Z -> channel -> channel) : M unit :=
  n <- get count;;
  if n <? UINT32_MAX then put (set_count (n + 1)) else fail CountWraps.

(** [if (count > 0) count--]. *)
Definition decrement (count : channel -> Z) (set_count : Z -> channel -> channel) : M unit :=
  n <- get count;;
  if 0 <? n then put (set_count (n - 1)) else ret tt.

(** ** The user's calls *)

Definition PostTask (t : task) : M unit := puts (fun w => w <| queue ::= fun q => q ++ [t] |>).

Definition AcquirePendingTask : M bool :=
  closed <- get closed_notified_;;
  if closed then ret false
  else increment pending_tasks_ (fun n c => c <| pending_tasks_ := n |>);; ret true.

Definition ReleasePendingTask : M unit :=
  decrement pending_tasks_ (fun n c => c <| pending_tasks_ := n |>).

Definition Send (buf : option BCBuffer) : M BCRESULT :=
  match buf with
  | None => ret BC_R_INVALIDARG
  | Some buf =>
      st <- get state_;;
      if negb (is_state st TCPCH_READY) then ret BC_R_NOTCONNECTED
      else
        ok <- AcquirePendingTask;;
        if negb ok then ret BC_R_NOTCONNECTED
        else PostTask (TaskSend buf);; ret BC_R_SUCCESS
  end.

Definition Close : M unit :=
  created <- get queue_created_;;
  if negb created then ret tt
  else
    ok <- AcquirePendingTask;;
    if negb ok then ret tt else PostTask TaskClose.

Definition Park (watcher : option nat) : M unit :=
  st <- get state_;;
  if negb (is_state st TCPCH_READY) then ret tt
  else put (fun c => c <| handler_ := watcher |> <| parked_ := true |>);; log (EvPark watcher).

Definition IsParkedAndUsable : M bool :=
  get (fun c => parked_ c && negb (poisoned_ c) && is_state (state_ c) TCPCH_READY).

Definition Adopt (handler : option nat) : M BCRESULT :=
  match handler with
  | None => ret BC_R_INVALIDARG
  | Some h =>
      usable <- IsParkedAndUsable;;
      if negb usable then ret BC_R_NOTCONNECTED
      else
        ok <- AcquirePendingTask;;
        if negb ok then ret BC_R_NOTCONNECTED
        else PostTask (TaskAdopt h);; ret BC_R_SUCCESS
  end.

Definition call_api (a : api_call) : M unit :=
  match a with
  | CallSend buf => Send buf;; ret tt
  | CallClose => Close
  | CallPark watcher => Park watcher
  | CallAdopt h => Adopt h;; ret tt
  end.

Fixpoint each {A} (f : A -> M unit) (l : list A) : M unit :=
  match l with
  | [] => ret tt
  | x :: l => f x;; each f l
  end.

Section Channel.
Context (E : env).

(** A call of the user's handler, which may call back. *)
Definition notify (e : event) : M unit :=
  log e;; calls <- ask (user_calls E);; each call_api calls.

(** ** Closing *)

(** [_SetState]: a transition the table does not allow is only reported. *)
Definition SetState (next : State) : M unit :=
  cur <- get state_;;
  if is_state cur next then ret tt
  else put (fun c => c <| state_ := next |>);; log (EvState cur next).

(** [UnscheduleTask(connect_timer_)]. *)
Definition UnscheduleTimer : M unit :=
  armed <- get connect_timer_;;
  if armed then put (fun c => c <| connect_timer_ := false |>);; puts (fun w => w <| timer := false |>)
  else ret tt.

Definition AbandonDns : M unit :=
  pending <- get dns_request_;;
  if negb pending then ret tt
  else
    puts (fun w => w <| request ::= option_map (fun r =>
      {| rq_abandoned := true; rq_channel := false; rq_host := rq_host r; rq_cfg := rq_cfg r |}) |>);;
    put (fun c => c <| dns_request_ := false |> <| pending_dns_ := 0 |>).

(** [_CancelIo]: the cancelled operations still complete, with [BC_R_CANCELED]. *)
Definition CancelIo : M unit := UnscheduleTimer;; AbandonDns.

Definition Cleanup : M unit :=
  put (fun c => c <| socket_ := false |> <| ssl_layer_ := false |> <| ssl_ := false |>
                  <| ssl_ctx_ := false |>).

(** [BCEventQueue::Detach]: no timer is left, and the queue shuts down once it is idle. *)
Definition Detach : M unit := puts (fun w => w <| timer := false |> <| shutting_down := true |>).

Definition io_pending (c : channel) : bool :=
  negb (pending_dns_ c =? 0) || negb (pending_connect_ c =? 0)
  || negb (pending_recv_ c =? 0) || negb (pending_send_ c =? 0).

Definition MaybeFinishClose : M unit :=
  skip <- get (fun c => negb (closing_ c) || closed_notified_ c || (0 <? ssl_depth_ c) || io_pending c
                        || (closed_notified_ c || (0 <? pending_tasks_ c)));;
  if skip : bool then ret tt
  else
    put (fun c => c <| closed_notified_ := true |>);;
    SetState TCPCH_CLOSED;;
    Cleanup;;
    put (fun c => c <| detached_ := true |>);;
    Detach.

Definition Fail (result : BCRESULT) (why : reason) : M unit :=
  closing <- get closing_;;
  if closing then MaybeFinishClose
  else
    put (fun c => c <| closing_ := true |> <| close_result_ := result |> <| close_reason_ := why |>);;
    SetState TCPCH_CLOSING;;
    CancelIo;;
    MaybeFinishClose.

(** A call into the SSL layer under [SslReentryGuard]. *)
Definition guarded (body : M unit) : M unit :=
  increment ssl_depth_ (fun n c => c <| ssl_depth_ := n |>);;
  body;;
  n <- get ssl_depth_;;
  put (fun c => c <| ssl_depth_ := n - 1 |>);;
  if n - 1 =? 0 then MaybeFinishClose else ret tt.

(** ** Reading and writing *)

Definition accepted (result : BCRESULT) : bool := (result =? BC_R_SUCCESS) || (result =? BC_R_INPROGRESS).

Definition BC_SOCKET_MAXSCATTERGATHER : Z := 1024.

(** [socket_->SendV(buf)]: whether the kernel took it. *)
Definition SendV (buf : BCBuffer) : M BCRESULT :=
  result <- ask (socket_send E);;
  if accepted result then
    log (EvSend buf);;
    puts (fun w => w <| send_ops ::= fun n => n + 1 |>);;
    increment pending_send_ (fun n c => c <| pending_send_ := n |>);;
    ret result
  else ret result.

(** The loop of [_SendRaw]; [None] when it returned after a failure. *)
Fixpoint SendRaw_loop (fuel : nat) (buf : BCBuffer) : M (option BCBuffer) :=
  if GetBlockCount buf <=? BC_SOCKET_MAXSCATTERGATHER then ret (Some buf)
  else match fuel, Extract buf new_BCBuffer BC_SOCKET_MAXSCATTERGATHER with
  | S f, Some (_, buf, slice) =>
      result <- SendV slice;;
      if accepted result then SendRaw_loop f buf
      else Fail result SendFailed;; ret None
  | _, _ => fail ExtractStuck
  end.

Definition SendRaw (buf : BCBuffer) : M unit :=
  skip <- get (fun c => closing_ c || negb (socket_ c));;
  if skip : bool then ret tt
  else
    rest <- SendRaw_loop (S (length (m_lstData buf))) buf;;
    match rest with
    | None => ret tt
    | Some buf =>
        if 0 <? RemainingLength buf then
          result <- SendV (RefClone buf);;
          if accepted result then ret tt else Fail result SendFailed
        else ret tt
    end.

Definition TcpRecv : M unit :=
  skip <- get (fun c => closing_ c || negb (socket_ c) || (0 <? pending_recv_ c));;
  if skip : bool then ret tt
  else
    result <- ask (socket_recv E);;
    if accepted result then
      puts (fun w => w <| recv_ops ::= fun n => n + 1 |>);;
      increment pending_recv_ (fun n c => c <| pending_recv_ := n |>)
    else Fail result RecvMountFailed.

(** ** TLS *)

(** [SSLayer::Create]. *)
Definition SSLayer_Create (ssl handler : bool) : BCRESULT :=
  if negb ssl || negb handler then BC_R_INVALIDARG else BC_R_SUCCESS.

Definition SetupTls : M BCRESULT :=
  cfg <- get config_;;
  created <- ask (fun n => tls_context E n (tc_tls_cfg cfg));;
  put (fun c => c <| ssl_ctx_ := created |>);;
  if negb created then Fail BC_R_FAILURE SslCtxFailed;; ret BC_R_FAILURE
  else
    made <- ask (ssl_new E);;
    put (fun c => c <| ssl_ := made |>);;
    if negb made then Fail BC_R_NOMEMORY SslNewFailed;; ret BC_R_NOMEMORY
    else
      result <- ask (fun n => prepare_ssl E n (tc_host cfg) (tc_tls_cfg cfg));;
      if negb (result =? BC_R_SUCCESS) then Fail result PrepareSslFailed;; ret result
      else
        let result := SSLayer_Create true true in
        put (fun c => c <| ssl_layer_ := true |>);;
        if negb (result =? BC_R_SUCCESS) then
          put (fun c => c <| ssl_layer_ := false |>);;
          Fail result SslLayerFailed;; ret result
        else ret BC_R_SUCCESS.

Definition VerifySpkiPin : M BCRESULT :=
  cfg <- get config_;;
  if bytes_eqb (spkiPin (tc_tls_cfg cfg)) [] then ret BC_R_SUCCESS
  else
    leaf <- ask (peer_certificate E);;
    if negb leaf then
      Fail BC_R_TLS_VERIFY_FAILED NoPeerCertificate;; ret BC_R_TLS_VERIFY_FAILED
    else
      result <- ask (fun n => verify_chain E n (tc_host cfg) (tc_tls_cfg cfg));;
      log (EvSpki result);;
      if negb (result =? BC_R_SUCCESS) then
        Fail BC_R_TLS_VERIFY_FAILED SpkiPinFailed;; ret BC_R_TLS_VERIFY_FAILED
      else ret BC_R_SUCCESS.

Definition OnPeerClosed : M unit :=
  st <- get state_;;
  cfg <- get config_;;
  clean <- get tls_shutdown_clean_;;
  if negb (is_state st TCPCH_READY) then Fail BC_R_UNEXPECTEDEND (PeerClosedEarly st)
  else if tc_tls cfg && negb clean then Fail BC_R_UNEXPECTEDEND TlsTruncation
  else Fail BC_R_SUCCESS PeerClosed.

Definition EnterReady : M unit :=
  SetState TCPCH_READY;;
  UnscheduleTimer;;
  h <- get handler_;;
  match h with Some h => notify (OnChannelReady h) | None => ret tt end.

(** *** The callbacks of [SSLayer] *)

(** The bytes to send, copied into a buffer of its own. *)
Definition OnSSLWrite (data : bytes) : M Z :=
  if zlen data =? 0 then ret 0
  else
    skip <- get (fun c => closing_ c || negb (socket_ c));;
    if skip : bool then ret 0
    else
      h <- gets mem;;
      match Write (uninit E) h new_BCBuffer data with
      | None => fail ExtractStuck
      | Some (_, h, buf) =>
          puts (fun w => w <| mem := h |>);;
          SendRaw buf;;
          ret (i32 (zlen data))
      end.

Definition OnRecvDataFromSSL (data : bytes) : M unit :=
  if zlen data =? 0 then ret tt
  else
    parked <- get parked_;;
    if parked : bool then put (fun c => c <| poisoned_ := true |>);; log EvPoison
    else
      h <- get handler_;;
      match h with
      | None => ret tt
      | Some h =>
          st <- get state_;;
          if negb (is_state st TCPCH_READY) then ret tt else notify (OnChannelData h data)
      end.

Definition OnSSLReady : M unit :=
  skip <- get (fun c => closing_ c || negb (is_state (state_ c) TCPCH_TLS_HANDSHAKE));;
  if skip : bool then ret tt
  else
    log EvHandshake;;
    result <- VerifySpkiPin;;
    if negb (result =? BC_R_SUCCESS) then ret tt else EnterReady.

Definition OnSSLFinished : M unit :=
  put (fun c => c <| tls_shutdown_clean_ := true |>);; log EvCloseNotify;; OnPeerClosed.

Definition OnSSLError : M unit :=
  ssl <- get ssl_;;
  ok <- ask (verify_result_ok E);;
  Fail (if ssl && negb ok then BC_R_TLS_VERIFY_FAILED else BC_R_FAILURE) TlsError.

Definition run_callback (cb : ssl_callback) : M unit :=
  match cb with
  | OnSSLWrite_cb data => OnSSLWrite data;; ret tt
  | OnRecvDataFromSSL_cb data => OnRecvDataFromSSL data
  | OnSSLReady_cb => OnSSLReady
  | OnSSLFinished_cb => OnSSLFinished
  | OnSSLError_cb => OnSSLError
  end.

(** [ssl_layer_->ConnectSSL()], [ReadFromSSL], [WriteToSSL]: whatever they call back. *)
Definition call_ssl_layer : M unit :=
  layer <- get ssl_layer_;;
  if negb layer then fail NullSslLayer
  else cbs <- ask (ssl_callbacks E);; each run_callback cbs.

(** ** Connecting *)

(** [ParseIpLiteral]. *)
Definition ParseIpLiteral (ip : bytes) (port : Z) : option (sockaddr * Z) :=
  if bytes_eqb ip [] then None
  else match inet_pton4 E (c_str ip) with
  | Some v4 => Some (SockIn v4, port)
  | None =>
      match inet_pton6 E (c_str ip) with
      | Some v6 => Some (SockIn6 v6, port)
      | None => None
      end
  end.

Definition PickPhysicalIfIndex (cfg : TcpChannelConfig) : Z :=
  if negb (tc_ifIndex cfg =? 0) then tc_ifIndex cfg
  else match path_monitor E with
  | Some query =>
      let detected := query (tc_policy cfg) in
      if 0 <? detected then u32 detected else 0
  | None => 0
  end.

Definition HasBindTarget (c : channel) : bool :=
  negb (bound_ifindex_ c =? 0)
  || (bool_decide (platform_is E = OS_ANDROID) && negb (tc_androidNetHandle (config_ c) =? 0)).

Definition pin_request (c : channel) (fd : Z) : TTPinRequest :=
  {| req_fd := fd; req_ifIndex := bound_ifindex_ c;
     req_androidNetHandle := tc_androidNetHandle (config_ c);
     req_ipv6 := is_ipv6_ c; req_isTcp := true; req_policy := tc_policy (config_ c) |}.

Definition PinSocket : M BCRESULT :=
  c <- get (fun c => c);;
  if negb (HasBindTarget c) then ret BC_R_SUCCESS
  else
    fd <- ask (socket_fd E);;
    out <- ask (fun n => tt_socket_pin (setsockopt E n) (if_indextoname E) (api_level E)
                           (have_setsocknetwork E) (platform_is E) (Some (pin_request c fd)) 32);;
    log (EvPin (bound_ifindex_ c) (po_result out));;
    if decide (po_result out = TT_PIN_OK) then
      put (fun c => c <| pin_method_ := po_method out |>);; ret BC_R_SUCCESS
    else if decide (tc_policy (config_ c) = TT_VPN_POLICY_FORCE_PHYSICAL) then
      Fail BC_R_PIN_FAILED (PinFailed (bound_ifindex_ c) (po_result out) (po_errno out));;
      ret BC_R_PIN_FAILED
    else
      put (fun c => c <| bound_ifindex_ := 0 |> <| pin_method_ := [] |>);; ret BC_R_SUCCESS.

Definition DecidePinBeforeConnect : M BCRESULT :=
  c <- get (fun c => c);;
  if negb (HasBindTarget c) then ret BC_R_SUCCESS
  else
    let bound := bound_ifindex_ c in
    scopedIf <- ask (fun n => route_lookup E n (peer_addr_ c) bound);;
    globalIf <- ask (fun n => route_lookup E n (peer_addr_ c) 0);;
    let peerClass := tt_peer_address_class (Some (peer_addr_ c).1) (peer_addr_len_ c) in
    if decide (tc_policy (config_ c) = TT_VPN_POLICY_FORCE_PHYSICAL) then
      if (scopedIf =? TT_ROUTE_IFINDEX_UNKNOWN) || (scopedIf =? bound) then ret BC_R_SUCCESS
      else
        Fail BC_R_ROUTE_MISMATCH
          (if negb (peerClass =? TT_PEER_CLASS_GLOBAL) then NotGlobalPeer bound scopedIf
           else if scopedIf =? TT_ROUTE_IFINDEX_NO_ROUTE then NoScopedRoute bound
           else RouteMismatch bound scopedIf);;
        ret BC_R_ROUTE_MISMATCH
    else match (tt_vpn_pin_recheck (tc_policy (config_ c)) bound scopedIf globalIf peerClass).1 with
    | TT_PIN_VERDICT_KEEP => ret BC_R_SUCCESS
    | TT_PIN_VERDICT_UNPIN =>
        log EvUnbind;;
        put (fun c => c <| bound_ifindex_ := 0 |> <| pin_method_ := [] |>);;
        (if decide (platform_is E = OS_ANDROID)
         then put (fun c => c <| config_ ::= fun cfg => cfg <| tc_androidNetHandle := 0 |> |>)
         else ret tt);;
        ret BC_R_SUCCESS
    end.

(** The end of [_EnterPinning], once the TLS objects are there. *)
Definition StartConnect : M unit :=
  result <- ask (socket_create E);;
  if negb (result =? BC_R_SUCCESS) then
    put (fun c => c <| socket_ := false |>);; Fail result SocketCreateFailed
  else
    put (fun c => c <| socket_ := true |>);;
    result <- DecidePinBeforeConnect;;
    if negb (result =? BC_R_SUCCESS) then ret tt
    else
      result <- PinSocket;;
      if negb (result =? BC_R_SUCCESS) then ret tt
      else
        SetState TCPCH_CONNECTING;;
        bound <- get bound_ifindex_;;
        log (EvConnect bound);;
        result <- ask (socket_connect E);;
        if accepted result then
          puts (fun w => w <| connect_ops ::= fun n => n + 1 |>);;
          increment pending_connect_ (fun n c => c <| pending_connect_ := n |>)
        else Fail result ConnectStartFailed.

Definition EnterPinning : M unit :=
  SetState TCPCH_PINNING;;
  put (fun c =>
    let v6 := match (peer_addr_ c).1 with SockIn6 _ => true | _ => false end in
    c <| is_ipv6_ := v6 |> <| peer_addr_len_ := if v6 then sizeof_sockaddr_in6 else sizeof_sockaddr_in |>);;
  cfg <- get config_;;
  if tc_tls cfg then
    result <- SetupTls;;
    if negb (result =? BC_R_SUCCESS) then ret tt else StartConnect
  else StartConnect.

Definition OnResolveDone (r : DnsResult) : M unit :=
  decrement pending_dns_ (fun n c => c <| pending_dns_ := n |>);;
  put (fun c => c <| dns_request_ := false |>);;
  skip <- get (fun c => closing_ c || negb (is_state (state_ c) TCPCH_RESOLVING));;
  if skip : bool then MaybeFinishClose
  else
    match r_addrs r with
    | [] => Fail (if negb (r_result r =? BC_R_SUCCESS) then r_result r else BC_R_HOSTUNREACH)
              (ResolveFailed (r_err r))
    | a :: _ =>
        if negb (r_result r =? BC_R_SUCCESS) then Fail (r_result r) (ResolveFailed (r_err r))
        else
          put (fun c => c <| peer_addr_ := (a, tc_port (config_ c)) |>);;
          EnterPinning
    end.

(** ** What the queue runs *)

Definition run_adopt (h : nat) : M unit :=
  usable <- IsParkedAndUsable;;
  if negb usable then
    notify (OnChannelAdoptFailed h);;
    Fail BC_R_SUCCESS StaleOnAdopt
  else
    watcher <- get handler_;;
    put (fun c => c <| parked_ := false |> <| handler_ := Some h |>);;
    log (EvAdopt h);;
    match watcher with Some w => notify (OnChannelDetached w) | None => ret tt end;;
    h <- get handler_;;
    match h with Some h => notify (OnChannelReady h) | None => fail NullHandler end.

Definition run_task (t : task) : M unit :=
  ReleasePendingTask;;
  match t with
  | TaskSend buf =>
      st <- get state_;;
      layer <- get ssl_layer_;;
      if negb (is_state st TCPCH_READY) then MaybeFinishClose
      else if layer : bool then guarded (call_ssl_layer)
      else SendRaw buf
  | TaskClose => Fail BC_R_SUCCESS ClosedByCaller
  | TaskAdopt h => run_adopt h
  | TaskResolveDone r => OnResolveDone r
  | TaskNoExecutor => Fail BC_R_DNS_FAILED NoDnsExecutor
  end.

Definition OnConnectDone (result : BCRESULT) : M unit :=
  if negb (result =? BC_R_SUCCESS) then Fail result ConnectFailed
  else
    skip <- get (fun c => closing_ c || negb (is_state (state_ c) TCPCH_CONNECTING));;
    if skip : bool then ret tt
    else
      (* [socket_->GetPeerName] *)
      open <- get socket_;;
      layer <- get ssl_layer_;;
      if negb open then fail NullSocket
      else if layer : bool then
        SetState TCPCH_TLS_HANDSHAKE;;
        TcpRecv;;
        guarded (call_ssl_layer)
      else
        EnterReady;;
        TcpRecv.

Definition OnRecvDone (data : bytes) : M unit :=
  if zlen data =? 0 then ret tt
  else
    layer <- get ssl_layer_;;
    if layer : bool then guarded (call_ssl_layer) else OnRecvDataFromSSL data.

Definition OnSendDone : M unit :=
  skip <- get (fun c => negb (ssl_layer_ c && is_state (state_ c) TCPCH_TLS_HANDSHAKE));;
  if skip : bool then ret tt else guarded (call_ssl_layer).

(** *** Completions *)

Definition ConnectDoneCallback (result : BCRESULT) : M unit :=
  decrement pending_connect_ (fun n c => c <| pending_connect_ := n |>);;
  OnConnectDone result;;
  MaybeFinishClose.

Definition RecvDoneCallback (result : BCRESULT) (data : bytes) : M unit :=
  decrement pending_recv_ (fun n c => c <| pending_recv_ := n |>);;
  (if result =? BC_R_SUCCESS then
     if zlen data =? 0 then OnPeerClosed else OnRecvDone data;; TcpRecv
   else if result =? BC_R_EOF then OnPeerClosed
   else if result =? BC_R_CANCELED then ret tt
   else Fail result RecvFailed);;
  MaybeFinishClose.

Definition SendDoneCallback (result : BCRESULT) : M unit :=
  decrement pending_send_ (fun n c => c <| pending_send_ := n |>);;
  (if result =? BC_R_SUCCESS then OnSendDone
   else if negb (result =? BC_R_CANCELED) then Fail result SendFailed
   else ret tt);;
  MaybeFinishClose.

(** [OnEventProcShutdown]. *)
Definition OnEventProcShutdown : M unit :=
  closed <- get closed_notified_;;
  h <- get handler_;;
  result <- get close_result_;;
  why <- get close_reason_;;
  if negb closed then ret tt
  else
    put (fun c => c <| handler_ := None |>);;
    match h with Some h => notify (OnChannelClosed h result why) | None => ret tt end.

(** *** The resolver thread *)

Definition request_gone (w : world) : bool :=
  match request w with Some r => rq_abandoned r || negb (rq_channel r) | None => true end.

(** [_RunDnsRequest] up to the resolver. *)
Definition RunDnsRequest_start : M unit :=
  gone <- gets request_gone;;
  puts (fun w => w <| worker := if gone then WorkDone else Resolving |>).

(** [_RunDnsRequest] once the resolver has answered. *)
Definition RunDnsRequest_finish (r : DnsResult) : M unit :=
  puts (fun w => w <| worker := WorkDone |>);;
  gone <- gets request_gone;;
  if gone then ret tt
  else
    ok <- AcquirePendingTask;;
    if negb ok then ret tt else PostTask (TaskResolveDone r).

(** ** Opening *)

(** The end of [Open]: the timer, the first state, and the name resolution. *)
Definition Open_start (literal : option (sockaddr * Z)) : M BCRESULT :=
  armed <- ask (schedule_task E);;
  (if armed then put (fun c => c <| connect_timer_ := true |>);; puts (fun w => w <| timer := true |>)
   else ret tt);;
  SetState TCPCH_RESOLVING;;
  match literal with
  | Some a =>
      AcquirePendingTask;;
      PostTask (TaskResolveDone (dns_success [a.1]));;
      ret BC_R_SUCCESS
  | None =>
      cfg <- get config_;;
      bound <- get bound_ifindex_;;
      let d := tc_dns cfg in
      let d := if decide (cfg_policy d = TT_VPN_POLICY_UNSET) then d <| cfg_policy := tc_policy cfg |> else d in
      let d := if cfg_ifIndex d =? 0 then d <| cfg_ifIndex := bound |> else d in
      let d := if cfg_androidNetHandle d =? 0
               then d <| cfg_androidNetHandle := tc_androidNetHandle cfg |> else d in
      executor <- ask (dns_executor E);;
      if negb executor then
        AcquirePendingTask;; PostTask TaskNoExecutor;; ret BC_R_SUCCESS
      else
        puts (fun w => w <| request := Some {| rq_abandoned := false; rq_channel := true;
                                               rq_host := tc_host cfg; rq_cfg := d |} |>
                         <| worker := Posted |>);;
        put (fun c => c <| dns_request_ := true |>);;
        increment pending_dns_ (fun n c => c <| pending_dns_ := n |>);;
        ret BC_R_SUCCESS
  end.

Definition Open (cfg : TcpChannelConfig) (handler : option nat) : M BCRESULT :=
  put (fun c => c <| open_error_ := NoReason |>);;
  st <- get state_;;
  match handler with
  | None => ret BC_R_INVALIDARG
  | Some h =>
      if negb (is_state st TCPCH_IDLE) then ret BC_R_ALREADYRUNNING
      else if bytes_eqb (tc_host cfg) [] || (tc_port cfg =? 0) then ret BC_R_INVALIDARG
      else
        let cfg := if decide (tc_policy cfg = TT_VPN_POLICY_UNSET)
                   then cfg <| tc_policy := tt_vpn_policy_platform_default (ios_target E) |> else cfg in
        put (fun c => c <| config_ := cfg |>);;
        let haveLiteral := negb (bytes_eqb (tc_resolvedIp cfg) []) in
        let literal := ParseIpLiteral (tc_resolvedIp cfg) (tc_port cfg) in
        if haveLiteral && bool_decide (literal = None) then ret BC_R_INVALIDARG
        else
          (if decide (tc_policy cfg = TT_VPN_POLICY_OS) then ret tt
           else put (fun c => c <| bound_ifindex_ := PickPhysicalIfIndex cfg |>));;
          target <- get HasBindTarget;;
          if bool_decide (tc_policy cfg = TT_VPN_POLICY_FORCE_PHYSICAL) && negb target then
            put (fun c => c <| open_error_ := NoPhysicalInterface |>);;
            ret BC_R_NO_PHYSICAL_INTERFACE
          else
            result <- ask (queue_create E);;
            if negb (result =? BC_R_SUCCESS) then
              put (fun c => c <| open_error_ := QueueCreateFailed result |>);; ret result
            else
              put (fun c => c <| queue_created_ := true |> <| handler_ := Some h |>);;
              log (EvOpen cfg h);;
              Open_start (if haveLiteral then literal else None)
  end.

(** ** The system *)

Inductive input :=
| InOpen (cfg : TcpChannelConfig) (handler : option nat)
| InCall (a : api_call)
| InTask
| InTimer
| InResolverStart
| InResolverFinish (r : DnsResult)
| InConnectDone (result : BCRESULT)
| InRecvDone (result : BCRESULT) (data : bytes)
| InSendDone (result : BCRESULT)
| InShutdown.

(** What can happen in a world. *)
Definition enabled (i : input) (w : world) : bool :=
  match i with
  | InOpen _ _ | InCall _ => true
  | InTask => match queue w with [] => false | _ :: _ => true end
  | InTimer => timer w
  | InResolverStart => match worker w with Posted => true | _ => false end
  | InResolverFinish _ => match worker w with Resolving => true | _ => false end
  | InConnectDone _ => 0 <? connect_ops w
  | InRecvDone _ _ => 0 <? recv_ops w
  | InSendDone _ => 0 <? send_ops w
  | InShutdown => shutting_down w
  end.

Definition step (i : input) : M unit :=
  match i with
  | InOpen cfg h => Open cfg h;; ret tt
  | InCall a => call_api a
  | InTask =>
      q <- gets queue;;
      match q with
      | [] => ret tt
      | t :: q => puts (fun w => w <| queue := q |>);; run_task t
      end
  | InTimer =>
      puts (fun w => w <| timer := false |>);;
      st <- get state_;;
      Fail BC_R_CONNECT_TIMEOUT (ConnectTimeout st)
  | InResolverStart => RunDnsRequest_start
  | InResolverFinish r => RunDnsRequest_finish r
  | InConnectDone result =>
      puts (fun w => w <| connect_ops ::= fun n => n - 1 |>);; ConnectDoneCallback result
  | InRecvDone result data =>
      puts (fun w => w <| recv_ops ::= fun n => n - 1 |>);; RecvDoneCallback result data
  | InSendDone result =>
      puts (fun w => w <| send_ops ::= fun n => n - 1 |>);; SendDoneCallback result
  | InShutdown => puts (fun w => w <| shutting_down := false |>);; OnEventProcShutdown
  end.

Inductive reachable : world -> Prop :=
| reachable_new : reachable new_world
| reachable_step w i w' :
    reachable w -> enabled i w = true -> step i w = inl (tt, w') -> reachable w'.
End Channel.
