(* ===== verification/ChannelInvariant.v ===== *)
(** * ChannelInvariant: what holds of a TCP channel at every moment

    The history of a trace, what is expected of each event given the history before
    it, the invariant of the channel phase by phase, and that every operation of
    [TcpChannel.v] preserves it, whatever the environment does. *)

From Stdlib Require Import ZArith Lia.
From stdpp Require Import base numbers option list.
From S2P Require Import Prelude Results VpnPolicy SocketPinner DnsMessage DnsResolver BCBuffer TlsContext TcpChannel.

(** ** Histories *)

Record history := {
  h_cfg : TcpChannelConfig;
  h_handler : option nat;
  h_state : State;
  h_parked : bool;
  h_poisoned : bool;
  h_handshake : bool;           (* the TLS handshake completed *)
  h_spki : bool;                (* the peer's key was accepted *)
  h_clean : bool;               (* the peer's close_notify came *)
  h_pin : option (Z * TTPinResult);
  h_closed : bool               (* [OnChannelClosed] was called *)
}.

#[global] Instance eta_history : Eta history := fun h =>
  {| h_cfg := h_cfg h; h_handler := h_handler h; h_state := h_state h; h_parked := h_parked h;
     h_poisoned := h_poisoned h; h_handshake := h_handshake h; h_spki := h_spki h;
     h_clean := h_clean h; h_pin := h_pin h; h_closed := h_closed h |}.

Definition new_history : history :=
  {| h_cfg := new_config; h_handler := None; h_state := TCPCH_IDLE; h_parked := false;
     h_poisoned := false; h_handshake := false; h_spki := false; h_clean := false;
     h_pin := None; h_closed := false |}.

Definition observe (h : history) (e : event) : history :=
  match e with
  | EvOpen cfg u => h <| h_cfg := cfg |> <| h_handler := Some u |>
  | EvState _ to => h <| h_state := to |>
  | EvPin i r => h <| h_pin := Some (i, r) |>
  | EvHandshake => h <| h_handshake := true |>
  | EvSpki r => h <| h_spki := r =? BC_R_SUCCESS |>
  | EvPark u => h <| h_handler := u |> <| h_parked := true |>
  | EvAdopt u => h <| h_handler := Some u |> <| h_parked := false |>
  | EvPoison => h <| h_poisoned := true |>
  | EvCloseNotify => h <| h_clean := true |>
  | OnChannelClosed _ _ _ => h <| h_closed := true |>
  | _ => h
  end.

Definition hist (tr : list event) : history := foldl observe new_history tr.

(** The peer has been authenticated as far as the configuration asks. *)
Definition verified (h : history) : Prop :=
  tc_tls (h_cfg h) = true ->
  h_handshake h = true /\ (spkiPin (tc_tls_cfg (h_cfg h)) <> [] -> h_spki h = true).

(** What is expected of an event, given what came before. *)
Definition expected (h : history) (e : event) : Prop :=
  h_closed h = false /\
  match e with
  | EvState from to =>
      from = h_state h /\ IsLegalTransition from to = true /\ (to = TCPCH_READY -> verified h)
  | EvConnect i =>
      h_state h = TCPCH_CONNECTING /\
      (tc_policy (h_cfg h) = TT_VPN_POLICY_FORCE_PHYSICAL -> h_pin h = Some (i, TT_PIN_OK))
  | EvSend _ => h_state h = TCPCH_TLS_HANDSHAKE \/ h_state h = TCPCH_READY
  | EvPark _ => h_state h = TCPCH_READY
  | EvAdopt _ => h_state h = TCPCH_READY /\ h_parked h = true /\ h_poisoned h = false
  | OnChannelReady u => h_handler h = Some u /\ h_state h = TCPCH_READY /\ verified h
  | OnChannelData u data =>
      h_handler h = Some u /\ h_state h = TCPCH_READY /\ verified h /\ h_parked h = false /\ data <> []
  | OnChannelClosed u _ why =>
      h_handler h = Some u /\ h_state h = TCPCH_CLOSED /\
      (why = PeerClosed -> tc_tls (h_cfg h) = true -> h_clean h = true)
  | _ => True
  end.

Definition trace_ok (tr : list event) : Prop :=
  forall pre e post, tr = pre ++ e :: post -> expected (hist pre) e.

Arguments hist : simpl never.
Arguments is_state : simpl never.

Lemma hist_snoc tr e : hist (tr ++ [e]) = observe (hist tr) e.
Proof. unfold hist. by rewrite foldl_app. Qed.

Lemma trace_ok_nil : trace_ok [].
Proof. intros pre e post H. by destruct pre. Qed.

Lemma trace_ok_snoc tr e : trace_ok tr -> expected (hist tr) e -> trace_ok (tr ++ [e]).
Proof.
  intros Ht He pre e' post E.
  destruct post as [|x post] using rev_ind.
  - apply app_inj_tail in E as [-> ->]. exact He.
  - clear IHpost. rewrite app_comm_cons, app_assoc in E. apply app_inj_tail in E as [E _].
    by eapply Ht.
Qed.

(** ** Execution *)

Section WP.
(** Which crashes are accounted for. *)
Context (K : crash -> Prop).

Definition wp {A} (m : M A) (Q : A -> world -> Prop) (w : world) : Prop :=
  match m w with inl (a, w') => Q a w' | inr c => K c end.

Lemma wp_bind {A B} (m : M A) (k : A -> M B) Q w :
  wp m (fun a w' => wp (k a) Q w') w -> wp (bind m k) Q w.
Proof. unfold wp, bind. by destruct (m w) as [[a w']|c]. Qed.

Lemma wp_mono {A} (m : M A) (P Q : A -> world -> Prop) w :
  wp m P w -> (forall a w', P a w' -> Q a w') -> wp m Q w.
Proof. unfold wp. destruct (m w) as [[a w']|c]; auto. Qed.

(** Calling an operation by its specification. *)
Lemma wp_call {A B} (m : M A) (k : A -> M B) P Q w :
  wp m P w -> (forall a w', P a w' -> wp (k a) Q w') -> wp (bind m k) Q w.
Proof. intros H HK. apply wp_bind. by eapply wp_mono. Qed.

(** The first operations of a sequence, before the rest. *)
Lemma wp_seq2 {A B C} (m1 : M A) (m2 : M B) (k : B -> M C) Q w :
  wp (x <- (m1;; m2);; k x) Q w -> wp (m1;; x <- m2;; k x) Q w.
Proof. unfold wp, bind. by destruct (m1 w) as [[a w1]|c]. Qed.

Lemma wp_seq3 {A B C D} (m1 : M A) (m2 : M B) (m3 : M C) (k : C -> M D) Q w :
  wp (x <- (m1;; m2;; m3);; k x) Q w -> wp (m1;; m2;; x <- m3;; k x) Q w.
Proof. unfold wp, bind. destruct (m1 w) as [[a w1]|c]; [|done]. by destruct (m2 w1) as [[b w2]|c]. Qed.

(** The primitive steps, the result given by the caller. *)
Lemma wp_ret {A} (a : A) Q w : Q a w -> wp (ret a) Q w.
Proof. done. Qed.

Lemma wp_get {A} (f : channel -> A) Q w v : f (ch w) = v -> Q v w -> wp (get f) Q w.
Proof. by intros <-. Qed.

Lemma wp_gets {A} (f : world -> A) Q w v : f w = v -> Q v w -> wp (gets f) Q w.
Proof. by intros <-. Qed.

Lemma wp_put f Q w w' : w <| ch ::= f |> = w' -> Q tt w' -> wp (put f) Q w.
Proof. by intros <-. Qed.

Lemma wp_puts f Q w w' : f w = w' -> Q tt w' -> wp (puts f) Q w.
Proof. by intros <-. Qed.

Lemma wp_log e Q w w' : w <| trace ::= fun t => t ++ [e] |> = w' -> Q tt w' -> wp (log e) Q w.
Proof. by intros <-. Qed.

Lemma wp_ask {A} (f : nat -> A) Q w t w' :
  tick w = t -> w <| tick ::= S |> = w' -> Q (f t) w' -> wp (ask f) Q w.
Proof. by intros <- <-. Qed.

Lemma wp_fail {A} c (Q : A -> world -> Prop) w : K c -> wp (fail c) Q w.
Proof. done. Qed.
End WP.

(** ** Automation: run the primitive steps of an operation *)

(** A world written out, so that its updates compute. *)
Ltac open_world w :=
  let c := fresh "c" in
  destruct w as [c m_ q_ rq_ wk_ tm_ co_ ro_ so_ sd_ tr_ tk_];
  destruct c as [cf_ ha_ st_ qc_ de_ pa_ po_ sk_ v6_ pe_ pl_ bi_ pm_ oe_ sc_ sl_ ly_ ct_ dr_ sn_
                 pd_ pc_ pr_ ps_ dp_ pt_ cl_ cn_ cr_ cw_].

(** Comparisons of known states. *)
Ltac known_states :=
  repeat match goal with
  | |- context [is_state ?a ?b] =>
      let v := eval vm_compute in (is_state a b) in
      lazymatch v with true => idtac | false => idtac end;
      change (is_state a b) with v
  end.

Ltac norm v :=
  eval cbv [update ch mem queue request worker timer connect_ops recv_ops send_ops shutting_down
    trace tick config_ handler_ state_ queue_created_ detached_ parked_ poisoned_ socket_ is_ipv6_
    peer_addr_ peer_addr_len_ bound_ifindex_ pin_method_ open_error_ ssl_ctx_ ssl_ ssl_layer_
    connect_timer_ dns_request_ tls_shutdown_clean_ pending_dns_ pending_connect_ pending_recv_
    pending_send_ ssl_depth_ pending_tasks_ closing_ closed_notified_ close_result_ close_reason_] in v.

Ltac norm_goal := lazymatch goal with |- ?G => let G' := norm G in change G' end.
Ltac norm_hyps := repeat match goal with H : ?G |- _ =>
  let G' := norm G in progress change G' in H end.

Ltac wp_one :=
  lazymatch goal with
  | |- wp _ (bind _ _) _ _ => apply wp_bind
  | |- wp ?K (ret ?a) ?Q ?w => apply (wp_ret K a Q w)
  | |- wp ?K (get ?f) ?Q ?w => let v := norm (f (ch w)) in apply (wp_get K f Q w v eq_refl)
  | |- wp ?K (gets ?f) ?Q ?w => let v := norm (f w) in apply (wp_gets K f Q w v eq_refl)
  | |- wp ?K (put ?f) ?Q ?w =>
      let v := norm (w <| ch ::= f |>) in apply (wp_put K f Q w v eq_refl)
  | |- wp ?K (puts ?f) ?Q ?w => let v := norm (f w) in apply (wp_puts K f Q w v eq_refl)
  | |- wp ?K (log ?e) ?Q ?w =>
      let v := norm (w <| trace ::= fun t => t ++ [e] |>) in apply (wp_log K e Q w v eq_refl)
  | |- wp ?K (ask ?f) ?Q ?w =>
      let v := norm (w <| tick ::= S |>) in
      let t := norm (tick w) in apply (wp_ask K f Q w t v eq_refl eq_refl)
  | |- wp ?K (fail ?c) ?Q ?w => apply (wp_fail K c Q w)
  end.

Ltac wp_run := repeat (progress (try wp_one; cbv beta; known_states; cbn [negb andb orb])).

(** ** The invariant *)

Section Invariant.
Context (E : env).

(** The crashes of the code: the SSL layer is used after a receive that failed at
    once has closed the channel, and a watcher that parks the channel again while it
    is being detached leaves no handler. The others are limits of the model. *)
Definition allowed_crash (c : crash) : Prop :=
  match c with
  | NullSslLayer => exists n, accepted (socket_recv E n) = false
  | NullHandler => exists n, CallPark None ∈ user_calls E n
  | NullSocket => False
  | CountWraps | ExtractStuck => True
  end.

Definition dns_idle (w : world) : Prop :=
  dns_request_ (ch w) = false /\ pending_dns_ (ch w) = 0 /\
  (worker w = Posted \/ worker w = Resolving -> request_gone w = true).

Definition no_ops (w : world) : Prop := connect_ops w = 0 /\ recv_ops w = 0 /\ send_ops w = 0.

(** The configuration the trace shows is the one in use. *)
Definition known (w : world) : Prop :=
  let cfg := config_ (ch w) in
  let h := h_cfg (hist (trace w)) in
  queue_created_ (ch w) = true /\ tc_tls cfg = tc_tls h /\ tc_tls_cfg cfg = tc_tls_cfg h /\
  tc_policy cfg = tc_policy h.

Definition open_ended (w : world) : Prop :=
  closed_notified_ (ch w) = false /\ shutting_down w = false /\ h_closed (hist (trace w)) = false /\
  handler_ (ch w) = h_handler (hist (trace w)).

Definition live (w : world) : Prop :=
  closing_ (ch w) = false /\ open_ended w /\ (timer w = true -> connect_timer_ (ch w) = true).

Definition target_if_forced (c : channel) : Prop :=
  tc_policy (config_ c) = TT_VPN_POLICY_FORCE_PHYSICAL -> HasBindTarget E c = true.

Definition reason_justified (w : world) : Prop :=
  close_reason_ (ch w) = PeerClosed -> tc_tls (h_cfg (hist (trace w))) = true ->
  h_clean (hist (trace w)) = true.

(** The shutdown of the queue, where [OnChannelClosed] is called, is still to come, unless it
    was or there is nobody to call. *)
Definition told (w : world) : Prop :=
  shutting_down w = true \/ h_closed (hist (trace w)) = true \/ h_handler (hist (trace w)) = None.

Definition phase_ok (w : world) : Prop :=
  let c := ch w in
  match state_ c with
  | TCPCH_IDLE =>
      live w /\ queue_created_ c = false /\ socket_ c = false /\ ssl_layer_ c = false /\
      no_ops w /\ queue w = [] /\ dns_idle w /\ timer w = false /\
      worker w = NoRequest
  | TCPCH_RESOLVING =>
      live w /\ known w /\ socket_ c = false /\ ssl_layer_ c = false /\ no_ops w /\
      target_if_forced c /\ pending_dns_ c = (if dns_request_ c then 1 else 0) /\
      (dns_request_ c = false -> dns_idle w)
  | TCPCH_PINNING =>
      live w /\ known w /\ no_ops w /\ target_if_forced c /\ dns_idle w
  | TCPCH_CONNECTING =>
      live w /\ known w /\ socket_ c = true /\ ssl_layer_ c = tc_tls (config_ c) /\
      recv_ops w = 0 /\ send_ops w = 0 /\ dns_idle w
  | TCPCH_TLS_HANDSHAKE =>
      live w /\ known w /\ socket_ c = true /\ ssl_layer_ c = true /\ tc_tls (config_ c) = true /\
      dns_idle w
  | TCPCH_READY =>
      live w /\ known w /\ socket_ c = true /\ ssl_layer_ c = tc_tls (config_ c) /\
      verified (hist (trace w)) /\ dns_idle w
  | TCPCH_CLOSING =>
      closing_ c = true /\ open_ended w /\ known w /\ dns_idle w /\ timer w = false /\
      reason_justified w
  | TCPCH_CLOSED =>
      closing_ c = true /\ closed_notified_ c = true /\ known w /\ dns_idle w /\ timer w = false /\
      reason_justified w /\ no_ops w /\ queue w = [] /\ socket_ c = false /\ ssl_layer_ c = false /\
      ssl_depth_ c = 0 /\ told w /\
      (shutting_down w = true ->
         h_closed (hist (trace w)) = false /\ handler_ c = h_handler (hist (trace w)))
  end.

(** No name resolution is posted or running. *)
Definition resolver_done (w : world) : Prop := worker w = NoRequest \/ worker w = WorkDone.

Record core (w : world) : Prop := {
  core_trace : trace_ok (trace w);
  core_state : state_ (ch w) = h_state (hist (trace w));
  core_parked : parked_ (ch w) = h_parked (hist (trace w));
  core_poisoned : poisoned_ (ch w) = h_poisoned (hist (trace w));
  core_clean : tls_shutdown_clean_ (ch w) = h_clean (hist (trace w));
  core_tasks : pending_tasks_ (ch w) = Z.of_nat (length (queue w));
  core_connect : pending_connect_ (ch w) = connect_ops w;
  core_recv : pending_recv_ (ch w) = recv_ops w;
  core_send : pending_send_ (ch w) = send_ops w;
  core_ops : 0 <= connect_ops w /\ 0 <= recv_ops w /\ 0 <= send_ops w;
  core_depth : 0 <= ssl_depth_ (ch w);
  core_resolver : forall r, TaskResolveDone r ∈ queue w -> resolver_done w;
  core_phase : phase_ok w
}.

(** Something is still to complete that will look at closing again. *)
Definition busy (c : channel) : bool := (0 <? ssl_depth_ c) || io_pending c || (0 <? pending_tasks_ c).

Definition settled (w : world) : Prop :=
  closing_ (ch w) = true -> closed_notified_ (ch w) = false -> busy (ch w) = true.

(** The order in which the states are gone through. *)
Definition rank (s : State) : Z :=
  match s with
  | TCPCH_IDLE => 0 | TCPCH_RESOLVING => 1 | TCPCH_PINNING => 2 | TCPCH_CONNECTING => 3
  | TCPCH_TLS_HANDSHAKE => 4 | TCPCH_READY => 5 | TCPCH_CLOSING => 6 | TCPCH_CLOSED => 7
  end.

Lemma rank_closed s : rank s <= rank TCPCH_CLOSED.
Proof. by destruct s. Qed.

(** What every operation does to the rest. *)
Record grows (w w' : world) : Prop := {
  grows_state : rank (state_ (ch w)) <= rank (state_ (ch w'));
  grows_depth : ssl_depth_ (ch w') = ssl_depth_ (ch w);
  grows_closing : closing_ (ch w) = true -> closing_ (ch w') = true;
  grows_settled : settled w -> settled w'
}.

Lemma grows_refl w : grows w w.
Proof. split; [lia|done..]. Qed.

Lemma grows_trans w1 w2 w3 : grows w1 w2 -> grows w2 w3 -> grows w1 w3.
Proof. intros [???? ] [????]. split; [lia|congruence|auto|auto]. Qed.

Abbreviation WP := (wp allowed_crash).

Ltac wp_step :=
  lazymatch goal with
  | |- wp _ (bind _ _) _ _ => apply wp_bind
  | |- wp _ (ret ?a) ?Q ?w => change (Q a w)
  | |- wp _ (get ?f) ?Q ?w => let v := eval cbn in (f (ch w)) in change (Q v w)
  | |- wp _ (gets ?f) ?Q ?w => let v := eval cbn in (f w) in change (Q v w)
  | |- wp _ (put ?f) ?Q ?w => change (Q tt (w <| ch ::= f |>))
  | |- wp _ (puts ?f) ?Q ?w => change (Q tt (f w))
  | |- wp _ (log ?e) ?Q ?w => change (Q tt (w <| trace ::= fun t => t ++ [e] |>))
  | |- wp _ (ask ?f) ?Q ?w => change (Q (f (tick w)) (w <| tick ::= S |>))
  | |- wp _ (fail ?c) ?Q ?w => change (allowed_crash c)
  end; cbv beta.

Ltac wp_prim := repeat wp_step; cbn [negb andb orb].

Lemma new_core : core new_world.
Proof.
  split; try done; [apply trace_ok_nil|]. intros r H. by inversion H.
Qed.

(** Unfold the invariant of a world whose phase is known, keeping what is told of the
    phase as one hypothesis. *)
Ltac phases :=
  unfold phase_ok, told, live, open_ended, known, no_ops, dns_idle, target_if_forced, reason_justified,
    HasBindTarget, request_gone in *.

Ltac core_intro H :=
  destruct H as [Htr Hst Hpk Hpo Hcl Htk Hco Hre Hse Hop Hdp Hrs Hph].

(** Count to a number of tasks. *)
Lemma length_snoc {A} (l : list A) x : Z.of_nat (length (l ++ [x])) = Z.of_nat (length l) + 1.
Proof. rewrite length_app. cbn. lia. Qed.

Lemma is_state_true a b : is_state a b = true <-> a = b.
Proof. unfold is_state. by rewrite bool_decide_eq_true. Qed.

Lemma is_state_false a b : is_state a b = false <-> a <> b.
Proof. unfold is_state. by rewrite bool_decide_eq_false. Qed.

(** Posting a task that holds a count. *)
Lemma post_core w t :
  core w -> closed_notified_ (ch w) = false -> queue_created_ (ch w) = true ->
  (forall r, t = TaskResolveDone r -> resolver_done w) ->
  let w' := w <| ch ::= fun c => c <| pending_tasks_ := pending_tasks_ (ch w) + 1 |> |>
              <| queue ::= fun q => q ++ [t] |> in
  core w' /\ grows w w'.
Proof.
  intros H Hcn Hqc Ht. core_intro H. cbn zeta. split.
  - split; cbn; try done.
    + rewrite length_snoc. lia.
    + intros r Hr. apply elem_of_app in Hr as [Hr|Hr%list_elem_of_singleton]; [by apply (Hrs r)|by apply (Ht r)].
    + revert Hph. phases. cbn. destruct (state_ (ch w)); try done; intuition congruence.
  - split; cbn; try done. unfold settled, busy, io_pending. cbn. intros Hs Hc Hn.
    specialize (Hs Hc Hn). rewrite Htk. rewrite Htk in Hs.
    rewrite (proj2 (Z.ltb_lt 0 (Z.of_nat (length (queue w)) + 1))) by lia. by rewrite orb_true_r.
Qed.

(** ** The user's calls *)

(** A call of the user leaves the phase; only parking without a watcher ([P]) takes the
    handler away. *)
Definition calm (P : Prop) (w w' : world) : Prop :=
  state_ (ch w') = state_ (ch w) /\ (handler_ (ch w') = None -> handler_ (ch w) = None \/ P).

Definition parks_null : Prop := exists n, CallPark None ∈ user_calls E n.

Lemma calm_refl P w : calm P w w.
Proof. split; [done|by left]. Qed.

Lemma calm_trans P w1 w2 w3 : calm P w1 w2 -> calm P w2 w3 -> calm P w1 w3.
Proof. intros [E1 H1] [E2 H2]. split; [congruence|]. intros H. destruct (H2 H); auto. Qed.

(** The phases in which the queue exists and the channel is not closed. *)
Lemma ready_open w : core w -> state_ (ch w) = TCPCH_READY ->
  closed_notified_ (ch w) = false /\ queue_created_ (ch w) = true.
Proof. intros H Hr. core_intro H. revert Hph. phases. rewrite Hr. tauto. Qed.

Lemma park_core w u :
  core w -> state_ (ch w) = TCPCH_READY ->
  let w' := w <| ch ::= fun c => c <| handler_ := u |> <| parked_ := true |> |>
              <| trace ::= fun t => t ++ [EvPark u] |> in
  core w' /\ grows w w'.
Proof.
  intros H Hr. core_intro H. revert Hph. phases. rewrite Hr. intros Hph. cbn zeta. split; [|split; done].
  split; cbn; rewrite ?hist_snoc; cbn; try done.
  - apply trace_ok_snoc; [done|]. split; [tauto|]. cbn. congruence.
  - phases. cbn. rewrite Hr, hist_snoc. cbn. tauto.
Qed.

Lemma call_api_spec P a w :
  core w -> (a = CallPark None -> P) ->
  WP (call_api a) (fun _ w' => core w' /\ grows w w' /\ calm P w w') w.
Proof.
  intros H Ha.
  assert (Hid : core w /\ grows w w /\ calm P w w) by (split_and!; [done|apply grows_refl|apply calm_refl]).
  assert (Hpost : forall t, closed_notified_ (ch w) = false -> queue_created_ (ch w) = true ->
    (forall r, t = TaskResolveDone r -> resolver_done w) ->
    let w' := w <| ch ::= fun c => c <| pending_tasks_ := pending_tasks_ (ch w) + 1 |> |>
                <| queue ::= fun q => q ++ [t] |> in
    core w' /\ grows w w' /\ calm P w w').
  { intros t Hcn Hqc Ht. destruct (post_core w t H Hcn Hqc Ht) as [H1 H2]. split_and!; [done|done|].
    split; [done|by left]. }
  destruct a as [[buf|]| |u|[h|]]; cbn [call_api]; try exact Hid.
  - unfold Send. wp_prim. destruct (is_state (state_ (ch w)) TCPCH_READY) eqn:Hr; [|exact Hid].
    apply is_state_true in Hr. destruct (ready_open w H Hr) as [Hcn Hqc]. cbn.
    unfold AcquirePendingTask. wp_prim. rewrite Hcn. unfold increment. wp_prim.
    destruct (_ <? UINT32_MAX); [|exact I]. by apply Hpost.
  - unfold Close. wp_prim. destruct (queue_created_ (ch w)) eqn:Hqc; [|exact Hid]. cbn.
    unfold AcquirePendingTask. wp_prim. destruct (closed_notified_ (ch w)) eqn:Hcn; [exact Hid|].
    unfold increment. wp_prim. destruct (_ <? UINT32_MAX); [|exact I]. by apply Hpost.
  - unfold Park. wp_prim. destruct (is_state (state_ (ch w)) TCPCH_READY) eqn:Hr; [|exact Hid].
    apply is_state_true in Hr. destruct (park_core w u H Hr) as [H1 H2]. cbn.
    split; [exact H1|]. split; [exact H2|]. split; [done|]. cbn. intros ->. right. by apply Ha.
  - unfold Adopt, IsParkedAndUsable. wp_prim.
    destruct (parked_ (ch w) && negb (poisoned_ (ch w)) && is_state (state_ (ch w)) TCPCH_READY) eqn:Hr;
      [|exact Hid].
    apply andb_true_iff in Hr as [_ Hr%is_state_true]. destruct (ready_open w H Hr) as [Hcn Hqc]. cbn.
    unfold AcquirePendingTask. wp_prim. rewrite Hcn. unfold increment. wp_prim.
    destruct (_ <? UINT32_MAX); [|exact I]. by apply Hpost.
Qed.

Lemma each_api_spec P l w :
  core w -> (CallPark None ∈ l -> P) ->
  WP (each call_api l) (fun _ w' => core w' /\ grows w w' /\ calm P w w') w.
Proof.
  revert w. induction l as [|a l IH]; intros w H Hl; cbn [each].
  - split_and!; [done|apply grows_refl|apply calm_refl].
  - eapply wp_call; [apply (call_api_spec P a); [done|intros ->; apply Hl; by left]|].
    intros _ w1 (H1 & G1 & C1). eapply wp_mono; [apply IH; [done|intros Hin; apply Hl; by right]|].
    intros _ w2 (H2 & G2 & C2). split_and!; [done|by eapply grows_trans|by eapply calm_trans].
Qed.

(** What holds between two steps: the invariant, nothing left undone, and no call into the
    SSL layer on the stack. *)
Record stable (w : world) : Prop := {
  stable_core : core w;
  stable_settled : settled w;
  stable_depth : ssl_depth_ (ch w) = 0
}.

Abbreviation steps := (fun _ w' => stable w').

(** *** Being told *)

Lemma tick_core w : core w -> core (w <| tick ::= S |>).
Proof. intros H. core_intro H. by split. Qed.

(** An event that says nothing the invariant remembers. *)
Lemma log_core w e :
  core w -> expected (hist (trace w)) e -> observe (hist (trace w)) e = hist (trace w) ->
  core (w <| trace ::= fun t => t ++ [e] |>).
Proof.
  intros H He Ho. core_intro H.
  split; cbn; rewrite ?hist_snoc, ?Ho; try done.
  - by apply trace_ok_snoc.
  - revert Hph. phases. cbn. by rewrite hist_snoc, Ho.
Qed.

Lemma notify_spec e w :
  core w -> expected (hist (trace w)) e -> observe (hist (trace w)) e = hist (trace w) ->
  WP (notify E e) (fun _ w' => core w' /\ grows w w' /\ calm parks_null w w') w.
Proof.
  intros H He Ho. unfold notify. wp_prim.
  eapply wp_mono; [apply (each_api_spec parks_null); [|by exists (tick w)]|].
  - apply tick_core. by apply log_core.
  - intros _ w' (H' & [G1 G2 G3] & [C1 C2]). split; [done|]. split; [by split|]. by split.
Qed.

(** ** Closing *)

Lemma finish_core w :
  core w -> closing_ (ch w) = true -> closed_notified_ (ch w) = false ->
  io_pending (ch w) = false -> (0 <? pending_tasks_ (ch w)) = false -> ssl_depth_ (ch w) = 0 ->
  WP (SetState TCPCH_CLOSED;; Cleanup;; put (fun c => c <| detached_ := true |>);; Detach)
    (fun _ w' => core w' /\ state_ (ch w') = TCPCH_CLOSED /\ closed_notified_ (ch w') = true /\
                 closing_ (ch w') = true /\
                 ssl_depth_ (ch w') = ssl_depth_ (ch w))
    (w <| ch ::= fun c => c <| closed_notified_ := true |> |>).
Proof.
  intros H Hc Hn Hio Htasks Hd0. core_intro H.
  assert (Hs : state_ (ch w) = TCPCH_CLOSING).
  { revert Hph. phases. destruct (state_ (ch w)); intuition congruence. }
  unfold io_pending in Hio. zbool.
  assert (Hq : queue w = []) by (destruct (queue w); [done|cbn in Htk; lia]).
  revert Hph. phases. rewrite Hs. intros Hph.
  open_world w. cbn in *. rewrite Hs in *. clear Hs. subst q_.
  unfold SetState, Cleanup, Detach. norm_goal. wp_run. norm_goal.
  split; [|by split_and!]. split; cbn; rewrite ?hist_snoc; cbn; try done.
  - apply trace_ok_snoc; [done|]. split; [tauto|]. cbn. split_and!; [congruence|done|done].
  - phases. cbn. rewrite !hist_snoc. cbn. rewrite <- Hco, <- Hre, <- Hse. tauto.
Qed.

Lemma MaybeFinishClose_spec w :
  core w -> WP MaybeFinishClose (fun _ w' => core w' /\ grows w w' /\ settled w' /\
    (closing_ (ch w) = false -> w' = w)) w.
Proof.
  intros H. unfold MaybeFinishClose. apply wp_bind, (wp_get _ _ _ _ _ eq_refl).
  replace (negb (closing_ (ch w)) || _ || _ || _ || _)
    with (negb (closing_ (ch w)) || closed_notified_ (ch w) || busy (ch w))
    by (unfold busy; destruct (closing_ (ch w)), (closed_notified_ (ch w)), (0 <? ssl_depth_ (ch w)),
          (io_pending (ch w)); done).
  destruct (closing_ (ch w)) eqn:Hc; cbn [negb orb];
    [|apply wp_ret; split_and!; [done|apply grows_refl|by intros ?; congruence|done]].
  destruct (closed_notified_ (ch w)) eqn:Hn; cbn [orb];
    [apply wp_ret; split_and!; [done|apply grows_refl|by intros ??; congruence|done]|].
  destruct (busy (ch w)) eqn:Hb; [apply wp_ret; split_and!; [done|apply grows_refl|by intros _ _|done]|].
  unfold busy in Hb. apply orb_false_iff in Hb as [[Hd%Z.ltb_ge Hio]%orb_false_iff Htasks].
  pose proof (core_depth w H) as Hd0.
  apply wp_bind, (wp_put _ _ _ _ _ eq_refl).
  eapply wp_mono; [apply finish_core; try done; lia|].
  intros _ w' (H' & Hst' & Hcn & Hcl' & Hd'). split_and!; [done| | |congruence].
  - split; [rewrite Hst'; apply rank_closed|done|done|]. intros _ _ ?. congruence.
  - intros _ ?. congruence.
Qed.

(** What holds in all the phases in which the channel is neither closing nor closed, and
    in all those after [Open]. *)
Lemma core_live w : core w -> closing_ (ch w) = false -> live w.
Proof. intros H Hc. core_intro H. revert Hph. unfold phase_ok. destruct (state_ (ch w)); intuition congruence. Qed.

Lemma core_known w : core w -> state_ (ch w) <> TCPCH_IDLE -> known w.
Proof. intros H Hi. core_intro H. revert Hph. unfold phase_ok. destruct (state_ (ch w)); tauto. Qed.

Lemma core_closing w : core w -> closing_ (ch w) = false ->
  state_ (ch w) <> TCPCH_CLOSING /\ state_ (ch w) <> TCPCH_CLOSED.
Proof.
  intros H Hc. core_intro H. revert Hph. unfold phase_ok.
  destruct (state_ (ch w)); intuition congruence.
Qed.

(** Cancelling leaves the resolver nothing to do for the channel. *)
Lemma core_dns w : core w ->
  pending_dns_ (ch w) = (if dns_request_ (ch w) then 1 else 0) /\
  (dns_request_ (ch w) = false -> dns_idle w).
Proof.
  intros H. core_intro H. revert Hph. unfold phase_ok, dns_idle.
  destruct (state_ (ch w)), (dns_request_ (ch w)); intuition congruence.
Qed.

(** [CancelIo] where the channel starts to close. *)
Lemma start_close_core result why w :
  core w -> closing_ (ch w) = false -> state_ (ch w) <> TCPCH_IDLE ->
  (why = PeerClosed -> tc_tls (h_cfg (hist (trace w))) = true -> h_clean (hist (trace w)) = true) ->
  WP (put (fun c => c <| closing_ := true |> <| close_result_ := result |> <| close_reason_ := why |>);;
      SetState TCPCH_CLOSING;; CancelIo)
    (fun _ w' => core w' /\ rank (state_ (ch w)) <= rank (state_ (ch w')) /\
                 closing_ (ch w') = true /\ ssl_depth_ (ch w') = ssl_depth_ (ch w)) w.
Proof.
  intros H Hc Hi Hwhy. destruct (core_closing w H Hc) as [Hs1 Hs2].
  destruct (core_dns w H) as [Hpd Hdns]. pose proof (core_known w H Hi) as Hk.
  destruct (core_live w H Hc) as (_ & (Ho1 & Ho2 & Ho3 & Ho4) & Htm).
  core_intro H. clear Hph.
  assert (Hns : is_state (state_ (ch w)) TCPCH_CLOSING = false) by by apply is_state_false.
  assert (Hleg : IsLegalTransition (state_ (ch w)) TCPCH_CLOSING = true) by by destruct (state_ (ch w)).
  open_world w. norm_hyps. unfold SetState, CancelIo, UnscheduleTimer, AbandonDns. norm_goal.
  wp_run. rewrite Hns. wp_run.
  set (tr' := tr_ ++ _).
  assert (Htr' : trace_ok tr') by by apply trace_ok_snoc.
  assert (Hh : hist tr' = observe (hist tr_) (EvState st_ TCPCH_CLOSING)) by apply hist_snoc.
  clearbody tr'. phases. norm_hyps.
  assert (Htm' : ct_ = false -> tm_ = false) by (destruct tm_; [rewrite Htm by done|]; done). clear Htm.
  destruct ct_; [clear Htm'|specialize (Htm' eq_refl)]; wp_run;
  (destruct dr_; [clear Hdns|specialize (Hdns eq_refl)]); wp_run; (split; [|split; [by destruct st_|done]]);
  split; norm_goal; rewrite ?Hh; try done;
  phases; norm_goal; rewrite ?Hh; cbn; destruct rq_; cbn; intuition congruence.
Qed.

Lemma Fail_spec result why w :
  core w -> state_ (ch w) <> TCPCH_IDLE ->
  (why = PeerClosed -> tc_tls (h_cfg (hist (trace w))) = true -> h_clean (hist (trace w)) = true) ->
  WP (Fail result why) (fun _ w' => core w' /\ grows w w' /\ settled w' /\ closing_ (ch w') = true) w.
Proof.
  intros H Hi Hwhy. unfold Fail. apply wp_bind, (wp_get _ _ _ _ _ eq_refl).
  destruct (closing_ (ch w)) eqn:Hc.
  { eapply wp_mono; [by apply MaybeFinishClose_spec|].
    intros _ w' (H' & G & Hs & _). split_and!; [done|done|done|]. by apply G. }
  apply wp_seq3. eapply wp_call; [by apply start_close_core|].
  intros _ w1 (H1 & Hr1 & Hc1 & Hd1). eapply wp_mono; [by apply MaybeFinishClose_spec|].
  intros _ w' (H' & [G0 G1 G2 G3] & Hs & _). split_and!; [done| |done|by apply G2].
  split; [lia|congruence|by intros _; apply G2|done].
Qed.

(** ** Reading and writing *)

(** The states in which the SSL layer and the socket carry data, and those after. *)
Definition late (w : world) : Prop := rank TCPCH_TLS_HANDSHAKE <= rank (state_ (ch w)).

(** The kernel refuses a receive at once. *)
Definition recv_refused : Prop := exists n, accepted (socket_recv E n) = false.

Lemma late_grows w w' : late w -> grows w w' -> late w'.
Proof. unfold late. intros H G. pose proof (grows_state _ _ G). lia. Qed.

Lemma late_opened w : late w -> state_ (ch w) <> TCPCH_IDLE.
Proof. unfold late. intros H Hs. by rewrite Hs in H. Qed.

Lemma late_working w : core w -> late w -> closing_ (ch w) = false ->
  state_ (ch w) = TCPCH_TLS_HANDSHAKE \/ state_ (ch w) = TCPCH_READY.
Proof.
  intros H Hl Hc. destruct (core_closing w H Hc). revert Hl. unfold late.
  destruct (state_ (ch w)); try done; auto.
Qed.

(** An answer of the environment changes nothing. *)
Lemma ask_core w : core w -> core (w <| tick ::= S |>) /\ grows w (w <| tick ::= S |>).
Proof. intros H. split; [by apply tick_core|]. by split; [cbn; lia|..]. Qed.

Lemma sent_core w buf :
  core w -> late w -> closing_ (ch w) = false ->
  let w' := w <| trace ::= fun t => t ++ [EvSend buf] |> <| send_ops ::= fun n => n + 1 |>
              <| ch ::= fun c => c <| pending_send_ := pending_send_ (ch w) + 1 |> |> in
  core w' /\ grows w w'.
Proof.
  intros H Hl Hc. pose proof (late_working w H Hl Hc) as Hw.
  destruct (core_live w H Hc) as (_ & (_ & _ & Ho & _) & _).
  core_intro H. open_world w. cbn zeta. norm_goal. norm_hyps.
  set (tr' := tr_ ++ _).
  assert (Htr' : trace_ok tr').
  { apply trace_ok_snoc; [done|]. split; [done|]. by rewrite <- Hst. }
  assert (Hh : hist tr' = hist tr_) by apply hist_snoc. clearbody tr'.
  split; [|split; norm_goal; [lia|done|done|]].
  - split; norm_goal; rewrite ?Hh; try done; [lia|lia|].
    revert Hph. phases. norm_goal. rewrite Hh. destruct Hw as [Hw|Hw]; rewrite Hw; tauto.
  - unfold settled, busy, io_pending. norm_goal. congruence.
Qed.

(** What a fallible operation leaves: the invariant, and the same state when it worked. *)
Definition works {A} (good : A -> bool) (w : world) (a : A) (w' : world) : Prop :=
  core w' /\ grows w w' /\ (good a = true -> closing_ (ch w) = false ->
                            closing_ (ch w') = false /\ state_ (ch w') = state_ (ch w)).

Lemma SendV_spec buf w :
  core w -> late w -> closing_ (ch w) = false -> WP (SendV E buf) (works (fun _ => true) w) w.
Proof.
  intros H Hl Hc. unfold SendV. apply wp_bind, (wp_ask _ _ _ _ _ _ eq_refl eq_refl).
  destruct (ask_core w H) as [H1 G1]. set (w1 := w <| tick ::= S |>) in *.
  assert (Hl1 : late w1) by done. assert (Hc1 : closing_ (ch w1) = false) by done.
  assert (Hs1 : state_ (ch w1) = state_ (ch w)) by done. clearbody w1.
  destruct (accepted _); [|by apply wp_ret].
  destruct (sent_core w1 buf H1 Hl1 Hc1) as [H2 G2]. revert H2 G2.
  open_world w1. unfold increment. cbn zeta. norm_goal. intros H2 G2. wp_run.
  destruct (_ <? UINT32_MAX); wp_run; [|done].
  split; [exact H2|]. split; [by eapply grows_trans|done].
Qed.

Lemma SendRaw_loop_spec fuel buf w :
  core w -> late w -> closing_ (ch w) = false ->
  WP (SendRaw_loop E fuel buf) (works (fun rest => bool_decide (is_Some rest)) w) w.
Proof.
  revert buf w. induction fuel as [|fuel IH]; intros buf w H Hl Hc; cbn [SendRaw_loop];
    (destruct (_ <=? _); [apply wp_ret; split_and!; [done|apply grows_refl|done]|]).
  - by apply wp_fail.
  - destruct (Extract _ _ _) as [[[n buf'] slice]|]; [|by apply wp_fail].
    eapply wp_call; [by apply SendV_spec|]. intros r w1 (H1 & G1 & K1).
    destruct (K1 eq_refl Hc) as [Hc1 Hs1]. destruct (accepted r).
    + eapply wp_mono; [apply IH; [done|by eapply late_grows|done]|].
      intros rest w2 (H2 & G2 & K2). split; [done|]. split; [by eapply grows_trans|].
      intros Hr _. destruct (K2 Hr Hc1). split; congruence.
    + eapply wp_call; [apply Fail_spec; [done|by eapply late_opened, late_grows|done]|].
      intros _ w2 (H2 & G2 & _ & _). apply wp_ret. split; [done|]. split; [by eapply grows_trans|done].
Qed.

Lemma SendRaw_spec buf w :
  core w -> late w -> WP (SendRaw E buf) (fun _ w' => core w' /\ grows w w') w.
Proof.
  intros H Hl. unfold SendRaw. apply wp_bind, (wp_get _ _ _ _ _ eq_refl).
  destruct (closing_ (ch w)) eqn:Hc; cbn [orb]; [apply wp_ret; split; [done|apply grows_refl]|].
  destruct (negb _); [apply wp_ret; split; [done|apply grows_refl]|].
  eapply wp_call; [by apply SendRaw_loop_spec|]. intros [rest|] w1 (H1 & G1 & K1); [|by apply wp_ret].
  destruct (K1 eq_refl Hc) as [Hc1 _].
  destruct (0 <? _); [|by apply wp_ret].
  pose proof (late_grows _ _ Hl G1) as Hl1.
  eapply wp_call; [by apply SendV_spec|]. intros r w2 (H2 & G2 & _).
  destruct (accepted r); [apply wp_ret; split; [done|by eapply grows_trans]|].
  eapply wp_mono; [apply Fail_spec; [done|by eapply late_opened, late_grows|done]|].
  intros _ w3 (H3 & G3 & _). split; [done|]. eapply grows_trans; [done|]. by eapply grows_trans.
Qed.

Lemma receiving_core w :
  core w -> late w -> closing_ (ch w) = false ->
  let w' := w <| recv_ops ::= fun n => n + 1 |>
              <| ch ::= fun c => c <| pending_recv_ := pending_recv_ (ch w) + 1 |> |> in
  core w' /\ grows w w'.
Proof.
  intros H Hl Hc. pose proof (late_working w H Hl Hc) as Hw. core_intro H.
  open_world w. cbn zeta. norm_goal. norm_hyps.
  split; [|split; norm_goal; [lia|done|done|]].
  - split; norm_goal; try done; [lia|lia|].
    revert Hph. phases. norm_goal. destruct Hw as [Hw|Hw]; rewrite Hw; tauto.
  - unfold settled, busy, io_pending. norm_goal. congruence.
Qed.

Lemma TcpRecv_spec w :
  core w -> late w ->
  WP (TcpRecv E) (fun _ w' => core w' /\ grows w w' /\
    (recv_refused \/ (state_ (ch w') = state_ (ch w) /\ ssl_layer_ (ch w') = ssl_layer_ (ch w)))) w.
Proof.
  intros H Hl. unfold TcpRecv. apply wp_bind, (wp_get _ _ _ _ _ eq_refl).
  destruct (closing_ (ch w)) eqn:Hc; cbn [orb];
    [apply wp_ret; split_and!; [done|apply grows_refl|by right]|].
  destruct (negb _ || _); [apply wp_ret; split_and!; [done|apply grows_refl|by right]|].
  apply wp_bind, (wp_ask _ _ _ _ _ _ eq_refl eq_refl). destruct (ask_core w H) as [H1 G1].
  destruct (accepted _) eqn:Ha.
  - destruct (receiving_core _ H1 Hl Hc) as [H2 G2]. revert H2 G2. cbn zeta. clear H H1.
    open_world w. unfold increment. norm_hyps. norm_goal. intros H2 G2. wp_run.
    destruct (_ <? UINT32_MAX); wp_run; [|done].
    split; [exact H2|]. split; [|by right]. by eapply grows_trans.
  - eapply wp_mono; [apply Fail_spec; [done|by eapply late_opened|done]|].
    intros _ w3 (H3 & G3 & _). split; [done|]. split; [by eapply grows_trans|]. left. by exists (tick w).
Qed.

(** ** Inside the SSL layer *)

Lemma depth_core w n :
  core w -> 0 <= n -> state_ (ch w) <> TCPCH_CLOSED -> core (w <| ch ::= fun c => c <| ssl_depth_ := n |> |>).
Proof.
  intros H Hn Hs. core_intro H. split; try done.
  revert Hph. phases. cbn. destruct (state_ (ch w)); tauto.
Qed.

(** While a call into the layer is on the stack, closing waits for it. *)
Lemma inside_open w : core w -> 0 < ssl_depth_ (ch w) -> state_ (ch w) <> TCPCH_CLOSED.
Proof. intros H Hd Hs. core_intro H. revert Hph. phases. rewrite Hs. lia. Qed.

Lemma open_not_closed w : core w -> state_ (ch w) <> TCPCH_CLOSED ->
  h_closed (hist (trace w)) = false /\ closed_notified_ (ch w) = false.
Proof. intros H Hs. core_intro H. revert Hph. phases. destruct (state_ (ch w)); tauto. Qed.

Lemma guarded_spec body w :
  core w -> state_ (ch w) <> TCPCH_CLOSED ->
  (forall w1, core w1 -> state_ (ch w1) = state_ (ch w) -> 0 < ssl_depth_ (ch w1) ->
     ssl_layer_ (ch w1) = ssl_layer_ (ch w) -> WP body (fun _ w' => core w' /\ grows w1 w') w1) ->
  WP (guarded body) (fun _ w' => core w' /\ grows w w' /\ settled w') w.
Proof.
  intros H Hs Hbody. pose proof (core_depth w H) as Hd.
  unfold guarded, increment. apply wp_bind, wp_bind, (wp_get _ _ _ _ _ eq_refl).
  destruct (_ <? UINT32_MAX); [|by apply wp_fail].
  apply (wp_put _ _ _ _ _ eq_refl). set (w1 := w <| ch ::= _ |>).
  assert (H1 : core w1) by (apply depth_core; [done|lia|done]).
  assert (Hd1 : ssl_depth_ (ch w1) = ssl_depth_ (ch w) + 1) by done.
  assert (G1 : rank (state_ (ch w)) <= rank (state_ (ch w1)) /\
    (closing_ (ch w) = true -> closing_ (ch w1) = true)) by (split; [cbn; lia|done]).
  eapply wp_call; [apply (Hbody w1); [done|done|lia|done]|]. intros _ w2 (H2 & [Gr Gd Gc _]).
  clearbody w1. rewrite Hd1 in Gd.
  apply wp_bind, (wp_get _ _ _ _ _ eq_refl). rewrite Gd.
  apply wp_bind, (wp_put _ _ _ _ _ eq_refl). set (w3 := w2 <| ch ::= _ |>).
  assert (H3 : core w3) by (apply depth_core; [done|lia|apply inside_open; [done|lia]]).
  assert (Hd3 : ssl_depth_ (ch w3) = ssl_depth_ (ch w)) by (cbn; lia).
  assert (G3 : rank (state_ (ch w)) <= rank (state_ (ch w3)) /\
    (closing_ (ch w) = true -> closing_ (ch w3) = true)).
  { destruct G1. split; [cbn; lia|cbn; auto]. }
  clearbody w3. destruct (Z.eqb_spec (ssl_depth_ (ch w) + 1 - 1) 0) as [Hz|Hz].
  - eapply wp_mono; [by apply MaybeFinishClose_spec|]. intros _ w' (H' & [Gr' Gd' Gc' _] & Hs' & _).
    split_and!; [done| |done]. split; [lia|congruence|tauto|done].
  - apply wp_ret.
    assert (settled w3).
    { intros _ _. unfold busy. by rewrite (proj2 (Z.ltb_lt 0 (ssl_depth_ (ch w3)))) by lia. }
    split_and!; [done| |done]. split; [tauto|done|tauto|done].
Qed.

Lemma ready_facts w : core w -> state_ (ch w) = TCPCH_READY ->
  let h := hist (trace w) in
  h_closed h = false /\ handler_ (ch w) = h_handler h /\ h_state h = TCPCH_READY /\ verified h /\
  parked_ (ch w) = h_parked h /\ closing_ (ch w) = false.
Proof. intros H Hr. core_intro H. revert Hph. phases. rewrite Hr. cbn zeta. intuition congruence. Qed.

Lemma enter_ready_core w :
  core w -> closing_ (ch w) = false -> verified (hist (trace w)) ->
  state_ (ch w) = TCPCH_CONNECTING \/ state_ (ch w) = TCPCH_TLS_HANDSHAKE ->
  WP (SetState TCPCH_READY;; UnscheduleTimer)
    (fun _ w' => core w' /\ grows w w' /\ state_ (ch w') = TCPCH_READY) w.
Proof.
  intros H Hc Hv Hs. destruct (core_live w H Hc) as (_ & (_ & _ & Ho & _) & _). core_intro H.
  assert (Hns : is_state (state_ (ch w)) TCPCH_READY = false) by (apply is_state_false; intuition congruence).
  assert (Hleg : IsLegalTransition (state_ (ch w)) TCPCH_READY = true) by (by destruct Hs as [-> | ->]).
  assert (Hrk : rank (state_ (ch w)) <= 5) by (by destruct Hs as [-> | ->]).
  open_world w. norm_hyps. unfold SetState, UnscheduleTimer. norm_goal. wp_run. rewrite Hns. wp_run.
  set (tr' := tr_ ++ _).
  assert (Htr' : trace_ok tr') by by apply trace_ok_snoc.
  assert (Hh : hist tr' = observe (hist tr_) (EvState st_ TCPCH_READY)) by apply hist_snoc.
  clearbody tr'.
  destruct ct_; wp_run; (split; [|split; [|done]]).
  all: try (split; norm_goal; [cbn [rank]; lia|done|done|unfold settled; norm_goal; congruence]).
  all: split; norm_goal; rewrite ?Hh; try done; revert Hph; phases; norm_goal; rewrite Hh; cbn.
  all: destruct Hs as [-> | ->]; intuition congruence.
Qed.

Lemma EnterReady_spec w :
  core w -> closing_ (ch w) = false -> verified (hist (trace w)) ->
  state_ (ch w) = TCPCH_CONNECTING \/ state_ (ch w) = TCPCH_TLS_HANDSHAKE ->
  WP (EnterReady E) (fun _ w' => core w' /\ grows w w' /\ state_ (ch w') = TCPCH_READY) w.
Proof.
  intros H Hc Hv Hs. unfold EnterReady. apply wp_seq2.
  eapply wp_call; [by apply enter_ready_core|]. intros _ w1 (H1 & G1 & Hr).
  destruct (ready_facts w1 H1 Hr) as (Ho & Hh & Hst & Hv1 & _).
  apply wp_bind, (wp_get _ _ _ _ _ eq_refl). destruct (handler_ (ch w1)) as [u|]; [|by apply wp_ret].
  eapply wp_mono; [by apply notify_spec|]. intros _ w2 (H2 & G2 & [C2 _]).
  split; [done|]. split; [by eapply grows_trans|congruence].
Qed.

(** ** The callbacks of the SSL layer *)

Abbreviation keeps w := (fun _ w' => core w' /\ grows w w').

Lemma keeps_refl w : core w -> core w /\ grows w w.
Proof. intros H. split; [done|apply grows_refl]. Qed.

Lemma keeps_trans {A} (m : M A) w w1 :
  grows w w1 -> WP m (keeps w1) w1 -> WP m (keeps w) w1.
Proof. intros G Hm. eapply wp_mono; [exact Hm|]. intros a w' [H' G']. split; [done|by eapply grows_trans]. Qed.

Lemma Fail_keeps result why w :
  core w -> state_ (ch w) <> TCPCH_IDLE ->
  (why = PeerClosed -> tc_tls (h_cfg (hist (trace w))) = true -> h_clean (hist (trace w)) = true) ->
  WP (Fail result why) (keeps w) w.
Proof. intros. eapply wp_mono; [by apply Fail_spec|]. by intros _ w' (? & ? & _). Qed.

Lemma notify_keeps e w :
  core w -> expected (hist (trace w)) e -> observe (hist (trace w)) e = hist (trace w) ->
  WP (notify E e) (keeps w) w.
Proof. intros. eapply wp_mono; [by apply notify_spec|]. by intros _ w' (? & ? & _). Qed.

Lemma OnSSLWrite_spec data w :
  core w -> late w -> WP (OnSSLWrite E data) (keeps w) w.
Proof.
  intros H Hl. unfold OnSSLWrite. destruct (_ =? 0); [by apply wp_ret, keeps_refl|].
  apply wp_bind, (wp_get _ _ _ _ _ eq_refl). destruct (_ || _); [by apply wp_ret, keeps_refl|].
  apply wp_bind, (wp_gets _ _ _ _ _ eq_refl).
  destruct (Write _ _ _ _) as [[[n h] buf]|]; [|by apply wp_fail].
  apply wp_bind, (wp_puts _ _ _ _ _ eq_refl). set (w1 := w <| mem := h |>).
  assert (H1 : core w1) by (core_intro H; by split).
  assert (G1 : grows w w1) by (split; [apply Z.le_refl|done..]).
  eapply wp_call; [by apply SendRaw_spec|]. intros _ w2 [H2 G2]. apply wp_ret.
  split; [done|by eapply grows_trans].
Qed.

Lemma poison_core w : core w -> state_ (ch w) <> TCPCH_CLOSED ->
  let w' := w <| ch ::= fun c => c <| poisoned_ := true |> |> <| trace ::= fun t => t ++ [EvPoison] |> in
  core w' /\ grows w w'.
Proof.
  intros H Hs. destruct (open_not_closed w H Hs) as [Ho _]. core_intro H. cbn zeta.
  split; [|split; [cbn; lia|done..]].
  split; cbn; rewrite ?hist_snoc; cbn; try done.
  - by apply trace_ok_snoc.
  - revert Hph. phases. cbn. by rewrite hist_snoc.
Qed.

Lemma OnRecvDataFromSSL_spec data w :
  core w -> state_ (ch w) <> TCPCH_CLOSED -> WP (OnRecvDataFromSSL E data) (keeps w) w.
Proof.
  intros H Hs. unfold OnRecvDataFromSSL. destruct (Z.eqb_spec (zlen data) 0); [by apply wp_ret, keeps_refl|].
  apply wp_bind, (wp_get _ _ _ _ _ eq_refl). destruct (parked_ (ch w)) eqn:Hp.
  { apply wp_bind, (wp_put _ _ _ _ _ eq_refl), (wp_log _ _ _ _ _ eq_refl). by apply poison_core. }
  apply wp_bind, (wp_get _ _ _ _ _ eq_refl). destruct (handler_ (ch w)) as [u|] eqn:Hu; [|by apply wp_ret, keeps_refl].
  apply wp_bind, (wp_get _ _ _ _ _ eq_refl).
  destruct (is_state _ _) eqn:Hr; cbn [negb]; [|by apply wp_ret, keeps_refl].
  apply is_state_true in Hr. destruct (ready_facts w H Hr) as (Ho & Hh & Hst & Hv & Hpk & _).
  apply notify_keeps; [done| |done]. split; [done|]. split_and!; [congruence|done|done|congruence|by intros ->].
Qed.

(** An event of the handshake is remembered without disturbing the phase. *)
Lemma handshake_core w e :
  core w -> state_ (ch w) = TCPCH_TLS_HANDSHAKE -> e = EvHandshake \/ (exists r, e = EvSpki r) ->
  let w' := w <| trace ::= fun t => t ++ [e] |> in core w' /\ grows w w'.
Proof.
  intros H Hs He. destruct (open_not_closed w H ltac:(congruence)) as [Ho _]. core_intro H.
  cbn zeta. split; [|split; [apply Z.le_refl|done..]].
  split; cbn; rewrite ?hist_snoc; try (destruct He as [->|[r ->]]; done).
  - apply trace_ok_snoc; [done|]. split; [done|]. by destruct He as [->|[r ->]].
  - revert Hph. phases. cbn. rewrite Hs, hist_snoc. by destruct He as [->|[r ->]].
Qed.

Lemma VerifySpkiPin_spec w :
  core w -> state_ (ch w) = TCPCH_TLS_HANDSHAKE -> h_handshake (hist (trace w)) = true ->
  WP (VerifySpkiPin E) (fun r w' => core w' /\ grows w w' /\
    (r = BC_R_SUCCESS -> state_ (ch w') = TCPCH_TLS_HANDSHAKE /\ verified (hist (trace w')))) w.
Proof.
  intros H Hs Hh.
  assert (Hk : spkiPin (tc_tls_cfg (config_ (ch w))) = spkiPin (tc_tls_cfg (h_cfg (hist (trace w))))).
  { destruct (core_known w H ltac:(congruence)) as (_ & _ & -> & _). done. }
  unfold VerifySpkiPin. apply wp_bind, (wp_get _ _ _ _ _ eq_refl).
  unfold bytes_eqb. destruct (bool_decide _) eqn:Hp.
  { apply bool_decide_eq_true in Hp. apply wp_ret. split_and!; [done|apply grows_refl|].
    intros _. split; [done|]. intros _. split; [done|congruence]. }
  apply wp_bind, (wp_ask _ _ _ _ _ _ eq_refl eq_refl). destruct (ask_core w H) as [H1 G1].
  set (w1 := w <| tick ::= S |>) in *.
  assert (Hf : forall why w2 r, core w2 -> grows w w2 -> state_ (ch w2) = TCPCH_TLS_HANDSHAKE ->
    why <> PeerClosed -> r <> BC_R_SUCCESS ->
    WP (Fail r why;; ret r) (fun r w' => core w' /\ grows w w' /\
      (r = BC_R_SUCCESS -> state_ (ch w') = TCPCH_TLS_HANDSHAKE /\ verified (hist (trace w')))) w2).
  { intros why w2 r H2 G2 Hs2 Hw Hr. eapply wp_call; [apply Fail_spec; [done|congruence|done]|].
    intros _ w3 (H3 & G3 & _). apply wp_ret. split_and!; [done|by eapply grows_trans|done]. }
  destruct (negb _); [by apply Hf|].
  apply wp_bind, (wp_ask _ _ _ _ _ _ eq_refl eq_refl). destruct (ask_core w1 H1) as [H2 G2].
  set (w2 := w1 <| tick ::= S |>) in *. set (r := verify_chain _ _ _ _).
  apply wp_bind, (wp_log _ _ _ _ _ eq_refl).
  destruct (handshake_core w2 (EvSpki r) H2 Hs ltac:(eauto)) as [H3 G3].
  pose proof (grows_trans _ _ _ (grows_trans _ _ _ G1 G2) G3) as G.
  destruct (Z.eqb_spec r BC_R_SUCCESS) as [Hr|Hr]; cbn [negb]; [|by apply Hf].
  apply wp_ret. split_and!; [done|done|]. intros _. split; [done|].
  unfold verified. cbn. rewrite hist_snoc. cbn. rewrite Hr. done.
Qed.

Lemma OnSSLReady_spec w : core w -> state_ (ch w) <> TCPCH_CLOSED -> WP (OnSSLReady E) (keeps w) w.
Proof.
  intros H Hn. unfold OnSSLReady. apply wp_bind, (wp_get _ _ _ _ _ eq_refl).
  destruct (closing_ (ch w)) eqn:Hc; cbn [orb]; [by apply wp_ret, keeps_refl|].
  destruct (is_state _ _) eqn:Hs; cbn [negb]; [|by apply wp_ret, keeps_refl].
  apply is_state_true in Hs.
  apply wp_bind, (wp_log _ _ _ _ _ eq_refl).
  destruct (handshake_core w EvHandshake H Hs ltac:(by left)) as [H1 G1]. cbn zeta in H1, G1.
  eapply wp_call; [apply VerifySpkiPin_spec; [done|done|cbn; by rewrite hist_snoc]|].
  intros r w2 (H2 & G2 & K2). pose proof (grows_trans _ _ _ G1 G2) as G.
  destruct (Z.eqb_spec r BC_R_SUCCESS) as [Hr|Hr]; cbn [negb]; [|by apply wp_ret].
  destruct (K2 Hr) as [Hs2 Hv2].
  eapply wp_mono; [apply EnterReady_spec; [done| |done|by right]|].
  - destruct (closing_ (ch w2)) eqn:Hc2; [|done]. core_intro H2. revert Hph. phases. rewrite Hs2. intuition congruence.
  - intros _ w3 (H3 & G3 & _). split; [done|by eapply grows_trans].
Qed.

Lemma OnPeerClosed_spec w : core w -> state_ (ch w) <> TCPCH_IDLE -> WP OnPeerClosed (keeps w) w.
Proof.
  intros H Hi. unfold OnPeerClosed. do 3 apply wp_bind, (wp_get _ _ _ _ _ eq_refl).
  destruct (is_state _ _); cbn [negb]; [|by apply Fail_keeps].
  destruct (tc_tls _ && _) eqn:Ht; [by apply Fail_keeps|].
  apply Fail_keeps; [done|done|]. intros _. destruct (core_known w H Hi) as (_ & <- & _). intros Htls.
  rewrite Htls in Ht. cbn in Ht. apply negb_false_iff in Ht. rewrite <- Ht. symmetry. apply H.
Qed.

Lemma clean_core w : core w -> state_ (ch w) <> TCPCH_CLOSED ->
  let w' := w <| ch ::= fun c => c <| tls_shutdown_clean_ := true |> |>
              <| trace ::= fun t => t ++ [EvCloseNotify] |> in
  core w' /\ grows w w'.
Proof.
  intros H Hs. destruct (open_not_closed w H Hs) as [Ho _]. core_intro H. cbn zeta.
  split; [|split; [apply Z.le_refl|done..]].
  split; cbn; rewrite ?hist_snoc; cbn; try done.
  - by apply trace_ok_snoc.
  - revert Hph. phases. cbn. rewrite hist_snoc. cbn. destruct (state_ (ch w)); tauto.
Qed.

Lemma OnSSLFinished_spec w :
  core w -> state_ (ch w) <> TCPCH_CLOSED -> state_ (ch w) <> TCPCH_IDLE -> WP OnSSLFinished (keeps w) w.
Proof.
  intros H Hs Hi. unfold OnSSLFinished. apply wp_bind, (wp_put _ _ _ _ _ eq_refl).
  apply wp_bind, (wp_log _ _ _ _ _ eq_refl). destruct (clean_core w H Hs) as [H1 G1].
  eapply keeps_trans; [exact G1|]. by apply OnPeerClosed_spec.
Qed.

Lemma OnSSLError_spec w : core w -> state_ (ch w) <> TCPCH_IDLE -> WP (OnSSLError E) (keeps w) w.
Proof.
  intros H Hi. unfold OnSSLError. apply wp_bind, (wp_get _ _ _ _ _ eq_refl).
  apply wp_bind, (wp_ask _ _ _ _ _ _ eq_refl eq_refl). destruct (ask_core w H) as [H1 G1].
  eapply keeps_trans; [exact G1|]. by apply Fail_keeps.
Qed.

Lemma run_callback_spec cb w :
  core w -> late w -> state_ (ch w) <> TCPCH_CLOSED -> WP (run_callback E cb) (keeps w) w.
Proof.
  intros H Hl Hs. pose proof (late_opened w Hl). destruct cb; cbn [run_callback].
  - eapply wp_call; [by apply OnSSLWrite_spec|]. intros n w' K. by apply wp_ret.
  - by apply OnRecvDataFromSSL_spec.
  - by apply OnSSLReady_spec.
  - by apply OnSSLFinished_spec.
  - by apply OnSSLError_spec.
Qed.

Lemma call_ssl_layer_spec w :
  core w -> late w -> 0 < ssl_depth_ (ch w) -> ssl_layer_ (ch w) = true \/ recv_refused ->
  WP (call_ssl_layer E) (keeps w) w.
Proof.
  intros H Hl Hd Hly. unfold call_ssl_layer. apply wp_bind, (wp_get _ _ _ _ _ eq_refl).
  destruct (ssl_layer_ (ch w)); cbn [negb]; [|apply wp_fail; by destruct Hly].
  apply wp_bind, (wp_ask _ _ _ _ _ _ eq_refl eq_refl). destruct (ask_core w H) as [H1 G1].
  eapply keeps_trans; [exact G1|]. clear G1 H Hly. revert H1.
  set (w1 := w <| tick ::= S |>). assert (Hl1 : late w1) by done. assert (Hd1 : 0 < ssl_depth_ (ch w1)) by done.
  clearbody w1. revert w1 Hl1 Hd1. induction (ssl_callbacks E (tick w)) as [|cb l IH]; intros w1 Hl1 Hd1 H1; cbn [each].
  - by apply wp_ret, keeps_refl.
  - eapply wp_call; [apply run_callback_spec; [done|done|by apply inside_open]|].
    intros _ w2 [H2 G2]. eapply keeps_trans; [exact G2|].
    apply IH; [by eapply late_grows| |done]. by rewrite (grows_depth _ _ G2).
Qed.

(** ** Connecting *)

(** The fields that [_EnterPinning] and what it calls set before the connection starts. *)
Definition pinning_with (cf : TcpChannelConfig) (bi : Z) (pm : bytes) (sc sl ly sk : bool) (w : world) : world :=
  Eval cbv [update config_ handler_ state_ queue_created_ detached_ parked_ poisoned_ socket_ is_ipv6_
    peer_addr_ peer_addr_len_ bound_ifindex_ pin_method_ open_error_ ssl_ctx_ ssl_ ssl_layer_
    connect_timer_ dns_request_ tls_shutdown_clean_ pending_dns_ pending_connect_ pending_recv_
    pending_send_ ssl_depth_ pending_tasks_ closing_ closed_notified_ close_result_ close_reason_] in
  w <| ch ::= fun c => c <| config_ := cf |> <| bound_ifindex_ := bi |> <| pin_method_ := pm |>
                         <| ssl_ctx_ := sc |> <| ssl_ := sl |> <| ssl_layer_ := ly |> <| socket_ := sk |> |>.

(** The configuration but for the network handle. *)
Definition same_config (a b : TcpChannelConfig) : Prop :=
  tc_tls a = tc_tls b /\ tc_tls_cfg a = tc_tls_cfg b /\ tc_policy a = tc_policy b.

Lemma pinning_update w cf bi pm sc sl ly sk :
  core w -> state_ (ch w) = TCPCH_PINNING -> same_config cf (config_ (ch w)) ->
  (tc_policy cf = TT_VPN_POLICY_FORCE_PHYSICAL -> HasBindTarget E (ch w) = true ->
   HasBindTarget E (ch (pinning_with cf bi pm sc sl ly sk w)) = true) ->
  core (pinning_with cf bi pm sc sl ly sk w) /\ grows w (pinning_with cf bi pm sc sl ly sk w).
Proof.
  unfold same_config, pinning_with, HasBindTarget. intros H Hs (Hc1 & Hc2 & Hc3) Ht. core_intro H.
  open_world w. norm_hyps. norm_goal. split; [|split; norm_goal; [apply Z.le_refl|done..]].
  split; norm_goal; try done. revert Hph. phases. norm_goal. rewrite Hs, ?Hc1, ?Hc2, ?Hc3.
  rewrite Hc3 in Ht. tauto.
Qed.

Lemma pin_event_core w i r :
  core w -> state_ (ch w) = TCPCH_PINNING ->
  let w' := w <| trace ::= fun t => t ++ [EvPin i r] |> in core w' /\ grows w w'.
Proof.
  intros H Hs. destruct (open_not_closed w H ltac:(congruence)) as [Ho _]. core_intro H. cbn zeta.
  split; [|split; [apply Z.le_refl|done..]].
  split; cbn; rewrite ?hist_snoc; cbn; try done.
  - by apply trace_ok_snoc.
  - revert Hph. phases. cbn. by rewrite Hs, hist_snoc.
Qed.

Lemma unbind_core w :
  core w -> state_ (ch w) = TCPCH_PINNING ->
  let w' := w <| trace ::= fun t => t ++ [EvUnbind] |> in core w' /\ grows w w'.
Proof.
  intros H Hs. destruct (open_not_closed w H ltac:(congruence)) as [Ho _].
  split; [by apply log_core|split; [apply Z.le_refl|done..]].
Qed.

(** The socket and the SSL layer of a channel that goes on to connect. *)
Definition still_pinning (w w' : world) : Prop :=
  state_ (ch w') = TCPCH_PINNING /\ socket_ (ch w') = socket_ (ch w) /\
  ssl_layer_ (ch w') = ssl_layer_ (ch w) /\ same_config (config_ (ch w')) (config_ (ch w)).

Lemma same_config_refl c : same_config c c.
Proof. done. Qed.

Lemma fail_keeps_result {A} (P : A -> world -> Prop) (r : A) result why w w1 :
  core w1 -> grows w w1 -> state_ (ch w1) <> TCPCH_IDLE -> why <> PeerClosed ->
  (forall w', P r w') ->
  WP (Fail result why;; ret r) (fun r w' => core w' /\ grows w w' /\ P r w') w1.
Proof.
  intros H G Hi Hw HP. eapply wp_call; [by apply Fail_spec|].
  intros _ w2 (H2 & G2 & _). apply wp_ret. split_and!; [done|by eapply grows_trans|done].
Qed.

Lemma PinSocket_spec w :
  core w -> state_ (ch w) = TCPCH_PINNING ->
  WP (PinSocket E) (fun r w' => core w' /\ grows w w' /\ (r = BC_R_SUCCESS -> still_pinning w w' /\
    (tc_policy (config_ (ch w)) = TT_VPN_POLICY_FORCE_PHYSICAL ->
     h_pin (hist (trace w')) = Some (bound_ifindex_ (ch w'), TT_PIN_OK)))) w.
Proof.
  intros H Hs. unfold PinSocket. apply wp_bind, (wp_get _ _ _ _ _ eq_refl).
  destruct (HasBindTarget E (ch w)) eqn:Hb; cbn [negb]; cycle 1.
  { apply wp_ret. split_and!; [done|apply grows_refl|]. intros _. split; [done|]. intros Hf.
    core_intro H. revert Hph. phases. rewrite Hs. unfold HasBindTarget in Hb. intuition congruence. }
  do 2 apply wp_bind, (wp_ask _ _ _ _ _ _ eq_refl eq_refl).
  destruct (ask_core w H) as [H1 G1]. destruct (ask_core _ H1) as [H2 G2].
  pose proof (grows_trans _ _ _ G1 G2) as G. clear H1 G1 G2.
  set (out := tt_socket_pin _ _ _ _ _ _ _). clearbody out. set (w1 := w <| tick ::= S |> <| tick ::= S |>) in *.
  apply wp_bind, (wp_log _ _ _ _ _ eq_refl).
  destruct (pin_event_core w1 (bound_ifindex_ (ch w)) (po_result out) H2 Hs) as [H3 G3].
  cbn zeta in H3, G3. set (w2 := w1 <| trace ::= _ |>) in *. pose proof (grows_trans _ _ _ G G3) as G'.
  destruct (decide (po_result out = TT_PIN_OK)) as [Ho|Ho]; [|destruct (decide _) as [Hf|Hf]].
  - set (w3 := pinning_with (config_ (ch w2)) (bound_ifindex_ (ch w2)) (po_method out) (ssl_ctx_ (ch w2))
      (ssl_ (ch w2)) (ssl_layer_ (ch w2)) (socket_ (ch w2)) w2).
    apply wp_bind, (wp_put _ _ _ _ w3 eq_refl), wp_ret.
    edestruct (pinning_update w2) as [H4 G4]; [done|done|apply same_config_refl| |].
    2:{ split; [exact H4|]. split; [by eapply grows_trans|]. intros _. split; [done|]. intros _.
        cbn. rewrite hist_snoc. cbn. by rewrite Ho. }
    done.
  - apply fail_keeps_result; [done|done| |done|done]. cbn. congruence.
  - set (w3 := pinning_with (config_ (ch w2)) 0 [] (ssl_ctx_ (ch w2))
      (ssl_ (ch w2)) (ssl_layer_ (ch w2)) (socket_ (ch w2)) w2).
    apply wp_bind, (wp_put _ _ _ _ w3 eq_refl), wp_ret.
    edestruct (pinning_update w2) as [H4 G4]; [done|done|apply same_config_refl| |].
    2:{ split; [exact H4|]. split; [by eapply grows_trans|]. intros _. split; [done|]. by intros ?. }
    by intros ?.
Qed.

Lemma still_refl w : state_ (ch w) = TCPCH_PINNING -> still_pinning w w.
Proof. by split. Qed.

Lemma still_trans w1 w2 w3 : still_pinning w1 w2 -> still_pinning w2 w3 -> still_pinning w1 w3.
Proof.
  intros (H1 & H2 & H3 & H4 & H5 & H6) (K1 & K2 & K3 & K4 & K5 & K6).
  split_and!; [congruence..|]. split_and!; congruence.
Qed.

(** The pin is taken back: the interface is forgotten, on Android the network too. *)
Lemma unpin_spec w :
  core w -> state_ (ch w) = TCPCH_PINNING -> tc_policy (config_ (ch w)) <> TT_VPN_POLICY_FORCE_PHYSICAL ->
  WP (log EvUnbind;;
      put (fun c => c <| bound_ifindex_ := 0 |> <| pin_method_ := [] |>);;
      (if decide (platform_is E = OS_ANDROID)
       then put (fun c => c <| config_ ::= fun cfg => cfg <| tc_androidNetHandle := 0 |> |>)
       else ret tt);;
      ret BC_R_SUCCESS)
    (fun r w' => core w' /\ grows w w' /\ still_pinning w w') w.
Proof.
  intros H Hs Hf. apply wp_bind, (wp_log _ _ _ _ _ eq_refl).
  destruct (unbind_core w H Hs) as [H2 G2]. cbn zeta in H2, G2. set (w2 := w <| trace ::= _ |>) in *.
  assert (S2 : still_pinning w w2) by done. clearbody w2.
  destruct (S2) as (Hs2 & _ & _ & _ & _ & Hp2). rewrite <- Hp2 in Hf.
  set (w3 := pinning_with (config_ (ch w2)) 0 [] (ssl_ctx_ (ch w2))
    (ssl_ (ch w2)) (ssl_layer_ (ch w2)) (socket_ (ch w2)) w2).
  apply wp_bind, (wp_put _ _ _ _ w3 eq_refl).
  assert (H3 : core w3 /\ grows w2 w3) by (by apply pinning_update). destruct H3 as [H3 G3].
  assert (S3 : still_pinning w2 w3) by done. clearbody w3.
  destruct (S3) as (Hs3 & _ & _ & _ & _ & Hp3). rewrite <- Hp3 in Hf.
  pose proof (still_trans _ _ _ S2 S3) as S. pose proof (grows_trans _ _ _ G2 G3) as G.
  apply wp_bind. destruct (decide _) as [Ha|Ha]; [|by apply wp_ret, wp_ret].
  set (w4 := pinning_with ((config_ (ch w3)) <| tc_androidNetHandle := 0 |>) (bound_ifindex_ (ch w3))
    (pin_method_ (ch w3)) (ssl_ctx_ (ch w3)) (ssl_ (ch w3)) (ssl_layer_ (ch w3)) (socket_ (ch w3)) w3).
  apply (wp_put _ _ _ _ w4 eq_refl), wp_ret.
  assert (H4 : core w4 /\ grows w3 w4) by (by apply pinning_update). destruct H4 as [H4 G4].
  assert (S4 : still_pinning w3 w4) by done. clearbody w4.
  split_and!; [done|by eapply grows_trans|by eapply still_trans].
Qed.

Lemma DecidePinBeforeConnect_spec w :
  core w -> state_ (ch w) = TCPCH_PINNING ->
  WP (DecidePinBeforeConnect E) (fun r w' => core w' /\ grows w w' /\
    (r = BC_R_SUCCESS -> still_pinning w w')) w.
Proof.
  intros H Hs. unfold DecidePinBeforeConnect. apply wp_bind, (wp_get _ _ _ _ _ eq_refl).
  destruct (HasBindTarget E (ch w)) eqn:Hb; cbn [negb];
    [|apply wp_ret; split_and!; [done|apply grows_refl|by intros _]].
  do 2 apply wp_bind, (wp_ask _ _ _ _ _ _ eq_refl eq_refl).
  destruct (ask_core w H) as [H1 G1]. destruct (ask_core _ H1) as [H2 G2].
  pose proof (grows_trans _ _ _ G1 G2) as G. clear H1 G1 G2.
  set (sc := route_lookup _ _ _ _). set (gl := route_lookup _ _ _ _). clearbody sc gl.
  set (w1 := w <| tick ::= S |> <| tick ::= S |>) in *.
  assert (S1 : still_pinning w w1) by done.
  assert (Hcf : config_ (ch w1) = config_ (ch w)) by done. clearbody w1.
  destruct (decide _) as [Hf|Hf].
  - destruct (_ || _); [by apply wp_ret|].
    apply fail_keeps_result; [done|done|destruct S1; congruence| |done].
    by destruct (negb _); [|destruct (_ =? _)].
  - destruct (fst _); [by apply wp_ret|]. rewrite <- Hcf in Hf.
    eapply wp_mono; [apply unpin_spec; [done|by destruct S1|done]|].
    intros r w' (H' & G' & S'). split_and!; [done|by eapply grows_trans|]. intros _. by eapply still_trans.
Qed.

Lemma connecting_core w :
  core w -> state_ (ch w) = TCPCH_PINNING -> socket_ (ch w) = true ->
  ssl_layer_ (ch w) = tc_tls (config_ (ch w)) ->
  WP (SetState TCPCH_CONNECTING) (fun _ w' => core w' /\ grows w w' /\ state_ (ch w') = TCPCH_CONNECTING /\
    bound_ifindex_ (ch w') = bound_ifindex_ (ch w) /\
    h_pin (hist (trace w')) = h_pin (hist (trace w)) /\
    h_cfg (hist (trace w')) = h_cfg (hist (trace w))) w.
Proof.
  intros H Hs Hso Hl. destruct (open_not_closed w H ltac:(congruence)) as [Ho _]. core_intro H.
  open_world w. norm_hyps. unfold SetState. norm_goal. wp_run. rewrite Hs. wp_run.
  set (tr' := tr_ ++ _).
  assert (Htr' : trace_ok tr').
  { apply trace_ok_snoc; [done|]. split; [done|]. split_and!; [congruence|done|done]. }
  assert (Hh : hist tr' = observe (hist tr_) (EvState TCPCH_PINNING TCPCH_CONNECTING)) by apply hist_snoc.
  clearbody tr'. split; [|split; [split; norm_goal; rewrite ?Hs; done|norm_goal; by rewrite Hh]].
  split; norm_goal; rewrite ?Hh; try done. revert Hph. phases. norm_goal. rewrite Hs, Hh. cbn.
  intuition congruence.
Qed.

Lemma connect_ops_core w :
  core w -> state_ (ch w) = TCPCH_CONNECTING ->
  let w' := w <| connect_ops ::= fun n => n + 1 |>
              <| ch ::= fun c => c <| pending_connect_ := pending_connect_ (ch w) + 1 |> |> in
  core w' /\ grows w w'.
Proof.
  intros H Hs. core_intro H. open_world w. cbn zeta. norm_goal. norm_hyps.
  split; [|split; norm_goal; [apply Z.le_refl|done|done|]].
  - split; norm_goal; try done; [lia|lia|]. revert Hph. phases. norm_goal. by rewrite Hs.
  - unfold settled, busy, io_pending. revert Hph. phases. norm_goal. rewrite Hs. intuition congruence.
Qed.

Lemma connect_event_core w :
  core w -> state_ (ch w) = TCPCH_CONNECTING ->
  (tc_policy (h_cfg (hist (trace w))) = TT_VPN_POLICY_FORCE_PHYSICAL ->
   h_pin (hist (trace w)) = Some (bound_ifindex_ (ch w), TT_PIN_OK)) ->
  let w' := w <| trace ::= fun t => t ++ [EvConnect (bound_ifindex_ (ch w))] |> in core w' /\ grows w w'.
Proof.
  intros H Hs Hp. destruct (open_not_closed w H ltac:(congruence)) as [Ho _].
  split; [apply log_core; [done| |done]|split; [apply Z.le_refl|done..]].
  split; [done|]. split; [|done]. rewrite <- (core_state w H). done.
Qed.

Lemma StartConnect_spec w :
  core w -> state_ (ch w) = TCPCH_PINNING -> ssl_layer_ (ch w) = tc_tls (config_ (ch w)) ->
  WP (StartConnect E) (keeps w) w.
Proof.
  intros H Hs Hl. unfold StartConnect. apply wp_bind, (wp_ask _ _ _ _ _ _ eq_refl eq_refl).
  destruct (ask_core w H) as [H1 G1]. set (w1 := w <| tick ::= S |>) in *.
  set (r := socket_create E _). clearbody r.
  assert (Hu : forall sk, core (pinning_with (config_ (ch w1)) (bound_ifindex_ (ch w1)) (pin_method_ (ch w1))
    (ssl_ctx_ (ch w1)) (ssl_ (ch w1)) (ssl_layer_ (ch w1)) sk w1) /\ grows w1 (pinning_with (config_ (ch w1))
    (bound_ifindex_ (ch w1)) (pin_method_ (ch w1)) (ssl_ctx_ (ch w1)) (ssl_ (ch w1)) (ssl_layer_ (ch w1)) sk w1)).
  { intros sk. by apply pinning_update. }
  destruct (negb _); (eapply wp_bind, wp_put; [exact eq_refl|]).
  { destruct (Hu false) as [H2 G2]. eapply keeps_trans; [eapply grows_trans; [exact G1|exact G2]|].
    apply Fail_keeps; [exact H2|cbn; congruence|done]. }
  destruct (Hu true) as [H2 G2]. pose proof (grows_trans _ _ _ G1 G2) as G. clear Hu.
  set (w2 := pinning_with _ _ _ _ _ _ true w1) in *. 
  assert (Hw2 : state_ (ch w2) = TCPCH_PINNING /\ socket_ (ch w2) = true /\
    ssl_layer_ (ch w2) = tc_tls (config_ (ch w2))) by done.
  change (w1 <| ch ::= _ |>) with w2. clearbody w2. destruct Hw2 as (Hs2 & Hk2 & Hl2).
  eapply wp_call; [by apply DecidePinBeforeConnect_spec|]. intros r3 w3 (H3 & G3 & K3).
  pose proof (grows_trans _ _ _ G G3) as G03.
  destruct (Z.eqb_spec r3 BC_R_SUCCESS) as [Hr3|Hr3]; cbn [negb]; [|by apply wp_ret].
  destruct (K3 Hr3) as (Hs3 & Hk3 & Hl3 & Hc3).
  eapply wp_call; [by apply PinSocket_spec|]. intros r4 w4 (H4 & G4 & K4).
  pose proof (grows_trans _ _ _ G03 G4) as G04.
  destruct (Z.eqb_spec r4 BC_R_SUCCESS) as [Hr4|Hr4]; cbn [negb]; [|by apply wp_ret].
  destruct (K4 Hr4) as [(Hs4 & Hk4 & Hl4 & Hc4) Hp4].
  destruct Hc3 as (Ht3 & _), Hc4 as (Ht4 & _ & Hpo4).
  eapply wp_call; [apply connecting_core; [done|done|congruence|congruence]|].
  intros _ w5 (H5 & G5 & Hs5 & Hb5 & Hp5 & Hcf5). pose proof (grows_trans _ _ _ G04 G5) as G05.
  apply wp_bind, (wp_get _ _ _ _ _ eq_refl), wp_bind, (wp_log _ _ _ _ _ eq_refl).
  destruct (connect_event_core w5 H5 Hs5) as [H6 G6].
  { rewrite Hcf5, Hp5, Hb5. destruct (core_known w4 H4 ltac:(congruence)) as (_ & _ & _ & <-).
    rewrite Hpo4. done. }
  cbn zeta in H6, G6. set (w6 := w5 <| trace ::= _ |>) in *. pose proof (grows_trans _ _ _ G05 G6) as G06.
  apply wp_bind, (wp_ask _ _ _ _ _ _ eq_refl eq_refl). destruct (ask_core w6 H6) as [H7 G7].
  set (w7 := w6 <| tick ::= S |>) in *. pose proof (grows_trans _ _ _ G06 G7) as G07.
  assert (Hs7 : state_ (ch w7) = TCPCH_CONNECTING) by done. clearbody w7.
  eapply keeps_trans; [exact G07|].
  destruct (accepted _); [|apply Fail_keeps; [done|congruence|done]].
  destruct (connect_ops_core w7 H7 Hs7) as [H8 G8]. revert H8 G8. clear. cbn zeta.
  open_world w7. unfold increment. norm_goal. intros H8 G8. wp_run.
  destruct (_ <? UINT32_MAX); wp_run; done.
Qed.

(** A channel that is still preparing its connection, [w] being where it began. *)
Definition preparing (w w' : world) : Prop :=
  core w' /\ grows w w' /\ state_ (ch w') = TCPCH_PINNING /\ same_config (config_ (ch w')) (config_ (ch w)).

Lemma wp_prepare_ask {A B} (f : nat -> A) (k : A -> M B) Q w w0 :
  preparing w w0 -> (forall a w1, preparing w w1 -> WP (k a) Q w1) -> WP (bind (ask f) k) Q w0.
Proof.
  intros (H & G & Hs & Hc) K. apply wp_bind, (wp_ask _ _ _ _ _ _ eq_refl eq_refl).
  destruct (ask_core w0 H) as [H1 G1]. apply K. split_and!; [done|by eapply grows_trans|done|done].
Qed.

Lemma wp_prepare_put {B} f (k : unit -> M B) Q sc sl ly w w0 :
  preparing w w0 ->
  w0 <| ch ::= f |> = pinning_with (config_ (ch w0)) (bound_ifindex_ (ch w0)) (pin_method_ (ch w0)) sc sl ly
                        (socket_ (ch w0)) w0 ->
  (forall w1, preparing w w1 -> ssl_layer_ (ch w1) = ly -> WP (k tt) Q w1) -> WP (bind (put f) k) Q w0.
Proof.
  intros (H & G & Hs & Hc) Hw K. apply wp_bind, (wp_put _ _ _ _ _ Hw).
  edestruct (pinning_update w0) as [H1 G1]; [done|done|apply same_config_refl| |].
  2:{ apply K; [|done]. split_and!; [exact H1|by eapply grows_trans|done|done]. }
  done.
Qed.

Lemma preparing_fail {A} (P : A -> world -> Prop) (r : A) result why w w1 :
  preparing w w1 -> why <> PeerClosed -> (forall w', P r w') ->
  WP (Fail result why;; ret r) (fun r w' => core w' /\ grows w w' /\ P r w') w1.
Proof. intros (H & G & Hs & _). apply fail_keeps_result; [done|done|congruence]. Qed.

Lemma SetupTls_spec w :
  core w -> state_ (ch w) = TCPCH_PINNING ->
  WP (SetupTls E) (fun r w' => core w' /\ grows w w' /\ (r = BC_R_SUCCESS ->
    preparing w w' /\ ssl_layer_ (ch w') = true)) w.
Proof.
  intros H Hs. unfold SetupTls. apply wp_bind, (wp_get _ _ _ _ _ eq_refl).
  apply (wp_prepare_ask _ _ _ w); [split_and!; [done|apply grows_refl|done|done]|]. intros created w1 P1.
  eapply (wp_prepare_put _ _ _ _ _ _ w w1); [done|reflexivity|]. intros w2 P2 _.
  destruct (negb created); [by apply preparing_fail|].
  apply (wp_prepare_ask _ _ _ w); [done|]. intros made w3 P3.
  eapply (wp_prepare_put _ _ _ _ _ _ w w3); [done|reflexivity|]. intros w4 P4 _.
  destruct (negb made); [by apply preparing_fail|].
  apply (wp_prepare_ask _ _ _ w); [done|]. intros r w5 P5.
  destruct (Z.eqb_spec r BC_R_SUCCESS) as [Hr|Hr]; cbn [negb]; [|by apply preparing_fail].
  eapply (wp_prepare_put _ _ _ _ _ _ w w5); [done|reflexivity|]. intros w6 P6 Hl.
  apply wp_ret. destruct (P6) as (H6 & G6 & _). by split_and!.
Qed.

(** The address family is taken from the resolved address. *)
Lemma pinning_core w :
  core w -> state_ (ch w) = TCPCH_RESOLVING -> dns_idle w ->
  WP (SetState TCPCH_PINNING;;
      put (fun c =>
        let v6 := match (peer_addr_ c).1 with SockIn6 _ => true | _ => false end in
        c <| is_ipv6_ := v6 |> <| peer_addr_len_ := if v6 then sizeof_sockaddr_in6 else sizeof_sockaddr_in |>))
    (fun _ w' => core w' /\ grows w w' /\ state_ (ch w') = TCPCH_PINNING /\ ssl_layer_ (ch w') = false /\
       config_ (ch w') = config_ (ch w)) w.
Proof.
  intros H Hs Hd. destruct (open_not_closed w H ltac:(congruence)) as [Ho _]. core_intro H.
  open_world w. norm_hyps. unfold SetState. norm_goal. wp_run. rewrite Hs. wp_run.
  set (tr' := tr_ ++ _).
  assert (Htr' : trace_ok tr').
  { apply trace_ok_snoc; [done|]. split; [done|]. split_and!; [congruence|done|done]. }
  assert (Hh : hist tr' = observe (hist tr_) (EvState TCPCH_RESOLVING TCPCH_PINNING)) by apply hist_snoc.
  assert (Hly : ly_ = false) by (revert Hph; phases; norm_goal; rewrite Hs; tauto).
  clearbody tr'. split; [|split; [split; norm_goal; rewrite ?Hs; done|done]].
  split; norm_goal; rewrite ?Hh; try done. revert Hph Hd. phases. norm_goal. rewrite Hs, Hh. cbn.
  intuition congruence.
Qed.

Lemma EnterPinning_spec w :
  core w -> state_ (ch w) = TCPCH_RESOLVING -> dns_idle w -> WP (EnterPinning E) (keeps w) w.
Proof.
  intros H Hs Hd. unfold EnterPinning. apply wp_seq2. eapply wp_call; [by apply pinning_core|].
  intros _ w1 (H1 & G1 & Hs1 & Hl1 & Hc1). eapply keeps_trans; [exact G1|].
  apply wp_bind, (wp_get _ _ _ _ _ eq_refl). destruct (tc_tls _) eqn:Ht.
  - eapply wp_call; [by apply SetupTls_spec|]. intros r w2 (H2 & G2 & K2).
    destruct (Z.eqb_spec r BC_R_SUCCESS) as [Hr|Hr]; cbn [negb]; [|by apply wp_ret].
    destruct (K2 Hr) as [(_ & _ & Hs2 & Hc2 & _) Hl2]. eapply keeps_trans; [exact G2|].
    apply StartConnect_spec; [done|done|congruence].
  - apply StartConnect_spec; [done|done|congruence].
Qed.

Lemma resolved_core w n :
  core w -> resolver_done w -> (dns_request_ (ch w) = true -> n = 0) ->
  (dns_request_ (ch w) = false -> n = pending_dns_ (ch w)) ->
  let w' := w <| ch ::= fun c => c <| pending_dns_ := n |> |> <| ch ::= fun c => c <| dns_request_ := false |> |> in
  core w' /\ dns_idle w' /\ grows w w'.
Proof.
  intros H Hd Hn1 Hn2. destruct (core_dns w H) as [Hpd Hdns].
  assert (n = 0) as -> by (destruct (dns_request_ (ch w)); [by apply Hn1|by rewrite Hn2]).
  clear Hn1 Hn2. assert (Hnw : worker w <> Posted /\ worker w <> Resolving).
  { by destruct Hd as [-> | ->]. }
  cbn zeta. set (w' := w <| ch ::= _ |> <| ch ::= _ |>).
  assert (Hi : dns_idle w') by (split_and!; [done|done|]; intros [Hw|Hw]; cbn in Hw; tauto).
  core_intro H. subst w'. open_world w. norm_hyps. norm_goal.
  split; [|split; [exact Hi|]].
  - split; norm_goal; try done. revert Hph Hi Hdns. unfold phase_ok, live, open_ended, known, no_ops,
      target_if_forced, HasBindTarget. norm_goal. destruct st_; tauto.
  - split; norm_goal; [apply Z.le_refl|done|done|].
    unfold settled, busy, io_pending. revert Hph. phases. norm_goal. intros Hph Hset Hc Hcn.
    specialize (Hset Hc Hcn). destruct st_, dr_; intuition congruence.
Qed.

(** The outcome of a step: the invariant, and nothing left undone. *)
Abbreviation completes w := (fun _ w' => core w' /\ grows w w' /\ settled w').

Lemma keeps_completes {A} (m : M A) w : closing_ (ch w) = false -> WP m (keeps w) w -> WP m (completes w) w.
Proof.
  intros Hc Hm. eapply wp_mono; [exact Hm|]. intros a w' [H G]. split_and!; [done|done|].
  apply G. unfold settled. congruence.
Qed.

Lemma MaybeFinishClose_completes w : core w -> WP MaybeFinishClose (completes w) w.
Proof. intros H. eapply wp_mono; [by apply MaybeFinishClose_spec|]. intros _ w' (? & ? & ? & _). done. Qed.

Lemma Fail_completes result why w :
  core w -> state_ (ch w) <> TCPCH_IDLE -> why <> PeerClosed -> WP (Fail result why) (completes w) w.
Proof. intros. eapply wp_mono; [by apply Fail_spec|]. intros _ w' (? & ? & ? & _). done. Qed.

Lemma completes_after {A} (m : M A) w w1 : grows w w1 -> WP m (completes w1) w1 -> WP m (completes w) w1.
Proof.
  intros G Hm. eapply wp_mono; [exact Hm|]. intros a w' (H' & G' & S').
  split_and!; [done|by eapply grows_trans|done].
Qed.

Lemma OnResolveDone_spec r w :
  core w -> state_ (ch w) <> TCPCH_IDLE -> resolver_done w -> WP (OnResolveDone E r) (completes w) w.
Proof.
  intros H Hi Hd. destruct (core_dns w H) as [Hpd _]. unfold OnResolveDone, decrement.
  apply wp_bind, wp_bind, (wp_get _ _ _ _ _ eq_refl).
  set (n := if 0 <? pending_dns_ (ch w) then pending_dns_ (ch w) - 1 else pending_dns_ (ch w)).
  assert (K : forall Q : world -> Prop,
    Q (w <| ch ::= fun c => c <| pending_dns_ := n |> |>) ->
    WP (if 0 <? pending_dns_ (ch w)
        then put (fun c => c <| pending_dns_ := pending_dns_ (ch w) - 1 |>) else ret tt) (fun _ => Q) w).
  { intros Q HQ. subst n. destruct (0 <? _); [exact HQ|]. apply wp_ret. revert HQ. by open_world w. }
  apply K. clear K. apply wp_bind, (wp_put _ _ _ _ _ eq_refl).
  destruct (resolved_core w n H Hd) as (H1 & Hi1 & G1).
  { intros Hr. subst n. by rewrite Hpd, Hr. }
  { intros Hr. subst n. by rewrite Hpd, Hr. }
  set (w1 := w <| ch ::= _ |> <| ch ::= _ |>) in *.
  assert (Hs1 : state_ (ch w1) = state_ (ch w)) by done. clearbody w1 n.
  eapply completes_after; [exact G1|]. apply wp_bind, (wp_get _ _ _ _ _ eq_refl).
  destruct (closing_ (ch w1)) eqn:Hc; cbn [orb]; [by apply MaybeFinishClose_completes|].
  destruct (is_state _ _) eqn:Hs; cbn [negb]; [|by apply MaybeFinishClose_completes].
  apply is_state_true in Hs.
  destruct (r_addrs r) as [|a l]; [apply Fail_completes; [done|congruence|done]|].
  destruct (negb _); [apply Fail_completes; [done|congruence|done]|].
  apply keeps_completes; [done|]. apply wp_bind, (wp_put _ _ _ _ _ eq_refl).
  set (w2 := w1 <| ch ::= _ |>).
  assert (P : core w2 /\ grows w1 w2) by (split; [core_intro H1; by split|split; [apply Z.le_refl|done..]]).
  destruct P as [H2 G2]. eapply keeps_trans; [exact G2|]. by apply EnterPinning_spec.
Qed.

(** ** What the queue runs *)

Lemma steps_of {A} (m : M A) w w1 : ssl_depth_ (ch w) = 0 -> WP m (completes w) w1 -> WP m steps w1.
Proof.
  intros Hd Hm. eapply wp_mono; [exact Hm|]. intros a w' (H' & G' & S').
  split; [done|done|]. by rewrite (grows_depth _ _ G').
Qed.

(** Every completion ends by looking at closing again. *)
Lemma then_finish {A} (m : M A) w :
  ssl_depth_ (ch w) = 0 -> WP m (keeps w) w -> WP (m;; MaybeFinishClose) steps w.
Proof.
  intros Hd Hm. eapply wp_call; [exact Hm|]. intros a w1 [H1 G1].
  apply (steps_of _ w); [done|]. eapply completes_after; [exact G1|]. by apply MaybeFinishClose_completes.
Qed.


Lemma adopt_core w h :
  core w -> state_ (ch w) = TCPCH_READY -> parked_ (ch w) = true -> poisoned_ (ch w) = false ->
  let w' := w <| ch ::= fun c => c <| parked_ := false |> <| handler_ := Some h |> |>
              <| trace ::= fun t => t ++ [EvAdopt h] |> in core w' /\ grows w w'.
Proof.
  intros H Hs Hp Hq. destruct (ready_facts w H Hs) as (Ho & _). core_intro H. cbn zeta.
  split; [|split; [apply Z.le_refl|done..]].
  split; cbn; rewrite ?hist_snoc; cbn; try done.
  - apply trace_ok_snoc; [done|]. split; [done|]. split_and!; congruence.
  - revert Hph. phases. cbn. rewrite Hs, hist_snoc. cbn. tauto.
Qed.

(** A watcher that parks the channel while it is told that it is detached leaves it without a
    handler for a moment, and [OnChannelReady] is then called on a null pointer. *)
Lemma run_adopt_spec h w :
  core w -> state_ (ch w) <> TCPCH_IDLE -> state_ (ch w) <> TCPCH_CLOSED -> WP (run_adopt E h) (completes w) w.
Proof.
  intros H Hi Hn. destruct (open_not_closed w H Hn) as [Ho _].
  unfold run_adopt, IsParkedAndUsable. apply wp_bind, (wp_get _ _ _ _ _ eq_refl).
  destruct (_ && _ && _) eqn:Hu; cbn [negb]; cycle 1.
  { eapply wp_call; [by apply notify_keeps|]. intros _ w1 [H1 G1].
    eapply completes_after; [exact G1|]. apply Fail_completes; [done| |done].
    pose proof (grows_state _ _ G1) as Hr. intros Hs1. rewrite Hs1 in Hr. by destruct (state_ (ch w)). }
  apply andb_true_iff in Hu as [[Hp Hq%negb_true_iff]%andb_true_iff Hs%is_state_true].
  destruct (ready_facts w H Hs) as (_ & Hh & _ & _ & _ & Hc).
  apply keeps_completes; [done|].
  apply wp_bind, (wp_get _ _ _ _ _ eq_refl). apply wp_bind, (wp_put _ _ _ _ _ eq_refl).
  apply wp_bind, (wp_log _ _ _ _ _ eq_refl). destruct (adopt_core w h H Hs Hp Hq) as [H1 G1].
  cbn zeta in H1, G1. set (w1 := w <| ch ::= _ |> <| trace ::= _ |>) in *.
  assert (F1 : state_ (ch w1) = TCPCH_READY /\ handler_ (ch w1) = Some h) by done. clearbody w1.
  destruct F1 as [Hs1 Hh1]. destruct (ready_facts w1 H1 Hs1) as (Ho1 & _).
  eapply keeps_trans; [exact G1|].
  eapply (wp_call _ _ _ (fun _ w' => core w' /\ grows w1 w' /\ calm parks_null w1 w')).
  { destruct (handler_ (ch w)); [by apply notify_spec|].
    apply wp_ret. split_and!; [done|apply grows_refl|apply calm_refl]. }
  intros _ w2 (H2 & G2 & [C1 C2]). eapply keeps_trans; [exact G2|].
  apply wp_bind, (wp_get _ _ _ _ _ eq_refl). destruct (handler_ (ch w2)) as [u|] eqn:Hu.
  - rewrite Hs1 in C1. destruct (ready_facts w2 H2 C1) as (Ho2 & Hh2 & Hst2 & Hv2 & _).
    apply notify_keeps; [done| |done]. split; [done|]. split_and!; [congruence|done|done].
  - apply wp_fail. destruct (C2 eq_refl) as [?|?]; [congruence|done].
Qed.

(** Taking a task: the count it holds is released before it runs. *)
Lemma pop_core w t q :
  core w -> queue w = t :: q ->
  let w' := w <| queue := q |> <| ch ::= fun c => c <| pending_tasks_ := pending_tasks_ (ch w) - 1 |> |> in
  core w' /\ 0 < pending_tasks_ (ch w) /\ state_ (ch w) <> TCPCH_IDLE /\ state_ (ch w) <> TCPCH_CLOSED /\
  (forall r, t = TaskResolveDone r -> resolver_done w').
Proof.
  intros H Hq. core_intro H. cbn zeta. rewrite Hq in Htk, Hrs. cbn [length] in Htk.
  assert (Hn : state_ (ch w) <> TCPCH_IDLE /\ state_ (ch w) <> TCPCH_CLOSED).
  { revert Hph. phases. destruct (state_ (ch w)); intuition congruence. }
  split_and!; [|lia|apply Hn|apply Hn|].
  - split; cbn; try done; [lia| |].
    + intros r Hr. apply (Hrs r). by right.
    + revert Hph. phases. cbn. destruct Hn. destruct (state_ (ch w)); tauto.
  - intros r ->. apply (Hrs r). by left.
Qed.

Lemma run_task_spec w t q :
  stable w -> queue w = t :: q -> WP (run_task E t) steps (w <| queue := q |>).
Proof.
  intros [H _ Hd0] Hq. destruct (pop_core w t q H Hq) as (H1 & Hpt & Hi & Hn & Hr).
  unfold run_task, ReleasePendingTask, decrement. apply wp_bind, wp_bind, (wp_get _ _ _ _ _ eq_refl).
  rewrite (proj2 (Z.ltb_lt _ _)) by exact Hpt. apply (wp_put _ _ _ _ _ eq_refl).
  set (w1 := w <| queue := q |> <| ch ::= _ |>) in *.
  assert (Hs1 : state_ (ch w1) = state_ (ch w)) by done. rewrite <- Hs1 in Hi, Hn.
  assert (Hd1 : ssl_depth_ (ch w1) = 0) by done. clearbody w1. clear Hs1.
  destruct t as [buf| |h|r|]; apply (steps_of _ w1); try done.
  - apply wp_bind, (wp_get _ _ _ _ _ eq_refl). apply wp_bind, (wp_get _ _ _ _ _ eq_refl).
    destruct (is_state _ _) eqn:Hs; cbn [negb]; [|by apply MaybeFinishClose_completes].
    apply is_state_true in Hs. assert (Hl : late w1) by (unfold late; rewrite Hs; done).
    destruct (ssl_layer_ (ch w1)) eqn:Hly.
    + apply guarded_spec; [done|done|].
      intros w2 H2 Hs2 Hd2 Hly2. apply call_ssl_layer_spec; [done| |done|left; congruence].
      unfold late. by rewrite Hs2.
    + destruct (ready_facts w1 H1 Hs) as (_ & _ & _ & _ & _ & Hc).
      apply keeps_completes; [done|]. by apply SendRaw_spec.
  - by apply Fail_completes.
  - by apply run_adopt_spec.
  - apply OnResolveDone_spec; [done|done|]. by apply (Hr r).
  - by apply Fail_completes.
Qed.

(** ** Completions *)

Lemma handshaking_core w :
  core w -> state_ (ch w) = TCPCH_CONNECTING -> ssl_layer_ (ch w) = true ->
  WP (SetState TCPCH_TLS_HANDSHAKE) (fun _ w' => core w' /\ grows w w' /\
    state_ (ch w') = TCPCH_TLS_HANDSHAKE /\ ssl_layer_ (ch w') = true) w.
Proof.
  intros H Hs Hl. destruct (open_not_closed w H ltac:(congruence)) as [Ho _]. core_intro H.
  open_world w. norm_hyps. unfold SetState. norm_goal. wp_run. rewrite Hs. wp_run.
  set (tr' := tr_ ++ _).
  assert (Htr' : trace_ok tr').
  { apply trace_ok_snoc; [done|]. split; [done|]. split_and!; [congruence|done|done]. }
  assert (Hh : hist tr' = observe (hist tr_) (EvState TCPCH_CONNECTING TCPCH_TLS_HANDSHAKE)) by apply hist_snoc.
  clearbody tr'. split; [|split; [split; norm_goal; rewrite ?Hs; done|done]].
  split; norm_goal; rewrite ?Hh; try done. revert Hph. phases. norm_goal. rewrite Hs, Hh. cbn.
  intuition congruence.
Qed.

Lemma guarded_null w : ssl_layer_ (ch w) = false -> recv_refused ->
  WP (guarded (call_ssl_layer E)) (keeps w) w.
Proof.
  intros Hl Hr. unfold guarded, increment. apply wp_bind, wp_bind, (wp_get _ _ _ _ _ eq_refl).
  destruct (_ <? UINT32_MAX); [|by apply wp_fail]. apply (wp_put _ _ _ _ _ eq_refl).
  apply wp_bind. unfold call_ssl_layer. apply wp_bind, (wp_get _ _ _ _ _ eq_refl). cbn [ssl_layer_ ch].
  change (ssl_layer_ (ch _)) with (ssl_layer_ (ch w)). rewrite Hl. by apply wp_fail.
Qed.

Lemma closed_no_layer w : core w -> state_ (ch w) = TCPCH_CLOSED -> ssl_layer_ (ch w) = false.
Proof. intros H Hs. core_intro H. revert Hph. phases. rewrite Hs. tauto. Qed.

Lemma call_layer_spec w :
  core w -> late w -> ssl_layer_ (ch w) = true \/ recv_refused ->
  WP (guarded (call_ssl_layer E)) (keeps w) w.
Proof.
  intros H Hl Hly. destruct (decide (state_ (ch w) = TCPCH_CLOSED)) as [Hs|Hs].
  - pose proof (closed_no_layer w H Hs). apply guarded_null; [done|]. destruct Hly; [congruence|done].
  - eapply wp_mono; [apply guarded_spec; [done|done|]|by intros _ w' (? & ? & _)].
    intros w1 H1 Hs1 Hd1 Hly1. apply call_ssl_layer_spec; [done|unfold late; by rewrite Hs1|done|].
    by rewrite Hly1.
Qed.

Lemma connecting_facts w : core w -> state_ (ch w) = TCPCH_CONNECTING ->
  socket_ (ch w) = true /\ ssl_layer_ (ch w) = tc_tls (h_cfg (hist (trace w))) /\ closing_ (ch w) = false.
Proof. intros H Hs. core_intro H. revert Hph. phases. rewrite Hs. intuition congruence. Qed.

Lemma OnConnectDone_spec r w :
  core w -> state_ (ch w) <> TCPCH_IDLE -> WP (OnConnectDone E r) (keeps w) w.
Proof.
  intros H Hi. unfold OnConnectDone. destruct (negb _); [by apply Fail_keeps|].
  apply wp_bind, (wp_get _ _ _ _ _ eq_refl).
  destruct (closing_ (ch w)) eqn:Hc; cbn [orb]; [by apply wp_ret, keeps_refl|].
  destruct (is_state _ _) eqn:Hs; cbn [negb]; [|by apply wp_ret, keeps_refl]. apply is_state_true in Hs.
  destruct (connecting_facts w H Hs) as (Hk & Hly & _).
  apply wp_bind, (wp_get _ _ _ _ _ eq_refl). apply wp_bind, (wp_get _ _ _ _ _ eq_refl).
  rewrite Hk. cbn [negb]. destruct (ssl_layer_ (ch w)) eqn:Hl.
  - eapply wp_call; [by apply handshaking_core|]. intros _ w1 (H1 & G1 & Hs1 & Hl1).
    assert (L1 : late w1) by (unfold late; rewrite Hs1; done).
    eapply wp_call; [by apply TcpRecv_spec|]. intros _ w2 (H2 & G2 & K2).
    eapply keeps_trans; [by eapply grows_trans|].
    apply call_layer_spec; [done|by eapply late_grows|]. destruct K2 as [?|[_ ?]]; [by right|left; congruence].
  - eapply wp_call; [apply EnterReady_spec; [done|done| |by left]|].
    { unfold verified. congruence. }
    intros _ w1 (H1 & G1 & Hs1). eapply keeps_trans; [exact G1|].
    eapply wp_mono; [apply TcpRecv_spec; [done|unfold late; rewrite Hs1; done]|]. by intros _ w2 (? & ? & _).
Qed.

Lemma OnRecvDone_spec data w :
  core w -> late w -> state_ (ch w) <> TCPCH_CLOSED -> WP (OnRecvDone E data) (keeps w) w.
Proof.
  intros H Hl Hs. unfold OnRecvDone. destruct (_ =? 0); [by apply wp_ret, keeps_refl|].
  apply wp_bind, (wp_get _ _ _ _ _ eq_refl). destruct (ssl_layer_ (ch w)) eqn:Hly.
  - apply call_layer_spec; [done|done|by left].
  - by apply OnRecvDataFromSSL_spec.
Qed.

Lemma OnSendDone_spec w : core w -> WP (OnSendDone E) (keeps w) w.
Proof.
  intros H. unfold OnSendDone. apply wp_bind, (wp_get _ _ _ _ _ eq_refl).
  destruct (ssl_layer_ (ch w)) eqn:Hly; cbn [negb andb]; [|by apply wp_ret, keeps_refl].
  destruct (is_state _ _) eqn:Hs; cbn [negb]; [|by apply wp_ret, keeps_refl]. apply is_state_true in Hs.
  apply call_layer_spec; [done|unfold late; by rewrite Hs|by left].
Qed.

(** A completed operation is taken off its count. *)
Lemma completed_connect w :
  core w -> 0 < connect_ops w ->
  let w' := w <| connect_ops ::= fun n => n - 1 |>
              <| ch ::= fun c => c <| pending_connect_ := pending_connect_ (ch w) - 1 |> |> in
  core w' /\ 0 < pending_connect_ (ch w) /\ state_ (ch w') <> TCPCH_IDLE.
Proof.
  intros H Hn. core_intro H. cbn zeta.
  assert (Hs : state_ (ch w) = TCPCH_CONNECTING \/ state_ (ch w) = TCPCH_TLS_HANDSHAKE \/
    state_ (ch w) = TCPCH_READY \/ state_ (ch w) = TCPCH_CLOSING).
  { revert Hph. phases. destruct (state_ (ch w)); intuition lia. }
  split_and!; [|lia|cbn; intuition congruence].
  split; cbn; try done; [lia|lia|]. revert Hph. phases. cbn.
  destruct Hs as [-> |[-> |[-> | ->]]]; tauto.
Qed.

Lemma completed_late w :
  core w -> 0 < recv_ops w \/ 0 < send_ops w ->
  state_ (ch w) = TCPCH_TLS_HANDSHAKE \/ state_ (ch w) = TCPCH_READY \/ state_ (ch w) = TCPCH_CLOSING.
Proof.
  intros H Hn. core_intro H. revert Hph. phases. destruct (state_ (ch w)); intuition lia.
Qed.

Lemma completed_recv w :
  core w -> 0 < recv_ops w ->
  let w' := w <| recv_ops ::= fun n => n - 1 |>
              <| ch ::= fun c => c <| pending_recv_ := pending_recv_ (ch w) - 1 |> |> in
  core w' /\ 0 < pending_recv_ (ch w) /\ late w' /\ state_ (ch w') <> TCPCH_CLOSED.
Proof.
  intros H Hn. pose proof (completed_late w H ltac:(by left)) as Hs. core_intro H. cbn zeta.
  split_and!; [|lia|unfold late; cbn; destruct Hs as [-> |[-> | ->]]; done|cbn; intuition congruence].
  split; cbn; try done; [lia|lia|]. revert Hph. phases. cbn. destruct Hs as [-> |[-> | ->]]; tauto.
Qed.

Lemma completed_send w :
  core w -> 0 < send_ops w ->
  let w' := w <| send_ops ::= fun n => n - 1 |>
              <| ch ::= fun c => c <| pending_send_ := pending_send_ (ch w) - 1 |> |> in
  core w' /\ 0 < pending_send_ (ch w) /\ late w' /\ state_ (ch w') <> TCPCH_CLOSED.
Proof.
  intros H Hn. pose proof (completed_late w H ltac:(by right)) as Hs. core_intro H. cbn zeta.
  split_and!; [|lia|unfold late; cbn; destruct Hs as [-> |[-> | ->]]; done|cbn; intuition congruence].
  split; cbn; try done; [lia|lia|]. revert Hph. phases. cbn. destruct Hs as [-> |[-> | ->]]; tauto.
Qed.

Lemma ConnectDoneCallback_spec r w :
  stable w -> 0 < connect_ops w ->
  WP (ConnectDoneCallback E r) steps (w <| connect_ops ::= fun n => n - 1 |>).
Proof.
  intros [H _ Hd] Hn. destruct (completed_connect w H Hn) as (H1 & Hp & Hi).
  unfold ConnectDoneCallback, decrement. apply wp_bind, wp_bind, (wp_get _ _ _ _ _ eq_refl).
  rewrite (proj2 (Z.ltb_lt _ _)) by exact Hp. apply (wp_put _ _ _ _ _ eq_refl).
  set (w1 := w <| connect_ops ::= _ |> <| ch ::= _ |>) in *.
  assert (Hd1 : ssl_depth_ (ch w1) = 0) by done. clearbody w1.
  apply then_finish; [done|]. by apply OnConnectDone_spec.
Qed.

Lemma RecvDoneCallback_spec r data w :
  stable w -> 0 < recv_ops w ->
  WP (RecvDoneCallback E r data) steps (w <| recv_ops ::= fun n => n - 1 |>).
Proof.
  intros [H _ Hd] Hn. destruct (completed_recv w H Hn) as (H1 & Hp & Hl & Hs).
  unfold RecvDoneCallback, decrement. apply wp_bind, wp_bind, (wp_get _ _ _ _ _ eq_refl).
  rewrite (proj2 (Z.ltb_lt _ _)) by exact Hp. apply (wp_put _ _ _ _ _ eq_refl).
  set (w1 := w <| recv_ops ::= _ |> <| ch ::= _ |>) in *.
  assert (Hd1 : ssl_depth_ (ch w1) = 0) by done. clearbody w1. pose proof (late_opened w1 Hl).
  apply then_finish; [done|]. destruct (_ =? _); [destruct (_ =? 0)|destruct (_ =? _); [|destruct (_ =? _)]].
  - by apply OnPeerClosed_spec.
  - eapply wp_call; [by apply OnRecvDone_spec|]. intros _ w2 [H2 G2]. eapply keeps_trans; [exact G2|].
    eapply wp_mono; [apply TcpRecv_spec; [done|by eapply late_grows]|]. by intros _ w3 (? & ? & _).
  - by apply OnPeerClosed_spec.
  - by apply wp_ret, keeps_refl.
  - by apply Fail_keeps.
Qed.

Lemma SendDoneCallback_spec r w :
  stable w -> 0 < send_ops w -> WP (SendDoneCallback E r) steps (w <| send_ops ::= fun n => n - 1 |>).
Proof.
  intros [H _ Hd] Hn. destruct (completed_send w H Hn) as (H1 & Hp & Hl & Hs).
  unfold SendDoneCallback, decrement. apply wp_bind, wp_bind, (wp_get _ _ _ _ _ eq_refl).
  rewrite (proj2 (Z.ltb_lt _ _)) by exact Hp. apply (wp_put _ _ _ _ _ eq_refl).
  set (w1 := w <| send_ops ::= _ |> <| ch ::= _ |>) in *.
  assert (Hd1 : ssl_depth_ (ch w1) = 0) by done. clearbody w1. pose proof (late_opened w1 Hl).
  apply then_finish; [done|]. destruct (_ =? _); [by apply OnSendDone_spec|].
  destruct (negb _); [by apply Fail_keeps|by apply wp_ret, keeps_refl].
Qed.

(** ** The shutdown of the queue *)

Lemma shutdown_core w :
  core w -> shutting_down w = true ->
  let w' := w <| shutting_down := false |> <| ch ::= fun c => c <| handler_ := None |> |> in
  (handler_ (ch w) = None -> core w') /\ (forall h, handler_ (ch w) = Some h ->
    let w'' := w' <| trace ::= fun t => t ++ [OnChannelClosed h (close_result_ (ch w)) (close_reason_ (ch w))] |> in
    core w'') /\ closed_notified_ (ch w) = true.
Proof.
  intros H Hsd. core_intro H.
  assert (Hs : state_ (ch w) = TCPCH_CLOSED).
  { revert Hph. phases. destruct (state_ (ch w)); intuition congruence. }
  revert Hph. phases. rewrite Hs. intros (Hc & Hcn & Hk & Hd & Ht & Hr & Hno & Hq & Hso & Hl & Hdd & _ & Hsh).
  destruct (Hsh Hsd) as [Ho Hh]. cbn zeta. split_and!; [intros Hhd|intros h Hhd|done].
  - split; cbn; try done. phases. cbn. rewrite Hs. intuition congruence.
  - split; cbn; rewrite ?hist_snoc; cbn; try done.
    + apply trace_ok_snoc; [done|]. split; [done|]. split_and!; [congruence|congruence|done].
    + phases. cbn. rewrite Hs, hist_snoc. cbn. intuition congruence.
Qed.

Lemma closed_settled w w' : closed_notified_ (ch w) = true -> core w -> core w' -> grows w w' -> settled w'.
Proof.
  intros Hc H H' G. assert (Hs : state_ (ch w) = TCPCH_CLOSED).
  { core_intro H. revert Hph. phases. destruct (state_ (ch w)); intuition congruence. }
  pose proof (grows_state _ _ G) as Hr. rewrite Hs in Hr. core_intro H'.
  intros _. revert Hph. phases. destruct (state_ (ch w')); try done; intuition congruence.
Qed.

Lemma OnEventProcShutdown_spec w :
  stable w -> shutting_down w = true -> WP (OnEventProcShutdown E) steps (w <| shutting_down := false |>).
Proof.
  intros [H _ Hd] Hsd. destruct (shutdown_core w H Hsd) as (H1 & H2 & Hcn).
  unfold OnEventProcShutdown. do 4 apply wp_bind, (wp_get _ _ _ _ _ eq_refl).
  change (closed_notified_ (ch _)) with (closed_notified_ (ch w)). rewrite Hcn. cbn [negb].
  change (handler_ (ch _)) with (handler_ (ch w)). change (close_result_ (ch _)) with (close_result_ (ch w)).
  change (close_reason_ (ch _)) with (close_reason_ (ch w)).
  apply wp_bind, (wp_put _ _ _ _ _ eq_refl). set (w1 := w <| shutting_down := false |> <| ch ::= _ |>) in *.
  assert (Hcn1 : closed_notified_ (ch w1) = true) by done.
  assert (Hd1 : ssl_depth_ (ch w1) = 0) by done.
  destruct (handler_ (ch w)) as [h|].
  - specialize (H2 h eq_refl). cbn zeta in H2. unfold notify. apply wp_bind, (wp_log _ _ _ _ _ eq_refl).
    set (w2 := w1 <| trace ::= _ |>) in *. assert (Hcn2 : closed_notified_ (ch w2) = true) by done.
    assert (Hd2 : ssl_depth_ (ch w2) = 0) by done. clearbody w2.
    apply wp_bind, (wp_ask _ _ _ _ _ _ eq_refl eq_refl). destruct (ask_core w2 H2) as [H3 G3].
    eapply wp_mono; [by apply (each_api_spec True)|]. intros _ w4 (H4 & G4 & _).
    pose proof (grows_trans _ _ _ G3 G4) as G. split; [done| |by rewrite (grows_depth _ _ G)].
    by apply (closed_settled w2 w4).
  - apply wp_ret. specialize (H1 eq_refl). split; [done| |done].
    apply (closed_settled w1 w1); [done|done|done|apply grows_refl].
Qed.

(** ** The resolver thread *)

Lemma RunDnsRequest_start_spec w :
  stable w -> worker w = Posted -> WP RunDnsRequest_start steps w.
Proof.
  intros [H Hs Hd] Hw. unfold RunDnsRequest_start. apply wp_bind, (wp_gets _ _ _ _ _ eq_refl).
  apply (wp_puts _ _ _ _ _ eq_refl). split; [|exact Hs|exact Hd]. core_intro H.
  split; cbn; try done.
  - intros r Hr. destruct (Hrs r Hr); congruence.
  - revert Hph. phases. cbn. destruct (state_ (ch w)); rewrite Hw in *; destruct (request w); 
    try destruct (_ || _) eqn:Hg; intuition congruence.
Qed.

Lemma resolving_worker w :
  core w -> worker w = Resolving -> request_gone w = false -> state_ (ch w) = TCPCH_RESOLVING.
Proof.
  intros H Hw Hg. core_intro H. revert Hph Hg. phases. destruct (state_ (ch w)); intuition congruence.
Qed.

Lemma RunDnsRequest_finish_spec r w :
  stable w -> worker w = Resolving -> WP (RunDnsRequest_finish r) steps w.
Proof.
  intros [H Hs Hd] Hw. unfold RunDnsRequest_finish. pose proof (resolving_worker w H Hw) as Hrw.
  apply wp_bind, (wp_puts _ _ _ _ _ eq_refl). set (w1 := w <| worker := _ |>).
  assert (H1 : core w1).
  { core_intro H. split; cbn; try done; [by intros; right|]. revert Hph. phases. cbn.
    rewrite Hw. destruct (state_ (ch w)); intuition congruence. }
  assert (F1 : settled w1 /\ ssl_depth_ (ch w1) = 0 /\ state_ (ch w1) = state_ (ch w) /\ resolver_done w1 /\ request_gone w1 = request_gone w)
    by (split_and!; [done|done|done|by right|done]).
  clearbody w1. destruct F1 as (Hs1 & Hd1 & Hst1 & Hr1 & Hg1).
  apply wp_bind, (wp_gets _ _ _ _ _ eq_refl). rewrite Hg1. destruct (request_gone w); [by apply wp_ret|].
  specialize (Hrw eq_refl). rewrite <- Hst1 in Hrw. destruct (open_not_closed w1 H1 ltac:(congruence)) as [_ Hcn].
  destruct (core_known w1 H1 ltac:(congruence)) as (Hqc & _).
  unfold AcquirePendingTask, increment, PostTask. apply wp_bind, wp_bind, (wp_get _ _ _ _ _ eq_refl).
  rewrite Hcn. apply wp_bind, wp_bind, (wp_get _ _ _ _ _ eq_refl).
  destruct (_ <? UINT32_MAX); [|by apply wp_fail]. apply (wp_put _ _ _ _ _ eq_refl), wp_ret. cbn [negb].
  apply (wp_puts _ _ _ _ _ eq_refl).
  destruct (post_core w1 (TaskResolveDone r) H1 Hcn Hqc ltac:(done)) as [H2 G2].
  split; [exact H2|by apply G2|exact Hd1].
Qed.

(** ** Opening *)

(** The channel takes its handler, arms the timer and begins to resolve. *)
Lemma wp_opening {B} h (k : M B) Q w :
  core w -> state_ (ch w) = TCPCH_IDLE -> target_if_forced (ch w) -> ssl_depth_ (ch w) = 0 ->
  (forall w1, core w1 -> ssl_depth_ (ch w1) = 0 -> state_ (ch w1) = TCPCH_RESOLVING -> dns_request_ (ch w1) = false ->
     queue w1 = [] -> resolver_done w1 -> WP k Q w1) ->
  WP (put (fun c => c <| queue_created_ := true |> <| handler_ := Some h |>);;
      log (EvOpen (config_ (ch w)) h);;
      armed <- ask (schedule_task E);;
      (if armed then put (fun c => c <| connect_timer_ := true |>);; puts (fun w => w <| timer := true |>)
       else ret tt);;
      SetState TCPCH_RESOLVING;; k) Q w.
Proof.
  intros H Hs Ht Hd0 K. core_intro H. revert Hph Ht. phases. rewrite Hs. intros Hph Ht.
  destruct Hph as ((Hc & (Hcn & Hsd & Ho & Hh) & Htm) & Hqc & Hso & Hly & (Hn1 & Hn2 & Hn3) & Hq &
    (Hdr & Hpd & Hrq) & Htim & Hwk).
  open_world w. norm_hyps. norm_goal. rewrite Hs in Hst. subst st_ q_ dr_ pd_ sk_ ly_ co_ ro_ so_ cl_ cn_ tm_ sd_.
  unfold SetState. wp_run. set (tr' := tr_ ++ _).
  assert (Htr' : trace_ok tr') by (by apply trace_ok_snoc).
  assert (Hh' : hist tr' = observe (hist tr_) (EvOpen cf_ h)) by apply hist_snoc. clearbody tr'.
  destruct (schedule_task E tk_); wp_run; set (tr2 := tr' ++ _).
  all: assert (Htr2 : trace_ok tr2) by (apply trace_ok_snoc; [done|]; rewrite Hh'; split; [done|];
         split_and!; [done|done|done]).
  all: assert (Hh2 : hist tr2 = observe (observe (hist tr_) (EvOpen cf_ h)) (EvState TCPCH_IDLE TCPCH_RESOLVING))
         by (unfold tr2; by rewrite hist_snoc, Hh'); clearbody tr2.
  all: apply K; try done; try (by left).
  all: split; norm_goal; rewrite ?Hh2; try done; try (by intros; left).
  all: phases; norm_goal; rewrite Hh2; cbn; by split_and!.
Qed.

(** The name goes to the resolver. *)
Lemma request_core w rq :
  core w -> state_ (ch w) = TCPCH_RESOLVING -> dns_request_ (ch w) = false -> queue w = [] ->
  let w' := w <| request := rq |> <| worker := Posted |>
              <| ch ::= fun c => c <| dns_request_ := true |> |>
              <| ch ::= fun c => c <| pending_dns_ := pending_dns_ (ch w) + 1 |> |> in
  core w'.
Proof.
  intros H Hs Hd Hq. destruct (core_dns w H) as [Hpd _]. rewrite Hd in Hpd. core_intro H.
  cbn zeta. open_world w. norm_hyps. norm_goal. subst q_ pd_.
  split; norm_goal; try done.
  - intros r Hr. by inversion Hr.
  - revert Hph. phases. norm_goal. rewrite Hs. intuition congruence.
Qed.

Lemma post_spec {A} t (r : A) w :
  core w -> ssl_depth_ (ch w) = 0 -> state_ (ch w) = TCPCH_RESOLVING ->
  (forall r, t = TaskResolveDone r -> resolver_done w) ->
  WP (AcquirePendingTask;; PostTask t;; ret r) steps w.
Proof.
  intros H Hd Hs Ht. destruct (open_not_closed w H ltac:(congruence)) as [_ Hcn].
  destruct (core_known w H ltac:(congruence)) as (Hqc & _).
  unfold AcquirePendingTask, increment, PostTask. apply wp_bind, wp_bind, (wp_get _ _ _ _ _ eq_refl).
  rewrite Hcn. apply wp_bind, wp_bind, (wp_get _ _ _ _ _ eq_refl).
  destruct (_ <? UINT32_MAX); [|by apply wp_fail]. apply (wp_put _ _ _ _ _ eq_refl), wp_ret.
  apply wp_bind, (wp_puts _ _ _ _ _ eq_refl), wp_ret.
  destruct (post_core w t H Hcn Hqc Ht) as [H2 G2]. split; [exact H2| |exact Hd]. apply G2. unfold settled.
  core_intro H. revert Hph. phases. rewrite Hs. intuition congruence.
Qed.

Lemma resolving_settled w : core w -> state_ (ch w) = TCPCH_RESOLVING -> settled w.
Proof. intros H Hs. unfold settled. core_intro H. revert Hph. phases. rewrite Hs. intuition congruence. Qed.

Lemma Open_start_spec h literal w :
  core w -> ssl_depth_ (ch w) = 0 -> state_ (ch w) = TCPCH_IDLE -> target_if_forced (ch w) ->
  WP (put (fun c => c <| queue_created_ := true |> <| handler_ := Some h |>);;
      log (EvOpen (config_ (ch w)) h);;
      Open_start E literal) steps w.
Proof.
  intros H Hd0 Hs Ht. unfold Open_start. apply wp_opening; [done|done|done|done|]. clear w H Hd0 Hs Ht.
  intros w H Hd0 Hs Hd Hq Hr. destruct literal as [a|]; [by apply post_spec|].
  do 2 apply wp_bind, (wp_get _ _ _ _ _ eq_refl). cbv zeta.
  apply wp_bind, (wp_ask _ _ _ _ _ _ eq_refl eq_refl). destruct (ask_core w H) as [H1 _].
  set (w1 := w <| tick ::= S |>) in *.
  assert (F : state_ (ch w1) = TCPCH_RESOLVING /\ dns_request_ (ch w1) = false /\ queue w1 = [] /\
    ssl_depth_ (ch w1) = 0) by done.
  clearbody w1. destruct F as (Hs1 & Hd1 & Hq1 & Hd2).
  destruct (negb _); [by apply post_spec|].
  apply wp_bind, (wp_puts _ _ _ _ _ eq_refl), wp_bind, (wp_put _ _ _ _ _ eq_refl).
  unfold increment. apply wp_bind, wp_bind, (wp_get _ _ _ _ _ eq_refl).
  destruct (_ <? UINT32_MAX); [|by apply wp_fail]. apply (wp_put _ _ _ _ _ eq_refl), wp_ret.
  set (rq := Some _). pose proof (request_core w1 rq H1 Hs1 Hd1 Hq1) as H2.
  split; [exact H2|by apply resolving_settled|exact Hd2].
Qed.

(** Before the first transition a failed [Open] leaves only the configuration behind. *)
Lemma idle_core w cf bi oe :
  core w -> state_ (ch w) = TCPCH_IDLE ->
  core (w <| ch ::= fun c => c <| config_ := cf |> |> <| ch ::= fun c => c <| bound_ifindex_ := bi |> |>
          <| ch ::= fun c => c <| open_error_ := oe |> |>).
Proof.
  intros H Hs. core_intro H. open_world w. norm_hyps. norm_goal.
  split; norm_goal; try done. revert Hph. phases. norm_goal. by rewrite Hs.
Qed.

Lemma idle_settled w : core w -> state_ (ch w) = TCPCH_IDLE -> settled w.
Proof. intros H Hs. unfold settled. core_intro H. revert Hph. phases. rewrite Hs. intuition congruence. Qed.

Lemma idle_config w cf :
  core w -> state_ (ch w) = TCPCH_IDLE -> core (w <| ch ::= fun c => c <| config_ := cf |> |>).
Proof.
  intros H Hs. pose proof (idle_core w cf (bound_ifindex_ (ch w)) (open_error_ (ch w)) H Hs) as K.
  revert K. by open_world w.
Qed.

Lemma idle_bound w bi :
  core w -> state_ (ch w) = TCPCH_IDLE -> core (w <| ch ::= fun c => c <| bound_ifindex_ := bi |> |>).
Proof.
  intros H Hs. pose proof (idle_core w (config_ (ch w)) bi (open_error_ (ch w)) H Hs) as K.
  revert K. by open_world w.
Qed.

Lemma error_stable w oe : stable w -> stable (w <| ch ::= fun c => c <| open_error_ := oe |> |>).
Proof. intros [H Hs Hd]. split; [core_intro H; by split|exact Hs|exact Hd]. Qed.

Lemma idle_stable w : core w -> state_ (ch w) = TCPCH_IDLE -> ssl_depth_ (ch w) = 0 -> stable w.
Proof. intros. split; [done|by apply idle_settled|done]. Qed.

Lemma Open_spec cfg handler w : stable w -> WP (Open E cfg handler) steps w.
Proof.
  intros H. unfold Open. apply wp_bind, (wp_put _ _ _ _ _ eq_refl).
  pose proof (error_stable w NoReason H) as S1. set (w1 := w <| ch ::= _ |>) in *. clearbody w1. clear w H.
  apply wp_bind, (wp_get _ _ _ _ _ eq_refl). destruct handler as [h|]; [|by apply wp_ret].
  destruct (is_state _ _) eqn:Hi; cbn [negb]; [|by apply wp_ret]. apply is_state_true in Hi.
  destruct (_ || _); [by apply wp_ret|]. cbv zeta. destruct S1 as [H1 _ Hd1].
  set (cf := if decide (tc_policy cfg = TT_VPN_POLICY_UNSET) then _ else cfg). clearbody cf.
  apply wp_bind, (wp_put _ _ _ _ _ eq_refl). pose proof (idle_config w1 cf H1 Hi) as H2.
  set (w2 := w1 <| ch ::= _ |>) in *.
  assert (F2 : state_ (ch w2) = TCPCH_IDLE /\ config_ (ch w2) = cf /\ ssl_depth_ (ch w2) = 0) by done.
  clearbody w2. destruct F2 as (Hi2 & Hc2 & Hd2). pose proof (idle_stable w2 H2 Hi2 Hd2).
  destruct (_ && _); [by apply wp_ret|].
  apply (wp_call _ _ _ (fun _ w3 => core w3 /\ state_ (ch w3) = TCPCH_IDLE /\ config_ (ch w3) = cf /\
    ssl_depth_ (ch w3) = 0)).
  { destruct (decide _); [by apply wp_ret|]. apply (wp_put _ _ _ _ _ eq_refl). split_and!; [|done|done|done].
    by apply idle_bound. }
  intros _ w3 (H3 & Hi3 & Hc3 & Hd3). pose proof (idle_stable w3 H3 Hi3 Hd3) as S3.
  apply wp_bind, (wp_get _ _ _ _ _ eq_refl).
  destruct (bool_decide _ && _) eqn:Hforced.
  { apply wp_bind, (wp_put _ _ _ _ _ eq_refl), wp_ret. by apply error_stable. }
  assert (Ht : target_if_forced (ch w3)).
  { intros Hf. rewrite Hc3 in Hf. rewrite bool_decide_eq_true_2 in Hforced by done.
    cbn [andb] in Hforced. by apply negb_false_iff in Hforced. }
  apply wp_bind, (wp_ask _ _ _ _ _ _ eq_refl eq_refl). destruct (ask_core w3 H3) as [H4 _].
  set (w4 := w3 <| tick ::= S |>) in *.
  assert (F4 : state_ (ch w4) = TCPCH_IDLE /\ target_if_forced (ch w4) /\ ssl_depth_ (ch w4) = 0 /\
    config_ (ch w4) = cf) by done.
  clearbody w4. destruct F4 as (Hi4 & Ht4 & Hd4 & Hc4). pose proof (idle_stable w4 H4 Hi4 Hd4).
  destruct (negb (queue_create _ _ =? _));
    [apply wp_bind, (wp_put _ _ _ _ _ eq_refl), wp_ret; by apply error_stable|].
  rewrite <- Hc4. by apply Open_start_spec.
Qed.

(** ** Every step *)

Lemma grows_steps {A} (m : M A) w : stable w -> WP m (keeps w) w -> WP m steps w.
Proof.
  intros [H Hs Hd] Hm. eapply wp_mono; [exact Hm|]. intros a w' [H' G].
  split; [done|by apply G|by rewrite (grows_depth _ _ G)].
Qed.

Lemma timer_core w :
  core w -> timer w = true ->
  core (w <| timer := false |>) /\ state_ (ch w) <> TCPCH_IDLE.
Proof.
  intros H Ht. core_intro H. split; [|intros Hs; revert Hph; phases; rewrite Hs; intuition congruence].
  split; try done. revert Hph. phases. cbn. destruct (state_ (ch w)); intuition congruence.
Qed.

Lemma step_spec i w : stable w -> enabled i w = true -> WP (step E i) steps w.
Proof.
  intros S Hi. destruct i as [cfg h|a| | | |r|r|r data|r|]; cbn [step enabled] in *; zbool.
  - eapply wp_call; [by apply Open_spec|]. intros r w' K. by apply wp_ret.
  - apply grows_steps; [done|]. destruct S as [H _ _].
    eapply wp_mono; [by apply (call_api_spec True)|]. by intros _ w' (? & ? & _).
  - apply wp_bind, (wp_gets _ _ _ _ _ eq_refl). destruct (queue w) as [|t q] eqn:Hq; [done|].
    apply wp_bind, (wp_puts _ _ _ _ _ eq_refl). by apply run_task_spec.
  - destruct S as [H _ Hd]. destruct (timer_core w H Hi) as [H1 Hi1].
    apply wp_bind, (wp_puts _ _ _ _ _ eq_refl).
    apply wp_bind, (wp_get _ _ _ _ _ eq_refl). apply (steps_of _ (w <| timer := false |>)); [done|].
    by apply Fail_completes.
  - apply RunDnsRequest_start_spec; [done|]. by destruct (worker w).
  - apply RunDnsRequest_finish_spec; [done|]. by destruct (worker w).
  - apply wp_bind, (wp_puts _ _ _ _ _ eq_refl). by apply ConnectDoneCallback_spec.
  - apply wp_bind, (wp_puts _ _ _ _ _ eq_refl). by apply RecvDoneCallback_spec.
  - apply wp_bind, (wp_puts _ _ _ _ _ eq_refl). by apply SendDoneCallback_spec.
  - apply wp_bind, (wp_puts _ _ _ _ _ eq_refl). by apply OnEventProcShutdown_spec.
Qed.

Lemma new_stable : stable new_world.
Proof. split; [apply new_core|done|done]. Qed.

Lemma reachable_stable w : reachable E w -> stable w.
Proof.
  induction 1 as [|w i w' _ S Hi Hw']; [apply new_stable|].
  pose proof (step_spec i w S Hi) as K. unfold wp in K. by rewrite Hw' in K.
Qed.
End Invariant.
