(* ===== verification/ChannelProperties.v ===== *)
(** * ChannelProperties: what the invariant of a TCP channel says of the program

    The properties of every reachable world, that closing ends, and concrete runs. *)

From Stdlib Require Import ZArith Lia.
From stdpp Require Import base numbers option list.
From S2P Require Import Prelude Results VpnPolicy SocketPinner DnsMessage DnsResolver BCBuffer TlsContext TcpChannel ChannelInvariant.

(** ** Runs *)

(** A sequence of steps; [None] where a step is not enabled or crashes. *)
Fixpoint run (E : env) (ins : list input) (w : world) : option world :=
  match ins with
  | [] => Some w
  | i :: ins =>
      if enabled i w then match step E i w with inl (_, w') => run E ins w' | inr _ => None end else None
  end.

Lemma run_reachable E ins w w' : reachable E w -> run E ins w = Some w' -> reachable E w'.
Proof.
  revert w. induction ins as [|i ins IH]; intros w Hw; cbn [run].
  - by intros [= <-].
  - destruct (enabled i w) eqn:Hi; [|done]. destruct (step E i w) as [[[] w1]|c] eqn:Hs; [|done].
    apply IH. by eapply reachable_step.
Qed.

(** ** Histories as lists of events *)

Lemma handshake_seen tr : h_handshake (hist tr) = true -> EvHandshake ∈ tr.
Proof.
  induction tr as [|e tr IH] using rev_ind; [done|]. rewrite hist_snoc, elem_of_app, list_elem_of_singleton.
  destruct e; cbn; auto.
Qed.

Lemma spki_seen tr : h_spki (hist tr) = true -> EvSpki BC_R_SUCCESS ∈ tr.
Proof.
  induction tr as [|e tr IH] using rev_ind; [done|]. rewrite hist_snoc, elem_of_app, list_elem_of_singleton.
  destruct e; cbn; auto. intros ->%Z.eqb_eq. auto.
Qed.

Lemma pin_seen tr i r : h_pin (hist tr) = Some (i, r) -> EvPin i r ∈ tr.
Proof.
  induction tr as [|e tr IH] using rev_ind; [done|]. rewrite hist_snoc, elem_of_app, list_elem_of_singleton.
  destruct e; cbn; auto. intros [= -> ->]. auto.
Qed.

Lemma clean_seen tr : h_clean (hist tr) = true -> EvCloseNotify ∈ tr.
Proof.
  induction tr as [|e tr IH] using rev_ind; [done|]. rewrite hist_snoc, elem_of_app, list_elem_of_singleton.
  destruct e; cbn; auto.
Qed.

(** ** Closing ends *)

(** What the kernel and the queue still owe the channel. *)
Definition outstanding (w : world) : Z :=
  Z.of_nat (length (queue w)) + connect_ops w + recv_ops w + send_ops w.

(** The completion of something outstanding. *)
Definition completion (i : input) : bool :=
  match i with InTask | InConnectDone _ | InRecvDone _ _ | InSendDone _ => true | _ => false end.

(** Whatever completes, and in whatever order, the channel ends up closed. *)
Inductive closes (E : env) : world -> Prop :=
| closes_done w : state_ (ch w) = TCPCH_CLOSED -> closes E w
| closes_next w :
    state_ (ch w) = TCPCH_CLOSING ->
    (exists i, completion i = true /\ enabled i w = true) ->
    (forall i, completion i = true -> enabled i w = true -> exists w', step E i w = inl (tt, w')) ->
    (forall i w', completion i = true -> enabled i w = true -> step E i w = inl (tt, w') -> closes E w') ->
    closes E w.

Abbreviation SAFE := (wp (fun _ => False)).

Definition closing (w : world) : Prop :=
  closing_ (ch w) = true /\ (state_ (ch w) = TCPCH_CLOSING \/ state_ (ch w) = TCPCH_CLOSED).

(** An operation on a channel that is closing starts nothing. *)
Record idles (w w' : world) : Prop := {
  idles_closing : closing w -> closing w';
  idles_outstanding : outstanding w' = outstanding w;
  idles_depth : ssl_depth_ (ch w') = ssl_depth_ (ch w);
  idles_layer : 0 < ssl_depth_ (ch w) -> ssl_layer_ (ch w') = ssl_layer_ (ch w)
}.

Lemma idles_refl w : idles w w.
Proof. by split. Qed.

Lemma idles_trans w1 w2 w3 : idles w1 w2 -> idles w2 w3 -> idles w1 w3.
Proof. intros [A1 A2 A3 A4] [B1 B2 B3 B4]. split; [auto|congruence|congruence|]. intros. rewrite B4, A4; auto; lia. Qed.

Lemma safe_trans {A} (m : M A) w w1 :
  idles w w1 -> SAFE m (fun _ w' => idles w1 w') w1 -> SAFE m (fun _ w' => idles w w') w1.
Proof. intros G Hm. eapply wp_mono; [exact Hm|]. intros a w' G'. by eapply idles_trans. Qed.

Lemma MaybeFinishClose_idles w : closing w -> SAFE MaybeFinishClose (fun _ w' => idles w w') w.
Proof.
  intros [Hc Hs]. unfold MaybeFinishClose. apply wp_bind, (wp_get _ _ _ _ _ eq_refl).
  destruct (_ || _) eqn:Hb; [apply wp_ret, idles_refl|].
  assert (Hd : ~ 0 < ssl_depth_ (ch w)).
  { intros Hd. apply Z.ltb_lt in Hd. rewrite Hd, orb_true_r in Hb. done. }
  unfold SetState, Cleanup, Detach. open_world w. norm_goal. norm_hyps. wp_run.
  destruct (is_state st_ TCPCH_CLOSED) eqn:Hst; wp_run; (split; [|done|done|norm_goal; lia]).
  - intros _. split; [exact Hc|]. right. by apply is_state_true in Hst.
  - intros _. split; [exact Hc|]. by right.
Qed.

Lemma Fail_idles r why w : closing w -> SAFE (Fail r why) (fun _ w' => idles w w') w.
Proof.
  intros Hc. unfold Fail. apply wp_bind, (wp_get _ _ _ _ _ eq_refl). rewrite (proj1 Hc).
  by apply MaybeFinishClose_idles.
Qed.

Lemma not_state w s : closing w -> s <> TCPCH_CLOSING -> s <> TCPCH_CLOSED -> is_state (state_ (ch w)) s = false.
Proof. intros [_ [Hs|Hs]] H1 H2; apply is_state_false; congruence. Qed.

Section Quiet.
Context (E : env) (Hquiet : forall n, user_calls E n = []).

Lemma log_idles w e : idles w (w <| trace ::= fun t => t ++ [e] |>).
Proof. by split. Qed.

Lemma notify_idles e w : SAFE (notify E e) (fun _ w' => idles w w') w.
Proof.
  unfold notify. apply wp_bind, (wp_log _ _ _ _ _ eq_refl). apply wp_bind, (wp_ask _ _ _ _ _ _ eq_refl eq_refl).
  rewrite Hquiet. cbn [each]. apply wp_ret. by split.
Qed.

Lemma OnPeerClosed_idles w : closing w -> SAFE OnPeerClosed (fun _ w' => idles w w') w.
Proof.
  intros Hc. unfold OnPeerClosed. do 3 apply wp_bind, (wp_get _ _ _ _ _ eq_refl).
  destruct (negb _); [by apply Fail_idles|]. destruct (_ && _); by apply Fail_idles.
Qed.

Lemma TcpRecv_idles w : closing w -> SAFE (TcpRecv E) (fun _ w' => idles w w') w.
Proof.
  intros [Hc _]. unfold TcpRecv. apply wp_bind, (wp_get _ _ _ _ _ eq_refl). rewrite Hc. apply wp_ret, idles_refl.
Qed.

Lemma OnRecvDataFromSSL_idles data w :
  closing w -> SAFE (OnRecvDataFromSSL E data) (fun _ w' => idles w w') w.
Proof.
  intros Hc. unfold OnRecvDataFromSSL. destruct (_ =? 0); [apply wp_ret, idles_refl|].
  apply wp_bind, (wp_get _ _ _ _ _ eq_refl). destruct (parked_ (ch w)).
  { apply wp_bind, (wp_put _ _ _ _ _ eq_refl), (wp_log _ _ _ _ _ eq_refl). by split. }
  apply wp_bind, (wp_get _ _ _ _ _ eq_refl). destruct (handler_ (ch w)); [|apply wp_ret, idles_refl].
  apply wp_bind, (wp_get _ _ _ _ _ eq_refl). rewrite not_state by done. apply wp_ret, idles_refl.
Qed.

Lemma run_callback_idles cb w : closing w -> SAFE (run_callback E cb) (fun _ w' => idles w w') w.
Proof.
  intros Hc. destruct cb as [data|data| | |]; cbn [run_callback].
  - unfold OnSSLWrite. apply wp_bind. destruct (_ =? 0); [apply wp_ret, wp_ret, idles_refl|].
    apply wp_bind, (wp_get _ _ _ _ _ eq_refl). rewrite (proj1 Hc). cbn [orb]. apply wp_ret, wp_ret, idles_refl.
  - by apply OnRecvDataFromSSL_idles.
  - unfold OnSSLReady. apply wp_bind, (wp_get _ _ _ _ _ eq_refl). rewrite (proj1 Hc). apply wp_ret, idles_refl.
  - unfold OnSSLFinished. apply wp_bind, (wp_put _ _ _ _ _ eq_refl). apply wp_bind, (wp_log _ _ _ _ _ eq_refl).
    set (w1 := w <| ch ::= _ |> <| trace ::= _ |>). assert (G : idles w w1) by by split.
    eapply safe_trans; [exact G|]. apply OnPeerClosed_idles. by apply G.
  - unfold OnSSLError. apply wp_bind, (wp_get _ _ _ _ _ eq_refl).
    apply wp_bind, (wp_ask _ _ _ _ _ _ eq_refl eq_refl). set (w1 := w <| tick ::= _ |>).
    assert (G : idles w w1) by by split. eapply safe_trans; [exact G|]. apply Fail_idles. by apply G.
Qed.

Lemma callbacks_idles l w : closing w -> SAFE (each (run_callback E) l) (fun _ w' => idles w w') w.
Proof.
  revert w. induction l as [|cb l IH]; intros w Hc; cbn [each]; [apply wp_ret, idles_refl|].
  eapply wp_call; [by apply run_callback_idles|]. intros ? w1 G. eapply safe_trans; [exact G|].
  apply IH. by apply G.
Qed.

Lemma layer_idles w :
  closing w -> ssl_depth_ (ch w) = 0 -> ssl_layer_ (ch w) = true ->
  SAFE (guarded (call_ssl_layer E)) (fun _ w' => idles w w') w.
Proof.
  intros Hc Hd Hl. unfold guarded, increment. apply wp_bind, wp_bind, (wp_get _ _ _ _ _ eq_refl).
  rewrite Hd. apply (wp_put _ _ _ _ _ eq_refl). unfold call_ssl_layer.
  apply wp_bind, wp_bind, (wp_get _ _ _ _ _ eq_refl). change (ssl_layer_ (ch _)) with (ssl_layer_ (ch w)).
  rewrite Hl. cbn [negb]. apply wp_bind, (wp_ask _ _ _ _ _ _ eq_refl eq_refl).
  set (w1 := w <| ch ::= _ |> <| tick ::= _ |>).
  assert (F1 : closing w1 /\ ssl_depth_ (ch w1) = 1 /\ outstanding w1 = outstanding w) by done.
  clearbody w1. destruct F1 as (Hc1 & Hd1 & Ho1).
  eapply wp_mono; [by apply callbacks_idles|]. intros ? w2 G2.
  apply wp_bind, (wp_get _ _ _ _ _ eq_refl). rewrite (idles_depth _ _ G2), Hd1. cbn [Z.sub Z.eqb].
  apply wp_bind, (wp_put _ _ _ _ _ eq_refl). set (w3 := w2 <| ch ::= _ |>).
  assert (G3 : idles w w3).
  { split; [intros _; apply (idles_closing _ _ G2 Hc1)|transitivity (outstanding w2); [done|] |done|lia].
    rewrite <- Ho1. apply G2. }
  change (1 - 1 =? 0) with true. cbv iota.
  eapply safe_trans; [exact G3|]. apply MaybeFinishClose_idles. by apply G3.
Qed.

(** *** A completion in a closing channel *)

Lemma then_idle (m : M unit) w :
  closing w -> SAFE m (fun _ w' => idles w w') w -> SAFE (m;; MaybeFinishClose) (fun _ w' => idles w w') w.
Proof.
  intros Hc Hm. eapply wp_call; [exact Hm|]. intros ? w1 G. eapply safe_trans; [exact G|].
  apply MaybeFinishClose_idles. by apply G.
Qed.

Lemma decrement_idles count set_count w :
  (forall n, idles w (w <| ch ::= set_count n |>)) -> SAFE (decrement count set_count) (fun _ w' => idles w w') w.
Proof.
  intros Hset. unfold decrement. apply wp_bind, (wp_get _ _ _ _ _ eq_refl).
  destruct (0 <? _); [apply (wp_put _ _ _ _ _ eq_refl), Hset|apply wp_ret, idles_refl].
Qed.

Lemma task_idles t w :
  closing w -> SAFE (run_task E t) (fun _ w' => idles w w') w.
Proof.
  intros Hc. unfold run_task, ReleasePendingTask.
  eapply wp_call; [by apply decrement_idles|]. intros ? w1 G. eapply safe_trans; [exact G|].
  pose proof (idles_closing _ _ G Hc) as Hc1. clear w Hc G. destruct t as [buf| |h|r|].
  - apply wp_bind, (wp_get _ _ _ _ _ eq_refl). apply wp_bind, (wp_get _ _ _ _ _ eq_refl).
    rewrite not_state by done. by apply MaybeFinishClose_idles.
  - by apply Fail_idles.
  - unfold run_adopt, IsParkedAndUsable. apply wp_bind, (wp_get _ _ _ _ _ eq_refl).
    rewrite not_state by done. rewrite andb_false_r. cbn [negb].
    eapply wp_call; [apply notify_idles|]. intros ? w2 G2. eapply safe_trans; [exact G2|].
    apply Fail_idles. by apply G2.
  - unfold OnResolveDone. eapply wp_call; [by apply decrement_idles|]. intros ? w2 G2.
    eapply safe_trans; [exact G2|]. pose proof (idles_closing _ _ G2 Hc1) as Hc2.
    apply wp_bind, (wp_put _ _ _ _ _ eq_refl). set (w3 := w2 <| ch ::= _ |>).
    assert (G3 : idles w2 w3) by by split. pose proof (idles_closing _ _ G3 Hc2) as Hc3.
    eapply safe_trans; [exact G3|]. apply wp_bind, (wp_get _ _ _ _ _ eq_refl). rewrite (proj1 Hc3).
    by apply MaybeFinishClose_idles.
  - by apply Fail_idles.
Qed.

Lemma OnConnectDone_idles r w : closing w -> SAFE (OnConnectDone E r) (fun _ w' => idles w w') w.
Proof.
  intros Hc. unfold OnConnectDone. destruct (negb _); [by apply Fail_idles|].
  apply wp_bind, (wp_get _ _ _ _ _ eq_refl). rewrite (proj1 Hc). apply wp_ret, idles_refl.
Qed.

Lemma OnRecvDone_idles data w :
  closing w -> ssl_depth_ (ch w) = 0 -> SAFE (OnRecvDone E data) (fun _ w' => idles w w') w.
Proof.
  intros Hc Hd. unfold OnRecvDone. destruct (_ =? 0); [apply wp_ret, idles_refl|].
  apply wp_bind, (wp_get _ _ _ _ _ eq_refl). destruct (ssl_layer_ (ch w)) eqn:Hl.
  - by apply layer_idles.
  - by apply OnRecvDataFromSSL_idles.
Qed.

(** A completed operation leaves the channel closing with one operation fewer. *)
Lemma completion_spec i w :
  closing w -> ssl_depth_ (ch w) = 0 -> completion i = true -> enabled i w = true ->
  SAFE (step E i) (fun _ w' => closing w' /\ outstanding w' = outstanding w - 1) w.
Proof.
  intros Hc Hd Hi He.
  assert (K : forall (m : M unit) w1, closing w1 -> outstanding w1 = outstanding w - 1 ->
    SAFE m (fun _ w' => idles w1 w') w1 ->
    SAFE m (fun _ w' => closing w' /\ outstanding w' = outstanding w - 1) w1).
  { intros m w1 Hc1 Ho1 Hm. eapply wp_mono; [exact Hm|]. intros a w' G. split; [by apply G|].
    rewrite <- Ho1. apply G. }
  destruct i as [| | | | | |r|r data|r|]; try done; cbn [step enabled] in *; zbool.
  - apply wp_bind, (wp_gets _ _ _ _ _ eq_refl). destruct (queue w) as [|t q] eqn:Hq; [done|].
    apply wp_bind, (wp_puts _ _ _ _ _ eq_refl). apply K; [done| |by apply task_idles].
    unfold outstanding. cbn. rewrite Hq. cbn [length]. lia.
  - apply wp_bind, (wp_puts _ _ _ _ _ eq_refl). apply K; [done|unfold outstanding; cbn; lia|].
    set (w1 := w <| connect_ops ::= _ |>). assert (Hc1 : closing w1) by done. clearbody w1.
    eapply wp_call; [by apply decrement_idles|]. intros ? w2 G2. eapply safe_trans; [exact G2|].
    apply then_idle; [by apply G2|]. apply OnConnectDone_idles. by apply G2.
  - apply wp_bind, (wp_puts _ _ _ _ _ eq_refl). apply K; [done|unfold outstanding; cbn; lia|].
    set (w1 := w <| recv_ops ::= _ |>). assert (F1 : closing w1 /\ ssl_depth_ (ch w1) = 0) by done.
    clearbody w1. destruct F1 as [Hc1 Hd1].
    eapply wp_call; [by apply decrement_idles|]. intros ? w2 G2. eapply safe_trans; [exact G2|].
    pose proof (idles_closing _ _ G2 Hc1) as Hc2. pose proof (idles_depth _ _ G2) as Hd2. rewrite Hd1 in Hd2.
    apply then_idle; [done|]. destruct (_ =? _); [destruct (_ =? 0)|destruct (_ =? _); [|destruct (_ =? _)]].
    + by apply OnPeerClosed_idles.
    + eapply wp_call; [by apply OnRecvDone_idles|]. intros ? w3 G3. eapply safe_trans; [exact G3|].
      apply TcpRecv_idles. by apply G3.
    + by apply OnPeerClosed_idles.
    + apply wp_ret, idles_refl.
    + by apply Fail_idles.
  - apply wp_bind, (wp_puts _ _ _ _ _ eq_refl). apply K; [done|unfold outstanding; cbn; lia|].
    set (w1 := w <| send_ops ::= _ |>). assert (Hc1 : closing w1) by done. clearbody w1.
    eapply wp_call; [by apply decrement_idles|]. intros ? w2 G2. eapply safe_trans; [exact G2|].
    pose proof (idles_closing _ _ G2 Hc1) as Hc2. apply then_idle; [done|].
    destruct (_ =? _); [|destruct (negb _); [by apply Fail_idles|apply wp_ret, idles_refl]].
    unfold OnSendDone. apply wp_bind, (wp_get _ _ _ _ _ eq_refl). rewrite not_state by done.
    rewrite andb_false_r. apply wp_ret, idles_refl.
Qed.

(** A closing channel owes its end to something outstanding. *)
Lemma closing_outstanding w :
  stable E w -> state_ (ch w) = TCPCH_CLOSING -> closing w /\ 0 < outstanding w.
Proof.
  intros [H Hs Hd] Hc. destruct H as [_ _ _ _ _ Htk Hco Hre Hse Hop _ _ Hph].
  revert Hph. unfold phase_ok. rewrite Hc.
  intros (Hcl' & (Hcn & _) & _ & (_ & Hdns & _) & _).
  split; [split; [done|by left]|]. specialize (Hs Hcl' Hcn). unfold busy, io_pending in Hs.
  rewrite Hd, Hdns, Hco, Hre, Hse, Htk in Hs. unfold outstanding. 
  destruct (Z.eqb_spec (connect_ops w) 0), (Z.eqb_spec (recv_ops w) 0), (Z.eqb_spec (send_ops w) 0),
    (Z.ltb_spec 0 (Z.of_nat (length (queue w)))); cbn in Hs; try done; lia.
Qed.

Lemma outstanding_enabled w :
  stable E w -> 0 < outstanding w -> exists i, completion i = true /\ enabled i w = true.
Proof.
  intros [H _ _] Ho. pose proof (core_ops _ _ H). unfold outstanding in Ho.
  destruct (queue w) as [|t q] eqn:Hq; [|exists InTask; cbn; by rewrite Hq]. cbn [length] in Ho.
  destruct (Z.ltb_spec 0 (connect_ops w)) as [Hn|]; [exists (InConnectDone 0); cbn; by apply Z.ltb_lt in Hn|].
  destruct (Z.ltb_spec 0 (recv_ops w)) as [Hn|]; [exists (InRecvDone 0 []); cbn; by apply Z.ltb_lt in Hn|].
  exists (InSendDone 0). cbn. split; [done|]. apply Z.ltb_lt. lia.
Qed.

Lemma stable_closes n w :
  stable E w -> closing w -> outstanding w = Z.of_nat n -> closes E w.
Proof.
  revert w. induction n as [|n IH]; intros w S Hc Ho.
  - destruct Hc as [Hc [Hs|Hs]]; [|by constructor].
    destruct (closing_outstanding w S Hs). lia.
  - destruct (proj2 Hc) as [Hs|Hs]; [|by constructor].
    assert (K : forall i, completion i = true -> enabled i w = true -> exists w', step E i w = inl (tt, w') /\
      closing w' /\ outstanding w' = outstanding w - 1 /\ stable E w').
    { intros i Hi He. pose proof (completion_spec i w Hc (stable_depth _ _ S) Hi He) as K1.
      pose proof (step_spec E i w S He) as K2. unfold wp in K1, K2.
      destruct (step E i w) as [[[] w']|c]; [|done]. exists w'. by destruct K1. }
    apply closes_next; [done|apply outstanding_enabled; [done|lia]| |].
    + intros i Hi He. destruct (K i Hi He) as (w' & Hw & _). by exists w'.
    + intros i w' Hi He Hw. destruct (K i Hi He) as (w1 & Hw1 & Hc1 & Ho1 & S1).
      rewrite Hw in Hw1. injection Hw1 as ->. apply IH; [done|done|lia].
Qed.
End Quiet.

(** ** A channel to run *)

Definition demo_env (callbacks : nat -> list ssl_callback) (calls : nat -> list api_call)
    (recv : nat -> BCRESULT) : env :=
  {| platform_is := OS_LINUX; ios_target := false; path_monitor := None;
     inet_pton4 := fun s => if bytes_eqb s (str "10.0.0.1") then Some [10; 0; 0; 1] else None;
     inet_pton6 := fun _ => None; if_indextoname := fun _ => Some (str "eth0"); api_level := 0;
     have_setsocknetwork := false; queue_create := fun _ => 0; schedule_task := fun _ => true;
     dns_executor := fun _ => true; socket_create := fun _ => 0; socket_fd := fun _ => 7;
     setsockopt := fun _ _ => 0; route_lookup := fun _ _ i => i; socket_connect := fun _ => 0;
     socket_recv := recv; socket_send := fun _ => 0; tls_context := fun _ _ => true;
     ssl_new := fun _ => true; prepare_ssl := fun _ _ _ => 0; peer_certificate := fun _ => true;
     verify_chain := fun _ _ _ => 0; verify_result_ok := fun _ => true; ssl_callbacks := callbacks;
     user_calls := calls; uninit := 0 |}.

Definition demo_config : TcpChannelConfig :=
  new_config <| tc_host := str "example.org" |> <| tc_port := 443 |> <| tc_tls := true |>
    <| tc_resolvedIp := str "10.0.0.1" |> <| tc_policy := TT_VPN_POLICY_FORCE_PHYSICAL |> <| tc_ifIndex := 3 |>
    <| tc_tls_cfg := {| caCertsPem := []; spkiPin := str "AAAA"; clientCertFile := []; clientKeyFile := [];
                        clientKeyPassword := []; insecureSkipVerify := false |} |>.

(** The handshake completes at once and two bytes come with every record. *)
Definition demo : env :=
  demo_env (fun _ => [OnSSLReady_cb; OnRecvDataFromSSL_cb [104; 105]]) (fun _ => []) (fun _ => 0).

Definition demo_open : list input := [InOpen demo_config (Some 1%nat); InTask; InConnectDone 0].

Definition demo_close : list input := demo_open ++ [InCall CallClose; InTask].

Definition demo_ready : world := default new_world (run demo demo_open new_world).

Definition demo_closing : world :=
  default new_world (run demo demo_close new_world).

Definition demo_closed : world :=
  default new_world (run demo (demo_close ++ [InRecvDone BC_R_CANCELED []; InShutdown]) new_world).

Lemma reachable_run E ins :
  is_Some (run E ins new_world) -> reachable E (default new_world (run E ins new_world)).
Proof. intros [w Hw]. rewrite Hw. eapply run_reachable, Hw. apply reachable_new. Qed.

Lemma demo_runs :
  reachable demo demo_ready /\ reachable demo demo_closing /\ reachable demo demo_closed.
Proof. split_and!; apply reachable_run; vm_compute; eexists; reflexivity. Qed.

(** ** The properties *)

(** C1: the events of a channel follow the table of [IsLegalTransition] and the contract of its
    interface, whatever the kernel, OpenSSL, the resolver and the user do and in whatever order:
    states change along the table and from the state before; a connection starts in CONNECTING, bytes
    leave during the handshake and in READY; a channel is parked in READY, adopted only while parked
    and never once poisoned; the handler of the moment is told READY, gets data only in READY and not
    while parked, and is told CLOSED in CLOSED; nothing follows [OnChannelClosed], so it comes once. *)
Theorem channel_lifecycle E w pre e post :
  reachable E w -> trace w = pre ++ e :: post ->
  let h := hist pre in
  h_closed h = false /\
  match e with
  | EvState from to => from = h_state h /\ IsLegalTransition from to = true
  | EvConnect _ => h_state h = TCPCH_CONNECTING
  | EvSend _ => h_state h = TCPCH_TLS_HANDSHAKE \/ h_state h = TCPCH_READY
  | EvPark _ => h_state h = TCPCH_READY
  | EvAdopt _ => h_state h = TCPCH_READY /\ h_parked h = true /\ h_poisoned h = false
  | OnChannelReady u => h_handler h = Some u /\ h_state h = TCPCH_READY
  | OnChannelData u data =>
      h_handler h = Some u /\ h_state h = TCPCH_READY /\ h_parked h = false /\ data <> []
  | OnChannelClosed u _ _ => h_handler h = Some u /\ h_state h = TCPCH_CLOSED
  | _ => True
  end.
Proof.
  intros Hw Ht. destruct (core_trace _ _ (stable_core _ _ (reachable_stable E w Hw)) pre e post Ht) as [Ho He].
  split; [done|]. destruct e; tauto.
Qed.

Lemma channel_lifecycle_witness :
  reachable demo demo_closed /\ h_state (hist (take 11 (trace demo_closed))) = TCPCH_READY.
Proof.
  pose proof (proj2 (proj2 demo_runs)) as Hr.
  split; [exact Hr|].
  destruct (channel_lifecycle demo demo_closed (take 11 (trace demo_closed)) (OnChannelData 1 [104; 105])
    (drop 12 (trace demo_closed)) Hr) as (_ & _ & H & _); [vm_compute; reflexivity|exact H].
Defined.

(** C2: with TLS, the handler is told that the channel is ready, and gets data, only after the
    handshake completed and, where the configuration pins a key, after the peer's key was accepted; and
    it is told of a clean close by the peer only after the peer's close_notify. *)
Theorem tls_peer_authenticated E w pre e post :
  reachable E w -> trace w = pre ++ e :: post -> tc_tls (h_cfg (hist pre)) = true ->
  match e with
  | OnChannelReady _ | OnChannelData _ _ =>
      EvHandshake ∈ pre /\ (spkiPin (tc_tls_cfg (h_cfg (hist pre))) <> [] -> EvSpki BC_R_SUCCESS ∈ pre)
  | OnChannelClosed _ _ PeerClosed => EvCloseNotify ∈ pre
  | _ => True
  end.
Proof.
  intros Hw Ht Htls. destruct (core_trace _ _ (stable_core _ _ (reachable_stable E w Hw)) pre e post Ht) as [Ho He].
  assert (Hv : verified (hist pre) -> EvHandshake ∈ pre /\
    (spkiPin (tc_tls_cfg (h_cfg (hist pre))) <> [] -> EvSpki BC_R_SUCCESS ∈ pre)).
  { intros Hv. destruct (Hv Htls) as [H1 H2]. split; [by apply handshake_seen|]. intros. by apply spki_seen, H2. }
  destruct e as [| | | | | | | | | | | |u| | |u data|u r why]; try done; [tauto|tauto|].
  destruct why; try done. apply clean_seen. by apply He.
Qed.

Lemma tls_peer_authenticated_witness :
  reachable demo demo_ready /\ EvSpki BC_R_SUCCESS ∈ take 10 (trace demo_ready).
Proof.
  pose proof (proj1 demo_runs) as Hr.
  split; [exact Hr|].
  destruct (tls_peer_authenticated demo demo_ready (take 10 (trace demo_ready)) (OnChannelReady 1)
    (drop 11 (trace demo_ready)) Hr) as [_ H]; [vm_compute; reflexivity..|]. apply H. vm_compute. discriminate.
Defined.

(** C5: under the policy that forces a physical interface, the socket connects only on the interface
    it was last bound to, and only when binding it worked. *)
Theorem forced_connect_is_pinned E w pre i post :
  reachable E w -> trace w = pre ++ EvConnect i :: post ->
  tc_policy (h_cfg (hist pre)) = TT_VPN_POLICY_FORCE_PHYSICAL ->
  h_pin (hist pre) = Some (i, TT_PIN_OK) /\ EvPin i TT_PIN_OK ∈ pre.
Proof.
  intros Hw Ht Hf. destruct (core_trace _ _ (stable_core _ _ (reachable_stable E w Hw)) pre _ post Ht) as (_ & _ & Hp).
  specialize (Hp Hf). split; [done|]. by apply pin_seen.
Qed.

Lemma forced_connect_is_pinned_witness :
  reachable demo demo_ready /\ h_pin (hist (take 5 (trace demo_ready))) = Some (3, TT_PIN_OK).
Proof.
  pose proof (proj1 demo_runs) as Hr.
  split; [exact Hr|].
  apply (forced_connect_is_pinned demo demo_ready (take 5 (trace demo_ready)) 3
    (drop 6 (trace demo_ready)) Hr); vm_compute; reflexivity.
Defined.

Lemma closed_seen tr : h_closed (hist tr) = true -> exists u r why, OnChannelClosed u r why ∈ tr.
Proof.
  induction tr as [|e tr IH] using rev_ind; [done|]. rewrite hist_snoc. intros H.
  assert (K : h_closed (hist tr) = true \/ exists u r why, e = OnChannelClosed u r why).
  { destruct e; cbn in H; eauto. }
  destruct K as [K|(u & r & why & ->)].
  - destruct (IH K) as (u & r & why & Hin). exists u, r, why. apply elem_of_app. by left.
  - exists u, r, why. apply elem_of_app. right. by apply list_elem_of_singleton.
Qed.

(** C7: a closed channel is quiet: no task is queued, the kernel holds no operation, no timer is
    armed, the socket and the SSL layer are gone, a resolver thread that still works has been told not to
    come back; and the shutdown of the queue that tells the handler is still to come, or has told it, or
    there is no handler left to tell. *)
Theorem closed_channel_is_quiet E w :
  reachable E w -> state_ (ch w) = TCPCH_CLOSED ->
  queue w = [] /\ connect_ops w = 0 /\ recv_ops w = 0 /\ send_ops w = 0 /\ timer w = false /\
  socket_ (ch w) = false /\ ssl_layer_ (ch w) = false /\
  (worker w = Posted \/ worker w = Resolving -> request_gone w = true) /\
  (shutting_down w = true \/ (exists u r why, OnChannelClosed u r why ∈ trace w) \/
   h_handler (hist (trace w)) = None).
Proof.
  intros Hw Hs. pose proof (core_phase _ _ (stable_core _ _ (reachable_stable E w Hw))) as Hph.
  unfold phase_ok in Hph. rewrite Hs in Hph.
  destruct Hph as (_ & _ & _ & (_ & _ & Hdns) & Ht & _ & (Hn1 & Hn2 & Hn3) & Hq & Hso & Hl & _ & Htold & _).
  split_and!; try done. destruct Htold as [?|[?|?]]; [by left|right; left; by apply closed_seen|by right; right].
Qed.

Lemma closed_channel_is_quiet_witness :
  reachable demo demo_closed /\ state_ (ch demo_closed) = TCPCH_CLOSED /\ timer demo_closed = false.
Proof.
  pose proof (proj2 (proj2 demo_runs)) as Hr.
  assert (Hs : state_ (ch demo_closed) = TCPCH_CLOSED) by (vm_compute; reflexivity).
  split; [exact Hr|]. split; [exact Hs|]. by apply (closed_channel_is_quiet demo demo_closed Hr Hs).
Defined.

(** C6: closing ends: when the user makes no further call, a channel that is closing always has a
    task or an operation to complete, and completing them, with any results and in any order, closes the
    channel after finitely many steps, without a crash. *)
Theorem closing_completes E w :
  (forall n, user_calls E n = []) -> reachable E w -> state_ (ch w) = TCPCH_CLOSING -> closes E w.
Proof.
  intros Hq Hw Hs. pose proof (reachable_stable E w Hw) as S.
  destruct (closing_outstanding E w S Hs) as [Hc Ho].
  apply (stable_closes E Hq (Z.to_nat (outstanding w))); [done|done|lia].
Qed.

Lemma closing_completes_witness : state_ (ch demo_closing) = TCPCH_CLOSING /\ closes demo demo_closing.
Proof.
  assert (Hs : state_ (ch demo_closing) = TCPCH_CLOSING) by (vm_compute; reflexivity).
  split; [exact Hs|]. apply closing_completes; [reflexivity|apply demo_runs|exact Hs].
Defined.

(** The kernel refuses every receive. *)
Definition demo_refused : env := demo_env (fun _ => []) (fun _ => []) (fun _ => 1).

(** C8: the null pointers of the channel: the socket is never used after it is gone; the SSL layer is
    used after it is gone only where the kernel refuses a receive at once (then it is: the witness), and
    the handler is called when there is none only where a user parks the channel without a watcher. *)
Theorem channel_null_uses E w i c :
  reachable E w -> enabled i w = true -> step E i w = inr c ->
  c <> NullSocket /\
  (c = NullSslLayer -> exists n, accepted (socket_recv E n) = false) /\
  (c = NullHandler -> exists n, CallPark None ∈ user_calls E n).
Proof.
  intros Hw Hi Hc. pose proof (step_spec E i w (reachable_stable E w Hw) Hi) as K.
  unfold wp in K. rewrite Hc in K. by destruct c.
Qed.

Lemma channel_null_uses_witness :
  exists w, reachable demo_refused w /\ step demo_refused (InConnectDone 0) w = inr NullSslLayer /\
    exists n, accepted (socket_recv demo_refused n) = false.
Proof.
  set (w := default new_world (run demo_refused [InOpen demo_config (Some 1%nat); InTask] new_world)).
  assert (Hr : reachable demo_refused w) by (apply reachable_run; vm_compute; eexists; reflexivity).
  assert (Hc : step demo_refused (InConnectDone 0) w = inr NullSslLayer) by (vm_compute; reflexivity).
  exists w. split; [exact Hr|]. split; [exact Hc|].
  apply (channel_null_uses demo_refused w (InConnectDone 0) NullSslLayer Hr); [vm_compute; reflexivity|exact Hc|reflexivity].
Defined.
