(* ===== verification/WSConnector.v ===== *)
(** * WSConnector: WebSocket connections and their connector
      ([src/cpp/WSConnector.cpp], [WSConnector.h])

    A connector makes connections; a connection opens a [TcpChannel], sends the handshake's
    request, checks the answer and carries frames. The model is one connector with all the
    connections it ever made, run one event at a time: a call of the user, a callback of a
    channel, a timer of a channel, a task of the runtime, or the destructor. The channel and
    the HTTP parser are the environment, constrained as [enabled] says: a channel calls back
    only between a successful [Open] and [OnChannelClosed], which [channel_lifecycle] of the
    file ChannelProperties shows of [TcpChannel]; data may still come after [Close], which is
    only posted there. Each connection keeps the log of what it does outwards.
    An operation may end in a [crash]: where the code would abort, use a null pointer, or
    reuse the number of a connection because the 64-bit count of them wrapped. *)

From Stdlib Require Import ZArith Lia.
From stdpp Require Import base numbers option gmap list.
From S2P Require Import Prelude Results Utils VpnPolicy DnsMessage DnsResolver Buffer BCFObject WSParser HttpText TlsContext TcpChannel.

(** ** Configuration *)

Record conn_config := {
  maxFrameBytes : Z;
  bad_max_frame_bytes : Z;
  connectTimeoutMs : Z;
  pingIntervalMs : Z;
  idleTimeoutMs : Z;
  c_ifIndex : Z;
  c_androidNetHandle : Z;
  c_policy : TTVpnPolicy;
  c_dns : DnsConfig;
  c_tls_cfg : TlsConfig
}.

#[global] Instance eta_conn_config : Eta conn_config := fun c =>
  {| maxFrameBytes := maxFrameBytes c; bad_max_frame_bytes := bad_max_frame_bytes c;
     connectTimeoutMs := connectTimeoutMs c; pingIntervalMs := pingIntervalMs c;
     idleTimeoutMs := idleTimeoutMs c; c_ifIndex := c_ifIndex c;
     c_androidNetHandle := c_androidNetHandle c; c_policy := c_policy c; c_dns := c_dns c;
     c_tls_cfg := c_tls_cfg c |}.

Definition new_conn_config : conn_config :=
  {| maxFrameBytes := WS_DEFAULT_MAX_FRAME_BYTES; bad_max_frame_bytes := 0; connectTimeoutMs := 10000;
     pingIntervalMs := 0; idleTimeoutMs := 0; c_ifIndex := 0; c_androidNetHandle := 0;
     c_policy := TT_VPN_POLICY_UNSET; c_dns := tc_dns new_config; c_tls_cfg := tc_tls_cfg new_config |}.

(** The texts of an array that are not empty. *)
Definition array_texts (l : list (option bytes)) : list bytes :=
  omap (fun s => if bytes_eqb (bcf_text s) [] then None else Some (bcf_text s)) l.

(** The pieces between commas that are not empty. *)
Definition comma_texts (s : bytes) : list bytes :=
  List.filter (fun p => negb (bytes_eqb p [])) (SplitString s 44).

(** [WSConnection::Config::Init]. *)
Definition ConnConfig_Init (cfg : option BCFObject) (c : conn_config) : conn_config :=
  match cfg with
  | None => c
  | Some get =>
      let c := on_number (get (str "maxFrameBytes")) (fun v c =>
        let c := if UINT32_MAX <? v then c <| bad_max_frame_bytes := v |> else c in
        let v := if UINT32_MAX <? v then UINT32_MAX else v in
        if 0 <? v then c <| maxFrameBytes := v |> else c) c in
      let c := on_number (get (str "connectTimeoutMs")) (fun v c =>
        if 0 <? v then c <| connectTimeoutMs := u32 v |> else c) c in
      let c := on_number (get (str "pingIntervalMs")) (fun v c => c <| pingIntervalMs := u32 v |>) c in
      let c := on_number (get (str "idleTimeoutMs")) (fun v c => c <| idleTimeoutMs := u32 v |>) c in
      let c := on_number (get (str "ifIndex")) (fun v c => c <| c_ifIndex := u32 v |>) c in
      let c := on_number (get (str "androidNetHandle")) (fun v c => c <| c_androidNetHandle := v |>) c in
      let c := on_string (get (str "caCerts")) (fun s c => c <| c_tls_cfg ::= fun t => t <| caCertsPem := s |> |>) c in
      let c := on_string (get (str "spkiPin")) (fun s c => c <| c_tls_cfg ::= fun t => t <| spkiPin := s |> |>) c in
      let c := on_bool (get (str "insecureSkipVerify"))
                 (fun b c => c <| c_tls_cfg ::= fun t => t <| insecureSkipVerify := b |> |>) c in
      let c := on_string (get (str "clientCertFile"))
                 (fun s c => c <| c_tls_cfg ::= fun t => t <| clientCertFile := s |> |>) c in
      let c := on_string (get (str "clientKeyFile"))
                 (fun s c => c <| c_tls_cfg ::= fun t => t <| clientKeyFile := s |> |>) c in
      let c := on_string (get (str "clientKeyPassword"))
                 (fun s c => c <| c_tls_cfg ::= fun t => t <| clientKeyPassword := s |> |>) c in
      let c := on_number (get (str "dnsTimeoutMs"))
                 (fun v c => c <| c_dns ::= fun d => d <| cfg_timeoutMs := u32 v |> |>) c in
      match get (str "dnsServers") with
      | Some (BCFArray l) => c <| c_dns ::= fun d => d <| cfg_servers := array_texts l |> |>
      | Some (BCFString s) => c <| c_dns ::= fun d => d <| cfg_servers := comma_texts (bcf_text s) |> |>
      | _ => c
      end
  end.

Record ws_config := {
  drain_timeout_ms : Z;
  bad_drain_timeout : Z;
  log_file : bytes;
  log_level : Z;
  conn_cfg : conn_config;
  bad_policy_text : bytes;
  both_policy_given : bool
}.

#[global] Instance eta_ws_config : Eta ws_config := fun c =>
  {| drain_timeout_ms := drain_timeout_ms c; bad_drain_timeout := bad_drain_timeout c;
     log_file := log_file c; log_level := log_level c; conn_cfg := conn_cfg c;
     bad_policy_text := bad_policy_text c; both_policy_given := both_policy_given c |}.

Definition new_ws_config : ws_config :=
  {| drain_timeout_ms := 30000; bad_drain_timeout := 0; log_file := []; log_level := INFO_;
     conn_cfg := new_conn_config; bad_policy_text := []; both_policy_given := false |}.

Definition kMaxDrainMs : Z := 5 * 60 * 1000.

(** [WSConnector::Config::Init]. *)
Definition ConnectorConfig_Init (ios_target : bool) (cfg : option BCFObject) (c : ws_config) : ws_config :=
  let default_policy := tt_vpn_policy_platform_default ios_target in
  let policy_of r := match r with Some p => p | None => TT_VPN_POLICY_UNSET end in
  match cfg with
  | None =>
      c <| conn_cfg ::= fun n => n <| c_policy := policy_of
             (tt_vpn_policy_resolve (Some TT_VPN_POLICY_UNSET) false false default_policy).1 |> |>
  | Some get =>
      let '(hasBypassVpn, bypassVpn) :=
        match get (str "bypassVpn") with Some (BCFBool b) => (true, b) | _ => (false, false) end in
      let '(explicitPolicy, bad) :=
        match get (str "vpnPolicy") with
        | Some (BCFString raw) =>
            let p := tt_vpn_policy_from_string raw in
            (p, if bool_decide (p = TT_VPN_POLICY_UNSET) then bcf_text raw else [])
        | _ => (TT_VPN_POLICY_UNSET, [])
        end in
      let c := if bytes_eqb bad [] then c else c <| bad_policy_text := bad |> in
      let '(policy, both) := tt_vpn_policy_resolve (Some explicitPolicy) hasBypassVpn bypassVpn default_policy in
      let c := c <| conn_cfg ::= fun n => n <| c_policy := policy_of policy |> |> in
      let c := c <| both_policy_given := both |> in
      let c := on_number (get (str "logLevel")) (fun v c => c <| log_level := i32 v |>) c in
      let c := on_string (get (str "logFile")) (fun s c => c <| log_file := s |>) c in
      let c := on_number (get (str "drainTimeoutMs")) (fun v c =>
        let c := if kMaxDrainMs <? v then c <| bad_drain_timeout := v |> else c in
        c <| drain_timeout_ms := u32 (if kMaxDrainMs <? v then kMaxDrainMs else v) |>) c in
      c <| conn_cfg ::= ConnConfig_Init (Some get) |>
  end.

(** ** Connections *)

Inductive ws_text :=
| NoText | SendRequestFailed | HandshakeTimeout | TimerFailed | UpgradeUnverified | HttpParseFailed
| BadAnswer (e : handshake_error) | TooManyHeaders | HeadersTooLarge | HeaderTooLarge
| BadFrame (e : ws_error) | EndedEarly | ChannelText (why : reason) | ResultText (r : BCRESULT).

(** [std::string::empty] of the text. *)
Definition text_empty (t : ws_text) : bool :=
  match t with NoText | ChannelText NoReason => true | _ => false end.

(** What [_CloseReasonText] says. *)
Inductive close_text :=
| PeerCloseText (code : Z) | IdleText | TimeoutText (raw : ws_text) | ClosedByUserText | ClosedByPeerText
| FailedText (raw : ws_text) (r : BCRESULT).

Definition kMaxHeaderTotalBytes : Z := 64 * 1024.
Definition kMaxSingleHeaderBytes : Z := 16 * 1024.
Definition kMaxHeaderCount : Z := 200.
Definition kMinCheckIntervalMs : Z := 500.
Definition kWSCloseNormal : Z := 1000.
Definition kWSCloseProtocol : Z := 1002.

(** What a connection does outwards: to its channel and to its handler. *)
Inductive event :=
| EvOpen (cfg : TcpChannelConfig)
| EvRequest (text : bytes)
| EvUpgraded (status : Z) (headers : HttpHeaderMap) (key : bytes)
| EvFrame (op : Z) (payload frame : bytes)
| EvChannelClose
| OnConnectResult (h : nat) (r : BCRESULT) (headers : HttpHeaderMap)
| OnRecvText (h : nat) (text : bytes)
| OnRecvData (h : nat) (payload : option bytes) (size : Z)
| OnException (h : nat) (e : ws_error)
| OnClosed (h : nat) (text : close_text).

(** What has been read of the answer to the handshake. *)
Record answer := {
  hs_status_ : Z;
  hs_headers_ : HttpHeaderMap;
  hs_header_bytes_ : Z;
  cur_field_ : bytes;
  cur_value_ : bytes;
  last_was_value_ : bool
}.

#[global] Instance eta_answer : Eta answer := fun a =>
  {| hs_status_ := hs_status_ a; hs_headers_ := hs_headers_ a; hs_header_bytes_ := hs_header_bytes_ a;
     cur_field_ := cur_field_ a; cur_value_ := cur_value_ a; last_was_value_ := last_was_value_ a |}.

Definition new_answer : answer :=
  {| hs_status_ := 0; hs_headers_ := []; hs_header_bytes_ := 0; cur_field_ := []; cur_value_ := [];
     last_was_value_ := false |}.

(** The members that the user's calls change. *)
Record requested := {
  connect_called_ : bool;
  channel_opened_ : bool;
  timeout_ms_ : Z;
  start_ms_ : Z;
  url_ : bytes;
  parts_ : HttpUrlParts;
  sec_key_ : bytes;
  extra_headers_ : HttpHeaderMap;
  req_text_ : bytes;
  user_closed_ : bool;
  user_close_result_ : BCRESULT;
  close_frame_sent_ : bool;
  last_ping_ms_ : Z;
  total_send_bytes_ : Z;
  total_send_frames_ : Z
}.

#[global] Instance eta_requested : Eta requested := fun q =>
  {| connect_called_ := connect_called_ q; channel_opened_ := channel_opened_ q; timeout_ms_ := timeout_ms_ q;
     start_ms_ := start_ms_ q; url_ := url_ q; parts_ := parts_ q; sec_key_ := sec_key_ q;
     extra_headers_ := extra_headers_ q; req_text_ := req_text_ q; user_closed_ := user_closed_ q;
     user_close_result_ := user_close_result_ q; close_frame_sent_ := close_frame_sent_ q;
     last_ping_ms_ := last_ping_ms_ q; total_send_bytes_ := total_send_bytes_ q;
     total_send_frames_ := total_send_frames_ q |}.

Definition no_parts : HttpUrlParts :=
  {| u_scheme := []; u_host := []; u_hostHeader := []; u_port := 0; u_target := []; u_tls := false |}.

Definition new_requested : requested :=
  {| connect_called_ := false; channel_opened_ := false; timeout_ms_ := 10000; start_ms_ := 0; url_ := [];
     parts_ := no_parts; sec_key_ := []; extra_headers_ := []; req_text_ := []; user_closed_ := false;
     user_close_result_ := BC_R_SUCCESS; close_frame_sent_ := false; last_ping_ms_ := 0;
     total_send_bytes_ := 0; total_send_frames_ := 0 |}.

Record conn := {
  c_config : conn_config;
  handler_ : option nat;
  channel_ : bool;                    (* the pointer is not null *)
  rq : requested;
  hs : answer;
  upgraded_ : bool;
  fail_result_ : BCRESULT;
  fail_message_ : ws_text;
  delivered_ : bool;
  connect_notified_ : bool;
  connected_ok_ : bool;
  peer_closed_frame_ : bool;
  close_code_ : Z;
  peer_info_ : bytes * Z * bytes;     (* [peer_ip_], [bound_ifindex_], [pin_method_] *)
  last_error_message_ : ws_text;
  hs_timer_ : Z;
  check_timer_ : Z;
  latest_net_action_ms_ : Z;
  last_ping_sent_ms_ : Z;
  total_recv_bytes_ : Z;
  total_recv_frames_ : Z;
  parser_ : WSParser;
  (* the channel, as its user sees it *)
  opened : bool;                      (* [Open] succeeded *)
  hs_armed : bool;                    (* the timers of its queue *)
  check_armed : bool;
  told_closed : bool;                 (* [OnChannelClosed] came *)
  log_ : list event
}.

#[global] Instance eta_conn : Eta conn := fun c =>
  {| c_config := c_config c; handler_ := handler_ c; channel_ := channel_ c; rq := rq c; hs := hs c;
     upgraded_ := upgraded_ c; fail_result_ := fail_result_ c; fail_message_ := fail_message_ c;
     delivered_ := delivered_ c; connect_notified_ := connect_notified_ c; connected_ok_ := connected_ok_ c;
     peer_closed_frame_ := peer_closed_frame_ c; close_code_ := close_code_ c; peer_info_ := peer_info_ c;
     last_error_message_ := last_error_message_ c; hs_timer_ := hs_timer_ c; check_timer_ := check_timer_ c;
     latest_net_action_ms_ := latest_net_action_ms_ c; last_ping_sent_ms_ := last_ping_sent_ms_ c;
     total_recv_bytes_ := total_recv_bytes_ c; total_recv_frames_ := total_recv_frames_ c;
     parser_ := parser_ c; opened := opened c; hs_armed := hs_armed c; check_armed := check_armed c;
     told_closed := told_closed c; log_ := log_ c |}.

(** The constructor and [Create]. *)
Definition new_conn (cfg : conn_config) (handler : option nat) : conn :=
  {| c_config := cfg; handler_ := handler; channel_ := true; rq := new_requested; hs := new_answer;
     upgraded_ := false; fail_result_ := BC_R_SUCCESS; fail_message_ := NoText; delivered_ := false;
     connect_notified_ := false; connected_ok_ := false; peer_closed_frame_ := false; close_code_ := 0;
     peer_info_ := ([], 0, []); last_error_message_ := NoText; hs_timer_ := 0; check_timer_ := 0;
     latest_net_action_ms_ := 0; last_ping_sent_ms_ := 0; total_recv_bytes_ := 0; total_recv_frames_ := 0;
     parser_ := SetMaxFrameBytes new_WSParser (maxFrameBytes cfg); opened := false; hs_armed := false;
     check_armed := false; told_closed := false; log_ := [] |}.

(** ** The connector *)

(** The counters of [WSConnectorState]. *)
Inductive counter :=
| total_allocated | total_freed | handshake_failed | connect_timeout | connect_refused | connect_unreach
| connect_reset | connect_canceled | address_not_avail | network_down | idle_timeout | user_closed
| dns_failed | tls_verify_failed | no_physical_iface | pin_failed | route_mismatch | protocol_error
| unknown_closed.

#[global] Instance counter_eq_dec : EqDecision counter.
Proof. solve_decision. Defined.

Inductive destroy_state := Alive | Draining | Destroyed.

Record world := {
  objs : gmap Z conn;                 (* every connection made, by its [id_] *)
  conns : list Z;                     (* the keys of [state_->conns], in order *)
  w_handler : option nat;
  w_closing : bool;
  w_closed_notified : bool;
  abandoned : bool;
  callbacks_in_flight : Z;
  counters : counter -> Z;
  next_conn_id_ : Z;
  created_ : bool;
  w_config : ws_config;
  removals : list Z;                  (* posted to the runtime by [OnChannelClosed] *)
  connector_closed : list nat;        (* the handlers told [OnClosed] *)
  lifetime : destroy_state;
  tick : nat
}.

#[global] Instance eta_world : Eta world := fun w =>
  {| objs := objs w; conns := conns w; w_handler := w_handler w; w_closing := w_closing w;
     w_closed_notified := w_closed_notified w; abandoned := abandoned w;
     callbacks_in_flight := callbacks_in_flight w; counters := counters w;
     next_conn_id_ := next_conn_id_ w; created_ := created_ w; w_config := w_config w;
     removals := removals w; connector_closed := connector_closed w; lifetime := lifetime w; tick := tick w |}.

Definition new_world : world :=
  {| objs := ∅; conns := []; w_handler := None; w_closing := false; w_closed_notified := false;
     abandoned := false; callbacks_in_flight := 0; counters := fun _ => 0; next_conn_id_ := 0;
     created_ := false; w_config := new_ws_config; removals := []; connector_closed := [];
     lifetime := Alive; tick := 0 |}.

(** ** The user and the environment *)

(** The user's calls; [in_log] is a call from inside the log callback. *)
Inductive api_call :=
| CallConnect (in_log : bool) (id : Z) (url : bytes) (time_out : Z)
| CallSetRequestHeader (id : Z) (name value : bytes)
| CallSendText (id : Z) (text : bytes)
| CallSendData (id : Z) (data : option bytes) (size : Z)
| CallSendPacket (id : Z) (pkt : option buffer)
| CallSendPing (id : Z)
| CallClose (id : Z) (result : BCRESULT)
| CallCreateConnection (in_log : bool) (cfg : option BCFObject) (handler : option nat)
| CallConnectorClose.

Definition buffer_fit (b : buffer) : Prop :=
  buf_ok b /\ bytes_ok (b_data b) /\ RemainingLength b < 2 ^ 32.

(** The arguments are bytes, and a buffer is one. *)
Definition call_ok (a : api_call) : Prop :=
  match a with
  | CallSendText _ text => bytes_ok text
  | CallSendData _ (Some data) _ => bytes_ok data
  | CallSendPacket _ (Some b) => buffer_fit b
  | _ => True
  end.

#[global] Instance call_ok_dec a : Decision (call_ok a).
Proof. unfold call_ok, buffer_fit. destruct a as [| | |? []|? []| | | |]; apply _. Defined.

(** The callbacks of the HTTP parser. *)
Inductive http_callback :=
| http_on_url | http_on_status (at_ : bytes) | http_on_header_field (at_ : bytes)
| http_on_header_value (at_ : bytes) | http_on_headers_complete (status_code : Z) | http_on_message_complete.

(** How [llhttp_execute] ends when no callback refuses, with the position of the error. *)
Inductive llhttp_end := HPE_OK | HPE_PAUSED_UPGRADE (pos : Z) | HPE_ERROR (pos : Z).

Record env := {
  ios_target : bool;
  base64_encode : bytes -> option bytes;
  SHA1 : bytes -> bytes;
  rand_key : nat -> bytes;
  rand_mask : nat -> bytes;
  now_ms : nat -> Z;
  runtime_init : BCRESULT;
  chan_open : nat -> TcpChannelConfig -> BCRESULT;
  open_error : nat -> reason;
  chan_send : nat -> BCRESULT;
  chan_schedule : nat -> BCRESULT * Z;
  chan_info : nat -> bytes * Z * bytes;
  llhttp : nat -> bytes -> list http_callback * llhttp_end;
  user_calls : nat -> list api_call;
  closer_races : nat -> bool        (* another thread closes the connector inside [Connect] *)
}.

(** ** The monad *)

Inductive crash := AssertFailed | NullChannel | NoSuchConnection | ClosedTwice | CountWraps.

Definition M (A : Type) : Type := world -> (A * world) + crash.

Definition ret {A} (a : A) : M A := fun w => inl (a, w).
Definition bind {A B} (m : M A) (k : A -> M B) : M B := fun w =>
  match m w with inl (a, w') => k a w' | inr c => inr c end.
Definition fail {A} (c : crash) : M A := fun _ => inr c.
Definition gets {A} (f : world -> A) : M A := fun w => inl (f w, w).
Definition puts (f : world -> world) : M unit := fun w => inl (tt, f w).

Declare Scope ws_scope.
Notation "x <- m ;; k" := (bind m (fun x => k))
  (at level 100, m at next level, right associativity) : ws_scope.
Notation "m ;; k" := (bind m (fun _ => k)) (at level 100, right associativity) : ws_scope.
Open Scope ws_scope.

Definition ask {A} (f : nat -> A) : M A := fun w => inl (f (tick w), w <| tick ::= S |>).

(** A member of a connection, and a change of one. *)
Definition get {A} (id : Z) (f : conn -> A) : M A := fun w =>
  match objs w !! id with Some c => inl (f c, w) | None => inr NoSuchConnection end.
Definition put (id : Z) (f : conn -> conn) : M unit := puts (fun w => w <| objs ::= alter f id |>).
Definition put_rq (id : Z) (f : requested -> requested) : M unit := put id (fun c => c <| rq ::= f |>).
Definition put_hs (id : Z) (f : answer -> answer) : M unit := put id (fun c => c <| hs ::= f |>).

Definition log (id : Z) (e : event) : M unit := put id (fun c => c <| log_ ::= fun l => l ++ [e] |>).

Definition bump (k : counter) : M unit :=
  puts (fun w => w <| counters ::= fun f k' => if decide (k = k') then f k' + 1 else f k' |>).

Fixpoint each {A} (f : A -> M unit) (l : list A) : M unit :=
  match l with
  | [] => ret tt
  | x :: l => f x;; each f l
  end.

Section Connector.
Context (E : env).

(** ** Sending *)

Definition chan_Close (id : Z) : M unit := log id EvChannelClose.

(** [if (channel_) channel_->Close()]. *)
Definition CloseChannel (id : Z) : M unit :=
  ch <- get id channel_;;
  if ch : bool then chan_Close id else ret tt.

(** [channel_->Send]; the pointer is used as it is. *)
Definition chan_Send (id : Z) (e : event) : M BCRESULT :=
  ch <- get id channel_;;
  if negb ch then fail NullChannel
  else
    r <- ask (chan_send E);;
    (if r =? BC_R_SUCCESS then log id e else ret tt);;
    ret r.

Definition SendRawFrame (id op : Z) (payload : bytes) (frame : option buffer) : M BCRESULT :=
  match frame with
  | None => ret BC_R_INVALIDARG
  | Some frame =>
      let size := RemainingLength frame in
      ch <- get id channel_;;
      if negb ch then ret BC_R_NOTCONNECTED
      else
        r <- chan_Send id (EvFrame op payload (unread frame));;
        (if r =? BC_R_SUCCESS then
           put_rq id (fun q => q <| total_send_bytes_ ::= fun n => u64 (n + size) |>
                                 <| total_send_frames_ ::= fun n => u64 (n + 1) |>)
         else ret tt);;
        ret r
  end.

Definition SendFrame (id op : Z) (payload : option buffer) : M BCRESULT :=
  match payload with
  | None => ret BC_R_INVALIDARG
  | Some payload =>
      up <- get id upgraded_;;
      if negb up then ret BC_R_NOTCONNECTED
      else if control_opcode op && (WS_MAX_CONTROL_PAYLOAD <? RemainingLength payload) then ret BC_R_INVALIDARG
      else
        rand <- ask (rand_mask E);;
        rand2 <- ask (rand_mask E);;
        let header := {| is_final := true; opcode := op; has_mask := true; mask := rand;
                         payload_size := RemainingLength payload |} in
        match BuildFrame rand2 header payload with
        | None => fail AssertFailed
        | Some (None, _) => ret BC_R_FAILURE
        | Some (Some frame, _) => SendRawFrame id op (unread payload) (Some frame)
        end
  end.

(** [OnWSWrite]: the number of bytes taken, or zero. *)
Definition OnWSWrite (id op : Z) (data : option buffer) : M Z :=
  match data with
  | None => ret 0
  | Some d =>
      let size := RemainingLength d in
      r <- SendRawFrame id op (unread d) (Some d);;
      ret (if negb (r =? BC_R_SUCCESS) then 0 else i32 size)
  end.

Definition SendText (id : Z) (text : bytes) : M BCRESULT :=
  SendFrame id WS_OP_TEXT
    (Some (if negb (bytes_eqb text []) then Write empty_buffer (ztake (u32 (zlen text)) text) else empty_buffer)).

(** [size] is the size given; the bytes at [data] are as many. *)
Definition SendData (id : Z) (data : option bytes) (size : Z) : M BCRESULT :=
  match data with
  | None => if 0 <? size then ret BC_R_INVALIDARG else SendFrame id WS_OP_BINARY (Some empty_buffer)
  | Some bs =>
      SendFrame id WS_OP_BINARY (Some (if 0 <? zlen bs then Write empty_buffer (ztake (u32 (zlen bs)) bs)
                                       else empty_buffer))
  end.

(** The buffer of the packet; [None] for a null packet or one without a buffer. *)
Definition SendPacket (id : Z) (pkt : option buffer) : M BCRESULT :=
  match pkt with
  | None => ret BC_R_INVALIDARG
  | Some data => SendFrame id WS_OP_BINARY (Some data)
  end.

Definition SendPing (id : Z) : M BCRESULT :=
  now <- ask (now_ms E);;
  let payload := WriteUInt64BE empty_buffer (u64 now) in
  put_rq id (fun q => q <| last_ping_ms_ := u64 now |>);;
  SendFrame id WS_OP_PING (Some payload).

Definition SendPong (id : Z) (payload : option bytes) (payload_len : Z) : M unit :=
  let buf := match payload with
             | Some bs => if 0 <? payload_len then Write empty_buffer bs else empty_buffer
             | None => empty_buffer
             end in
  SendFrame id WS_OP_PONG (Some buf);; ret tt.

Definition SendCloseFrame (id code : Z) : M unit :=
  sent <- get id (fun c => close_frame_sent_ (rq c));;
  if sent : bool then ret tt
  else
    put_rq id (fun q => q <| close_frame_sent_ := true |>);;
    up <- get id upgraded_;;
    if negb up then ret tt
    else SendFrame id WS_OP_CLOSE (Some (WriteUInt16BE empty_buffer code));; ret tt.

(** [_Fail]: the first failure is kept. *)
Definition Fail (id : Z) (result : BCRESULT) (message : ws_text) : M unit :=
  r <- get id fail_result_;;
  (if r =? BC_R_SUCCESS then put id (fun c => c <| fail_result_ := result |> <| fail_message_ := message |>)
   else ret tt);;
  CloseChannel id.

(** ** The user's calls *)

(** [WSConnection::Close]. *)
Definition Close (id : Z) (result : BCRESULT) : M unit :=
  (if negb (result =? BC_R_SUCCESS) then
     put_rq id (fun q => if user_close_result_ q =? BC_R_SUCCESS then q <| user_close_result_ := result |> else q)
   else ret tt);;
  put_rq id (fun q => q <| user_closed_ := true |>);;
  up <- get id upgraded_;;
  (if up : bool then SendCloseFrame id kWSCloseNormal else ret tt);;
  CloseChannel id.

Definition SetRequestHeader (id : Z) (name value : bytes) : M BCRESULT :=
  called <- get id (fun c => connect_called_ (rq c));;
  if called : bool then ret BC_R_ALREADYRUNNING
  else if negb (IsToken name) || negb (IsSafeHeaderValue value) then ret BC_R_INVALIDARG
  else put_rq id (fun q => q <| extra_headers_ ::= fun h => map_set h name value |>);; ret BC_R_SUCCESS.

(** [_NotifyClosedIfDrained]; [on_closed] is what the user does when told. *)
Definition NotifyClosedIfDrained (on_closed : M unit) : M unit :=
  skip <- gets (fun w => abandoned w || negb (w_closing w) || w_closed_notified w
                         || negb (bool_decide (conns w = [])));;
  if skip : bool then ret tt
  else
    puts (fun w => w <| w_closed_notified := true |>);;
    h <- gets w_handler;;
    match h with
    | None => ret tt
    | Some h =>
        puts (fun w => w <| callbacks_in_flight ::= Z.succ |>);;
        puts (fun w => w <| connector_closed ::= fun l => l ++ [h] |>);;
        on_closed;;
        puts (fun w => w <| callbacks_in_flight ::= fun n => if 0 <? n then n - 1 else n |>)
    end.

(** [_CancelLocked]: whether the connection can be dropped at once. *)
Definition CancelLocked (id : Z) : M bool :=
  is_open <- get id (fun c => channel_opened_ (rq c));;
  if negb is_open then ret true
  else CloseChannel id;; ret false.

(** The loop of [WSConnector::Close] over the connections. *)
Fixpoint CancelAll (ids : list Z) : M unit :=
  match ids with
  | [] => ret tt
  | id :: ids =>
      dead <- CancelLocked id;;
      (if dead : bool then
         bump total_freed;; puts (fun w => w <| conns ::= List.filter (fun i => negb (i =? id)) |>)
       else ret tt);;
      CancelAll ids
  end.

(** [WSConnector::Close]. *)
Definition ConnectorClose (on_closed : M unit) : M unit :=
  puts (fun w => w <| w_closing := true |>);;
  ids <- gets conns;;
  CancelAll ids;;
  NotifyClosedIfDrained on_closed.

Definition channel_config (c : conn) (time_out : Z) : TcpChannelConfig :=
  {| tc_host := u_host (parts_ (rq c)); tc_port := u_port (parts_ (rq c)); tc_tls := u_tls (parts_ (rq c));
     tc_resolvedIp := []; tc_policy := c_policy (c_config c); tc_ifIndex := c_ifIndex (c_config c);
     tc_androidNetHandle := c_androidNetHandle (c_config c); tc_dns := c_dns (c_config c);
     tc_tls_cfg := c_tls_cfg (c_config c);
     tc_connectTimeoutMs := if negb (time_out =? 0) then time_out else connectTimeoutMs (c_config c) |}.

(** [Connect] from the opening of the channel on. *)
Definition Connect_open (on_closed : M unit) (id : Z) (cfg : TcpChannelConfig) : M BCRESULT :=
  now <- ask (now_ms E);;
  put_rq id (fun q => q <| timeout_ms_ := tc_connectTimeoutMs cfg |> <| start_ms_ := u64 now |>
                        <| channel_opened_ := true |>);;
  put id (fun c => c <| latest_net_action_ms_ := u64 now |>);;
  race <- ask (closer_races E);;
  (if race : bool then ConnectorClose on_closed else ret tt);;
  ch <- get id channel_;;
  if negb ch then fail NullChannel
  else
    r <- ask (fun n => chan_open E n cfg);;
    if negb (r =? BC_R_SUCCESS) then
      put_rq id (fun q => q <| channel_opened_ := false |> <| connect_called_ := false |>);;
      why <- ask (open_error E);;
      put id (fun c => c <| last_error_message_ := ChannelText why |>);;
      ret r
    else
      put id (fun c => c <| opened := true |>);;
      log id (EvOpen cfg);;
      closing <- gets w_closing;;
      (if closing : bool then CloseChannel id else ret tt);;
      ret BC_R_SUCCESS.

Definition Connect (on_closed : M unit) (in_log : bool) (id : Z) (url : bytes) (time_out : Z) : M BCRESULT :=
  called <- get id (fun c => connect_called_ (rq c));;
  if called : bool then ret BC_R_ALREADYRUNNING
  else
    put_rq id (fun q => q <| connect_called_ := true |>);;
    if in_log : bool then
      put_rq id (fun q => q <| connect_called_ := false |>);; ret BC_R_NOTIMPLEMENTED
    else match WSParseUrl url with
    | inl _ =>
        put_rq id (fun q => q <| parts_ := no_parts |> <| connect_called_ := false |>);; ret BC_R_INVALIDARG
    | inr parts =>
        rand <- ask (rand_key E);;
        let key := WSGenKey (base64_encode E) rand in
        extra <- get id (fun c => extra_headers_ (rq c));;
        match BuildHandshakeRequest parts key extra with
        | inl _ =>
            put_rq id (fun q => q <| parts_ := parts |> <| sec_key_ := key |> <| req_text_ := [] |>
                                  <| connect_called_ := false |>);;
            ret BC_R_INVALIDARG
        | inr text =>
            put_rq id (fun q => q <| parts_ := parts |> <| sec_key_ := key |> <| req_text_ := text |>
                                  <| url_ := url |>);;
            cfg <- get id (fun c => channel_config c time_out);;
            Connect_open on_closed id cfg
        end
    end.

(** [WSConnector::CreateConnection]: the new connection's [id_]. *)
Definition CreateConnection (in_log : bool) (cfg : option BCFObject) (handler : option nat) : M (option Z) :=
  ok <- gets (fun w => created_ w && negb in_log && negb (w_closing w));;
  if negb ok then ret None
  else
    last <- gets next_conn_id_;;
    let id := last + 1 in
    (if id <? 2 ^ 64 then puts (fun w => w <| next_conn_id_ := id |>) else fail CountWraps);;
    defaults <- gets (fun w => conn_cfg (w_config w));;
    puts (fun w => w <| objs ::= <[id := new_conn (ConnConfig_Init cfg defaults) handler]> |>);;
    puts (fun w => w <| conns ::= fun l => l ++ [id] |>);;
    bump total_allocated;;
    ret (Some id).

(** One call of the user: on a connection he has, or on the connector while it lives. *)
Definition call_api (on_closed : M unit) (a : api_call) : M unit :=
  let on_conn id (m : M unit) : M unit :=
    known <- gets (fun w => bool_decide (is_Some (objs w !! id)));;
    if known : bool then m else ret tt in
  let on_connector (m : M unit) : M unit :=
    gone <- gets (fun w => match lifetime w with Destroyed => true | _ => false end);;
    if gone : bool then ret tt else m in
  match a with
  | CallConnect in_log id url t => on_conn id (Connect on_closed in_log id url t;; ret tt)
  | CallSetRequestHeader id n v => on_conn id (SetRequestHeader id n v;; ret tt)
  | CallSendText id text => on_conn id (SendText id text;; ret tt)
  | CallSendData id data size => on_conn id (SendData id data size;; ret tt)
  | CallSendPacket id pkt => on_conn id (SendPacket id pkt;; ret tt)
  | CallSendPing id => on_conn id (SendPing id;; ret tt)
  | CallClose id result => on_conn id (Close id result)
  | CallCreateConnection in_log cfg h => on_connector (CreateConnection in_log cfg h;; ret tt)
  | CallConnectorClose => on_connector (ConnectorClose on_closed)
  end.

(** What the user does in the connector's [OnClosed]: it is never told twice. *)
Definition in_closed : M unit :=
  calls <- ask (user_calls E);; each (call_api (fail ClosedTwice)) calls.

Definition user_call (a : api_call) : M unit := call_api in_closed a.

(** ** Delivering to the handler *)

(** A call of the connection's handler under [DispatchGuard]; none when it was cleared. *)
Definition notify (id : Z) (e : nat -> event) : M unit :=
  h <- get id handler_;;
  match h with
  | None => ret tt
  | Some h =>
      puts (fun w => w <| callbacks_in_flight ::= Z.succ |>);;
      log id (e h);;
      calls <- ask (user_calls E);;
      each user_call calls;;
      puts (fun w => w <| callbacks_in_flight ::= fun n => if 0 <? n then n - 1 else n |>)
  end.

Definition DeliverConnectResult (id : Z) (result : BCRESULT) : M unit :=
  told <- get id connect_notified_;;
  if told : bool then ret tt
  else
    put id (fun c => c <| connect_notified_ := true |>
                       <| connected_ok_ ::= fun ok => (result =? BC_R_SUCCESS) || ok |>);;
    headers <- get id (fun c => hs_headers_ (hs c));;
    notify id (fun h => OnConnectResult h result headers).

Definition CloseReasonText (c : conn) (result : BCRESULT) (raw : ws_text) : close_text :=
  if peer_closed_frame_ c then PeerCloseText (close_code_ c)
  else if result =? BC_R_IDLE_TIMEOUT then IdleText
  else if result =? BC_R_CONNECT_TIMEOUT then TimeoutText raw
  else if result =? BC_R_SUCCESS then if user_closed_ (rq c) then ClosedByUserText else ClosedByPeerText
  else FailedText (if text_empty raw then ResultText result else raw) result.

(** [_ClassifyClose]: the counter of a result. *)
Definition close_counter (result : BCRESULT) (by_user : bool) : option counter :=
  if result =? BC_R_SUCCESS then if by_user then Some user_closed else None
  else Some
    (if (result =? BC_R_TIMEDOUT) || (result =? BC_R_CONNECT_TIMEOUT) then connect_timeout
     else if result =? BC_R_CONNREFUSED then connect_refused
     else if (result =? BC_R_HOSTUNREACH) || (result =? BC_R_NETUNREACH) then connect_unreach
     else if result =? BC_R_CONNECTIONRESET then connect_reset
     else if result =? BC_R_CANCELED then connect_canceled
     else if result =? BC_R_ADDRNOTAVAIL then address_not_avail
     else if result =? BC_R_NETDOWN then network_down
     else if result =? BC_R_IDLE_TIMEOUT then idle_timeout
     else if result =? BC_R_DNS_FAILED then dns_failed
     else if result =? BC_R_TLS_VERIFY_FAILED then tls_verify_failed
     else if result =? BC_R_NO_PHYSICAL_INTERFACE then no_physical_iface
     else if result =? BC_R_PIN_FAILED then pin_failed
     else if result =? BC_R_ROUTE_MISMATCH then route_mismatch
     else unknown_closed).

Definition ClassifyClose (id : Z) (result : BCRESULT) : M unit :=
  by_user <- get id (fun c => user_closed_ (rq c));;
  match close_counter result by_user with Some k => bump k | None => ret tt end.

(** The result and the text [_DeliverOnce] settles on: the first failure, what the user
    closed with, and last what the channel says. *)
Definition final_result (c : conn) (closeResult : BCRESULT) (closeReason : reason) : BCRESULT * ws_text :=
  if negb (fail_result_ c =? BC_R_SUCCESS) then (fail_result_ c, fail_message_ c)
  else
    let userResult := user_close_result_ (rq c) in
    if negb (userResult =? BC_R_SUCCESS) then (userResult, ResultText userResult)
    else if negb (closeResult =? BC_R_SUCCESS) then (closeResult, ChannelText closeReason)
    else (BC_R_SUCCESS, fail_message_ c).

Definition UnscheduleTimers (id : Z) : M unit :=
  put id (fun c => if (0 <? hs_timer_ c) && channel_ c then c <| hs_timer_ := 0 |> <| hs_armed := false |> else c);;
  put id (fun c => if (0 <? check_timer_ c) && channel_ c
                   then c <| check_timer_ := 0 |> <| check_armed := false |> else c).

Definition DeliverOnce (id : Z) (closeResult : BCRESULT) (closeReason : reason) : M unit :=
  done <- get id delivered_;;
  if done : bool then ret tt
  else
    put id (fun c => c <| delivered_ := true |>);;
    UnscheduleTimers id;;
    final <- get id (fun c => final_result c closeResult closeReason);;
    let '(result, message) := final in
    ClassifyClose id result;;
    ok <- get id connected_ok_;;
    if negb ok then
      let '(result, message) :=
        if result =? BC_R_SUCCESS then (BC_R_UNEXPECTEDEND, EndedEarly) else (result, message) in
      put id (fun c => c <| last_error_message_ := message |>);;
      DeliverConnectResult id result
    else
      put id (fun c => c <| last_error_message_ := message |>);;
      text <- get id (fun c => CloseReasonText c result message);;
      notify id (fun h => OnClosed h text).

(** ** The answer to the handshake *)

Definition CommitHeader (id : Z) : M bool :=
  a <- get id hs;;
  let cleared a := a <| cur_field_ := [] |> <| cur_value_ := [] |> <| last_was_value_ := false |> in
  if bytes_eqb (cur_field_ a) [] then put_hs id cleared;; ret true
  else
    let key := ToLowerAscii (cur_field_ a) in
    match map_find (hs_headers_ a) key with
    | None =>
        if kMaxHeaderCount <=? zlen (hs_headers_ a) then
          Fail id BC_R_UNEXPECTEDTOKEN TooManyHeaders;; ret false
        else
          put_hs id (fun a => cleared (a <| hs_headers_ ::= fun m => map_set m key (cur_value_ a) |>));; ret true
    | Some v =>
        put_hs id (fun a => cleared (a <| hs_headers_ ::= fun m => map_set m key (v ++ str ", " ++ cur_value_ a) |>));;
        ret true
    end.

Definition ChargeHeaderBytes (id length : Z) : M bool :=
  n <- get id (fun c => hs_header_bytes_ (hs c));;
  if kMaxHeaderTotalBytes <? n + length then
    Fail id BC_R_UNEXPECTEDTOKEN HeadersTooLarge;; ret false
  else put_hs id (fun a => a <| hs_header_bytes_ := n + length |>);; ret true.

Definition CheckSingleHeaderSize (id incoming : Z) : M bool :=
  n <- get id (fun c => zlen (cur_field_ (hs c)) + zlen (cur_value_ (hs c)));;
  if kMaxSingleHeaderBytes <? n + incoming then
    Fail id BC_R_UNEXPECTEDTOKEN HeaderTooLarge;; ret false
  else ret true.

(** The period of the keep-alive timer, or zero. *)
Definition check_interval (cfg : conn_config) : Z :=
  let interval := if 0 <? pingIntervalMs cfg then pingIntervalMs cfg else 0 in
  let interval := if (0 <? idleTimeoutMs cfg) && ((interval =? 0) || (idleTimeoutMs cfg <? interval))
                  then idleTimeoutMs cfg else interval in
  if 0 <? interval then Z.max interval kMinCheckIntervalMs else 0.

Definition ScheduleCheck (id : Z) : M unit :=
  interval <- get id (fun c => check_interval (c_config c));;
  if negb (0 <? interval) then ret tt
  else
    now <- ask (now_ms E);;
    put id (fun c => c <| last_ping_sent_ms_ := u64 now |> <| latest_net_action_ms_ := u64 now |>);;
    ch <- get id channel_;;
    if negb ch then fail NullChannel
    else
      sr <- ask (chan_schedule E);;
      if sr.1 =? BC_R_SUCCESS then put id (fun c => c <| check_timer_ := sr.2 |> <| check_armed := true |>)
      else ret tt.

(** The end of [http_on_headers_complete], once the answer is accepted. *)
Definition Upgrade (id : Z) : M unit :=
  ch <- get id channel_;;
  if negb ch then fail NullChannel
  else
    put id (fun c => if 0 <? hs_timer_ c then c <| hs_timer_ := 0 |> <| hs_armed := false |> else c);;
    a <- get id (fun c => (hs c, sec_key_ (rq c)));;
    put id (fun c => c <| upgraded_ := true |>);;
    log id (EvUpgraded (hs_status_ a.1) (hs_headers_ a.1) a.2);;
    DeliverConnectResult id BC_R_SUCCESS;;
    ScheduleCheck id.

(** A callback of the HTTP parser: whether it lets it go on. *)
Definition http_callback_run (id : Z) (cb : http_callback) : M bool :=
  match cb with
  | http_on_url | http_on_message_complete => ret true
  | http_on_status at_ => ChargeHeaderBytes id (zlen at_)
  | http_on_header_field at_ =>
      last <- get id (fun c => last_was_value_ (hs c));;
      ok <- (if last : bool then CommitHeader id else ret true);;
      if negb ok then ret false
      else
        ok <- ChargeHeaderBytes id (zlen at_);;
        if negb ok then ret false
        else
          ok <- CheckSingleHeaderSize id (zlen at_);;
          if negb ok then ret false
          else put_hs id (fun a => a <| cur_field_ ::= fun s => s ++ at_ |>);; ret true
  | http_on_header_value at_ =>
      put_hs id (fun a => a <| last_was_value_ := true |>);;
      ok <- ChargeHeaderBytes id (zlen at_);;
      if negb ok then ret false
      else
        ok <- CheckSingleHeaderSize id (zlen at_);;
        if negb ok then ret false
        else put_hs id (fun a => a <| cur_value_ ::= fun s => s ++ at_ |>);; ret true
  | http_on_headers_complete status_code =>
      ok <- CommitHeader id;;
      if negb ok then ret false
      else
        put_hs id (fun a => a <| hs_status_ := status_code |>);;
        err <- get id (fun c => CheckHandshakeResponse (base64_encode E) (SHA1 E) (hs_status_ (hs c))
                                  (hs_headers_ (hs c)) (sec_key_ (rq c)));;
        match err with
        | Some e => bump handshake_failed;; Fail id BC_R_WS_HANDSHAKE_FAILED (BadAnswer e);; ret false
        | None => Upgrade id;; ret true
        end
  end.

Fixpoint http_callbacks (id : Z) (cbs : list http_callback) : M bool :=
  match cbs with
  | [] => ret true
  | cb :: cbs => ok <- http_callback_run id cb;; if ok then http_callbacks id cbs else ret false
  end.

(** [llhttp_execute]: a refused callback ends it with an error. *)
Definition llhttp_execute (id : Z) (data : bytes) : M llhttp_end :=
  r <- ask (fun n => llhttp E n data);;
  ok <- http_callbacks id r.1;;
  ret (if ok then r.2 else HPE_ERROR 0).

(** ** Frames *)

Definition OnRecvWSFrame_run (id : Z) (e : ws_event) : M unit :=
  let '(OnRecvWSFrame h payload payload_len) := e in
  put id (fun c => c <| total_recv_frames_ ::= fun n => u64 (n + 1) |>);;
  if opcode h =? WS_OP_TEXT then
    let text := match payload with Some bs => if 0 <? payload_len then bs else [] | None => [] end in
    notify id (fun u => OnRecvText u (c_str text))
  else if opcode h =? WS_OP_BINARY then notify id (fun u => OnRecvData u payload payload_len)
  else if opcode h =? WS_OP_PING then SendPong id payload payload_len
  else if opcode h =? WS_OP_PONG then
    put_rq id (fun q => if negb (last_ping_ms_ q =? 0) then q <| last_ping_ms_ := 0 |> else q)
  else if opcode h =? WS_OP_CLOSE then
    let code := match payload with
                | Some bs => if 2 <=? payload_len then u16 (Z.lor (Z.shiftl (zat bs 0) 8) (zat bs 1))
                             else kWSCloseNormal
                | None => kWSCloseNormal
                end in
    put id (fun c => c <| peer_closed_frame_ := true |> <| close_code_ := code |>);;
    SendCloseFrame id code;;
    CloseChannel id
  else ret tt.

(** [_FeedFrames]: the parser's calls, then what it threw. *)
Definition FeedFrames (id : Z) (data : bytes) : M unit :=
  p <- get id parser_;;
  match ParseWSFrame p data with
  | None => fail AssertFailed
  | Some (evs, r) =>
      each (OnRecvWSFrame_run id) evs;;
      put id (fun c => c <| parser_ := match r with inl p => p | inr (_, p) => p end |>);;
      match r with
      | inl _ => ret tt
      | inr (e, _) =>
          bump protocol_error;;
          notify id (fun u => OnException u e);;
          SendCloseFrame id kWSCloseProtocol;;
          Fail id BC_R_UNEXPECTEDTOKEN (BadFrame e)
      end
  end.

(** ** The channel's callbacks *)

Definition TouchNetAction (id : Z) : M unit :=
  now <- ask (now_ms E);; put id (fun c => c <| latest_net_action_ms_ := u64 now |>).

Definition OnChannelReady (id : Z) : M unit :=
  TouchNetAction id;;
  text <- get id (fun c => req_text_ (rq c));;
  r <- chan_Send id (EvRequest text);;
  if negb (r =? BC_R_SUCCESS) then Fail id r SendRequestFailed
  else
    put_rq id (fun q => q <| total_send_bytes_ ::= fun n => u64 (n + zlen text) |>);;
    now <- ask (now_ms E);;
    (* the rest of the time the whole connection has *)
    sr <- ask (chan_schedule E);;
    if negb (sr.1 =? BC_R_SUCCESS) then Fail id BC_R_UNEXPECTED TimerFailed
    else put id (fun c => c <| hs_timer_ := sr.2 |> <| hs_armed := true |>).

Definition OnChannelData (id : Z) (data : bytes) : M unit :=
  TouchNetAction id;;
  put id (fun c => c <| total_recv_bytes_ ::= fun n => u64 (n + zlen data) |>);;
  skip <- get id delivered_;;
  if skip : bool then ret tt
  else
    up <- get id upgraded_;;
    if up : bool then FeedFrames id data
    else
      err <- llhttp_execute id data;;
      up <- get id upgraded_;;
      why <- get id (fun c => (fail_result_ c, fail_message_ c));;
      match err with
      | HPE_OK => ret tt
      | HPE_PAUSED_UPGRADE pos =>
          if negb up then
            if why.1 =? BC_R_SUCCESS then Fail id BC_R_UNEXPECTED UpgradeUnverified
            else Fail id why.1 why.2
          else
            let rest := zdrop (Z.max 0 pos) data in
            if 0 <? zlen rest then FeedFrames id rest else ret tt
      | HPE_ERROR _ =>
          if negb (why.1 =? BC_R_SUCCESS) then Fail id why.1 why.2
          else Fail id BC_R_UNEXPECTEDTOKEN HttpParseFailed
      end.

Definition OnChannelClosed (id : Z) (result : BCRESULT) (why : reason) : M unit :=
  DeliverOnce id result why;;
  info <- ask (chan_info E);;
  put id (fun c => (if channel_ c then c <| peer_info_ := info |> else c)
                     <| channel_ := false |> <| told_closed := true |>
                     <| hs_armed := false |> <| check_armed := false |>);;
  puts (fun w => w <| removals ::= fun l => l ++ [id] |>).

(** *** Timers *)

Definition OnHandshakeTimer (id : Z) : M unit :=
  put id (fun c => c <| hs_armed := false |>);;
  Fail id BC_R_CONNECT_TIMEOUT HandshakeTimeout.

Definition OnActiveCheck (id : Z) : M unit :=
  now <- ask (fun n => u64 (now_ms E n));;
  c <- get id (fun c => c);;
  if (0 <? idleTimeoutMs (c_config c)) && (u64 (latest_net_action_ms_ c + idleTimeoutMs (c_config c)) <=? now)
  then Close id BC_R_IDLE_TIMEOUT
  else if (0 <? pingIntervalMs (c_config c)) && (u64 (last_ping_sent_ms_ c + pingIntervalMs (c_config c)) <=? now)
  then put id (fun c => c <| last_ping_sent_ms_ := now |>);; SendPing id;; ret tt
  else ret tt.

(** ** The connector's own steps *)

(** [_RemoveConnAndMaybeNotify]. *)
Definition RemoveConnAndMaybeNotify (id : Z) : M unit :=
  found <- gets (fun w => bool_decide (id ∈ conns w));;
  (if found : bool then
     puts (fun w => w <| conns ::= List.filter (fun i => negb (i =? id)) |>);; bump total_freed
   else ret tt);;
  tell <- gets (fun w => if negb (abandoned w) && w_closing w && negb (w_closed_notified w)
                            && bool_decide (conns w = []) then w_handler w else None);;
  match tell with
  | None => ret tt
  | Some h =>
      puts (fun w => w <| w_closed_notified := true |>);;
      puts (fun w => w <| callbacks_in_flight ::= Z.succ |>);;
      puts (fun w => w <| connector_closed ::= fun l => l ++ [h] |>);;
      in_closed;;
      puts (fun w => w <| callbacks_in_flight ::= fun n => if 0 <? n then n - 1 else n |>)
  end.

(** [WSConnector::Create]. *)
Definition Create (cfg : option BCFObject) (handler : option nat) : M BCRESULT :=
  again <- gets created_;;
  if again : bool then ret BC_R_ALREADYRUNNING
  else if negb (runtime_init E =? BC_R_SUCCESS) then ret (runtime_init E)
  else
    puts (fun w => w <| w_config ::= ConnectorConfig_Init (ios_target E) cfg |>);;
    puts (fun w => w <| w_handler := handler |>);;
    puts (fun w => w <| w_config ::= fun c => c <| conn_cfg ::= fun n =>
            n <| c_dns ::= fun d => d <| cfg_policy := c_policy n |> |> <| bad_max_frame_bytes := 0 |> |> |>);;
    puts (fun w => w <| created_ := true |>);;
    ret BC_R_SUCCESS.

(** The end of the destructor when the connections did not drain in time: every handler
    is dropped. *)
Definition Abandon : M unit :=
  puts (fun w => w <| abandoned := true |> <| w_handler := None |>);;
  ids <- gets conns;;
  each (fun id => put id (fun c => c <| handler_ := None |>)) ids.

(** [GetStats]. *)
Definition GetStats (w : world) : list (bytes * Z) :=
  [(str "active_conn_size", zlen (conns w));
   (str "allocated_conn_size", counters w total_allocated); (str "freed_conn_size", counters w total_freed);
   (str "handshake_failed_size", counters w handshake_failed); (str "connect_timeout_size", counters w connect_timeout);
   (str "connect_refused_size", counters w connect_refused); (str "connect_net_unreach_size", counters w connect_unreach);
   (str "connect_reset_size", counters w connect_reset); (str "connect_calceled_size", counters w connect_canceled);
   (str "address_not_avail_size", counters w address_not_avail); (str "network_down_size", counters w network_down);
   (str "idle_timeout_size", counters w idle_timeout); (str "user_closed_size", counters w user_closed);
   (str "dns_failed_size", counters w dns_failed); (str "tls_verify_failed_size", counters w tls_verify_failed);
   (str "no_physical_iface_size", counters w no_physical_iface); (str "pin_failed_size", counters w pin_failed);
   (str "route_mismatch_size", counters w route_mismatch); (str "protocol_error_size", counters w protocol_error);
   (str "unknown_closed_size", counters w unknown_closed)].

(** ** The system *)

Inductive input :=
| InCreate (cfg : option BCFObject) (handler : option nat)
| InCall (a : api_call)
| InReady (id : Z)
| InData (id : Z) (data : bytes)
| InClosed (id : Z) (result : BCRESULT) (why : reason)
| InHandshakeTimer (id : Z)
| InActiveCheck (id : Z)
| InRemove (id : Z)
| InDestroy
| InDrained
| InDrainTimeout.

Definition channel_live (w : world) (id : Z) : bool :=
  match objs w !! id with Some c => opened c && negb (told_closed c) | None => false end.

Definition drained (w : world) : bool := bool_decide (conns w = []) && (callbacks_in_flight w <=? 0).

(** What can happen in a world. *)
Definition enabled (i : input) (w : world) : bool :=
  match i with
  | InCreate _ _ => match lifetime w with Alive => true | _ => false end
  | InCall a => bool_decide (call_ok a)
  | InReady id => channel_live w id
  | InData id data => channel_live w id && bool_decide (bytes_ok data)
  | InClosed id _ _ => channel_live w id
  | InHandshakeTimer id => match objs w !! id with Some c => hs_armed c | None => false end
  | InActiveCheck id => match objs w !! id with Some c => check_armed c | None => false end
  | InRemove id => bool_decide (id ∈ removals w)
  | InDestroy => match lifetime w with Alive => true | _ => false end
  | InDrained => match lifetime w with Draining => drained w | _ => false end
  | InDrainTimeout => match lifetime w with Draining => negb (drained w) | _ => false end
  end.

Definition step (i : input) : M unit :=
  match i with
  | InCreate cfg h => Create cfg h;; ret tt
  | InCall a => user_call a
  | InReady id => OnChannelReady id
  | InData id data => OnChannelData id data
  | InClosed id result why => OnChannelClosed id result why
  | InHandshakeTimer id => OnHandshakeTimer id
  | InActiveCheck id => OnActiveCheck id
  | InRemove id =>
      puts (fun w => w <| removals ::= List.filter (fun i => negb (i =? id)) |>);; RemoveConnAndMaybeNotify id
  | InDestroy => ConnectorClose in_closed;; puts (fun w => w <| lifetime := Draining |>)
  | InDrained => puts (fun w => w <| lifetime := Destroyed |>)
  | InDrainTimeout => Abandon;; puts (fun w => w <| lifetime := Destroyed |>)
  end.

Inductive reachable : world -> Prop :=
| reachable_new : reachable new_world
| reachable_step w i w' :
    reachable w -> enabled i w = true -> step i w = inl (tt, w') -> reachable w'.
End Connector.
