(* ===== verification/WSRobust.v ===== *)
(** * WSRobust: the frame parser after it threw

    [WSParser.ParseWSFrame] may be called again after it threw. Then it starts over at the
    first byte it still holds, with the state and the header it had, and may fail an
    assertion. What holds in any case: whatever it delivers consists of bytes and is within
    the limit of the size. *)

From Stdlib Require Import ZArith Lia.
From stdpp Require Import base numbers option list.
From S2P Require Import Prelude StreamParser Buffer WSParser.

Definition event_safe (max : Z) (e : ws_event) : Prop :=
  match e with OnRecvWSFrame _ payload _ => bytes_ok (default [] payload) /\ zlen (default [] payload) <= max end.

(** The payload stages are entered only with what they need. *)
Record ws_safe (p : WSParser) : Prop := {
  sa_base : ws_base p;
  sa_size : 0 <= payload_size (parsed_header_ p);
  sa_mask : bytes_ok (mask (parsed_header_ p));
  sa_frag : bytes_ok (frag_buffer_ p);
  sa_stage : match parse_state_ p with
             | PARSE_MASK => require_data_size_ p = 4 /\ payload_fits (max_frame_bytes_ p) (frags p) (parsed_header_ p)
             | PARSE_PAYLOAD => require_data_size_ p = payload_size (parsed_header_ p) /\
                 payload_fits (max_frame_bytes_ p) (frags p) (parsed_header_ p)
             | _ => True
             end
}.

Definition turn_safe (max : Z) (t : turn) : Prop :=
  match t with
  | Go _ p evs => ws_safe p /\ max_frame_bytes_ p = max /\ Forall (event_safe max) evs
  | Throw _ p => ws_safe p /\ max_frame_bytes_ p = max
  end.

(** *** Bytes *)

Lemma xor_mask_ok m i bs : bytes_ok m -> bytes_ok bs -> bytes_ok (xor_mask m i bs).
Proof.
  intros Hm Hb. apply Forall_lookup. intros j x. unfold xor_mask. rewrite list_lookup_imap.
  destruct (bs !! j) as [b|] eqn:Hj; [|done]. intros [= <-].
  assert (Hx : is_byte b) by (by eapply (proj1 (Forall_lookup _ _) Hb)).
  apply lxor_byte; [done|]. unfold zat. destruct (zget m _) as [y|] eqn:Hy; [|by unfold is_byte].
  unfold zget in Hy. case_match; [done|]. by eapply (proj1 (Forall_lookup _ _) Hm).
Qed.

(** *** One turn *)

(** Throwing rewinds the buffer. *)
Lemma throw_safe p e : ws_safe p -> turn_safe (max_frame_bytes_ p) (parse_error p e).
Proof.
  intros [(H1 & H2 & H3) S2 S3 S4 S5]. split; [|done]. split; try done. split_and!; try apply H3; [|done].
  unfold buf_ok in *. cbn. pose proof (zlen_nonneg (b_data (buffer_ p))). lia.
Qed.

(** Asking for more, in a state where nothing is due or the state does not matter. *)
Lemma require_safe p n st :
  ws_base p -> 0 <= payload_size (parsed_header_ p) -> bytes_ok (mask (parsed_header_ p)) -> bytes_ok (frag_buffer_ p) ->
  0 <= n < 2 ^ 32 ->
  require_data_size_ p = 0 \/ parse_state_ p = PARSE_FIRST_2_BYTES \/ parse_state_ p = PARSE_PAYLOAD_SIZE ->
  match st with
  | PARSE_MASK => n = 4 /\ payload_fits (max_frame_bytes_ p) (frags p) (parsed_header_ p)
  | PARSE_PAYLOAD => n = payload_size (parsed_header_ p) /\ payload_fits (max_frame_bytes_ p) (frags p) (parsed_header_ p)
  | _ => True
  end -> turn_safe (max_frame_bytes_ p) (require_turn p n st).
Proof.
  intros Hb Hs Hm Hf Hn Hst Hfit. split; [|split; [done|constructor]].
  destruct (Z.eqb_spec (require_data_size_ p) 0) as [H0|H0].
  - split; try done; unfold WSRequireData; cbn [snd set_ws_state parse_state_ require_data_size_]; rewrite ?H0; cbn [Z.eqb].
    rewrite u32_small by lia. exact Hfit.
  - split; try done; unfold WSRequireData; cbn [snd set_ws_state parse_state_ require_data_size_].
    destruct (Z.eqb_spec (require_data_size_ p) 0); [done|]. destruct Hst as [?|[-> | ->]]; done.
Qed.

Definition early (p : WSParser) : Prop :=
  require_data_size_ p = 0 \/ parse_state_ p = PARSE_FIRST_2_BYTES \/ parse_state_ p = PARSE_PAYLOAD_SIZE.

Lemma enter_safe p : ws_safe p -> early p -> turn_safe (max_frame_bytes_ p) (EnterPayloadStage p).
Proof.
  intros Hs He. unfold EnterPayloadStage. destruct (payload_check _ _ _) as [e|] eqn:Hc; [by apply throw_safe|].
  pose proof Hs as [Hb S2 S3 S4 _]. pose proof Hb as (_ & _ & Hmax & _). unfold UINT32_MAX in Hmax.
  assert (Hfit : payload_fits (max_frame_bytes_ p) (frags p) (parsed_header_ p)).
  { unfold payload_check in Hc. destruct (Z.ltb_spec (max_frame_bytes_ p) (payload_size (parsed_header_ p))); [done|].
    split; [lia|]. intros Hctl. rewrite Hctl in Hc. cbn [negb andb frags fr_buffer] in *.
    destruct (Z.ltb_spec (max_frame_bytes_ p) (zlen (frag_buffer_ p) + payload_size (parsed_header_ p)));
      [done|lia]. }
  pose proof Hfit as [Hle _]. destruct (has_mask (parsed_header_ p)).
  - by apply require_safe.
  - rewrite u32_small by lia. apply require_safe; try done. lia.
Qed.

(** A header with what has been read of it. *)
Lemma safe_header p b r h :
  ws_safe p -> buf_ok b -> bytes_ok (b_data b) -> 0 <= payload_size h -> bytes_ok (mask h) ->
  parse_state_ p = PARSE_FIRST_2_BYTES \/ parse_state_ p = PARSE_PAYLOAD_SIZE ->
  ws_safe (set_ws_header (set_buffer p b r) h).
Proof.
  intros [S1 S2 S3 S4 S5] Hb Hby Hn Hm Hst. split; try done; [by apply ws_base_header, ws_base_buffer|].
  cbn. by destruct Hst as [-> | ->].
Qed.

Lemma decode_first2_kept inf op h d0 d1 : 0 <= payload_size h ->
  mask (decode_first2 inf op h d0 d1).1 = mask h /\ 0 <= payload_size (decode_first2 inf op h d0 d1).1.
Proof.
  intros Hn. assert (Hl : 0 <= Z.land d1 0x7F) by (apply Z.land_nonneg; by right).
  unfold decode_first2. split.
  - by repeat match goal with |- context [if ?c then (_, _) else _] => destruct c end.
  - by repeat match goal with |- context [if ?c then (_, _) else _] => destruct c end.
Qed.

Lemma first2_safe p t : ws_safe p -> parse_state_ p = PARSE_FIRST_2_BYTES ->
  require_data_size_ p <= RemainingLength (buffer_ p) -> ParseFirst2Bytes p = Some t -> turn_safe (max_frame_bytes_ p) t.
Proof.
  intros Hs Hst Hr. unfold ParseFirst2Bytes. destruct (Z.leb_spec 2 (require_data_size_ p)) as [H2|]; [|done].
  pose proof Hs as [(Hb & Hby & _) S2 S3 _ _].
  destruct (read_front (buffer_ p) 2 Hb ltac:(lia)) as (-> & Hok & _).
  destruct (ztake 2 _) as [|d0 [|d1 [|]]]; try done. cbv zeta.
  pose proof (decode_first2_kept (in_fragment_ p) (frag_opcode_ p) (parsed_header_ p) d0 d1 S2) as [Hm Hn].
  change (in_fragment_ (set_buffer p _ _)) with (in_fragment_ p). change (frag_opcode_ (set_buffer p _ _)) with (frag_opcode_ p).
  change (parsed_header_ (set_buffer p _ _)) with (parsed_header_ p).
  destruct (decode_first2 _ _ _ _ _) as [h err]. cbn [fst] in Hm, Hn. rewrite <- Hm in S3.
  set (p1 := set_ws_header _ h). intros [= <-].
  assert (Hs1 : ws_safe p1) by (apply safe_header; try done; by left).
  change (max_frame_bytes_ p) with (max_frame_bytes_ p1). destruct err as [e|]; [by apply throw_safe|].
  assert (He : early p1) by (right; by left). pose proof Hs1 as [T1 T2 T3 T4 _].
  destruct (payload_size h =? 126); [by apply require_safe|]. destruct (payload_size h =? 127); [by apply require_safe|].
  by apply enter_safe.
Qed.

Lemma size_safe p t : ws_safe p -> parse_state_ p = PARSE_PAYLOAD_SIZE -> ParsePayloadSize p = Some t ->
  turn_safe (max_frame_bytes_ p) t.
Proof.
  intros Hs Hst. pose proof Hs as [(Hb & Hby & _) S2 S3 _ _].
  assert (Hgo : forall k, Z.of_nat k <= RemainingLength (buffer_ p) -> exists size,
     ReadUIntBE k (buffer_ p) = Some (size, Z.of_nat k, set_cur (buffer_ p) (b_cur (buffer_ p) + Z.of_nat k)) /\
     forall r n, 0 <= n -> let p1 := set_ws_header (set_buffer p (set_cur (buffer_ p) (b_cur (buffer_ p) + Z.of_nat k)) r)
               (with_length (parsed_header_ p) (has_mask (parsed_header_ p)) n) in
       (0 <= size) /\ ws_safe p1 /\ early p1).
  { intros k Hk. eexists. split; [by apply ReadUIntBE_spec|]. intros r n Hn p1. split; [|split].
    - apply be_val_bound. by apply bytes_ok_ztake, bytes_ok_zdrop.
    - apply safe_header; try done; [apply advance_ok; [done|lia]|by right].
    - right. by right. }
  unfold ParsePayloadSize. destruct (payload_size (parsed_header_ p) =? 126).
  - destruct (Z.leb_spec 2 (RemainingLength (buffer_ p))) as [H2|]; [|done].
    destruct (Hgo 2%nat H2) as (size & -> & Hp). cbn [mbind option_bind]. intros [= <-].
    destruct (Hp (u32 (require_data_size_ p - Z.of_nat 2)) 0 ltac:(done)) as (Hsz & _ & _).
    destruct (Hp (u32 (require_data_size_ p - Z.of_nat 2)) size Hsz) as (_ & Hs1 & He1).
    by apply (enter_safe _ Hs1 He1).
  - destruct (payload_size (parsed_header_ p) =? 127).
    + destruct (Z.leb_spec 8 (RemainingLength (buffer_ p))) as [H8|]; [|done].
      destruct (Hgo 8%nat H8) as (size & -> & Hp). cbn [mbind option_bind].
      destruct (Hp (u32 (require_data_size_ p - Z.of_nat 8)) 0 ltac:(done)) as (Hsz & Hs0 & He0).
      destruct (Hp (u32 (require_data_size_ p - Z.of_nat 8)) size Hsz) as (_ & Hs1 & He1).
      destruct (_ || _); intros [= <-]; [by apply (throw_safe _ _ Hs0)|by apply (enter_safe _ Hs1 He1)].
    + intros [= <-]. apply enter_safe; [done|]. right. by right.
Qed.

Lemma mask_safe p t : ws_safe p -> parse_state_ p = PARSE_MASK -> ParseMask p = Some t -> turn_safe (max_frame_bytes_ p) t.
Proof.
  intros [(Hb & Hby & H1) S2 S3 S4 S5] Hst. rewrite Hst in S5. destruct S5 as [Hr Hfit]. unfold ParseMask. rewrite Hr.
  destruct (Z.leb_spec 4 (RemainingLength (buffer_ p))) as [H4|]; [|done]. cbn [Z.leb Z.compare Pos.compare Pos.compare_cont andb].
  destruct (read_front (buffer_ p) 4 Hb ltac:(lia)) as (-> & Hok & _). cbv zeta.
  assert (Hk : zlen (ztake 4 (unread (buffer_ p))) = 4) by (apply zlen_ztake; rewrite zlen_unread by done; lia).
  intros [= <-]. rewrite Hk. pose proof Hfit as [Hle _]. destruct H1 as [Hmax H1]. unfold UINT32_MAX in Hmax.
  set (p1 := set_ws_header _ _). change (max_frame_bytes_ p) with (max_frame_bytes_ p1).
  change (payload_size (parsed_header_ (set_buffer p _ _))) with (payload_size (parsed_header_ p)).
  change (payload_size (parsed_header_ p1)) with (payload_size (parsed_header_ p)).
  rewrite u32_small by lia. apply require_safe; try done.
  - cbn. by apply bytes_ok_ztake, bytes_ok_zdrop.
  - lia.
  - by left.
Qed.

Lemma deliver_safe max h f payload n : bytes_ok (default [] payload) -> bytes_ok (fr_buffer f) -> frags_ok max f ->
  payload_fits max f h -> n = payload_size h -> zlen (default [] payload) = n ->
  bytes_ok (fr_buffer (deliver_frame h f payload n).1) /\ Forall (event_safe max) (deliver_frame h f payload n).2.
Proof.
  intros Hp Hf [Hl _] [[H0 H1] H2] -> Hpl. unfold deliver_frame.
  set (frag := match payload with Some _ => _ | None => _ end).
  assert (Hfr : bytes_ok frag).
  { unfold frag. destruct payload as [bs|]; [|done]. destruct (0 <? payload_size h); [|done]. by apply bytes_ok_app. }
  assert (Hone : Forall (event_safe max) [OnRecvWSFrame h payload (payload_size h)])
    by (constructor; [split; done || lia|constructor]).
  destruct (control_opcode (opcode h)) eqn:Hc; [by split|]. specialize (H2 eq_refl).
  destruct (is_final h && negb (fr_open f)); [by split|]. destruct (negb (is_final h)); [by split|]. split; [constructor|].
  constructor; [|constructor]. destruct (zlen frag =? 0); cbn [event_safe default]; unfold id.
  - split; [constructor|]. change (0 <= max). pose proof (zlen_nonneg (fr_buffer f)). lia.
  - split; [done|]. unfold frag. destruct payload as [bs|]; cbv iota; [|lia]. cbn in Hpl.
    destruct (0 <? payload_size h); rewrite ?zlen_app; lia.
Qed.

Lemma payload_safe p t : ws_safe p -> parse_state_ p = PARSE_PAYLOAD ->
  require_data_size_ p <= RemainingLength (buffer_ p) -> ParsePayload p = Some t -> turn_safe (max_frame_bytes_ p) t.
Proof.
  intros Hs Hst. pose proof Hs as [Hb S2 S3 S4 S5]. pose proof Hb as (Hbuf & Hby & Hmax & Hfr & Hfl).
  rewrite Hst in S5. destruct S5 as [Hr Hfit]. pose proof Hfit as [Hle _]. rewrite Hr. intros Hrem. unfold ParsePayload.
  rewrite Hr, Z.ltb_irrefl. unfold UINT32_MAX in Hmax.
  (* after a delivery the parser asks for the next frame *)
  assert (Hnext : forall p1 payload n p2 evs go p3, ws_base p1 -> require_data_size_ p1 = 0 ->
    parsed_header_ p1 = parsed_header_ p -> frags p1 = frags p -> max_frame_bytes_ p1 = max_frame_bytes_ p ->
    bytes_ok (default [] payload) -> n = payload_size (parsed_header_ p) ->
    zlen (default [] payload) = n -> (match payload with Some bs => zlen bs = n | None => n = 0 end) ->
    DeliverPayload p1 payload n = (p2, evs) -> WSRequireData p2 2 PARSE_FIRST_2_BYTES = (go, p3) ->
    turn_safe (max_frame_bytes_ p) (Go go p3 evs)).
  { intros p1 payload n p2 evs go p3 Hb1 Hr1 Hh1 Hf1 Hm1 Hp Hn Hl Hpl. unfold DeliverPayload. rewrite Hh1, Hf1.
    pose proof (deliver_safe (max_frame_bytes_ p) (parsed_header_ p) (frags p) payload n Hp S4 Hfr Hfit Hn Hl) as [Hd1 Hd2].
    pose proof (deliver_frags_ok (max_frame_bytes_ p) (parsed_header_ p) (frags p) payload n ltac:(lia) Hfr Hfit Hn Hpl) as Hd3.
    destruct (deliver_frame _ _ _ _) as [f es]. intros [= <- <-]. cbn [fst snd] in *.
    pose proof Hb1 as (B1 & B2 & B3 & B4 & B5). rewrite Hm1 in B3, B5.
    pose proof (require_safe (set_frag p1 (fr_buffer f) (fr_opcode f) (fr_open f)) 2 PARSE_FIRST_2_BYTES) as Hq.
    unfold require_turn in Hq. destruct (WSRequireData _ 2 _) as [go' p4]. intros [= <- <-].
    destruct Hq as (Q1 & Q2 & _); cbn [parsed_header_ set_frag frag_buffer_ require_data_size_]; rewrite ?Hh1; try done; [|by left|].
    { unfold ws_base. change (max_frame_bytes_ (set_frag p1 _ _ _)) with (max_frame_bytes_ p1). rewrite Hm1.
      refine (conj B1 (conj B2 (conj B3 (conj _ B5)))). exact Hd3. }
    split_and!; [done| |done]. change (max_frame_bytes_ (set_frag p1 _ _ _)) with (max_frame_bytes_ p1) in Q2. congruence. }
  destruct (Z.eqb_spec (payload_size (parsed_header_ p)) 0) as [E0|E0].
  - destruct (DeliverPayload p None 0) as [p1 evs] eqn:Hdel. destruct (WSRequireData p1 2 _) as [go p2] eqn:Hreq.
    intros [= <-]. eapply (Hnext p None 0); try done; [congruence|constructor].
  - rewrite WriteFrom_spec by (done || lia). rewrite Z.min_l by lia. cbn [mbind option_bind].
    set (n := payload_size (parsed_header_ p)) in *.
    assert (Hk : zlen (ztake n (unread (buffer_ p))) = n) by (apply zlen_ztake; rewrite zlen_unread by done; lia).
    rewrite Hk. set (h := parsed_header_ p) in *.
    set (bs := if has_mask h then xor_mask (mask h) 0 _ else _).
    assert (Hbs : zlen bs = n) by (unfold bs; destruct (has_mask h); rewrite ?xor_mask_length; done).
    assert (Hbok : bytes_ok bs).
    { assert (bytes_ok (ztake n (unread (buffer_ p)))) by by apply bytes_ok_ztake, bytes_ok_zdrop.
      unfold bs. destruct (has_mask h); [by apply xor_mask_ok|done]. }
    set (flat := if zlen (flat_buffer_ p) <? n then _ else _).
    assert (Hflat : n <= zlen flat <= max_frame_bytes_ p).
    { unfold flat. destruct (Z.ltb_spec (zlen (flat_buffer_ p)) n); [|lia]. rewrite vec_resize_length; lia. }
    cbn [set_flat flat_buffer_].
    pose proof (write_at_take flat 0 bs ltac:(lia) ltac:(lia)) as Hw. rewrite Z.add_0_l, Hbs in Hw.
    change (ztake 0 flat ++ bs) with bs in Hw.
    rewrite sub_bytes_Some by (rewrite ?write_at_length by lia; lia).
    rewrite zdrop_0, Hw. cbn [mbind option_bind].
    destruct (taken_base p n Hb ltac:(lia) (u32 (n - n))) as [Hb1 _]. set (p1 := set_flat _ _).
    assert (Hbase1 : ws_base p1).
    { destruct Hb1 as (H1 & H2 & H3 & H4 & _). refine (conj H1 (conj H2 (conj H3 (conj H4 _)))).
      change (zlen (write_at flat 0 bs) <= max_frame_bytes_ p). rewrite write_at_length by lia. lia. }
    destruct (DeliverPayload p1 (Some bs) n) as [p2 evs] eqn:Hdel. destruct (WSRequireData p2 2 _) as [go p3] eqn:Hreq.
    intros [= <-]. eapply (Hnext p1 (Some bs) n); try done. cbn. by rewrite Z.sub_diag.
Qed.

Lemma ws_turn_safe p t : ws_safe p -> require_data_size_ p <= RemainingLength (buffer_ p) -> ws_turn p = Some t ->
  turn_safe (max_frame_bytes_ p) t.
Proof.
  unfold ws_turn. intros Hs Hr. destruct (parse_state_ p) eqn:Hst.
  - by apply first2_safe.
  - by apply size_safe.
  - by apply mask_safe.
  - by apply payload_safe.
Qed.

(** *** A call *)

Lemma loop_safe fuel go p evs r : ws_safe p -> ParseWSFrame_loop fuel go p = Some (evs, r) ->
  Forall (event_safe (max_frame_bytes_ p)) evs /\ ws_safe (match r with inl p' => p' | inr (_, p') => p' end).
Proof.
  revert go p evs r. induction fuel as [|f IH]; intros go p evs r Hs; [done|]. cbn [ParseWSFrame_loop].
  destruct (negb go); [by intros [= <- <-]|].
  destruct (Z.ltb_spec (RemainingLength (buffer_ p)) (require_data_size_ p)); [by intros [= <- <-]|].
  destruct (ws_turn p) as [t|] eqn:Ht; [|done]. cbn [mbind option_bind].
  pose proof (ws_turn_safe p t Hs ltac:(lia) Ht) as Hts. destruct t as [go' p1 evs1|e p1].
  - destruct Hts as (Hs1 & Hm & He). destruct (ParseWSFrame_loop f go' p1) as [[evs2 r2]|] eqn:Hl; [|done].
    cbn [mbind option_bind]. intros [= <- <-]. destruct (IH _ _ _ _ Hs1 Hl) as [He2 Hr]. rewrite Hm in He2.
    split; [by apply Forall_app|done].
  - intros [= <- <-]. split; [constructor|apply Hts].
Qed.

Lemma set_buffer_safe p b : ws_safe p -> buf_ok b -> bytes_ok (b_data b) -> ws_safe (set_buffer p b (require_data_size_ p)).
Proof. intros [S1 S2 S3 S4 S5] Hb Hby. split; try done. by apply ws_base_buffer. Qed.

Lemma ParseWSFrame_safe p data evs r : ws_safe p -> bytes_ok data -> ParseWSFrame p data = Some (evs, r) ->
  Forall (event_safe (max_frame_bytes_ p)) evs /\ ws_safe (match r with inl p' => p' | inr (_, p') => p' end).
Proof.
  intros Hs Hd. unfold ParseWSFrame. pose proof Hs as [(Hb & Hby & _) _ _ _ _].
  assert (Hs1 : ws_safe (set_buffer p (Write (buffer_ p) data) (require_data_size_ p))).
  { apply set_buffer_safe; [done|by apply write_ok|]. by apply bytes_ok_app. }
  destruct (ParseWSFrame_loop _ _ _) as [[evs1 r1]|] eqn:Hl; [|done]. cbn [mbind option_bind]. intros [= <- <-].
  destruct (loop_safe _ _ _ _ _ Hs1 Hl) as [He Hr]. split; [exact He|]. destruct r1 as [p1|[e p1]]; [|done].
  pose proof Hr as [(Hb1 & Hby1 & _) _ _ _ _]. apply set_buffer_safe; [done|..].
  - destruct (_ =? 0); [by split|by apply remove_consumed_ok].
  - destruct (_ =? 0); [constructor|]. unfold RemoveConsumed. destruct (0 <? _); [by apply bytes_ok_zdrop|done].
Qed.

Lemma set_max_safe m : 0 < m <= UINT32_MAX -> ws_safe (set_max new_WSParser m).
Proof.
  intros Hm. split; [|done| |constructor|done].
  - refine (conj _ (conj _ (conj Hm (conj _ _)))); [by split|constructor|split; [change (0 <= m); lia|done]|change (0 <= m); lia].
  - change (bytes_ok [0; 0; 0; 0]). by repeat constructor.
Qed.

Lemma new_safe max : ws_safe (SetMaxFrameBytes new_WSParser max).
Proof.
  unfold SetMaxFrameBytes. destruct (Z.ltb_spec 0 max).
  - apply set_max_safe. unfold UINT32_MAX. destruct (Z.ltb_spec 0xFFFFFFFF max); lia.
  - change new_WSParser with (set_max new_WSParser WS_DEFAULT_MAX_FRAME_BYTES). by apply set_max_safe.
Qed.
