(* ===== verification/WSInvariant.v ===== *)
(** * WSInvariant: what holds of the WebSocket connections at all times

    The invariant of [WSConnector] and the proof that every operation keeps it. A
    connection's log goes through four phases, given by [advance]; [conn_ok] ties the
    members to the phase and to the log, [link] ties a connection to the connector, and
    [inv] holds in every reachable world and whenever the user is called. The user's calls
    change a connection only as [cext] says. *)

From Stdlib Require Import ZArith Lia.
From stdpp Require Import base numbers option gmap list.
From S2P Require Import Prelude Results Utils VpnPolicy DnsMessage DnsResolver Buffer WSParser HttpText TlsContext TcpChannel WSConnector WSRobust.

(** ** The phases of a connection's log *)

Inductive phase := PInit | PUpgraded | PConnected | PFailed | PDone.

#[global] Instance phase_eq_dec : EqDecision phase.
Proof. solve_decision. Defined.

(** What may come next: one result of the connection first; messages and exceptions only
    once it succeeded; [OnClosed] only then, and nothing for the handler after it. *)
Definition advance (p : phase) (e : event) : option phase :=
  match e with
  | EvOpen _ | EvRequest _ | EvChannelClose => Some p
  | EvUpgraded _ _ _ => match p with PInit => Some PUpgraded | PFailed | PDone => None | _ => Some p end
  | EvFrame _ _ _ => match p with PInit | PFailed => None | _ => Some p end
  | OnConnectResult _ r _ =>
      match p with
      | PInit => if r =? BC_R_SUCCESS then None else Some PFailed
      | PUpgraded => if r =? BC_R_SUCCESS then Some PConnected else None
      | _ => None
      end
  | OnRecvText _ _ | OnRecvData _ _ _ | OnException _ _ => match p with PConnected => Some p | _ => None end
  | OnClosed _ _ => match p with PConnected => Some PDone | _ => None end
  end.

Definition phase_of (l : list event) : option phase :=
  foldl (fun p e => p ← p; advance p e) (Some PInit) l.

Lemma phase_of_snoc l e : phase_of (l ++ [e]) = (p ← phase_of l; advance p e).
Proof. unfold phase_of. by rewrite foldl_app. Qed.

(** ** Execution *)

Section WP.
Context (K : crash -> Prop).

Definition wp {A} (m : M A) (Q : A -> world -> Prop) (w : world) : Prop :=
  match m w with inl (a, w') => Q a w' | inr c => K c end.

Lemma does_bind {A B} (m : M A) (k : A -> M B) Q w :
  wp m (fun a w' => wp (k a) Q w') w -> wp (bind m k) Q w.
Proof. unfold wp, bind. by destruct (m w) as [[a w']|c]. Qed.

Lemma does_mono {A} (m : M A) (P Q : A -> world -> Prop) w :
  wp m P w -> (forall a w', P a w' -> Q a w') -> wp m Q w.
Proof. unfold wp. destruct (m w) as [[a w']|c]; auto. Qed.

Lemma does_call {A B} (m : M A) (k : A -> M B) P Q w :
  wp m P w -> (forall a w', P a w' -> wp (k a) Q w') -> wp (bind m k) Q w.
Proof. intros H HK. apply does_bind. by eapply does_mono. Qed.

Lemma does_ret {A} (a : A) Q w : Q a w -> wp (ret a) Q w.
Proof. done. Qed.

Lemma does_fail {A} c (Q : A -> world -> Prop) w : K c -> wp (fail c) Q w.
Proof. done. Qed.

Lemma does_gets {A} (f : world -> A) Q w : Q (f w) w -> wp (gets f) Q w.
Proof. done. Qed.

Lemma does_puts f Q w : Q tt (f w) -> wp (puts f) Q w.
Proof. done. Qed.
End WP.

(** A world seen from one of its connections. *)
Definition foc (w : world) (id : Z) (c : conn) : world := w <| objs ::= <[id := c]> |>.

Lemma objs_foc w id c : objs (foc w id c) = <[id := c]> (objs w).
Proof. by destruct w. Qed.

Lemma foc_self w id c : objs w !! id = Some c -> foc w id c = w.
Proof.
  intros H. destruct w as [o cs h cl cn ab fl ct nx cr cf rm cc lf tk].
  unfold foc, update. cbn in *. f_equal. by apply insert_id.
Qed.

Lemma foc_foc w id c c' : foc (foc w id c) id c' = foc w id c'.
Proof.
  destruct w as [o cs h cl cn ab fl ct nx cr cf rm cc lf tk].
  unfold foc, update. cbn. f_equal. apply insert_insert_eq.
Qed.

Lemma lookup_foc w id c : objs (foc w id c) !! id = Some c.
Proof. rewrite objs_foc. apply lookup_insert_eq. Qed.

Lemma lookup_foc_ne w id id' c : id <> id' -> objs (foc w id c) !! id' = objs w !! id'.
Proof. intros H. rewrite objs_foc. by apply lookup_insert_ne. Qed.

Definition ticked (w : world) : world := w <| tick ::= S |>.
Definition bumped (k : counter) (w : world) : world :=
  w <| counters ::= fun f k' => if decide (k = k') then f k' + 1 else f k' |>.

Section Focus.
Context (K : crash -> Prop).

Lemma does_get {A} id (f : conn -> A) Q w c : Q (f c) (foc w id c) -> wp K (get id f) Q (foc w id c).
Proof. intros H. unfold wp, get. by rewrite lookup_foc. Qed.

Lemma does_put id f Q w c : Q tt (foc w id (f c)) -> wp K (put id f) Q (foc w id c).
Proof.
  intros H. unfold wp, put, puts.
  replace ((foc w id c) <| objs ::= alter f id |>) with (foc w id (f c)); [done|].
  destruct w as [o cs h cl cn ab fl ct nx cr cf rm cc lf tk]. unfold foc, update. cbn. f_equal.
  rewrite <- (alter_insert_eq o id f c). done.
Qed.

Lemma does_ask {A} id (f : nat -> A) Q w c :
  (forall t, Q (f t) (foc (ticked w) id c)) -> wp K (ask f) Q (foc w id c).
Proof. intros H. exact (H (tick w)). Qed.

Lemma wp_ask_any {A} (f : nat -> A) Q w : (forall t, Q (f t) (ticked w)) -> wp K (ask f) Q w.
Proof. intros H. exact (H (tick w)). Qed.

Lemma wp_bump id k Q w c : Q tt (foc (bumped k w) id c) -> wp K (bump k) Q (foc w id c).
Proof. done. Qed.
End Focus.

(** ** What holds of a connection *)

(** A frame sent: final, masked with a key of its own, with a legal opcode and size. *)
Definition frame_good (e : event) : Prop :=
  match e with
  | EvFrame op payload bs =>
      exists key, bs = encode_frame {| f_fin := true; f_op := op; f_key := Some key; f_payload := payload |} /\
        bytes_ok key /\ zlen key = 4 /\ op ∈ [WS_OP_TEXT; WS_OP_BINARY; WS_OP_CLOSE; WS_OP_PING; WS_OP_PONG] /\
        bytes_ok payload /\ (control_opcode op = true -> zlen payload <= WS_MAX_CONTROL_PAYLOAD)
  | _ => True
  end.

Definition is_close_frame (e : event) : bool :=
  match e with EvFrame op _ _ => op =? WS_OP_CLOSE | _ => false end.

Definition close_frames (l : list event) : Z := zlen (List.filter is_close_frame l).

Definition no_exception (l : list event) : Prop := forall h e, OnException h e ∉ l.

Record answer_ok (a : answer) : Prop := {
  ao_sorted : map_sorted (hs_headers_ a);
  ao_count : zlen (hs_headers_ a) <= kMaxHeaderCount;
  ao_total : 0 <= hs_header_bytes_ a <= kMaxHeaderTotalBytes;
  ao_single : zlen (cur_field_ a) + zlen (cur_value_ a) <= kMaxSingleHeaderBytes;
  ao_size : headers_size (hs_headers_ a) + 2 * (zlen (cur_field_ a) + zlen (cur_value_ a)) <= 2 * hs_header_bytes_ a
}.

Section Invariant.
Context (E : env).

(** No other thread closes the connector inside [Connect]. *)
Definition no_races : Prop := forall n, closer_races E n = false.

(** The handshake's request is the one for the URL and the key. *)
Definition request_built (q : requested) : Prop :=
  WSParseUrl (url_ q) = inr (parts_ q) /\
  BuildHandshakeRequest (parts_ q) (sec_key_ q) (extra_headers_ q) = inr (req_text_ q).

Definition event_ok (q : requested) (e : event) : Prop :=
  match e with
  | EvRequest text => text = req_text_ q
  | EvUpgraded status headers key =>
      key = sec_key_ q /\ CheckHandshakeResponse (base64_encode E) (SHA1 E) status headers key = None
  | EvFrame _ _ _ => frame_good e
  | OnConnectResult _ r headers =>
      r = BC_R_SUCCESS ->
      exists status, CheckHandshakeResponse (base64_encode E) (SHA1 E) status headers (sec_key_ q) = None
  | _ => True
  end.

Definition phase_now (c : conn) : phase :=
  if delivered_ c then if connected_ok_ c then PDone else PFailed
  else if connected_ok_ c then PConnected else PInit.

(** The phase of the log: the one the members say, unless the handler is gone. *)
Definition phase_fits (c : conn) : Prop :=
  exists p, phase_of (log_ c) = Some p /\ (handler_ c <> None -> p = phase_now c) /\
    (upgraded_ c = true -> p <> PInit /\ p <> PFailed) /\ (delivered_ c = false -> p <> PDone /\ p <> PFailed).

Record conn_ok (c : conn) : Prop := {
  ok_phase : phase_fits c;
  ok_upgraded : upgraded_ c = connected_ok_ c;
  ok_notified : connect_notified_ c = connected_ok_ c || delivered_ c;
  ok_channel : channel_ c = negb (told_closed c);
  ok_told : told_closed c = true -> delivered_ c = true;
  ok_used : delivered_ c = true \/ upgraded_ c = true \/ hs_armed c = true \/ check_armed c = true ->
            opened c = true;
  ok_opened : opened c = true ->
    connect_called_ (rq c) = true /\ channel_opened_ (rq c) = true /\ request_built (rq c);
  ok_unopened : opened c = false -> Forall (fun e => e = EvChannelClose) (log_ c);
  ok_events : Forall (event_ok (rq c)) (log_ c);
  ok_close : close_frames (log_ c) <= (if close_frame_sent_ (rq c) then 1 else 0);
  ok_answer : answer_ok (hs c);
  ok_opening : no_races -> channel_opened_ (rq c) = true -> opened c = true
}.

Definition parser_ok (c : conn) : Prop :=
  ws_safe (parser_ c) /\
  (fail_result_ c = BC_R_SUCCESS -> no_exception (log_ c) -> ws_waiting (parser_ c)).

(** Between the steps: a parser that threw has failed the connection, and the end was
    delivered exactly when the channel said it closed. *)
Definition settled (c : conn) : Prop :=
  (fail_result_ c = BC_R_SUCCESS -> no_exception (log_ c)) /\ delivered_ c = told_closed c.

(** *** What the user's calls do to a connection *)

Definition api_event (e : event) : Prop :=
  match e with EvOpen _ | EvFrame _ _ _ | EvChannelClose => True | _ => False end.

Definition erase (c : conn) : conn :=
  c <| rq := new_requested |> <| log_ := [] |> <| opened := false |> <| last_error_message_ := NoText |>
    <| latest_net_action_ms_ := 0 |> <| last_ping_sent_ms_ := 0 |> <| peer_closed_frame_ := false |> <| close_code_ := 0 |>
    <| total_recv_bytes_ := 0 |> <| total_recv_frames_ := 0 |>.

(** The request of a connection, which nothing changes once [Connect] was called. *)
Definition request_of (q : requested) : bytes * HttpUrlParts * bytes * HttpHeaderMap * bytes :=
  (url_ q, parts_ q, sec_key_ q, extra_headers_ q, req_text_ q).

Record cext (c c' : conn) : Prop := {
  ext_erase : erase c' = erase c;
  ext_opened : opened c = true -> opened c' = true;
  ext_log : exists l, log_ c' = log_ c ++ l /\ Forall api_event l;
  ext_request : connect_called_ (rq c) = true ->
    request_of (rq c') = request_of (rq c) /\ connect_called_ (rq c') = true /\
    channel_opened_ (rq c') = channel_opened_ (rq c) /\ opened c' = opened c
}.

Lemma cext_refl c : cext c c.
Proof. split; [done|done| |done]. exists []. by rewrite app_nil_r. Qed.

Lemma cext_trans c1 c2 c3 : cext c1 c2 -> cext c2 c3 -> cext c1 c3.
Proof.
  intros [H1 H2 (l & H3 & H3') H4] [G1 G2 (k & G3 & G3') G4]. split.
  - congruence.
  - auto.
  - exists (l ++ k). rewrite G3, H3, app_assoc. split; [done|]. by apply Forall_app.
  - intros Hc. destruct (H4 Hc) as (A1 & A2 & A3 & A4). destruct (G4 A2) as (B1 & B2 & B3 & B4).
    split_and!; congruence.
Qed.

Lemma ext_field {A} (f : conn -> A) c c' : cext c c' -> (forall x, f x = f (erase x)) -> f c' = f c.
Proof. intros H Hf. rewrite Hf, (ext_erase _ _ H), <- Hf. done. Qed.

(** ** The connector *)

(** [todo]: the connections [WSConnector::Close] has not come to yet. *)
Record link (todo : list Z) (w : world) (id : Z) (c : conn) : Prop := {
  lk_id : id <= next_conn_id_ w;
  lk_closing : no_races -> w_closing w = true -> id ∈ conns w -> id ∉ todo ->
    opened c = true /\ (EvChannelClose ∈ log_ c \/ told_closed c = true);
  lk_told : told_closed c = true -> id ∈ conns w -> id ∈ removals w;
  lk_abandoned : abandoned w = true -> id ∈ conns w -> handler_ c = None
}.

Definition gone_for_good (w : world) : Prop :=
  abandoned w = true \/ w_closing w = true /\ conns w = [] /\ (w_closed_notified w = true \/ w_handler w = None).

Record winv (w : world) : Prop := {
  wi_nodup : NoDup (conns w);
  wi_known : forall id, id ∈ conns w -> is_Some (objs w !! id);
  wi_next : 0 <= next_conn_id_ w;
  wi_counters : counters w total_allocated = counters w total_freed + zlen (conns w);
  wi_notified : w_closed_notified w = true -> w_closing w = true /\ conns w = [];
  wi_new : created_ w = false -> conns w = [];
  wi_told : zlen (connector_closed w) <= (if w_closed_notified w then 1 else 0);
  wi_abandoned : abandoned w = true -> w_handler w = None /\ lifetime w <> Alive;
  wi_life : lifetime w <> Alive -> w_closing w = true;
  wi_destroyed : lifetime w = Destroyed -> gone_for_good w;
  wi_flight : 0 <= callbacks_in_flight w
}.

(** A connector closed and without connections has told its handler. *)
Definition telling (w : world) : Prop :=
  w_closing w = true -> conns w = [] -> abandoned w = false -> w_handler w <> None \/ created_ w = false ->
  w_closed_notified w = true.

Record inv_but (todo : list Z) (w : world) : Prop := {
  inv_w : winv w;
  inv_conn : forall id c, objs w !! id = Some c -> conn_ok c /\ parser_ok c /\ link todo w id c
}.

Definition inv (w : world) : Prop := inv_but [] w /\ telling w.

(** What the user's calls do to the world. *)
Record aext (w w' : world) : Prop := {
  ae_old : forall id c, objs w !! id = Some c -> exists c', objs w' !! id = Some c' /\ cext c c';
  ae_new : forall id c', objs w !! id = None -> objs w' !! id = Some c' -> settled c';
  ae_flight : callbacks_in_flight w' = callbacks_in_flight w;
  ae_life : lifetime w' = lifetime w;
  ae_handler : w_handler w' = w_handler w;
  ae_removals : removals w' = removals w;
  ae_abandoned : abandoned w' = abandoned w;
  ae_closing : w_closing w = true -> w_closing w' = true;
  ae_notified : w_closed_notified w = true -> w_closed_notified w' = true
}.

Lemma aext_refl w : aext w w.
Proof.
  split; try done.
  - intros id c H. exists c. split; [done|apply cext_refl].
  - intros id c' H H'. congruence.
Qed.

Lemma settled_ext c c' : cext c c' -> settled c -> settled c'.
Proof.
  intros H [H1 H2]. split.
  - intros Hf' h e Hin.
    assert (Hf : fail_result_ c = BC_R_SUCCESS).
    { by rewrite <- (ext_field fail_result_ c c' H). }
    destruct (ext_log _ _ H) as (l & Hl & Ha). rewrite Hl in Hin. apply elem_of_app in Hin as [Hin|Hin].
    + by apply (H1 Hf h e).
    + by apply (proj1 (Forall_forall _ _) Ha) in Hin.
  - rewrite (ext_field delivered_ c c' H), (ext_field told_closed c c' H) by done. done.
Qed.

Lemma aext_trans w1 w2 w3 : aext w1 w2 -> aext w2 w3 -> aext w1 w3.
Proof.
  intros H G. split; try (destruct H, G; first [congruence|solve [auto]]).
  - intros id c Hc. destruct (ae_old _ _ H id c Hc) as (c2 & H2 & X). destruct (ae_old _ _ G id c2 H2) as (c3 & H3 & Y).
    exists c3. split; [done|by eapply cext_trans].
  - intros id c3 H1 H3. destruct (objs w2 !! id) as [c2|] eqn:H2.
    + destruct (ae_old _ _ G id c2 H2) as (c3' & H3' & Y). rewrite H3 in H3'. injection H3' as <-.
      eapply settled_ext; [exact Y|]. by apply (ae_new _ _ H id).
    + by apply (ae_new _ _ G id).
Qed.
End Invariant.

(** ** Specifications *)

Ltac cproj := cbv [update c_config handler_ channel_ rq hs upgraded_ fail_result_ fail_message_ delivered_
  connect_notified_ connected_ok_ peer_closed_frame_ close_code_ peer_info_ last_error_message_ hs_timer_
  check_timer_ latest_net_action_ms_ last_ping_sent_ms_ total_recv_bytes_ total_recv_frames_ parser_ opened
  hs_armed check_armed told_closed log_ connect_called_ channel_opened_ timeout_ms_ start_ms_ url_ parts_
  sec_key_ extra_headers_ req_text_ user_closed_ user_close_result_ close_frame_sent_ last_ping_ms_
  total_send_bytes_ total_send_frames_ hs_status_ hs_headers_ hs_header_bytes_ cur_field_ cur_value_
  last_was_value_].

(** Only the clock and the counters of failures moved. *)
Definition still (w : world) : world := w <| tick := 0%nat |> <| counters := fun _ => 0 |>.

Record calm (w w' : world) : Prop := {
  calm_still : still w' = still w;
  calm_allocated : counters w' total_allocated = counters w total_allocated;
  calm_freed : counters w' total_freed = counters w total_freed
}.

Lemma calm_same w : calm w w.
Proof. by split. Qed.

Lemma calm_then w1 w2 w3 : calm w1 w2 -> calm w2 w3 -> calm w1 w3.
Proof. intros [] []. split; congruence. Qed.

Lemma calm_ticked w : calm w (ticked w).
Proof. destruct w. by split. Qed.

Lemma calm_bumped k w : k <> total_allocated -> k <> total_freed -> calm w (bumped k w).
Proof.
  intros H1 H2. destruct w. split; [done|..]; unfold bumped, update; cbn; rewrite decide_False by done; done.
Qed.

Lemma calm_field {A} (f : world -> A) w w' : calm w w' -> (forall x, f x = f (still x)) -> f w' = f w.
Proof. intros H Hf. rewrite Hf, (calm_still _ _ H), <- Hf. done. Qed.

Create HintDb ws.
#[export] Hint Resolve calm_same calm_ticked cext_refl : ws.

(** The members the invariant of a connection reads, apart from its log. *)
Record facts := {
  fa_handler : option nat;
  fa_upgraded : bool;
  fa_connected : bool;
  fa_notified : bool;
  fa_delivered : bool;
  fa_channel : bool;
  fa_told : bool;
  fa_hs_timer : bool;
  fa_check : bool;
  fa_opened : bool;
  fa_answer : answer;
  fa_called : bool;
  fa_opening : bool;
  fa_request : bytes * HttpUrlParts * bytes * HttpHeaderMap * bytes;
  fa_sent : bool
}.

Definition facts_of (c : conn) : facts :=
  {| fa_handler := handler_ c;
     fa_upgraded := upgraded_ c;
     fa_connected := connected_ok_ c;
     fa_notified := connect_notified_ c;
     fa_delivered := delivered_ c;
     fa_channel := channel_ c;
     fa_told := told_closed c;
     fa_hs_timer := hs_armed c;
     fa_check := check_armed c;
     fa_opened := opened c;
     fa_answer := hs c;
     fa_called := connect_called_ (rq c);
     fa_opening := channel_opened_ (rq c);
     fa_request := request_of (rq c);
     fa_sent := close_frame_sent_ (rq c) |}.

(** A change of members outside [facts_of] and the log. *)
Ltac same_rest c := split_and!; [done|done|destruct c; split; try done; exists []; by rewrite app_nil_r].

(** The environment: a mask is four bytes, and the user's calls are proper ones. *)
Class EnvOk (E : env) : Prop := {
  mask_ok : forall n, bytes_ok (rand_mask E n) /\ zlen (rand_mask E n) = 4;
  calls_ok : forall n a, a ∈ user_calls E n -> call_ok a
}.

(** The count of the connections may wrap. *)
Class MayWrap (K : crash -> Prop) : Prop := may_wrap : K CountWraps.

Section Specs.
Context {E : env} {EO : EnvOk E} {K : crash -> Prop} {KW : MayWrap K}.
Abbreviation WP := (wp K).

(** An operation on a connection that changes nothing else and calls nobody. *)
Definition good {A} (m : M A) (id : Z) : Prop := forall w c, conn_ok E c ->
  WP m (fun _ w' => exists w0 c', w' = foc w0 id c' /\ calm w w0 /\ conn_ok E c' /\ cext c c') (foc w id c).

Lemma good_ret {A} (a : A) id : good (ret a) id.
Proof. intros w c H. apply does_ret. exists w, c. eauto with ws. Qed.

Lemma good_bind {A B} (m : M A) (k : A -> M B) id : good m id -> (forall a, good (k a) id) -> good (bind m k) id.
Proof.
  intros Hm Hk w c H. eapply does_call; [by apply Hm|]. intros a w' (w0 & c' & -> & Hw & Hc & Hx).
  eapply does_mono; [by apply Hk|]. intros b w'' (w1 & c'' & -> & Hw' & Hc' & Hx').
  exists w1, c''. split_and!; [done|by eapply calm_then|done|by eapply cext_trans].
Qed.

Lemma good_get {A B} (f : conn -> A) (k : A -> M B) id :
  (forall w c, conn_ok E c -> WP (k (f c)) (fun _ w' => exists w0 c', w' = foc w0 id c' /\ calm w w0 /\
     conn_ok E c' /\ cext c c') (foc w id c)) -> good (bind (get id f) k) id.
Proof. intros H w c Hc. apply does_bind, does_get. by apply H. Qed.

Lemma good_ask {A B} (f : nat -> A) (k : A -> M B) id : (forall t, good (k (f t)) id) -> good (bind (ask f) k) id.
Proof.
  intros H w c Hc. apply does_bind. apply (does_ask K id). intros t. eapply does_mono; [by apply H|].
  intros b w' (w0 & c' & -> & Hw & Hc' & Hx). exists w0, c'. split_and!; [done| |done|done].
  eapply calm_then; [apply calm_ticked|done].
Qed.

Lemma good_bump k id : k <> total_allocated -> k <> total_freed -> good (bump k) id.
Proof.
  intros H1 H2 w c Hc. apply (wp_bump K id). exists (bumped k w), c. split_and!; [done|by apply calm_bumped|done|].
  apply cext_refl.
Qed.

(** A change that touches no member the invariant is about. *)
Lemma good_put id f : (forall c, conn_ok E c -> conn_ok E (f c) /\ cext c (f c)) -> good (put id f) id.
Proof.
  intros H w c Hc. apply does_put. destruct (H c Hc). exists w, (f c). eauto with ws.
Qed.

Lemma event_ok_request q q' e : request_of q' = request_of q -> event_ok E q e -> event_ok E q' e.
Proof. intros H. injection H as H1 H2 H3 H4 H5. destruct e; cbn; try congruence. by rewrite H3. Qed.

Lemma conn_ok_log c c' es :
  facts_of c' = facts_of c -> log_ c' = log_ c ++ es -> conn_ok E c ->
  phase_of (log_ c') = phase_of (log_ c) -> Forall (event_ok E (rq c)) es ->
  (opened c = false -> Forall (fun e => e = EvChannelClose) es) ->
  close_frames (log_ c') <= (if close_frame_sent_ (rq c) then 1 else 0) -> conn_ok E c'.
Proof.
  intros Hf Hl H Hp He Hu Hcl.
  pose proof (f_equal fa_handler Hf) as F1; cbn [facts_of fa_handler] in F1.
  pose proof (f_equal fa_upgraded Hf) as F2; cbn [facts_of fa_upgraded] in F2.
  pose proof (f_equal fa_connected Hf) as F3; cbn [facts_of fa_connected] in F3.
  pose proof (f_equal fa_notified Hf) as F4; cbn [facts_of fa_notified] in F4.
  pose proof (f_equal fa_delivered Hf) as F5; cbn [facts_of fa_delivered] in F5.
  pose proof (f_equal fa_channel Hf) as F6; cbn [facts_of fa_channel] in F6.
  pose proof (f_equal fa_told Hf) as F7; cbn [facts_of fa_told] in F7.
  pose proof (f_equal fa_hs_timer Hf) as F8; cbn [facts_of fa_hs_timer] in F8.
  pose proof (f_equal fa_check Hf) as F9; cbn [facts_of fa_check] in F9.
  pose proof (f_equal fa_opened Hf) as F10; cbn [facts_of fa_opened] in F10.
  pose proof (f_equal fa_answer Hf) as F11; cbn [facts_of fa_answer] in F11.
  pose proof (f_equal fa_called Hf) as F12; cbn [facts_of fa_called] in F12.
  pose proof (f_equal fa_opening Hf) as F13; cbn [facts_of fa_opening] in F13.
  pose proof (f_equal fa_request Hf) as F14; cbn [facts_of fa_request] in F14.
  pose proof (f_equal fa_sent Hf) as F15; cbn [facts_of fa_sent] in F15.
  destruct H as [O1 O2 O3 O4 O5 O6 O7 O8 O9 O10 O11 O12].
  split; unfold phase_fits, phase_now; rewrite ?F1, ?F2, ?F3, ?F4, ?F5, ?F6, ?F7, ?F8, ?F9, ?F10, ?F11, ?F12,
    ?F13, ?F15, ?Hp; try done.
  - intros Ho. destruct (O7 Ho) as (? & ? & R). injection F14 as G1 G2 G3 G4 G5.
    unfold request_built. rewrite G1, G2, G3, G4, G5. done.
  - rewrite Hl. intros Ho. apply Forall_app. auto.
  - rewrite Hl. apply Forall_app. split; (eapply Forall_impl; [eassumption|]); intros e; by apply event_ok_request.
Qed.

Lemma close_frames_app l k : close_frames (l ++ k) = close_frames l + close_frames k.
Proof. unfold close_frames. rewrite List.filter_app, zlen_app. done. Qed.

Lemma cext_log c e : api_event e -> cext c (c <| log_ ::= fun l => l ++ [e] |>).
Proof.
  intros He. destruct c. split; try done. exists [e]. split; [done|by repeat constructor].
Qed.

(** A member outside the invariant changes. *)
Lemma conn_ok_same c c' : facts_of c' = facts_of c -> log_ c' = log_ c -> conn_ok E c -> conn_ok E c'.
Proof.
  intros Hf Hl H. apply (conn_ok_log c c' []); try done; rewrite ?app_nil_r, ?Hl; try done; [|by constructor..].
  by apply (ok_close E).
Qed.

Lemma good_put_same id f :
  (forall c, facts_of (f c) = facts_of c /\ log_ (f c) = log_ c /\ cext c (f c)) -> good (put id f) id.
Proof.
  intros H. apply good_put. intros c Hc. destruct (H c) as (H1 & H2 & H3). split; [|done].
  by apply (conn_ok_same c).
Qed.

Lemma conn_ok_close c : conn_ok E c -> conn_ok E (c <| log_ ::= fun l => l ++ [EvChannelClose] |>).
Proof.
  intros Hc. apply (conn_ok_log c _ [EvChannelClose]); try done.
  - change (phase_of (log_ c ++ [EvChannelClose]) = phase_of (log_ c)). rewrite phase_of_snoc. by destruct (phase_of _).
  - by repeat constructor.
  - intros _. by repeat constructor.
  - change (close_frames (log_ c ++ [EvChannelClose]) <= if close_frame_sent_ (rq c) then 1 else 0).
    rewrite close_frames_app. pose proof (ok_close E c Hc). change (close_frames [EvChannelClose]) with 0. lia.
Qed.

Lemma chan_Close_good id : good (chan_Close id) id.
Proof. apply good_put. intros c Hc. split; [by apply conn_ok_close|by apply cext_log]. Qed.

Lemma CloseChannel_good id : good (CloseChannel id) id.
Proof.
  apply good_get. intros w c Hc. destruct (channel_ c); [by apply chan_Close_good|by apply good_ret].
Qed.

(** *** Sending frames *)

Definition sendable (op : Z) : Prop := op ∈ [WS_OP_TEXT; WS_OP_BINARY; WS_OP_CLOSE; WS_OP_PING; WS_OP_PONG].

Lemma sendable_op op : sendable op -> 0 <= op < 16 /\ op ∈ [WS_OP_CONTINUE; WS_OP_TEXT; WS_OP_BINARY; WS_OP_CLOSE; WS_OP_PING; WS_OP_PONG].
Proof.
  unfold sendable. intros H. split; [|by apply elem_of_cons; right].
  repeat (apply elem_of_cons in H as [-> | H]; [done|]). by apply not_elem_of_nil in H.
Qed.

(** A frame is added to the log: the connection is upgraded, and a close frame is the first. *)
Lemma conn_ok_frame c op payload bs :
  conn_ok E c -> frame_good (EvFrame op payload bs) -> upgraded_ c = true ->
  close_frames (log_ c) + (if op =? WS_OP_CLOSE then 1 else 0) <= (if close_frame_sent_ (rq c) then 1 else 0) ->
  conn_ok E (c <| log_ ::= fun l => l ++ [EvFrame op payload bs] |>).
Proof.
  intros Hc Hg Hu Hn. apply (conn_ok_log c _ [EvFrame op payload bs]); try done.
  - change (phase_of (log_ c ++ [EvFrame op payload bs]) = phase_of (log_ c)). rewrite phase_of_snoc.
    destruct (ok_phase E c Hc) as (p & -> & _ & Hp & _). cbn. destruct (Hp Hu). by destruct p.
  - by repeat constructor.
  - intros Ho. rewrite (ok_used E c Hc) in Ho by tauto. done.
  - change (close_frames (log_ c ++ [EvFrame op payload bs]) <= if close_frame_sent_ (rq c) then 1 else 0).
    rewrite close_frames_app.
    replace (close_frames [EvFrame op payload bs]) with (if op =? WS_OP_CLOSE then 1 else 0); [done|].
    unfold close_frames. cbn [List.filter is_close_frame]. by destruct (op =? WS_OP_CLOSE).
Qed.

(** What sending asks of the log when the frame is a close frame. *)
Definition may_send (op : Z) (c : conn) : Prop :=
  op = WS_OP_CLOSE -> close_frames (log_ c) = 0 /\ close_frame_sent_ (rq c) = true.

Lemma SendFrame_ok w id c op payload :
  conn_ok E c -> buffer_fit payload -> sendable op -> may_send op c ->
  WP (SendFrame E id op (Some payload)) (fun _ w' => exists w0 c', w' = foc w0 id c' /\ calm w w0 /\
     conn_ok E c' /\ cext c c') (foc w id c).
Proof.
  intros Hc (Hb & Hby & Hn) Hop Hm. unfold SendFrame. apply does_bind, does_get.
  assert (Hstay : exists w0 c', foc w id c = foc w0 id c' /\ calm w w0 /\ conn_ok E c' /\ cext c c')
    by (exists w, c; eauto with ws).
  destruct (upgraded_ c) eqn:Hu; cbn [negb]; [|by apply does_ret].
  destruct (control_opcode op && _) eqn:Hctl; [by apply does_ret|].
  apply does_bind, (does_ask K id). intros t1. apply does_bind, (does_ask K id). intros t2. cbv zeta.
  set (header := {| is_final := true |}). destruct (sendable_op op Hop) as [Hop1 Hop2].
  destruct (BuildFrame_bytes (rand_mask E t2) header payload Hb Hop1 Hn) as (fr & h' & -> & Hfr & Hcur).
  unfold SendRawFrame. apply does_bind, does_get.
  assert (Hw2 : calm w (ticked (ticked w))) by (eapply calm_then; apply calm_ticked).
  destruct (channel_ c) eqn:Hch; cbn [negb]; [|apply does_ret; exists (ticked (ticked w)), c; eauto with ws].
  unfold chan_Send. apply does_bind, does_bind, does_get. rewrite Hch. cbn [negb].
  apply does_bind, (does_ask K id). intros t3.
  assert (Hw3 : calm w (ticked (ticked (ticked w)))) by (eapply calm_then; [exact Hw2|apply calm_ticked]).
  destruct (chan_send E t3 =? BC_R_SUCCESS) eqn:Hr.
  2: { apply does_bind, does_ret, does_ret. rewrite Hr. apply does_bind, does_ret, does_ret.
       exists (ticked (ticked (ticked w))), c. eauto with ws. }
  apply does_bind, does_put. apply does_ret. rewrite Hr. apply does_bind, does_put, does_ret.
  eexists _, _. split; [reflexivity|]. split; [exact Hw3|].
  assert (Hun : unread fr = encode_frame (built_frame (rand_mask E t2) header payload)).
  { unfold unread. by rewrite Hcur, zdrop_0, Hfr. }
  assert (Hkey : exists key, f_key (built_frame (rand_mask E t2) header payload) = Some key /\ bytes_ok key /\ zlen key = 4).
  { cbn. destruct (zat _ 0 =? 0); eexists; (split; [reflexivity|]); [exact (mask_ok t2)|exact (mask_ok t1)]. }
  destruct Hkey as (key & Hk1 & Hk2 & Hk3).
  assert (Hlen : zlen (unread payload) = RemainingLength payload) by by apply zlen_unread.
  split.
  - apply (conn_ok_same (c <| log_ ::= fun l => l ++ [EvFrame op (unread payload) (unread fr)] |>));
      [done|done|]. apply conn_ok_frame; [done| |done|].
    + exists key. split_and!; try done.
      * rewrite Hun. f_equal. unfold built_frame in *. cbn in Hk1. injection Hk1 as Hk1. cbn. by rewrite Hk1.
      * by apply bytes_ok_zdrop.
      * intros Hco. rewrite Hco in Hctl. cbn [andb] in Hctl. unfold WS_MAX_CONTROL_PAYLOAD in *. lia.
    + pose proof (ok_close E c Hc). destruct (Z.eqb_spec op WS_OP_CLOSE) as [Ho|Ho]; [|lia].
      destruct (Hm Ho) as [-> ->]. done.
  - eapply cext_trans; [apply (cext_log c (EvFrame op (unread payload) (unread fr))); exact I|].
    destruct c. split; try done. exists []. by rewrite app_nil_r.
Qed.

Ltac is_sendable := unfold sendable; apply (bool_decide_unpack _); vm_compute; exact I.

Lemma SendFrame_good id op payload :
  buffer_fit payload -> sendable op -> op <> WS_OP_CLOSE -> good (SendFrame E id op (Some payload)) id.
Proof. intros Hp Ho Hn w c Hc. by apply SendFrame_ok. Qed.

Lemma fit_empty : buffer_fit empty_buffer.
Proof. split_and!; [by split|by constructor|done]. Qed.

Lemma fit_write bs : bytes_ok bs -> zlen bs < 2 ^ 32 -> buffer_fit (Write empty_buffer bs).
Proof.
  intros Hb Hl. unfold buffer_fit, buf_ok, Write, RemainingLength. cbn [b_data b_cur empty_buffer app].
  pose proof (zlen_nonneg bs). split_and!; [lia|lia|done|lia].
Qed.

Lemma fit_take bs : bytes_ok bs -> buffer_fit (Write empty_buffer (ztake (u32 (zlen bs)) bs)).
Proof.
  intros Hb. assert (Hw : 0 <= u32 (zlen bs) < 2 ^ 32) by (by apply (wrap_in_word 32)).
  apply fit_write; [by apply bytes_ok_ztake|]. unfold ztake. generalize dependent (u32 (zlen bs)). intros n Hn.
  unfold zlen. rewrite length_take. lia.
Qed.

Lemma SendText_good id text : bytes_ok text -> good (SendText E id text) id.
Proof.
  intros Hb. apply SendFrame_good; [|is_sendable|done].
  destruct (negb _); [by apply fit_take|apply fit_empty].
Qed.

Lemma SendData_good id data size : match data with Some bs => bytes_ok bs | None => True end ->
  good (SendData E id data size) id.
Proof.
  intros Hb. unfold SendData. destruct data as [bs|].
  - apply SendFrame_good; [|is_sendable|done]. destruct (0 <? zlen bs); [by apply fit_take|apply fit_empty].
  - destruct (0 <? size); [apply good_ret|]. apply SendFrame_good; [apply fit_empty|is_sendable|done].
Qed.

Lemma SendPacket_good id pkt : match pkt with Some b => buffer_fit b | None => True end ->
  good (SendPacket E id pkt) id.
Proof.
  intros Hb. destruct pkt as [b|]; [|apply good_ret]. apply SendFrame_good; [done|is_sendable|done].
Qed.

Lemma fit_u64 n : buffer_fit (WriteUInt64BE empty_buffer n).
Proof.
  unfold WriteUInt64BE. rewrite mem_swapBytes. apply fit_write; [apply be_bytes_ok|].
  rewrite zlen_be_bytes. done.
Qed.

Lemma fit_u16 n : buffer_fit (WriteUInt16BE empty_buffer n).
Proof.
  unfold WriteUInt16BE. rewrite mem_swapBytes. apply fit_write; [apply be_bytes_ok|].
  rewrite zlen_be_bytes. done.
Qed.

Lemma SendPing_good id : good (SendPing E id) id.
Proof.
  unfold SendPing. apply good_ask. intros t. cbv zeta. apply good_bind.
  - apply good_put_same. intros c. same_rest c.
  - intros _. apply SendFrame_good; [apply fit_u64|is_sendable|done].
Qed.

Lemma SendPong_good id payload n : match payload with Some bs => bytes_ok bs /\ zlen bs < 2 ^ 32 | None => True end ->
  good (SendPong E id payload n) id.
Proof.
  intros Hb. unfold SendPong. cbv zeta. apply good_bind; [|intros; apply good_ret].
  apply SendFrame_good; [|is_sendable|done].
  destruct payload as [bs|]; [|apply fit_empty]. destruct (0 <? n); [by apply fit_write; apply Hb|apply fit_empty].
Qed.

(** The flag goes up before the one close frame. *)
Lemma SendCloseFrame_good id code : good (SendCloseFrame E id code) id.
Proof.
  unfold SendCloseFrame. apply good_get. intros w c Hc. destruct (close_frame_sent_ (rq c)) eqn:Hs.
  { apply does_ret. exists w, c. eauto with ws. }
  pose proof (ok_close E c Hc) as Hcl. rewrite Hs in Hcl.
  assert (H0 : close_frames (log_ c) = 0) by (pose proof (zlen_nonneg (List.filter is_close_frame (log_ c))); unfold close_frames in *; lia).
  apply does_bind, does_put. set (c1 := c <| rq ::= _ |>).
  assert (Hc1 : conn_ok E c1).
  { destruct Hc as [O1 O2 O3 O4 O5 O6 O7 O8 O9 O10 O11 O12]. split; try done.
    change (close_frames (log_ c) <= 1). lia. }
  assert (Hx : cext c c1) by (destruct c; split; try done; exists []; by rewrite app_nil_r).
  apply does_bind, does_get. destruct (upgraded_ c1) eqn:Hu; cbn [negb].
  2: { apply does_ret. exists w, c1. eauto with ws. }
  apply does_bind. eapply does_mono; [apply SendFrame_ok; [exact Hc1|apply fit_u16|is_sendable|]|].
  - intros _. split; [exact H0|done].
  - intros a w' (w0 & c' & -> & Hw & Hc' & Hx'). apply does_ret. exists w0, c'. split_and!; [done..|].
    by eapply cext_trans.
Qed.

Lemma good_if {A} (b : bool) (m1 m2 : M A) id : good m1 id -> good m2 id -> good (if b then m1 else m2) id.
Proof. by destruct b. Qed.

Lemma good_read {A B} (f : conn -> A) (k : A -> M B) id : (forall a, good (k a) id) -> good (bind (get id f) k) id.
Proof. intros H. apply good_get. intros w c Hc. by apply H. Qed.

Lemma Close_good id result : good (Close E id result) id.
Proof.
  unfold Close. apply good_bind.
  { destruct (negb _); [|apply good_ret]. apply good_put_same. intros c.
    destruct c as [? ? ? [? ? ? ? ? ? ? ? ? ? result0 ? ? ? ?]]. cproj.
    destruct (result0 =? BC_R_SUCCESS); (split_and!; [done|done|split; try done; exists []; by rewrite app_nil_r]). }
  intros _. apply good_bind; [apply good_put_same; intros c; same_rest c|].
  intros _. apply good_read. intros up. apply good_bind; [|intros _; apply CloseChannel_good].
  destruct up; [apply SendCloseFrame_good|apply good_ret].
Qed.

Lemma SetRequestHeader_good id name value : good (SetRequestHeader id name value) id.
Proof.
  unfold SetRequestHeader. apply good_get. intros w c Hc.
  destruct (connect_called_ (rq c)) eqn:Hcc; [apply good_ret; done|].
  destruct (_ || _); [apply good_ret; done|].
  apply does_bind, does_put, does_ret. eexists w, _. split_and!; [done|apply calm_same| |].
  - assert (Ho : opened c = false).
    { destruct (opened c) eqn:Ho; [|done]. destruct (ok_opened E c Hc Ho) as [? _]. congruence. }
    pose proof (ok_unopened E c Hc Ho) as Hl.
    destruct Hc as [O1 O2 O3 O4 O5 O6 O7 O8 O9 O10 O11 O12]. split; try done.
    intros Ho'. exfalso. change (opened c = true) in Ho'. congruence.
  - destruct c. split; try done.
    + exists []. by rewrite app_nil_r.
    + cbn in *. congruence.
Qed.

(** *** From a connection to the world *)

Lemma parser_ok_ext c c' : cext c c' -> parser_ok c -> parser_ok c'.
Proof.
  intros H [Hs Hp]. split; [by rewrite (ext_field parser_ c c' H)|].
  intros Hf Hn. rewrite (ext_field parser_ c c' H) by done. apply Hp.
  - by rewrite <- (ext_field fail_result_ c c' H).
  - intros h e Hin. apply (Hn h e). destruct (ext_log _ _ H) as (l & -> & _). apply elem_of_app. by left.
Qed.

Lemma link_ext todo w id c c' : cext c c' -> link E todo w id c -> link E todo w id c'.
Proof.
  intros H [L1 L2 L3 L4]. split; [done| | |].
  - intros Hr Hcl Hin Ht. destruct (L2 Hr Hcl Hin Ht) as [Ho Hc]. split; [by apply (ext_opened _ _ H)|].
    rewrite (ext_field told_closed c c' H) by done. destruct Hc as [Hc|Hc]; [left|by right].
    destruct (ext_log _ _ H) as (l & -> & _). apply elem_of_app. by left.
  - rewrite (ext_field told_closed c c' H) by done. done.
  - rewrite (ext_field handler_ c c' H) by done. done.
Qed.

Definition link_view (w : world) := (next_conn_id_ w, w_closing w, conns w, removals w, abandoned w).

Lemma link_same todo w w' id c : link_view w' = link_view w -> link E todo w id c -> link E todo w' id c.
Proof.
  intros H [L1 L2 L3 L4]. injection H as H1 H2 H3 H4 H5. split; rewrite ?H1, ?H2, ?H3, ?H4, ?H5; done.
Qed.

Lemma link_view_foc w id c : link_view (foc w id c) = link_view w.
Proof. by destruct w. Qed.

Lemma link_view_calm w w0 : calm w w0 -> link_view w0 = link_view w.
Proof. intros H. apply (calm_field link_view w w0 H). by intros []. Qed.

Lemma winv_calm w w' : calm w w' -> winv w -> winv w'.
Proof.
  intros [H Ha Hf]. unfold still in H.
  destruct w as [o cs h cl cn ab fl ct nx cr cf rm cc lf tk], w' as [o' cs' h' cl' cn' ab' fl' ct' nx' cr' cf' rm' cc' lf' tk'].
  cbv [update objs conns w_handler w_closing w_closed_notified abandoned callbacks_in_flight counters next_conn_id_ created_
    w_config removals connector_closed lifetime tick] in H. injection H as -> -> -> -> -> -> -> -> -> -> -> -> ->.
  intros [W1 W2 W3 W4 W5 W6 W7 W8 W9 W10 W11]. split; try done.
  cbn in *. lia.
Qed.

Lemma winv_foc w id c c' : winv (foc w id c) -> winv (foc w id c').
Proof.
  intros [W1 W2 W3 W4 W5 W6 W7 W8 W9 W10 W11]. split; try done.
  intros i Hi. destruct (W2 i Hi) as [x Hx]. destruct (decide (id = i)) as [<-|Hne].
  - rewrite lookup_foc. eauto.
  - rewrite lookup_foc_ne in * by done. eauto.
Qed.

Lemma calm_foc w w0 id c : calm w w0 -> calm (foc w id c) (foc w0 id c).
Proof.
  intros [H Ha Hf]. split; [|done..].
  assert (Hs : forall x, still (foc x id c) = foc (still x) id c) by (by intros []).
  by rewrite !Hs, H.
Qed.

Lemma calm_objs w w0 : calm w w0 -> objs w0 = objs w.
Proof. intros H. by apply (calm_field objs w w0 H). Qed.

Lemma inv_but_foc todo w w0 id c c' :
  inv_but E todo (foc w id c) -> calm w w0 -> conn_ok E c' -> cext c c' -> inv_but E todo (foc w0 id c').
Proof.
  intros [Hw Hcs] Hcalm Hc Hx. split.
  - apply (winv_foc _ _ c). eapply winv_calm; [by apply calm_foc|done].
  - intros i x Hi. destruct (decide (id = i)) as [<-|Hne].
    + rewrite lookup_foc in Hi. injection Hi as <-. destruct (Hcs id c (lookup_foc _ _ _)) as (_ & Hp & Hl).
      split_and!; [done|by eapply parser_ok_ext|]. apply (link_ext _ _ _ c); [done|].
      eapply link_same; [|exact Hl]. by rewrite !link_view_foc, (link_view_calm _ _ Hcalm).
    + rewrite lookup_foc_ne in Hi by done. rewrite (calm_objs _ _ Hcalm) in Hi.
      destruct (Hcs i x) as (? & ? & Hl); [by rewrite lookup_foc_ne|]. split_and!; [done..|].
      eapply link_same; [|exact Hl]. by rewrite !link_view_foc, (link_view_calm _ _ Hcalm).
Qed.

(** The members of the connector that the relations mention. *)
Definition view (w : world) :=
  (w_closing w, conns w, abandoned w, w_handler w, created_ w, w_closed_notified w, callbacks_in_flight w,
   lifetime w, removals w).

Lemma view_calm w w0 id c c' : calm w w0 -> view (foc w0 id c') = view (foc w id c).
Proof.
  intros H. assert (Hf : forall x i y, view (foc x i y) = view x) by (by intros []).
  rewrite !Hf. apply (calm_field view w w0 H). by intros [].
Qed.

Lemma telling_view w w' : view w' = view w -> telling w -> telling w'.
Proof.
  intros H. injection H as H1 H2 H3 H4 H5 H6 H7 H8 H9. unfold telling. by rewrite H1, H2, H3, H4, H5, H6.
Qed.

Lemma aext_foc w w0 id c c' : calm w w0 -> cext c c' -> aext (foc w id c) (foc w0 id c').
Proof.
  intros H Hx. pose proof (calm_objs _ _ H) as Ho. pose proof (view_calm w w0 id c c' H) as Hv.
  injection Hv as H1 H2 H3 H4 H5 H6 H7 H8 H9. split; try assumption; try (intros X; by etrans; [|exact X]).
  - intros i x Hi. destruct (decide (id = i)) as [<-|Hne].
    + rewrite lookup_foc in Hi |- *. injection Hi as <-. by exists c'.
    + rewrite lookup_foc_ne in Hi |- * by done. rewrite Ho. exists x. split; [done|apply cext_refl].
  - intros i x Hi Hi'. destruct (decide (id = i)) as [<-|Hne].
    + rewrite lookup_foc in Hi. done.
    + rewrite lookup_foc_ne in Hi, Hi' by done. congruence.
Qed.

(** What the user's calls keep. *)
Definition kept (w w' : world) : Prop := inv E w' /\ aext w w'.

Lemma good_kept {A} (m : M A) id w c : good m id -> inv E w -> objs w !! id = Some c ->
  WP m (fun _ w' => kept w w') w.
Proof.
  intros Hm [Hi Ht] Hc. pose proof (foc_self w id c Hc) as Hs.
  destruct (inv_conn E [] _ Hi id c Hc) as (Hok & _ & _). specialize (Hm w c Hok). rewrite Hs in Hm.
  eapply does_mono; [exact Hm|]. intros a w' (w0 & c' & -> & Hcalm & Hok' & Hx). rewrite <- Hs in Hi, Ht.
  split.
  - split; [by eapply inv_but_foc|]. eapply telling_view; [by apply view_calm|done].
  - pose proof (aext_foc w w0 id c c' Hcalm Hx) as Ha. by rewrite Hs in Ha.
Qed.

(** *** The connector's own operations *)

Lemma each_ok {A} (f : A -> M unit) (I : world -> Prop) l w :
  (forall a v, a ∈ l -> I v -> WP (f a) (fun _ v' => I v') v) -> I w -> WP (each f l) (fun _ w' => I w') w.
Proof.
  intros Hf. revert w. induction l as [|a l IH]; intros w Hw; [by apply does_ret|].
  eapply does_call; [apply Hf; [by left|done]|]. intros [] w' Hw'. apply IH; [|done].
  intros b v Hb. apply Hf. by right.
Qed.

Definition dropped (id : Z) (w : world) : world := w <| conns ::= List.filter (fun i => negb (i =? id)) |>.

Lemma elem_dropped id i w : i ∈ conns (dropped id w) <-> i ∈ conns w /\ i <> id.
Proof.
  change (conns (dropped id w)) with (List.filter (fun i => negb (i =? id)) (conns w)).
  rewrite !list_elem_of_In, filter_In, negb_true_iff, Z.eqb_neq. done.
Qed.

Lemma filter_out (l : list Z) id : id ∉ l -> List.filter (fun i => negb (i =? id)) l = l.
Proof.
  induction l as [|x l IH]; intros Hn; [done|]. cbn. apply not_elem_of_cons in Hn as [Hx Hn].
  rewrite (proj2 (Z.eqb_neq x id)) by done. cbn. by rewrite IH.
Qed.

Lemma filter_nodup (l : list Z) id : NoDup l -> NoDup (List.filter (fun i => negb (i =? id)) l).
Proof. intros H. apply NoDup_ListNoDup, List.NoDup_filter, NoDup_ListNoDup. done. Qed.

Lemma filter_length (l : list Z) id : NoDup l -> id ∈ l -> zlen (List.filter (fun i => negb (i =? id)) l) = zlen l - 1.
Proof.
  induction 1 as [|x l Hx H IH]; intros Hin; [by apply not_elem_of_nil in Hin|]. cbn [List.filter].
  apply elem_of_cons in Hin as [->|Hin].
  - rewrite Z.eqb_refl. cbn [negb]. rewrite filter_out by done. rewrite zlen_cons. lia.
  - destruct (Z.eqb_spec x id) as [->|]; cbn [negb]; [done|]. rewrite !zlen_cons, IH by done. lia.
Qed.

(** A connection leaves the map and is counted as freed. *)
Lemma winv_dropped id w : id ∈ conns w -> winv w -> winv (bumped total_freed (dropped id w)).
Proof.
  intros Hid [W1 W2 W3 W4 W5 W6 W7 W8 W9 W10 W11].
  assert (Hne : conns w <> []) by (intros H0; rewrite H0 in Hid; by apply not_elem_of_nil in Hid).
  pose proof (filter_length _ id W1 Hid) as Hl.
  split; try done.
  - by apply filter_nodup.
  - intros i Hi. apply W2. by apply (elem_dropped id i w).
  - change (counters w total_allocated = counters w total_freed + 1 + zlen (conns (dropped id w))).
    change (conns (dropped id w)) with (List.filter (fun i => negb (i =? id)) (conns w)). lia.
  - intros Hn. by destruct (W5 Hn).
  - intros Hn. by destruct (W6 Hn).
  - intros Hd. destruct (W10 Hd) as [?|(_ & ? & _)]; [by left|done].
Qed.

Lemma link_dropped todo id w i c :
  link E (id :: todo) w i c \/ link E todo w i c -> link E todo (bumped total_freed (dropped id w)) i c.
Proof.
  intros H. assert (Hl : i <= next_conn_id_ w /\
     (no_races E -> w_closing w = true -> i ∈ conns w -> i ∉ id :: todo -> opened c = true /\ (EvChannelClose ∈ log_ c \/ told_closed c = true)) /\
     (told_closed c = true -> i ∈ conns w -> i ∈ removals w) /\ (abandoned w = true -> i ∈ conns w -> handler_ c = None)).
  { destruct H as [[L1 L2 L3 L4]|[L1 L2 L3 L4]]; split_and!; try done.
    intros ? ? ? Hn. apply L2; try done. intros ?. apply Hn. by right. }
  destruct Hl as (L1 & L2 & L3 & L4). split; [exact L1| | |].
  - intros Hr Hc Hi Hn. apply (elem_dropped id i w) in Hi as [Hi Hne]. apply L2; try done. by apply not_elem_of_cons.
  - intros Ht Hi. apply (elem_dropped id i w) in Hi as [Hi _]. by apply L3.
  - intros Ht Hi. apply (elem_dropped id i w) in Hi as [Hi _]. by apply L4.
Qed.

Lemma aext_view w w' : objs w' = objs w ->
  (abandoned w', w_handler w', callbacks_in_flight w', lifetime w', removals w') =
  (abandoned w, w_handler w, callbacks_in_flight w, lifetime w, removals w) ->
  (w_closing w = true -> w_closing w' = true) -> (w_closed_notified w = true -> w_closed_notified w' = true) ->
  aext w w'.
Proof.
  intros Ho Hv Hc Hn. injection Hv as H1 H2 H3 H4 H5. split; try done.
  - intros i c Hi. exists c. rewrite Ho. split; [done|apply cext_refl].
  - intros i c Hi Hi'. congruence.
Qed.

(** The rest of the connector's members. *)
Definition rest_view (w : world) := (w_closing w, abandoned w, w_handler w, created_ w, w_closed_notified w, lifetime w).

Lemma wp_get_at {A} id (f : conn -> A) Q w c : objs w !! id = Some c -> Q (f c) w -> WP (get id f) Q w.
Proof. intros Hc H. unfold wp, get. by rewrite Hc. Qed.

Lemma wp_put_at id f Q w c : objs w !! id = Some c -> Q tt (foc w id (f c)) -> WP (put id f) Q w.
Proof.
  intros Hc H. pose proof (does_put K id f Q w c H) as Hw. by rewrite (foc_self w id c Hc) in Hw.
Qed.

Lemma CancelLocked_ok id w c : objs w !! id = Some c -> conn_ok E c ->
  WP (CancelLocked id) (fun (dead : bool) w' =>
    if dead then w' = w
    else exists c', w' = foc w id c' /\ conn_ok E c' /\ cext c c' /\ channel_opened_ (rq c) = true /\
         (EvChannelClose ∈ log_ c' \/ told_closed c' = true)) w.
Proof.
  intros Hc Hok. unfold CancelLocked, CloseChannel. apply does_bind, (wp_get_at id _ _ w c Hc).
  destruct (channel_opened_ (rq c)) eqn:Ho; cbn [negb]; [|by apply does_ret].
  apply does_bind, does_bind, (wp_get_at id _ _ w c Hc). destruct (channel_ c) eqn:Hch.
  - unfold chan_Close, log. eapply wp_put_at; [exact Hc|]. apply does_ret.
    eexists. split; [reflexivity|]. split_and!; [by apply conn_ok_close|by apply cext_log|done|].
    left. change (EvChannelClose ∈ log_ c ++ [EvChannelClose]). apply elem_of_app. right. by left.
  - apply does_ret, does_ret. exists c. split_and!; [by rewrite foc_self|done|apply cext_refl|done|].
    right. pose proof (ok_channel E c Hok) as H. rewrite Hch in H. by destruct (told_closed c).
Qed.

(** A connection of the world is replaced. *)
Lemma inv_but_set todo todo' w id c c' :
  inv_but E todo w -> objs w !! id = Some c -> conn_ok E c' -> parser_ok c' -> link E todo' w id c' ->
  (forall i x, i <> id -> link E todo w i x -> link E todo' w i x) -> inv_but E todo' (foc w id c').
Proof.
  intros [Hw Hcs] Hc Hok Hp Hl Ho. split.
  - apply (winv_foc _ _ c). by rewrite foc_self.
  - intros i x Hi. destruct (decide (id = i)) as [<-|Hne].
    + rewrite lookup_foc in Hi. injection Hi as <-.
      split_and!; [done|done|]. eapply link_same; [|exact Hl]. apply link_view_foc.
    + rewrite lookup_foc_ne in Hi by done. destruct (Hcs i x Hi) as (? & ? & Hl'). split_and!; [done..|].
      eapply link_same; [apply link_view_foc|]. by apply Ho.
Qed.

Lemma aext_set w id c c' : objs w !! id = Some c -> cext c c' -> aext w (foc w id c').
Proof.
  intros Hc Hx. pose proof (aext_foc w w id c c' (calm_same w) Hx) as H. by rewrite (foc_self w id c Hc) in H.
Qed.

Lemma CancelAll_ok ids w :
  NoDup ids -> (forall i, i ∈ ids -> i ∈ conns w) -> inv_but E ids w ->
  WP (CancelAll ids) (fun _ w' => inv_but E [] w' /\ aext w w' /\ rest_view w' = rest_view w) w.
Proof.
  intros Hnd. revert w. induction Hnd as [|id ids Hid Hnd IH]; intros w Hsub Hi.
  { apply does_ret. split_and!; [done|apply aext_refl|done]. }
  assert (Hin : id ∈ conns w) by (apply Hsub; by left).
  destruct (wi_known w (inv_w E _ _ Hi) id Hin) as [c Hc].
  destruct (inv_conn E _ _ Hi id c Hc) as (Hok & Hp & Hl).
  assert (Hnext : forall w1, inv_but E ids w1 -> aext w w1 -> rest_view w1 = rest_view w ->
    (forall i, i ∈ ids -> i ∈ conns w1) ->
    WP (CancelAll ids) (fun _ w' => inv_but E [] w' /\ aext w w' /\ rest_view w' = rest_view w) w1).
  { intros w1 H1 H2 H3 H4. eapply does_mono; [by apply IH|].
    intros [] w' (X1 & X2 & X3). split_and!; [done|by eapply aext_trans|congruence]. }
  cbn [CancelAll]. eapply does_call; [by apply CancelLocked_ok|]. intros [|] w1 Hd; apply does_bind.
  - subst w1. apply does_bind. apply does_puts, does_puts.
    change (WP (CancelAll ids) (fun _ w' => inv_but E [] w' /\ aext w w' /\ rest_view w' = rest_view w)
      (bumped total_freed (dropped id w))). apply Hnext.
    + split; [by apply winv_dropped, Hi|]. intros i x Hx. destruct (inv_conn E _ _ Hi i x Hx) as (? & ? & ?).
      split_and!; [done..|]. apply link_dropped. by left.
    + by apply aext_view.
    + done.
    + intros i Hi'. apply (elem_dropped id i w). split; [apply Hsub; by right|]. by intros ->.
  - destruct Hd as (c' & -> & Hok' & Hx & Hop & Hend). apply does_ret. apply Hnext.
    + apply (inv_but_set (id :: ids) ids w id c c'); [done..|by eapply parser_ok_ext| |].
      * destruct (link_ext _ _ _ _ _ Hx Hl) as [L1 L2 L3 L4]. split; [done| |done|done].
        intros Hr _ _ _. split; [|done]. apply (ok_opening E c' Hok' Hr).
        destruct (opened c) eqn:Ho.
        -- by apply (ok_opened E c' Hok'), (ext_opened _ _ Hx).
        -- pose proof (ok_opening E c Hok Hr Hop). congruence.
      * intros i x Hne [L1 L2 L3 L4]. split; [done| |done|done]. intros Hr Hcl Hic Hni. apply L2; try done.
        apply not_elem_of_cons. done.
    + by eapply aext_set.
    + by destruct w.
    + intros i Hi'. replace (conns (foc w id c')) with (conns w) by (by destruct w). apply Hsub. by right.
Qed.

Definition entered (w : world) : world := w <| callbacks_in_flight ::= Z.succ |>.
Definition left_ (w : world) : world := w <| callbacks_in_flight ::= fun n => if 0 <? n then n - 1 else n |>.

Lemma inv_flight w w' : (forall n, w' <| callbacks_in_flight := n |> = w <| callbacks_in_flight := n |>) ->
  0 <= callbacks_in_flight w' -> inv E w -> inv E w'.
Proof.
  intros Hw Hn [[[W1 W2 W3 W4 W5 W6 W7 W8 W9 W10 W11] Hc] Ht]. specialize (Hw 0).
  destruct w as [o cs h cl cn ab fl ct nx cr cf rm cc lf tk], w' as [o' cs' h' cl' cn' ab' fl' ct' nx' cr' cf' rm' cc' lf' tk'].
  cbv [update objs conns w_handler w_closing w_closed_notified abandoned callbacks_in_flight counters next_conn_id_ created_
    w_config removals connector_closed lifetime tick] in Hw. injection Hw as -> -> -> -> -> -> -> -> -> -> -> -> -> ->.
  split; [split|].
  - split; done.
  - intros i c Hi. destruct (Hc i c Hi) as (? & ? & Hl). split_and!; [done..|]. by eapply link_same; [|exact Hl].
  - exact Ht.
Qed.

Lemma enter_inv w : inv E w -> inv E (entered w).
Proof.
  intros H. apply (inv_flight w); [by destruct w| |done].
  pose proof (wi_flight w (inv_w E _ _ (proj1 H))). change (0 <= Z.succ (callbacks_in_flight w)). lia.
Qed.

(** Leaving a callback puts the count back. *)
Lemma leave_kept w w' : inv E w -> kept (entered w) w' -> kept w (left_ w').
Proof.
  intros Hw [Hi [A1 A2 A3 A4 A5 A6 A7 A8 A9]]. pose proof (wi_flight w (inv_w E _ _ (proj1 Hw))) as Hn.
  assert (Hl : callbacks_in_flight (left_ w') = callbacks_in_flight w).
  { change (callbacks_in_flight (left_ w')) with
      (if 0 <? callbacks_in_flight w' then callbacks_in_flight w' - 1 else callbacks_in_flight w').
    rewrite A3. change (callbacks_in_flight (entered w)) with (Z.succ (callbacks_in_flight w)).
    destruct (Z.ltb_spec 0 (Z.succ (callbacks_in_flight w))); lia. }
  split.
  - apply (inv_flight w'); [by destruct w'|lia|done].
  - split; done.
Qed.

(** What the user does when told that the connector closed. *)
Definition closed_fine (on_closed : M unit) : Prop :=
  forall w, inv E w -> w_closed_notified w = true -> WP on_closed (fun _ w' => kept w w') w.

Definition notified_world (w : world) : world := w <| w_closed_notified := true |>.
Definition told_world (h : nat) (w : world) : world := w <| connector_closed ::= fun l => l ++ [h] |>.

Lemma inv_notified w : inv_but E [] w -> w_closing w = true -> conns w = [] -> inv E (notified_world w).
Proof.
  intros [[W1 W2 W3 W4 W5 W6 W7 W8 W9 W10 W11] Hc] Hcl Hcs. split; [split|].
  - split; try done.
    + change (zlen (connector_closed w) <= 1). destruct (w_closed_notified w); lia.
    + intros Hd. destruct (W10 Hd) as [?|(? & ? & [?|?])]; [by left|right; split_and!; auto..].
  - intros i c Hi. destruct (Hc i c Hi) as (? & ? & Hl). split_and!; [done..|]. by eapply link_same; [|exact Hl].
  - done.
Qed.

Lemma inv_told h w : inv E w -> connector_closed w = [] -> w_closed_notified w = true -> inv E (told_world h w).
Proof.
  intros [[[W1 W2 W3 W4 W5 W6 W7 W8 W9 W10 W11] Hc] Ht] H0 Hn. split; [split|].
  - split; try done. change (zlen (connector_closed w ++ [h]) <= if w_closed_notified w then 1 else 0).
    rewrite H0, Hn. done.
  - intros i c Hi. destruct (Hc i c Hi) as (? & ? & Hl). split_and!; [done..|]. by eapply link_same; [|exact Hl].
  - done.
Qed.

Lemma kept_refl w : inv E w -> kept w w.
Proof. intros H. split; [done|apply aext_refl]. Qed.

Lemma kept_trans w1 w2 w3 : kept w1 w2 -> kept w2 w3 -> kept w1 w3.
Proof. intros [_ H] [Hi G]. split; [done|by eapply aext_trans]. Qed.

(** The handler is told once, with everything in order. *)
Lemma tell_ok on_closed h w :
  closed_fine on_closed -> inv_but E [] w -> w_closing w = true -> conns w = [] -> w_closed_notified w = false ->
  WP (on_closed;; puts left_) (fun _ w' => kept w w') (told_world h (entered (notified_world w))).
Proof.
  intros Hf Hi Hcl Hcs Hn. pose proof (inv_notified w Hi Hcl Hcs) as H1.
  assert (H0 : connector_closed w = []).
  { pose proof (wi_told w (inv_w E _ _ Hi)) as H. rewrite Hn in H. apply zlen_0_nil.
    pose proof (zlen_nonneg (connector_closed w)). lia. }
  assert (H2 : inv E (told_world h (notified_world w))) by by apply inv_told.
  change (told_world h (entered (notified_world w))) with (entered (told_world h (notified_world w))).
  eapply does_call; [apply Hf; [by apply enter_inv|done]|]. intros [] w' Hk. apply does_puts.
  pose proof (leave_kept _ _ H2 Hk) as [Hi' Ha]. split; [done|].
  eapply aext_trans; [|exact Ha]. by apply aext_view.
Qed.

Lemma NotifyClosedIfDrained_ok on_closed w :
  w_closed_notified w = true \/ closed_fine on_closed -> inv_but E [] w -> w_closing w = true ->
  WP (NotifyClosedIfDrained on_closed) (fun _ w' => kept w w') w.
Proof.
  intros Hf Hi Hcl. unfold NotifyClosedIfDrained. apply does_bind, does_gets. rewrite Hcl. cbn [negb orb].
  destruct (abandoned w) eqn:Ha; [|destruct (w_closed_notified w) eqn:Hn; [|case_bool_decide as Hcs]]; cbn [negb orb].
  - apply does_ret. split; [|apply aext_refl]. split; [done|]. intros _ _ Hx. congruence.
  - apply does_ret. split; [|apply aext_refl]. split; [done|]. by intros _ _ _ _.
  - destruct Hf as [?|Hf]; [done|]. apply does_bind, does_puts, does_bind, does_gets.
    change (w_handler (w <| w_closed_notified := true |>)) with (w_handler w).
    destruct (w_handler w) as [h|].
    + apply does_bind, does_puts, does_bind, does_puts. by apply tell_ok.
    + apply does_ret. split; [by apply inv_notified|]. by apply aext_view.
  - apply does_ret. split; [|apply aext_refl]. split; [done|]. by intros _ Hx.
Qed.

Lemma ConnectorClose_ok on_closed w :
  w_closed_notified w = true \/ closed_fine on_closed -> inv E w ->
  WP (ConnectorClose on_closed) (fun _ w' => kept w w' /\ w_closing w' = true) w.
Proof.
  intros Hf [[Hw Hc] Ht]. unfold ConnectorClose. apply does_bind, does_puts, does_bind, does_gets.
  set (w1 := w <| w_closing := true |>). change (conns w1) with (conns w).
  assert (H1 : inv_but E (conns w) w1).
  { destruct Hw as [W1 W2 W3 W4 W5 W6 W7 W8 W9 W10 W11]. split; [split|]; try done.
    - intros Hn. by destruct (W5 Hn).
    - intros Hd. destruct (W10 Hd) as [?|(? & ? & ?)]; [by left|by right].
    - intros i c Hi. destruct (Hc i c Hi) as (? & ? & [L1 L2 L3 L4]). split_and!; [done..|].
      by split. }
  eapply does_call; [apply CancelAll_ok; [apply Hw|done|exact H1]|].
  intros [] w2 (Hi2 & Ha2 & Hr2). injection Hr2 as R1 R2 R3 R4 R5 R6.
  assert (Hcl2 : w_closing w2 = true) by by rewrite R1.
  eapply does_mono; [apply NotifyClosedIfDrained_ok; [|done|done]|].
  - destruct Hf as [Hf|Hf]; [left|by right]. by rewrite R5.
  - intros [] w3 [Hi3 Ha3]. split; [|by apply (ae_closing _ _ Ha3)].
    split; [done|]. eapply aext_trans; [|exact Ha3]. eapply aext_trans; [|exact Ha2]. by apply aext_view.
Qed.

(** *** [Connect] and [CreateConnection] *)

(** A connection whose channel was never opened may change its request. *)
Lemma conn_ok_unopened c c' : opened c = false -> conn_ok E c ->
  erase c' = erase c -> opened c' = false -> log_ c' = log_ c ->
  close_frame_sent_ (rq c') = close_frame_sent_ (rq c) ->
  (no_races E -> channel_opened_ (rq c') = false) -> conn_ok E c'.
Proof.
  intros Ho H He Ho' Hl Hs Hr. pose proof (ok_unopened E c H Ho) as Hq.
  assert (Hf : forall {A} (f : conn -> A), (forall x, f x = f (erase x)) -> f c' = f c).
  { intros A f Hf. by rewrite Hf, He, <- Hf. }
  destruct H as [O1 O2 O3 O4 O5 O6 O7 O8 O9 O10 O11 O12].
  split; unfold phase_fits, phase_now; rewrite ?Hl, ?Ho', ?Hs, ?(Hf _ handler_), ?(Hf _ upgraded_),
    ?(Hf _ connected_ok_), ?(Hf _ connect_notified_), ?(Hf _ delivered_), ?(Hf _ channel_), ?(Hf _ told_closed),
    ?(Hf _ hs_armed), ?(Hf _ check_armed), ?(Hf _ hs) by done; try done.
  - intros Hx. specialize (O6 Hx). congruence.
  - eapply Forall_impl; [exact Hq|]. by intros e ->.
  - intros Hn Hx. specialize (Hr Hn). congruence.
Qed.

Lemma cext_uncalled c c' : connect_called_ (rq c) = false -> opened c = false ->
  erase c' = erase c -> log_ c' = log_ c -> cext c c'.
Proof.
  intros Hc Ho He Hl. split; try done; try congruence. exists []. by rewrite app_nil_r, Hl.
Qed.

(** [Connect] ends: the change from before the race is made of the one it made and the others'. *)
Lemma cext_opened c0 c c' : connect_called_ (rq c0) = false -> cext c0 c ->
  erase c' = erase c -> (opened c = true -> opened c' = true) ->
  (exists l, log_ c' = log_ c ++ l /\ Forall api_event l) -> cext c0 c'.
Proof.
  intros Hc [H1 H3 (k & H4 & H4') H5] He Ho (l & Hl & Hl'). split.
  - congruence.
  - auto.
  - exists (k ++ l). rewrite Hl, H4, app_assoc. split; [done|by apply Forall_app].
  - congruence.
Qed.

Lemma aext_replace w w3 id c0 c3 c4 : aext w w3 -> objs w !! id = Some c0 -> objs w3 !! id = Some c3 ->
  cext c0 c4 -> aext w (foc w3 id c4).
Proof.
  intros [A1 A2 A3 A4 A5 A6 A7 A8 A9] H0 H3 Hx. split; try done.
  - intros i c Hi. destruct (decide (id = i)) as [<-|Hne].
    + rewrite lookup_foc. rewrite H0 in Hi. injection Hi as <-. by exists c4.
    + rewrite lookup_foc_ne by done. by apply A1.
  - intros i c Hi Hi'. destruct (decide (id = i)) as [<-|Hne]; [congruence|].
    rewrite lookup_foc_ne in Hi' by done. by eapply A2.
Qed.

Lemma aext_calm w w0 : calm w w0 -> aext w w0.
Proof.
  intros H. apply aext_view; [by apply calm_objs| | |].
  - apply (calm_field (fun x => (abandoned x, w_handler x, callbacks_in_flight x, lifetime x, removals x)) w w0 H).
    by intros [].
  - intros Hc. rewrite (calm_field w_closing w w0 H) by (by intros []). done.
  - intros Hc. rewrite (calm_field w_closed_notified w w0 H) by (by intros []). done.
Qed.

(** What is at stake when a connection without a channel is about to open it. *)
Record opening (w : world) (id : Z) (c0 c : conn) : Prop := {
  op_inv : inv E w;
  op_old : objs w !! id = Some c0;
  op_uncalled : connect_called_ (rq c0) = false;
  op_erase : erase c = erase c0;
  op_log : log_ c = log_ c0;
  op_closed : opened c = false;
  op_sent : close_frame_sent_ (rq c) = close_frame_sent_ (rq c0)
}.

Lemma opening_unopened w id c0 c : opening w id c0 c -> opened c0 = false /\ conn_ok E c0 /\ link E [] w id c0 /\ parser_ok c0.
Proof.
  intros [Hi Ho Hc _ _ _ _]. destruct (inv_conn E _ _ (proj1 Hi) id c0 Ho) as (Hok & Hp & Hl). split_and!; try done.
  destruct (opened c0) eqn:Hx; [|done]. destruct (ok_opened E c0 Hok Hx). congruence.
Qed.

Lemma opening_cext w id c0 c : opening w id c0 c -> cext c0 c.
Proof.
  intros H. destruct (opening_unopened _ _ _ _ H) as (Ho & _). destruct H. by apply cext_uncalled.
Qed.

Lemma opening_kept w w0 id c0 c : opening w id c0 c -> calm w w0 ->
  (no_races E -> channel_opened_ (rq c) = false) -> kept w (foc w0 id c).
Proof.
  intros H Hcalm Hr. destruct (opening_unopened _ _ _ _ H) as (Ho & Hok & Hl & Hp). pose proof (opening_cext _ _ _ _ H) as Hx.
  assert (Hokc : conn_ok E c) by (destruct H; by apply (conn_ok_unopened c0)).
  destruct H as [[Hi Ht] Hold _ _ _ _ _]. pose proof (foc_self w id c0 Hold) as Hs.
  split.
  - split.
    + eapply inv_but_foc; [rewrite Hs; exact Hi|done..].
    + eapply telling_view; [|exact Ht]. pose proof (view_calm w w0 id c0 c Hcalm) as Hv. by rewrite Hs in Hv.
  - pose proof (aext_foc w w0 id c0 c Hcalm Hx) as Ha. by rewrite Hs in Ha.
Qed.

Lemma kept_replace w w3 w4 id c0 cx c4 :
  kept w (foc w3 id cx) -> calm w3 w4 -> objs w !! id = Some c0 -> cext c0 c4 ->
  conn_ok E c4 -> parser_ok c4 -> link E [] w3 id c4 -> kept w (foc w4 id c4).
Proof.
  intros [[Hi Ht] Ha] Hcalm H0 Hx Hok Hp Hl.
  assert (Hi' : inv_but E [] (foc (foc w3 id cx) id c4)).
  { apply (inv_but_set [] [] _ id cx); try done; [apply lookup_foc|].
    eapply link_same; [apply link_view_foc|exact Hl]. }
  rewrite foc_foc in Hi'.
  split; [split|].
  - eapply inv_but_foc; [exact Hi'|done|done|apply cext_refl].
  - eapply telling_view; [|exact Ht]. by apply view_calm.
  - assert (Ha' : aext w (foc (foc w3 id cx) id c4)) by (by eapply aext_replace; [|exact H0|apply lookup_foc|]).
    rewrite foc_foc in Ha'. eapply aext_trans; [exact Ha'|]. apply aext_foc; [done|apply cext_refl].
Qed.

Definition unopen (c : conn) : conn := c <| rq ::= fun q => q <| channel_opened_ := false |> |>.

Lemma conn_ok_open c cfg : conn_ok E (unopen c) -> opened c = false ->
  connect_called_ (rq c) = true -> channel_opened_ (rq c) = true -> request_built (rq c) ->
  conn_ok E (c <| opened := true |> <| log_ ::= fun l => l ++ [EvOpen cfg] |>).
Proof.
  intros H Ho Hc Hch Hrb. pose proof (ok_unopened E _ H Ho) as Hq. change (log_ (unopen c)) with (log_ c) in Hq.
  destruct H as [O1 O2 O3 O4 O5 O6 O7 O8 O9 O10 O11 O12]. split; try done.
  - destruct O1 as (p & P1 & P2 & P3). exists p. split; [|done].
    change (phase_of (log_ c ++ [EvOpen cfg]) = Some p). rewrite phase_of_snoc.
    change (log_ (unopen c)) with (log_ c) in P1. by rewrite P1.
  - change (Forall (event_ok E (rq c)) (log_ c ++ [EvOpen cfg])). apply Forall_app. split; [|by repeat constructor].
    eapply Forall_impl; [exact Hq|]. by intros e ->.
  - change (close_frames (log_ c ++ [EvOpen cfg]) <= if close_frame_sent_ (rq c) then 1 else 0).
    rewrite close_frames_app. change (close_frames [EvOpen cfg]) with 0.
    change (close_frames (log_ c) <= if close_frame_sent_ (rq c) then 1 else 0) in O10. lia.
Qed.

Lemma link_conn todo w id c c' : opened c = false -> told_closed c' = told_closed c -> handler_ c' = handler_ c ->
  (no_races E -> w_closing w = true -> id ∈ conns w -> id ∉ todo -> opened c' = true /\ (EvChannelClose ∈ log_ c' \/ told_closed c' = true)) ->
  link E todo w id c -> link E todo w id c'.
Proof. intros Ho Ht Hh Hn [L1 L2 L3 L4]. split; rewrite ?Ht, ?Hh; try done. by rewrite <- Ht. Qed.

Lemma Connect_tail_ok w w3 id c0 c3 cfg :
  objs w !! id = Some c0 -> connect_called_ (rq c0) = false -> kept w (foc w3 id (unopen c3)) -> cext c0 c3 ->
  opened c3 = false -> connect_called_ (rq c3) = true -> channel_opened_ (rq c3) = true -> request_built (rq c3) ->
  (no_races E -> w_closing w3 = true -> id ∉ conns w3) ->
  WP (ch <- get id channel_;;
      if negb ch then fail NullChannel
      else
        r <- ask (fun n => chan_open E n cfg);;
        if negb (r =? BC_R_SUCCESS) then
          put_rq id (fun q => q <| channel_opened_ := false |> <| connect_called_ := false |>);;
          why <- ask (open_error E);;
          put id (fun c => c <| last_error_message_ := ChannelText why |>);;
          ret r
        else
          put id (fun c => c <| opened := true |>);;
          log id (EvOpen cfg);;
          closing <- gets w_closing;;
          (if closing : bool then CloseChannel id else ret tt);;
          ret BC_R_SUCCESS) (fun _ w' => kept w w') (foc w3 id c3).
Proof.
  intros H0 Hcc0 Hk Hx Ho Hcc Hch Hrb Hnr.
  destruct (inv_conn E _ _ (proj1 (proj1 Hk)) id _ (lookup_foc _ _ _)) as (Hok & Hp & Hl).
  assert (Hl3 : link E [] w3 id (unopen c3)) by (eapply link_same; [|exact Hl]; by rewrite link_view_foc).
  assert (Hchan : channel_ c3 = true).
  { pose proof (ok_channel E _ Hok) as H. change (channel_ c3 = negb (told_closed c3)) in H. rewrite H.
    destruct (told_closed c3) eqn:Ht; [|done]. pose proof (ok_told E _ Hok Ht) as Hd.
    pose proof (ok_used E _ Hok (or_introl Hd)) as Hop. change (opened c3 = true) in Hop. congruence. }
  apply does_bind, does_get. rewrite Hchan. cbn [negb]. apply does_bind, (does_ask K id). intros t1.
  destruct (chan_open E t1 cfg =? BC_R_SUCCESS); cbn [negb].
  - apply does_bind, does_put, does_bind, does_put, does_bind, does_gets.
    set (c4 := _ <| log_ ::= _ |>). assert (Hok4 : conn_ok E c4) by by apply conn_ok_open.
    assert (Hx4 : cext c0 c4).
    { eapply cext_opened; [done|exact Hx|done..|]. exists [EvOpen cfg]. split; [done|by repeat constructor]. }
    assert (Hend : forall w5 c5, calm w3 w5 -> conn_ok E c5 -> cext c4 c5 ->
        (w_closing w3 = true -> EvChannelClose ∈ log_ c5) -> kept w (foc w5 id c5)).
    { intros w5 c5 Hw5 Hok5 Hx5 He5.
      assert (Hp5 : parser_ok c5).
      { eapply parser_ok_ext; [exact Hx5|]. split; [apply Hp|]. intros Hf Hn. apply (proj2 Hp); [done|]. intros h e Hin. apply (Hn h e).
        change (OnException h e ∈ log_ c3 ++ [EvOpen cfg]). apply elem_of_app. by left. }
      eapply kept_replace; [exact Hk|done|exact H0|by eapply cext_trans|done|done|].
      eapply link_conn; [| | | |exact Hl3]; try done.
      - by rewrite (ext_field told_closed c4 c5 Hx5).
      - by rewrite (ext_field handler_ c4 c5 Hx5).
      - intros _ Hcl _ _. split; [by apply (ext_opened _ _ Hx5)|left; by apply He5]. }
    assert (Hcl : w_closing (foc (ticked w3) id c4) = w_closing w3) by by destruct w3.
    rewrite Hcl. destruct (w_closing w3) eqn:Hw3.
    + apply does_bind. unfold CloseChannel. apply does_bind, does_get.
      change (channel_ c4) with (channel_ c3). rewrite Hchan. apply does_put, does_ret.
      apply Hend; [apply calm_ticked|by apply conn_ok_close|by apply cext_log|].
      intros _. change (EvChannelClose ∈ log_ c4 ++ [EvChannelClose]). apply elem_of_app. right. by left.
    + apply does_bind, does_ret, does_ret. apply Hend; [apply calm_ticked|done|apply cext_refl|done].
  - apply does_bind, does_put, does_bind, (does_ask K id). intros t2. apply does_bind, does_put, does_ret.
    set (c4 := _ <| last_error_message_ := _ |>).
    eapply kept_replace; [exact Hk| |exact H0| | | |].
    + eapply calm_then; apply calm_ticked.
    + eapply cext_opened; [done|exact Hx|done..|]. exists []. split; [by rewrite app_nil_r|done].
    + by apply (conn_ok_unopened (unopen c3)).
    + exact Hp.
    + eapply link_conn; [| | | |exact Hl3]; try done. intros Hr Hcl Hin _. by destruct (Hnr Hr Hcl).
Qed.

Lemma Connect_open_ok on_closed w id c0 c cfg :
  w_closed_notified w = true \/ closed_fine on_closed -> opening w id c0 c ->
  connect_called_ (rq c) = true -> request_built (rq c) ->
  WP (Connect_open E on_closed id cfg) (fun _ w' => kept w w') (foc w id c).
Proof.
  intros Hf Hop Hcc Hrb. unfold Connect_open.
  apply does_bind. apply (does_ask K id). intros t. apply does_bind, does_put, does_bind, does_put.
  set (c1 := (c <| rq ::= _ |>) <| latest_net_action_ms_ := _ |>).
  assert (Hop1 : opening w id c0 c1) by (destruct Hop; by split).
  assert (Hopu : opening w id c0 (unopen c1)) by (destruct Hop; by split).
  apply does_bind, (does_ask K id). intros t2.
  set (w1 := ticked (ticked w)). assert (Hw1 : calm w w1) by (eapply calm_then; apply calm_ticked).
  pose proof (op_old _ _ _ _ Hop) as H0. pose proof (op_uncalled _ _ _ _ Hop) as Hu.
  assert (Hx1 : cext c0 c1) by by eapply opening_cext.
  destruct (closer_races E t2) eqn:Hrace.
  - (* another thread closes the connector *)
    assert (Hno : ~ no_races E) by (intros Hr; rewrite Hr in Hrace; done).
    assert (Hk1 : kept w (foc w1 id c1)) by (by apply (opening_kept w w1 id c0)).
    eapply does_call; [apply ConnectorClose_ok; [|apply Hk1]|].
    { destruct Hf as [Hf|Hf]; [left|by right]. by apply (ae_notified _ _ (proj2 Hk1)). }
    intros [] w2 [Hk2 _]. destruct (ae_old _ _ (proj2 Hk2) id c1 (lookup_foc _ _ _)) as (c3 & H3 & Hx3).
    destruct (ext_request _ _ Hx3 Hcc) as (Hr1 & Hr2 & Hr3 & Hr4).
    rewrite <- (foc_self w2 id c3 H3). eapply (Connect_tail_ok w w2 id c0 c3); try done.
    + pose proof (kept_trans _ _ _ Hk1 Hk2) as Hk. pose proof (proj1 (proj1 Hk)) as Hi.
      destruct (inv_conn E _ _ Hi id c3 H3) as (Hok3 & Hp3 & Hl3).
      assert (Ho3 : opened c3 = false) by (rewrite Hr4; apply Hop1).
      eapply (kept_replace w w2 w2 id c0 c3); [by rewrite foc_self|apply calm_same|done| | |exact Hp3|].
      * eapply cext_opened; [done|by eapply cext_trans|done..|]. exists []. split; [by rewrite app_nil_r|done].
      * by apply (conn_ok_unopened c3).
      * eapply link_conn; [| | | |exact Hl3]; done.
    + by eapply cext_trans.
    + rewrite Hr4. apply Hop1.
    + change (request_built (rq c3)). unfold request_built. injection Hr1 as -> -> -> -> ->. exact Hrb.
  - apply does_bind, does_ret. eapply (Connect_tail_ok w w1 id c0 c1); try done.
    + by apply (opening_kept w w1 id c0).
    + apply Hop1.
    + intros Hr Hcl Hin. destruct (opening_unopened _ _ _ _ Hop) as (Ho0 & _ & Hl & _).
      change (w_closing w = true) in Hcl. change (id ∈ conns w) in Hin. destruct (lk_closing E _ _ _ _ Hl Hr Hcl Hin) as [Ho _]; [by apply not_elem_of_nil|].
      congruence.
Qed.

Lemma Connect_ok on_closed in_log w id c url time_out :
  w_closed_notified w = true \/ closed_fine on_closed -> inv E w -> objs w !! id = Some c ->
  WP (Connect E on_closed in_log id url time_out) (fun _ w' => kept w w') w.
Proof.
  intros Hf Hi Hc. unfold Connect. apply does_bind, (wp_get_at id _ _ w c Hc).
  destruct (connect_called_ (rq c)) eqn:Hcc; [by apply does_ret, kept_refl|].
  assert (Hop0 : opening w id c c).
  { split; try done. destruct (opened c) eqn:Ho; [|done].
    destruct (inv_conn E _ _ (proj1 Hi) id c Hc) as (Hok & _). destruct (ok_opened E c Hok Ho). congruence. }
  assert (Hco : no_races E -> channel_opened_ (rq c) = false).
  { intros Hr. destruct (channel_opened_ (rq c)) eqn:Hx; [|done].
    destruct (inv_conn E _ _ (proj1 Hi) id c Hc) as (Hok & _). pose proof (ok_opening E c Hok Hr Hx).
    pose proof (op_closed _ _ _ _ Hop0). congruence. }
  apply does_bind, (wp_put_at id _ _ w c Hc). destruct in_log.
  { apply does_bind, does_put, does_ret. apply (opening_kept w w id c); [|apply calm_same|done]. destruct Hop0; by split. }
  destruct (WSParseUrl url) as [|parts] eqn:Hurl.
  { apply does_bind, does_put, does_ret. apply (opening_kept w w id c); [|apply calm_same|done]. destruct Hop0; by split. }
  apply does_bind, (does_ask K id). intros t. apply does_bind, does_get.
  destruct (BuildHandshakeRequest _ _ _) as [|text] eqn:Hb.
  { apply does_bind, does_put, does_ret. apply (opening_kept w _ id c); [|apply calm_ticked|done]. destruct Hop0; by split. }
  apply does_bind, does_put, does_bind, does_get.
  set (c1 := _ <| rq ::= _ |>).
  assert (Hop : opening w id c c1) by (destruct Hop0; by split).
  (* the clock ticked once *)
  assert (Hopt : opening (ticked w) id c c1).
  { destruct Hop. split; try done. by apply (opening_kept w (ticked w) id c c) in Hop0 as [Hk _];
      [rewrite (foc_self (ticked w)) in Hk by done|apply calm_ticked|]. }
  eapply does_mono; [apply (Connect_open_ok on_closed (ticked w) id c c1); try done|].
  intros a w' Hk. eapply kept_trans; [|exact Hk]. split; [apply Hopt|apply aext_calm, calm_ticked].
Qed.

Lemma new_parser_waiting max : ws_waiting (SetMaxFrameBytes new_WSParser max).
Proof.
  destruct (Z.ltb_spec 0 max) as [H|H]; [by apply new_waiting|].
  unfold SetMaxFrameBytes. rewrite (proj2 (Z.ltb_ge 0 max) H).
  change new_WSParser with (SetMaxFrameBytes new_WSParser WS_DEFAULT_MAX_FRAME_BYTES). by apply new_waiting.
Qed.

Lemma new_conn_ok cfg h : conn_ok E (new_conn cfg h) /\ parser_ok (new_conn cfg h) /\ settled (new_conn cfg h).
Proof.
  split_and!.
  - split; try done; cbn.
    + by exists PInit.
    + intros [?|[?|[?|?]]]; done.
    + split; try done. constructor.
  - split; [apply new_safe|]. intros _ _. apply new_parser_waiting.
  - split; [|done]. intros _ h0 e. apply not_elem_of_nil.
Qed.

Definition added (id : Z) (c : conn) (w : world) : world :=
  bumped total_allocated ((foc (w <| next_conn_id_ := id |>) id c) <| conns ::= fun l => l ++ [id] |>).

Lemma added_kept w c :
  inv E w -> w_closing w = false -> created_ w = true -> conn_ok E c -> parser_ok c -> settled c -> told_closed c = false ->
  kept w (added (next_conn_id_ w + 1) c w).
Proof.
  intros [[Hw Hcs] Ht] Hcl Hcr Hok Hp Hset Htold. set (id := next_conn_id_ w + 1).
  assert (Hfresh : objs w !! id = None).
  { destruct (objs w !! id) as [x|] eqn:Hx; [|done]. destruct (Hcs id x Hx) as (_ & _ & Hl).
    pose proof (lk_id E _ _ _ _ Hl). lia. }
  assert (Hnin : id ∉ conns w) by (intros Hin; destruct (wi_known w Hw id Hin); congruence).
  assert (Hab : abandoned w = false).
  { destruct (abandoned w) eqn:Ha; [|done]. destruct (wi_abandoned w Hw Ha) as [_ Hl]. rewrite (wi_life w Hw Hl) in Hcl. done. }
  assert (Hobj : objs (added id c w) = <[id := c]> (objs w)) by by destruct w.
  assert (Hcon : conns (added id c w) = conns w ++ [id]) by by destruct w.
  split; [split; [split|]|split].
  - destruct Hw as [W1 W2 W3 W4 W5 W6 W7 W8 W9 W10 W11]. split.
    + rewrite Hcon. apply NoDup_app. split_and!; [done| |apply NoDup_singleton].
      intros x Hx Hx'. apply list_elem_of_singleton in Hx'. by subst x.
    + rewrite Hcon, Hobj. intros i Hin. apply elem_of_app in Hin as [Hin|Hin].
      * destruct (W2 i Hin) as [x Hx]. destruct (decide (id = i)) as [<-|Hne]; [by rewrite lookup_insert_eq; eauto|].
        rewrite lookup_insert_ne by done. eauto.
      * apply list_elem_of_singleton in Hin as ->. rewrite lookup_insert_eq. eauto.
    + change (0 <= id). lia.
    + change (counters w total_allocated + 1 = counters w total_freed + zlen (conns (added id c w))).
      rewrite Hcon, zlen_app. change (zlen [id]) with 1. lia.
    + intros Hn. destruct (W5 Hn). congruence.
    + intros Hn. change (created_ w = false) in Hn. congruence.
    + exact W7.
    + exact W8.
    + exact W9.
    + intros Hd. assert (Hx : lifetime w <> Alive) by (change (lifetime w = Destroyed) in Hd; congruence).
      rewrite (W9 Hx) in Hcl. done.
    + exact W11.
  - rewrite Hobj. intros i x Hi. destruct (decide (id = i)) as [<-|Hne].
    + rewrite lookup_insert_eq in Hi. injection Hi as <-. split_and!; [done..|]. split.
      * change (id <= id). lia.
      * intros _ Hx. change (w_closing w = true) in Hx. congruence.
      * congruence.
      * intros Hx. change (abandoned w = true) in Hx. congruence.
    + rewrite lookup_insert_ne in Hi by done. destruct (Hcs i x Hi) as (? & ? & [L1 L2 L3 L4]). split_and!; [done..|].
      assert (Hin : i ∈ conns (added id c w) -> i ∈ conns w).
      { rewrite Hcon. intros Hin. apply elem_of_app in Hin as [?|Hin]; [done|]. apply list_elem_of_singleton in Hin. by subst i. }
      split.
      * change (i <= id). lia.
      * intros Hr Hc Hx. apply L2; [done|exact Hc|by apply Hin].
      * intros Hx Hx'. apply L3; [done|by apply Hin].
      * intros Hx Hx'. apply L4; [exact Hx|by apply Hin].
  - intros Hc. change (w_closing w = true) in Hc. congruence.
  - intros i x Hi. exists x. rewrite Hobj, lookup_insert_ne by congruence. split; [done|apply cext_refl].
  - rewrite Hobj. intros i x Hn Hi. destruct (decide (id = i)) as [<-|Hne].
    + rewrite lookup_insert_eq in Hi. by injection Hi as <-.
    + rewrite lookup_insert_ne in Hi by done. congruence.
  - by destruct w.
  - by destruct w.
  - by destruct w.
  - by destruct w.
  - by destruct w.
  - by destruct w.
  - by destruct w.
Qed.

Lemma CreateConnection_ok in_log cfg handler w : inv E w ->
  WP (CreateConnection in_log cfg handler) (fun _ w' => kept w w') w.
Proof.
  intros Hi. unfold CreateConnection. apply does_bind, does_gets.
  destruct (created_ w) eqn:Hcr, in_log, (w_closing w) eqn:Hcl; cbn [andb negb];
    try (apply does_ret; by apply kept_refl).
  apply does_bind, does_gets. cbv zeta. destruct (next_conn_id_ w + 1 <? 2 ^ 64); [|by apply does_bind, does_fail].
  apply does_bind, does_puts, does_bind, does_gets, does_bind, does_puts, does_bind, does_puts, does_bind, does_puts, does_ret.
  destruct (new_conn_ok (ConnConfig_Init cfg (conn_cfg (w_config w))) handler) as (H1 & H2 & H3).
  by apply added_kept.
Qed.

(** *** Any call of the user *)

Lemma call_api_ok on_closed a w :
  w_closed_notified w = true \/ closed_fine on_closed -> call_ok a -> inv E w ->
  WP (call_api E on_closed a) (fun _ w' => kept w w') w.
Proof.
  intros Hf Ha Hi.
  assert (Hconn : forall id (m : M unit),
    (forall c, objs w !! id = Some c -> WP m (fun _ w' => kept w w') w) ->
    WP (known <- gets (fun w => bool_decide (is_Some (objs w !! id)));; if known : bool then m else ret tt)
       (fun _ w' => kept w w') w).
  { intros id m Hm. apply does_bind, does_gets. case_bool_decide as Hk; [|by apply does_ret, kept_refl].
    destruct Hk as [c Hc]. by eapply Hm. }
  assert (Hunit : forall {A} (m : M A), WP m (fun _ w' => kept w w') w -> WP (m;; ret tt) (fun _ w' => kept w w') w).
  { intros A m Hm. eapply does_call; [exact Hm|]. intros x w' Hk. by apply does_ret. }
  assert (Hcon : forall (m : M unit), WP m (fun _ w' => kept w w') w ->
    WP (gone <- gets (fun w => match lifetime w with Destroyed => true | _ => false end);; if gone : bool then ret tt else m)
       (fun _ w' => kept w w') w).
  { intros m Hm. apply does_bind, does_gets. destruct (lifetime w); [done|done|by apply does_ret, kept_refl]. }
  destruct a; cbn [call_api call_ok] in *; try apply Hconn; try apply Hcon.
  - intros c Hc. by apply Hunit, (Connect_ok on_closed in_log w id c).
  - intros c Hc. eapply Hunit, good_kept; [apply SetRequestHeader_good|done|done].
  - intros c Hc. eapply Hunit, good_kept; [by apply SendText_good|done|done].
  - intros c Hc. eapply Hunit, good_kept; [by apply SendData_good|done|done].
  - intros c Hc. eapply Hunit, good_kept; [by apply SendPacket_good|done|done].
  - intros c Hc. eapply Hunit, good_kept; [apply SendPing_good|done|done].
  - intros c Hc. eapply good_kept; [apply Close_good|done|done].
  - by apply Hunit, CreateConnection_ok.
  - eapply does_mono; [by apply ConnectorClose_ok|]. by intros [] w' [Hk _].
Qed.

Lemma calls_kept on_closed l w :
  (forall a, a ∈ l -> call_ok a) -> w_closed_notified w = true \/ closed_fine on_closed -> inv E w ->
  WP (each (call_api E on_closed) l) (fun _ w' => kept w w') w.
Proof.
  intros Hl Hf Hi.
  apply (does_mono K _ (fun _ v => kept w v /\ (w_closed_notified v = true \/ closed_fine on_closed))).
  2: { by intros [] v [Hk _]. }
  apply (each_ok _ (fun v => kept w v /\ (w_closed_notified v = true \/ closed_fine on_closed)));
    [|split; [by apply kept_refl|done]].
  intros a v Ha [Hk Hfv]. eapply does_mono; [apply call_api_ok; [done|by apply Hl|apply Hk]|].
  intros [] v' Hk'. split; [by eapply kept_trans|]. destruct Hfv as [Hn|?]; [left|by right].
  by apply (ae_notified _ _ (proj2 Hk')).
Qed.

Lemma in_closed_fine : closed_fine (in_closed E).
Proof.
  intros w Hi Hn. unfold in_closed. apply does_bind, wp_ask_any. intros t.
  assert (Hk : kept w (ticked w)).
  { split; [|apply aext_calm, calm_ticked]. split; [split|].
    - eapply winv_calm; [apply calm_ticked|apply Hi].
    - intros i c Hc. destruct (inv_conn E _ _ (proj1 Hi) i c Hc) as (? & ? & Hl). split_and!; [done..|].
      by eapply link_same; [|exact Hl].
    - exact (proj2 Hi). }
  eapply does_mono; [apply calls_kept; [apply calls_ok|by left|apply Hk]|].
  intros [] w' Hk'. by eapply kept_trans.
Qed.

Lemma user_call_ok a w : call_ok a -> inv E w -> WP (user_call E a) (fun _ w' => kept w w') w.
Proof. intros Ha Hi. apply call_api_ok; [right; apply in_closed_fine|done|done]. Qed.

End Specs.

Arguments good E K {A} m id.
Arguments kept : clear implicits.
Arguments closed_fine : clear implicits.
Arguments opening : clear implicits.
