(* ===== verification/WSSteps.v ===== *)
(** * WSSteps: every step of the WebSocket connector keeps the invariant

    The callbacks of the channel and the tasks of the runtime, each from a world in which
    the connections are settled to another one. In between, [during] holds: the invariant
    of the whole world and the other connections settled; so the user can be called at any
    point. *)

From Stdlib Require Import ZArith Lia.
From stdpp Require Import base numbers option gmap list.
From S2P Require Import Prelude Results Utils VpnPolicy DnsMessage DnsResolver StreamParser Buffer WSParser HttpText TlsContext TcpChannel WSConnector WSRobust WSInvariant.

(** ** What the handler hears *)

Definition heard_event (e : event) : bool :=
  match e with
  | OnConnectResult _ _ _ | OnRecvText _ _ | OnRecvData _ _ _ | OnException _ _ | OnClosed _ _ => true
  | _ => false
  end.

Definition heard (c : conn) : list event := List.filter heard_event (log_ c).

(** What handler [h] is told of the parser's events. *)
Definition told_of (h : nat) (e : ws_event) : list event :=
  let '(OnRecvWSFrame f payload n) := e in
  if opcode f =? WS_OP_TEXT
  then [OnRecvText h (c_str (match payload with Some bs => if 0 <? n then bs else [] | None => [] end))]
  else if opcode f =? WS_OP_BINARY then [OnRecvData h payload n] else [].

Lemma heard_cext c c' : cext c c' -> heard c' = heard c.
Proof.
  intros H. destruct (ext_log _ _ H) as (l & Hl & Ha). unfold heard. rewrite Hl, List.filter_app.
  rewrite <- (app_nil_r (List.filter heard_event (log_ c))) at 2. f_equal. clear Hl.
  induction Ha as [|e l He _ IH]; [done|]. cbn. by destruct e.
Qed.

(** The connection after its handler, if it has one, was told. *)
Definition logged (e : nat -> event) (c : conn) : conn :=
  match handler_ c with Some h => c <| log_ ::= fun l => l ++ [e h] |> | None => c end.

Section Steps.
Context {E : env} {EO : EnvOk E} {K : crash -> Prop} {KW : MayWrap K}.
Abbreviation WP := (wp K).

(** ** Between the parts of a step *)

Record during (id : Z) (w : world) : Prop := {
  du_inv : inv E w;
  du_rest : forall i c, i <> id -> objs w !! i = Some c -> settled c;
  du_flight : callbacks_in_flight w = 0
}.

Definition at_ (id : Z) (P : conn -> Prop) (w : world) : Prop :=
  during id w /\ exists c, objs w !! id = Some c /\ P c.

(** What the user's calls cannot change. *)
Definition stable (P : conn -> Prop) : Prop := forall c c', cext c c' -> P c -> P c'.

Lemma stable_and P Q : stable P -> stable Q -> stable (fun c => P c /\ Q c).
Proof. intros HP HQ c c' Hx [? ?]. split; [by eapply HP|by eapply HQ]. Qed.

Lemma stable_settled : stable settled.
Proof. intros c c' Hx. by apply settled_ext. Qed.

Lemma stable_field {A} (f : conn -> A) (P : A -> Prop) : (forall x, f x = f (erase x)) -> stable (fun c => P (f c)).
Proof. intros Hf c c' Hx. by rewrite (ext_field f c c' Hx). Qed.

Lemma stable_heard l : stable (fun c => heard c = l).
Proof. intros c c' Hx. by rewrite (heard_cext _ _ Hx). Qed.

Lemma during_kept id w w' : during id w -> kept E w w' -> during id w'.
Proof.
  intros [Hi Hr Hf] [Hi' Ha]. split; [done| |by rewrite (ae_flight _ _ Ha)].
  intros i c' Hne Hc'. destruct (objs w !! i) as [c|] eqn:Hc.
  - destruct (ae_old _ _ Ha i c Hc) as (c2 & Hc2 & Hx). rewrite Hc' in Hc2. injection Hc2 as <-.
    eapply settled_ext; [exact Hx|]. by apply (Hr i).
  - by apply (ae_new _ _ Ha i).
Qed.

Lemma at_kept id P w w' : stable P -> at_ id P w -> kept E w w' -> at_ id P w'.
Proof.
  intros HP [Hd (c & Hc & Hp)] Hk. split; [by eapply during_kept|].
  destruct (ae_old _ _ (proj2 Hk) id c Hc) as (c' & Hc' & Hx). exists c'. split; [done|by eapply HP].
Qed.

(** What a connection must keep for its link to the connector. *)
Record linked (c c' : conn) : Prop := {
  li_handler : handler_ c' = handler_ c;
  li_told : told_closed c' = told_closed c;
  li_opened : opened c = true -> opened c' = true;
  li_close : EvChannelClose ∈ log_ c -> EvChannelClose ∈ log_ c'
}.

Lemma linked_link todo w id c c' : linked c c' -> link E todo w id c -> link E todo w id c'.
Proof.
  intros [H1 H2 H3 H4] [L1 L2 L3 L4]. split; rewrite ?H1, ?H2; try done.
  intros Hr Hcl Hin Hn. destruct (L2 Hr Hcl Hin Hn) as [? [?|?]]; auto.
Qed.

Lemma during_set id w w0 c c' :
  during id w -> objs w !! id = Some c -> calm w w0 -> conn_ok E c' -> parser_ok c' -> linked c c' ->
  during id (foc w0 id c').
Proof.
  intros [[Hi Ht] Hr Hf] Hc Hcalm Hok Hp Hl. pose proof (foc_self w id c Hc) as Hs.
  pose proof (view_calm w w0 id c c' Hcalm) as Hv. rewrite Hs in Hv.
  split; [split| |].
  - destruct (inv_conn E _ _ Hi id c Hc) as (_ & _ & Hlc).
    assert (H1 : inv_but E [] (foc w id c')) by (eapply inv_but_set; try done; by eapply linked_link).
    eapply inv_but_foc; [exact H1|done|done|apply cext_refl].
  - by eapply telling_view.
  - intros i x Hne Hx. rewrite lookup_foc_ne in Hx by done. rewrite (calm_objs _ _ Hcalm) in Hx. by apply (Hr i).
  - injection Hv as _ _ _ _ _ _ H7 _ _. by etrans; [exact H7|].
Qed.

Lemma at_set id P w w0 c c' :
  during id w -> objs w !! id = Some c -> calm w w0 -> conn_ok E c' -> parser_ok c' -> linked c c' -> P c' ->
  at_ id P (foc w0 id c').
Proof.
  intros Hd Hc Hcalm Hok Hp Hl HP. split; [by eapply during_set|]. exists c'. split; [apply lookup_foc|done].
Qed.

Lemma cext_linked c c' : cext c c' -> linked c c'.
Proof.
  intros H. split; [by apply (ext_field handler_ c c' H)|by apply (ext_field told_closed c c' H)|apply (ext_opened _ _ H)|].
  intros Hin. destruct (ext_log _ _ H) as (l & -> & _). apply elem_of_app. by left.
Qed.

(** An operation that leaves the rest alone. *)
Lemma at_good {A} (m : M A) id P w : good E K m id -> stable P -> at_ id P w -> WP m (fun _ w' => at_ id P w') w.
Proof.
  intros Hm HP Hat. pose proof Hat as [Hd (c & Hc & _)].
  eapply does_mono; [eapply good_kept; [exact Hm|apply Hd|exact Hc]|]. intros a w' Hk. by eapply at_kept.
Qed.

Lemma kept_ticked w : inv E w -> kept E w (ticked w).
Proof.
  intros Hi. split; [|apply aext_calm, calm_ticked]. split; [split|].
  - eapply winv_calm; [apply calm_ticked|apply Hi].
  - intros i c Hc. destruct (inv_conn E _ _ (proj1 Hi) i c Hc) as (? & ? & Hl). split_and!; [done..|].
    by eapply link_same; [|exact Hl].
  - exact (proj2 Hi).
Qed.

(** A callback of a connection's handler: the log gets its event, then the user may do
    anything. *)
Lemma notify_kept id e w c :
  inv E (foc w id (logged e c)) -> WP (notify E id e) (fun _ w' => kept E (foc w id (logged e c)) w') (foc w id c).
Proof.
  unfold notify, logged. intros Hi. apply does_bind, does_get. destruct (handler_ c) as [h|]; [|by apply does_ret, kept_refl].
  set (c1 := c <| log_ ::= _ |>) in *. apply does_bind, does_puts.
  change ((foc w id c) <| callbacks_in_flight ::= Z.succ |>) with (foc (entered w) id c).
  apply does_bind, does_put. fold c1. change (foc (entered w) id c1) with (entered (foc w id c1)).
  apply does_bind, wp_ask_any. intros t. pose proof (enter_inv _ Hi) as Hi1.
  eapply does_call; [apply (calls_kept (in_closed E)); [apply calls_ok|right; apply in_closed_fine|by apply kept_ticked]|].
  intros [] w' Hk. apply does_puts. apply leave_kept; [done|]. eapply kept_trans; [by apply kept_ticked|done].
Qed.

Lemma notify_at id e w c P :
  stable P -> at_ id P (foc w id (logged e c)) -> WP (notify E id e) (fun _ w' => at_ id P w') (foc w id c).
Proof.
  intros HP Hat. eapply does_mono; [apply notify_kept, Hat|]. intros [] w' Hk. by eapply at_kept.
Qed.

(** ** Frames *)

Lemma conn_ok_heard c e :
  conn_ok E c -> upgraded_ c = true -> delivered_ c = false ->
  (forall h, advance PConnected (e h) = Some PConnected) -> (forall h, event_ok E (rq c) (e h)) ->
  (forall h, is_close_frame (e h) = false) -> conn_ok E (logged e c).
Proof.
  intros Hc Hu Hd Ha He Hf. unfold logged. destruct (handler_ c) as [h|] eqn:Hh; [|done].
  apply (conn_ok_log c _ [e h]); try done.
  - change (phase_of (log_ c ++ [e h]) = phase_of (log_ c)). rewrite phase_of_snoc.
    destruct (ok_phase E c Hc) as (p & Hp & Hn & _). rewrite Hp. cbn.
    assert (Hpc : p = PConnected).
    { rewrite Hn by congruence. unfold phase_now. by rewrite Hd, <- (ok_upgraded E c Hc), Hu. }
    by rewrite Hpc, Ha.
  - by repeat constructor.
  - intros Ho. rewrite (ok_used E c Hc) in Ho by tauto. done.
  - change (close_frames (log_ c ++ [e h]) <= if close_frame_sent_ (rq c) then 1 else 0).
    rewrite close_frames_app. unfold close_frames at 2. cbn. rewrite Hf. pose proof (ok_close E c Hc).
    change (zlen (@nil event)) with 0. lia.
Qed.

Lemma parser_ok_same c c' : parser_ c' = parser_ c -> fail_result_ c' = fail_result_ c ->
  (forall h e, OnException h e ∈ log_ c -> OnException h e ∈ log_ c') -> parser_ok c -> parser_ok c'.
Proof.
  intros Hp Hf Hl [Hs H]. split; [by rewrite Hp|]. intros Hf' Hn. rewrite Hp. apply H; [congruence|]. intros h e Hin. by apply (Hn h e), Hl.
Qed.

Lemma parser_ok_logged c e : parser_ok c -> parser_ok (logged e c).
Proof.
  unfold logged. destruct (handler_ c); [|done]. apply parser_ok_same; [done..|]. intros h' e' Hin.
  apply elem_of_app. by left.
Qed.

Lemma linked_logged c e : linked c (logged e c).
Proof.
  unfold logged. destruct (handler_ c); [|by split]. split; [done..|]. intros Hin. apply elem_of_app. by left.
Qed.

Lemma linked_trans c1 c2 c3 : linked c1 c2 -> linked c2 c3 -> linked c1 c3.
Proof. intros [] []. split; [congruence|congruence|auto|auto]. Qed.

(** A connection whose frames are being parsed. *)
Record talk (p : WSParser) (h : option nat) (f : BCRESULT) (l : list event) (c : conn) : Prop := {
  tk_settled : settled c;
  tk_told : told_closed c = false;
  tk_upgraded : upgraded_ c = true;
  tk_parser : parser_ c = p;
  tk_handler : handler_ c = h;
  tk_fail : fail_result_ c = f;
  tk_heard : heard c = l
}.

Lemma stable_talk p h f l : stable (talk p h f l).
Proof.
  intros c c' Hx [T1 T2 T3 T4 T5 T6 T7]. split.
  - by eapply settled_ext.
  - by rewrite (ext_field told_closed c c' Hx).
  - by rewrite (ext_field upgraded_ c c' Hx).
  - by rewrite (ext_field parser_ c c' Hx).
  - by rewrite (ext_field handler_ c c' Hx).
  - by rewrite (ext_field fail_result_ c c' Hx).
  - by rewrite (heard_cext c c' Hx).
Qed.

Definition told (h : option nat) (e : ws_event) : list event := match h with Some h => told_of h e | None => [] end.

(** What one handler call does to [talk]. *)
Lemma talk_logged p h f l c e :
  talk p h f l c -> (forall u, heard_event (e u) = true) -> (forall u x y, e u <> OnException x y) ->
  talk p h f (l ++ match h with Some u => [e u] | None => [] end) (logged e c).
Proof.
  intros [[T1 T1'] T2 T3 T4 T5 T6 T7] He Hx. unfold logged. rewrite T5. destruct h as [u|]; [|by rewrite app_nil_r].
  split; try done.
  - split; [|done]. intros Hf x y Hin. apply elem_of_app in Hin as [Hin|Hin]; [by eapply T1|].
    apply list_elem_of_singleton in Hin. by eapply Hx.
  - change (List.filter heard_event (log_ c ++ [e u]) = l ++ [e u]). rewrite List.filter_app. cbn. rewrite He.
    by rewrite <- T7.
Qed.

Lemma talk_delivered p h f l c : talk p h f l c -> delivered_ c = false.
Proof. intros [[_ T1] T2 _ _ _ _ _]. congruence. Qed.

(** Telling the handler of a frame. *)
Lemma notify_talk id e w c p h f l :
  during id w -> (exists c0, objs w !! id = Some c0 /\ linked c0 c) -> conn_ok E c -> parser_ok c -> talk p h f l c ->
  (forall u, advance PConnected (e u) = Some PConnected /\ is_close_frame (e u) = false /\ heard_event (e u) = true) ->
  (forall u, event_ok E (rq c) (e u)) -> (forall u x y, e u <> OnException x y) ->
  WP (notify E id e) (fun _ w' => at_ id (talk p h f (l ++ match h with Some u => [e u] | None => [] end)) w') (foc w id c).
Proof.
  intros Hd (c0 & Hc0 & Hl) Hok Hp Ht He Hev Hx. apply notify_at; [apply stable_talk|].
  eapply at_set; [done|done|apply calm_same| | | |].
  - apply conn_ok_heard; try done; [apply Ht|by eapply talk_delivered|..]; intros u; apply He.
  - by apply parser_ok_logged.
  - eapply linked_trans; [done|apply linked_logged].
  - apply talk_logged; [done|apply He|done].
Qed.

(** A put that the invariant of the connection does not see. *)
Lemma put_same id f w P :
  (forall c, facts_of (f c) = facts_of c /\ log_ (f c) = log_ c /\ cext c (f c)) -> stable P -> at_ id P w ->
  WP (put id f) (fun _ w' => at_ id P w') w.
Proof. intros Hf. by apply at_good, good_put_same. Qed.

Lemma OnRecvWSFrame_ok id ev p h f l w :
  event_safe (2 ^ 32 - 1) ev -> at_ id (talk p h f l) w ->
  WP (OnRecvWSFrame_run E id ev) (fun _ w' => at_ id (talk p h f (l ++ told h ev)) w') w.
Proof.
  destruct ev as [fr payload n]. cbn [event_safe]. intros [Hb Hn] Hat.
  pose proof Hat as [Hd (c & Hc & Ht)]. destruct (inv_conn E _ _ (proj1 (du_inv _ _ Hd)) id c Hc) as (Hok & Hp & _).
  assert (Hsame : forall f', (forall c, facts_of (f' c) = facts_of c /\ log_ (f' c) = log_ c /\ cext c (f' c)) -> good E K (put id f') id)
    by apply good_put_same.
  assert (Hnone : opcode fr <> WS_OP_TEXT -> opcode fr <> WS_OP_BINARY -> told h (OnRecvWSFrame fr payload n) = []).
  { intros H1 H2. destruct h as [u|]; [|done]. cbn. by rewrite (proj2 (Z.eqb_neq _ _) H1), (proj2 (Z.eqb_neq _ _) H2). }
  unfold OnRecvWSFrame_run. apply does_bind. eapply wp_put_at; [exact Hc|]. set (c1 := c <| total_recv_frames_ ::= _ |>).
  assert (Hx1 : cext c c1) by (destruct c; split; try done; exists []; by rewrite app_nil_r).
  assert (Hok1 : conn_ok E c1) by by apply (conn_ok_same c).
  assert (Hp1 : parser_ok c1) by by eapply parser_ok_ext.
  assert (Ht1 : talk p h f l c1) by by eapply stable_talk.
  assert (Hat1 : at_ id (talk p h f l) (foc w id c1)).
  { eapply at_set; [done|done|apply calm_same|done|done|by apply cext_linked|done]. }
  assert (Hlc : exists c0, objs w !! id = Some c0 /\ linked c0 c1) by (exists c; split; [done|by apply cext_linked]).
  assert (Hquiet : forall m : M unit, opcode fr <> WS_OP_TEXT -> opcode fr <> WS_OP_BINARY -> good E K m id ->
    WP m (fun _ w' => at_ id (talk p h f (l ++ told h (OnRecvWSFrame fr payload n))) w') (foc w id c1)).
  { intros m H1 H2 Hm. rewrite Hnone, app_nil_r by done. apply at_good; [done|apply stable_talk|done]. }
  destruct (Z.eqb_spec (opcode fr) WS_OP_TEXT) as [Htx|Htx].
  { eapply does_mono; [by eapply (notify_talk id _ w c1 p h f l)|]. intros [] w' Hw'.
    cbn [told told_of]. destruct h as [u|]; [|done]. cbn [told told_of]. by rewrite (proj2 (Z.eqb_eq _ _) Htx). }
  destruct (Z.eqb_spec (opcode fr) WS_OP_BINARY) as [Hbi|Hbi].
  { eapply does_mono; [by eapply (notify_talk id _ w c1 p h f l)|]. intros [] w' Hw'.
    cbn [told told_of]. destruct h as [u|]; [|done]. cbn [told told_of].
    by rewrite (proj2 (Z.eqb_neq _ _) Htx), (proj2 (Z.eqb_eq _ _) Hbi). }
  destruct (opcode fr =? WS_OP_PING); [apply Hquiet; [done..|apply SendPong_good]|].
  { destruct payload as [bs|]; [|done]. split; [done|]. change (zlen bs <= 2 ^ 32 - 1) in Hn. lia. }
  destruct (opcode fr =? WS_OP_PONG).
  { apply Hquiet; [done..|]. apply Hsame. intros [? ? ? [? ? ? ? ? ? ? ? ? ? ? ? ping ? ?]]. cproj.
    destruct (ping =? 0); (split_and!; [done|done|split; try done; exists []; by rewrite app_nil_r]). }
  destruct (opcode fr =? WS_OP_CLOSE).
  - cbv zeta. apply Hquiet; [done..|]. apply good_bind; [apply Hsame; intros x; same_rest x|].
    intros _. apply good_bind; [apply SendCloseFrame_good|]. intros _. apply CloseChannel_good.
  - apply does_ret. by rewrite Hnone, app_nil_r.
Qed.

Lemma frames_run id evs p h f l w :
  Forall (event_safe (2 ^ 32 - 1)) evs -> at_ id (talk p h f l) w ->
  WP (each (OnRecvWSFrame_run E id) evs) (fun _ w' => at_ id (talk p h f (l ++ concat (map (told h) evs))) w') w.
Proof.
  intros Hb. revert l w. induction Hb as [|ev evs Hev _ IH]; intros l w Hat.
  { apply does_ret. cbn. by rewrite app_nil_r. }
  cbn [each map concat]. eapply does_call; [by apply OnRecvWSFrame_ok|].
  intros [] w' Hat'. rewrite app_assoc. by apply IH.
Qed.

(** ** Failing *)

(** What [_Fail] does to a connection: the first failure is kept, and the channel closed. *)
Record failed (r : BCRESULT) (c c' : conn) : Prop := {
  fl_facts : facts_of c' = facts_of c;
  fl_parser : parser_ c' = parser_ c;
  fl_result : fail_result_ c' = (if fail_result_ c =? BC_R_SUCCESS then r else fail_result_ c);
  fl_log : log_ c' = log_ c ++ (if channel_ c then [EvChannelClose] else [])
}.

Lemma Fail_foc id r msg w c Q :
  (forall c', failed r c c' -> Q tt (foc w id c')) -> WP (Fail id r msg) Q (foc w id c).
Proof.
  intros HQ. unfold Fail, CloseChannel, chan_Close, log. apply does_bind, does_get.
  assert (Hend : forall c1, channel_ c1 = channel_ c -> facts_of c1 = facts_of c -> parser_ c1 = parser_ c ->
    fail_result_ c1 = (if fail_result_ c =? BC_R_SUCCESS then r else fail_result_ c) -> log_ c1 = log_ c ->
    WP (ch <- get id channel_;; if ch : bool then put id (fun c => c <| log_ ::= fun l => l ++ [EvChannelClose] |>) else ret tt)
       Q (foc w id c1)).
  { intros c1 Hch Hfa Hpa Hfr Hlo. apply does_bind, does_get. rewrite Hch. destruct (channel_ c) eqn:Hcc.
    - apply does_put, HQ. split; [done..|]. rewrite Hcc. change (log_ c1 ++ [EvChannelClose] = log_ c ++ [EvChannelClose]).
      by rewrite Hlo.
    - apply does_ret, HQ. split; [done..|]. by rewrite Hcc, app_nil_r. }
  destruct (fail_result_ c =? BC_R_SUCCESS) eqn:Hf.
  - apply does_bind, does_put. by apply Hend.
  - apply does_bind, does_ret. by apply Hend.
Qed.

Lemma failed_ok r c c' : failed r c c' -> conn_ok E c -> conn_ok E c'.
Proof.
  intros [F1 F2 F3 F4] Hok. apply (conn_ok_log c c' _ F1 F4); try done.
  - rewrite F4. destruct (channel_ c); [|by rewrite app_nil_r]. rewrite phase_of_snoc. by destruct (phase_of _).
  - destruct (channel_ c); by repeat constructor.
  - intros _. destruct (channel_ c); by repeat constructor.
  - rewrite F4, close_frames_app. pose proof (ok_close E c Hok).
    replace (close_frames (if channel_ c then [EvChannelClose] else [])) with 0 by (by destruct (channel_ c)). lia.
Qed.

Lemma failed_result r c c' : failed r c c' -> r <> BC_R_SUCCESS -> fail_result_ c' <> BC_R_SUCCESS.
Proof. intros H Hr. rewrite (fl_result _ _ _ H). destruct (Z.eqb_spec (fail_result_ c) BC_R_SUCCESS); done. Qed.

Lemma failed_parser r c c' : failed r c c' -> r <> BC_R_SUCCESS -> ws_safe (parser_ c) -> parser_ok c'.
Proof. intros H Hr Hs. split; [by rewrite (fl_parser _ _ _ H)|]. intros Hf. by destruct (failed_result _ _ _ H Hr). Qed.

Lemma failed_linked r c c' : failed r c c' -> linked c c'.
Proof.
  intros [F1 F2 F3 F4]. pose proof (f_equal fa_handler F1). pose proof (f_equal fa_told F1). pose proof (f_equal fa_opened F1) as Ho.
  cbn [facts_of fa_opened] in Ho. split; [done|done|by rewrite Ho|]. intros Hin. rewrite F4. apply elem_of_app. by left.
Qed.

Lemma failed_settled r c c' : failed r c c' -> r <> BC_R_SUCCESS -> delivered_ c = told_closed c -> settled c'.
Proof.
  intros H Hr Hd. split; [intros Hf; by destruct (failed_result _ _ _ H Hr)|].
  pose proof (f_equal fa_delivered (fl_facts _ _ _ H)) as H1. pose proof (f_equal fa_told (fl_facts _ _ _ H)) as H2.
  cbn [facts_of fa_delivered fa_told] in H1, H2. congruence.
Qed.

Lemma failed_heard r c c' : failed r c c' -> heard c' = heard c.
Proof.
  intros H. unfold heard. rewrite (fl_log _ _ _ H), List.filter_app.
  replace (List.filter heard_event (if channel_ c then [EvChannelClose] else [])) with (@nil event) by (by destruct (channel_ c)).
  apply app_nil_r.
Qed.

(** What ends a step with [_Fail], from a world where the parser may have thrown. *)
Record ended (h : option nat) (l : list event) (c : conn) : Prop := {
  en_settled : settled c;
  en_told : told_closed c = false;
  en_handler : handler_ c = h;
  en_fail : fail_result_ c <> BC_R_SUCCESS;
  en_heard : heard c = l
}.

Lemma Fail_at id r msg w w0 c0 c :
  during id w -> objs w !! id = Some c0 -> calm w w0 -> linked c0 c -> conn_ok E c -> ws_safe (parser_ c) ->
  delivered_ c = false -> told_closed c = false -> r <> BC_R_SUCCESS ->
  WP (Fail id r msg) (fun _ w' => at_ id (ended (handler_ c) (heard c)) w') (foc w0 id c).
Proof.
  intros Hd H0 Hcalm Hl Hok Hs Hde Hto Hr. apply Fail_foc. intros c' Hf.
  eapply at_set; [exact Hd|exact H0|done|by eapply failed_ok|by eapply failed_parser| |].
  - eapply linked_trans; [done|by eapply failed_linked].
  - pose proof (failed_linked _ _ _ Hf) as [L1 L2 _ _]. split; [|congruence|done|by eapply failed_result|by eapply failed_heard].
    eapply failed_settled; [done|done|congruence].
Qed.

Lemma close_fail_at id code r msg w w0 c0 c :
  during id w -> objs w !! id = Some c0 -> calm w w0 -> linked c0 c -> conn_ok E c -> ws_safe (parser_ c) ->
  delivered_ c = false -> told_closed c = false -> r <> BC_R_SUCCESS ->
  WP (SendCloseFrame E id code;; Fail id r msg) (fun _ w' => at_ id (ended (handler_ c) (heard c)) w') (foc w0 id c).
Proof.
  intros Hd H0 Hcalm Hl Hok Hs Hde Hto Hr. eapply does_call; [by apply (SendCloseFrame_good id code)|].
  intros [] w1 (w2 & c1 & -> & Hw2 & Hok1 & Hx).
  rewrite <- (ext_field handler_ c c1 Hx), <- (heard_cext c c1 Hx) by done. eapply Fail_at; try done.
  - by eapply calm_then.
  - eapply linked_trans; [done|by apply cext_linked].
  - by rewrite (ext_field parser_ c c1 Hx).
  - by rewrite (ext_field delivered_ c c1 Hx).
  - by rewrite (ext_field told_closed c c1 Hx).
Qed.

(** What the handler is told of an exception. *)
Definition thrown (h : option nat) (r : WSParser + ws_error * WSParser) : list event :=
  match r, h with inr (e, _), Some u => [OnException u e] | _, _ => [] end.

Definition fed (h : option nat) (f : BCRESULT) (l : list event) (r : WSParser + ws_error * WSParser) (c : conn) : Prop :=
  match r with inl p => talk p h f l c | inr _ => ended h (l ++ thrown h r) c end.

Lemma parsed_ok p data c :
  parser_ok c -> parser_ c = p -> settled c -> bytes_ok data ->
  match ParseWSFrame p data with
  | None => fail_result_ c <> BC_R_SUCCESS
  | Some (evs, r) => Forall (event_safe (2 ^ 32 - 1)) evs /\
      match r with
      | inl p' => ws_safe p' /\ (fail_result_ c = BC_R_SUCCESS -> ws_waiting p')
      | inr (_, p') => ws_safe p'
      end
  end.
Proof.
  intros [Hs Hw] <- [Hn _] Hd. destruct (ParseWSFrame (parser_ c) data) as [[evs r]|] eqn:HP.
  - destruct (ParseWSFrame_safe _ _ _ _ Hs Hd HP) as [He Hr]. split.
    + pose proof (sa_base _ Hs) as (_ & _ & Hm & _). unfold WSParser.UINT32_MAX in Hm. eapply Forall_impl; [exact He|].
      intros [fr payload n] [? ?]. split; [done|]. etrans; [eassumption|]. lia.
    + destruct r as [p'|[e p']]; [|done]. split; [done|]. intros Hf.
      destruct (ParseWSFrame_spec _ _ (proj1 (Hw Hf (Hn Hf))) Hd) as (evs' & r' & HP' & Hr' & _). rewrite HP in HP'.
      by injection HP' as <- <-.
  - intros Hf. destruct (ParseWSFrame_spec _ _ (proj1 (Hw Hf (Hn Hf))) Hd) as (evs' & r' & HP' & _). congruence.
Qed.

Lemma throw_ok id e w w0 c h f l p :
  at_ id (talk p h f l) w -> objs w !! id = Some c -> forall p', ws_safe p' -> calm w w0 ->
  WP (notify E id (fun u => OnException u e);;
      SendCloseFrame E id kWSCloseProtocol;; Fail id BC_R_UNEXPECTEDTOKEN (BadFrame e))
    (fun _ w' => at_ id (ended h (l ++ thrown h (inr (e, p')))) w') (foc w0 id (c <| parser_ := p' |>)).
Proof.
  intros [Hd (c' & Hc' & Ht)] Hc p' Hs' Hcalm. rewrite Hc in Hc'. injection Hc' as <-.
  destruct (inv_conn E _ _ (proj1 (du_inv _ _ Hd)) id c Hc) as (Hok & Hp & _).
  set (c2 := c <| parser_ := p' |>). assert (Hok2 : conn_ok E c2) by by apply (conn_ok_same c).
  assert (Hl2 : linked c c2) by by split.
  pose proof (talk_delivered _ _ _ _ _ Ht) as Hde. destruct Ht as [T1 T2 T3 T4 T5 T6 T7].
  destruct h as [u|].
  - set (c3 := logged (fun u => OnException u e) c2).
    assert (Hh3 : c3 = c2 <| log_ ::= fun l => l ++ [OnException u e] |>).
    { unfold c3, logged. change (handler_ c2) with (handler_ c). by rewrite T5. }
    assert (Hd3 : during id (foc w0 id c3)).
    { eapply during_set; [exact Hd|exact Hc|done| | |].
      - apply conn_ok_heard; [done|exact T3|exact Hde|done|done|done].
      - rewrite Hh3. split; [done|]. intros _ Hn. exfalso. apply (Hn u e). apply elem_of_app. right. by left.
      - eapply linked_trans; [exact Hl2|apply linked_logged]. }
    eapply does_call; [apply notify_kept, Hd3|]. intros [] w1 Hk. fold c3 in Hk.
    destruct (ae_old _ _ (proj2 Hk) id c3 (lookup_foc _ _ _)) as (c4 & Hc4 & Hx).
    pose proof (during_kept _ _ _ Hd3 Hk) as Hd1.
    destruct (inv_conn E _ _ (proj1 (du_inv _ _ Hd1)) id c4 Hc4) as (Hok4 & Hp4 & _).
    rewrite <- (foc_self w1 id c4 Hc4).
    assert (Hheard : heard c4 = l ++ [OnException u e]).
    { rewrite (heard_cext _ _ Hx), Hh3. change (List.filter heard_event (log_ c ++ [OnException u e]) = l ++ [OnException u e]).
      rewrite List.filter_app. by rewrite <- T7. }
    assert (Hhand : handler_ c4 = Some u) by (rewrite (ext_field handler_ c3 c4 Hx), Hh3 by done; exact T5).
    cbn [thrown]. rewrite <- Hheard, <- Hhand. apply (close_fail_at id _ _ _ w1 w1 c4); try done.
    + apply Hp4.
    + by rewrite (ext_field delivered_ c3 c4 Hx), Hh3.
    + by rewrite (ext_field told_closed c3 c4 Hx), Hh3.
  - unfold notify. apply does_bind, does_bind, does_get. change (handler_ c2) with (handler_ c). rewrite T5. apply does_ret.
    cbn [thrown]. rewrite app_nil_r, <- T7, <- T5. change (handler_ c) with (handler_ c2). change (heard c) with (heard c2).
    by apply (close_fail_at id _ _ _ w w0 c).
Qed.

Lemma FeedFrames_ok id data p h f l w :
  bytes_ok data -> at_ id (talk p h f l) w -> (f <> BC_R_SUCCESS -> K AssertFailed) ->
  WP (FeedFrames E id data) (fun _ w' => exists evs r, ParseWSFrame p data = Some (evs, r) /\
     at_ id (fed h f (l ++ concat (map (told h) evs)) r) w') w.
Proof.
  intros Hdata Hat HK. pose proof Hat as [Hd (c & Hc & Ht)]. unfold FeedFrames.
  destruct (inv_conn E _ _ (proj1 (du_inv _ _ Hd)) id c Hc) as (Hok & Hp & _).
  apply does_bind, (wp_get_at id _ _ w c Hc). rewrite (tk_parser _ _ _ _ _ Ht).
  pose proof (parsed_ok p data c Hp (tk_parser _ _ _ _ _ Ht) (tk_settled _ _ _ _ _ Ht) Hdata) as Hpr.
  rewrite (tk_fail _ _ _ _ _ Ht) in Hpr.
  destruct (ParseWSFrame p data) as [[evs r]|]; [|by apply does_fail, HK]. destruct Hpr as [Hev Hr].
  eapply does_call; [by apply frames_run|]. intros [] w1 Hat1. pose proof Hat1 as [Hd1 (c1 & Hc1 & Ht1)].
  destruct (inv_conn E _ _ (proj1 (du_inv _ _ Hd1)) id c1 Hc1) as (Hok1 & Hp1 & _).
  apply does_bind. eapply wp_put_at; [exact Hc1|]. destruct r as [p'|[e p']].
  - apply does_ret. exists evs, (inl p'). split; [done|]. destruct Hr as [Hs' Hw'].
    destruct Ht1 as [T1 T2 T3 T4 T5 T6 T7].
    eapply at_set; [exact Hd1|exact Hc1|apply calm_same|by apply (conn_ok_same c1)| |by split|by split].
    split; [done|]. intros Hf _. apply Hw'. by rewrite <- T6.
  - apply does_bind, wp_bump. eapply does_mono; [eapply (throw_ok id e w1 (bumped protocol_error w1) c1); [exact Hat1|done|exact Hr|]|].
    + by apply calm_bumped.
    + intros [] w' Hat'. exists evs, (inr (e, p')). split; [done|exact Hat'].
Qed.

(** ** The answer to the handshake *)

(** A world seen from a connection, between the parts of a step. *)
Definition held (id : Z) (w0 : world) (c : conn) : Prop :=
  exists w c0, during id w /\ objs w !! id = Some c0 /\ calm w w0 /\ linked c0 c /\ conn_ok E c /\ parser_ok c.

Lemma held_at id w c P : held id w c -> P c -> at_ id P (foc w id c).
Proof. intros (w0 & c0 & ? & ? & ? & ? & ? & ?) HP. by eapply at_set. Qed.

Lemma at_held id w P : at_ id P w -> exists c, objs w !! id = Some c /\ w = foc w id c /\ held id w c /\ P c.
Proof.
  intros [Hd (c & Hc & HP)]. destruct (inv_conn E _ _ (proj1 (du_inv _ _ Hd)) id c Hc) as (Hok & Hp & _).
  exists c. split_and!; [done|by rewrite foc_self| |done]. exists w, c. by split_and!.
Qed.

Lemma held_step id w w' c c' : held id w c -> calm w w' -> linked c c' -> conn_ok E c' -> parser_ok c' -> held id w' c'.
Proof.
  intros (w0 & c0 & ? & ? & ? & ? & _ & _) ????. exists w0, c0. split_and!; try done; [by eapply calm_then|by eapply linked_trans].
Qed.

Lemma held_ok id w c : held id w c -> conn_ok E c /\ parser_ok c.
Proof. by intros (w0 & c0 & ? & ? & ? & ? & ? & ?). Qed.

Lemma held_same id w w' c c' : held id w c -> calm w w' -> facts_of c' = facts_of c -> log_ c' = log_ c ->
  parser_ c' = parser_ c -> fail_result_ c' = fail_result_ c -> held id w' c'.
Proof.
  intros Hh Hw Hf Hl Hp Hr. destruct (held_ok _ _ _ Hh) as [Hok Hpok].
  pose proof (f_equal fa_handler Hf) as F1. pose proof (f_equal fa_told Hf) as F2. pose proof (f_equal fa_opened Hf) as F3.
  cbn [facts_of fa_handler fa_told fa_opened] in F1, F2, F3.
  eapply held_step; [done|done|split; [done|done|by rewrite F3|by rewrite Hl]|by apply (conn_ok_same c)|].
  eapply parser_ok_same; try done. by rewrite Hl.
Qed.

(** A connection the channel serves; with [f], the channel is open and [f] is the failure
    recorded. *)
Record live (f : option BCRESULT) (c : conn) : Prop := {
  lv_settled : settled c;
  lv_told : told_closed c = false;
  lv_fail : match f with Some f => fail_result_ c = f /\ opened c = true | None => True end
}.

Lemma stable_live f : stable (live f).
Proof.
  intros c c' Hx [L1 L2 L3]. split.
  - by eapply settled_ext.
  - by rewrite (ext_field told_closed c c' Hx).
  - destruct f; [|done]. destruct L3 as [L3 L4]. split; [by rewrite (ext_field fail_result_ c c' Hx)|by apply (ext_opened _ _ Hx)].
Qed.

Lemma live_any f c : live f c -> live None c.
Proof. by intros [L1 L2 _]. Qed.

Lemma live_delivered f c : live f c -> delivered_ c = false.
Proof. intros [[_ L1] L2 _]. congruence. Qed.

Lemma ended_live h l c : ended h l c -> live None c.
Proof. by intros [L1 L2 _ _ _]. Qed.

Lemma live_same f c c' : delivered_ c' = delivered_ c -> told_closed c' = told_closed c -> fail_result_ c' = fail_result_ c ->
  log_ c' = log_ c -> opened c' = opened c -> live f c -> live f c'.
Proof.
  intros H1 H2 H3 H4 H5 [[L1 L1'] L2 L3]. split; [split|..]; rewrite ?H1, ?H2, ?H3, ?H4, ?H5; done.
Qed.

Lemma Fail_held id r msg w c f : held id w c -> live f c -> r <> BC_R_SUCCESS ->
  WP (Fail id r msg) (fun _ w' => at_ id (live None) w') (foc w id c).
Proof.
  intros (w0 & c0 & Hd & H0 & Hcalm & Hl & Hok & Hp) Hlv Hr.
  eapply does_mono; [apply (Fail_at id r msg w0 w c0); try done; [apply Hp|by eapply live_delivered|apply Hlv]|].
  intros [] w' [Hd' (c' & Hc' & He)]. split; [done|]. exists c'. split; [done|by eapply ended_live].
Qed.

(** *** The headers *)

Lemma conn_ok_answer c g : conn_ok E c -> answer_ok (g (hs c)) -> conn_ok E (c <| hs ::= g |>).
Proof. intros [O1 O2 O3 O4 O5 O6 O7 O8 O9 O10 O11 O12] Ha. by split. Qed.

Lemma held_answer id w c g : held id w c -> answer_ok (g (hs c)) -> held id w (c <| hs ::= g |>).
Proof.
  intros Hh Ha. destruct (held_ok _ _ _ Hh) as [Hok Hp].
  eapply held_step; [done|apply calm_same|by split|by apply conn_ok_answer|exact Hp].
Qed.

Definition cleared (a : answer) : answer := a <| cur_field_ := [] |> <| cur_value_ := [] |> <| last_was_value_ := false |>.

(** What [_CommitHeader] makes of the answer. *)
Definition committed (a : answer) : answer :=
  if bytes_eqb (cur_field_ a) [] then cleared a
  else
    let key := ToLowerAscii (cur_field_ a) in
    cleared (a <| hs_headers_ ::= fun m => map_set m key
      (match map_find m key with Some v => v ++ str ", " ++ cur_value_ a | None => cur_value_ a end) |>).

Lemma zlen_lower s : zlen (ToLowerAscii s) = zlen s.
Proof. unfold zlen, ToLowerAscii. by rewrite length_map. Qed.

Lemma committed_ok a : answer_ok a ->
  bytes_eqb (cur_field_ a) [] = true \/ is_Some (map_find (hs_headers_ a) (ToLowerAscii (cur_field_ a))) \/
    zlen (hs_headers_ a) < kMaxHeaderCount -> answer_ok (committed a).
Proof.
  intros [A0 A1 A2 A3 A4] Hn. unfold committed.
  pose proof (zlen_nonneg (cur_field_ a)) as Hf0. pose proof (zlen_nonneg (cur_value_ a)) as Hv0.
  assert (H0 : zlen (@nil Z) + zlen (@nil Z) <= kMaxSingleHeaderBytes) by done.
  assert (H00 : zlen (@nil Z) = 0) by done.
  destruct (bytes_eqb (cur_field_ a) []) eqn:Ef.
  - split; cbn [cleared]; try done. change (headers_size (hs_headers_ a) + 2 * (zlen (@nil Z) + zlen (@nil Z)) <= 2 * hs_header_bytes_ a). lia.
  - assert (Hf : 1 <= zlen (cur_field_ a)).
    { destruct (cur_field_ a); [done|]. rewrite zlen_cons. pose proof (zlen_nonneg l). lia. }
    destruct Hn as [?|Hn]; [done|]. cbv zeta. set (key := ToLowerAscii (cur_field_ a)) in *.
    assert (Hk : zlen key = zlen (cur_field_ a)) by apply zlen_lower.
    set (v := match map_find (hs_headers_ a) key with Some v => v ++ str ", " ++ cur_value_ a | None => cur_value_ a end).
    assert (Hs : zlen (map_set (hs_headers_ a) key v) <= kMaxHeaderCount /\
      headers_size (map_set (hs_headers_ a) key v) <= headers_size (hs_headers_ a) + 2 * (zlen (cur_field_ a) + zlen (cur_value_ a))).
    { unfold v. destruct (map_find (hs_headers_ a) key) as [v0|] eqn:Hfi.
      - destruct (map_set_old (hs_headers_ a) key (v0 ++ str ", " ++ cur_value_ a) v0 A0 Hfi) as [-> ->].
        rewrite !zlen_app. change (zlen (str ", ")) with 2. lia.
      - destruct Hn as [[? ?]|Hn]; [done|].
        destruct (map_set_new (hs_headers_ a) key (cur_value_ a) Hfi) as [-> ->]. lia. }
    destruct Hs as [Hs1 Hs2]. split.
    + by apply map_set_sorted.
    + exact Hs1.
    + exact A2.
    + exact H0.
    + change (headers_size (map_set (hs_headers_ a) key v) + 2 * (zlen (@nil Z) + zlen (@nil Z)) <= 2 * hs_header_bytes_ a). lia.
Qed.

Lemma CommitHeader_foc id w c f Q :
  held id w c -> live f c ->
  (held id w (c <| hs ::= committed |>) -> live f (c <| hs ::= committed |>) -> Q true (foc w id (c <| hs ::= committed |>))) ->
  (forall w', at_ id (live None) w' -> Q false w') -> WP (CommitHeader id) Q (foc w id c).
Proof.
  intros Hh Hl Ht Hf. destruct (held_ok _ _ _ Hh) as [Hok Hp]. pose proof (ok_answer E c Hok) as Ha.
  unfold CommitHeader. apply does_bind, does_get. cbv zeta. fold cleared.
  assert (Hgo : forall g, g (hs c) = committed (hs c) -> answer_ok (committed (hs c)) ->
     WP (put_hs id g;; ret true) Q (foc w id c)).
  { intros g Hg Hac. apply does_bind, does_put, does_ret.
    replace (c <| hs ::= g |>) with (c <| hs ::= committed |>) by (unfold update; cbn; by rewrite Hg).
    apply Ht; [by apply held_answer|]. by apply (live_same f c). }
  destruct (bytes_eqb (cur_field_ (hs c)) []) eqn:Ef.
  - apply Hgo; [unfold committed; by rewrite Ef|]. apply committed_ok; [done|by left].
  - destruct (map_find (hs_headers_ (hs c)) (ToLowerAscii (cur_field_ (hs c)))) as [v|] eqn:Hfi.
    + apply Hgo.
      * unfold committed. rewrite Ef. cbv zeta. unfold update. cbn. by rewrite Hfi.
      * apply committed_ok; [done|]. right. left. by eexists.
    + destruct (Z.leb_spec kMaxHeaderCount (zlen (hs_headers_ (hs c)))) as [Hc|Hc].
      * eapply does_call; [by eapply Fail_held|]. intros [] w' Hw'. by apply does_ret, Hf.
      * apply Hgo.
        -- unfold committed. rewrite Ef. cbv zeta. unfold update. cbn. by rewrite Hfi.
        -- apply committed_ok; [done|]. by right; right.
Qed.

Lemma Charge_foc id w c f n Q :
  held id w c -> live f c -> 0 <= n ->
  (hs_header_bytes_ (hs c) + n <= kMaxHeaderTotalBytes ->
    let c' := c <| hs ::= fun a => a <| hs_header_bytes_ := hs_header_bytes_ (hs c) + n |> |> in
    held id w c' -> live f c' -> Q true (foc w id c')) ->
  (forall w', at_ id (live None) w' -> Q false w') -> WP (ChargeHeaderBytes id n) Q (foc w id c).
Proof.
  intros Hh Hl Hn Ht Hf. destruct (held_ok _ _ _ Hh) as [Hok Hp]. pose proof (ok_answer E c Hok) as [A0 A1 A2 A3 A4].
  unfold ChargeHeaderBytes. apply does_bind, does_get.
  destruct (Z.ltb_spec kMaxHeaderTotalBytes (hs_header_bytes_ (hs c) + n)) as [Hc|Hc].
  - eapply does_call; [by eapply Fail_held|]. intros [] w' Hw'. by apply does_ret, Hf.
  - apply does_bind, does_put, does_ret. apply Ht; [done| |by apply (live_same f c)].
    apply held_answer; [done|]. split; [exact A0|exact A1| |exact A3|].
    + change (0 <= hs_header_bytes_ (hs c) + n <= kMaxHeaderTotalBytes). lia.
    + change (headers_size (hs_headers_ (hs c)) + 2 * (zlen (cur_field_ (hs c)) + zlen (cur_value_ (hs c)))
              <= 2 * (hs_header_bytes_ (hs c) + n)). lia.
Qed.

Lemma Check_foc id w c f n Q :
  held id w c -> live f c ->
  (zlen (cur_field_ (hs c)) + zlen (cur_value_ (hs c)) + n <= kMaxSingleHeaderBytes -> Q true (foc w id c)) ->
  (forall w', at_ id (live None) w' -> Q false w') -> WP (CheckSingleHeaderSize id n) Q (foc w id c).
Proof.
  intros Hh Hl Ht Hf. unfold CheckSingleHeaderSize. apply does_bind, does_get.
  destruct (Z.ltb_spec kMaxSingleHeaderBytes (zlen (cur_field_ (hs c)) + zlen (cur_value_ (hs c)) + n)) as [Hc|Hc].
  - eapply does_call; [by eapply Fail_held|]. intros [] w' Hw'. by apply does_ret, Hf.
  - apply does_ret, Ht. lia.
Qed.

(** *** The end of the answer *)

Lemma at_ticked id P w : stable P -> at_ id P w -> at_ id P (ticked w).
Proof. intros HP Hat. eapply at_kept; [done|done|]. apply kept_ticked, Hat. Qed.

Lemma at_mono id (P Q : conn -> Prop) w : (forall c, P c -> Q c) -> at_ id P w -> at_ id Q w.
Proof. intros HPQ [Hd (c & Hc & HP)]. split; [done|]. exists c. auto. Qed.

Lemma live_channel id w c f : held id w c -> live f c -> channel_ c = true.
Proof.
  intros Hh [_ Ht _]. destruct (held_ok _ _ _ Hh) as [Hok _]. by rewrite (ok_channel E c Hok), Ht.
Qed.

(** Timers come and go while the channel is open. *)
Lemma conn_ok_timers c c' : conn_ok E c -> opened c = true ->
  c' = (c <| hs_timer_ := hs_timer_ c' |> <| check_timer_ := check_timer_ c' |> <| hs_armed := hs_armed c' |>
          <| check_armed := check_armed c' |>) -> conn_ok E c'.
Proof.
  intros [O1 O2 O3 O4 O5 O6 O7 O8 O9 O10 O11 O12] Ho ->. by split.
Qed.

Lemma held_timers id w w' c c' : held id w c -> opened c = true -> calm w w' ->
  c' = (c <| hs_timer_ := hs_timer_ c' |> <| check_timer_ := check_timer_ c' |> <| hs_armed := hs_armed c' |>
          <| check_armed := check_armed c' |>) -> held id w' c'.
Proof.
  intros Hh Ho Hw Hc. destruct (held_ok _ _ _ Hh) as [Hok Hp]. pose proof (conn_ok_timers c c' Hok Ho Hc) as Hok'.
  eapply held_step; [done|done| |done|]; rewrite Hc; [by split|exact Hp].
Qed.

Definition upgraded_live (f : BCRESULT) (c : conn) : Prop := live (Some f) c /\ upgraded_ c = true.

Lemma stable_upgraded f : stable (upgraded_live f).
Proof. apply stable_and; [apply stable_live|]. by apply (stable_field upgraded_ (fun b => b = true)). Qed.

Lemma ScheduleCheck_at id f w : at_ id (upgraded_live f) w -> WP (ScheduleCheck E id) (fun _ w' => at_ id (upgraded_live f) w') w.
Proof.
  intros Hat. destruct (at_held _ _ _ Hat) as (c & Hc & Hw & Hh & Hl & Hu). rewrite Hw.
  unfold ScheduleCheck. apply does_bind, does_get.
  destruct (0 <? check_interval (c_config c)); cbn [negb]; [|apply does_ret; rewrite <- Hw; exact Hat].
  apply does_bind, (does_ask K id). intros t. apply does_bind, does_put. set (c1 := _ <| latest_net_action_ms_ := _ |>).
  assert (Hh1 : held id (ticked w) c1) by (eapply held_same; try done; apply calm_ticked).
  assert (Hl1 : live (Some f) c1) by by apply (live_same _ c).
  apply does_bind, does_get. rewrite (live_channel id (ticked w) c1 (Some f)) by done. cbn [negb].
  apply does_bind, (does_ask K id). intros t2.
  assert (Hh2 : held id (ticked (ticked w)) c1) by (eapply held_same; try done; apply calm_ticked).
  destruct (_ =? BC_R_SUCCESS).
  - apply does_put. apply held_at; [|split; [by apply (live_same _ c1)|done]].
    eapply held_timers; [done|apply Hl1|apply calm_same|done].
  - apply does_ret. apply held_at; [done|by split].
Qed.

(** Where the log stands when no end was delivered. *)
Lemma phase_open c : conn_ok E c -> delivered_ c = false ->
  exists p, phase_of (log_ c) = Some p /\ (p <> PDone /\ p <> PFailed) /\
    (handler_ c <> None -> p = if connected_ok_ c then PConnected else PInit) /\ (upgraded_ c = true -> p <> PInit /\ p <> PFailed).
Proof.
  intros Hok Hd. destruct (ok_phase E c Hok) as (p & Hp & Hn & Hu & Hx). exists p. split; [done|]. split; [by apply Hx|]. split; [|done].
  intros Hh. rewrite (Hn Hh). unfold phase_now. by rewrite Hd.
Qed.

(** A connection whose answer was checked, and one whose handler was told. *)
Definition accepted (c : conn) : conn :=
  c <| upgraded_ := true |> <| log_ ::= fun l => l ++ [EvUpgraded (hs_status_ (hs c)) (hs_headers_ (hs c)) (sec_key_ (rq c))] |>.

Definition connected (c : conn) : conn := accepted c <| connect_notified_ := true |> <| connected_ok_ := true |>.

Lemma event_upgraded c : CheckHandshakeResponse (base64_encode E) (SHA1 E) (hs_status_ (hs c)) (hs_headers_ (hs c)) (sec_key_ (rq c)) = None ->
  event_ok E (rq c) (EvUpgraded (hs_status_ (hs c)) (hs_headers_ (hs c)) (sec_key_ (rq c))).
Proof. done. Qed.

Lemma accepted_again c : conn_ok E c -> delivered_ c = false -> connect_notified_ c = true -> opened c = true ->
  CheckHandshakeResponse (base64_encode E) (SHA1 E) (hs_status_ (hs c)) (hs_headers_ (hs c)) (sec_key_ (rq c)) = None ->
  conn_ok E (accepted c) /\ upgraded_ c = true.
Proof.
  intros Hok Hd Hn Ho Hch. assert (Hu : upgraded_ c = true).
  { rewrite (ok_upgraded E c Hok). rewrite (ok_notified E c Hok), Hd in Hn. by destruct (connected_ok_ c). }
  split; [|done]. set (ev := EvUpgraded (hs_status_ (hs c)) (hs_headers_ (hs c)) (sec_key_ (rq c))).
  assert (Hf : facts_of (accepted c) = facts_of c).
  { unfold facts_of. by f_equal. }
  apply (conn_ok_log c _ [ev] Hf); try done.
  - change (phase_of (log_ c ++ [ev]) = phase_of (log_ c)). rewrite phase_of_snoc.
    destruct (phase_open c Hok Hd) as (p & -> & [? ?] & _ & Hp2). destruct (Hp2 Hu). by destruct p.
  - by repeat constructor.
  - congruence.
  - change (close_frames (log_ c ++ [ev]) <= if close_frame_sent_ (rq c) then 1 else 0).
    rewrite close_frames_app. pose proof (ok_close E c Hok). change (close_frames [ev]) with 0. lia.
Qed.

Lemma connected_ok c : conn_ok E c -> delivered_ c = false -> opened c = true -> connect_notified_ c = false ->
  CheckHandshakeResponse (base64_encode E) (SHA1 E) (hs_status_ (hs c)) (hs_headers_ (hs c)) (sec_key_ (rq c)) = None ->
  conn_ok E (logged (fun h => OnConnectResult h BC_R_SUCCESS (hs_headers_ (hs c))) (connected c)).
Proof.
  intros Hok Hd Ho Hn Hch. destruct (phase_open c Hok Hd) as (p & Hp & [Hp1 Hp1'] & Hp2 & _).
  set (ev := EvUpgraded (hs_status_ (hs c)) (hs_headers_ (hs c)) (sec_key_ (rq c))).
  assert (Hco : connected_ok_ c = false).
  { rewrite (ok_notified E c Hok) in Hn. by destruct (connected_ok_ c). }
  assert (H2 : exists p2, phase_of (log_ c ++ [ev]) = Some p2 /\ (p2 <> PInit /\ p2 <> PFailed) /\ (p2 <> PDone /\ p2 <> PFailed) /\ (handler_ c <> None -> p2 = PUpgraded)).
  { rewrite phase_of_snoc, Hp. rewrite Hco in Hp2. destruct p; try done; (eexists; split; [done|]; split_and!; try done);
      intros Hh; by specialize (Hp2 Hh). }
  destruct H2 as (p2 & H2 & H2a & H2b & H2c).
  destruct Hok as [O1 O2 O3 O4 O5 O6 O7 O8 O9 O10 O11 O12].
  assert (Hcl : close_frames (log_ c ++ [ev]) <= (if close_frame_sent_ (rq c) then 1 else 0)).
  { rewrite close_frames_app. change (close_frames [ev]) with 0. lia. }
  assert (Hev : Forall (event_ok E (rq c)) (log_ c ++ [ev])) by (apply Forall_app; split; [done|by repeat constructor]).
  unfold logged. change (handler_ (connected c)) with (handler_ c). destruct (handler_ c) as [h|] eqn:Hh.
  - set (e := OnConnectResult h BC_R_SUCCESS (hs_headers_ (hs c))).
    split; try done.
    + exists PConnected. split_and!; try done.
      * change (phase_of ((log_ c ++ [ev]) ++ [e]) = Some PConnected). rewrite phase_of_snoc, H2, H2c by done. done.
      * intros _. unfold phase_now. change (PConnected = if delivered_ c then PDone else PConnected). by rewrite Hd.
    + intros Hx. change (opened c = false) in Hx. congruence.
    + change (Forall (event_ok E (rq c)) ((log_ c ++ [ev]) ++ [e])). apply Forall_app. split; [done|].
      repeat constructor. intros _. by eexists.
    + change (close_frames ((log_ c ++ [ev]) ++ [e]) <= if close_frame_sent_ (rq c) then 1 else 0).
      rewrite close_frames_app. change (close_frames [e]) with 0. lia.
  - split; try done.
    + exists p2. by split_and!.
    + intros Hx. change (opened c = false) in Hx. congruence.
Qed.

Lemma no_exception_snoc l e : no_exception l -> (forall x y, e <> OnException x y) -> no_exception (l ++ [e]).
Proof.
  intros Hn He x y Hin. apply elem_of_app in Hin as [Hin|Hin]; [by eapply Hn|].
  apply list_elem_of_singleton in Hin. by eapply He.
Qed.

Lemma Upgrade_ok id w c f :
  held id w c -> live (Some f) c ->
  CheckHandshakeResponse (base64_encode E) (SHA1 E) (hs_status_ (hs c)) (hs_headers_ (hs c)) (sec_key_ (rq c)) = None ->
  WP (Upgrade E id) (fun _ w' => at_ id (upgraded_live f) w') (foc w id c).
Proof.
  intros Hh Hl Hch. unfold Upgrade. apply does_bind, does_get. rewrite (live_channel id w c (Some f)) by done. cbn [negb].
  apply does_bind, does_put. set (c1 := if 0 <? hs_timer_ c then _ else c).
  assert (Hc1 : c1 = (c <| hs_timer_ := hs_timer_ c1 |> <| check_timer_ := check_timer_ c1 |> <| hs_armed := hs_armed c1 |>
          <| check_armed := check_armed c1 |>)) by (unfold c1; destruct (0 <? _); by destruct c).
  assert (Hh1 : held id w c1) by (eapply held_timers; [done|apply Hl|apply calm_same|exact Hc1]).
  assert (Hl1 : live (Some f) c1) by (apply (live_same _ c); first [by rewrite Hc1|done]).
  assert (Hv : (hs_status_ (hs c1), hs_headers_ (hs c1), sec_key_ (rq c1)) = (hs_status_ (hs c), hs_headers_ (hs c), sec_key_ (rq c)))
    by (by rewrite Hc1).
  assert (Hch1 : CheckHandshakeResponse (base64_encode E) (SHA1 E) (hs_status_ (hs c1)) (hs_headers_ (hs c1)) (sec_key_ (rq c1)) = None).
  { injection Hv as -> -> ->. exact Hch. }
  clearbody c1. clear Hc1. destruct (held_ok _ _ _ Hh1) as [Hok1 Hp1]. pose proof Hl1 as [Hs1 Ht1 [Hf1 Ho1]].
  pose proof (live_delivered _ _ Hl1) as Hd1.
  apply does_bind, does_get, does_bind, does_put, does_bind, does_put.
  cbn [fst snd]. change (_ <| log_ ::= _ |>) with (accepted c1).
  eapply (does_call K _ _ (fun _ w' => at_ id (upgraded_live f) w')); [|intros [] w' Hat; by apply ScheduleCheck_at].
  unfold DeliverConnectResult. apply does_bind, does_get. change (connect_notified_ (accepted c1)) with (connect_notified_ c1).
  assert (Hset : settled (accepted c1)).
  { destruct Hs1 as [Hs1 Hs2]. split; [|exact Hs2]. intros Hf. apply no_exception_snoc; [by apply Hs1|done]. }
  destruct (connect_notified_ c1) eqn:Hn.
  - destruct (accepted_again c1) as [Hok2 Hu]; try done. apply does_ret. apply held_at.
    + eapply held_step; [exact Hh1|apply calm_same| |exact Hok2|].
      * split; [done|done|done|]. intros Hin. apply elem_of_app. by left.
      * eapply parser_ok_same; [..|exact Hp1]; [done|done|]. intros x y Hin. apply elem_of_app. by left.
    + split; [|done]. by split.
  - apply does_bind, does_put. change (_ <| connected_ok_ ::= _ |>) with (connected c1).
    apply does_bind, does_get. change (hs_headers_ (hs (connected c1))) with (hs_headers_ (hs c1)).
    apply notify_at; [apply stable_upgraded|]. set (e := fun h => OnConnectResult h BC_R_SUCCESS (hs_headers_ (hs c1))).
    assert (Hlog : log_ (connected c1) = log_ (accepted c1)) by done.
    apply held_at.
    + eapply held_step; [exact Hh1|apply calm_same| |by apply connected_ok|].
      * eapply linked_trans; [|apply linked_logged]. split; [done|done|done|]. intros Hin. apply elem_of_app. by left.
      * apply parser_ok_logged. eapply parser_ok_same; [..|exact Hp1]; [done|done|]. intros x y Hin. apply elem_of_app. by left.
    + unfold logged. change (handler_ (connected c1)) with (handler_ c1). destruct (handler_ c1); (split; [|done]); (split; [|done|done]).
      * destruct Hset as [Hs2 Hs3]. split; [|exact Hs3]. intros Hf. apply no_exception_snoc; [by apply Hs2|done].
      * exact Hset.
Qed.

(** *** The callbacks of the parser *)

Abbreviation answers f := (fun (ok : bool) w' => at_ _ (live (if ok then Some f else None)) w').

Lemma append_ok id w c f n at_v g :
  held id w c -> live (Some f) c ->
  hs_header_bytes_ (hs c) = n + zlen at_v ->
  headers_size (hs_headers_ (hs c)) + 2 * (zlen (cur_field_ (hs c)) + zlen (cur_value_ (hs c))) <= 2 * n ->
  zlen (cur_field_ (hs c)) + zlen (cur_value_ (hs c)) + zlen at_v <= kMaxSingleHeaderBytes ->
  (g = (fun a => a <| cur_field_ ::= fun s => s ++ at_v |>) \/ g = (fun a => a <| cur_value_ ::= fun s => s ++ at_v |>)) ->
  at_ id (live (Some f)) (foc w id (c <| hs ::= g |>)).
Proof.
  intros Hh Hl Hb Hs Hm Hg. apply held_at; [|by apply (live_same _ c)].
  apply held_answer; [done|]. destruct (held_ok _ _ _ Hh) as [Hok _]. destruct (ok_answer E c Hok) as [A0 A1 A2 A3 A4].
  destruct Hg as [-> | ->]; (split; [exact A0|exact A1|exact A2|..]).
  - change (zlen (cur_field_ (hs c) ++ at_v) + zlen (cur_value_ (hs c)) <= kMaxSingleHeaderBytes). rewrite zlen_app. lia.
  - change (headers_size (hs_headers_ (hs c)) + 2 * (zlen (cur_field_ (hs c) ++ at_v) + zlen (cur_value_ (hs c))) <= 2 * hs_header_bytes_ (hs c)).
    rewrite zlen_app. lia.
  - change (zlen (cur_field_ (hs c)) + zlen (cur_value_ (hs c) ++ at_v) <= kMaxSingleHeaderBytes). rewrite zlen_app. lia.
  - change (headers_size (hs_headers_ (hs c)) + 2 * (zlen (cur_field_ (hs c)) + zlen (cur_value_ (hs c) ++ at_v)) <= 2 * hs_header_bytes_ (hs c)).
    rewrite zlen_app. lia.
Qed.

(** A piece of a name or a value: charged, checked, appended. *)
Lemma piece_ok id w c f at_v g :
  held id w c -> live (Some f) c ->
  (g = (fun a => a <| cur_field_ ::= fun s => s ++ at_v |>) \/ g = (fun a => a <| cur_value_ ::= fun s => s ++ at_v |>)) ->
  WP (ok <- ChargeHeaderBytes id (zlen at_v);;
      if negb ok then ret false
      else
        ok <- CheckSingleHeaderSize id (zlen at_v);;
        if negb ok then ret false else put_hs id g;; ret true)
     (fun (ok : bool) w' => at_ id (live (if ok then Some f else None)) w') (foc w id c).
Proof.
  intros Hh Hl Hg. destruct (held_ok _ _ _ Hh) as [Hok _]. destruct (ok_answer E c Hok) as [A0 A1 A2 A3 A4].
  apply does_bind. eapply Charge_foc; [done|done|apply zlen_nonneg| |].
  - intros Hb c1 Hh1 Hl1. cbn [negb]. apply does_bind. eapply Check_foc; [done|done| |].
    + intros Hm. cbn [negb]. apply does_bind, does_put, does_ret. eapply (append_ok id w c1 f (hs_header_bytes_ (hs c)) at_v g); done.
    + intros w' Hw'. by apply does_ret.
  - intros w' Hw'. by apply does_ret.
Qed.

Lemma http_callback_ok id cb w f :
  at_ id (live (Some f)) w ->
  WP (http_callback_run E id cb) (fun (ok : bool) w' => at_ id (live (if ok then Some f else None)) w') w.
Proof.
  intros Hat. destruct (at_held _ _ _ Hat) as (c & Hc & Hw & Hh & Hl). rewrite Hw. clear Hw Hat Hc.
  destruct (held_ok _ _ _ Hh) as [Hok _]. destruct cb as [|s|s|s|status|]; cbn [http_callback_run].
  - apply does_ret. by apply held_at.
  - eapply Charge_foc; [done|done|apply zlen_nonneg| |done]. intros _ c1 Hh1 Hl1. by apply held_at.
  - apply does_bind, does_get. destruct (last_was_value_ (hs c)).
    + apply does_bind. eapply CommitHeader_foc; [done|done| |].
      * intros Hh1 Hl1. cbn [negb]. eapply piece_ok; [done|done|by left].
      * intros w' Hw'. by apply does_ret.
    + apply does_bind, does_ret. cbn [negb]. eapply piece_ok; [done|done|by left].
  - apply does_bind, does_put. set (c1 := c <| hs ::= _ |>).
    assert (Hh1 : held id w c1).
    { apply held_answer; [done|]. destruct (ok_answer E c Hok). by split. }
    eapply piece_ok; [done|by apply (live_same _ c)|by right].
  - apply does_bind. eapply CommitHeader_foc; [done|done| |].
    + set (c1 := c <| hs ::= committed |>). intros Hh1 Hl1. cbn [negb]. apply does_bind, does_put. set (c2 := c1 <| hs ::= _ |>).
      assert (Hh2 : held id w c2).
      { apply held_answer; [done|]. destruct (held_ok _ _ _ Hh1) as [Hok1 _]. destruct (ok_answer E c1 Hok1). by split. }
      assert (Hl2 : live (Some f) c2) by by apply (live_same _ c1).
      clearbody c2. apply does_bind, does_get. destruct (CheckHandshakeResponse _ _ _ _ _) as [e|] eqn:Hch.
      * apply does_bind, wp_bump. assert (Hh3 : held id (bumped handshake_failed w) c2).
        { by eapply held_same. }
        eapply does_call; [by eapply Fail_held|]. intros [] w' Hw'. by apply does_ret.
      * eapply does_call; [by eapply Upgrade_ok|]. intros [] w' Hw'. apply does_ret. eapply at_mono; [|exact Hw']. by intros x [? _].
    + intros w' Hw'. by apply does_ret.
  - apply does_ret. by apply held_at.
Qed.

Lemma http_callbacks_ok id cbs f w :
  at_ id (live (Some f)) w ->
  WP (http_callbacks E id cbs) (fun (ok : bool) w' => at_ id (live (if ok then Some f else None)) w') w.
Proof.
  revert w. induction cbs as [|cb cbs IH]; intros w Hat; [by apply does_ret|]. cbn [http_callbacks].
  eapply does_call; [by apply http_callback_ok|]. intros [|] w' Hw'; [by apply IH|by apply does_ret].
Qed.

Lemma llhttp_execute_ok id data f w :
  at_ id (live (Some f)) w ->
  WP (llhttp_execute E id data) (fun e w' => at_ id (live (match e with HPE_ERROR _ => None | _ => Some f end)) w') w.
Proof.
  intros Hat. unfold llhttp_execute. apply does_bind, wp_ask_any. intros t.
  eapply does_call; [apply http_callbacks_ok, at_ticked; [apply stable_live|done]|].
  intros [|] w' Hw'; apply does_ret; [|done]. destruct (llhttp E t data).2; try done.
  eapply at_mono; [|exact Hw']. intros c. apply live_any.
Qed.

(** ** The channel's callbacks *)

Lemma Touch_ok id P w : stable P -> at_ id P w -> WP (TouchNetAction E id) (fun _ w' => at_ id P w') w.
Proof.
  intros HP Hat. unfold TouchNetAction. apply does_bind, wp_ask_any. intros t.
  apply put_same; [intros c; same_rest c|done|by apply at_ticked].
Qed.

Lemma live_talk f c : live (Some f) c -> upgraded_ c = true -> talk (parser_ c) (handler_ c) f (heard c) c.
Proof. intros [Hs Ht [Hf _]] Hu. by split. Qed.

Lemma fed_settled h f l r c : fed h f l r c -> settled c.
Proof. destruct r; [apply tk_settled|apply en_settled]. Qed.

Lemma Fail_settled id r msg w f : at_ id (live f) w -> r <> BC_R_SUCCESS ->
  WP (Fail id r msg) (fun _ w' => at_ id settled w') w.
Proof.
  intros Hat Hr. destruct (at_held _ _ _ Hat) as (c & Hc & Hw & Hh & Hl). rewrite Hw.
  eapply does_mono; [by eapply Fail_held|]. intros [] w' Hw'. eapply at_mono; [|exact Hw']. intros x. apply lv_settled.
Qed.

(** Data for a connection that was upgraded goes to the parser of frames. *)
Lemma OnChannelData_frames id data p h f l w :
  bytes_ok data -> at_ id (talk p h f l) w -> (f <> BC_R_SUCCESS -> K AssertFailed) ->
  WP (OnChannelData E id data) (fun _ w' => exists evs r, ParseWSFrame p data = Some (evs, r) /\
     at_ id (fed h f (l ++ concat (map (told h) evs)) r) w') w.
Proof.
  intros Hb Hat HK. unfold OnChannelData. eapply does_call; [apply Touch_ok; [apply stable_talk|done]|].
  intros [] w1 Hat1. eapply does_call; [apply put_same; [intros c; same_rest c|apply stable_talk|done]|].
  intros [] w2 Hat2. pose proof Hat2 as [Hd2 (c & Hc & Ht)].
  apply does_bind, (wp_get_at id _ _ w2 c Hc). rewrite (talk_delivered _ _ _ _ _ Ht).
  apply does_bind, (wp_get_at id _ _ w2 c Hc). rewrite (tk_upgraded _ _ _ _ _ Ht). by apply FeedFrames_ok.
Qed.

Lemma OnChannelData_ok id data f w :
  bytes_ok data -> at_ id (live (Some f)) w -> (f <> BC_R_SUCCESS -> K AssertFailed) ->
  WP (OnChannelData E id data) (fun _ w' => at_ id settled w') w.
Proof.
  intros Hb Hat HK. destruct (at_held _ _ _ Hat) as (c & Hc & Hw & Hh & Hl). destruct (upgraded_ c) eqn:Hu.
  { eapply does_mono; [eapply OnChannelData_frames; [done| |done]|].
    - split; [apply Hat|]. exists c. split; [exact Hc|by apply live_talk].
    - intros [] w' (evs & r & _ & Hw'). eapply at_mono; [|exact Hw']. intros x. apply fed_settled. }
  assert (Hno : stable (fun c => live (Some f) c /\ upgraded_ c = false)).
  { apply stable_and; [apply stable_live|]. by apply (stable_field upgraded_ (fun b => b = false)). }
  unfold OnChannelData. eapply does_call; [apply Touch_ok; [exact Hno|]|].
  { split; [apply Hat|]. exists c. by split. }
  intros [] w1 Hat1. eapply does_call; [apply put_same; [intros x; same_rest x|exact Hno|done]|].
  intros [] w2 Hat2. pose proof Hat2 as [Hd2 (c2 & Hc2 & Hl2 & Hu2)].
  apply does_bind, (wp_get_at id _ _ w2 c2 Hc2). rewrite (live_delivered _ _ Hl2).
  apply does_bind, (wp_get_at id _ _ w2 c2 Hc2). rewrite Hu2.
  eapply does_call; [apply llhttp_execute_ok; split; [done|by exists c2]|]. intros e w3 Hat3.
  pose proof Hat3 as [Hd3 (c3 & Hc3 & Hl3)].
  apply does_bind, (wp_get_at id _ _ w3 c3 Hc3), does_bind, (wp_get_at id _ _ w3 c3 Hc3). cbn [fst snd].
  assert (Hfail : forall r msg, r <> BC_R_SUCCESS -> WP (Fail id r msg) (fun _ w' => at_ id settled w') w3).
  { intros r msg Hr. exact (Fail_settled id r msg w3 _ Hat3 Hr). }
  destruct e as [|pos|pos].
  - apply does_ret. eapply at_mono; [|exact Hat3]. intros x. apply lv_settled.
  - destruct (upgraded_ c3) eqn:Hu3; cbn [negb].
    + destruct (0 <? zlen (zdrop (Z.max 0 pos) data)).
      * eapply does_mono; [eapply FeedFrames_ok; [by apply bytes_ok_zdrop| |exact HK]|].
        -- split; [done|]. exists c3. split; [done|by apply live_talk].
        -- intros [] w' (evs & r & _ & Hw'). eapply at_mono; [|exact Hw']. intros x. apply fed_settled.
      * apply does_ret. eapply at_mono; [|exact Hat3]. intros x. apply lv_settled.
    + destruct (Z.eqb_spec (fail_result_ c3) BC_R_SUCCESS); by apply Hfail.
  - destruct (Z.eqb_spec (fail_result_ c3) BC_R_SUCCESS); by apply Hfail.
Qed.

(** Between the steps. *)
Record resting (w : world) : Prop := {
  re_inv : inv E w;
  re_settled : forall i c, objs w !! i = Some c -> settled c;
  re_flight : callbacks_in_flight w = 0
}.

Lemma at_resting id w : at_ id settled w -> resting w.
Proof.
  intros [[Hi Hr Hf] (c & Hc & Hs)]. split; [done| |done]. intros i x Hx.
  destruct (decide (i = id)) as [->|Hne]; [congruence|]. by eapply Hr.
Qed.

Lemma resting_at id w c (P : conn -> Prop) : resting w -> objs w !! id = Some c -> P c -> at_ id P w.
Proof. intros [Hi Hs Hf] Hc HP. split; [split; [done| |done]|by exists c]. intros i x _ Hx. by eapply Hs. Qed.

Lemma Fail_rest id r msg w c : held id w c -> settled c -> r <> BC_R_SUCCESS ->
  WP (Fail id r msg) (fun _ w' => at_ id settled w') (foc w id c).
Proof.
  intros Hh [Hs1 Hs2] Hr. destruct (held_ok _ _ _ Hh) as [Hok Hp]. apply Fail_foc. intros c' Hf. apply held_at.
  - eapply held_step; [exact Hh|apply calm_same|by eapply failed_linked|by eapply failed_ok|eapply failed_parser; [done|done|apply Hp]].
  - by eapply failed_settled.
Qed.

Lemma requested_ok c : conn_ok E c -> opened c = true -> conn_ok E (c <| log_ ::= fun l => l ++ [EvRequest (req_text_ (rq c))] |>).
Proof.
  intros Hok Ho. apply (conn_ok_log c _ [EvRequest (req_text_ (rq c))]); try done.
  - change (phase_of (log_ c ++ [EvRequest (req_text_ (rq c))]) = phase_of (log_ c)). rewrite phase_of_snoc. by destruct (phase_of _).
  - by repeat constructor.
  - congruence.
  - change (close_frames (log_ c ++ [EvRequest (req_text_ (rq c))]) <= if close_frame_sent_ (rq c) then 1 else 0).
    rewrite close_frames_app. pose proof (ok_close E c Hok). change (close_frames [EvRequest (req_text_ (rq c))]) with 0. lia.
Qed.

Lemma OnChannelReady_ok id f w : at_ id (live (Some f)) w -> WP (OnChannelReady E id) (fun _ w' => at_ id settled w') w.
Proof.
  intros Hat. unfold OnChannelReady. eapply does_call; [by apply Touch_ok; [apply stable_live|]|]. intros [] w1 Hat1.
  destruct (at_held _ _ _ Hat1) as (c & Hc & Hw & Hh & Hl). rewrite Hw. clear Hw Hat Hat1 Hc w. rename w1 into w.
  assert (Htick : forall v x, held id v x -> held id (ticked v) x) by (intros v x Hx; by eapply held_same; [|apply calm_ticked|..]).
  pose proof Hl as [_ _ [_ Ho]]. destruct (held_ok _ _ _ Hh) as [Hok Hp].
  apply does_bind, does_get. unfold chan_Send. apply does_bind, does_bind, does_get. rewrite (live_channel id w c (Some f)) by done.
  cbn [negb]. apply does_bind, (does_ask K id). intros t. destruct (Z.eqb_spec (chan_send E t) BC_R_SUCCESS) as [Hr|Hr]; cbn [negb].
  - apply does_bind, does_put, does_ret. rewrite (proj2 (Z.eqb_eq _ _) Hr). cbn [negb]. apply does_bind, does_put.
    apply does_bind, (does_ask K id). intros t2. apply does_bind, (does_ask K id). intros t3.
    set (c1 := c <| log_ ::= _ |>). set (c2 := c1 <| rq ::= _ |>). set (w3 := ticked (ticked (ticked w))).
    assert (Hl1 : live (Some f) c1).
    { destruct Hl as [[Hs Hs'] Ht Hf]. split; [split|done|done]; [|done]. intros Hx. by apply no_exception_snoc; [apply Hs|]. }
    assert (Hh1 : held id w3 c1).
    { apply Htick, Htick, Htick. eapply held_step; [exact Hh|apply calm_same| |by apply requested_ok|].
      - split; [done|done|done|]. intros Hin. apply elem_of_app. by left.
      - eapply parser_ok_same; [..|exact Hp]; [done|done|]. intros x y Hin. apply elem_of_app. by left. }
    assert (Hh2 : held id w3 c2) by (by eapply held_same; [|apply calm_same|..]).
    assert (Hl2 : live (Some f) c2) by by apply (live_same _ c1). clearbody c2. destruct (_ =? BC_R_SUCCESS); cbn [negb].
    + apply does_put, held_at; [|apply (lv_settled (Some f)), (live_same _ c2); done].
      eapply held_timers; [exact Hh2|apply Hl2|apply calm_same|done].
    + apply Fail_rest; [done|apply Hl2|done].
  - apply does_bind, does_ret, does_ret. rewrite (proj2 (Z.eqb_neq _ _) Hr). cbn [negb].
    apply Fail_rest; [by apply Htick|apply Hl|done].
Qed.

Lemma OnHandshakeTimer_ok id w : at_ id (fun c => settled c /\ hs_armed c = true) w ->
  WP (OnHandshakeTimer id) (fun _ w' => at_ id settled w') w.
Proof.
  intros Hat. destruct (at_held _ _ _ Hat) as (c & Hc & Hw & Hh & Hs & Ha). rewrite Hw.
  destruct (held_ok _ _ _ Hh) as [Hok Hp].
  unfold OnHandshakeTimer. apply does_bind, does_put. apply Fail_rest; [|done|done].
  eapply held_timers; [exact Hh| |apply calm_same|done]. apply (ok_used E c Hok). tauto.
Qed.

Lemma OnActiveCheck_ok id w : at_ id settled w -> WP (OnActiveCheck E id) (fun _ w' => at_ id settled w') w.
Proof.
  intros Hat. unfold OnActiveCheck. apply does_bind, wp_ask_any. intros t.
  pose proof (at_ticked _ _ _ stable_settled Hat) as Hat1. pose proof Hat1 as [_ (c & Hc & Hs)].
  apply does_bind, (wp_get_at id _ _ _ c Hc). cbv beta. destruct (_ && _).
  - apply at_good; [apply Close_good|apply stable_settled|done].
  - destruct (_ && _); [|by apply does_ret]. apply at_good; [|apply stable_settled|done].
    apply good_bind; [apply good_put_same; intros x; same_rest x|]. intros _.
    apply good_bind; [apply SendPing_good|]. intros _. apply good_ret.
Qed.

(** *** The end *)

Definition over (c : conn) (m : ws_text) (ht ct : Z) (ha ca : bool) : conn :=
  c <| delivered_ := true |> <| connect_notified_ := true |> <| last_error_message_ := m |>
    <| hs_timer_ := ht |> <| check_timer_ := ct |> <| hs_armed := ha |> <| check_armed := ca |>.

Lemma over_ok c m ht ct ha ca e :
  conn_ok E c -> delivered_ c = false -> opened c = true ->
  (forall h, advance (if connected_ok_ c then PConnected else PInit) (e h) = Some (if connected_ok_ c then PDone else PFailed)) ->
  (forall h, event_ok E (rq c) (e h)) -> (forall h, is_close_frame (e h) = false) ->
  conn_ok E (logged e (over c m ht ct ha ca)).
Proof.
  intros Hok Hd Ho Ha He Hf. destruct (phase_open c Hok Hd) as (p & Hp & [Hp1 Hp1'] & Hp2 & Hp3).
  pose proof (ok_close E c Hok) as Hcl. destruct Hok as [O1 O2 O3 O4 O5 O6 O7 O8 O9 O10 O11 O12].
  assert (Hov : handler_ (over c m ht ct ha ca) = handler_ c) by done.
  unfold logged. rewrite Hov. destruct (handler_ c) as [h|] eqn:Hh.
  - split; try done.
    + exists (if connected_ok_ c then PDone else PFailed). split_and!; try done; [|by intros Hu; change (upgraded_ c = true) in Hu; rewrite O2 in Hu; rewrite Hu]. change (phase_of (log_ c ++ [e h]) = Some (if connected_ok_ c then PDone else PFailed)). rewrite phase_of_snoc, Hp.
      rewrite Hp2 by done. apply Ha.
    + change (connect_notified_ (over c m ht ct ha ca)) with true. change (true = connected_ok_ c || true). by rewrite orb_true_r.
    + intros Hx. change (opened c = false) in Hx. congruence.
    + change (Forall (event_ok E (rq c)) (log_ c ++ [e h])). apply Forall_app. split; [done|]. by repeat constructor.
    + change (close_frames (log_ c ++ [e h]) <= if close_frame_sent_ (rq c) then 1 else 0).
      rewrite close_frames_app. unfold close_frames at 2. cbn. rewrite Hf. change (zlen (@nil event)) with 0. lia.
  - split; try done.
    + exists p. by split_and!.
    + change (true = connected_ok_ c || true). by rewrite orb_true_r.
Qed.

(** The end was delivered, but the channel is still there. *)
Record closing (c : conn) : Prop := {
  cg_quiet : fail_result_ c = BC_R_SUCCESS -> no_exception (log_ c);
  cg_delivered : delivered_ c = true;
  cg_opened : opened c = true
}.

Lemma stable_closing : stable closing.
Proof.
  intros c c' Hx [C1 C2 C3]. split.
  - rewrite (ext_field fail_result_ c c' Hx) by done. intros Hf x y Hin.
    destruct (ext_log _ _ Hx) as (l & Hl & Ha). rewrite Hl in Hin. apply elem_of_app in Hin as [Hin|Hin].
    + by eapply C1.
    + by apply (proj1 (Forall_forall _ _) Ha) in Hin.
  - by rewrite (ext_field delivered_ c c' Hx).
  - by apply (ext_opened _ _ Hx).
Qed.

(** The handler is told of the end. *)
Lemma tell_end id w0 w c f m ht ct ha ca e :
  held id w0 c -> live (Some f) c -> calm w0 w ->
  (forall h, advance (if connected_ok_ c then PConnected else PInit) (e h) = Some (if connected_ok_ c then PDone else PFailed)) ->
  (forall h, event_ok E (rq c) (e h)) -> (forall h, is_close_frame (e h) = false) -> (forall h x y, e h <> OnException x y) ->
  WP (notify E id e) (fun _ w' => at_ id closing w') (foc w id (over c m ht ct ha ca)).
Proof.
  intros Hh Hl Hw Ha He Hf Hx. destruct (held_ok _ _ _ Hh) as [Hok Hp]. pose proof (live_delivered _ _ Hl) as Hd.
  pose proof Hl as [[Hs _] _ [_ Ho]]. apply notify_at; [apply stable_closing|]. apply held_at.
  - eapply held_step; [exact Hh|done| |by apply over_ok|by apply parser_ok_logged].
    eapply linked_trans; [|apply linked_logged]. by split.
  - assert (Hov : handler_ (over c m ht ct ha ca) = handler_ c) by done. unfold logged. rewrite Hov.
    destruct (handler_ c); split; try done.
    intros Hr. by apply no_exception_snoc; [apply Hs|].
Qed.

Lemma ClassifyClose_foc id result w c Q :
  (forall w', calm w w' -> Q tt (foc w' id c)) -> WP (ClassifyClose id result) Q (foc w id c).
Proof.
  intros HQ. unfold ClassifyClose. apply does_bind, does_get.
  destruct (close_counter result _) as [k|] eqn:Hk; [|apply does_ret, HQ, calm_same].
  apply wp_bump, HQ. unfold close_counter in Hk.
  repeat match type of Hk with context [if ?b then _ else _] => destruct b end; try done; injection Hk as <-; by apply calm_bumped.
Qed.

Lemma DeliverOnce_ok id r why f w : at_ id (live (Some f)) w -> WP (DeliverOnce E id r why) (fun _ w' => at_ id closing w') w.
Proof.
  intros Hat. destruct (at_held _ _ _ Hat) as (c & Hc & Hw & Hh & Hl). rewrite Hw. clear Hw Hat Hc.
  destruct (held_ok _ _ _ Hh) as [Hok Hp]. pose proof (live_delivered _ _ Hl) as Hd.
  pose proof (ok_notified E c Hok) as Hn. rewrite Hd, orb_false_r in Hn.
  unfold DeliverOnce. apply does_bind, does_get. rewrite Hd. apply does_bind, does_put.
  unfold UnscheduleTimers. apply does_bind, does_bind, does_put, does_put.
  set (c1 := if (0 <? hs_timer_ (c <| delivered_ := true |>)) && _ then _ else _).
  set (c2 := if (0 <? check_timer_ c1) && channel_ c1 then _ else _).
  assert (H2 : exists ht ct ha ca, c2 = c <| delivered_ := true |> <| hs_timer_ := ht |> <| check_timer_ := ct |>
                                         <| hs_armed := ha |> <| check_armed := ca |>).
  { unfold c2, c1. clear. destruct c as [c01 c02 c03 c04 c05 c06 c07 c08 c09 c10 c11 c12 c13 c14 c15 c16 c17 c18 c19 c20 c21 c22 c23 c24 c25 c26 c27]. cproj.
    destruct (_ && _); destruct (_ && _); by repeat eexists. }
  clearbody c2. clear c1. destruct H2 as (ht & ct & ha & ca & H2).
  apply does_bind, does_get. destruct (final_result c2 r why) as [result message].
  apply does_bind, ClassifyClose_foc. intros w1 Hw1. apply does_bind, does_get.
  assert (Hco : connected_ok_ c2 = connected_ok_ c) by by rewrite H2. rewrite Hco.
  destruct (connected_ok_ c) eqn:Hcc; cbn [negb].
  - apply does_bind, does_put, does_bind, does_get. set (c3 := c2 <| last_error_message_ := message |>).
    assert (H3 : c3 = over c message ht ct ha ca).
    { unfold c3, over. rewrite H2. clear - Hn. destruct c as [c01 c02 c03 c04 c05 c06 c07 c08 c09 c10 c11 c12 c13 c14 c15 c16 c17 c18 c19 c20 c21 c22 c23 c24 c25 c26 c27]. cproj. cbn in Hn. by subst. }
    rewrite H3. eapply (tell_end id w w1 c f message); try done. by rewrite Hcc.
  - set (rm := if result =? BC_R_SUCCESS then (BC_R_UNEXPECTEDEND, EndedEarly) else (result, message)).
    assert (Hrm : rm.1 <> BC_R_SUCCESS) by (unfold rm; destruct (Z.eqb_spec result BC_R_SUCCESS); done).
    destruct rm as [r1 m1]. cbn [fst] in Hrm. apply does_bind, does_put. unfold DeliverConnectResult. apply does_bind, does_get.
    assert (Hcn : connect_notified_ (c2 <| last_error_message_ := m1 |>) = false) by (rewrite H2; exact Hn). rewrite Hcn.
    apply does_bind, does_put, does_bind, does_get. set (c3 := _ <| connected_ok_ ::= _ |>).
    assert (H3 : c3 = over c m1 ht ct ha ca).
    { unfold c3, over. rewrite H2, (proj2 (Z.eqb_neq _ _) Hrm). clear - Hcc.
      destruct c as [c01 c02 c03 c04 c05 c06 c07 c08 c09 c10 c11 c12 c13 c14 c15 c16 c17 c18 c19 c20 c21 c22 c23 c24 c25 c26 c27]. cproj. done. }
    rewrite H3. eapply (tell_end id w w1 c f m1); try done.
    + intros h. rewrite Hcc. cbn. by rewrite (proj2 (Z.eqb_neq _ _) Hrm).
    + by intros h Hs.
Qed.

(** The channel is gone and the removal is posted. *)
Definition gone (c : conn) : conn :=
  c <| channel_ := false |> <| told_closed := true |> <| hs_armed := false |> <| check_armed := false |>.

Definition posted (id : Z) (w : world) : world := w <| removals ::= fun l => l ++ [id] |>.

Lemma gone_ok c : conn_ok E c -> closing c -> conn_ok E (gone c) /\ settled (gone c).
Proof.
  intros [O1 O2 O3 O4 O5 O6 O7 O8 O9 O10 O11 O12] [C1 C2 C3]. split; [|by split]. split; try done.
Qed.

Lemma posted_resting id w0 w c : held id w0 c -> calm w0 w -> closing c -> forall info,
  resting (posted id (foc w id ((if channel_ c then c <| peer_info_ := info |> else c)
                     <| channel_ := false |> <| told_closed := true |> <| hs_armed := false |> <| check_armed := false |>))).
Proof.
  intros Hh Hw Hcl info. set (c1 := if channel_ c then c <| peer_info_ := info |> else c).
  assert (Hh1 : held id w c1).
  { unfold c1. by destruct (channel_ c); eapply held_same. }
  assert (Hc1 : closing c1) by (unfold c1; destruct (channel_ c); by destruct Hcl).
  clearbody c1. clear Hh Hcl. fold (gone c1). destruct (held_ok _ _ _ Hh1) as [Hok Hp].
  destruct (gone_ok _ Hok Hc1) as [Hok2 Hs2].
  destruct (held_at id w c1 closing Hh1 Hc1) as [[[[Hwi Hcs] Ht] Hr Hf] _].
  assert (Hrem : forall i, i ∈ removals (foc w id c1) -> i ∈ removals (posted id (foc w id (gone c1)))).
  { intros i Hi. change (i ∈ removals w ++ [id]). apply elem_of_app. by left. }
  split; [split; [split|]| |].
  - apply (winv_foc w id c1 (gone c1)) in Hwi. destruct Hwi as [W1 W2 W3 W4 W5 W6 W7 W8 W9 W10 W11]. by split.
  - intros i x Hx. change (objs (posted id (foc w id (gone c1)))) with (objs (foc w id (gone c1))) in Hx.
    destruct (decide (id = i)) as [<-|Hne].
    + rewrite lookup_foc in Hx. injection Hx as <-. destruct (Hcs id c1 (lookup_foc _ _ _)) as (_ & _ & [L1 L2 L3 L4]).
      split_and!; [done|exact Hp|]. split; [exact L1| | |exact L4].
      * intros _ _ _ _. split; [apply Hc1|by right].
      * intros _ _. change (id ∈ removals w ++ [id]). apply elem_of_app. right. by left.
    + rewrite lookup_foc_ne in Hx by done. destruct (Hcs i x) as (Hx1 & Hx2 & [L1 L2 L3 L4]); [by rewrite lookup_foc_ne|].
      split_and!; [done|done|]. split; [exact L1|exact L2| |exact L4]. intros Hto Hin. by apply Hrem, L3.
  - exact Ht.
  - intros i x Hx. change (objs (posted id (foc w id (gone c1)))) with (objs (foc w id (gone c1))) in Hx.
    destruct (decide (id = i)) as [<-|Hne].
    + rewrite lookup_foc in Hx. by injection Hx as <-.
    + rewrite lookup_foc_ne in Hx by done. apply (Hr i); [done|]. by rewrite lookup_foc_ne.
  - exact Hf.
Qed.

Lemma OnChannelClosed_ok id r why f w : at_ id (live (Some f)) w -> WP (OnChannelClosed E id r why) (fun _ w' => resting w') w.
Proof.
  intros Hat. unfold OnChannelClosed. eapply does_call; [by eapply DeliverOnce_ok|]. intros [] w1 Hat1.
  destruct (at_held _ _ _ Hat1) as (c & Hc & Hw & Hh & Hcl). rewrite Hw.
  apply does_bind, (does_ask K id). intros t. apply does_bind, does_put. apply does_puts.
  apply (posted_resting id w1 (ticked w1) c Hh); [apply calm_ticked|done].
Qed.

(** ** The connector's own steps *)

Lemma resting_kept w w' : (forall i c, objs w !! i = Some c -> settled c) -> callbacks_in_flight w = 0 -> kept E w w' -> resting w'.
Proof.
  intros Hs Hf [Hi Ha]. split; [done| |by rewrite (ae_flight _ _ Ha)]. intros i c' Hc'.
  destruct (objs w !! i) as [c|] eqn:Hc.
  - destruct (ae_old _ _ Ha i c Hc) as (c2 & Hc2 & Hx). rewrite Hc' in Hc2. injection Hc2 as <-.
    eapply settled_ext; [exact Hx|by eapply Hs].
  - by apply (ae_new _ _ Ha i).
Qed.

Definition unposted (id : Z) (w : world) : world := w <| removals ::= List.filter (fun i => negb (i =? id)) |>.

Lemma elem_filter_ne (l : list Z) id i : i ∈ List.filter (fun i => negb (i =? id)) l <-> i ∈ l /\ i <> id.
Proof. rewrite !list_elem_of_In, filter_In, negb_true_iff, Z.eqb_neq. done. Qed.

(** The connection leaves the map, if it is still there. *)
Definition removed (id : Z) (w : world) : world :=
  if bool_decide (id ∈ conns w) then bumped total_freed (dropped id (unposted id w)) else unposted id w.

Lemma removed_inv id w : inv E w -> inv_but E [] (removed id w).
Proof.
  intros [[Hw Hcs] Ht]. assert (Hw1 : winv (unposted id w)) by (destruct Hw as [W1 W2 W3 W4 W5 W6 W7 W8 W9 W10 W11]; by split).
  unfold removed. case_bool_decide as Hin.
  - split; [by apply winv_dropped|]. intros i x Hx. destruct (Hcs i x Hx) as (? & ? & [L1 L2 L3 L4]). split_and!; [done|done|].
    split; [exact L1| | |].
    + intros Hr Hc Hi Hn. apply (elem_dropped id i w) in Hi as [Hi _]. by apply L2.
    + intros Hto Hi. apply (elem_dropped id i w) in Hi as [Hi Hne]. apply elem_filter_ne. split; [by apply L3|done].
    + intros Ha Hi. apply (elem_dropped id i w) in Hi as [Hi _]. by apply L4.
  - split; [done|]. intros i x Hx. destruct (Hcs i x Hx) as (? & ? & [L1 L2 L3 L4]). split_and!; [done|done|].
    split; [exact L1|exact L2| |exact L4]. intros Hto Hi. change (i ∈ conns w) in Hi. apply elem_filter_ne. split; [by apply L3|].
    by intros ->.
Qed.

Definition removed_view (w : world) := (objs w, w_closing w, w_closed_notified w, w_handler w, abandoned w, created_ w, callbacks_in_flight w).

Lemma removed_same id w : removed_view (removed id w) = removed_view w.
Proof. unfold removed. by case_bool_decide. Qed.

Lemma Remove_ok id w : resting w -> WP (step E (InRemove id)) (fun _ w' => resting w') w.
Proof.
  intros [Hi Hs Hf]. pose proof (removed_inv id w Hi) as Hri. pose proof (removed_same id w) as Hv.
  injection Hv as V1 V2 V3 V4 V5 V6 V7. cbn [step]. apply does_bind, does_puts. fold (unposted id w).
  unfold RemoveConnAndMaybeNotify. apply does_bind, does_gets. change (conns (unposted id w)) with (conns w).
  assert (Hgo : forall m : M unit, WP m (fun _ w' => resting w') (removed id w) ->
    WP ((if bool_decide (id ∈ conns w) then
           puts (fun w => w <| conns ::= List.filter (fun i => negb (i =? id)) |>);; bump total_freed
         else ret tt);; m) (fun _ w' => resting w') (unposted id w)).
  { intros m Hm. unfold removed in Hm. apply does_bind. case_bool_decide; [|by apply does_ret].
    apply does_bind, does_puts, does_puts. exact Hm. }
  apply Hgo. clear Hgo. apply does_bind, does_gets. rewrite V2, V3, V4, V5.
  destruct (negb (abandoned w) && w_closing w && negb (w_closed_notified w) && bool_decide (conns (removed id w) = [])) eqn:Hb.
  - apply andb_true_iff in Hb as [Hb Hcs]. apply andb_true_iff in Hb as [Hb Hn]. apply andb_true_iff in Hb as [Ha Hcl].
    apply bool_decide_eq_true in Hcs. apply negb_true_iff in Ha, Hn.
    destruct (w_handler w) as [h|] eqn:Hh.
    + apply does_bind, does_puts, does_bind, does_puts, does_bind, does_puts.
      eapply does_mono; [apply (tell_ok (E:=E) (in_closed E) h (removed id w)); [apply in_closed_fine|done|by rewrite V2|done|by rewrite V3]|].
      intros [] w' Hk. apply (resting_kept (removed id w)); [|congruence|done]. rewrite V1. exact Hs.
    + apply does_ret. split; [split; [done|]|by rewrite V1|congruence].
      intros _ _ _ Hor. rewrite V4, V6 in Hor. destruct Hor as [?|Hcr]; [done|]. rewrite V3.
      apply (proj2 Hi Hcl); [by apply (wi_new w (inv_w E _ _ (proj1 Hi)))|done|by right].
  - apply does_ret. split; [split; [done|]|by rewrite V1|congruence].
    intros Hcl Hcs Ha _. rewrite V2 in Hcl. rewrite V5 in Ha. rewrite V3. rewrite Ha, Hcl, Hcs in Hb. cbn [negb andb] in Hb.
    rewrite bool_decide_true, andb_true_r in Hb by done. by apply negb_false_iff in Hb.
Qed.

Lemma Create_ok cfg h w : resting w -> lifetime w = Alive -> WP (step E (InCreate cfg h)) (fun _ w' => resting w') w.
Proof.
  intros [[[Hw Hcs] Ht] Hs Hf] Hl. cbn [step]. unfold Create. apply does_bind, does_bind, does_gets.
  destruct (created_ w) eqn:Hcr; [by apply does_ret, does_ret|].
  destruct (runtime_init E =? BC_R_SUCCESS); cbn [negb]; [|by apply does_ret, does_ret].
  apply does_bind, does_puts, does_bind, does_puts, does_bind, does_puts, does_bind, does_puts, does_ret, does_ret.
  assert (Hna : abandoned w = false).
  { destruct (abandoned w) eqn:Ha; [|done]. destruct (wi_abandoned w Hw Ha). congruence. }
  split; [split; [split|]| |done].
  - destruct Hw as [W1 W2 W3 W4 W5 W6 W7 W8 W9 W10 W11]. split; try done.
    + intros Ha. change (abandoned w = true) in Ha. congruence.
    + intros Hd. change (lifetime w = Destroyed) in Hd. congruence.
  - intros i x Hx. destruct (Hcs i x Hx) as (? & ? & Hlk). split_and!; [done|done|]. by eapply link_same; [|exact Hlk].
  - intros Hcl Hco Ha _. change (w_closed_notified w = true). apply Ht; try done. by right.
  - exact Hs.
Qed.

Definition life (d : destroy_state) (w : world) : world := w <| lifetime := d |>.

Lemma life_resting d w : resting w -> w_closing w = true -> d <> Alive -> (d = Destroyed -> gone_for_good w) -> resting (life d w).
Proof.
  intros [[[Hw Hcs] Ht] Hs Hf] Hcl Hd Hg. split; [split; [split|]| |done].
  - destruct Hw as [W1 W2 W3 W4 W5 W6 W7 W8 W9 W10 W11]. split; try done. intros Ha. split; [by apply W8|done].
  - intros i x Hx. destruct (Hcs i x Hx) as (? & ? & Hlk). split_and!; [done|done|]. by eapply link_same; [|exact Hlk].
  - exact Ht.
  - exact Hs.
Qed.

Lemma Destroy_ok w : resting w -> WP (step E InDestroy) (fun _ w' => resting w') w.
Proof.
  intros [Hi Hs Hf]. cbn [step]. eapply does_call; [apply (ConnectorClose_ok (E:=E)); [right; apply in_closed_fine|done]|].
  intros [] w' [Hk Hcl]. apply does_puts. apply (life_resting Draining w'); [by apply (resting_kept w)|done|done|done].
Qed.

Lemma Drained_ok w : resting w -> enabled InDrained w = true -> WP (step E InDrained) (fun _ w' => resting w') w.
Proof.
  intros Hr He. cbn [enabled] in He. destruct (lifetime w) eqn:Hl; try done. unfold drained in He. zbool.
  apply bool_decide_eq_true in H. cbn [step]. apply does_puts.
  pose proof (re_inv _ Hr) as [[Hw Hcs] Ht].
  assert (Hcl : w_closing w = true) by (apply (wi_life w Hw); congruence).
  apply (life_resting Destroyed w); try done. intros _. unfold gone_for_good.
  destruct (abandoned w) eqn:Ha; [by left|]. right. split_and!; [done|done|].
  destruct (w_handler w) eqn:Hh; [|by right]. left. apply Ht; try done. by left; rewrite Hh.
Qed.

(** Dropping the handlers. *)
Definition muted (c : conn) : conn := c <| handler_ := None |>.

Lemma each_put ids w :
  exists w', each (fun id => put id muted) ids w = inl (tt, w') /\ w' = w <| objs := objs w' |> /\
    (forall i, is_Some (objs w !! i) -> is_Some (objs w' !! i)) /\
    (forall i c', objs w' !! i = Some c' -> exists c, objs w !! i = Some c /\ (c' = c \/ c' = muted c) /\ (i ∈ ids -> handler_ c' = None)).
Proof.
  revert w. induction ids as [|id ids IH]; intros w.
  { exists w. split_and!; [done|by destruct w|done|]. intros i c' Hc'. exists c'. split_and!; [done|by left|]. intros H. by apply not_elem_of_nil in H. }
  destruct (IH (w <| objs ::= alter muted id |>)) as (w' & H1 & H2 & H3 & H4). exists w'. split_and!.
  - exact H1.
  - by rewrite H2.
  - intros i Hi. apply H3. change (is_Some (alter muted id (objs w) !! i)). destruct (decide (id = i)) as [<-|Hne].
    + rewrite lookup_alter_eq. by apply fmap_is_Some.
    + by rewrite lookup_alter_ne.
  - intros i c' Hc'. destruct (H4 i c' Hc') as (c & Hc & Hor & Hin). change (alter muted id (objs w) !! i = Some c) in Hc.
    destruct (decide (id = i)) as [<-|Hne].
    + rewrite lookup_alter_eq in Hc. destruct (objs w !! id) as [c0|] eqn:Hc0; [|done]. injection Hc as <-.
      exists c0. split_and!; [done| |].
      * right. by destruct Hor as [-> | ->].
      * intros _. by destruct Hor as [-> | ->].
    + rewrite lookup_alter_ne in Hc by done. exists c. split_and!; [done|done|]. intros Hi. apply Hin.
      apply elem_of_cons in Hi as [Hi|Hi]; [congruence|done].
Qed.

Lemma muted_ok c : conn_ok E c -> conn_ok E (muted c).
Proof.
  intros [O1 O2 O3 O4 O5 O6 O7 O8 O9 O10 O11 O12]. split; try done. destruct O1 as (p & P1 & P2 & P3). by exists p.
Qed.

Lemma Abandon_ok w : resting w -> enabled InDrainTimeout w = true -> WP (step E InDrainTimeout) (fun _ w' => resting w') w.
Proof.
  intros [[[Hw Hcs] Ht] Hs Hf] He. cbn [enabled] in He. destruct (lifetime w) eqn:Hl; try done.
  cbn [step]. unfold Abandon. apply does_bind, does_bind, does_puts, does_bind, does_gets.
  set (w1 := w <| abandoned := true |> <| w_handler := None |>). change (conns w1) with (conns w).
  destruct (each_put (conns w) w1) as (w' & H1 & H2 & H3 & H4). unfold wp at 1. change (fun c => c <| handler_ := None |>) with muted. rewrite H1.
  apply does_puts. rewrite H2. change (objs w1) with (objs w) in *.
  split; [split; [split|]| |done].
  - destruct Hw as [W1 W2 W3 W4 W5 W6 W7 W8 W9 W10 W11]. split; try done.
    + intros i Hi. apply H3. by apply W2.
    + intros _. apply W9. congruence.
    + intros _. by left.
  - intros i x Hx. destruct (H4 i x Hx) as (c & Hc & Hor & Hin). destruct (Hcs i c Hc) as (Hok & Hp & [L1 L2 L3 L4]).
    split_and!; [destruct Hor as [-> | ->]; [done|by apply muted_ok]|by destruct Hor as [-> | ->]|].
    split; [exact L1| | |done].
    + destruct Hor as [-> | ->]; [exact L2|exact L2].
    + destruct Hor as [-> | ->]; [exact L3|exact L3].
  - intros _ _ Ha _. done.
  - intros i x Hx. destruct (H4 i x Hx) as (c & Hc & Hor & _). destruct Hor as [-> | ->]; by apply (Hs i c).
Qed.

(** ** Every step *)

Lemma channel_live_at id w : resting w -> channel_live w id = true ->
  exists c, objs w !! id = Some c /\ at_ id (live (Some (fail_result_ c))) w.
Proof.
  intros Hr Hl. unfold channel_live in Hl. destruct (objs w !! id) as [c|] eqn:Hc; [|done].
  apply andb_true_iff in Hl as [Ho Ht]. apply negb_true_iff in Ht. exists c. split; [done|].
  eapply resting_at; [done|done|]. split; [by eapply re_settled|done|done].
Qed.

Lemma step_ok i w :
  resting w -> enabled i w = true ->
  (forall id data c, i = InData id data -> objs w !! id = Some c -> fail_result_ c <> BC_R_SUCCESS -> K AssertFailed) ->
  WP (step E i) (fun _ w' => resting w') w.
Proof.
  intros Hr He HK.
  assert (Hat : forall id (m : M unit), WP m (fun _ w' => at_ id settled w') w -> WP m (fun _ w' => resting w') w).
  { intros id m Hm. eapply does_mono; [exact Hm|]. intros [] w'. apply at_resting. }
  destruct i as [cfg h|a|id|id data|id r why|id|id|id| | |].
  - apply Create_ok; [done|]. cbn in He. by destruct (lifetime w).
  - cbn in He. apply bool_decide_eq_true in He. cbn [step].
    eapply does_mono; [apply (user_call_ok (E:=E)); [done|apply Hr]|]. intros [] w' Hk.
    apply (resting_kept w); [apply Hr|apply Hr|done].
  - destruct (channel_live_at id w Hr He) as (c & Hc & Hl). eapply (Hat id), OnChannelReady_ok. exact Hl.
  - cbn [enabled] in He. apply andb_true_iff in He as [He Hb]. apply bool_decide_eq_true in Hb.
    destruct (channel_live_at id w Hr He) as (c & Hc & Hl). eapply (Hat id), OnChannelData_ok; [done|exact Hl|]. intros Hf. by eapply HK.
  - destruct (channel_live_at id w Hr He) as (c & Hc & Hl). by eapply OnChannelClosed_ok.
  - cbn in He. destruct (objs w !! id) as [c|] eqn:Hc; [|done]. apply (Hat id), OnHandshakeTimer_ok.
    eapply resting_at; [done|exact Hc|]. split; [by eapply re_settled|done].
  - cbn in He. destruct (objs w !! id) as [c|] eqn:Hc; [|done]. apply (Hat id), OnActiveCheck_ok.
    eapply resting_at; [done|exact Hc|]. by eapply re_settled.
  - by apply Remove_ok.
  - by apply Destroy_ok.
  - by apply Drained_ok.
  - by apply Abandon_ok.
Qed.

End Steps.

(** ** Every reachable world *)

(** The crashes a step may end in: an assertion, for data after a failure, and the count. *)
Definition crash_allowed (i : input) (w : world) (x : crash) : Prop :=
  x = CountWraps \/
  x = AssertFailed /\ exists id data c, i = InData id data /\ objs w !! id = Some c /\ fail_result_ c <> BC_R_SUCCESS.

#[export] Instance crash_allowed_wraps i w : MayWrap (crash_allowed i w).
Proof. by left. Qed.

Lemma step_allowed E `{!EnvOk E} i w : resting (E:=E) w -> enabled i w = true ->
  wp (crash_allowed i w) (step E i) (fun _ w' => resting (E:=E) w') w.
Proof.
  intros Hr He. apply step_ok; [done|done|]. intros id data c -> Hc Hf. right. split; [done|]. by exists id, data, c.
Qed.

Lemma new_resting E : resting (E:=E) new_world.
Proof.
  split; [split; [split|]| |done].
  - split; try done; [constructor|]. intros i Hi. by apply not_elem_of_nil in Hi.
  - intros i c Hc. change ((∅ : gmap Z conn) !! i = Some c) in Hc. by rewrite lookup_empty in Hc.
  - done.
  - intros i c Hc. change ((∅ : gmap Z conn) !! i = Some c) in Hc. by rewrite lookup_empty in Hc.
Qed.

Lemma reachable_resting E `{!EnvOk E} w : reachable E w -> resting (E:=E) w.
Proof.
  induction 1 as [|w i w' _ IH He Hs]; [apply new_resting|].
  pose proof (step_allowed E i w IH He) as Hw. unfold wp in Hw. by rewrite Hs in Hw.
Qed.
