(* ===== verification/WSProperties.v ===== *)
(** * WSProperties: what the WebSocket connector guarantees

    The properties of [WSConnector] over every run, read off the invariant of WSInvariant
    and its preservation of WSSteps, and what one step does to a connection. At the end a
    small connector and its environment, in which the properties are tried. *)

From Stdlib Require Import ZArith Lia.
From stdpp Require Import base numbers option gmap list.
From S2P Require Import Prelude Results Utils VpnPolicy DnsMessage DnsResolver StreamParser Buffer WSParser HttpText TlsContext TcpChannel BCFObject WSConnector WSRobust WSInvariant WSSteps.

(** ** What the handler hears, by the phase of the log *)

Definition is_message (e : event) : bool :=
  match e with OnRecvText _ _ | OnRecvData _ _ _ | OnException _ _ => true | _ => false end.

(** The calls of a connection's handler: none; a refusal; or a success, messages, and when
    [closed] the end. *)
Definition failed_calls (l : list event) : Prop :=
  exists h r headers, l = [OnConnectResult h r headers] /\ r <> BC_R_SUCCESS.

Definition open_calls (l : list event) : Prop :=
  exists h headers msgs, l = OnConnectResult h BC_R_SUCCESS headers :: msgs /\ Forall (fun e => is_message e = true) msgs.

Definition closed_calls (l : list event) : Prop :=
  exists l' h text, l = l' ++ [OnClosed h text] /\ open_calls l'.

Definition phase_calls (p : phase) (l : list event) : Prop :=
  match p with
  | PInit | PUpgraded => l = []
  | PConnected => open_calls l
  | PFailed => failed_calls l
  | PDone => closed_calls l
  end.

Lemma phase_heard l p : phase_of l = Some p -> phase_calls p (List.filter heard_event l).
Proof.
  revert p. induction l as [|e l IH] using rev_ind; intros p; [by intros [= <-]|].
  rewrite phase_of_snoc, List.filter_app. destruct (phase_of l) as [q|]; [|done]. cbn [mbind option_bind].
  specialize (IH q eq_refl). set (m := List.filter heard_event l) in *. clearbody m. intros Hadv.
  destruct e as [| | | | |h r hd|h t|h b n|h x|h t]; cbn [advance] in Hadv; cbn [List.filter heard_event]; rewrite ?app_nil_r.
  - by injection Hadv as <-.
  - by injection Hadv as <-.
  - destruct q; try done; injection Hadv as <-; done.
  - destruct q; try done; injection Hadv as <-; done.
  - by injection Hadv as <-.
  - destruct q; try done; cbn [phase_calls] in IH; subst m; destruct (Z.eqb_spec r BC_R_SUCCESS) as [->|Hr]; try done;
      injection Hadv as <-.
    + by exists h, r, hd.
    + by exists h, hd, [].
  - destruct q; try done. injection Hadv as <-. destruct IH as (h0 & hd & msgs & -> & Hm).
    exists h0, hd, (msgs ++ [OnRecvText h t]). split; [done|]. apply Forall_app. split; [done|by repeat constructor].
  - destruct q; try done. injection Hadv as <-. destruct IH as (h0 & hd & msgs & -> & Hm).
    exists h0, hd, (msgs ++ [OnRecvData h b n]). split; [done|]. apply Forall_app. split; [done|by repeat constructor].
  - destruct q; try done. injection Hadv as <-. destruct IH as (h0 & hd & msgs & -> & Hm).
    exists h0, hd, (msgs ++ [OnException h x]). split; [done|]. apply Forall_app. split; [done|by repeat constructor].
  - destruct q; try done. injection Hadv as <-. by exists m, h, t.
Qed.

Lemma phase_none l : foldl (fun p e => p ← p; advance p e) None l = None.
Proof. by induction l. Qed.

Lemma phase_prefix l1 l2 p : phase_of (l1 ++ l2) = Some p -> exists q, phase_of l1 = Some q.
Proof.
  unfold phase_of. rewrite foldl_app. destruct (foldl _ (Some PInit) l1) as [q|]; [by exists q|]. by rewrite phase_none.
Qed.

Lemma phase_upgraded l q : phase_of l = Some q -> q <> PInit -> q <> PFailed -> exists s hd k, EvUpgraded s hd k ∈ l.
Proof.
  revert q. induction l as [|e l IH] using rev_ind; intros q; [by intros [= <-]|].
  rewrite phase_of_snoc. destruct (phase_of l) as [p|]; [|done]. cbn [mbind option_bind]. specialize (IH p eq_refl).
  assert (Hmore : (p <> PInit -> p <> PFailed -> exists s hd k, EvUpgraded s hd k ∈ l ++ [e])).
  { intros H1 H2. destruct (IH H1 H2) as (s & hd & k & Hin). exists s, hd, k. apply elem_of_app. by left. }
  intros Ha H1 H2. destruct e as [| |s hd k| | |h r hd| | | |]; cbn [advance] in Ha.
  3: { exists s, hd, k. apply elem_of_app. right. by left. }
  all: destruct p; try done; try (destruct (r =? BC_R_SUCCESS)); try done; simplify_eq; by apply Hmore.
Qed.

(** Frames stand behind the acceptance of the handshake. *)
Lemma frame_behind l1 op payload fr l2 p : phase_of (l1 ++ EvFrame op payload fr :: l2) = Some p ->
  exists s hd k, EvUpgraded s hd k ∈ l1.
Proof.
  intros H. replace (l1 ++ EvFrame op payload fr :: l2) with ((l1 ++ [EvFrame op payload fr]) ++ l2) in H by (by rewrite <- app_assoc).
  destruct (phase_prefix _ _ _ H) as [q Hq]. rewrite phase_of_snoc in Hq. destruct (phase_of l1) as [q1|] eqn:Hq1; [|done].
  eapply phase_upgraded; [done|..]; intros ->; done.
Qed.

(** ** Runs, and a small connector to try things in *)

(** The inputs one after the other: [None] when one is not enabled. *)
Fixpoint run_inputs (E : env) (is_ : list input) (w : world) : option (world + crash) :=
  match is_ with
  | [] => Some (inl w)
  | i :: rest =>
      if enabled i w then match step E i w with inl (_, w') => run_inputs E rest w' | inr x => Some (inr x) end
      else None
  end.

Lemma steps_reachable E is_ w w' : reachable E w -> run_inputs E is_ w = Some (inl w') -> reachable E w'.
Proof.
  revert w. induction is_ as [|i is_ IH]; intros w Hr H; cbn [run_inputs] in H; [by injection H as <-|].
  destruct (enabled i w) eqn:He; [|done]. destruct (step E i w) as [[[] w1]|x] eqn:Hs; [|done].
  eapply IH; [|exact H]. by eapply reachable_step.
Qed.

Definition toy_answer : list http_callback * llhttp_end :=
  ([http_on_status (str "Switching Protocols"); http_on_header_field (str "Upgrade"); http_on_header_value (str "websocket");
    http_on_header_field (str "Connection"); http_on_header_value (str "Upgr"); http_on_header_value (str "ade");
    http_on_header_field (str "Sec-WebSocket-Accept"); http_on_header_value (repeat 65 16 ++ WS_HANDSHAKE_GUID);
    http_on_headers_complete 101], HPE_PAUSED_UPGRADE 1).

(** The digests are the text itself; the answer to the handshake is one byte. The user
    answers his first messages with a text, and the end with a try to close again. *)
Definition toy : env :=
  {| ios_target := false; base64_encode := Some; SHA1 := fun b => b; rand_key := fun _ => repeat 65 16;
     rand_mask := fun n => [1; 2; 3; Z.of_nat n mod 256]; now_ms := fun n => 1000 * Z.of_nat n; runtime_init := BC_R_SUCCESS;
     chan_open := fun _ _ => BC_R_SUCCESS; open_error := fun _ => NoReason; chan_send := fun _ => BC_R_SUCCESS;
     chan_schedule := fun n => (BC_R_SUCCESS, 1 + Z.of_nat n); chan_info := fun _ => ([], 0, []);
     llhttp := fun _ data => match data with 1 :: _ => toy_answer | _ => ([], HPE_ERROR 0) end;
     user_calls := fun n => [CallSendText 1 (str "ok"); CallConnectorClose]; closer_races := fun _ => false |}.

#[global] Instance toy_ok : EnvOk toy.
Proof.
  split.
  - intros n. split; [|done]. pose proof (Z.mod_pos_bound (Z.of_nat n) 256 ltac:(lia)).
    repeat (constructor; [unfold is_byte; lia|]). constructor.
  - intros n a Ha. repeat (apply elem_of_cons in Ha as [-> | Ha]; [cbn; try done; by repeat constructor|]).
    by apply not_elem_of_nil in Ha.
Qed.

Definition toy_opening : list input :=
  [InCreate None (Some 7%nat); InCall (CallCreateConnection false None (Some 5%nat));
   InCall (CallConnect false 1 (str "ws://example.org/") 0); InReady 1; InData 1 [1]].

Definition world_of (r : option (world + crash)) : world := match r with Some (inl w) => w | _ => new_world end.
Definition conn_of (w : world) (id : Z) : conn := default (new_conn new_conn_config None) (objs w !! id).

Definition toy_open : world := world_of (run_inputs toy toy_opening new_world).
Definition toy_talk : world := world_of (run_inputs toy [InData 1 [0x81; 2; 104; 105; 0x88; 0]] toy_open).
Definition toy_end : world := world_of (run_inputs toy [InClosed 1 BC_R_SUCCESS NoReason; InRemove 1] toy_talk).

Lemma toy_open_reachable : reachable toy toy_open.
Proof.
  apply (steps_reachable toy toy_opening new_world); [constructor|]. unfold toy_open.
  destruct (run_inputs toy toy_opening new_world) as [[w|x]|] eqn:H; [done|..]; vm_compute in H; discriminate.
Qed.

Lemma toy_talk_reachable : reachable toy toy_talk.
Proof.
  apply (steps_reachable toy [InData 1 [0x81; 2; 104; 105; 0x88; 0]] toy_open); [apply toy_open_reachable|]. unfold toy_talk.
  destruct (run_inputs toy _ toy_open) as [[w|x]|] eqn:H; [done|..]; vm_compute in H; discriminate.
Qed.

Lemma toy_end_reachable : reachable toy toy_end.
Proof.
  apply (steps_reachable toy [InClosed 1 BC_R_SUCCESS NoReason; InRemove 1] toy_talk); [apply toy_talk_reachable|]. unfold toy_end.
  destruct (run_inputs toy _ toy_talk) as [[w|x]|] eqn:H; [done|..]; vm_compute in H; discriminate.
Qed.

(** ** Properties *)

Lemma reachable_conn E `{!EnvOk E} w id c : reachable E w -> objs w !! id = Some c ->
  conn_ok E c /\ parser_ok c /\ link E [] w id c /\ settled c.
Proof.
  intros Hr Hc. pose proof (reachable_resting E w Hr) as [[Hi _] Hs _].
  destruct (inv_conn E _ _ Hi id c Hc) as (? & ? & ?). split_and!; try done; by eapply Hs.
Qed.

(** C21: what the handler of a connection is told. In every reachable world a connection
    whose answer was not accepted has told its handler nothing, or, once the channel closed,
    exactly one result that is a failure; one whose answer was accepted has told it one
    success, then messages, and, exactly when the channel closed, the end as the last call. *)
Theorem handler_contract E `{!EnvOk E} w id c :
  reachable E w -> objs w !! id = Some c -> handler_ c <> None ->
  match upgraded_ c, told_closed c with
  | false, false => heard c = []
  | false, true => failed_calls (heard c)
  | true, false => open_calls (heard c)
  | true, true => closed_calls (heard c)
  end.
Proof.
  intros Hr Hc Hh. destruct (reachable_conn E w id c Hr Hc) as (Hok & _ & _ & _ & Hd).
  destruct (ok_phase E c Hok) as (p & Hp & Hn & _). pose proof (phase_heard _ _ Hp) as Hl. fold (heard c) in Hl.
  rewrite (Hn Hh) in Hl. unfold phase_now in Hl. rewrite Hd, <- (ok_upgraded E c Hok) in Hl.
  by destruct (upgraded_ c), (told_closed c).
Qed.

Lemma handler_contract_witness :
  let c := conn_of toy_end 1 in
  upgraded_ c = true /\ told_closed c = true /\ closed_calls (heard c).
Proof.
  intros c. split; [vm_compute; reflexivity|]. split; [vm_compute; reflexivity|].
  assert (Hc : objs toy_end !! 1 = Some c) by (vm_compute; reflexivity).
  pose proof (handler_contract toy toy_end 1 c toy_end_reachable Hc) as H.
  assert (Hh : handler_ c <> None) by (vm_compute; discriminate). specialize (H Hh).
  assert (Hu : upgraded_ c = true) by (vm_compute; reflexivity). assert (Ht : told_closed c = true) by (vm_compute; reflexivity).
  rewrite Hu, Ht in H. exact H.
Defined.

(** C23: a success is reported only for a checked handshake. The headers the handler gets
    with a success are an answer with status 101, Upgrade, Connection and the accept key of
    the key sent; and the only request sent is the one built for the URL of [Connect], the
    key and the headers set before it. *)
Theorem connected_only_verified E `{!EnvOk E} w id c :
  reachable E w -> objs w !! id = Some c ->
  (forall h headers, OnConnectResult h BC_R_SUCCESS headers ∈ log_ c ->
     CheckHandshakeResponse (base64_encode E) (SHA1 E) 101 headers (sec_key_ (rq c)) = None) /\
  (forall text, EvRequest text ∈ log_ c ->
     WSParseUrl (url_ (rq c)) = inr (parts_ (rq c)) /\
     BuildHandshakeRequest (parts_ (rq c)) (sec_key_ (rq c)) (extra_headers_ (rq c)) = inr text).
Proof.
  intros Hr Hc. destruct (reachable_conn E w id c Hr Hc) as (Hok & _). pose proof (proj1 (Forall_forall _ _) (ok_events E c Hok)) as He.
  split.
  - intros h headers Hin. destruct (He _ Hin eq_refl) as (status & Hch).
    assert (Hs : status = 101) by (unfold CheckHandshakeResponse in Hch; destruct (Z.eqb_spec status 101); done).
    by rewrite <- Hs at 1.
  - intros text Hin. pose proof (He _ Hin) as ->.
    destruct (opened c) eqn:Ho; [apply (ok_opened E c Hok Ho)|].
    by apply (proj1 (Forall_forall _ _) (ok_unopened E c Hok Ho)) in Hin.
Qed.

Lemma connected_only_verified_witness :
  let c := conn_of toy_open 1 in
  exists headers, OnConnectResult 5 BC_R_SUCCESS headers ∈ log_ c /\
    CheckHandshakeResponse Some (fun b => b) 101 headers (repeat 65 16) = None.
Proof.
  intros c. assert (Hc : objs toy_open !! 1 = Some c) by (vm_compute; reflexivity).
  destruct (connected_only_verified toy toy_open 1 c toy_open_reachable Hc) as [H _].
  assert (Hl : exists headers, log_ c !! 3%nat = Some (OnConnectResult 5 BC_R_SUCCESS headers)).
  { eexists. vm_compute. reflexivity. }
  destruct Hl as (headers & Hl). exists headers. apply list_elem_of_lookup_2 in Hl. split; [exact Hl|].
  apply (H _ _ Hl).
Defined.

(** C25: every frame sent is legal. Behind the acceptance of the handshake only, each is one
    final, masked frame with a known opcode, whose bytes are the encoding of its payload, at
    most 125 bytes for a control frame; and a connection sends at most one close frame. *)
Theorem frames_sent_legal E `{!EnvOk E} w id c :
  reachable E w -> objs w !! id = Some c ->
  close_frames (log_ c) <= 1 /\
  forall l1 op payload bs l2, log_ c = l1 ++ EvFrame op payload bs :: l2 ->
    (exists status headers key, EvUpgraded status headers key ∈ l1) /\
    exists key, bs = encode_frame {| f_fin := true; f_op := op; f_key := Some key; f_payload := payload |} /\
      bytes_ok key /\ zlen key = 4 /\ op ∈ [WS_OP_TEXT; WS_OP_BINARY; WS_OP_CLOSE; WS_OP_PING; WS_OP_PONG] /\
      bytes_ok payload /\ (control_opcode op = true -> zlen payload <= WS_MAX_CONTROL_PAYLOAD).
Proof.
  intros Hr Hc. destruct (reachable_conn E w id c Hr Hc) as (Hok & _). split.
  - pose proof (ok_close E c Hok). destruct (close_frame_sent_ (rq c)); lia.
  - intros l1 op payload bs l2 Hl. destruct (ok_phase E c Hok) as (p & Hp & _). rewrite Hl in Hp. split; [by eapply frame_behind|].
    pose proof (proj1 (Forall_forall _ _) (ok_events E c Hok) (EvFrame op payload bs)) as He. apply He.
    rewrite Hl. apply elem_of_app. right. by left.
Qed.

Lemma frames_sent_legal_witness :
  let c := conn_of toy_end 1 in close_frames (log_ c) = 1 /\ close_frames (log_ c) <= 1.
Proof.
  intros c. assert (Hc : objs toy_end !! 1 = Some c) by (vm_compute; reflexivity).
  split; [vm_compute; reflexivity|]. apply (frames_sent_legal toy toy_end 1 c toy_end_reachable Hc).
Defined.

(** An answer to the handshake cannot take more memory than the limits allow: at most
    200 headers, whose names and values together have at most twice 64 KiB (joining repeated
    headers adds two bytes each), and 16 KiB for the one being read. *)
Theorem answer_bounded E `{!EnvOk E} w id c :
  reachable E w -> objs w !! id = Some c ->
  zlen (hs_headers_ (hs c)) <= 200 /\ headers_size (hs_headers_ (hs c)) <= 2 * 65536 /\
  zlen (cur_field_ (hs c)) + zlen (cur_value_ (hs c)) <= 16384.
Proof.
  intros Hr Hc. destruct (reachable_conn E w id c Hr Hc) as (Hok & _). destruct (ok_answer E c Hok) as [A0 A1 A2 A3 A4].
  unfold kMaxHeaderCount, kMaxHeaderTotalBytes, kMaxSingleHeaderBytes in *.
  pose proof (zlen_nonneg (cur_field_ (hs c))). pose proof (zlen_nonneg (cur_value_ (hs c))). lia.
Qed.

Lemma answer_bounded_witness :
  let c := conn_of toy_open 1 in zlen (hs_headers_ (hs c)) = 3 /\ headers_size (hs_headers_ (hs c)) <= 2 * 65536.
Proof.
  intros c. assert (Hc : objs toy_open !! 1 = Some c) by (vm_compute; reflexivity).
  split; [vm_compute; reflexivity|]. apply (answer_bounded toy toy_open 1 c toy_open_reachable Hc).
Defined.

(** C22: the data of an upgraded connection that has not failed. One call of [OnChannelData]
    parses the bytes as [ParseWSFrame] does, tells the handler each text and binary message once and in order
    with whatever the user does in between, tells it of the exception if one was thrown, and
    keeps the parser's state; a thrown exception has failed the connection. Such a call does
    not crash, unless the 64-bit count of connections wraps (one on a connection that has
    failed can: [crashes_known]). *)
Theorem messages_delivered E `{!EnvOk E} w id c data :
  reachable E w -> objs w !! id = Some c -> channel_live w id = true -> bytes_ok data ->
  upgraded_ c = true -> fail_result_ c = BC_R_SUCCESS ->
  exists evs r, ParseWSFrame (parser_ c) data = Some (evs, r) /\
    match step E (InData id data) w with
    | inl (_, w') => exists c', objs w' !! id = Some c' /\
        heard c' = heard c ++ concat (map (told (handler_ c)) evs) ++ thrown (handler_ c) r /\
        match r with inl p => parser_ c' = p /\ fail_result_ c' = BC_R_SUCCESS | inr _ => fail_result_ c' <> BC_R_SUCCESS end
    | inr x => x = CountWraps
    end.
Proof.
  intros Hr Hc Hl Hb Hu Hf. pose proof (reachable_resting E w Hr) as Hre.
  destruct (reachable_conn E w id c Hr Hc) as (Hok & Hp & _ & Hs).
  pose proof (parsed_ok (parser_ c) data c Hp eq_refl Hs Hb) as Hpr.
  destruct (ParseWSFrame (parser_ c) data) as [[evs r]|] eqn:HP; [|done]. exists evs, r. split; [done|].
  assert (Hlive : live (Some (fail_result_ c)) c).
  { unfold channel_live in Hl. rewrite Hc in Hl. apply andb_true_iff in Hl as [Ho Ht]. apply negb_true_iff in Ht. by split. }
  assert (Hat : at_ (E:=E) id (talk (parser_ c) (handler_ c) (fail_result_ c) (heard c)) w)
    by (eapply resting_at; [done|exact Hc|by apply live_talk]).
  pose proof (OnChannelData_frames (E:=E) (K:=fun x => x = CountWraps) (KW:=eq_refl) id data _ _ _ _ w Hb Hat) as Hw.
  assert (Hno : fail_result_ c <> BC_R_SUCCESS -> AssertFailed = CountWraps) by done. specialize (Hw Hno).
  unfold wp in Hw. cbn [step]. destruct (OnChannelData E id data w) as [[[] w']|x]; [|exact Hw].
  destruct Hw as (evs' & r' & HP' & [_ (c' & Hc' & Hfed)]). rewrite HP in HP'. injection HP' as <- <-.
  exists c'. split; [done|]. destruct r as [p|[e p]]; cbn [fed thrown] in *.
  - destruct Hfed as [_ _ _ T4 _ T6 T7]. rewrite app_nil_r. split; [done|]. split; [done|congruence].
  - destruct Hfed as [_ _ _ T4 T5]. rewrite <- app_assoc in T5. by split.
Qed.

Lemma messages_delivered_witness :
  let c := conn_of toy_open 1 in
  match step toy (InData 1 [0x81; 2; 104; 105]) toy_open with
  | inl (_, w') => exists c', objs w' !! 1 = Some c' /\ heard c' = heard c ++ [OnRecvText 5 (str "hi")]
  | inr _ => False
  end.
Proof.
  intros c. assert (Hc : objs toy_open !! 1 = Some c) by (vm_compute; reflexivity).
  assert (Hl : channel_live toy_open 1 = true) by (vm_compute; reflexivity).
  assert (Hb : bytes_ok [0x81; 2; 104; 105]) by (apply (bool_decide_unpack _); vm_compute; exact I).
  assert (Hu : upgraded_ c = true) by (vm_compute; reflexivity). assert (Hf : fail_result_ c = BC_R_SUCCESS) by (vm_compute; reflexivity).
  destruct (messages_delivered toy toy_open 1 c _ toy_open_reachable Hc Hl Hb Hu Hf) as (evs & r & HP & H).
  assert (Hev : concat (map (told (handler_ c)) (match ParseWSFrame (parser_ c) [0x81; 2; 104; 105] with Some (evs, _) => evs | None => [] end))
                = [OnRecvText 5 (str "hi")] /\
                match ParseWSFrame (parser_ c) [0x81; 2; 104; 105] with Some (_, inl _) => true | _ => false end = true)
    by (vm_compute; split; reflexivity).
  rewrite HP in Hev. destruct Hev as [Hev Hin]. destruct r as [p|]; [|discriminate].
  destruct (step toy (InData 1 [0x81; 2; 104; 105]) toy_open) as [[[] w']|x] eqn:Hs.
  - destruct H as (c' & Hc' & Hh & _). exists c'. split; [exact Hc'|]. rewrite Hh, Hev. reflexivity.
  - exfalso. assert (Hn : match step toy (InData 1 [0x81; 2; 104; 105]) toy_open with inl _ => true | inr _ => false end = true)
      by (vm_compute; reflexivity). rewrite Hs in Hn. discriminate Hn.
Defined.

(** C27: how a step can crash. From a reachable world a step that can happen ends in no null
    pointer, in no call on a connection that is not there and in no second notice of the
    connector's end. It may only fail an assertion of the frame parser when data comes for a
    connection that has failed before, or wrap the count of connections. *)
Theorem crashes_known E `{!EnvOk E} w i x :
  reachable E w -> enabled i w = true -> step E i w = inr x ->
  x = CountWraps \/
  x = AssertFailed /\ exists id data c, i = InData id data /\ objs w !! id = Some c /\ fail_result_ c <> BC_R_SUCCESS.
Proof.
  intros Hr He Hs. pose proof (step_allowed E i w (reachable_resting E w Hr) He) as Hw. unfold wp in Hw. by rewrite Hs in Hw.
Qed.

Definition toy_bad : world := world_of (run_inputs toy [InData 1 [0xF1; 0]] toy_open).

Lemma toy_bad_reachable : reachable toy toy_bad.
Proof.
  apply (steps_reachable toy [InData 1 [0xF1; 0]] toy_open); [apply toy_open_reachable|]. unfold toy_bad.
  destruct (run_inputs toy _ toy_open) as [[w|x]|] eqn:H; [done|..]; vm_compute in H; discriminate.
Qed.

Lemma crashes_known_witness :
  AssertFailed = CountWraps \/
  AssertFailed = AssertFailed /\ exists id data c, InData 1 [0] = InData id data /\ objs toy_bad !! id = Some c /\
    fail_result_ c <> BC_R_SUCCESS.
Proof.
  assert (He : enabled (InData 1 [0]) toy_bad = true) by (vm_compute; reflexivity).
  assert (Hs : step toy (InData 1 [0]) toy_bad = inr AssertFailed) by (vm_compute; reflexivity).
  exact (crashes_known toy toy_bad (InData 1 [0]) AssertFailed toy_bad_reachable He Hs).
Defined.

(** The assertion can fail. After a frame with a reserved bit set, which fails the
    connection and closes its channel, one more byte of the peer, which the channel may
    still deliver, fails the assertion at the start of a frame. *)
Lemma data_after_error_aborts :
  exists w, reachable toy w /\ enabled (InData 1 [0]) w = true /\ step toy (InData 1 [0]) w = inr AssertFailed.
Proof.
  exists toy_bad. split; [apply toy_bad_reachable|]. split; vm_compute; reflexivity.
Qed.

(** The connector's books. In every reachable world the connections allocated are the
    ones freed and the ones it holds; it holds each once; and its handler is told of the end
    at most once, only after [Close] and when no connection is left. *)
Theorem connector_accounting E `{!EnvOk E} w :
  reachable E w ->
  counters w total_allocated = counters w total_freed + zlen (conns w) /\ NoDup (conns w) /\
  (forall id, id ∈ conns w -> is_Some (objs w !! id)) /\
  zlen (connector_closed w) <= 1 /\ (connector_closed w <> [] -> w_closing w = true /\ conns w = []).
Proof.
  intros Hr. pose proof (reachable_resting E w Hr) as [[[Hw _] _] _ _]. destruct Hw as [W1 W2 W3 W4 W5 W6 W7 W8 W9 W10 W11].
  split_and!; try done.
  - destruct (w_closed_notified w); lia.
  - intros Hn. apply W5. destruct (w_closed_notified w); [done|]. destruct Hn. apply zlen_0_nil.
    pose proof (zlen_nonneg (connector_closed w)). lia.
Qed.

Lemma connector_accounting_witness :
  connector_closed toy_end = [7%nat] /\ w_closing toy_end = true /\ conns toy_end = [].
Proof.
  assert (H : connector_closed toy_end = [7%nat]) by (vm_compute; reflexivity). split; [exact H|].
  apply (connector_accounting toy toy_end toy_end_reachable). rewrite H. discriminate.
Defined.

(** C26: closing the connector gets stuck nowhere. When no [Connect] is under way in another
    thread, each connection left after [WSConnector::Close] has an open channel that was told
    to close, or one that has closed and its removal posted; and when none is left the
    handler, if there is one, has been told. *)
Theorem closing_not_stuck E `{!EnvOk E} w :
  no_races E -> reachable E w -> w_closing w = true -> abandoned w = false -> created_ w = true ->
  (forall id, id ∈ conns w -> exists c, objs w !! id = Some c /\
     (channel_live w id = true /\ EvChannelClose ∈ log_ c \/ told_closed c = true /\ id ∈ removals w)) /\
  (conns w = [] -> w_handler w = None \/ w_closed_notified w = true).
Proof.
  intros Hnr Hr Hcl Ha Hcr. pose proof (reachable_resting E w Hr) as [[[Hw Hcs] Ht] _ _]. split.
  - intros id Hin. destruct (wi_known w Hw id Hin) as [c Hc]. exists c. split; [done|].
    destruct (Hcs id c Hc) as (_ & _ & Hl). destruct (told_closed c) eqn:Hto; [right; split; [done|by apply (lk_told E _ _ _ _ Hl)]|].
    left. unfold channel_live. rewrite Hc, Hto.
    destruct (lk_closing E _ _ _ _ Hl Hnr Hcl Hin) as [-> [?|?]]; [by apply not_elem_of_nil|done|congruence].
  - intros Hco. destruct (w_handler w) eqn:Hh; [|by left]. right. apply Ht; try done. left. by rewrite Hh.
Qed.

Lemma closing_not_stuck_witness :
  w_closing toy_talk = true /\ conns toy_talk = [1] /\ exists c, objs toy_talk !! 1 = Some c /\
    (channel_live toy_talk 1 = true /\ EvChannelClose ∈ log_ c \/ told_closed c = true /\ 1 ∈ removals toy_talk).
Proof.
  assert (Hn : no_races toy) by (intros n; reflexivity).
  assert (Hcl : w_closing toy_talk = true) by (vm_compute; reflexivity).
  assert (Hco : conns toy_talk = [1]) by (vm_compute; reflexivity).
  split; [exact Hcl|]. split; [exact Hco|].
  apply (closing_not_stuck toy toy_talk Hn toy_talk_reachable Hcl); [vm_compute; reflexivity|vm_compute; reflexivity|].
  rewrite Hco. left.
Defined.

(** After the connector was destroyed nobody calls the user through it. Either the
    connections drained, and its handler was told if there is one; or the time for that was
    over, and its handler and the handler of every connection left were dropped. *)
Theorem destroyed_is_quiet E `{!EnvOk E} w :
  reachable E w -> lifetime w = Destroyed ->
  w_closing w = true /\
  (abandoned w = false /\ conns w = [] /\ (w_closed_notified w = true \/ w_handler w = None) \/
   abandoned w = true /\ w_handler w = None /\
   forall id c, id ∈ conns w -> objs w !! id = Some c -> handler_ c = None).
Proof.
  intros Hr Hl. pose proof (reachable_resting E w Hr) as [[[Hw Hcs] Ht] _ _].
  split; [apply (wi_life w Hw); congruence|]. destruct (abandoned w) eqn:Ha.
  - right. split_and!; [done|by apply (wi_abandoned w Hw)|]. intros id c Hin Hc. destruct (Hcs id c Hc) as (_ & _ & Hlk).
    by apply (lk_abandoned E _ _ _ _ Hlk).
  - left. destruct (wi_destroyed w Hw Hl) as [?|(_ & ? & ?)]; [congruence|done].
Qed.

Definition toy_dropped : world := world_of (run_inputs toy [InDestroy; InDrainTimeout] toy_open).

Lemma toy_dropped_reachable : reachable toy toy_dropped.
Proof.
  apply (steps_reachable toy [InDestroy; InDrainTimeout] toy_open); [apply toy_open_reachable|]. unfold toy_dropped.
  destruct (run_inputs toy _ toy_open) as [[w|x]|] eqn:H; [done|..]; vm_compute in H; discriminate.
Qed.

Lemma destroyed_is_quiet_witness :
  conns toy_dropped = [1] /\ handler_ (conn_of toy_dropped 1) = None.
Proof.
  assert (Hl : lifetime toy_dropped = Destroyed) by (vm_compute; reflexivity).
  assert (Hco : conns toy_dropped = [1]) by (vm_compute; reflexivity). split; [exact Hco|].
  destruct (destroyed_is_quiet toy toy_dropped toy_dropped_reachable Hl) as [_ [(_ & H & _)|(_ & _ & H)]].
  - rewrite Hco in H. discriminate H.
  - apply (H 1); [rewrite Hco; left|vm_compute; reflexivity].
Defined.

(** ** Configuration *)

Definition is_u32 (n : Z) : Prop := 0 <= n < 2 ^ 32.

(** The limits and the policy of a connection's configuration. *)
Record conn_config_ok (p : TTVpnPolicy) (c : conn_config) : Prop := {
  cc_policy : c_policy c = p;
  cc_frame : 0 < maxFrameBytes c <= WSParser.UINT32_MAX;
  cc_times : is_u32 (connectTimeoutMs c) /\ is_u32 (pingIntervalMs c) /\ is_u32 (idleTimeoutMs c);
  cc_dns : is_u32 (cfg_timeoutMs (c_dns c));
  cc_servers : Forall (fun s => s <> []) (cfg_servers (c_dns c))
}.

Lemma u32_is n : is_u32 (u32 n).
Proof. apply (wrap_in_word 32). done. Qed.

Lemma array_texts_ok l : Forall (fun s => s <> []) (array_texts l).
Proof.
  unfold array_texts. induction l as [|s l IH]; [constructor|]. cbn. destruct (bytes_eqb (bcf_text s) []) eqn:E; [done|].
  constructor; [|done]. by apply bytes_eqb_false.
Qed.

Lemma comma_texts_ok s : Forall (fun s => s <> []) (comma_texts s).
Proof.
  unfold comma_texts. apply Forall_forall. intros p Hp. apply list_elem_of_In, filter_In in Hp as [_ Hp].
  apply negb_true_iff, bytes_eqb_false in Hp. done.
Qed.

Lemma ConnConfig_Init_ok p cfg c : conn_config_ok p c -> conn_config_ok p (ConnConfig_Init cfg c).
Proof.
  intros Hc. destruct cfg as [get|]; [|done]. unfold ConnConfig_Init. cbv zeta.
  match goal with |- context [on_number (get (str "dnsTimeoutMs")) ?f ?x] => set (c' := on_number (get (str "dnsTimeoutMs")) f x) end.
  assert (H' : conn_config_ok p c').
  { unfold c'. apply on_number_ok; [|intros n a _ [H0 H1 H2 H3 H4]; split; try done; apply u32_is].
    repeat (apply on_string_ok; [|by intros s a [H0 H1 H2 H3 H4]; split]).
    apply on_bool_ok; [|by intros s a [H0 H1 H2 H3 H4]; split].
    repeat (apply on_string_ok; [|by intros s a [H0 H1 H2 H3 H4]; split]).
    apply on_number_ok; [|by intros n a _ [H0 H1 H2 H3 H4]; split].
    apply on_number_ok; [|by intros n a _ [H0 H1 H2 H3 H4]; split].
    apply on_number_ok; [|intros n a _ [H0 H1 (H2a & H2b & H2c) H3 H4]; split; try done; split_and!; try done; apply u32_is].
    apply on_number_ok; [|intros n a _ [H0 H1 (H2a & H2b & H2c) H3 H4]; split; try done; split_and!; try done; apply u32_is].
    apply on_number_ok.
    2: { intros n a _ H. destruct (0 <? n); [|done]. destruct H as [H0 H1 (H2a & H2b & H2c) H3 H4]. split; try done; split_and!; try done; apply u32_is. }
    apply on_number_ok; [done|]. intros n a Hn H. cbv zeta.
    assert (Ha : conn_config_ok p (if UINT32_MAX <? n then a <| bad_max_frame_bytes := n |> else a))
      by (destruct (UINT32_MAX <? n); [by destruct H|done]).
    destruct (Z.ltb_spec 0 (if UINT32_MAX <? n then UINT32_MAX else n)) as [Hp|]; [|done].
    destruct Ha as [H0 H1 H2 H3 H4]. split; try done. cbn. unfold UINT32_MAX, WSParser.UINT32_MAX in *. revert Hp.
    destruct (Z.ltb_spec 0xFFFFFFFF n); lia. }
  clearbody c'. destruct H' as [H0 H1 H2 H3 H4].
  destruct (get (str "dnsServers")) as [[| [s|] | |l|]|]; split; try done;
    first [apply comma_texts_ok|apply array_texts_ok].
Qed.

Lemma ConnectorConfig_Init_ok ios cfg :
  let c := ConnectorConfig_Init ios cfg new_ws_config in
  (exists p, p <> TT_VPN_POLICY_UNSET /\ conn_config_ok p (conn_cfg c)) /\ 0 <= drain_timeout_ms c <= kMaxDrainMs.
Proof.
  cbv zeta. assert (Hnew : forall p, conn_config_ok p (new_conn_config <| c_policy := p |>)) by (by split).
  assert (Hres : forall e has b, exists p, (tt_vpn_policy_resolve (Some e) has b (tt_vpn_policy_platform_default ios)).1 = Some p /\ p <> TT_VPN_POLICY_UNSET).
  { intros e has b. destruct e, has, b, ios; eexists; (split; [reflexivity|discriminate]). }
  destruct cfg as [get|]; unfold ConnectorConfig_Init; cbv zeta.
  - destruct (match get (str "bypassVpn") with Some (BCFBool b) => (true, b) | _ => (false, false) end) as [has b].
    destruct (match get (str "vpnPolicy") with Some (BCFString raw) => _ | _ => _ end) as [e bad].
    destruct (Hres e has b) as (p & Hp & Hn). destruct (tt_vpn_policy_resolve _ _ _ _) as [policy both]. cbn [fst] in Hp. subst policy.
    set (c1 := if bytes_eqb bad [] then new_ws_config else new_ws_config <| bad_policy_text := bad |>).
    assert (H1 : conn_cfg c1 = new_conn_config /\ drain_timeout_ms c1 = 30000) by (unfold c1; by destruct (bytes_eqb bad [])).
    clearbody c1. destruct H1 as [H1 H2].
    match goal with |- context [on_number (get (str "drainTimeoutMs")) ?f ?x] => set (c3 := on_number (get (str "drainTimeoutMs")) f x) end.
    assert (H3 : conn_config_ok p (conn_cfg c3) /\ 0 <= drain_timeout_ms c3 <= kMaxDrainMs).
    { unfold c3. apply on_number_ok.
      - apply on_string_ok; [|done]. apply on_number_ok; [|done]. cbn. rewrite H1, H2. split; [apply Hnew|done].
      - intros n a Hn' [Ha1 Ha2]. cbv zeta. unfold kMaxDrainMs in *.
        destruct (Z.ltb_spec (5 * 60 * 1000) n); (split; [done|]).
        + change (0 <= u32 (5 * 60 * 1000) <= 5 * 60 * 1000). rewrite u32_small by lia. lia.
        + change (0 <= u32 n <= 5 * 60 * 1000). rewrite u32_small by lia. lia. }
    destruct H3 as [H3 H4]. split; [|exact H4]. exists p. split; [done|]. by apply ConnConfig_Init_ok.
  - destruct (Hres TT_VPN_POLICY_UNSET false false) as (p & Hp & Hn). rewrite Hp. split; [|done]. exists p. split; [done|apply Hnew].
Qed.

(** C28: a connector's configuration is well formed, whatever the object it was read from: the
    time to drain is at most five minutes, the VPN policy is resolved to one of the policies,
    and the configuration of each connection read over its own object keeps that policy and
    has a frame limit from one byte to the maximum of 32 bits, times of 32 bits, and no empty
    DNS server. *)
Theorem configuration_well_formed ios cfg cfg' :
  let c := ConnectorConfig_Init ios cfg new_ws_config in
  0 <= drain_timeout_ms c <= 300000 /\
  exists p, p <> TT_VPN_POLICY_UNSET /\ conn_config_ok p (conn_cfg c) /\ conn_config_ok p (ConnConfig_Init cfg' (conn_cfg c)).
Proof.
  intros c. destruct (ConnectorConfig_Init_ok ios cfg) as [(p & Hp & H1) H2]. split; [exact H2|].
  exists p. split_and!; [done|done|]. by apply ConnConfig_Init_ok.
Qed.
